(* ===== verification/_CoqProject ===== *)
-Q . S2P
Prelude.v
GoStrings.v
Domain.v
Json.v
Converters.v
Restored.v
World.v
Sql.v
Repos.v
Routing.v
Outbox.v
GoUrl.v
Scope.v
FetchWorker.v
GoNum.v
Sha256.v
Extraction.v
ParserWorker.v
GoTime.v
Csv.v
ExportWorker.v
JobService.v
Scheduler.v
Base64.v
Keyset.v
Pages.v
Pagination.v
GoFloat.v
GoDuration.v
RateLimiter.v
Registry.v
WorkerStream.v
Monitor.v
Lifecycle.v
Auth.v
Proto.v
Validation.v
JobListing.v
Api.v
Preview.v
Fetcher.v
Render.v
RobotsTxt.v
Messaging.v
MemoryBroker.v
Consumers.v
GrpcServer.v
Gateway.v
HttpApi.v
Sharding.v
Logger.v
Config.v
Telemetry.v
Wiring.v
ServiceProvider.v
Integrity.v
Relational.v
Schema.v
Statements.v
SqlRefines.v
SqlWrites.v
SqlListings.v
SqlRepos.v
System.v
Progress.v
Exported.v
