(* ===== verification/Prelude.v ===== *)
(** * A verification of the distributed crawler

    The program (Go, [src/internal]) crawls web sites.  A job ([CrawlJob]) has a configuration
    ([CrawlJobConfig]: seeds, scope, extraction, schedule) and tasks ([CrawlTask], one per page).
    Processes around one PostgreSQL database, an object store and a message broker move the tasks
    on:

    - the API server creates a job with its seed tasks and, in the same transaction, one outbox
      event per seed;
    - the outbox publisher turns events into crawl messages, and the recovery publishes tasks
      again that stand still;
    - fetch workers fetch the page of a crawl message, store it and send a parsing message;
    - parser workers extract data from the page, store it, insert the tasks of the links they
      find and send crawl messages for those;
    - export workers build the JSON and CSV reports of finished jobs;
    - the scheduler starts runs of configurations with a cron expression;
    - fetch workers share token buckets that limit the requests to a site;
    - every worker keeps a stream to the API server, on which it reports its health and is told to
      drain or to end.

    ** How the program is modelled

    [World]: the state is a record [world]: the tables ([database]), the transaction of the
    context, the object store, the messages published so far, and a counter of the calls made to
    the outside.  Stateful code is in the monad [M A = world -> outcome A * world]; an [outcome] is
    a returned value or a panic; a Go error result is a value of [res A].  What the outside does at
    the n-th call (it succeeds, fails without effect, or takes effect while the caller sees an
    error; the clock; random numbers; identifiers; locks of other sessions) is a function of [n],
    the class [Env], over which every theorem quantifies: a statement "for every [Env]" holds for
    every sequence of faults.  Loops that wait for tickers and channels take the list of their
    wakeups.  Code that shares channels or buffers between goroutines (the worker streams, the memory
    broker, the buffer of the logger) is a machine whose steps interleave in any order.  Integers are
    [Z] with their wrap-around written out; texts are [string]s of bytes; times are nanoseconds
    after Go's zero time; float64 arithmetic is exact arithmetic rounded to nearest.

    [System] puts the processes together: a step is one whole operation of one process over the
    shared world, with the broker's pending messages, which are delivered at least once by RabbitMQ
    and which Kafka and the memory broker may lose.  What two operations do to each other inside is
    not interleaved there.  [World.Publish] adds a message once, and when it answers without error the
    message is at the broker (the client uses no confirms, so RabbitMQ does not promise it); that a
    publication to RabbitMQ may write it up to three times is
    [Messaging.rabbit_publish_outcome], and [System] allows any message to be delivered again.

    Third-party code is a class with its documented laws, and each class has an instance with which
    the theorems' witnesses run:

    - of the whole: identifiers ([UuidLib]), [encoding/json] on texts ([JsonLib]; the conversion of
      structs to JSON values and back is written out), regular expressions of deny patterns
      ([RegexpLib]), goquery ([HtmlLib]), robfig/cron ([CronLib]), the order in which Go ranges over
      a map ([MapOrder]), what the servers answer when a process starts ([Servers]);
    - of the API: bcrypt ([PasswordLib]), JSON web tokens ([JwtLib]), mail addresses ([MailLib],
      [MailAddress]), random bytes ([RandLib]), presigned links ([PresignLib]), the HTTP mux
      ([HttpLib]), grpc-go ([GrpcLib]), the runtime of grpc-gateway with rs/cors ([GatewayLib]),
      bluemonday ([Sanitizer]), OpenTelemetry ([Otel]);
    - of the fetchers: [net/http] ([HttpClient]), chromedp ([Chrome]), the WebDriver ([WebDriver]),
      their waits and contexts ([Waiting]), Redis and the robots.txt parser ([RedisLib], [RobotsLib]);
    - of the brokers and the database: [AmqpLib], [AmqpConsumerLib], [AmqpQueue], [KafkaLib],
      [KafkaClientLib], [MemoryClientLib], [PgLib].

    Components meet behind classes of their own: the workers are verified against
    [RobotsTxtService] and [FetchServices], of which [RobotsTxt] and [Fetcher] give the program's
    instances; the two rate limiters are instances of [Limiter] that satisfy [Refines]; the
    repositories run on any [Sharding.DB].

    ** The files

    - [Prelude], [GoStrings], [GoNum], [GoUrl], [GoTime], [GoDuration], [GoFloat], [Sha256], [Csv],
      [Base64]: what the source uses of Go's standard library: errors, machine integers, strings,
      strconv, net/url, RFC 3339, time.ParseDuration, float64, crypto/sha256, encoding/csv with a
      reader of RFC 4180, encoding/base64.
    - [Domain]: [domain/crawl], [domain/auth] and [infra/messaging/messages.go]: records,
      enumerations, state changes.
    - [Json], [Converters], [Restored]: JSON values, rows and their conversions
      ([postgres/snapshots], [postgres/converters], JSONB columns through float64).
    - [World], [Sql], [Repos]: the world, [transaction/transaction.go], the meaning of the SQL on
      rows, and every method of [postgres/repos] as an operation on rows; [Relational], [Schema],
      [Statements], [SqlListings]: SQL on columns with three-valued logic, joins, constraints and
      cascades, the tables that [postgres/migrations] build, and the statement of every method as its
      source writes it; [SqlRefines], [SqlWrites], [SqlRepos]: both do the same; [Sharding]: [persistence/shard.go],
      [pg/sharded_client.go], [pg/merged_rows.go], [transaction/sharded_transaction.go].
    - [Routing]: [models/queue_routing.go]; [Outbox]: [worker/outbox_publisher.go],
      [worker/stuck_task_recovery.go]; [Scope]: [models/scoperules.go],
      [services/fetcher/scope_validator.go].
    - [FetchWorker]: [worker/fetch_worker.go]; [Extraction], [ParserWorker]:
      [worker/parser_worker.go]; [ExportWorker]: [worker/export_worker.go]; [Scheduler]:
      [worker/scheduler_worker.go].
    - [Fetcher], [Render]: [infra/services/fetcher] (HTTP; browser and Selenium); [RobotsTxt],
      [RateLimiter]: [infra/cache], the token buckets in memory and in the Redis script as
      refinements of one abstract bucket.
    - [Messaging], [Consumers]: [rabbitmq/client.go], [kafka/client.go]: publication, handling of a
      delivery, and the loops of the consumers; [MemoryBroker]: [infra/messaging/memory/broker].
    - [JobService], [Keyset], [Pages], [Pagination], [JobListing], [Api], [Preview]: the services and
      handlers of jobs, tasks, listings, downloads and previews; [Proto]:
      [api/crawl_job/converter.go]; [Validation]: [interceptor/validate.go] with the rules of the
      requests in [pkg/v1]; [Auth]: [service/auth], [service/user], [internal/auth] and the handlers
      [api/auth], [api/user]: sessions, access tokens, roles.
    - [Registry], [WorkerStream], [Monitor]: [workerhealth/registry.go] with Go's channels in a store;
      [api/worker/worker_impl.go] as a machine of interleaved steps; [worker/monitoring.go] and the
      draining of [app/worker_app.go]; [Lifecycle]: the goroutines of a worker process, from
      [WorkerApp.Run] to its end.
    - [GrpcServer], [Gateway], [HttpApi]: [pkg/v1/service_grpc.pb.go] with the chain of interceptors,
      [pkg/v1/service.pb.gw.go] with the routes of [app/api_app.go], and what one can do over HTTP.
    - [Logger]: [infra/logger/opensearch_core.go], its buffers as Go slices on a heap; [Telemetry]:
      [internal/telemetry]: sampler, trace contexts, shutdown.
    - [Config], [Wiring], [ServiceProvider]: [config/env], [app/worker_app.go],
      [app/service_provider.go], [app/api_app.go]: what a process reads, connects to and builds.
    - [Integrity], [System], [Progress], [Exported]: what no operation breaks, the processes together,
      that tasks come to an end and that finished jobs are exported.

    ** What the theorems show

    - The whole: [System.no_task_stranded] (in every state the processes can reach, under any faults,
      the keys of the tables hold, pages and results are stored and, with RabbitMQ, a task that waits
      to be parsed has its message), [Progress.tasks_can_finish] (from every such state that can be
      read, once the services answer, a task that stands still, or with RabbitMQ one that waits to be
      parsed, can come to its end within three steps), [Exported.exports_complete] (and a poll
      exports every finished job of its batch).
    - Nothing is lost between the processes: [World.ReadCommitted_atomic] (transactions),
      [JobService.CreateCrawlJob_atomic], [Outbox.processed_events_published],
      [Outbox.outbox_drains], [Outbox.recovery_republishes], [FetchWorker.fetch_message_outcome],
      [ParserWorker.parser_message_settled], [Messaging.rabbit_publish_outcome],
      [Consumers.rabbit_consumer_sound], [MemoryBroker.memory_broker_sound].
    - The crawl stays where it is allowed: [Scope.Validate_spec],
      [Scope.CompileAllowedURLPattern_spec], [RobotsTxt.robots_decision],
      [ParserWorker.parser_frontier].
    - Pages are fetched, or given up: [Fetcher.http_fetch_outcome], [Render.render_fetch_outcome].
    - The data is what was extracted: [Extraction.extractField_typed],
      [ExportWorker.export_reads_parser_result], [ExportWorker.csv_report_reads_back],
      [ExportWorker.exports_safe], [Converters.snapshots_roundtrip], [Proto.config_api_roundtrip].
    - The statements have the right columns, conditions and order: [SqlRepos.statements_refine] (every
      program of repository calls and transactions does on the tables what it does on rows).
    - Listings are complete: [Pagination.list_tasks_complete], [JobListing.list_jobs_complete].
    - Rates are kept, when a bucket is full again by the time the limiters forget it: [RateLimiter.limiters_refine_bucket], [RateLimiter.limiters_keep_rate],
      [RateLimiter.retry_after_suffices].
    - Workers are supervised: [WorkerStream.coordinator_sound], [WorkerStream.sender_flushes],
      [Monitor.drain_takes_effect], [WorkerStream.list_workers_current]; they end in order:
      [Lifecycle.closed_after_work], [Lifecycle.drained_process_closes].
    - Access is limited and requests are valid: [Auth.login_single_session],
      [Auth.refresh_single_use], [Auth.login_grants_role], [HttpApi.http_access_controlled],
      [HttpApi.http_is_grpc], [Api.routes_guarded],
      [Api.links_lead_to_row_files], [Preview.create_preview_outcome],
      [Validation.requests_validated].
    - Schedules run once: [Scheduler.processConfig_outcome], [Scheduler.processSchedules_returns].
    - Sharding changes nothing for a keyed call: [Sharding.keyed_refines]; and breaks bulk creation
      without key: [Sharding.sharded_bulk_create_fails].
    - Load is spread by weight: [Routing.select_weighted].
    - Behaviour at the edges that a user of the code has to know:
      [Outbox.poison_event_blocks], [Routing.select_wraps_and_panics],
      [Converters.max_depth_through_jsonb], [Pagination.negative_limit_panics],
      [Scheduler.never_activating_schedule_runs], [RateLimiter.slow_rate_exceeded],
      [WorkerStream.reconnect_takes_new_stream_down], [Auth.refresh_race],
      [Telemetry.sampler_at_rate_one], [Telemetry.exporters_stop_first].

    ** Bounds and fuel

    [Scheduler.processSchedules] walks the pages of configurations with as many steps as there are
    configurations, plus one; [Scheduler.processSchedules_returns] shows that this is enough.
    [Pagination.read_tasks] and [JobListing.read_jobs] are clients that make at most as many requests
    as there are rows, plus one, which the theorems on the listings show to be enough.  The loops of
    [Render] that wait for a page take [Render.enough_fuel] rounds, which
    [Render.render_fetch_outcome] shows to be enough whatever the page does, calls that are never
    answered included.
    [GoDuration.duration_parts] takes the length of its text.  The consumers of [Consumers] run for
    any number of steps.  Other recursions are structural, or on the length of their input
    ([Sql.like_match], [GoUrl]).

    ** What is not modelled

    Log records (but their delivery to OpenSearch is), metrics and spans have no effect on the state
    and are left out.  So are: in [pkg/v1] the messages with their getters and descriptors, the gateway
    handlers that call a server in-process (never registered), the stubs of the memory broker and the
    rules of responses (which nobody calls); the mocks; what the mains of [cmd] do besides calling the
    constructors of [app] and waiting for a signal; the indexes of the migrations that are not unique,
    their way back, and the table of the previews, whose UUID column reads several texts as one value;
    the operations of [MinIOStore] that nobody calls; the policy the HTML sanitizer is configured with,
    whose meaning is that of bluemonday.  Lengths of VARCHAR columns, the precision of timestamps and
    the collation of the database (text compares byte by byte) are not modelled, nor that PostgreSQL
    refuses texts with a NUL.  The services of the API process are built one after the other in
    [ServiceProvider], as its goroutines are not. *)

From Stdlib Require Export ZArith QArith Ascii Lia.
From stdpp Require Export base gmap sets strings pretty sorting numbers option list.

#[export] Set Default Goal Selector "!".
Open Scope Z_scope.

(** ** Machine integers of Go, as [Z] with the wrap-around written out *)

Definition wrapu (w : Z) (x : Z) : Z := x mod 2 ^ w.
Definition wraps (w : Z) (x : Z) : Z := (x + 2 ^ (w - 1)) mod 2 ^ w - 2 ^ (w - 1).

Definition uint64_max : Z := 2 ^ 64 - 1.
Definition int64_max : Z := 2 ^ 63 - 1.
Definition int64_min : Z := - 2 ^ 63.

Lemma wrapu_range w x : 0 <= w -> 0 <= wrapu w x < 2 ^ w.
Proof. intros H. apply Z.mod_pos_bound. lia. Qed.

Lemma wrapu_small w x : 0 <= x < 2 ^ w -> wrapu w x = x.
Proof. intros H. by apply Z.mod_small. Qed.

Lemma wraps_range w x : 0 < w -> - 2 ^ (w - 1) <= wraps w x < 2 ^ (w - 1).
Proof.
  intros H. unfold wraps.
  assert (E : 2 ^ w = 2 * 2 ^ (w - 1)) by (rewrite <- Z.pow_succ_r by lia; f_equal; lia).
  pose proof (Z.mod_pos_bound (x + 2 ^ (w - 1)) (2 ^ w)). lia.
Qed.

Lemma wraps_small w x : 0 < w -> - 2 ^ (w - 1) <= x < 2 ^ (w - 1) -> wraps w x = x.
Proof.
  intros Hw Hx. unfold wraps.
  assert (E : 2 ^ w = 2 * 2 ^ (w - 1)) by (rewrite <- Z.pow_succ_r by lia; f_equal; lia).
  rewrite Z.mod_small; lia.
Qed.

(** ** Time: [time.Time] as nanoseconds since Go's zero time, [time.Duration] as an int64 count
    of nanoseconds; [t.Sub u] saturates as the standard library's does *)

Definition IsZero (t : Z) : bool := bool_decide (t = 0).
Definition time_Sub (t u : Z) : Z := Z.max int64_min (Z.min int64_max (t - u)).
Definition After (t u : Z) : bool := bool_decide (u < t).
Definition Before (t u : Z) : bool := bool_decide (t < u).

Definition Nanosecond : Z := 1.
Definition Millisecond : Z := 1000000.
Definition Second : Z := 1000 * Millisecond.
Definition Minute : Z := 60 * Second.
Definition Hour : Z := 60 * Minute.

Lemma time_Sub_exact t u : int64_min <= t - u <= int64_max -> time_Sub t u = t - u.
Proof. unfold time_Sub. lia. Qed.

(** ** Errors: a chain of wrapped errors with its message *)

Inductive gerror :=
| ENew (msg : string)                      (* errors.New, fmt.Errorf without %w *)
| ESentinel (name msg : string)            (* a package-level error variable *)
| EWrap (pre : string) (inner : gerror) (post : string) (* fmt.Errorf with one %w *)
| ENonRetryable (inner : gerror).          (* messaging.NonRetryableError *)

Fixpoint Error (e : gerror) : string :=
  match e with
  | ENew m => m
  | ESentinel _ m => m
  | EWrap pre e post => pre +:+ Error e +:+ post
  | ENonRetryable e => Error e
  end.

(** [fmt.Errorf("pre: %w", err)]. *)
Definition Errorf (pre : string) (e : gerror) : gerror := EWrap (pre +:+ ": ") e "".

(** [errors.Is(err, sentinel)], a sentinel being known by its name. *)
Fixpoint errors_Is (e : gerror) (target : string) : bool :=
  match e with
  | ENew _ => false
  | ESentinel n _ => bool_decide (n = target)
  | EWrap _ e _ => errors_Is e target
  | ENonRetryable e => errors_Is e target
  end.

Inductive res (A : Type) :=
| Ok (a : A)
| Err (e : gerror).
Arguments Ok {A} a.
Arguments Err {A} e.

Definition is_ok {A} (r : res A) : bool := match r with Ok _ => true | Err _ => false end.

#[export] Instance gerror_eq_dec : EqDecision gerror.
Proof. solve_decision. Defined.

#[export] Instance res_eq_dec {A} `{EqDecision A} : EqDecision (res A).
Proof. solve_decision. Defined.

#[export] Instance res_ret : MRet res := fun A a => Ok a.
#[export] Instance res_bind : MBind res := fun A B f r =>
  match r with Ok a => f a | Err e => Err e end.
#[export] Instance res_fmap : FMap res := fun A B f r =>
  match r with Ok a => Ok (f a) | Err e => Err e end.

(** [map_res f l] runs [f] on the elements in order and stops at the first error. *)
Fixpoint map_res {A B} (f : A -> res B) (l : list A) : res (list B) :=
  match l with
  | [] => Ok []
  | x :: l => y ← f x; ys ← map_res f l; Ok (y :: ys)
  end.

(** ** Generic lemmas *)

(** A boolean comparison as a decidable relation. *)
Definition bool_rel {A} (f : A -> A -> bool) (x y : A) : Prop := f x y = true.
#[export] Instance bool_rel_dec {A} (f : A -> A -> bool) x y : Decision (bool_rel f x y).
Proof. unfold bool_rel. apply _. Defined.

Lemma forallb_Forall_true {A} (f : A -> bool) l :
  forallb f l = true <-> Forall (fun x => f x = true) l.
Proof.
  induction l as [|x l IH]; simpl; [by split|].
  rewrite andb_true_iff, IH, Forall_cons. done.
Qed.

Lemma not_existsb {A} (p : A -> bool) l : negb (existsb p l) = true <-> forall x, x ∈ l -> p x = false.
Proof.
  rewrite negb_true_iff. split.
  - intros E x Hx. destruct (p x) eqn:Ex; [|done].
    assert (existsb p l = true) by (apply existsb_exists; exists x; split; [by apply list_elem_of_In|done]).
    congruence.
  - intros Hp. apply not_true_iff_false. intros (x & Hx & Ex)%existsb_exists.
    apply list_elem_of_In in Hx. rewrite (Hp x Hx) in Ex. done.
Qed.

Lemma res_bind_Ok {A B} (r : res A) (f : A -> res B) b :
  (r ≫= f) = Ok b -> exists a, r = Ok a /\ f a = Ok b.
Proof. destruct r as [a|e]; [|done]. by exists a. Qed.

Lemma map_res_elem {A B} (f : A -> res B) l l' y :
  map_res f l = Ok l' -> y ∈ l' -> exists x, x ∈ l /\ f x = Ok y.
Proof.
  revert l'. induction l as [|x l IH]; simpl; intros l' E Hy.
  - injection E as <-. by inversion Hy.
  - destruct (f x) as [z|] eqn:Ez; [|done]. simpl in E.
    destruct (map_res f l) as [zs|] eqn:Ezs; [|done]. simpl in E. injection E as <-.
    apply elem_of_cons in Hy as [->|Hy]; [exists x; split; [left|done]|].
    destruct (IH zs eq_refl Hy) as (x' & ? & ?). exists x'. split; [by right|done].
Qed.

Lemma map_res_in {A B} (f : A -> res B) l l' x :
  map_res f l = Ok l' -> x ∈ l -> exists y, y ∈ l' /\ f x = Ok y.
Proof.
  intros E Hin. revert l' E. induction Hin as [x l|x y l Hin IH]; simpl; intros l' E.
  - destruct (f x) as [z|]; [|done]. simpl in E. destruct (map_res f l); [|done].
    injection E as <-. exists z. split; [left|done].
  - destruct (f y) as [z|]; [|done]. simpl in E. destruct (map_res f l) as [zs|]; [|done].
    injection E as <-. destruct (IH zs eq_refl) as (u & ? & ?). exists u. split; [by right|done].
Qed.

Lemma map_res_total {A B} (f : A -> res B) l :
  (forall x, x ∈ l -> is_ok (f x) = true) ->
  exists l', map_res f l = Ok l' /\ forall x, x ∈ l -> exists y, y ∈ l' /\ f x = Ok y.
Proof.
  induction l as [|x l IH]; simpl; intros Hf.
  - exists []. split; [done|]. intros x Hx. by inversion Hx.
  - pose proof (Hf x ltac:(left)) as Hx. destruct (f x) as [y|] eqn:Ex; [|done].
    destruct IH as (l' & E & Hl'); [intros; apply Hf; by right|].
    simpl. rewrite E. exists (y :: l'). split; [done|]. intros z Hz.
    apply elem_of_cons in Hz as [->|Hz]; [exists y; split; [left|done]|].
    destruct (Hl' z Hz) as (u & ? & ?). exists u. split; [by right|done].
Qed.

(** ** Tactics and hint databases of the development *)

Create HintDb crawler discriminated.
Create Rewrite HintDb crawler.
#[export] Hint Resolve wrapu_range wraps_range : crawler.

(** Case analysis on every [match] of the goal, closing the absurd cases. *)
Ltac split_matches :=
  repeat (case_match; simplify_eq/=; try done).

(** The same for the matches of a hypothesis. *)
Ltac inv_res H :=
  repeat match type of H with
  | Ok _ = Ok _ => injection H as H; subst
  | Err _ = Err _ => injection H as H; subst
  | Ok _ = Err _ => discriminate H
  | Err _ = Ok _ => discriminate H
  | context [match ?x with _ => _ end] => destruct x eqn:?; simplify_eq/=; try done
  end.

Lemma map_res_take {A B} (f : A -> res B) n l l' :
  map_res f l = Ok l' -> map_res f (take n l) = Ok (take n l').
Proof.
  revert n l'. induction l as [|x l IH]; intros n l' E; simpl in E.
  - injection E as <-. by rewrite !take_nil.
  - apply res_bind_Ok in E as (y & Ey & E). apply res_bind_Ok in E as (ys & Eys & [= <-]).
    destruct n; [done|]. simpl. rewrite Ey. simpl. by rewrite (IH _ _ Eys).
Qed.

Lemma map_res_length {A B} (f : A -> res B) l l' : map_res f l = Ok l' -> length l' = length l.
Proof.
  revert l'. induction l as [|x l IH]; intros l' E; simpl in E; [by injection E as <-|].
  apply res_bind_Ok in E as (y & Ey & E). apply res_bind_Ok in E as (ys & Eys & [= <-]).
  simpl. f_equal. by apply IH.
Qed.

Lemma map_res_app_inv {A B} (f : A -> res B) l1 l2 l' :
  map_res f (l1 ++ l2) = Ok l' ->
  exists l1' l2', map_res f l1 = Ok l1' /\ map_res f l2 = Ok l2' /\ l' = l1' ++ l2'.
Proof.
  revert l'. induction l1 as [|x l IH]; intros l' E; simpl in E; [by eexists [], l'|].
  apply res_bind_Ok in E as (y & Ey & E). apply res_bind_Ok in E as (ys & Eys & [= <-]).
  destruct (IH _ Eys) as (l1' & l2' & E1 & E2 & ->).
  eexists (y :: l1'), l2'. simpl. by rewrite Ey, E1.
Qed.

Lemma map_res_last {A B} (f : A -> res B) l l' x :
  map_res f l = Ok l' -> last l = Some x -> exists y, f x = Ok y /\ last l' = Some y.
Proof.
  intros E [k ->]%last_Some. apply map_res_app_inv in E as (l1 & l2 & _ & E2 & ->). simpl in E2.
  apply res_bind_Ok in E2 as (y & Ey & [= <-]). exists y. by rewrite last_snoc.
Qed.
