(* ===== verification/GoStrings.v ===== *)
(** * Go's [strings] functions on byte strings

    A Go string is a sequence of bytes; here [string] (of [ascii]) with the conversions to
    [list ascii].  [TrimSpace] knows Unicode's white space in UTF-8; [ToLower] and [ToUpper] map the
    ASCII letters and leave every byte above 0x7F alone.  [QuoteMeta] is [regexp.QuoteMeta]. *)

From S2P Require Import Prelude.

Abbreviation bytes_of := String.list_ascii_of_string.
Abbreviation of_bytes := String.string_of_list_ascii.

Definition code (c : ascii) : nat := nat_of_ascii c.

(** ** White space *)

(** The ASCII white space of [unicode.IsSpace]: tab, newline, vertical tab, form feed, carriage
    return and space. *)
Definition ascii_space (c : ascii) : bool :=
  let n := code c in ((9 <=? n)%nat && (n <=? 13)%nat) || (n =? 32)%nat.

(** The white space runes of two and three bytes in UTF-8: U+0085, U+00A0; U+1680,
    U+2000-U+200A, U+2028, U+2029, U+202F, U+205F, U+3000. *)
Definition space2 (a b : ascii) : bool :=
  (code a =? 194)%nat && ((code b =? 133)%nat || (code b =? 160)%nat).

Definition space3 (a b c : ascii) : bool :=
  let x := code a in let y := code b in let z := code c in
  ((x =? 225) && (y =? 154) && (z =? 128))%nat
  || ((x =? 226) && (y =? 128) && (((128 <=? z) && (z <=? 138)) || (z =? 168) || (z =? 169) || (z =? 175)))%nat
  || ((x =? 226) && (y =? 129) && (z =? 159))%nat
  || ((x =? 227) && (y =? 128) && (z =? 128))%nat.

(** Drops the leading white space. *)
Fixpoint trim_left (l : list ascii) : list ascii :=
  match l with
  | [] => []
  | a :: l1 =>
    if ascii_space a then trim_left l1 else
    match l1 with
    | [] => l
    | b :: l2 =>
      if space2 a b then trim_left l2 else
      match l2 with
      | [] => l
      | c :: l3 => if space3 a b c then trim_left l3 else l
      end
    end
  end.

(** The same from the end, on the reversed bytes. *)
Fixpoint trim_right_rev (l : list ascii) : list ascii :=
  match l with
  | [] => []
  | a :: l1 =>
    if ascii_space a then trim_right_rev l1 else
    match l1 with
    | [] => l
    | b :: l2 =>
      if space2 b a then trim_right_rev l2 else
      match l2 with
      | [] => l
      | c :: l3 => if space3 c b a then trim_right_rev l3 else l
      end
    end
  end.

Definition TrimSpace (s : string) : string :=
  of_bytes (rev (trim_right_rev (rev (trim_left (bytes_of s))))).

(** ** Case *)

Definition lower_char (c : ascii) : ascii :=
  let n := code c in
  if ((65 <=? n) && (n <=? 90))%nat then ascii_of_nat (n + 32) else c.

Definition upper_char (c : ascii) : ascii :=
  let n := code c in
  if ((97 <=? n) && (n <=? 122))%nat then ascii_of_nat (n - 32) else c.

Definition ToLower (s : string) : string := of_bytes (lower_char <$> bytes_of s).
Definition ToUpper (s : string) : string := of_bytes (upper_char <$> bytes_of s).

(** ** Searching *)

Fixpoint is_prefix (p l : list ascii) : bool :=
  match p, l with
  | [], _ => true
  | _, [] => false
  | a :: p, b :: l => bool_decide (a = b) && is_prefix p l
  end.

Definition HasPrefix (s p : string) : bool := is_prefix (bytes_of p) (bytes_of s).
Definition HasSuffix (s p : string) : bool := is_prefix (rev (bytes_of p)) (rev (bytes_of s)).

Fixpoint is_infix (p l : list ascii) : bool :=
  is_prefix p l || match l with [] => false | _ :: l => is_infix p l end.

Definition Contains (s sub : string) : bool := is_infix (bytes_of sub) (bytes_of s).

(** ** Splitting and replacing *)

(** [strings.Split(s, sep)] for a separator of one byte. *)
Fixpoint split_on (sep : ascii) (cur l : list ascii) : list (list ascii) :=
  match l with
  | [] => [rev cur]
  | c :: l => if bool_decide (c = sep) then rev cur :: split_on sep [] l
              else split_on sep (c :: cur) l
  end.

Definition Split (s : string) (sep : ascii) : list string :=
  of_bytes <$> split_on sep [] (bytes_of s).

(** [strings.SplitN(s, sep, 2)] for a separator of one byte: at most one cut. *)
Fixpoint cut_at (sep : ascii) (cur l : list ascii) : option (list ascii * list ascii) :=
  match l with
  | [] => None
  | c :: l => if bool_decide (c = sep) then Some (rev cur, l) else cut_at sep (c :: cur) l
  end.

Definition SplitN2 (s : string) (sep : ascii) : list string :=
  match cut_at sep [] (bytes_of s) with
  | None => [s]
  | Some (a, b) => [of_bytes a; of_bytes b]
  end.

(** [strings.ReplaceAll(s, "\*", new)]-style replacement of a two-byte pattern. *)
Fixpoint replace2 (x y : ascii) (new l : list ascii) : list ascii :=
  match l with
  | a :: ((b :: l') as l1) =>
    if bool_decide (a = x) && bool_decide (b = y) then new ++ replace2 x y new l'
    else a :: replace2 x y new l1
  | _ => l
  end.

(** ** [regexp.QuoteMeta] *)

Definition backslash : ascii := "\"%char.
Definition star_char : ascii := "*"%char.
Definition newline : ascii := ascii_of_nat 10.

(** The bytes [regexp] gives a meaning to: [\.+*?()|[]{}^$]. *)
Definition special (c : ascii) : bool :=
  bool_decide (c ∈ bytes_of "\.+*?()|[]{}^$").

Fixpoint quote_meta (l : list ascii) : list ascii :=
  match l with
  | [] => []
  | c :: l => if special c then backslash :: c :: quote_meta l else c :: quote_meta l
  end.

Definition QuoteMeta (s : string) : string := of_bytes (quote_meta (bytes_of s)).

(** ** UTF-8 validity, as [utf8.ValidString] decides it *)

Definition cont (c : ascii) : bool := ((128 <=? code c) && (code c <=? 191))%nat.
Definition between (a b : nat) (c : ascii) : bool := ((a <=? code c) && (code c <=? b))%nat.

Fixpoint utf8_valid (l : list ascii) : bool :=
  match l with
  | [] => true
  | a :: l1 =>
    if between 0 127 a then utf8_valid l1 else
    match l1 with
    | [] => false
    | b :: l2 =>
      if between 194 223 a then cont b && utf8_valid l2 else
      match l2 with
      | [] => false
      | c :: l3 =>
        if between 224 239 a then
          (if (code a =? 224)%nat then between 160 191 b
           else if (code a =? 237)%nat then between 128 159 b else cont b)
          && cont c && utf8_valid l3
        else
        match l3 with
        | [] => false
        | d :: l4 =>
          between 240 244 a
          && (if (code a =? 240)%nat then between 144 191 b
              else if (code a =? 244)%nat then between 128 143 b else cont b)
          && cont c && cont d && utf8_valid l4
        end
      end
    end
  end.

(** [utf8.RuneError]. *)
Definition replacement_char : list ascii :=
  [ascii_of_nat 239; ascii_of_nat 191; ascii_of_nat 189].

(** A character of several bytes at the head. *)
Definition rune2 (a b : ascii) : bool := between 194 223 a && cont b.
Definition rune3 (a b c : ascii) : bool :=
  between 224 239 a
  && (if (code a =? 224)%nat then between 160 191 b
      else if (code a =? 237)%nat then between 128 159 b else cont b)
  && cont c.
Definition rune4 (a b c d : ascii) : bool :=
  between 240 244 a
  && (if (code a =? 240)%nat then between 144 191 b
      else if (code a =? 244)%nat then between 128 143 b else cont b)
  && cont c && cont d.

(** Every byte that does not belong to a character is replaced, as [encoding/json] does. *)
Fixpoint replace_invalid (l : list ascii) : list ascii :=
  match l with
  | [] => []
  | a :: l1 =>
    if between 0 127 a then a :: replace_invalid l1 else
    match l1 with
    | [] => replacement_char ++ replace_invalid l1
    | b :: l2 =>
      if rune2 a b then a :: b :: replace_invalid l2 else
      match l2 with
      | [] => replacement_char ++ replace_invalid l1
      | c :: l3 =>
        if rune3 a b c then a :: b :: c :: replace_invalid l3 else
        match l3 with
        | [] => replacement_char ++ replace_invalid l1
        | d :: l4 => if rune4 a b c d then a :: b :: c :: d :: replace_invalid l4
                     else replacement_char ++ replace_invalid l1
        end
      end
    end
  end.
Definition ToValidUTF8 (s : string) : string := of_bytes (replace_invalid (bytes_of s)).

(** ** Lemmas *)

Lemma bytes_of_bytes l : bytes_of (of_bytes l) = l.
Proof. apply String.list_ascii_of_string_of_list_ascii. Qed.

Lemma of_bytes_of s : of_bytes (bytes_of s) = s.
Proof. apply String.string_of_list_ascii_of_string. Qed.

#[export] Hint Rewrite bytes_of_bytes of_bytes_of : crawler.

Lemma bytes_of_app s t : bytes_of (s +:+ t) = bytes_of s ++ bytes_of t.
Proof. induction s as [|c s IH]; simpl; [done|]. by rewrite IH. Qed.

Lemma is_prefix_spec p l : is_prefix p l = true <-> exists t, l = p ++ t.
Proof.
  revert l; induction p as [|a p IH]; intros l; simpl.
  - split; [by exists l | done].
  - destruct l as [|b l]; [split; [done | by intros [t Ht]]|].
    rewrite andb_true_iff, bool_decide_eq_true, IH. split.
    + intros [-> [t ->]]. by exists t.
    + intros [t Ht]. simplify_eq/=. eauto.
Qed.

Lemma is_infix_spec p l : is_infix p l = true <-> exists u v, l = u ++ p ++ v.
Proof.
  induction l as [|a l IH]; simpl; rewrite orb_true_iff, is_prefix_spec.
  - split.
    + intros [[t Ht]|?]; [|done]. by exists [], t.
    + intros (u & v & H). destruct u; [|done]. left. by exists v.
  - rewrite IH. split.
    + intros [[t Ht]|(u & v & ->)]; [by exists [], t | by exists (a :: u), v].
    + intros (u & v & H). destruct u as [|b u]; simplify_eq/=; [left | right]; eauto.
Qed.

(** [strings.Contains] holds exactly when the string is a prefix, the substring and a suffix. *)
Lemma Contains_spec s sub :
  Contains s sub = true <-> exists u v, s = u +:+ sub +:+ v.
Proof.
  unfold Contains. rewrite is_infix_spec. split.
  - intros (u & v & H). exists (of_bytes u), (of_bytes v).
    rewrite <- (of_bytes_of s), H, <- (bytes_of_bytes u) at 1.
    rewrite <- (bytes_of_bytes v) at 1.
    rewrite <- !bytes_of_app. apply of_bytes_of.
  - intros (u & v & ->). exists (bytes_of u), (bytes_of v). by rewrite !bytes_of_app.
Qed.

Lemma HasSuffix_spec s p : HasSuffix s p = true <-> exists u, s = u +:+ p.
Proof.
  unfold HasSuffix. rewrite is_prefix_spec. split.
  - intros [t Ht]. exists (of_bytes (rev t)).
    apply (f_equal (@rev _)) in Ht. rewrite rev_app_distr, !rev_involutive in Ht.
    rewrite <- (of_bytes_of s), Ht, <- (bytes_of_bytes (rev t)) at 1.
    rewrite <- bytes_of_app. apply of_bytes_of.
  - intros [u ->]. rewrite bytes_of_app, rev_app_distr. eauto.
Qed.

Lemma string_app_assoc (a b c : string) : (a +:+ b) +:+ c = a +:+ (b +:+ c).
Proof. induction a as [|x a IH]; [done|]. exact (f_equal (String x) IH). Qed.

Lemma string_app_nil_r (a : string) : a +:+ "" = a.
Proof. induction a as [|x a IH]; [done|]. exact (f_equal (String x) IH). Qed.

Lemma Contains_app_l s t sub : Contains s sub = true -> Contains (s +:+ t) sub = true.
Proof.
  rewrite !Contains_spec. intros (u & v & ->). exists u, (v +:+ t).
  by rewrite !string_app_assoc.
Qed.

Lemma Contains_app_r s t sub : Contains t sub = true -> Contains (s +:+ t) sub = true.
Proof.
  rewrite !Contains_spec. intros (u & v & ->). exists (s +:+ u), v.
  by rewrite !string_app_assoc.
Qed.

#[export] Hint Resolve Contains_app_l Contains_app_r : crawler.

Example TrimSpace_1 : TrimSpace "  a b  " = "a b".
Proof. reflexivity. Qed.
Example ToLower_1 : ToLower "BeArer" = "bearer".
Proof. reflexivity. Qed.
Example Split_1 : Split "a,b,,c" "," = ["a"; "b"; ""; "c"].
Proof. reflexivity. Qed.
Example SplitN_1 : SplitN2 "Bearer a b" " " = ["Bearer"; "a b"].
Proof. reflexivity. Qed.
