(* ===== verification/Domain.v ===== *)
(** * Domain models

    [internal/domain/crawl/models], [internal/domain/crawl/valueobjects],
    [internal/domain/crawl/events] and [internal/domain/auth]: the records, the string enumerations
    (a Go [type X string] is a [string] with named constants) and their methods.  A method with a
    pointer receiver that mutates the record returns the new record; [time.Now()] is an argument.
    A nullable pointer field is an [option]. *)

From S2P Require Import Prelude GoStrings.
Open Scope Z_scope.

(** ** Identifiers (valueobjects/id.go) *)

(** [github.com/google/uuid]: [uuid_Parse s] says whether [uuid.Parse] accepts [s]. *)
Class UuidLib := { uuid_Parse : string -> bool }.

Record ID := MkID { value : string }.

#[export] Instance ID_eq_dec : EqDecision ID.
Proof. solve_decision. Defined.

Definition ErrInvalidID : gerror := ESentinel "ErrInvalidID" "invalid ID".
Definition ErrEmptyID : gerror := ESentinel "ErrEmptyID" "ID cannot be empty".

Definition NewID `{UuidLib} (id : string) : res ID :=
  if bool_decide (id = "") then Err ErrEmptyID
  else if negb (uuid_Parse id) then Err ErrInvalidID
  else Ok (MkID id).

Definition IsEmpty (id : ID) : bool := bool_decide (value id = "").
Definition Equals (a b : ID) : bool := bool_decide (value a = value b).

(** The typed identifiers embed [ID]; their constructors call [NewID]. *)
Abbreviation CrawlJobID := ID (only parsing).
Abbreviation CrawlTaskID := ID (only parsing).
Abbreviation UserID := ID (only parsing).
Abbreviation RefreshTokenID := ID (only parsing).
Abbreviation PreviewID := ID (only parsing).

Definition NewCrawlJobID `{UuidLib} (id : string) : res CrawlJobID := b ← NewID id; Ok b.
Definition NewUserID `{UuidLib} (id : string) : res UserID := b ← NewID id; Ok b.

(** An outbox event's identifier only has to be non-empty. *)
Definition NewOutboxEventID (v : string) : res ID :=
  if bool_decide (v = "") then Err ErrEmptyID else Ok (MkID v).

(** ** Statuses (models/status.go) *)

Abbreviation TaskStatus := string (only parsing).
Definition TaskStatusInProgress : TaskStatus := "InProgress".
Definition TaskStatusFetched : TaskStatus := "Fetched".
Definition TaskStatusParsed : TaskStatus := "Parsed".
Definition TaskStatusCompleted : TaskStatus := "Completed".
Definition TaskStatusFailed : TaskStatus := "Failed".
Definition TaskStatusSkipped : TaskStatus := "Skipped".

Definition TaskStatus_IsValid (s : TaskStatus) : bool :=
  bool_decide (s = TaskStatusInProgress) || bool_decide (s = TaskStatusFetched)
  || bool_decide (s = TaskStatusCompleted) || bool_decide (s = TaskStatusFailed)
  || bool_decide (s = TaskStatusParsed) || bool_decide (s = TaskStatusSkipped).

Definition AllTaskStatuses : list TaskStatus :=
  [TaskStatusInProgress; TaskStatusFetched; TaskStatusParsed; TaskStatusCompleted;
   TaskStatusFailed; TaskStatusSkipped].

Definition AllTaskStatusesString : string :=
  (fix go (i : nat) (l : list string) (result : string) : string :=
     match l with
     | [] => result
     | s :: l => let result := if (0 <? i)%nat then result +:+ ", " else result in
                 go (S i) l (result +:+ s)
     end) 0%nat AllTaskStatuses "".

Abbreviation ExportStatus := string (only parsing).
Definition ExportStatusNotStarted : ExportStatus := "NOT_STARTED".
Definition ExportStatusInProgress : ExportStatus := "IN_PROGRESS".
Definition ExportStatusCompleted : ExportStatus := "COMPLETED".
Definition ExportStatusFailed : ExportStatus := "FAILED".

Definition ExportStatus_IsValid (s : ExportStatus) : bool :=
  bool_decide (s = ExportStatusNotStarted) || bool_decide (s = ExportStatusInProgress)
  || bool_decide (s = ExportStatusCompleted) || bool_decide (s = ExportStatusFailed).

(** ** Values of Go's [any] the crawler handles *)

(** A finite float64 is its rational value. *)
Notation float64 := Q (only parsing).

Inductive any :=
| ANil
| AStr (s : string)
| AInt (i : Z)               (* int *)
| AInt64 (i : Z)
| AFloat (f : float64)
| ANonFinite (s : string)    (* a float64 that is "NaN", "+Inf" or "-Inf" *)
| ABool (b : bool)
| ANilStrs                   (* a nil []string *)
| AStrs (l : list string)    (* []string, not nil *)
| AAnys (l : list any)       (* []any *)
| AMap (m : list (string * any)). (* map[string]any *)

(** ** Extraction specifications (models/extraction_spec.go) *)

Abbreviation ValueType := string (only parsing).
Definition ValueString : ValueType := "string".
Definition ValueInt : ValueType := "int".
Definition ValueFloat : ValueType := "float".
Definition ValueBool : ValueType := "bool".
Definition ValueURL : ValueType := "url".
Definition ValueJSON : ValueType := "json".

Abbreviation TransformOp := string (only parsing).
Definition OpTrim : TransformOp := "trim".
Definition OpLower : TransformOp := "lower".
Definition OpUpper : TransformOp := "upper".
Definition OpNormalizeURL : TransformOp := "normalize_url".
Definition OpUnique : TransformOp := "unique".
Definition OpLimit : TransformOp := "limit".
Definition OpParseInt : TransformOp := "to_int".
Definition OpParseFloat : TransformOp := "to_float".
Definition OpParsePrice : TransformOp := "parse_price".
Definition OpHTMLToText : TransformOp := "html_to_text".
Definition OpCollapseWS : TransformOp := "collapse_ws".
Definition OpSHA256 : TransformOp := "sha256".

Record TransformSpec := { Op : TransformOp; Arg : any }.

Record ExtractorSpec := {
  Selector : string;
  Attribute : string;
  Multiple : bool;
  Index : option Z }.

Record FieldSpec := {
  FName : string;
  FType : ValueType;
  Required : bool;
  Extractor : ExtractorSpec;
  Transforms : list TransformSpec }.

Record PaginationSpec := {
  PName : string;
  PSelector : string;
  PAttribute : string;
  PMultiple : bool }.

Record ItemsSpec := { ContainerSelector : string; IFields : list FieldSpec }.

Record ExtractionSpec := {
  Fields : list FieldSpec;
  Pagination : list PaginationSpec;
  Items : option ItemsSpec }.

(** ** Job configuration (models/crawljobconfig.go and the policies) *)

Abbreviation CrawlMode := string (only parsing).
Definition CrawlModePaginationAndLinks : CrawlMode := "pagination_and_links".
Definition CrawlModePaginationOnly : CrawlMode := "pagination_only".
Definition CrawlModeLinksOnly : CrawlMode := "links_only".

Abbreviation JobType := string (only parsing).
Definition JobTypeOnce : JobType := "JOB_TYPE_ONCE".
Definition JobTypeScheduled : JobType := "JOB_TYPE_SCHEDULED".

Record ScopeRules := {
  MaxDepth : Z;                       (* uint64 *)
  AllowedDomains : list string;
  DenyUrlPatterns : list string;
  AllowedURLPatterns : list string }.

Record Seed := { SeedUrl : string }.
Record RateLimitPolicy := { Rps : float64 }.
Record RetryPolicy := {
  MaxAttempts : Z;                    (* uint64 *)
  BackoffInitialMs : Z;               (* uint64 *)
  BackoffMultiplier : float64 }.
Record AuthOptions := {
  Cookie : string; BasicUser : string; BasicPassword : string; BearerToken : string }.
Record ScheduleOptions := { Cron : string; LastRunAt : option Z; NextRunAt : option Z }.

Record QueueWeight := { Queue : string; Weight : Z (* uint32 *) }.

Record CrawlJobConfig := {
  CfgID : ID;
  CfgUserID : UserID;
  CfgName : string;
  CfgExtractionSpec : ExtractionSpec;
  Scopes : ScopeRules;
  Seeds : list Seed;
  RateLimit : RateLimitPolicy;
  Retries : RetryPolicy;
  Auth : AuthOptions;
  Schedule : ScheduleOptions;
  CfgJobType : JobType;
  RespectRobotsTxt : bool;
  CfgCrawlMode : CrawlMode;
  QueueWeights : list QueueWeight }.

(** ** Jobs (models/crawl_job.go) *)

Record CrawlJob := {
  JID : CrawlJobID;
  JobConfigID : ID;
  JobConfig : option CrawlJobConfig;
  JUserID : UserID;
  JName : option string;
  JStatus : TaskStatus;
  CreatedAt : Z;
  CompletedAt : option Z;
  ExportJSONKey : option string;
  ExportCSVKey : option string;
  ExportedAt : option Z;
  JExportStatus : ExportStatus }.

Definition MarkAsExported (jsonKey csvKey : string) (exportedAt : Z) (job : CrawlJob) : CrawlJob :=
  {| JID := JID job; JobConfigID := JobConfigID job; JobConfig := JobConfig job;
     JUserID := JUserID job; JName := JName job; CreatedAt := CreatedAt job;
     ExportJSONKey := Some jsonKey;
     ExportCSVKey := Some csvKey;
     ExportedAt := Some exportedAt;
     CompletedAt := Some exportedAt;
     JExportStatus := ExportStatusCompleted;
     JStatus := TaskStatusCompleted |}.

(** ** Tasks (models/crawl_task.go) *)

Record CrawlTask := {
  TID : CrawlTaskID;
  JobID : CrawlJobID;
  Job : option CrawlJob;
  URL : string;
  FinalURL : option string;
  Status : TaskStatus;
  EnqueuedAt : Z;
  Depth : Z;                          (* uint64 *)
  MinioObjectKey : string;
  ResultObjectKey : option string;
  ResultContentType : option string;
  ResultSizeBytes : option Z;         (* int64 *)
  ResultCreatedAt : option Z;
  ErrorMessage : option string }.

Definition MarkAsFetched (finalUrl minioKey : string) (t : CrawlTask) : CrawlTask :=
  {| TID := TID t; JobID := JobID t; Job := Job t; URL := URL t; EnqueuedAt := EnqueuedAt t;
     Depth := Depth t;
     ResultObjectKey := ResultObjectKey t; ResultContentType := ResultContentType t;
     ResultSizeBytes := ResultSizeBytes t; ResultCreatedAt := ResultCreatedAt t;
     MinioObjectKey := minioKey;
     FinalURL := Some finalUrl;
     Status := TaskStatusFetched;
     ErrorMessage := None |}.

Definition MarkAsParsed (objectKey contentType : string) (sizeBytes parsedAt : Z) (t : CrawlTask)
  : CrawlTask :=
  {| TID := TID t; JobID := JobID t; Job := Job t; URL := URL t; FinalURL := FinalURL t;
     EnqueuedAt := EnqueuedAt t; Depth := Depth t; MinioObjectKey := MinioObjectKey t;
     Status := TaskStatusParsed;
     ResultObjectKey := Some objectKey;
     ResultContentType := Some contentType;
     ResultSizeBytes := Some sizeBytes;
     ResultCreatedAt := Some parsedAt;
     ErrorMessage := None |}.

(** [task.Status = s; task.clearResultMetadata(); task.ErrorMessage = &reason]. *)
Definition mark_ended (s : TaskStatus) (reason : string) (t : CrawlTask) : CrawlTask :=
  {| TID := TID t; JobID := JobID t; Job := Job t; URL := URL t; FinalURL := FinalURL t;
     EnqueuedAt := EnqueuedAt t; Depth := Depth t; MinioObjectKey := MinioObjectKey t;
     Status := s;
     ResultObjectKey := None; ResultContentType := None;
     ResultSizeBytes := None; ResultCreatedAt := None;
     ErrorMessage := Some reason |}.

Definition MarkAsFailed (reason : string) (t : CrawlTask) : CrawlTask :=
  mark_ended TaskStatusFailed reason t.
Definition MarkAsSkipped (reason : string) (t : CrawlTask) : CrawlTask :=
  mark_ended TaskStatusSkipped reason t.

(** ** Outbox events and previews (models/outbox_event.go, models/preview.go, events/) *)

Definition EventTypeTaskEnqueued : string := "task.enqueued".

Record TaskEnqueuedEvent := {
  EvID : string;
  EvType : string;
  EvOccurredAt : Z;
  EvTaskID : string;
  EvJobID : string;
  EvURL : string;
  EvEnqueuedAt : Z;
  EvTraceContext : gmap string string;
  EvTargetQueue : string }.

(** [NewTaskEnqueuedEvent]; the base event's identifier and time are [id] and [now]. *)
Definition NewTaskEnqueuedEvent (id : string) (now : Z) (taskID jobID url : string)
    (enqueuedAt : Z) : TaskEnqueuedEvent :=
  {| EvID := id; EvType := EventTypeTaskEnqueued; EvOccurredAt := now;
     EvTaskID := taskID; EvJobID := jobID; EvURL := url; EvEnqueuedAt := enqueuedAt;
     EvTraceContext := ∅; EvTargetQueue := "" |}.

(** [Payload] is the JSON text of an event; [P] is the type of such texts. *)
Record OutboxEvent {P : Type} := {
  OID : ID;
  OEventType : string;
  OAggregateID : string;
  OPayload : P;
  OOccurredAt : Z;
  OProcessedAt : option Z;
  OCreatedAt : Z }.
Arguments OutboxEvent : clear implicits.

Definition IsProcessed {P} (e : OutboxEvent P) : bool :=
  match OProcessedAt e with Some _ => true | None => false end.

Definition MarkAsProcessed {P} (now : Z) (e : OutboxEvent P) : OutboxEvent P :=
  {| OID := OID e; OEventType := OEventType e; OAggregateID := OAggregateID e;
     OPayload := OPayload e; OOccurredAt := OOccurredAt e; OProcessedAt := Some now;
     OCreatedAt := OCreatedAt e |}.

Record Preview := {
  PvID : PreviewID; SourceURL : string; PvFinalURL : option string; MinioKey : string;
  PvContentType : string; DownloadURL : string; PvCreatedAt : Z; ExpiresAt : option Z }.

(** ** Users, roles and refresh tokens (internal/domain/auth/models) *)

Abbreviation Role := string (only parsing).
Definition RoleRead : Role := "READ".
Definition RoleReadWrite : Role := "READ_WRITE".
Definition RoleAdministrator : Role := "ADMINISTRATOR".

Definition Role_IsValid (r : Role) : bool :=
  bool_decide (r = RoleRead) || bool_decide (r = RoleReadWrite)
  || bool_decide (r = RoleAdministrator).

Definition ParseRole (v : string) : res Role :=
  if negb (Role_IsValid v) then Err (ENew ("invalid role: " +:+ v)) else Ok v.

Definition Level (r : Role) : Z :=
  if bool_decide (r = RoleRead) then 1
  else if bool_decide (r = RoleReadWrite) then 2
  else if bool_decide (r = RoleAdministrator) then 3
  else 0.

Record User := {
  UID : UserID; Email : string; PasswordHash : string; URole : Role;
  UCreatedAt : Z; UUpdatedAt : Z }.

Definition NewUserWithRole (id : UserID) (now : Z) (email passwordHash : string) (role : Role)
  : User :=
  {| UID := id; Email := email; PasswordHash := passwordHash; URole := role;
     UCreatedAt := now; UUpdatedAt := now |}.

Definition NewUser (id : UserID) (now : Z) (email passwordHash : string) : User :=
  {| UID := id; Email := email; PasswordHash := passwordHash; URole := RoleRead;
     UCreatedAt := now; UUpdatedAt := now |}.

Record RefreshToken := {
  RTID : RefreshTokenID; RTUserID : UserID; TokenHash : string; RTExpiresAt : Z;
  RevokedAt : option Z; RTCreatedAt : Z; ReplacedByTokenID : option RefreshTokenID }.

Definition NewRefreshToken (id : RefreshTokenID) (now : Z) (userID : UserID) (tokenHash : string)
    (expiresAt : Z) : RefreshToken :=
  {| RTID := id; RTUserID := userID; TokenHash := tokenHash; RTExpiresAt := expiresAt;
     RevokedAt := None; RTCreatedAt := now; ReplacedByTokenID := None |}.

Definition IsRevoked (rt : RefreshToken) : bool :=
  match RevokedAt rt with Some _ => true | None => false end.
Definition IsExpired (now : Z) (rt : RefreshToken) : bool := After now (RTExpiresAt rt).
Definition RT_IsValid (now : Z) (rt : RefreshToken) : bool :=
  negb (IsRevoked rt) && negb (IsExpired now rt).

Definition Revoke (now : Z) (rt : RefreshToken) : RefreshToken :=
  {| RTID := RTID rt; RTUserID := RTUserID rt; TokenHash := TokenHash rt;
     RTExpiresAt := RTExpiresAt rt; RevokedAt := Some now; RTCreatedAt := RTCreatedAt rt;
     ReplacedByTokenID := ReplacedByTokenID rt |}.

(** ** Messages (internal/infra/messaging/messages.go) *)

Record CrawlTaskMessage := {
  MTaskID : string; MJobID : string; MURL : string; MEnqueuedAt : Z;
  MTraceContext : gmap string string }.

Record ParsingTaskMessage := {
  PTaskID : string; PJobID : string; PEnqueuedAt : Z; PTraceContext : gmap string string }.

(** ** Lemmas *)

Lemma NewID_ok `{UuidLib} s i : NewID s = Ok i -> i = MkID s /\ s <> "" /\ uuid_Parse s = true.
Proof.
  unfold NewID. case_bool_decide; [done|]. destruct (uuid_Parse s); simpl; [|done].
  intros [= <-]. done.
Qed.

Lemma NewID_value `{UuidLib} (i : ID) :
  value i <> "" -> uuid_Parse (value i) = true -> NewID (value i) = Ok i.
Proof.
  intros Hne Hp. unfold NewID. rewrite bool_decide_eq_false_2 by done. rewrite Hp. by destruct i.
Qed.

Lemma TaskStatus_IsValid_spec s : TaskStatus_IsValid s = true <-> s ∈ AllTaskStatuses.
Proof.
  unfold TaskStatus_IsValid, AllTaskStatuses.
  rewrite !orb_true_iff, !bool_decide_eq_true. set_solver.
Qed.

Lemma ParseRole_ok v r : ParseRole v = Ok r -> r = v /\ Role_IsValid v = true.
Proof. unfold ParseRole. destruct (Role_IsValid v); simpl; [|done]. by intros [= <-]. Qed.

Lemma Role_valid_cases r :
  Role_IsValid r = true -> r = RoleRead \/ r = RoleReadWrite \/ r = RoleAdministrator.
Proof. unfold Role_IsValid. rewrite !orb_true_iff, !bool_decide_eq_true. tauto. Qed.

(** ** A parser of identifiers for concrete runs: any non-empty text *)

Definition any_uuid : UuidLib := {| uuid_Parse s := negb (bool_decide (s = "")) |}.
