(* ===== verification/Json.v ===== *)
(** * JSON values

    [encoding/json] at the level of values: the texts themselves ([marshal], [unmarshal]) are those
    of the class [JsonLib], whose laws are the documented ones: a text produced by [json.Marshal]
    decodes to the value it was made from, and an RFC 3339 time in the years 0..9999 reads back.
    What the crawler decides about values is written out: struct fields by name, null and missing
    fields, type errors, and the passage of integers through float64 when a document is decoded
    into [interface{}].  The second half has the JSON form of the events and messages. *)

From S2P Require Import Prelude GoStrings Domain.
Open Scope Z_scope.

(** A number token is [JInt] when it is an integer literal, [JFloat] otherwise (the token that
    prints the float64 [q]). *)
Inductive json :=
| JNull
| JBool (b : bool)
| JInt (z : Z)
| JFloat (q : Q)
| JStr (s : string)
| JArr (l : list json)
| JObj (fs : list (string * json)).

(** Strings valid UTF-8, keys distinct: the values [json.Marshal] prints without substitution. *)
Fixpoint json_wf (j : json) : bool :=
  match j with
  | JNull | JBool _ | JInt _ | JFloat _ => true
  | JStr s => utf8_valid (bytes_of s)
  | JArr l => forallb json_wf l
  | JObj fs => bool_decide (NoDup fs.*1)
               && forallb (fun p => utf8_valid (bytes_of p.1) && json_wf p.2) fs
  end.

(** The last instant of year 9999, in nanoseconds after Go's zero time. *)
Definition time_max : Z := 315537897600 * Second - 1.
Definition time_ok (t : Z) : bool := (0 <=? t) && (t <=? time_max).

Class JsonLib := {
  marshal : json -> string;
  marshal_indent : json -> string;     (* [json.MarshalIndent(v, "", "  ")] *)
  unmarshal : string -> option json;
  time_text : Z -> string;
  time_parse : string -> option Z;
  unmarshal_marshal j : json_wf j = true -> unmarshal (marshal j) = Some j;
  unmarshal_marshal_indent j : json_wf j = true -> unmarshal (marshal_indent j) = Some j;
  unmarshal_empty : unmarshal "" = None;
  time_parse_text t : time_ok t = true -> time_parse (time_text t) = Some t;
  time_text_utf8 t : utf8_valid (bytes_of (time_text t)) = true }.

(** ** Struct fields *)

Definition fold_eq (a b : string) : bool := bool_decide (ToLower a = ToLower b).

(** The binding of [k]: keys match up to case, and the last one wins. *)
Definition lookup_field (k : string) (fs : list (string * json)) : json :=
  fold_left (fun j p => if fold_eq k p.1 then p.2 else j) fs JNull.

Definition type_error (k : string) : gerror :=
  ENew ("json: cannot unmarshal value into Go struct field " +:+ k).

Definition as_object (j : json) : res (list (string * json)) :=
  match j with JObj fs => Ok fs | JNull => Ok [] | _ => Err (type_error "") end.

Definition get_string (k : string) (fs : list (string * json)) : res string :=
  match lookup_field k fs with JNull => Ok "" | JStr s => Ok s | _ => Err (type_error k) end.
Definition get_bool (k : string) (fs : list (string * json)) : res bool :=
  match lookup_field k fs with JNull => Ok false | JBool b => Ok b | _ => Err (type_error k) end.

(** An unsigned field of [w] bits takes integer literals in range only. *)
Definition get_uint (w : Z) (k : string) (fs : list (string * json)) : res Z :=
  match lookup_field k fs with
  | JNull => Ok 0
  | JInt z => if (0 <=? z) && (z <? 2 ^ w) then Ok z else Err (type_error k)
  | _ => Err (type_error k)
  end.

(** The entries of a map in the order of their keys, as [json.Marshal] prints them. *)
Definition key_le (p q : string * string) : Prop := String.leb p.1 q.1 = true.
#[export] Instance key_le_dec p q : Decision (key_le p q).
Proof. unfold key_le. apply _. Defined.
Definition sorted_entries (m : gmap string string) : list (string * string) :=
  merge_sort key_le (map_to_list m).

Section Codec.
Context `{JsonLib}.

Definition get_time (k : string) (fs : list (string * json)) : res Z :=
  match lookup_field k fs with
  | JNull => Ok 0
  | JStr s => match time_parse s with Some t => Ok t | None => Err (type_error k) end
  | _ => Err (type_error k)
  end.

(** One binding of a [map[string]string]; null is the zero string. *)
Definition smap_add (k : string) (p : string * json) (acc : res (gmap string string))
  : res (gmap string string) :=
  m ← acc;
  match p.2 with
  | JStr s => Ok (<[p.1 := s]> m)
  | JNull => Ok (<[p.1 := ""]> m)
  | _ => Err (type_error k)
  end.

Definition get_smap (k : string) (fs : list (string * json)) : res (gmap string string) :=
  match lookup_field k fs with
  | JNull => Ok ∅
  | JObj l => foldr (smap_add k) (Ok ∅) l
  | _ => Err (type_error k)
  end.

Definition smap_json (m : gmap string string) : json :=
  JObj ((fun p => (p.1, JStr p.2)) <$> sorted_entries m).

(** A field tagged [omitempty]. *)
Definition omit_str (k v : string) : list (string * json) :=
  if bool_decide (v = "") then [] else [(k, JStr v)].
Definition omit_smap (k : string) (m : gmap string string) : list (string * json) :=
  if bool_decide (m = ∅) then [] else [(k, smap_json m)].

(** ** Events and messages *)

Definition json_of_event (e : TaskEnqueuedEvent) : json :=
  JObj ([("id", JStr (EvID e)); ("type", JStr (EvType e));
         ("occurred_at", JStr (time_text (EvOccurredAt e)));
         ("task_id", JStr (EvTaskID e)); ("job_id", JStr (EvJobID e)); ("url", JStr (EvURL e));
         ("enqueued_at", JStr (time_text (EvEnqueuedAt e)))]
        ++ omit_smap "trace_context" (EvTraceContext e)
        ++ omit_str "target_queue" (EvTargetQueue e)).

Definition event_of_json (j : json) : res TaskEnqueuedEvent :=
  fs ← as_object j;
  id ← get_string "id" fs; ty ← get_string "type" fs; occ ← get_time "occurred_at" fs;
  tid ← get_string "task_id" fs; jid ← get_string "job_id" fs; url ← get_string "url" fs;
  enq ← get_time "enqueued_at" fs; tc ← get_smap "trace_context" fs;
  tq ← get_string "target_queue" fs;
  Ok {| EvID := id; EvType := ty; EvOccurredAt := occ; EvTaskID := tid; EvJobID := jid;
        EvURL := url; EvEnqueuedAt := enq; EvTraceContext := tc; EvTargetQueue := tq |}.

Definition json_of_crawl_msg (m : CrawlTaskMessage) : json :=
  JObj ([("task_id", JStr (MTaskID m)); ("job_id", JStr (MJobID m)); ("url", JStr (MURL m));
         ("enqueued_at", JStr (time_text (MEnqueuedAt m)))]
        ++ omit_smap "trace_context" (MTraceContext m)).

Definition crawl_msg_of_json (j : json) : res CrawlTaskMessage :=
  fs ← as_object j;
  tid ← get_string "task_id" fs; jid ← get_string "job_id" fs; url ← get_string "url" fs;
  enq ← get_time "enqueued_at" fs; tc ← get_smap "trace_context" fs;
  Ok {| MTaskID := tid; MJobID := jid; MURL := url; MEnqueuedAt := enq; MTraceContext := tc |}.

Definition json_of_parsing_msg (m : ParsingTaskMessage) : json :=
  JObj ([("task_id", JStr (PTaskID m)); ("job_id", JStr (PJobID m));
         ("enqueued_at", JStr (time_text (PEnqueuedAt m)))]
        ++ omit_smap "trace_context" (PTraceContext m)).

Definition parsing_msg_of_json (j : json) : res ParsingTaskMessage :=
  fs ← as_object j;
  tid ← get_string "task_id" fs; jid ← get_string "job_id" fs;
  enq ← get_time "enqueued_at" fs; tc ← get_smap "trace_context" fs;
  Ok {| PTaskID := tid; PJobID := jid; PEnqueuedAt := enq; PTraceContext := tc |}.

(** [json.Unmarshal(data, &v)]. *)
Definition Unmarshal {A} (dec : json -> res A) (data : string) : res A :=
  match unmarshal data with
  | None => Err (ENew "invalid JSON")
  | Some j => dec j
  end.

End Codec.

(** ** A codec that satisfies the laws: binary digits of a numbering of values *)

#[export] Instance Q_eq_dec : EqDecision Q.
Proof. solve_decision. Defined.

#[export] Instance json_eq_dec : EqDecision json.
Proof.
  refine (fix go a b := let _ : EqDecision _ := @go in
    match a, b with
    | JNull, JNull => left eq_refl
    | JBool x, JBool y => cast_if (decide (x = y))
    | JInt x, JInt y => cast_if (decide (x = y))
    | JFloat x, JFloat y => cast_if (decide (x = y))
    | JStr x, JStr y => cast_if (decide (x = y))
    | JArr x, JArr y => cast_if (decide (x = y))
    | JObj x, JObj y => cast_if (decide (x = y))
    | _, _ => right _
    end); abstract congruence.
Defined.

Definition json_leaf : Type := (bool + Z) + ((Z * positive) + string).

Fixpoint json_tree (j : json) : gen_tree json_leaf :=
  match j with
  | JNull => GenNode 0 []
  | JBool b => GenLeaf (inl (inl b))
  | JInt z => GenLeaf (inl (inr z))
  | JFloat q => GenLeaf (inr (inl (Qnum q, Qden q)))
  | JStr s => GenLeaf (inr (inr s))
  | JArr l => GenNode 1 (json_tree <$> l)
  | JObj fs => GenNode 2 ((fun p => GenNode 3 [GenLeaf (inr (inr p.1)); json_tree p.2]) <$> fs)
  end.

Fixpoint tree_json (t : gen_tree json_leaf) : json :=
  match t with
  | GenLeaf (inl (inl b)) => JBool b
  | GenLeaf (inl (inr z)) => JInt z
  | GenLeaf (inr (inl (n, d))) => JFloat (Qmake n d)
  | GenLeaf (inr (inr s)) => JStr s
  | GenNode 0 _ => JNull
  | GenNode 1 l => JArr (tree_json <$> l)
  | GenNode _ l =>
      JObj ((fun t => match t with
                      | GenNode _ [GenLeaf (inr (inr k)); v] => (k, tree_json v)
                      | _ => ("", JNull)
                      end) <$> l)
  end.

Fixpoint pos_text (p : positive) : string :=
  match p with xH => "" | xO p => String "0"%char (pos_text p) | xI p => String "1"%char (pos_text p) end.
Fixpoint text_pos (s : string) : option positive :=
  match s with
  | EmptyString => Some xH
  | String c s => p ← text_pos s; Some (if Ascii.eqb c "0"%char then xO p else xI p)
  end.

Lemma tree_json_tree : forall j, tree_json (json_tree j) = j.
Proof.
  fix IH 1. intros [| | |[] | |l|fs]; simpl; try reflexivity.
  - f_equal. induction l as [|j l IHl]; [done|].
    rewrite !fmap_cons, IH. f_equal. exact IHl.
  - f_equal. induction fs as [|[k j] fs IHl]; [done|].
    rewrite !fmap_cons. simpl. rewrite IH. f_equal. exact IHl.
Qed.

#[export] Instance json_countable : Countable json :=
  inj_countable' json_tree tree_json tree_json_tree.

Lemma text_pos_text p : text_pos (pos_text p) = Some p.
Proof. induction p as [p IH|p IH|]; simpl; [by rewrite IH..|done]. Qed.

Lemma pos_text_utf8 p : utf8_valid (bytes_of (pos_text p)) = true.
Proof. by induction p. Qed.

Definition plain_json : JsonLib.
Proof.
  refine {| marshal j := String "1"%char (pos_text (encode j));
            marshal_indent j := String "1"%char (pos_text (encode j));
            unmarshal s := match s with
                           | EmptyString => None
                           | String _ s => p ← text_pos s; decode p
                           end;
            time_text t := pos_text (encode t);
            time_parse s := p ← text_pos s; decode p |}.
  - intros j _. rewrite text_pos_text. simpl. apply decode_encode.
  - intros j _. rewrite text_pos_text. simpl. apply decode_encode.
  - reflexivity.
  - intros t _. rewrite text_pos_text. simpl. apply decode_encode.
  - intros t. apply pos_text_utf8.
Defined.

(** ** Round trips *)

Lemma sorted_entries_perm m : sorted_entries m ≡ₚ map_to_list m.
Proof. apply merge_sort_Permutation. Qed.

Lemma smap_add_entries k l :
  foldr (smap_add k) (Ok ∅) ((fun p => (p.1, JStr p.2)) <$> l) = Ok (list_to_map l).
Proof.
  induction l as [|[x v] l IH]; [done|]. rewrite fmap_cons. simpl foldr. by rewrite IH.
Qed.

Lemma list_to_map_sorted_entries m : list_to_map (sorted_entries m) = m.
Proof.
  rewrite <- (list_to_map_to_list m) at 2. apply list_to_map_proper.
  - rewrite sorted_entries_perm. apply NoDup_fst_map_to_list.
  - apply sorted_entries_perm.
Qed.

Definition smap_utf8 (m : gmap string string) : bool :=
  forallb (fun p => utf8_valid (bytes_of p.1) && utf8_valid (bytes_of p.2)) (map_to_list m).

Lemma smap_json_wf m : smap_utf8 m = true -> json_wf (smap_json m) = true.
Proof.
  intros H. simpl. apply andb_true_iff. split.
  - apply bool_decide_eq_true. rewrite <- list_fmap_compose.
    assert (E : (fst ∘ (fun p : string * string => (p.1, JStr p.2))) <$> sorted_entries m
                ≡ₚ fst <$> map_to_list m) by apply fmap_Permutation, sorted_entries_perm.
    rewrite E. apply NoDup_fst_map_to_list.
  - apply forallb_Forall_true, Forall_fmap. rewrite sorted_entries_perm.
    apply forallb_Forall_true in H. exact H.
Qed.

Section RoundTrips.
Context `{JsonLib}.

Definition event_ok (e : TaskEnqueuedEvent) : bool :=
  utf8_valid (bytes_of (EvID e)) && utf8_valid (bytes_of (EvType e))
  && utf8_valid (bytes_of (EvTaskID e)) && utf8_valid (bytes_of (EvJobID e))
  && utf8_valid (bytes_of (EvURL e)) && utf8_valid (bytes_of (EvTargetQueue e))
  && time_ok (EvOccurredAt e) && time_ok (EvEnqueuedAt e) && smap_utf8 (EvTraceContext e).

Lemma event_json_wf e : event_ok e = true -> json_wf (json_of_event e) = true.
Proof.
  unfold event_ok. rewrite !andb_true_iff. intros [[[[[[[[? ?] ?] ?] ?] ?] ?] ?] Hm].
  pose proof (smap_json_wf _ Hm) as Hw. unfold json_of_event, omit_smap, omit_str.
  repeat case_bool_decide; simpl; rewrite ?andb_true_iff, ?time_text_utf8; simpl;
    repeat split; try done; by apply andb_true_iff in Hw as [??].
Qed.

(** Decoding the fields of a printed event gives the event. *)
Lemma event_of_json_of_event e :
  event_ok e = true -> event_of_json (json_of_event e) = Ok e.
Proof.
  unfold event_ok. rewrite !andb_true_iff. intros [[[[[[[[? ?] ?] ?] ?] ?] Ho] He] Hm].
  unfold event_of_json, json_of_event, omit_smap, omit_str, get_string, get_time, get_smap.
  destruct e as [id ty occ tid jid url enq tc tq]; simpl in *.
  repeat case_bool_decide; subst; simpl; rewrite !time_parse_text by done; simpl;
    rewrite ?smap_add_entries, ?list_to_map_sorted_entries; done.
Qed.

Lemma Unmarshal_marshal {A} (dec : json -> res A) j :
  json_wf j = true -> Unmarshal dec (marshal j) = dec j.
Proof. intros Hj. unfold Unmarshal. by rewrite unmarshal_marshal. Qed.

Lemma Unmarshal_event e :
  event_ok e = true -> Unmarshal event_of_json (marshal (json_of_event e)) = Ok e.
Proof.
  intros He. rewrite Unmarshal_marshal by (by apply event_json_wf).
  by apply event_of_json_of_event.
Qed.

Definition crawl_msg_ok (m : CrawlTaskMessage) : bool :=
  utf8_valid (bytes_of (MTaskID m)) && utf8_valid (bytes_of (MJobID m))
  && utf8_valid (bytes_of (MURL m)) && time_ok (MEnqueuedAt m) && smap_utf8 (MTraceContext m).

Definition parsing_msg_ok (m : ParsingTaskMessage) : bool :=
  utf8_valid (bytes_of (PTaskID m)) && utf8_valid (bytes_of (PJobID m))
  && time_ok (PEnqueuedAt m) && smap_utf8 (PTraceContext m).

Lemma crawl_msg_wf m : crawl_msg_ok m = true -> json_wf (json_of_crawl_msg m) = true.
Proof.
  unfold crawl_msg_ok. rewrite !andb_true_iff. intros [[[[? ?] ?] Ht] Hm].
  pose proof (smap_json_wf _ Hm) as Hw. unfold json_of_crawl_msg, omit_smap.
  repeat case_bool_decide; simpl; rewrite ?andb_true_iff, ?time_text_utf8; simpl;
    repeat split; try done; by apply andb_true_iff in Hw as [??].
Qed.

Lemma parsing_msg_wf m : parsing_msg_ok m = true -> json_wf (json_of_parsing_msg m) = true.
Proof.
  unfold parsing_msg_ok. rewrite !andb_true_iff. intros [[[? ?] Ht] Hm].
  pose proof (smap_json_wf _ Hm) as Hw. unfold json_of_parsing_msg, omit_smap.
  repeat case_bool_decide; simpl; rewrite ?andb_true_iff, ?time_text_utf8; simpl;
    repeat split; try done; by apply andb_true_iff in Hw as [??].
Qed.

(** Each kind of message is read back, and the other kind reads the fields they share. *)
Ltac read_message m :=
  destruct m; simpl in *; case_bool_decide; subst; simpl; rewrite !time_parse_text by done; simpl;
    rewrite ?smap_add_entries, ?list_to_map_sorted_entries; done.

Lemma Unmarshal_crawl_msg m :
  crawl_msg_ok m = true -> Unmarshal crawl_msg_of_json (marshal (json_of_crawl_msg m)) = Ok m.
Proof.
  intros Hok. rewrite Unmarshal_marshal by (by apply crawl_msg_wf). revert Hok.
  unfold crawl_msg_ok, crawl_msg_of_json, json_of_crawl_msg, omit_smap, get_string, get_time, get_smap.
  rewrite !andb_true_iff. intros [[[[? ?] ?] Ht] Hm]. read_message m.
Qed.

Lemma Unmarshal_parsing_msg m :
  parsing_msg_ok m = true ->
  Unmarshal parsing_msg_of_json (marshal (json_of_parsing_msg m)) = Ok m.
Proof.
  intros Hok. rewrite Unmarshal_marshal by (by apply parsing_msg_wf). revert Hok.
  unfold parsing_msg_ok, parsing_msg_of_json, json_of_parsing_msg, omit_smap, get_string, get_time, get_smap.
  rewrite !andb_true_iff. intros [[[? ?] Ht] Hm]. read_message m.
Qed.

Lemma crawl_msg_as_parsing m :
  crawl_msg_ok m = true ->
  Unmarshal parsing_msg_of_json (marshal (json_of_crawl_msg m))
  = Ok {| PTaskID := MTaskID m; PJobID := MJobID m; PEnqueuedAt := MEnqueuedAt m;
          PTraceContext := MTraceContext m |}.
Proof.
  intros Hok. rewrite Unmarshal_marshal by (by apply crawl_msg_wf). revert Hok.
  unfold crawl_msg_ok, parsing_msg_of_json, json_of_crawl_msg, omit_smap, get_string, get_time, get_smap.
  rewrite !andb_true_iff. intros [[[[? ?] ?] Ht] Hm]. read_message m.
Qed.

Lemma parsing_msg_as_crawl m :
  parsing_msg_ok m = true ->
  Unmarshal crawl_msg_of_json (marshal (json_of_parsing_msg m))
  = Ok {| MTaskID := PTaskID m; MJobID := PJobID m; MURL := ""; MEnqueuedAt := PEnqueuedAt m;
          MTraceContext := PTraceContext m |}.
Proof.
  intros Hok. rewrite Unmarshal_marshal by (by apply parsing_msg_wf). revert Hok.
  unfold parsing_msg_ok, crawl_msg_of_json, json_of_parsing_msg, omit_smap, get_string, get_time, get_smap.
  rewrite !andb_true_iff. intros [[[? ?] Ht] Hm]. read_message m.
Qed.

End RoundTrips.
