(* ===== verification/Converters.v ===== *)
(** * Snapshots and converters

    [persistence/postgres/snapshots] and [persistence/postgres/converters]: the rows of the tables
    and their conversions to and from the domain models.  A [sql.NullX] is an [option].  The JSONB
    columns of a configuration hold what [json.Marshal] prints, with U+FFFD for what is not UTF-8
    ([valid_texts]), after the document has passed through [map[string]interface{}], where every
    number is a float64: [through_any]. *)

From S2P Require Import Prelude GoStrings Domain Json.

(** ** Rows *)

Record CrawlTaskSnapshot := {
  ts_ID : string; ts_JobID : string; ts_URL : string; ts_FinalURL : option string;
  ts_Status : string; ts_EnqueuedAt : Z; ts_Depth : Z; ts_MinioObjectKey : string;
  ts_ResultObjectKey : option string; ts_ResultContentType : option string;
  ts_ResultSizeBytes : option Z; ts_ResultCreatedAt : option Z;
  ts_ErrorMessage : option string }.

(** The columns of [crawl_job_configs]; a JSONB column is [None] when it is NULL. *)
Record CrawlJobConfigSnapshot := {
  cs_ID : string; cs_UserID : option string; cs_Name : string;
  cs_ExtractionSpec : option json; cs_Scopes : option json; cs_Seeds : option json;
  cs_RateLimit : option json; cs_Retries : option json; cs_Auth : option json;
  cs_Schedule : option json; cs_JobType : string; cs_RespectRobotsTxt : bool;
  cs_CrawlMode : string; cs_QueueWeights : option json }.

(** [js_JobConfig] is the row joined by a query; it is [None] in the table. *)
Record CrawlJobSnapshot := {
  js_ID : string; js_JobConfigID : option string; js_UserID : option string;
  js_Name : option string; js_Status : string; js_CreatedAt : Z; js_CompletedAt : option Z;
  js_JobConfig : option CrawlJobConfigSnapshot;
  js_ExportJSONKey : option string; js_ExportCSVKey : option string;
  js_ExportedAt : option Z; js_ExportStatus : option string }.

Record CrawlTaskWithJobSnapshot := {
  tj_Task : CrawlTaskSnapshot; tj_Job : option CrawlJobSnapshot }.

Record OutboxEventSnapshot := {
  os_ID : string; os_EventType : string; os_AggregateID : string; os_Payload : string;
  os_OccurredAt : Z; os_ProcessedAt : option Z; os_CreatedAt : Z }.

Record PreviewSnapshot := {
  ps_ID : string; ps_SourceURL : string; ps_FinalURL : option string; ps_MinioKey : string;
  ps_ContentType : string; ps_DownloadURL : string; ps_CreatedAt : Z; ps_ExpiresAt : option Z }.

Record UserSnapshot := {
  us_ID : string; us_Email : string; us_PasswordHash : string; us_Role : string;
  us_CreatedAt : Z; us_UpdatedAt : Z }.

Record RefreshTokenSnapshot := {
  rs_ID : string; rs_UserID : string; rs_TokenHash : string; rs_ExpiresAt : Z;
  rs_RevokedAt : option Z; rs_CreatedAt : Z; rs_ReplacedByTokenID : option string }.

(** ** Numbers through float64 *)

(** [x / d] to the nearest integer, ties to even ([0 < d]). *)
Definition div_even (x d : Z) : Z :=
  let q := x / d in let r := x mod d in
  if 2 * r <? d then q else if d <? 2 * r then q + 1 else if Z.even q then q else q + 1.

(** The float64 nearest to a non-negative integer. *)
Definition round53 (x : Z) : Z :=
  let n := Z.log2 x + 1 in
  if n <=? 53 then x else div_even x (2 ^ (n - 53)) * 2 ^ (n - 53).

Definition round53s (x : Z) : Z := if x <? 0 then - round53 (- x) else round53 x.

(** The shortest decimal integer that reads back as the float64 [x], [0 <= x]: digits are dropped
    from the right as long as the result still rounds to [x]. *)
Fixpoint shortest (k : nat) (x : Z) : Z :=
  match k with
  | O => x
  | S k' =>
      let c := div_even x (10 ^ Z.of_nat k) * 10 ^ Z.of_nat k in
      if round53 c =? x then c else shortest k' x
  end.

Definition print_int_float (x : Z) : Z :=
  if x <? 2 ^ 53 then x else shortest 21 x.

(** The token [json.Marshal] prints for a float64. *)
Definition float_token (q : Q) : json :=
  if bool_decide (Qden q = 1%positive) then
    if Z.abs (Qnum q) <? 10 ^ 21 then
      JInt (Z.sgn (Qnum q) * print_int_float (Z.abs (Qnum q)))
    else JFloat q
  else JFloat q.

(** The texts of a document as [json.Marshal] prints them. *)
Fixpoint valid_texts (j : json) : json :=
  match j with
  | JStr s => JStr (ToValidUTF8 s)
  | JArr l => JArr (valid_texts <$> l)
  | JObj fs => JObj ((fun p => (ToValidUTF8 p.1, valid_texts p.2)) <$> fs)
  | _ => j
  end.

(** A document decoded into [interface{}] and printed again. *)
Fixpoint through_any (j : json) : json :=
  match j with
  | JInt z => float_token (inject_Z (round53s z))
  | JFloat q => float_token q
  | JArr l => JArr (through_any <$> l)
  | JObj fs => JObj ((fun p => (p.1, through_any p.2)) <$> fs)
  | _ => j
  end.

Definition get_float (k : string) (fs : list (string * json)) : res Q :=
  match lookup_field k fs with
  | JNull => Ok 0%Q
  | JInt z => Ok (inject_Z (round53s z))
  | JFloat q => Ok q
  | _ => Err (type_error k)
  end.

(** ** Slices and free-form values *)

(** A slice that is empty is nil, which prints as null. *)
Definition json_list {A} (f : A -> json) (l : list A) : json :=
  match l with [] => JNull | _ => JArr (f <$> l) end.

Definition list_of_json {A} (f : json -> res A) (j : json) : res (list A) :=
  match j with
  | JNull => Ok []
  | JArr l => map_res f l
  | _ => Err (type_error "[]")
  end.

Definition string_of_json (j : json) : res string :=
  match j with JNull => Ok "" | JStr s => Ok s | _ => Err (type_error "string") end.

Fixpoint json_of_any (a : any) : json :=
  match a with
  | ANil => JNull
  | AStr s => JStr s
  | AInt i | AInt64 i => JInt i
  | AFloat f => float_token f
  | ANonFinite _ => JNull (* not [encodable] *)
  | ABool b => JBool b
  | ANilStrs => JNull
  | AStrs l => JArr (JStr <$> l)
  | AAnys l => JArr (json_of_any <$> l)
  | AMap m => JObj ((fun p => (p.1, json_of_any p.2)) <$> m)
  end.

(** [json.Marshal] fails on a float64 that is not finite. *)
Fixpoint encodable (a : any) : bool :=
  match a with
  | ANonFinite _ => false
  | AAnys l => forallb encodable l
  | AMap m => forallb (fun p => encodable p.2) m
  | _ => true
  end.

Fixpoint any_of_json (j : json) : any :=
  match j with
  | JNull => ANil
  | JBool b => ABool b
  | JInt z => AFloat (inject_Z (round53s z))
  | JFloat q => AFloat q
  | JStr s => AStr s
  | JArr l => AAnys (any_of_json <$> l)
  | JObj fs => AMap ((fun p => (p.1, any_of_json p.2)) <$> fs)
  end.

Definition omit_bool (k : string) (b : bool) : list (string * json) :=
  if b then [(k, JBool true)] else [].

Section Converters.
Context `{UuidLib, JsonLib}.

(** ** The JSON form of a configuration's parts *)

Definition json_of_transform (t : TransformSpec) : json :=
  JObj [("Op", JStr (Op t)); ("Arg", json_of_any (Arg t))].

Definition transform_of_json (j : json) : res TransformSpec :=
  fs ← as_object j;
  op ← get_string "Op" fs;
  Ok {| Op := op; Arg := any_of_json (lookup_field "Arg" fs) |}.

Definition json_of_extractor (e : ExtractorSpec) : json :=
  JObj (omit_str "selector" (Selector e) ++ omit_str "attribute" (Attribute e)
        ++ omit_bool "multiple" (Multiple e)
        ++ match Index e with None => [] | Some i => [("index", JInt i)] end).

Definition extractor_of_json (j : json) : res ExtractorSpec :=
  fs ← as_object j;
  sel ← get_string "selector" fs; attr ← get_string "attribute" fs;
  mul ← get_bool "multiple" fs;
  idx ← match lookup_field "index" fs with
        | JNull => Ok None
        | JInt z => if (int64_min <=? z) && (z <=? int64_max) then Ok (Some z)
                    else Err (type_error "index")
        | _ => Err (type_error "index")
        end;
  Ok {| Selector := sel; Attribute := attr; Multiple := mul; Index := idx |}.

Definition json_of_field (f : FieldSpec) : json :=
  JObj [("Name", JStr (FName f)); ("Type", JStr (FType f)); ("Required", JBool (Required f));
        ("Extractor", json_of_extractor (Extractor f));
        ("Transforms", json_list json_of_transform (Transforms f))].

Definition field_of_json (j : json) : res FieldSpec :=
  fs ← as_object j;
  n ← get_string "Name" fs; ty ← get_string "Type" fs; r ← get_bool "Required" fs;
  e ← extractor_of_json (lookup_field "Extractor" fs);
  ts ← list_of_json transform_of_json (lookup_field "Transforms" fs);
  Ok {| FName := n; FType := ty; Required := r; Extractor := e; Transforms := ts |}.

Definition json_of_pagination (p : PaginationSpec) : json :=
  JObj (omit_str "name" (PName p) ++ omit_str "selector" (PSelector p)
        ++ omit_str "attribute" (PAttribute p) ++ omit_bool "multiple" (PMultiple p)).

Definition pagination_of_json (j : json) : res PaginationSpec :=
  fs ← as_object j;
  n ← get_string "name" fs; sel ← get_string "selector" fs;
  attr ← get_string "attribute" fs; mul ← get_bool "multiple" fs;
  Ok {| PName := n; PSelector := sel; PAttribute := attr; PMultiple := mul |}.

Definition json_of_items (i : ItemsSpec) : json :=
  JObj [("container_selector", JStr (ContainerSelector i));
        ("fields", json_list json_of_field (IFields i))].

Definition items_of_json (j : json) : res ItemsSpec :=
  fs ← as_object j;
  c ← get_string "container_selector" fs;
  l ← list_of_json field_of_json (lookup_field "fields" fs);
  Ok {| ContainerSelector := c; IFields := l |}.

Definition json_of_spec (s : ExtractionSpec) : json :=
  JObj ([("Fields", json_list json_of_field (Fields s));
         ("Pagination", json_list json_of_pagination (Pagination s))]
        ++ match Items s with None => [] | Some i => [("items", json_of_items i)] end).

Definition spec_of_json (j : json) : res ExtractionSpec :=
  fs ← as_object j;
  l ← list_of_json field_of_json (lookup_field "Fields" fs);
  p ← list_of_json pagination_of_json (lookup_field "Pagination" fs);
  i ← match lookup_field "items" fs with
      | JNull => Ok None
      | j => it ← items_of_json j; Ok (Some it)
      end;
  Ok {| Fields := l; Pagination := p; Items := i |}.

Definition json_of_scopes (s : ScopeRules) : json :=
  JObj [("MaxDepth", JInt (MaxDepth s)); ("AllowedDomains", json_list JStr (AllowedDomains s));
        ("DenyUrlPatterns", json_list JStr (DenyUrlPatterns s));
        ("AllowedURLPatterns", json_list JStr (AllowedURLPatterns s))].

Definition scopes_of_json (j : json) : res ScopeRules :=
  fs ← as_object j;
  d ← get_uint 64 "MaxDepth" fs;
  a ← list_of_json string_of_json (lookup_field "AllowedDomains" fs);
  n ← list_of_json string_of_json (lookup_field "DenyUrlPatterns" fs);
  u ← list_of_json string_of_json (lookup_field "AllowedURLPatterns" fs);
  Ok {| MaxDepth := d; AllowedDomains := a; DenyUrlPatterns := n; AllowedURLPatterns := u |}.

Definition json_of_seed (s : Seed) : json := JObj [("Url", JStr (SeedUrl s))].
Definition seed_of_json (j : json) : res Seed :=
  fs ← as_object j; u ← get_string "Url" fs; Ok {| SeedUrl := u |}.

Definition json_of_rate (r : RateLimitPolicy) : json := JObj [("Rps", float_token (Rps r))].
Definition rate_of_json (j : json) : res RateLimitPolicy :=
  fs ← as_object j; r ← get_float "Rps" fs; Ok {| Rps := r |}.

Definition json_of_retry (r : RetryPolicy) : json :=
  JObj [("MaxAttempts", JInt (MaxAttempts r)); ("BackoffInitialMs", JInt (BackoffInitialMs r));
        ("BackoffMultiplier", float_token (BackoffMultiplier r))].
Definition retry_of_json (j : json) : res RetryPolicy :=
  fs ← as_object j;
  a ← get_uint 64 "MaxAttempts" fs; b ← get_uint 64 "BackoffInitialMs" fs;
  m ← get_float "BackoffMultiplier" fs;
  Ok {| MaxAttempts := a; BackoffInitialMs := b; BackoffMultiplier := m |}.

Definition json_of_auth (a : AuthOptions) : json :=
  JObj [("Cookie", JStr (Cookie a)); ("BasicUser", JStr (BasicUser a));
        ("BasicPassword", JStr (BasicPassword a)); ("BearerToken", JStr (BearerToken a))].
Definition auth_of_json (j : json) : res AuthOptions :=
  fs ← as_object j;
  c ← get_string "Cookie" fs; u ← get_string "BasicUser" fs;
  p ← get_string "BasicPassword" fs; b ← get_string "BearerToken" fs;
  Ok {| Cookie := c; BasicUser := u; BasicPassword := p; BearerToken := b |}.

Definition json_of_time_ptr (t : option Z) : json :=
  match t with None => JNull | Some t => JStr (time_text t) end.
Definition time_ptr_of_json (j : json) : res (option Z) :=
  match j with
  | JNull => Ok None
  | JStr s => match time_parse s with Some t => Ok (Some t) | None => Err (type_error "time") end
  | _ => Err (type_error "time")
  end.

Definition json_of_schedule (s : ScheduleOptions) : json :=
  JObj [("Cron", JStr (Cron s)); ("LastRunAt", json_of_time_ptr (LastRunAt s));
        ("NextRunAt", json_of_time_ptr (NextRunAt s))].
Definition schedule_of_json (j : json) : res ScheduleOptions :=
  fs ← as_object j;
  c ← get_string "Cron" fs;
  l ← time_ptr_of_json (lookup_field "LastRunAt" fs);
  n ← time_ptr_of_json (lookup_field "NextRunAt" fs);
  Ok {| Cron := c; LastRunAt := l; NextRunAt := n |}.

Definition json_of_weight (w : QueueWeight) : json :=
  JObj [("queue", JStr (Queue w)); ("weight", JInt (Weight w))].
Definition weight_of_json (j : json) : res QueueWeight :=
  fs ← as_object j;
  q ← get_string "queue" fs; w ← get_uint 32 "weight" fs;
  Ok {| Queue := q; Weight := w |}.

(** ** crawl_job_config.go *)

(** A struct or slice stored in a JSONB column: nil is NULL. *)
Definition to_column (j : json) : option json :=
  match through_any (valid_texts j) with JNull => None | j => Some j end.

(** A column read back and printed: NULL is the nil map or slice, which prints as null.  The texts of
    a JSONB column are UTF-8. *)
Definition of_column (c : option json) : json :=
  match c with None => JNull | Some j => through_any j end.

(** [NullString{String: id, Valid: !id.IsEmpty()}]. *)
Definition null_id (i : ID) : option string := if IsEmpty i then None else Some (value i).

(** The queue weights: never NULL, the empty array when there are none. *)
Definition save_weights (ws : list QueueWeight) : option json :=
  match ws with
  | [] => Some (JArr [])
  | ws => to_column (json_list json_of_weight ws)
  end.

Definition fields_encodable (l : list FieldSpec) : bool :=
  forallb (fun f => forallb (fun t => encodable (Arg t)) (Transforms f)) l.
Definition spec_encodable (s : ExtractionSpec) : bool :=
  fields_encodable (Fields s)
  && match Items s with None => true | Some i => fields_encodable (IFields i) end.

(** Only an argument of the extraction specification can make [json.Marshal] fail: the other
    parts hold strings, integers, times and finite floats. *)
Definition SaveCrawlJobConfigToSnapshot (config : CrawlJobConfig) : res CrawlJobConfigSnapshot :=
  if negb (spec_encodable (CfgExtractionSpec config)) then
    Err (Errorf "failed to marshal ExtractionSpec" (ENew "json: unsupported value"))
  else
  Ok {| cs_ID := value (CfgID config);
        cs_UserID := null_id (CfgUserID config);
        cs_Name := CfgName config;
        cs_ExtractionSpec := to_column (json_of_spec (CfgExtractionSpec config));
        cs_Scopes := to_column (json_of_scopes (Scopes config));
        cs_Seeds := to_column (json_list json_of_seed (Seeds config));
        cs_RateLimit := to_column (json_of_rate (RateLimit config));
        cs_Retries := to_column (json_of_retry (Retries config));
        cs_Auth := to_column (json_of_auth (Auth config));
        cs_Schedule := to_column (json_of_schedule (Schedule config));
        cs_JobType := if bool_decide (CfgJobType config = "") then JobTypeOnce
                      else CfgJobType config;
        cs_RespectRobotsTxt := RespectRobotsTxt config;
        cs_CrawlMode := CfgCrawlMode config;
        cs_QueueWeights := save_weights (QueueWeights config) |}.

(** [fmt.Errorf("failed to unmarshal X: %w", err)] around a column's decoder. *)
Definition restore_part {A} (name : string) (dec : json -> res A) (c : option json) : res A :=
  match dec (of_column c) with
  | Ok a => Ok a
  | Err e => Err (Errorf ("failed to unmarshal " +:+ name) e)
  end.

Definition parse_id (what : string) (s : string) : res ID :=
  match NewID s with Ok i => Ok i | Err e => Err (Errorf ("failed to parse " +:+ what) e) end.

Definition restore_weights (c : option json) : res (list QueueWeight) :=
  match c with
  | None | Some (JArr []) => Ok []
  | c => restore_part "QueueWeights" (list_of_json weight_of_json) c
  end.

Definition RestoreCrawlJobConfigFromSnapshot (s : CrawlJobConfigSnapshot) : res CrawlJobConfig :=
  id ← parse_id "ID" (cs_ID s);
  uid ← match cs_UserID s with None => Ok (MkID "") | Some u => parse_id "user id" u end;
  spec ← restore_part "ExtractionSpec" spec_of_json (cs_ExtractionSpec s);
  scopes ← restore_part "Scopes" scopes_of_json (cs_Scopes s);
  seeds ← restore_part "Seeds" (list_of_json seed_of_json) (cs_Seeds s);
  rate ← restore_part "RateLimit" rate_of_json (cs_RateLimit s);
  retries ← restore_part "Retries" retry_of_json (cs_Retries s);
  auth ← restore_part "Auth" auth_of_json (cs_Auth s);
  schedule ← restore_part "Schedule" schedule_of_json (cs_Schedule s);
  weights ← restore_weights (cs_QueueWeights s);
  Ok {| CfgID := id; CfgUserID := uid; CfgName := cs_Name s; CfgExtractionSpec := spec;
        Scopes := scopes; Seeds := seeds; RateLimit := rate; Retries := retries; Auth := auth;
        Schedule := schedule;
        CfgJobType := if bool_decide (cs_JobType s = "") then JobTypeOnce else cs_JobType s;
        RespectRobotsTxt := cs_RespectRobotsTxt s;
        CfgCrawlMode := cs_CrawlMode s;
        QueueWeights := weights |}.

(** ** crawl_job.go *)

Definition SaveCrawlJobToSnapshot (j : CrawlJob) : CrawlJobSnapshot :=
  let base cfg :=
    {| js_ID := value (JID j); js_JobConfigID := null_id (JobConfigID j);
       js_UserID := null_id (JUserID j); js_Name := JName j; js_Status := JStatus j;
       js_CreatedAt := CreatedAt j; js_CompletedAt := CompletedAt j; js_JobConfig := cfg;
       js_ExportJSONKey := ExportJSONKey j; js_ExportCSVKey := ExportCSVKey j;
       js_ExportedAt := ExportedAt j; js_ExportStatus := Some (JExportStatus j) |} in
  match JobConfig j with
  | None => base None
  | Some c =>
      match SaveCrawlJobConfigToSnapshot c with
      | Ok s => base (Some s)
      | Err _ =>
          (* the early return: no configuration and no export fields *)
          {| js_ID := value (JID j); js_JobConfigID := null_id (JobConfigID j);
             js_UserID := null_id (JUserID j); js_Name := JName j; js_Status := JStatus j;
             js_CreatedAt := CreatedAt j; js_CompletedAt := CompletedAt j; js_JobConfig := None;
             js_ExportJSONKey := None; js_ExportCSVKey := None; js_ExportedAt := None;
             js_ExportStatus := None |}
      end
  end.

Definition RestoreCrawlJobFromSnapshot (s : CrawlJobSnapshot) : res CrawlJob :=
  id ← NewCrawlJobID (js_ID s);
  cid ← match js_JobConfigID s with None => Ok (MkID "") | Some c => NewID c end;
  uid ← match js_UserID s with None => Ok (MkID "") | Some u => NewUserID u end;
  cfg ← match js_JobConfig s with
        | None => Ok None
        | Some c => k ← RestoreCrawlJobConfigFromSnapshot c; Ok (Some k)
        end;
  Ok {| JID := id; JobConfigID := cid; JobConfig := cfg; JUserID := uid; JName := js_Name s;
        JStatus := js_Status s; CreatedAt := js_CreatedAt s; CompletedAt := js_CompletedAt s;
        ExportJSONKey := js_ExportJSONKey s; ExportCSVKey := js_ExportCSVKey s;
        ExportedAt := js_ExportedAt s;
        JExportStatus := match js_ExportStatus s with
                         | Some st => st
                         | None => ExportStatusNotStarted
                         end |}.

(** ** crawl_task.go *)

Definition SaveCrawlTaskToSnapshot (t : CrawlTask) : CrawlTaskSnapshot :=
  {| ts_ID := value (TID t); ts_JobID := value (JobID t); ts_URL := URL t;
     ts_FinalURL := FinalURL t; ts_Status := Status t; ts_EnqueuedAt := EnqueuedAt t;
     ts_Depth := Depth t; ts_MinioObjectKey := MinioObjectKey t;
     ts_ResultObjectKey := ResultObjectKey t; ts_ResultContentType := ResultContentType t;
     ts_ResultSizeBytes := ResultSizeBytes t; ts_ResultCreatedAt := ResultCreatedAt t;
     ts_ErrorMessage := ErrorMessage t |}.

Definition RestoreCrawlTaskFromSnapshot (s : CrawlTaskSnapshot) : res CrawlTask :=
  id ← NewID (ts_ID s);
  jid ← NewCrawlJobID (ts_JobID s);
  Ok {| TID := id; JobID := jid; Job := None; URL := ts_URL s; FinalURL := ts_FinalURL s;
        Status := ts_Status s; EnqueuedAt := ts_EnqueuedAt s; Depth := ts_Depth s;
        MinioObjectKey := ts_MinioObjectKey s; ResultObjectKey := ts_ResultObjectKey s;
        ResultContentType := ts_ResultContentType s; ResultSizeBytes := ts_ResultSizeBytes s;
        ResultCreatedAt := ts_ResultCreatedAt s; ErrorMessage := ts_ErrorMessage s |}.

Definition RestoreCrawlTaskWithJobFromSnapshot (s : CrawlTaskWithJobSnapshot) : res CrawlTask :=
  let t := tj_Task s in
  id ← NewID (ts_ID t);
  jid ← NewCrawlJobID (ts_JobID t);
  job ← match tj_Job s with
        | None => Ok None
        | Some j => k ← RestoreCrawlJobFromSnapshot j; Ok (Some k)
        end;
  Ok {| TID := id; JobID := jid; Job := job; URL := ts_URL t; FinalURL := ts_FinalURL t;
        Status := ts_Status t; EnqueuedAt := ts_EnqueuedAt t; Depth := ts_Depth t;
        MinioObjectKey := ts_MinioObjectKey t; ResultObjectKey := ts_ResultObjectKey t;
        ResultContentType := ts_ResultContentType t; ResultSizeBytes := ts_ResultSizeBytes t;
        ResultCreatedAt := ts_ResultCreatedAt t; ErrorMessage := ts_ErrorMessage t |}.

(** ** outbox_event.go, preview.go, user_converter.go, refresh_token_converter.go *)

Definition SaveOutboxEventToSnapshot (e : OutboxEvent string) : OutboxEventSnapshot :=
  {| os_ID := value (OID e); os_EventType := OEventType e; os_AggregateID := OAggregateID e;
     os_Payload := OPayload e; os_OccurredAt := OOccurredAt e; os_ProcessedAt := OProcessedAt e;
     os_CreatedAt := OCreatedAt e |}.

Definition RestoreOutboxEventFromSnapshot (s : OutboxEventSnapshot) : res (OutboxEvent string) :=
  id ← NewOutboxEventID (os_ID s);
  Ok {| OID := id; OEventType := os_EventType s; OAggregateID := os_AggregateID s;
        OPayload := os_Payload s; OOccurredAt := os_OccurredAt s;
        OProcessedAt := os_ProcessedAt s; OCreatedAt := os_CreatedAt s |}.

Definition SavePreviewToSnapshot (p : Preview) : PreviewSnapshot :=
  {| ps_ID := value (PvID p); ps_SourceURL := SourceURL p; ps_FinalURL := PvFinalURL p;
     ps_MinioKey := MinioKey p; ps_ContentType := PvContentType p;
     ps_DownloadURL := DownloadURL p; ps_CreatedAt := PvCreatedAt p;
     ps_ExpiresAt := ExpiresAt p |}.

Definition RestorePreviewFromSnapshot (s : PreviewSnapshot) : res Preview :=
  id ← NewID (ps_ID s);
  Ok {| PvID := id; SourceURL := ps_SourceURL s; PvFinalURL := ps_FinalURL s;
        MinioKey := ps_MinioKey s; PvContentType := ps_ContentType s;
        DownloadURL := ps_DownloadURL s; PvCreatedAt := ps_CreatedAt s;
        ExpiresAt := ps_ExpiresAt s |}.

Definition UserModelToSnapshot (u : User) : UserSnapshot :=
  {| us_ID := value (UID u); us_Email := Email u; us_PasswordHash := PasswordHash u;
     us_Role := URole u; us_CreatedAt := UCreatedAt u; us_UpdatedAt := UUpdatedAt u |}.

Definition UserSnapshotToModel (s : UserSnapshot) : res User :=
  id ← NewUserID (us_ID s);
  role ← ParseRole (us_Role s);
  Ok {| UID := id; Email := us_Email s; PasswordHash := us_PasswordHash s; URole := role;
        UCreatedAt := us_CreatedAt s; UUpdatedAt := us_UpdatedAt s |}.

Definition RefreshTokenModelToSnapshot (t : RefreshToken) : RefreshTokenSnapshot :=
  {| rs_ID := value (RTID t); rs_UserID := value (RTUserID t); rs_TokenHash := TokenHash t;
     rs_ExpiresAt := RTExpiresAt t; rs_RevokedAt := RevokedAt t; rs_CreatedAt := RTCreatedAt t;
     rs_ReplacedByTokenID := value <$> ReplacedByTokenID t |}.

Definition RefreshTokenSnapshotToModel (s : RefreshTokenSnapshot) : res RefreshToken :=
  id ← NewID (rs_ID s);
  uid ← NewUserID (rs_UserID s);
  rid ← match rs_ReplacedByTokenID s with
        | None => Ok None
        | Some r => i ← NewID r; Ok (Some i)
        end;
  Ok {| RTID := id; RTUserID := uid; TokenHash := rs_TokenHash s; RTExpiresAt := rs_ExpiresAt s;
        RevokedAt := rs_RevokedAt s; RTCreatedAt := rs_CreatedAt s; ReplacedByTokenID := rid |}.

End Converters.

(** ** Numbers that pass through float64 unchanged *)

Lemma round53_small x : 0 <= x < 2 ^ 53 -> round53 x = x.
Proof.
  intros Hx. unfold round53. destruct (decide (x = 0)) as [->|Hnz]; [done|].
  assert (Z.log2 x < 53) by (apply Z.log2_lt_pow2; lia).
  destruct (Z.leb_spec (Z.log2 x + 1) 53); lia.
Qed.

Lemma round53s_small x : Z.abs x < 2 ^ 53 -> round53s x = x.
Proof.
  intros Hx. unfold round53s. destruct (Z.ltb_spec x 0); rewrite round53_small; lia.
Qed.

Lemma float_token_int z : Z.abs z < 2 ^ 53 -> float_token (inject_Z z) = JInt z.
Proof.
  intros Hz. unfold float_token. simpl Qden. simpl Qnum.
  rewrite bool_decide_eq_true_2 by done. unfold print_int_float.
  destruct (Z.ltb_spec (Z.abs z) (10 ^ 21)); [|lia].
  destruct (Z.ltb_spec (Z.abs z) (2 ^ 53)); [|lia].
  f_equal. apply Z.sgn_abs || lia.
Qed.

(** A float64 that is not an integer, or an integer below 2^53 in absolute value. *)
Definition float_ok (q : Q) : bool :=
  negb (bool_decide (Qden q = 1%positive)) || (Z.abs (Qnum q) <? 2 ^ 53).

Lemma float_ok_token q :
  float_ok q = true ->
  float_token q = JFloat q \/ (float_token q = JInt (Qnum q) /\ q = inject_Z (Qnum q)
                              /\ Z.abs (Qnum q) < 2 ^ 53).
Proof.
  unfold float_ok. destruct q as [n d]. simpl. case_bool_decide as Hd; simpl; intros Hq.
  - right. subst d. apply Z.ltb_lt in Hq. change (n # 1) with (inject_Z n).
    by rewrite float_token_int.
  - left. unfold float_token. simpl. by rewrite bool_decide_eq_false_2.
Qed.

Lemma float_token_through q : float_ok q = true -> through_any (float_token q) = float_token q.
Proof.
  intros Hq. destruct (float_ok_token q Hq) as [E|(-> & E & Hn)]; simpl.
  - by rewrite E.
  - by rewrite round53s_small, float_token_int.
Qed.

Lemma get_float_token k q :
  float_ok q = true -> get_float k [(k, float_token q)] = Ok q.
Proof.
  intros Hq. unfold get_float, lookup_field, fold_eq. cbn [fold_left fst snd]. rewrite bool_decide_eq_true_2 by done.
  destruct (float_ok_token q Hq) as [->|(-> & E & Hn)]; [done|].
  by rewrite round53s_small, <- E.
Qed.

(** Free-form values of the shapes JSON decodes to, with stable numbers. *)
Fixpoint any_ok (a : any) : bool :=
  match a with
  | ANil | AStr _ | ABool _ => true
  | AFloat q => float_ok q
  | AAnys l => forallb any_ok l
  | AMap m => forallb (fun p => any_ok p.2) m
  | _ => false
  end.

Lemma any_json_stable : forall a,
  any_ok a = true ->
  through_any (json_of_any a) = json_of_any a /\ any_of_json (json_of_any a) = a.
Proof.
  fix IH 1. intros [|s|i|i|f|?|b| |l|l|m]; simpl; try done; intros Ha.
  - split; [by apply float_token_through|].
    destruct (float_ok_token f Ha) as [->|(-> & E & Hn)]; simpl; [done|].
    by rewrite round53s_small, <- E.
  - enough (through_any <$> (json_of_any <$> l) = json_of_any <$> l
            /\ any_of_json <$> (json_of_any <$> l) = l) as [E1 E2] by (split; f_equal; done).
    induction l as [|a l IHl]; [done|].
    simpl in Ha. apply andb_true_iff in Ha as [Ha Hl].
    destruct (IH a Ha) as [E1 E2]. destruct (IHl Hl) as [F1 F2].
    rewrite !fmap_cons, E1, E2. split; f_equal; done.
  - enough ((fun p => (p.1, through_any p.2)) <$> ((fun p => (p.1, json_of_any p.2)) <$> m)
            = (fun p => (p.1, json_of_any p.2)) <$> m
            /\ (fun p => (p.1, any_of_json p.2)) <$> ((fun p => (p.1, json_of_any p.2)) <$> m) = m)
      as [E1 E2] by (split; f_equal; done).
    induction m as [|[k a] m IHm]; [done|].
    simpl in Ha. apply andb_true_iff in Ha as [Ha Hl].
    destruct (IH a Ha) as [E1 E2]. destruct (IHm Hl) as [F1 F2].
    rewrite !fmap_cons. cbn [fst snd]. rewrite E1, E2. split; f_equal; done.
Qed.

(** ** Texts *)

Lemma replace_invalid_id l : utf8_valid l = true -> replace_invalid l = l.
Proof.
  remember (length l) as n eqn:Hn. revert l Hn.
  induction n as [n IH] using lt_wf_ind. intros l -> Hl.
  destruct l as [|a l1]; [done|]. cbn [utf8_valid replace_invalid] in *.
  destruct (between 0 127 a). { f_equal. by apply (IH (length l1)); [simpl; lia| |]. }
  destruct l1 as [|b l2]; [done|]. unfold rune2, rune3, rune4.
  destruct (between 194 223 a).
  { apply andb_true_iff in Hl as [-> Hl]. simpl. do 2 f_equal.
    by apply (IH (length l2)); [simpl; lia| |]. }
  simpl. destruct l2 as [|c l3]; [done|].
  destruct (between 224 239 a).
  { apply andb_true_iff in Hl as [Hl Hv]. simpl. rewrite Hl. do 3 f_equal.
    by apply (IH (length l3)); [simpl; lia| |]. }
  simpl. destruct l3 as [|d l4]; [done|]. apply andb_true_iff in Hl as [Hl Hv]. rewrite Hl.
  do 4 f_equal. by apply (IH (length l4)); [simpl; lia| |].
Qed.

Lemma ToValidUTF8_id s : utf8_valid (bytes_of s) = true -> ToValidUTF8 s = s.
Proof. intros Hs. unfold ToValidUTF8. by rewrite (replace_invalid_id _ Hs), of_bytes_of. Qed.

Fixpoint texts_ok (j : json) : bool :=
  match j with
  | JStr s => utf8_valid (bytes_of s)
  | JArr l => forallb texts_ok l
  | JObj fs => forallb (fun p => utf8_valid (bytes_of p.1) && texts_ok p.2) fs
  | _ => true
  end.

Lemma valid_texts_id : forall j, texts_ok j = true -> valid_texts j = j.
Proof.
  fix IH 1. intros [|b|z|q|s|l|fs]; simpl; try done; intros Hj.
  - by rewrite ToValidUTF8_id.
  - f_equal. induction l as [|j l IHl]; [done|]. simpl in Hj. apply andb_true_iff in Hj as [Hj Hl].
    rewrite fmap_cons, (IH j Hj). f_equal. by apply IHl.
  - f_equal. induction fs as [|[k j] fs IHl]; [done|]. simpl in Hj.
    rewrite !andb_true_iff in Hj. destruct Hj as [[Hk Hj] Hl].
    rewrite fmap_cons. cbn [fst snd]. rewrite (IH j Hj), ToValidUTF8_id by done. f_equal. by apply IHl.
Qed.

Example invalid_byte_replaced :
  ToValidUTF8 (of_bytes (bytes_of "a" ++ [ascii_of_nat 255; ascii_of_nat 195; ascii_of_nat 169]))
  = of_bytes (bytes_of "a" ++ replacement_char ++ [ascii_of_nat 195; ascii_of_nat 169]).
Proof. vm_compute. reflexivity. Qed.

(** ** Slices *)

Lemma json_list_stable {A} (enc : A -> json) l :
  Forall (fun x => through_any (enc x) = enc x) l ->
  through_any (json_list enc l) = json_list enc l.
Proof.
  intros Hl. assert (E : through_any <$> (enc <$> l) = enc <$> l).
  { induction Hl as [|x l Hx Hl IH]; [done|]. by rewrite !fmap_cons, Hx, IH. }
  destruct l as [|x l]; [done|]. unfold json_list. cbn [through_any]. by rewrite E.
Qed.

Lemma list_of_json_list {A} (enc : A -> json) (dec : json -> res A) l :
  Forall (fun x => dec (enc x) = Ok x) l -> list_of_json dec (json_list enc l) = Ok l.
Proof.
  intros Hl. assert (E : map_res dec (enc <$> l) = Ok l).
  { induction Hl as [|x l Hx Hl IH]; [done|].
    rewrite fmap_cons. simpl map_res. rewrite Hx. simpl. by rewrite IH. }
  destruct l as [|x l]; [done|]. exact E.
Qed.

Lemma strings_stable l :
  through_any (json_list JStr l) = json_list JStr l
  /\ list_of_json string_of_json (json_list JStr l) = Ok l.
Proof.
  split; [apply json_list_stable | apply list_of_json_list]; apply Forall_true; reflexivity.
Qed.

(** ** The parts of a configuration round-trip *)

Section RoundTrips.
Context `{UuidLib, JsonLib}.

(** [part_ok enc dec x]: printing [x] is stable under the passage through [interface{}], and it
    reads back. *)
Definition part_ok {A} (enc : A -> json) (dec : json -> res A) (x : A) : Prop :=
  through_any (enc x) = enc x /\ dec (enc x) = Ok x.

Lemma part_ok_list {A} (enc : A -> json) dec l :
  Forall (part_ok enc dec) l -> part_ok (json_list enc) (list_of_json dec) l.
Proof.
  intros Hl. split.
  - apply json_list_stable. eapply Forall_impl; [exact Hl|]. by intros x [? ?].
  - apply list_of_json_list. eapply Forall_impl; [exact Hl|]. by intros x [? ?].
Qed.

Lemma Forall_forallb {A} (P : A -> Prop) (f : A -> bool) l :
  (forall x, f x = true -> P x) -> forallb f l = true -> Forall P l.
Proof. intros HP Hl%forallb_Forall_true. by eapply Forall_impl. Qed.

Definition index_ok (i : option Z) : bool :=
  match i with None => true | Some i => Z.abs i <? 2 ^ 53 end.

Definition field_ok (f : FieldSpec) : bool :=
  index_ok (Index (Extractor f)) && forallb (fun t => any_ok (Arg t)) (Transforms f).

Lemma transform_part t : any_ok (Arg t) = true -> part_ok json_of_transform transform_of_json t.
Proof.
  intros Ht. destruct (any_json_stable _ Ht) as [E1 E2].
  split; [|unfold transform_of_json, json_of_transform].
  - unfold json_of_transform. cbn [through_any]. rewrite !fmap_cons. cbn [fst snd].
    by rewrite E1.
  - simpl. unfold lookup_field, fold_eq. simpl. rewrite E2. by destruct t.
Qed.

Lemma extractor_part e :
  index_ok (Index e) = true -> part_ok json_of_extractor extractor_of_json e.
Proof.
  intros Hi. destruct e as [sel attr mul [i|]]; simpl in Hi.
  - apply Z.ltb_lt in Hi. split.
    + unfold json_of_extractor, omit_str, omit_bool; simpl.
      repeat case_bool_decide; destruct mul; simpl;
        by rewrite round53s_small, float_token_int by done.
    + unfold extractor_of_json, json_of_extractor, omit_str, omit_bool, get_string, get_bool; simpl.
      assert (E : (int64_min <=? i) && (i <=? int64_max) = true)
        by (unfold int64_min, int64_max; lia).
      repeat case_bool_decide; destruct mul; subst; simpl; by rewrite E.
  - split; unfold extractor_of_json, json_of_extractor, omit_str, omit_bool, get_string, get_bool;
      simpl; repeat case_bool_decide; destruct mul; subst; done.
Qed.

Lemma field_part f : field_ok f = true -> part_ok json_of_field field_of_json f.
Proof.
  unfold field_ok. intros [Hi Ht]%andb_true_iff.
  destruct (extractor_part _ Hi) as [E1 E2].
  destruct (part_ok_list json_of_transform transform_of_json (Transforms f)) as [T1 T2];
    [eapply Forall_forallb; [|exact Ht]; apply transform_part|].
  split.
  - unfold json_of_field. cbn [through_any]. rewrite !fmap_cons. cbn [fst snd].
    by rewrite E1, T1.
  - unfold field_of_json, json_of_field. simpl.
    unfold lookup_field, fold_eq. simpl. rewrite E2. simpl. rewrite T2. by destruct f.
Qed.

Lemma pagination_part p : part_ok json_of_pagination pagination_of_json p.
Proof.
  split; unfold pagination_of_json, json_of_pagination, omit_str, omit_bool, get_string, get_bool;
    destruct p as [n sel attr mul]; simpl; repeat case_bool_decide; destruct mul; subst; done.
Qed.

Definition items_ok (i : option ItemsSpec) : bool :=
  match i with None => true | Some i => forallb field_ok (IFields i) end.

Lemma items_part i : items_ok (Some i) = true -> part_ok json_of_items items_of_json i.
Proof.
  intros Hi. destruct (part_ok_list json_of_field field_of_json (IFields i)) as [T1 T2];
    [eapply Forall_forallb; [|exact Hi]; apply field_part|].
  split.
  - unfold json_of_items. cbn [through_any]. rewrite !fmap_cons. cbn [fst snd]. by rewrite T1.
  - unfold items_of_json, json_of_items. simpl. unfold lookup_field, fold_eq. simpl.
    rewrite T2. by destruct i.
Qed.

Definition spec_ok (s : ExtractionSpec) : bool :=
  forallb field_ok (Fields s) && items_ok (Items s).

Lemma spec_part s : spec_ok s = true -> part_ok json_of_spec spec_of_json s.
Proof.
  unfold spec_ok. intros [Hf Hi]%andb_true_iff.
  destruct (part_ok_list json_of_field field_of_json (Fields s)) as [T1 T2];
    [eapply Forall_forallb; [|exact Hf]; apply field_part|].
  destruct (part_ok_list json_of_pagination pagination_of_json (Pagination s)) as [P1 P2];
    [apply Forall_true, pagination_part|].
  destruct s as [fs ps [i|]]; simpl in *.
  - destruct (items_part i Hi) as [I1 I2]. split.
    + unfold json_of_spec. simpl app. cbn [through_any]. rewrite !fmap_cons. cbn [fst snd].
      by rewrite T1, P1, I1.
    + unfold spec_of_json, json_of_spec. simpl. unfold lookup_field, fold_eq. simpl.
      rewrite T2. simpl. rewrite P2. simpl. unfold json_of_items in I2. by rewrite I2.
  - split.
    + unfold json_of_spec. simpl app. cbn [through_any]. rewrite !fmap_cons. cbn [fst snd].
      by rewrite T1, P1.
    + unfold spec_of_json, json_of_spec. simpl. unfold lookup_field, fold_eq. simpl.
      rewrite T2. simpl. by rewrite P2.
Qed.

Definition exact (z : Z) : bool := (0 <=? z) && (z <? 2 ^ 53).

Lemma exact_token z :
  exact z = true -> through_any (JInt z) = JInt z /\ (0 <=? z) && (z <? 2 ^ 64) = true.
Proof.
  unfold exact. rewrite andb_true_iff, Z.leb_le, Z.ltb_lt. intros Hz. split; [|lia].
  simpl. rewrite round53s_small, float_token_int by lia. done.
Qed.

Lemma scopes_part s : exact (MaxDepth s) = true -> part_ok json_of_scopes scopes_of_json s.
Proof.
  intros Hd. destruct (exact_token _ Hd) as [D1 D2].
  destruct (strings_stable (AllowedDomains s)) as [A1 A2].
  destruct (strings_stable (DenyUrlPatterns s)) as [B1 B2].
  destruct (strings_stable (AllowedURLPatterns s)) as [C1 C2]. split.
  - unfold json_of_scopes. cbn [through_any]. rewrite !fmap_cons. cbn [fst snd].
    by rewrite D1, A1, B1, C1.
  - unfold scopes_of_json, json_of_scopes, get_uint. simpl. unfold lookup_field, fold_eq. simpl.
    rewrite D2. simpl. rewrite A2. simpl. rewrite B2. simpl. rewrite C2. by destruct s.
Qed.

Lemma seeds_part l : part_ok (json_list json_of_seed) (list_of_json seed_of_json) l.
Proof. apply part_ok_list, Forall_true. by intros []. Qed.

Lemma rate_part r : float_ok (Rps r) = true -> part_ok json_of_rate rate_of_json r.
Proof.
  intros Hr. split.
  - unfold json_of_rate. cbn [through_any]. rewrite fmap_cons. cbn [fst snd].
    by rewrite float_token_through.
  - unfold rate_of_json, json_of_rate. simpl. rewrite get_float_token by done. by destruct r.
Qed.

Definition retry_ok (r : RetryPolicy) : bool :=
  exact (MaxAttempts r) && exact (BackoffInitialMs r) && float_ok (BackoffMultiplier r).

Lemma retry_part r : retry_ok r = true -> part_ok json_of_retry retry_of_json r.
Proof.
  unfold retry_ok. rewrite !andb_true_iff. intros [[Ha Hb] Hm].
  destruct (exact_token _ Ha) as [A1 A2]. destruct (exact_token _ Hb) as [B1 B2]. split.
  - unfold json_of_retry. cbn [through_any]. rewrite !fmap_cons. cbn [fst snd].
    by rewrite A1, B1, float_token_through.
  - pose proof (get_float_token "BackoffMultiplier" _ Hm) as M.
    unfold retry_of_json, json_of_retry, get_uint. simpl.
    unfold get_float, lookup_field, fold_eq in *. simpl in *.
    rewrite A2. simpl. rewrite B2. simpl. rewrite M. by destruct r.
Qed.

Lemma auth_part a : part_ok json_of_auth auth_of_json a.
Proof. by destruct a. Qed.

Definition time_ptr_ok (t : option Z) : bool :=
  match t with None => true | Some t => time_ok t end.

Lemma schedule_part s :
  time_ptr_ok (LastRunAt s) && time_ptr_ok (NextRunAt s) = true ->
  part_ok json_of_schedule schedule_of_json s.
Proof.
  rewrite andb_true_iff. intros [? ?].
  destruct s as [c [l|] [n|]]; simpl in *; split; try done; unfold schedule_of_json, json_of_schedule, get_string,
      time_ptr_of_json; simpl; unfold lookup_field, fold_eq; simpl;
    rewrite !time_parse_text by done; done.
Qed.

Definition weight_ok (w : QueueWeight) : bool := (0 <=? Weight w) && (Weight w <? 2 ^ 32).

Lemma weight_part w : weight_ok w = true -> part_ok json_of_weight weight_of_json w.
Proof.
  unfold weight_ok. intros Hw. split.
  - unfold json_of_weight. simpl. rewrite round53s_small, float_token_int; [done|lia..].
  - unfold weight_of_json, json_of_weight, get_uint, lookup_field, fold_eq. simpl.
    unfold lookup_field, fold_eq. simpl. rewrite Hw. by destruct w.
Qed.

(** ** Whole rows *)

Lemma part_column {A} (enc : A -> json) dec name x :
  part_ok enc dec x -> texts_ok (enc x) = true -> dec JNull = Ok x \/ enc x <> JNull ->
  restore_part name dec (to_column (enc x)) = Ok x.
Proof.
  intros [E1 E2] Ht Hn. unfold restore_part, to_column. rewrite (valid_texts_id _ Ht), E1.
  destruct (decide (enc x = JNull)) as [E|E].
  - rewrite E in *. simpl. destruct Hn as [->|]; done.
  - replace (match enc x with JNull => None | j => Some j end) with (Some (enc x))
      by (by destruct (enc x)).
    simpl. by rewrite E1, E2.
Qed.

Definition id_ok (i : ID) : bool := negb (bool_decide (value i = "")) && uuid_Parse (value i).

Lemma id_ok_NewID i : id_ok i = true -> NewID (value i) = Ok i.
Proof.
  unfold id_ok. rewrite andb_true_iff, negb_true_iff, bool_decide_eq_false. intros [? ?].
  by apply NewID_value.
Qed.

Lemma restored_row r t :
  RestoreCrawlTaskFromSnapshot r = Ok t ->
  value (TID t) = ts_ID r /\ EnqueuedAt t = ts_EnqueuedAt r /\ URL t = ts_URL r
  /\ Status t = ts_Status r /\ Depth t = ts_Depth r.
Proof.
  unfold RestoreCrawlTaskFromSnapshot, NewCrawlJobID. intros E.
  apply res_bind_Ok in E as (i & Ei & E). apply res_bind_Ok in E as (j & _ & [= <-]). simpl.
  split; [|done]. unfold NewID in Ei. repeat case_match; congruence || (by injection Ei as <-).
Qed.

Definition null_id_ok (i : ID) : bool := IsEmpty i || id_ok i.

Lemma null_id_restore i :
  null_id_ok i = true ->
  match null_id i with None => Ok (MkID "") | Some c => NewID c end = Ok i.
Proof.
  unfold null_id_ok, null_id, IsEmpty. case_bool_decide as Hi; simpl.
  - intros _. destruct i as [v]. simpl in Hi. by subst.
  - apply id_ok_NewID.
Qed.

(** The texts of a configuration are UTF-8. *)
Definition config_texts_ok (c : CrawlJobConfig) : bool :=
  texts_ok (json_of_spec (CfgExtractionSpec c)) && texts_ok (json_of_scopes (Scopes c))
  && texts_ok (json_list json_of_seed (Seeds c)) && texts_ok (json_of_auth (Auth c))
  && texts_ok (json_of_schedule (Schedule c)) && texts_ok (json_list json_of_weight (QueueWeights c)).

(** A configuration whose identifiers are UUIDs, whose integers are below 2^53, whose free-form
    arguments are values JSON decodes to and whose texts are UTF-8. *)
Definition config_ok (c : CrawlJobConfig) : bool :=
  id_ok (CfgID c) && null_id_ok (CfgUserID c) && spec_ok (CfgExtractionSpec c)
  && exact (MaxDepth (Scopes c)) && float_ok (Rps (RateLimit c)) && retry_ok (Retries c)
  && (time_ptr_ok (LastRunAt (Schedule c)) && time_ptr_ok (NextRunAt (Schedule c)))
  && negb (bool_decide (CfgJobType c = "")) && forallb weight_ok (QueueWeights c) && config_texts_ok c.

Lemma any_ok_encodable : forall a, any_ok a = true -> encodable a = true.
Proof.
  fix IH 1. intros [|s|i|i|f|?|b| |l|l|m]; simpl; try done.
  - induction l as [|a l IHl]; simpl; [done|]. rewrite !andb_true_iff. intros [Ha Hl].
    split; [by apply IH|by apply IHl].
  - induction m as [|[k a] m IHm]; simpl; [done|]. rewrite !andb_true_iff. intros [Ha Hl].
    split; [by apply IH|by apply IHm].
Qed.

Lemma field_ok_encodable l : forallb field_ok l = true -> fields_encodable l = true.
Proof.
  unfold fields_encodable, field_ok. rewrite !forallb_Forall_true. intros Hl.
  eapply Forall_impl; [exact Hl|]. intros f [_ Hf]%andb_true_iff. rewrite forallb_Forall_true in *.
  eapply Forall_impl; [exact Hf|]. intros t. apply any_ok_encodable.
Qed.

Lemma spec_ok_encodable s : spec_ok s = true -> spec_encodable s = true.
Proof.
  unfold spec_ok, spec_encodable. intros [Hf Hi]%andb_true_iff.
  rewrite (field_ok_encodable _ Hf). destruct (Items s); [|done]. by apply field_ok_encodable.
Qed.

Lemma float_texts q : texts_ok (float_token q) = true.
Proof. unfold float_token. by repeat case_match. Qed.

Lemma rate_texts r : texts_ok (json_of_rate r) = true.
Proof. simpl. by rewrite float_texts. Qed.

Lemma retry_texts r : texts_ok (json_of_retry r) = true.
Proof. simpl. by rewrite float_texts. Qed.

Lemma weights_restore ws :
  forallb weight_ok ws = true -> texts_ok (json_list json_of_weight ws) = true ->
  restore_weights (save_weights ws) = Ok ws.
Proof.
  intros Hw Ht. destruct ws as [|w ws]; [done|].
  assert (P : part_ok (json_list json_of_weight) (list_of_json weight_of_json) (w :: ws))
    by (apply part_ok_list; eapply Forall_forallb; [|exact Hw]; apply weight_part).
  pose proof (part_column _ _ "QueueWeights" _ P Ht ltac:(by right)) as E.
  unfold restore_weights, save_weights, to_column in *.
  destruct P as [P _]. rewrite (valid_texts_id _ Ht), P in *. exact E.
Qed.

#[local] Arguments restore_part : simpl never.
#[local] Arguments to_column : simpl never.
#[local] Arguments restore_weights : simpl never.
#[local] Arguments save_weights : simpl never.

Lemma object_not_null fs : JObj fs <> JNull.
Proof. done. Qed.

Lemma seeds_column l :
  texts_ok (json_list json_of_seed l) = true ->
  restore_part "Seeds" (list_of_json seed_of_json) (to_column (json_list json_of_seed l)) = Ok l.
Proof.
  intros Ht. apply part_column; [apply seeds_part|exact Ht|]. destruct l; [by left|by right].
Qed.

Lemma res_bind_ret {A B} (a : A) (k : A -> res B) : (Ok a ≫= k) = k a.
Proof. done. Qed.

Lemma config_restore c :
  config_ok c = true ->
  (s ← SaveCrawlJobConfigToSnapshot c; RestoreCrawlJobConfigFromSnapshot s) = Ok c.
Proof.
  unfold config_ok. rewrite !andb_true_iff.
  intros [[[[[[[[[Hid Hu] Hs] Hd] Hr] Hre] Ht] Hj] Hw] Htx].
  unfold config_texts_ok in Htx. rewrite !andb_true_iff in Htx.
  destruct Htx as [[[[[X1 X2] X3] X4] X5] X6]. rewrite negb_true_iff in Hj.
  unfold SaveCrawlJobConfigToSnapshot. rewrite (spec_ok_encodable _ Hs).
  unfold RestoreCrawlJobConfigFromSnapshot.
  cbn [negb mbind res_bind cs_ID cs_UserID cs_Name cs_ExtractionSpec cs_Scopes cs_Seeds cs_RateLimit
       cs_Retries cs_Auth cs_Schedule cs_JobType cs_RespectRobotsTxt cs_CrawlMode cs_QueueWeights].
  assert (Ei : parse_id "ID" (value (CfgID c)) = Ok (CfgID c))
    by (unfold parse_id; by rewrite (id_ok_NewID _ Hid)).
  assert (Eu : match null_id (CfgUserID c) with
               | None => Ok (MkID "") | Some u => parse_id "user id" u end = Ok (CfgUserID c)).
  { pose proof (null_id_restore _ Hu) as E. unfold parse_id.
    destruct (null_id (CfgUserID c)); [by rewrite E|done]. }
  pose proof (part_column _ _ "ExtractionSpec" _ (spec_part _ Hs) X1 (or_intror (object_not_null _))) as E1.
  pose proof (part_column _ _ "Scopes" _ (scopes_part _ Hd) X2 (or_intror (object_not_null _))) as E2.
  pose proof (seeds_column _ X3) as E3.
  pose proof (part_column _ _ "RateLimit" _ (rate_part _ Hr) (rate_texts _) (or_intror (object_not_null _)))
    as E4.
  pose proof (part_column _ _ "Retries" _ (retry_part _ Hre) (retry_texts _)
                (or_intror (object_not_null _))) as E5.
  pose proof (part_column _ _ "Auth" _ (auth_part _) X4 (or_intror (object_not_null _))) as E6.
  pose proof (part_column _ _ "Schedule" _ (schedule_part _ (andb_true_intro Ht)) X5
                (or_intror (object_not_null _))) as E7.
  pose proof (weights_restore _ Hw X6) as E8.
  rewrite Ei, res_bind_ret, Eu, res_bind_ret, E1, res_bind_ret, E2, res_bind_ret, E3, res_bind_ret,
    E4, res_bind_ret, E5, res_bind_ret, E6, res_bind_ret, E7, res_bind_ret, E8, res_bind_ret, Hj, Hj.
  by destruct c as [????????[]?????].
Qed.

End RoundTrips.

(** ** Properties *)

Section Properties.
Context `{UuidLib, JsonLib}.

Definition job_ok (j : CrawlJob) : bool :=
  id_ok (JID j) && null_id_ok (JobConfigID j) && null_id_ok (JUserID j)
  && match JobConfig j with None => true | Some c => config_ok c end.

Lemma job_restore j : job_ok j = true -> RestoreCrawlJobFromSnapshot (SaveCrawlJobToSnapshot j) = Ok j.
Proof.
  unfold job_ok. rewrite !andb_true_iff. intros [[[Hi Hc] Hu] Hg].
  destruct j as [id cid [cfg|] uid nm st cr co jk ck ea es]; simpl in *;
    unfold RestoreCrawlJobFromSnapshot, NewCrawlJobID, SaveCrawlJobToSnapshot;
    cbn [js_ID js_JobConfigID js_UserID js_JobConfig JID JobConfigID JUserID JobConfig];
    pose proof (null_id_restore _ Hc) as Ec; pose proof (null_id_restore _ Hu) as Eu.
  - pose proof (config_restore _ Hg) as Eg.
    destruct (SaveCrawlJobConfigToSnapshot cfg) as [s|e] eqn:Es; [|done].
    cbn [mbind res_bind] in Eg. cbn [js_ID js_JobConfigID js_UserID js_JobConfig].
    rewrite (id_ok_NewID _ Hi). cbn [mbind res_bind]. rewrite Ec. cbn [mbind res_bind].
    replace (match null_id uid with None => Ok (MkID "") | Some u => NewUserID u end)
      with (Ok (A := ID) uid)
      by (rewrite <- Eu; destruct (null_id uid); [|done]; unfold NewUserID; by destruct (NewID _)).
    cbn [mbind res_bind]. by rewrite Eg.
  - rewrite (id_ok_NewID _ Hi). cbn [mbind res_bind]. rewrite Ec. cbn [mbind res_bind].
    replace (match null_id uid with None => Ok (MkID "") | Some u => NewUserID u end)
      with (Ok (A := ID) uid)
      by (rewrite <- Eu; destruct (null_id uid); [|done]; unfold NewUserID; by destruct (NewID _)).
    done.
Qed.

Definition token_ok (t : RefreshToken) : bool :=
  id_ok (RTID t) && id_ok (RTUserID t)
  && match ReplacedByTokenID t with None => true | Some i => id_ok i end.

(** C40: the rows read back.  Saving a job whose identifiers are UUIDs (or empty where the
    column is nullable), with or without its configuration, and restoring the row gives the job
    back, provided the configuration's integers, and the floats that are integers, are below 2^53,
    its free-form arguments are values JSON decodes to and its texts are UTF-8; a task comes back without its job, a user when its role is one of
    the three, a refresh token with its successor. *)
Theorem snapshots_roundtrip j t u k :
  job_ok j = true ->
  id_ok (TID t) && id_ok (JobID t) = true ->
  id_ok (UID u) && Role_IsValid (URole u) = true ->
  token_ok k = true ->
  RestoreCrawlJobFromSnapshot (SaveCrawlJobToSnapshot j) = Ok j
  /\ RestoreCrawlTaskFromSnapshot (SaveCrawlTaskToSnapshot t)
     = Ok {| TID := TID t; JobID := JobID t; Job := None; URL := URL t; FinalURL := FinalURL t;
             Status := Status t; EnqueuedAt := EnqueuedAt t; Depth := Depth t;
             MinioObjectKey := MinioObjectKey t; ResultObjectKey := ResultObjectKey t;
             ResultContentType := ResultContentType t; ResultSizeBytes := ResultSizeBytes t;
             ResultCreatedAt := ResultCreatedAt t; ErrorMessage := ErrorMessage t |}
  /\ UserSnapshotToModel (UserModelToSnapshot u) = Ok u
  /\ RefreshTokenSnapshotToModel (RefreshTokenModelToSnapshot k) = Ok k.
Proof.
  intros Hj [Ht1 Ht2]%andb_true_iff [Hu Hr]%andb_true_iff Hk.
  unfold token_ok in Hk. rewrite !andb_true_iff in Hk. destruct Hk as [[Hk1 Hk2] Hk3].
  split; [by apply job_restore|]. split; [|split].
  - unfold RestoreCrawlTaskFromSnapshot, NewCrawlJobID. simpl.
    by rewrite (id_ok_NewID _ Ht1), (id_ok_NewID _ Ht2).
  - unfold UserSnapshotToModel, NewUserID, ParseRole. simpl.
    rewrite (id_ok_NewID _ Hu), Hr. by destruct u.
  - unfold RefreshTokenSnapshotToModel, NewUserID. simpl.
    rewrite (id_ok_NewID _ Hk1), (id_ok_NewID _ Hk2). simpl.
    destruct k as [i uid h e r c [n|]]; simpl in *; [|done]. by rewrite (id_ok_NewID _ Hk3).
Qed.

(** A policy the API accepts, [max_depth] the largest uint64. *)
Definition deep_scopes : ScopeRules :=
  {| MaxDepth := uint64_max; AllowedDomains := []; DenyUrlPatterns := [];
     AllowedURLPatterns := [] |}.

(** Depths through JSONB, in scopes whose texts are UTF-8.  A depth limit of at most 2^53 - 1 is stored and read back exactly;
    2^60 comes back as the decimal that float64 prints for it; and the scopes with the largest
    depth limit of the API, 2^64 - 1, are stored as a row that can no longer be restored. *)
Theorem max_depth_through_jsonb s :
  texts_ok (json_of_scopes s) = true ->
  (exact (MaxDepth s) = true ->
   restore_part "Scopes" scopes_of_json (to_column (json_of_scopes s)) = Ok s)
  /\ (MaxDepth <$> restore_part "Scopes" scopes_of_json (to_column (json_of_scopes
        {| MaxDepth := 2 ^ 60; AllowedDomains := AllowedDomains s;
           DenyUrlPatterns := DenyUrlPatterns s; AllowedURLPatterns := AllowedURLPatterns s |})))
     = Ok 1152921504606847000
  /\ is_ok (restore_part "Scopes" scopes_of_json (to_column (json_of_scopes deep_scopes))) = false.
Proof.
  intros Ht. split; [|split].
  - intros Hd. apply part_column; [by apply scopes_part|exact Ht|by right].
  - destruct (strings_stable (AllowedDomains s)) as [A1 A2].
    destruct (strings_stable (DenyUrlPatterns s)) as [B1 B2].
    destruct (strings_stable (AllowedURLPatterns s)) as [C1 C2].
    unfold restore_part, to_column, of_column. rewrite valid_texts_id by exact Ht.
    unfold json_of_scopes. cbn [MaxDepth AllowedDomains DenyUrlPatterns AllowedURLPatterns].
    assert (E : forall z z', through_any (JInt z) = JInt z' ->
      through_any (JObj [("MaxDepth", JInt z); ("AllowedDomains", json_list JStr (AllowedDomains s));
        ("DenyUrlPatterns", json_list JStr (DenyUrlPatterns s));
        ("AllowedURLPatterns", json_list JStr (AllowedURLPatterns s))])
      = JObj [("MaxDepth", JInt z'); ("AllowedDomains", json_list JStr (AllowedDomains s));
        ("DenyUrlPatterns", json_list JStr (DenyUrlPatterns s));
        ("AllowedURLPatterns", json_list JStr (AllowedURLPatterns s))]).
    { intros z z' Hz. cbn [through_any]. rewrite !fmap_cons. cbn [fst snd].
      by rewrite Hz, A1, B1, C1. }
    rewrite (E _ 1152921504606847000) by (vm_compute; reflexivity).
    cbv iota beta. rewrite (E _ 1152921504606847000) by (vm_compute; reflexivity).
    unfold scopes_of_json, get_uint. simpl. unfold lookup_field, fold_eq. simpl.
    rewrite A2. simpl. rewrite B2. simpl. by rewrite C2.
  - vm_compute. reflexivity.
Qed.

End Properties.

(** ** A concrete configuration *)

#[local] Existing Instances any_uuid plain_json.

Definition demo_config : CrawlJobConfig := {|
  CfgID := MkID "c1"; CfgUserID := MkID "u1"; CfgName := "demo";
  CfgExtractionSpec := {|
    Fields := [{| FName := "title"; FType := ValueString; Required := true;
                  Extractor := {| Selector := "h1"; Attribute := ""; Multiple := false; Index := None |};
                  Transforms := [{| Op := OpTrim; Arg := ANil |}] |}];
    Pagination := []; Items := None |};
  Scopes := {| MaxDepth := 3; AllowedDomains := ["a.b"]; DenyUrlPatterns := [];
               AllowedURLPatterns := [] |};
  Seeds := [{| SeedUrl := "http://a.b/" |}];
  RateLimit := {| Rps := 2 |};
  Retries := {| MaxAttempts := 3; BackoffInitialMs := 100; BackoffMultiplier := 2 |};
  Auth := {| Cookie := ""; BasicUser := ""; BasicPassword := ""; BearerToken := "" |};
  Schedule := {| Cron := ""; LastRunAt := None; NextRunAt := None |};
  CfgJobType := JobTypeOnce; RespectRobotsTxt := true; CfgCrawlMode := ""; QueueWeights := [] |}.

Definition demo_job : CrawlJob := {|
  JID := MkID "j1"; JobConfigID := MkID "c1"; JobConfig := None; JUserID := MkID "u1";
  JName := None; JStatus := TaskStatusInProgress; CreatedAt := 1; CompletedAt := None;
  ExportJSONKey := None; ExportCSVKey := None; ExportedAt := None;
  JExportStatus := ExportStatusNotStarted |}.

Definition demo_task (status : TaskStatus) : CrawlTask := {|
  TID := MkID "t1"; JobID := MkID "j1"; Job := None; URL := "http://a.b/"; FinalURL := None;
  Status := status; EnqueuedAt := 2; Depth := 0; MinioObjectKey := ""; ResultObjectKey := None;
  ResultContentType := None; ResultSizeBytes := None; ResultCreatedAt := None;
  ErrorMessage := None |}.

Definition demo_account : User := NewUserWithRole (MkID "u1") 0 "u@a.b" "h" RoleReadWrite.
Definition demo_token : RefreshToken := NewRefreshToken (MkID "r1") 1 (MkID "u1") "th" 9.
Definition demo_job_configured : CrawlJob := {|
  JID := MkID "j1"; JobConfigID := MkID "c1"; JobConfig := Some demo_config; JUserID := MkID "";
  JName := Some "nightly"; JStatus := TaskStatusInProgress; CreatedAt := 1; CompletedAt := None;
  ExportJSONKey := None; ExportCSVKey := None; ExportedAt := None;
  JExportStatus := ExportStatusNotStarted |}.

Lemma snapshots_roundtrip_witness :
  let t := demo_task TaskStatusInProgress in
  (job_ok demo_job_configured && (id_ok (TID t) && id_ok (JobID t))
   && (id_ok (UID demo_account) && Role_IsValid (URole demo_account)) && token_ok demo_token
   = true)
  /\ RestoreCrawlJobFromSnapshot (SaveCrawlJobToSnapshot demo_job_configured)
     = Ok demo_job_configured
  /\ RestoreCrawlTaskFromSnapshot (SaveCrawlTaskToSnapshot t) = Ok t.
Proof.
  intros t. split; [vm_compute; reflexivity|].
  destruct (snapshots_roundtrip demo_job_configured t demo_account demo_token) as (A & B & _);
    [vm_compute; reflexivity..|].
  split; [exact A|exact B].
Defined.
