(* ===== verification/Restored.v ===== *)
(** * What was read back from the database

    A configuration that was decoded from its columns can be printed again: its free-form values
    came from JSON, so that they hold no float that is not finite. *)

From S2P Require Import Prelude GoStrings Domain Json Converters.

Section Restored.
Context `{UuidLib, JsonLib}.

Lemma any_of_json_encodable : forall j, encodable (any_of_json j) = true.
Proof.
  fix IH 1. intros [| | | | |l|fs]; simpl; try reflexivity.
  - induction l as [|j l IHl]; [done|]. rewrite fmap_cons. simpl. by rewrite IH.
  - induction fs as [|[k j] fs IHl]; [done|]. rewrite fmap_cons. simpl. by rewrite IH.
Qed.

(** Every element of a decoded list came from an element of the array. *)
Lemma list_of_json_Forall {A} (f : json -> res A) (P : A -> Prop) j l :
  (forall x y, f x = Ok y -> P y) -> list_of_json f j = Ok l -> Forall P l.
Proof.
  intros Hf. destruct j as [| | | | |js|]; simpl; try done; [by intros [= <-]|].
  revert l. induction js as [|x js IH]; intros l E; simpl in E; [by injection E as <-|].
  apply res_bind_Ok in E as (y & Ey & E). apply res_bind_Ok in E as (ys & Eys & E).
  injection E as <-. constructor; eauto.
Qed.

Lemma field_of_json_encodable j f :
  field_of_json j = Ok f -> forallb (fun t => encodable (Arg t)) (Transforms f) = true.
Proof.
  unfold field_of_json. intros E. repeat (apply res_bind_Ok in E as (? & ? & E)). injection E as <-.
  simpl. apply forallb_Forall_true.
  match goal with H : list_of_json transform_of_json _ = Ok _ |- _ =>
    refine (list_of_json_Forall transform_of_json _ _ _ _ H) end.
  intros a b E. unfold transform_of_json in E. repeat (apply res_bind_Ok in E as (? & ? & E)).
  injection E as <-. apply any_of_json_encodable.
Qed.

Lemma fields_of_json_encodable j l :
  list_of_json field_of_json j = Ok l -> fields_encodable l = true.
Proof.
  intros E. unfold fields_encodable. apply forallb_Forall_true.
  eapply list_of_json_Forall; [|exact E]. intros x y. apply field_of_json_encodable.
Qed.

Lemma spec_of_json_encodable j s : spec_of_json j = Ok s -> spec_encodable s = true.
Proof.
  unfold spec_of_json. intros E. apply res_bind_Ok in E as (fs & _ & E).
  apply res_bind_Ok in E as (l & El & E). apply res_bind_Ok in E as (p & _ & E).
  apply res_bind_Ok in E as (i & Ei & E). injection E as <-. unfold spec_encodable. simpl.
  rewrite (fields_of_json_encodable _ _ El). simpl.
  destruct i as [it|]; [|done].
  assert (Hit : forall j', items_of_json j' = Ok it -> fields_encodable (IFields it) = true).
  { intros j' Ej. unfold items_of_json in Ej. apply res_bind_Ok in Ej as (? & _ & Ej).
    apply res_bind_Ok in Ej as (? & _ & Ej). apply res_bind_Ok in Ej as (l' & El' & Ej).
    injection Ej as <-. by eapply fields_of_json_encodable. }
  destruct (lookup_field "items" fs); try done;
    apply res_bind_Ok in Ei as (it' & Ei & [= <-]); by eapply Hit.
Qed.

Lemma restored_encodable s c :
  RestoreCrawlJobConfigFromSnapshot s = Ok c -> spec_encodable (CfgExtractionSpec c) = true.
Proof.
  unfold RestoreCrawlJobConfigFromSnapshot. intros E.
  apply res_bind_Ok in E as (? & _ & E). apply res_bind_Ok in E as (? & _ & E).
  apply res_bind_Ok in E as (sp & Es & E).
  repeat (apply res_bind_Ok in E as (? & _ & E)). injection E as <-. simpl.
  unfold restore_part in Es. destruct (spec_of_json _) as [sp'|] eqn:Ej; [|done].
  injection Es as <-. by eapply spec_of_json_encodable.
Qed.

(** A job whose configuration, when it is loaded, can be stored again. *)
Definition storable (j : CrawlJob) : Prop :=
  forall c, JobConfig j = Some c -> spec_encodable (CfgExtractionSpec c) = true.

Lemma restored_storable s j : RestoreCrawlJobFromSnapshot s = Ok j -> storable j.
Proof.
  unfold RestoreCrawlJobFromSnapshot. intros E c Hc.
  repeat (apply res_bind_Ok in E as (? & ? & E)). injection E as <-. simpl in Hc. subst.
  destruct (js_JobConfig s) as [cs|]; [|done].
  match goal with H : (RestoreCrawlJobConfigFromSnapshot cs ≫= _) = Ok (Some c) |- _ =>
    apply res_bind_Ok in H as (k & Ek & [= <-]) end.
  by eapply restored_encodable.
Qed.

Lemma null_id_some s i : NewID s = Ok i -> null_id i = Some s.
Proof. intros E. destruct (NewID_ok _ _ E) as (-> & Hn & _). unfold null_id, IsEmpty. simpl. by case_bool_decide. Qed.

Lemma restored_job_ids s j :
  RestoreCrawlJobFromSnapshot s = Ok j ->
  value (JID j) = js_ID s /\ null_id (JobConfigID j) = js_JobConfigID s /\ null_id (JUserID j) = js_UserID s
  /\ JName j = js_Name s.
Proof.
  unfold RestoreCrawlJobFromSnapshot. intros E. apply res_bind_Ok in E as (i & Ei & E).
  apply res_bind_Ok in E as (c & Ec & E). apply res_bind_Ok in E as (u & Eu & E).
  apply res_bind_Ok in E as (? & _ & [= <-]). simpl. split; [|split; [|split; [|done]]].
  - apply res_bind_Ok in Ei as (i' & Ei & [= <-]). by destruct (NewID_ok _ _ Ei) as (-> & _).
  - destruct (js_JobConfigID s); [by apply null_id_some|by injection Ec as <-].
  - destruct (js_UserID s); [|by injection Eu as <-]. apply res_bind_Ok in Eu as (u' & Eu & [= <-]).
    simpl. by apply null_id_some.
Qed.

(** The columns of a job that is stored. *)
Lemma storable_columns j :
  storable j ->
  js_ID (SaveCrawlJobToSnapshot j) = value (JID j)
  /\ js_ExportStatus (SaveCrawlJobToSnapshot j) = Some (JExportStatus j)
  /\ js_ExportJSONKey (SaveCrawlJobToSnapshot j) = ExportJSONKey j
  /\ js_ExportCSVKey (SaveCrawlJobToSnapshot j) = ExportCSVKey j.
Proof.
  unfold storable, SaveCrawlJobToSnapshot. destruct (JobConfig j) as [c|]; [|done].
  intros Hs. unfold SaveCrawlJobConfigToSnapshot. by rewrite (Hs c eq_refl).
Qed.

End Restored.
