(* ===== verification/World.v ===== *)
(** * The world the components act on

    The state outside a component: the PostgreSQL tables (rows of [Converters]), the transaction of
    the current call chain, the object store, the messages published to the broker, and a counter
    of the calls made to the outside.  What the outside decides (faults, clock readings, fresh
    UUIDs, random numbers, row locks of other sessions, trace contexts) is the class [Env], indexed
    by that counter, so that a property holds for every behaviour of the outside.

    A Go function that may fail is a computation [M (res A)]; a panic is an outcome of its own.
    [transaction/transaction.go] is [ReadCommitted]. *)

From S2P Require Import Prelude GoStrings Domain Json Converters.

Record database := {
  configs : list CrawlJobConfigSnapshot;
  jobs : list CrawlJobSnapshot;
  tasks : list CrawlTaskSnapshot;
  outbox : list OutboxEventSnapshot;
  users : list UserSnapshot;
  tokens : list RefreshTokenSnapshot;
  previews : list PreviewSnapshot }.

Definition empty_db : database := {|
  configs := []; jobs := []; tasks := []; outbox := []; users := []; tokens := [];
  previews := [] |}.

Inductive message :=
| MsgCrawl (m : CrawlTaskMessage)
| MsgParsing (m : ParsingTaskMessage).

(** [tx] is [Some aborted] between BEGIN and COMMIT or ROLLBACK. *)
Record world := {
  db : database;
  tx : option bool;
  objects : gmap string string;
  published : list (string * message);
  ticks : nat }.

(** The fate of one call: it succeeds, fails without effect, or takes effect while its
    caller sees an error (a lost acknowledgement). *)
Inductive verdict :=
| Succeeds
| FailsBefore (e : gerror)
| FailsAfter (e : gerror).

(** [uuid_at n] is [uuid.New().String()], [intn_at n k] is [rand.Intn(k)] for [0 < k],
    [locked_at n row] says that another session holds the row's lock, [trace_at n] is
    [telemetry.InjectTraceContext(ctx)]. *)
Class Env `{UuidLib} := {
  verdict_at : nat -> verdict;
  clock_at : nat -> Z;
  uuid_at : nat -> string;
  intn_at : nat -> Z -> Z;
  locked_at : nat -> string -> bool;
  trace_at : nat -> gmap string string;
  uuid_at_ok n : uuid_at n <> "" /\ uuid_Parse (uuid_at n) = true;
  intn_at_range n k : 0 < k -> 0 <= intn_at n k < k }.

Inductive outcome (A : Type) :=
| Ret (a : A)
| Panic (msg : string).
Arguments Ret {A} a.
Arguments Panic {A} msg.

Definition M (A : Type) : Type := world -> outcome A * world.

#[export] Instance M_ret : MRet M := fun A a w => (Ret a, w).
#[export] Instance M_bind : MBind M := fun A B f m w =>
  match m w with
  | (Ret a, w') => f a w'
  | (Panic e, w') => (Panic e, w')
  end.

Definition panic {A} (msg : string) : M A := fun w => (Panic msg, w).

(** [if err != nil { ... }] after a call: [try x <- m; k] returns the error as it is,
    [try x <- m else e => h; k] handles it. *)
Definition try_bind {A B} (m : M (res A)) (h : gerror -> M (res B)) (k : A -> M (res B))
  : M (res B) :=
  r ← m; match r with Ok a => k a | Err e => h e end.

Notation "'try' x <- m 'else' e => h ; k" :=
  (try_bind m (fun e => h) (fun x => k))
  (at level 20, x pattern, e name, m at level 100, h at level 100, k at level 200,
   right associativity).
Notation "'try' x <- m ; k" :=
  (try_bind m (fun e => mret (Err e)) (fun x => k))
  (at level 20, x pattern, m at level 100, k at level 200, right associativity).

Definition ret_ok {A} (a : A) : M (res A) := mret (Ok a).
Definition ret_err {A} (e : gerror) : M (res A) := mret (Err e).
Definition lift_res {A} (r : res A) : M (res A) := mret r.

(** ** Primitive actions *)

Definition set_db (d : database) (w : world) : world :=
  {| db := d; tx := tx w; objects := objects w; published := published w; ticks := ticks w |}.
Definition set_tx (t : option bool) (w : world) : world :=
  {| db := db w; tx := t; objects := objects w; published := published w; ticks := ticks w |}.
Definition tick (w : world) : world :=
  {| db := db w; tx := tx w; objects := objects w; published := published w;
     ticks := S (ticks w) |}.
Definition add_message (q : string) (m : message) (w : world) : world :=
  {| db := db w; tx := tx w; objects := objects w; published := published w ++ [(q, m)];
     ticks := ticks w |}.
Definition put_object (k v : string) (w : world) : world :=
  {| db := db w; tx := tx w; objects := <[k := v]> (objects w); published := published w;
     ticks := ticks w |}.
Definition remove_object (k : string) (w : world) : world :=
  {| db := db w; tx := tx w; objects := delete k (objects w); published := published w;
     ticks := ticks w |}.

Definition ErrNoRows : gerror := ESentinel "pgx.ErrNoRows" "no rows in result set".
Definition ErrTxAborted : gerror :=
  ENew "current transaction is aborted, commands ignored until end of transaction block".
Definition ErrTxCommitRollback : gerror :=
  ESentinel "pgx.ErrTxCommitRollback" "commit unexpectedly resulted in rollback".

Section Actions.
Context `{Env}.

(** A value the outside gives at the current call. *)
Definition observe {A} (f : nat -> A) : M A := fun w => (Ret (f (ticks w)), tick w).
Definition time_Now : M Z := observe clock_at.
Definition uuid_New : M string := observe uuid_at.
Definition InjectTraceContext : M (gmap string string) := observe trace_at.

(** [rand.Intn(n)] panics unless [n > 0]. *)
Definition rand_Intn (n : Z) : M Z :=
  if n <=? 0 then panic "invalid argument to Intn" else observe (fun t => intn_at t n).

(** A call to a service whose effect is [f]. *)
Definition call {A} (f : world -> A * world) : M (res A) := fun w =>
  let n := ticks w in
  let w := tick w in
  match verdict_at n with
  | Succeeds => let '(a, w') := f w in (Ret (Ok a), w')
  | FailsBefore e => (Ret (Err e), w)
  | FailsAfter e => (Ret (Err e), (f w).2)
  end.

(** An SQL statement.  Within a transaction, a statement that fails (a constraint or the
    connection) aborts it, and the following statements fail. *)
Definition stmt {A} (f : nat -> database -> res (A * database)) : M (res A) := fun w =>
  let n := ticks w in
  let w := tick w in
  match tx w with
  | Some true => (Ret (Err ErrTxAborted), w)
  | Some false =>
      match verdict_at n with
      | Succeeds =>
          match f n (db w) with
          | Ok (a, d) => (Ret (Ok a), set_db d w)
          | Err e => (Ret (Err e), set_tx (Some true) w)
          end
      | FailsBefore e | FailsAfter e => (Ret (Err e), set_tx (Some true) w)
      end
  | None =>
      match verdict_at n with
      | Succeeds =>
          match f n (db w) with
          | Ok (a, d) => (Ret (Ok a), set_db d w)
          | Err e => (Ret (Err e), w)
          end
      | FailsBefore e => (Ret (Err e), w)
      | FailsAfter e =>
          match f n (db w) with
          | Ok (_, d) => (Ret (Err e), set_db d w)
          | Err _ => (Ret (Err e), w)
          end
      end
  end.

(** A statement that reads. *)
Definition query {A} (f : nat -> database -> A) : M (res A) :=
  stmt (fun n d => Ok (f n d, d)).
(** A statement that writes and cannot violate a constraint. *)
Definition exec (f : database -> database) : M (res unit) :=
  stmt (fun _ d => Ok (tt, f d)).

(** ** transaction/transaction.go *)

(** [fmt.Errorf("%w: errRollback: %v", err, errRollback)]. *)
Definition rollback_error (e er : gerror) : gerror := EWrap "" e (": errRollback: " +:+ Error er).

Definition Rollback {A} (saved : database) (e : gerror) (w : world) : outcome (res A) * world :=
  let w' := set_tx None (set_db saved (tick w)) in
  match verdict_at (ticks w) with
  | Succeeds => (Ret (Err e), w')
  | FailsBefore er | FailsAfter er => (Ret (Err (rollback_error e er)), w')
  end.

Definition Commit {A} (saved : database) (a : A) (w : world) : outcome (res A) * world :=
  let fail e := (Ret (Err (Errorf "tx commit failed" e)), set_tx None (set_db saved (tick w))) in
  match tx w with
  | Some true => fail ErrTxCommitRollback
  | _ =>
      match verdict_at (ticks w) with
      | Succeeds => (Ret (Ok a), set_tx None (tick w))
      | FailsBefore e => fail e
      | FailsAfter e => (Ret (Err (Errorf "tx commit failed" e)), set_tx None (tick w))
      end
  end.

(** The body runs in the transaction of the context when there is one; a new transaction is
    rolled back on an error or a panic of the body and committed otherwise.  A body returns with
    [Ok] what it assigned to the variables of its caller. *)
Definition ReadCommitted {A} (fn : M (res A)) : M (res A) := fun w =>
  match tx w with
  | Some _ => fn w
  | None =>
      match verdict_at (ticks w) with
      | FailsBefore e | FailsAfter e => (Ret (Err (Errorf "cant begin transaction" e)), tick w)
      | Succeeds =>
          let saved := db w in
          match fn (set_tx (Some false) (tick w)) with
          | (Panic m, w1) => Rollback saved (ENew ("panic recovered: " +:+ m)) w1
          | (Ret (Err e), w1) =>
              Rollback saved (Errorf "failed executing code inside transaction" e) w1
          | (Ret (Ok a), w1) => Commit saved a w1
          end
      end
  end.

(** ** Services used by the workers *)

(** [messaging.Client.Publish]. *)
Definition Publish (queue : string) (m : message) : M (res unit) :=
  call (fun w => (tt, add_message queue m w)).

(** [services.ContentStore]. *)
Definition Store (key content : string) : M (res unit) :=
  call (fun w => (tt, put_object key content w)).
Definition Retrieve (key : string) : M (res string) :=
  try o <- call (fun w => (objects w !! key, w));
  match o with
  | Some c => ret_ok c
  | None => ret_err (ENew "The specified key does not exist.")
  end.

(** A loop over a slice that stops at the first error. *)
Fixpoint for_each {A} (f : A -> M (res unit)) (l : list A) : M (res unit) :=
  match l with
  | [] => ret_ok tt
  | x :: l => try _ <- f x; for_each f l
  end.

(** A loop whose body handles its own errors. *)
Fixpoint for_all {A} (f : A -> M unit) (l : list A) : M unit :=
  match l with
  | [] => mret tt
  | x :: l => f x ≫= fun _ => for_all f l
  end.

End Actions.

(** ** Lemmas on runs *)

Section Runs.
Context `{Env}.

Lemma bind_ret {A B} (m : M A) (f : A -> M B) w a w' :
  m w = (Ret a, w') -> (m ≫= f) w = f a w'.
Proof. intros E. unfold mbind, M_bind. by rewrite E. Qed.

(** A computation that returned through [try] got past its first call. *)
Lemma try_inv {A B} (m : M (res A)) (h : gerror -> M (res B)) (k : A -> M (res B)) w b w' :
  try_bind m h k w = (Ret b, w') ->
  (exists a w1, m w = (Ret (Ok a), w1) /\ k a w1 = (Ret b, w'))
  \/ (exists e w1, m w = (Ret (Err e), w1) /\ h e w1 = (Ret b, w')).
Proof.
  unfold try_bind, mbind, M_bind. destruct (m w) as [[[a|e]|s] w1]; intros E.
  - left. eauto.
  - right. eauto.
  - done.
Qed.

(** The same when the error branch returns the error and the result is [Ok]. *)
Lemma try_ok {A B} (m : M (res A)) (g : gerror -> gerror) (k : A -> M (res B)) w b w' :
  try_bind m (fun e => ret_err (g e)) k w = (Ret (Ok b), w') ->
  exists a w1, m w = (Ret (Ok a), w1) /\ k a w1 = (Ret (Ok b), w').
Proof.
  intros E. destruct (try_inv _ _ _ _ _ _ E) as [?|(e & w1 & _ & E2)]; [done|].
  unfold ret_err, mret, M_ret in E2. congruence.
Qed.

Lemma try_ok' {A B} (m : M (res A)) (k : A -> M (res B)) w b w' :
  try_bind m (fun e => mret (Err e)) k w = (Ret (Ok b), w') ->
  exists a w1, m w = (Ret (Ok a), w1) /\ k a w1 = (Ret (Ok b), w').
Proof. apply (try_ok m id k). Qed.

(** A successful statement. *)
Lemma stmt_ok {A} (f : nat -> database -> res (A * database)) w a w' :
  stmt f w = (Ret (Ok a), w') ->
  tx w <> Some true /\ exists d, f (ticks w) (db w) = Ok (a, d) /\ w' = set_db d (tick w).
Proof.
  unfold stmt. simpl. destruct (tx w) as [[]|] eqn:Et; [done| |];
    destruct (verdict_at (ticks w)); try done;
    destruct (f (ticks w) (db w)) as [[x d]|] eqn:Ef; try done;
    intros [= <- <-]; split; try done; eauto.
Qed.

Lemma query_ok {A} (f : nat -> database -> A) w a w' :
  query f w = (Ret (Ok a), w') ->
  tx w <> Some true /\ a = f (ticks w) (db w) /\ w' = tick w.
Proof.
  intros (Ht & d & [= <- <-] & ->)%stmt_ok. split; [done|]. split; [done|]. by destruct w.
Qed.

Lemma call_ok {A} (f : world -> A * world) w a w' :
  call f w = (Ret (Ok a), w') -> (a, w') = f (tick w).
Proof.
  unfold call. destruct (verdict_at (ticks w)); try done.
  destruct (f (tick w)) as [x w1]. by intros [= <- <-].
Qed.

Lemma observe_ret {A} (f : nat -> A) w : observe f w = (Ret (f (ticks w)), tick w).
Proof. done. Qed.

(** What a statement outside a transaction does, in every case. *)
Lemma stmt_out {A} (f : nat -> database -> res (A * database)) w :
  tx w = None ->
  exists r w', stmt f w = (Ret r, w') /\ tx w' = None /\ objects w' = objects w
    /\ published w' = published w
    /\ (db w' = db w \/ exists a d, f (ticks w) (db w) = Ok (a, d) /\ db w' = d)
    /\ (forall a, r = Ok a -> f (ticks w) (db w) = Ok (a, db w')).
Proof.
  intros Ht. unfold stmt. simpl. rewrite Ht.
  destruct (verdict_at (ticks w)); destruct (f (ticks w) (db w)) as [[x d]|] eqn:Ef;
    eexists _, _; (split; [done|]); repeat (split; [done|]); (split; [eauto|]);
    intros a Ha; simplify_eq/=; done.
Qed.

(** The same within any transaction, but for its state. *)
Lemma stmt_any {A} (f : nat -> database -> res (A * database)) w :
  exists r w', stmt f w = (Ret r, w') /\ objects w' = objects w /\ published w' = published w
    /\ (db w' = db w \/ exists a d, f (ticks w) (db w) = Ok (a, d) /\ db w' = d)
    /\ (forall a, r = Ok a -> f (ticks w) (db w) = Ok (a, db w')).
Proof.
  unfold stmt. simpl.
  destruct (tx w) as [[]|]; [|destruct (verdict_at (ticks w));
    destruct (f (ticks w) (db w)) as [[x d]|] eqn:Ef..];
    eexists _, _; (split; [done|]); repeat (split; [done|]); (split; [eauto|]);
    intros a Ha; simplify_eq/=; done.
Qed.

Lemma query_out {A} (f : nat -> database -> A) w :
  tx w = None ->
  exists r w', query f w = (Ret r, w') /\ tx w' = None /\ objects w' = objects w
    /\ published w' = published w /\ db w' = db w
    /\ (forall a, r = Ok a -> a = f (ticks w) (db w)).
Proof.
  intros Ht. destruct (stmt_out (fun n d => Ok (f n d, d)) w Ht)
    as (r & w' & E & Ht' & Ho & Hp & Hd & Hr).
  exists r, w'. repeat (split; [done|]). split.
  - destruct Hd as [?|(a & d & [= <- <-] & ?)]; done.
  - intros a Ha. specialize (Hr a Ha). congruence.
Qed.

(** What a call to a service does. *)
Lemma call_out {A} (f : world -> A * world) w :
  exists r w', call f w = (Ret r, w')
    /\ ((is_ok r = false /\ w' = tick w) \/ w' = (f (tick w)).2)
    /\ (forall a, r = Ok a -> (a, w') = f (tick w)).
Proof.
  unfold call. destruct (verdict_at (ticks w)); [|eexists _, _; split; [done|]; split; [auto|done]..].
  destruct (f (tick w)) as [x w1] eqn:Ef. eexists _, _. split; [done|].
  split; [by right|]. by intros a [= <-].
Qed.

(** The cases of a transaction that is not nested. *)
Lemma ReadCommitted_cases {A} (fn : M (res A)) w :
  tx w = None ->
  exists r w',
    ReadCommitted fn w = (Ret r, w') /\ tx w' = None /\
    ((is_ok r = false /\ w' = tick w)
     \/ exists o w1,
          fn (set_tx (Some false) (tick w)) = (o, w1)
          /\ published w' = published w1 /\ objects w' = objects w1
          /\ ((is_ok r = false /\ db w' = db w)
              \/ (exists a, o = Ret (Ok a) /\ (is_ok r = true -> r = Ok a)
                            /\ tx w1 <> Some true /\ db w' = db w1))).
Proof.
  intros Ht. unfold ReadCommitted. rewrite Ht.
  destruct (verdict_at (ticks w)) as [|e|e];
    [|eexists _, _; split; [done|]; split; [done|]; by left..].
  destruct (fn (set_tx (Some false) (tick w))) as [o w1] eqn:Ef.
  destruct o as [[a|e]|m].
  - unfold Commit. destruct (tx w1) as [[]|] eqn:Et1;
      [|destruct (verdict_at (ticks w1))..];
      (eexists _, _; split; [done|]; split; [done|]; right; eexists _, _; split; [done|];
       split; [done|]; split; [done|]; first [left; done | right; exists a; split; [done|]; split; [done|]; split; [by rewrite Et1|done]]).
  - unfold Rollback. destruct (verdict_at (ticks w1));
      (eexists _, _; split; [done|]; split; [done|]; right; eexists _, _; split; [done|];
       split; [done|]; split; [done|]; by left).
  - unfold Rollback. destruct (verdict_at (ticks w1));
      (eexists _, _; split; [done|]; split; [done|]; right; eexists _, _; split; [done|];
       split; [done|]; split; [done|]; by left).
Qed.

(** A result [Ok] means that the body returned [Ok] and its writes are in the database. *)
Lemma ReadCommitted_ok {A} (fn : M (res A)) w a w' :
  tx w = None -> ReadCommitted fn w = (Ret (Ok a), w') ->
  exists w1, fn (set_tx (Some false) (tick w)) = (Ret (Ok a), w1)
             /\ tx w' = None /\ db w' = db w1 /\ published w' = published w1
             /\ objects w' = objects w1.
Proof.
  intros Ht E. destruct (ReadCommitted_cases fn w Ht) as (r & w2 & E2 & Htx & Hc).
  rewrite E in E2. injection E2 as <- <-.
  destruct Hc as [[? _]|(o & w1 & Ef & Hp & Ho & [[? _]|(x & -> & Hr & _ & Hd)])]; try done.
  injection (Hr eq_refl) as <-. eauto 10.
Qed.

(** The last call was a commit that took effect while the caller saw the error [e]. *)
Definition commit_lost (b : world) (e : gerror) : Prop :=
  exists n er, ticks b = S n /\ verdict_at n = FailsAfter er /\ e = Errorf "tx commit failed" er.

(** An error means that nothing is written, or that the answer to the commit of the body was lost. *)
Lemma ReadCommitted_err {A} (fn : M (res A)) w e w' :
  tx w = None -> ReadCommitted fn w = (Ret (Err e), w') ->
  db w' = db w
  \/ (commit_lost w' e /\ exists a w1, fn (set_tx (Some false) (tick w)) = (Ret (Ok a), w1)
        /\ db w' = db w1 /\ published w' = published w1 /\ objects w' = objects w1).
Proof.
  intros Ht. unfold ReadCommitted. rewrite Ht.
  destruct (verdict_at (ticks w)) as [|e0|e0]; [|intros [= <- <-]; by left..].
  destruct (fn (set_tx (Some false) (tick w))) as [[[a|e0]|m] w1].
  - unfold Commit. destruct (tx w1) as [[]|]; [intros [= <- <-]; by left|..];
      (destruct (verdict_at (ticks w1)) as [|er|er] eqn:Ev; [done|intros [= <- <-]; by left|];
       intros [= <- <-]; right; (split; [by exists (ticks w1), er|]; by exists a, w1)).
  - unfold Rollback. destruct (verdict_at (ticks w1)); intros [= <- <-]; by left.
  - unfold Rollback. destruct (verdict_at (ticks w1)); intros [= <- <-]; by left.
Qed.

(** Every world a computation reaches is related to the one it starts from. *)
Definition keeps {A} (R : world -> world -> Prop) (m : M A) : Prop := forall w, R w (m w).2.

Lemma keeps_bind {A B} R `{!Transitive R} (m : M A) (f : A -> M B) :
  keeps R m -> (forall a, keeps R (f a)) -> keeps R (m ≫= f).
Proof.
  intros Hm Hf w. unfold mbind, M_bind. specialize (Hm w).
  destruct (m w) as [[a|s] w1]; simpl in *; [|done]. etrans; [exact Hm|apply Hf].
Qed.

Lemma keeps_try {A B} R `{!Transitive R} (m : M (res A)) (h : gerror -> M (res B)) k :
  keeps R m -> (forall e, keeps R (h e)) -> (forall a, keeps R (k a)) ->
  keeps R (try_bind m h k).
Proof. intros Hm Hh Hk. apply keeps_bind; [done..|]. intros [a|e]; [apply Hk|apply Hh]. Qed.

Lemma keeps_ret {A} R `{!Reflexive R} (a : A) : keeps R (mret a).
Proof. intros w. simpl. done. Qed.

Lemma keeps_for_each {A} R `{!Reflexive R} `{!Transitive R} (f : A -> M (res unit)) l :
  (forall x, keeps R (f x)) -> keeps R (for_each f l).
Proof.
  intros Hf. induction l as [|x l IH]; simpl; [by apply keeps_ret|].
  apply keeps_try; [done|apply Hf| |done]. intros e. by apply keeps_ret.
Qed.

Lemma keeps_for_all {A} R `{!Reflexive R} `{!Transitive R} (f : A -> M unit) l :
  (forall x, keeps R (f x)) -> keeps R (for_all f l).
Proof.
  intros Hf. induction l as [|x l IH]; simpl; [by apply keeps_ret|].
  apply keeps_bind; [done|apply Hf|done].
Qed.

(** A property of the database that every outcome of a statement has. *)
Lemma keeps_db_stmt {A} (P : database -> database -> Prop) `{!Reflexive P}
    (f : nat -> database -> res (A * database)) :
  (forall n d x d', f n d = Ok (x, d') -> P d d') -> keeps (fun a b => P (db a) (db b)) (stmt f).
Proof.
  intros Hf w. destruct (stmt_any f w) as (r & w' & E & _ & _ & [Hd|(x & d & Ed & Hd)] & _);
    rewrite E; simpl; rewrite Hd; [done|by eapply Hf].
Qed.

(** Every value a computation returns satisfies [Q]. *)
Definition yields {A} (Q : A -> Prop) (m : M A) : Prop :=
  forall w x w', m w = (Ret x, w') -> Q x.

Lemma yields_ret {A} (Q : A -> Prop) x : Q x -> yields Q (mret x).
Proof. intros Hx w y w' [= <- <-]. done. Qed.

Lemma yields_bind {A B} (P : A -> Prop) (Q : B -> Prop) (m : M A) (f : A -> M B) :
  yields P m -> (forall x, P x -> yields Q (f x)) -> yields Q (m ≫= f).
Proof.
  intros Hm Hf w y w'. unfold mbind, M_bind. destruct (m w) as [[x|s] w1] eqn:E; [|done].
  apply Hf. by eapply Hm.
Qed.

Lemma yields_any {A} (m : M A) : yields (fun _ => True) m.
Proof. done. Qed.

Lemma yields_try {A B} (P : A -> Prop) (Q : res B -> Prop) (m : M (res A)) h k :
  yields (fun r => forall a, r = Ok a -> P a) m -> (forall e, yields Q (h e)) ->
  (forall a, P a -> yields Q (k a)) -> yields Q (try_bind m h k).
Proof.
  intros Hm Hh Hk. eapply yields_bind; [exact Hm|]. intros [a|e] Hr; [by apply Hk, Hr|apply Hh].
Qed.

(** Calls that leave the object store and the broker alone. *)
Definition quiet (a b : world) : Prop := objects b = objects a /\ published b = published a.

#[export] Instance quiet_preorder : PreOrder quiet.
Proof. split; [by intros a|]. intros a b c [? ?] [? ?]. split; congruence. Qed.

Lemma quiet_stmt {A} (f : nat -> database -> res (A * database)) : keeps quiet (stmt f).
Proof.
  intros w. unfold stmt, quiet. simpl.
  destruct (tx w) as [[]|]; [|destruct (verdict_at (ticks w))..]; simpl;
    try (destruct (f (ticks w) (db w)) as [[??]|]); done.
Qed.

Lemma quiet_observe {A} (f : nat -> A) : keeps quiet (observe f).
Proof. by intros w. Qed.

End Runs.

#[export] Hint Resolve keeps_ret : crawler.

(** Descends through a computation to its primitive actions, which [t] handles. *)
Tactic Notation "keeps_steps" tactic3(t) :=
  repeat first
    [ t
    | apply keeps_ret; exact _
    | apply keeps_try; [exact _| |intros ?|intros ?]
    | apply keeps_bind; [exact _| |intros ?]
    | case_match ].

(** ** An environment without faults, for concrete runs *)

Definition plain_env : @Env any_uuid.
Proof.
  refine (@Build_Env any_uuid (fun _ => Succeeds) (fun n => 1000 * Z.of_nat n)
            (fun n => "u" +:+ pretty n) (fun _ _ => 0) (fun _ _ => false) (fun _ => ∅) _ _).
  - intros n. split; done.
  - intros _ k Hk. lia.
Defined.

Definition world_of (d : database) : world :=
  {| db := d; tx := None; objects := ∅; published := []; ticks := 0 |}.

(** ** Transactions *)

Section Atomicity.
Context `{Env}.

(** C13: transactions are atomic.  [ReadCommitted] outside a transaction always returns, with no
    transaction left open.  When it returns [Ok] the body ran to [Ok] in a transaction that was not
    aborted, and the database is the one the body left.  When it returns an error the database is
    the one before the call, whatever the body wrote and even if it panicked; the only exception
    is a commit whose acknowledgement was lost, where the writes of the whole body stay.  What the
    body published or stored is never undone.  Inside a transaction the call is the body itself:
    nothing is undone when it fails. *)
Theorem ReadCommitted_atomic {A} (fn : M (res A)) w :
  (tx w = None ->
   exists r w',
     ReadCommitted fn w = (Ret r, w') /\ tx w' = None
     /\ match r with
        | Ok a => exists w1, fn (set_tx (Some false) (tick w)) = (Ret (Ok a), w1)
                             /\ tx w1 <> Some true /\ db w' = db w1
        | Err e => db w' = db w
                   \/ exists a w1 lost, fn (set_tx (Some false) (tick w)) = (Ret (Ok a), w1)
                                        /\ verdict_at (ticks w1) = FailsAfter lost
                                        /\ e = Errorf "tx commit failed" lost /\ db w' = db w1
        end
     /\ (w' = tick w
         \/ exists o w1, fn (set_tx (Some false) (tick w)) = (o, w1)
                         /\ published w' = published w1 /\ objects w' = objects w1))
  /\ (forall aborted, tx w = Some aborted -> ReadCommitted fn w = fn w).
Proof.
  split; [|intros b Hb; unfold ReadCommitted; by rewrite Hb].
  intros Ht. unfold ReadCommitted. rewrite Ht.
  destruct (verdict_at (ticks w)) as [|e|e];
    [|eexists _, _; split; [done|]; split; [exact Ht|]; split; by left..].
  destruct (fn (set_tx (Some false) (tick w))) as [[[a|e]|m] w1] eqn:Ef; unfold Commit, Rollback.
  - destruct (tx w1) as [[]|] eqn:Et1; [|destruct (verdict_at (ticks w1)) eqn:Ev..];
      (eexists _, _; split; [done|]; split; [done|]; split; [|by right; eexists _, _]);
      first [ by left
            | exists w1; split; [done|]; split; [by rewrite Et1|done]
            | right; eexists _, _, _; eauto ].
  - destruct (verdict_at (ticks w1));
      (eexists _, _; split; [done|]; split; [done|]; split; [by left|by right; eexists _, _]).
  - destruct (verdict_at (ticks w1));
      (eexists _, _; split; [done|]; split; [done|]; split; [by left|by right; eexists _, _]).
Qed.

End Atomicity.

#[local] Existing Instances any_uuid plain_env.

Lemma ReadCommitted_atomic_witness :
  let empty := world_of {| configs := []; jobs := []; tasks := []; outbox := []; users := [];
                           tokens := []; previews := [] |} in
  tx empty = None
  /\ exists r w', ReadCommitted (stmt (fun _ d => Ok (tt, d))) empty = (Ret r, w') /\ tx w' = None.
Proof.
  intros empty. split; [reflexivity|].
  destruct (ReadCommitted_atomic (stmt (fun _ d => Ok (tt, d))) empty) as [A _].
  destruct (A eq_refl) as (r & w' & B & C & _). exists r, w'. split; [exact B|exact C].
Defined.
