(* ===== verification/Sql.v ===== *)
(** * The SQL the repositories send

    The repositories build statements with squirrel; their meaning on the lists of rows of
    [World.database] is that of SQL: WHERE filters ([NULL] makes a comparison not true), ORDER BY
    sorts (rows equal for the ORDER BY keep the order of the table), LIMIT and OFFSET cut,
    constraints of [persistence/postgres/migrations] make a write fail.  Text compares byte by byte
    (the "C" collation).  Lengths of VARCHAR columns are not modelled. *)

From S2P Require Import Prelude GoStrings Domain Json Converters World.

(** [Limit(uint64(n))]; the limits that reach it are positive, except those of a listing, which
    [Pagination] checks as PostgreSQL does. *)
Definition limit_rows {A} (n : Z) (l : list A) : list A :=
  if n <? 0 then l else take (Z.to_nat n) l.
Definition offset_rows {A} (n : Z) (l : list A) : list A :=
  if n <? 0 then [] else drop (Z.to_nat n) l.

(** Orders on the columns. *)
Definition text_le (a b : string) : bool := String.leb a b.
Definition text_lt (a b : string) : bool := negb (String.leb b a).

(** ASC puts NULL last. *)
Definition null_last (a b : option Z) : bool :=
  match a, b with
  | Some x, Some y => x <=? y
  | _, None => true
  | None, Some _ => false
  end.

Definition order_by {A} (le : A -> A -> bool) (l : list A) : list A :=
  merge_sort (bool_rel le) l.

Lemma order_by_perm {A} (le : A -> A -> bool) l : order_by le l ≡ₚ l.
Proof. apply merge_sort_Permutation. Qed.

(** ** ILIKE *)

(** A UTF-8 continuation byte. *)
Fixpoint drop_cont (l : list ascii) : list ascii :=
  match l with
  | c :: l' => if cont c then drop_cont l' else l
  | [] => []
  end.

(** [p] is the pattern: "%" any text, "_" one character, "\" quotes the next character. *)
Fixpoint like_match (fuel : nat) (p s : list ascii) : bool :=
  match fuel with
  | O => false
  | S fuel =>
      match p with
      | [] => match s with [] => true | _ => false end
      | c :: p' =>
          if Ascii.eqb c "%"%char then
            like_match fuel p' s
            || match s with [] => false | _ :: s' => like_match fuel p s' end
          else if Ascii.eqb c "_"%char then
            match s with [] => false | _ :: s' => like_match fuel p' (drop_cont s') end
          else
            let '(c, p') := if Ascii.eqb c backslash
                            then match p' with [] => (c, p') | c' :: p'' => (c', p'') end
                            else (c, p') in
            match s with [] => false | d :: s' => Ascii.eqb c d && like_match fuel p' s' end
      end
  end.

(** [column ILIKE pattern]; the fuel covers every pair of suffixes. *)
Definition ilike (pattern s : string) : bool :=
  let p := bytes_of (ToLower pattern) in let s := bytes_of (ToLower s) in
  like_match (S (length p + length s)) p s.

(** [sq.ILike{column: "%" + sub + "%"}]. *)
Definition ilike_contains (sub s : string) : bool := ilike ("%" +:+ sub +:+ "%") s.

(** ** Constraint violations *)

Definition unique_violation (c : string) : gerror :=
  ENew ("ERROR: duplicate key value violates unique constraint " +:+ c +:+ " (SQLSTATE 23505)").
Definition fk_violation (c : string) : gerror :=
  ENew ("ERROR: insert or update violates foreign key constraint " +:+ c +:+ " (SQLSTATE 23503)").
Definition null_violation (c : string) : gerror :=
  ENew ("ERROR: null value in column " +:+ c +:+ " violates not-null constraint (SQLSTATE 23502)").
Definition check_violation (c : string) : gerror :=
  ENew ("ERROR: new row violates check constraint " +:+ c +:+ " (SQLSTATE 23514)").

Definition guard_ (b : bool) (e : gerror) : res unit := if b then Ok tt else Err e.

(** ** Table updates *)

Definition upd_tasks (f : list CrawlTaskSnapshot -> list CrawlTaskSnapshot) (d : database) :=
  {| configs := configs d; jobs := jobs d; tasks := f (tasks d); outbox := outbox d;
     users := users d; tokens := tokens d; previews := previews d |}.
Definition upd_jobs (f : list CrawlJobSnapshot -> list CrawlJobSnapshot) (d : database) :=
  {| configs := configs d; jobs := f (jobs d); tasks := tasks d; outbox := outbox d;
     users := users d; tokens := tokens d; previews := previews d |}.
Definition upd_configs (f : list CrawlJobConfigSnapshot -> list CrawlJobConfigSnapshot)
    (d : database) :=
  {| configs := f (configs d); jobs := jobs d; tasks := tasks d; outbox := outbox d;
     users := users d; tokens := tokens d; previews := previews d |}.
Definition upd_outbox (f : list OutboxEventSnapshot -> list OutboxEventSnapshot) (d : database) :=
  {| configs := configs d; jobs := jobs d; tasks := tasks d; outbox := f (outbox d);
     users := users d; tokens := tokens d; previews := previews d |}.
Definition upd_users (f : list UserSnapshot -> list UserSnapshot) (d : database) :=
  {| configs := configs d; jobs := jobs d; tasks := tasks d; outbox := outbox d;
     users := f (users d); tokens := tokens d; previews := previews d |}.
Definition upd_tokens (f : list RefreshTokenSnapshot -> list RefreshTokenSnapshot)
    (d : database) :=
  {| configs := configs d; jobs := jobs d; tasks := tasks d; outbox := outbox d;
     users := users d; tokens := f (tokens d); previews := previews d |}.
Definition upd_previews (f : list PreviewSnapshot -> list PreviewSnapshot) (d : database) :=
  {| configs := configs d; jobs := jobs d; tasks := tasks d; outbox := outbox d;
     users := users d; tokens := tokens d; previews := f (previews d) |}.

(** [UPDATE ... SET f WHERE p]. *)
Definition update_where {A} (p : A -> bool) (f : A -> A) (l : list A) : list A :=
  (fun x => if p x then f x else x) <$> l.

Definition bfilter {A} (p : A -> bool) (l : list A) : list A := filter (fun x => p x = true) l.

Lemma elem_of_bfilter {A} (p : A -> bool) l x : x ∈ bfilter p l <-> p x = true /\ x ∈ l.
Proof. unfold bfilter. by rewrite list_elem_of_filter. Qed.

Lemma elem_of_limit_rows {A} n (l : list A) x : x ∈ limit_rows n l -> x ∈ l.
Proof. unfold limit_rows. destruct (n <? 0); [done|]. apply subseteq_take. Qed.

Lemma elem_of_order_by {A} (le : A -> A -> bool) l x : x ∈ order_by le l <-> x ∈ l.
Proof. by rewrite order_by_perm. Qed.

Lemma bfilter_ext {A} (p q : A -> bool) l :
  (forall x, x ∈ l -> p x = q x) -> bfilter p l = bfilter q l.
Proof.
  unfold bfilter. induction l as [|x l IH]; intros Hpq; [done|].
  rewrite !filter_cons, (Hpq x) by left. rewrite IH by (intros; apply Hpq; by right). done.
Qed.
