(* ===== verification/Repos.v ===== *)
(** * Repositories

    [persistence/postgres/repos]: one definition per method, under the name of its repository.  A
    method is one statement ([World.stmt]) on rows with the row conversions of [Converters] around
    it; building a statement with squirrel does not fail.  [ListWithCursor] of the task and of the
    job repository is in [Pagination] and [JobListing]; the text of the statements is in
    [Statements] and [SqlListings]. *)

From S2P Require Import Prelude GoStrings Domain Json Converters World Sql.

Section Repos.
Context `{Env, JsonLib}.

(** The first row of [QueryRow(...).Scan] or [ScanOne]. *)
Definition scan_one {A B} (f : nat -> database -> list A) (restore : A -> res B) : M (res B) :=
  try rows <- query f;
  match rows with
  | [] => ret_err ErrNoRows
  | row :: _ => lift_res (restore row)
  end.

(** [ScanAll] and the loop that restores the rows, or the loop on [rows.Next()]. *)
Definition scan_all {A B} (f : nat -> database -> list A) (restore : A -> res B)
  : M (res (list B)) :=
  try rows <- query f; lift_res (map_res restore rows).

(** ** crawl_task_repo.go *)

(** The constraints of [crawl_tasks]: primary key, foreign key to the job, one row per job and
    URL. *)
Definition task_pk_ok (t : CrawlTaskSnapshot) (d : database) : bool :=
  negb (existsb (fun r => bool_decide (ts_ID r = ts_ID t)) (tasks d)).
Definition task_fk_ok (t : CrawlTaskSnapshot) (d : database) : bool :=
  existsb (fun j => bool_decide (js_ID j = ts_JobID t)) (jobs d).
Definition same_job_url (t r : CrawlTaskSnapshot) : bool :=
  bool_decide (ts_JobID r = ts_JobID t) && bool_decide (ts_URL r = ts_URL t).
Definition task_url_ok (t : CrawlTaskSnapshot) (d : database) : bool :=
  negb (existsb (same_job_url t) (tasks d)).

Definition insert_task (t : CrawlTaskSnapshot) (d : database) : res (string * database) :=
  _ ← guard_ (task_pk_ok t d) (unique_violation "crawl_tasks_pkey");
  _ ← guard_ (task_url_ok t d) (unique_violation "uq_crawl_tasks_job_id_url");
  _ ← guard_ (task_fk_ok t d) (fk_violation "fk_crawl_tasks_job");
  Ok (ts_ID t, upd_tasks (fun l => l ++ [t]) d).

(** [INSERT ... ON CONFLICT (job_id, url) DO NOTHING RETURNING id], row after row. *)
Fixpoint insert_tasks (ts : list CrawlTaskSnapshot) (d : database) : res (list string * database) :=
  match ts with
  | [] => Ok ([], d)
  | t :: ts =>
      if task_url_ok t d then
        p ← insert_task t d;
        q ← insert_tasks ts p.2;
        Ok (p.1 :: q.1, q.2)
      else insert_tasks ts d
  end.

Definition Task_Create (entity : CrawlTask) : M (res CrawlTaskID) :=
  let dbEntity := SaveCrawlTaskToSnapshot entity in
  try id <- stmt (fun _ d => insert_task dbEntity d);
  lift_res (NewID id).

Definition Task_BulkCreate (entities : list CrawlTask) : M (res (list CrawlTaskID)) :=
  match entities with
  | [] => ret_ok []
  | _ =>
      let rows := SaveCrawlTaskToSnapshot <$> entities in
      try ids <- stmt (fun _ d => insert_tasks rows d);
      lift_res (map_res NewID ids)
  end.

(** [scanCrawlTaskWithJob]: the five job columns of the join; the others are left NULL. *)
Definition scanCrawlTaskWithJob (t : CrawlTaskSnapshot) (j : CrawlJobSnapshot)
  : CrawlTaskWithJobSnapshot :=
  {| tj_Task := t;
     tj_Job := Some
       {| js_ID := js_ID j; js_JobConfigID := js_JobConfigID j; js_UserID := None;
          js_Name := None; js_Status := js_Status j; js_CreatedAt := js_CreatedAt j;
          js_CompletedAt := js_CompletedAt j; js_JobConfig := None;
          js_ExportJSONKey := None; js_ExportCSVKey := None; js_ExportedAt := None;
          js_ExportStatus := None |} |}.

(** [FROM crawl_tasks t INNER JOIN crawl_jobs j ON t.job_id = j.id WHERE t.id = $1 LIMIT 1]. *)
Definition tasks_with_job (id : string) (d : database) : list CrawlTaskWithJobSnapshot :=
  limit_rows 1
    (t ← bfilter (fun t => bool_decide (ts_ID t = id)) (tasks d);
     scanCrawlTaskWithJob t <$> bfilter (fun j => bool_decide (js_ID j = ts_JobID t)) (jobs d)).

Definition Task_Get (id : CrawlTaskID) : M (res CrawlTask) :=
  scan_one (fun _ d => tasks_with_job (value id) d) RestoreCrawlTaskWithJobFromSnapshot.

(** [Update] sets every column but the identifiers and [enqueued_at]. *)
Definition set_task (e r : CrawlTaskSnapshot) : CrawlTaskSnapshot :=
  {| ts_ID := ts_ID r; ts_JobID := ts_JobID r; ts_URL := ts_URL e; ts_FinalURL := ts_FinalURL e;
     ts_Status := ts_Status e; ts_EnqueuedAt := ts_EnqueuedAt r; ts_Depth := ts_Depth e;
     ts_MinioObjectKey := ts_MinioObjectKey e; ts_ResultObjectKey := ts_ResultObjectKey e;
     ts_ResultContentType := ts_ResultContentType e;
     ts_ResultSizeBytes := ts_ResultSizeBytes e; ts_ResultCreatedAt := ts_ResultCreatedAt e;
     ts_ErrorMessage := ts_ErrorMessage e |}.

Definition is_task (id : string) (r : CrawlTaskSnapshot) : bool := bool_decide (ts_ID r = id).

(** No row of the job other than the task's own may have the new URL. *)
Definition task_update_ok (e : CrawlTaskSnapshot) (d : database) : bool :=
  forallb (fun r => negb (is_task (ts_ID e) r)
             || negb (existsb (fun r' => negb (is_task (ts_ID e) r')
                                         && bool_decide (ts_JobID r' = ts_JobID r)
                                         && bool_decide (ts_URL r' = ts_URL e)) (tasks d)))
          (tasks d).

Definition Task_Update (entity : CrawlTask) : M (res unit) :=
  let e := SaveCrawlTaskToSnapshot entity in
  stmt (fun _ d =>
    _ ← guard_ (task_update_ok e d) (unique_violation "uq_crawl_tasks_job_id_url");
    Ok (tt, upd_tasks (update_where (is_task (ts_ID e)) (set_task e)) d)).

Definition by_enqueued (a b : CrawlTaskSnapshot) : bool := ts_EnqueuedAt a <=? ts_EnqueuedAt b.

Definition Task_ListByJob (jobID : CrawlJobID) : M (res (list CrawlTask)) :=
  scan_all (fun _ d =>
      order_by by_enqueued (bfilter (fun t => bool_decide (ts_JobID t = value jobID)) (tasks d)))
    RestoreCrawlTaskFromSnapshot.

Definition Task_ListByStatus (status : TaskStatus) (limit : Z) : M (res (list CrawlTask)) :=
  scan_all (fun _ d =>
      limit_rows limit
        (order_by by_enqueued (bfilter (fun t => bool_decide (ts_Status t = status)) (tasks d))))
    RestoreCrawlTaskFromSnapshot.

(** [result_created_at] is bound to the text "NOW()", which PostgreSQL reads as the time of the
    statement. *)
Definition Task_SetTaskResult (taskID : CrawlTaskID) (objectKey contentType : string)
    (sizeBytes : Z) : M (res unit) :=
  stmt (fun n d =>
    Ok (tt, upd_tasks (update_where (is_task (value taskID)) (fun r =>
      {| ts_ID := ts_ID r; ts_JobID := ts_JobID r; ts_URL := ts_URL r;
         ts_FinalURL := ts_FinalURL r; ts_Status := ts_Status r;
         ts_EnqueuedAt := ts_EnqueuedAt r; ts_Depth := ts_Depth r;
         ts_MinioObjectKey := ts_MinioObjectKey r; ts_ResultObjectKey := Some objectKey;
         ts_ResultContentType := Some contentType; ts_ResultSizeBytes := Some sizeBytes;
         ts_ResultCreatedAt := Some (clock_at n); ts_ErrorMessage := ts_ErrorMessage r |})) d)).

Definition Task_ExistsByJobIDAndURL (jobID : CrawlJobID) (url : string) : M (res bool) :=
  try o <- query (fun _ d =>
      limit_rows 1 (bfilter (fun t => bool_decide (ts_JobID t = value jobID)
                                      && bool_decide (ts_URL t = url)
                                      && negb (bool_decide (ts_Status t = TaskStatusInProgress)))
                            (tasks d)))
    else e => (if bool_decide (Error e = "no rows in result set") then ret_ok false
               else ret_err e);
  ret_ok (match o with [] => false | _ => true end).

Definition is_stale (olderThan : Z) (t : CrawlTaskSnapshot) : bool :=
  bool_decide (ts_Status t = TaskStatusInProgress) && (ts_EnqueuedAt t <? olderThan).

Definition stale_rows (olderThan limit : Z) (d : database) : list CrawlTaskSnapshot :=
  limit_rows limit (order_by by_enqueued (bfilter (is_stale olderThan) (tasks d))).

Definition Task_ListStaleInProgress (olderThan limit : Z) : M (res (list CrawlTask)) :=
  scan_all (fun _ d => stale_rows olderThan limit d) RestoreCrawlTaskFromSnapshot.

(** [GROUP BY column]: the distinct values with the number of rows, and the map the loop over the
    rows builds ([totalCount] is the running sum, an int64). *)
Definition group_count {A K} `{Countable K} (f : A -> K) (l : list A) : gmap K Z :=
  foldr (fun x m => <[f x := default 0 (m !! f x) + 1]> m) ∅ l.

Record TaskAnalytics := {
  StatusCounts : gmap string Z; DepthCounts : gmap Z Z; TotalCount : Z }.

Definition Task_GetAnalyticsByJob (jobID : CrawlJobID) : M (res TaskAnalytics) :=
  let of_job d := bfilter (fun t => bool_decide (ts_JobID t = value jobID)) (tasks d) in
  try statusCounts <- query (fun _ d => group_count ts_Status (of_job d));
  try depthCounts <- query (fun _ d => group_count ts_Depth (of_job d));
  ret_ok {| StatusCounts := statusCounts; DepthCounts := depthCounts;
            TotalCount := foldr Z.add 0 (map_to_list statusCounts).*2 |}.

(** ** outbox_repo.go *)

Definition insert_event (e : OutboxEventSnapshot) (d : database) : res database :=
  _ ← guard_ (negb (existsb (fun r => bool_decide (os_ID r = os_ID e)) (outbox d)))
             (unique_violation "crawl_task_outbox_pkey");
  Ok (upd_outbox (fun l => l ++ [e]) d).

Fixpoint insert_events (es : list OutboxEventSnapshot) (d : database) : res database :=
  match es with
  | [] => Ok d
  | e :: es => d' ← insert_event e d; insert_events es d'
  end.

Definition Outbox_Create (event : OutboxEvent string) : M (res unit) :=
  stmt (fun _ d => d' ← insert_event (SaveOutboxEventToSnapshot event) d; Ok (tt, d')).

Definition Outbox_BulkCreate (events : list (OutboxEvent string)) : M (res unit) :=
  match events with
  | [] => ret_ok tt
  | _ => stmt (fun _ d => d' ← insert_events (SaveOutboxEventToSnapshot <$> events) d; Ok (tt, d'))
  end.

Definition unprocessed (e : OutboxEventSnapshot) : bool :=
  match os_ProcessedAt e with None => true | Some _ => false end.

(** [WHERE processed_at IS NULL ORDER BY occurred_at ASC LIMIT n FOR UPDATE SKIP LOCKED]. *)
Definition unprocessed_rows (n : nat) (limit : Z) (d : database) : list OutboxEventSnapshot :=
  limit_rows limit
    (order_by (fun a b => os_OccurredAt a <=? os_OccurredAt b)
       (bfilter (fun e => unprocessed e && negb (locked_at n (os_ID e))) (outbox d))).

Definition Outbox_FetchUnprocessedEvents (limit : Z) : M (res (list (OutboxEvent string))) :=
  scan_all (fun n d => unprocessed_rows n limit d) RestoreOutboxEventFromSnapshot.

Definition set_processed (now : Z) (r : OutboxEventSnapshot) : OutboxEventSnapshot :=
  {| os_ID := os_ID r; os_EventType := os_EventType r; os_AggregateID := os_AggregateID r;
     os_Payload := os_Payload r; os_OccurredAt := os_OccurredAt r;
     os_ProcessedAt := Some now; os_CreatedAt := os_CreatedAt r |}.

Definition Outbox_MarkAsProcessed (id : ID) : M (res unit) :=
  stmt (fun n d =>
    Ok (tt, upd_outbox (update_where (fun r => bool_decide (os_ID r = value id))
                                     (set_processed (clock_at n))) d)).

(** ** crawl_job_config_repo.go *)

Definition config_user_ok (c : CrawlJobConfigSnapshot) (d : database) : bool :=
  match cs_UserID c with
  | None => true
  | Some u => existsb (fun r => bool_decide (us_ID r = u)) (users d)
  end.

Definition insert_config (c : CrawlJobConfigSnapshot) (d : database) : res (string * database) :=
  _ ← guard_ (negb (existsb (fun r => bool_decide (cs_ID r = cs_ID c)) (configs d)))
             (unique_violation "crawl_job_configs_pkey");
  _ ← guard_ (negb (existsb (fun r => bool_decide (cs_Name r = cs_Name c)) (configs d)))
             (unique_violation "uq_crawl_job_configs_name");
  _ ← guard_ (config_user_ok c d) (fk_violation "fk_crawl_job_configs_user_id");
  Ok (cs_ID c, upd_configs (fun l => l ++ [c]) d).

Definition Config_Create (entity : CrawlJobConfig) : M (res ID) :=
  try dbEntity <- lift_res (SaveCrawlJobConfigToSnapshot entity);
  try id <- stmt (fun _ d => insert_config dbEntity d);
  lift_res (NewID id).

Definition Config_Get (id : ID) : M (res CrawlJobConfig) :=
  scan_one (fun _ d => limit_rows 1 (bfilter (fun c => bool_decide (cs_ID c = value id)) (configs d)))
    RestoreCrawlJobConfigFromSnapshot.

Definition set_config (e r : CrawlJobConfigSnapshot) : CrawlJobConfigSnapshot :=
  {| cs_ID := cs_ID r; cs_UserID := cs_UserID e; cs_Name := cs_Name e;
     cs_ExtractionSpec := cs_ExtractionSpec e; cs_Scopes := cs_Scopes e; cs_Seeds := cs_Seeds e;
     cs_RateLimit := cs_RateLimit e; cs_Retries := cs_Retries e; cs_Auth := cs_Auth e;
     cs_Schedule := cs_Schedule e; cs_JobType := cs_JobType e;
     cs_RespectRobotsTxt := cs_RespectRobotsTxt e; cs_CrawlMode := cs_CrawlMode e;
     cs_QueueWeights := cs_QueueWeights e |}.

Definition Config_Update (entity : CrawlJobConfig) : M (res unit) :=
  try e <- lift_res (SaveCrawlJobConfigToSnapshot entity);
  stmt (fun _ d =>
    _ ← guard_ (negb (existsb (fun r => bool_decide (cs_ID r = cs_ID e)) (configs d))
                || negb (existsb (fun r => bool_decide (cs_Name r = cs_Name e)
                                           && negb (bool_decide (cs_ID r = cs_ID e))) (configs d)))
               (unique_violation "uq_crawl_job_configs_name");
    _ ← guard_ (negb (existsb (fun r => bool_decide (cs_ID r = cs_ID e)) (configs d))
                || config_user_ok e d)
               (fk_violation "fk_crawl_job_configs_user_id");
    Ok (tt, upd_configs (update_where (fun r => bool_decide (cs_ID r = cs_ID e)) (set_config e)) d)).

(** Deleting jobs deletes their tasks, deleting a configuration deletes its jobs
    ([ON DELETE CASCADE]). *)
Definition delete_jobs (p : CrawlJobSnapshot -> bool) (d : database) : database :=
  let gone := bfilter p (jobs d) in
  upd_tasks (bfilter (fun t => negb (existsb (fun j => bool_decide (js_ID j = ts_JobID t)) gone)))
    (upd_jobs (bfilter (fun j => negb (p j))) d).

Definition Config_Delete (id : ID) : M (res unit) :=
  exec (fun d =>
    upd_configs (bfilter (fun c => negb (bool_decide (cs_ID c = value id))))
      (delete_jobs (fun j => bool_decide (js_JobConfigID j = Some (value id))
                             && existsb (fun c => bool_decide (cs_ID c = value id)) (configs d)) d)).

Definition Config_ListAllScheduled (limit offset : Z) : M (res (list CrawlJobConfig)) :=
  scan_all (fun _ d =>
      limit_rows limit (offset_rows offset
        (order_by (fun a b => text_le (cs_Name a) (cs_Name b))
           (bfilter (fun c => bool_decide (cs_JobType c = JobTypeScheduled)) (configs d)))))
    RestoreCrawlJobConfigFromSnapshot.

(** ** crawl_job_repo.go *)

(** [crawl_jobs j LEFT JOIN crawl_job_configs c ON j.job_config_id = c.id], scanned by
    [scanCrawlJobWithConfig]: a job without configuration has NULL in the columns that are
    scanned into Go strings, which is an error. *)
Definition job_config_row (d : database) (j : CrawlJobSnapshot) : option CrawlJobConfigSnapshot :=
  match js_JobConfigID j with
  | None => None
  | Some c => head (bfilter (fun r => bool_decide (cs_ID r = c)) (configs d))
  end.

Definition with_config (c : option CrawlJobConfigSnapshot) (j : CrawlJobSnapshot)
  : CrawlJobSnapshot :=
  {| js_ID := js_ID j; js_JobConfigID := js_JobConfigID j; js_UserID := js_UserID j;
     js_Name := js_Name j; js_Status := js_Status j; js_CreatedAt := js_CreatedAt j;
     js_CompletedAt := js_CompletedAt j; js_JobConfig := c;
     js_ExportJSONKey := js_ExportJSONKey j; js_ExportCSVKey := js_ExportCSVKey j;
     js_ExportedAt := js_ExportedAt j; js_ExportStatus := js_ExportStatus j |}.

Definition scanCrawlJobWithConfig (p : CrawlJobSnapshot * option CrawlJobConfigSnapshot)
  : res CrawlJobSnapshot :=
  match p.2 with
  | None => Err (ENew "cannot scan NULL into *string")
  | Some c => Ok (with_config (if bool_decide (cs_ID c = "") then None else Some c) p.1)
  end.

(** [scanJobsWithQueueEndpoints]: all rows are scanned, then restored. *)
Definition scanJobsWithQueueEndpoints
    (rows : list (CrawlJobSnapshot * option CrawlJobConfigSnapshot)) : res (list CrawlJob) :=
  snaps ← map_res scanCrawlJobWithConfig rows; map_res RestoreCrawlJobFromSnapshot snaps.

Definition join_config (d : database) (j : CrawlJobSnapshot)
  : CrawlJobSnapshot * option CrawlJobConfigSnapshot := (j, job_config_row d j).

Definition query_jobs (f : nat -> database -> list CrawlJobSnapshot) : M (res (list CrawlJob)) :=
  try rows <- query (fun n d => join_config d <$> f n d);
  lift_res (scanJobsWithQueueEndpoints rows).

Definition query_job (f : nat -> database -> list CrawlJobSnapshot) : M (res CrawlJob) :=
  scan_one (fun n d => join_config d <$> f n d)
    (fun row => s ← scanCrawlJobWithConfig row; RestoreCrawlJobFromSnapshot s).

(** The foreign keys of a job's row. *)
Definition job_refs_ok (j : CrawlJobSnapshot) (d : database) : res unit :=
  match js_JobConfigID j with
  | None => Err (null_violation "job_config_id")
  | Some c =>
      _ ← guard_ (existsb (fun r => bool_decide (cs_ID r = c)) (configs d))
                 (fk_violation "fk_crawl_jobs_job_config");
      match js_UserID j with
      | None => Ok tt
      | Some u => guard_ (existsb (fun r => bool_decide (us_ID r = u)) (users d))
                         (fk_violation "fk_crawl_jobs_user_id")
      end
  end.

Definition insert_job (j : CrawlJobSnapshot) (d : database) : res (string * database) :=
  _ ← guard_ (negb (existsb (fun r => bool_decide (js_ID r = js_ID j)) (jobs d)))
             (unique_violation "crawl_jobs_pkey");
  _ ← job_refs_ok j d;
  Ok (js_ID j, upd_jobs (fun l => l ++ [with_config None j]) d).

Definition Job_Create (entity : CrawlJob) : M (res CrawlJobID) :=
  let dbEntity := SaveCrawlJobToSnapshot entity in
  try id <- stmt (fun _ d => insert_job dbEntity d);
  lift_res (NewCrawlJobID id).

Definition is_job (id : string) (j : CrawlJobSnapshot) : bool := bool_decide (js_ID j = id).

Definition Job_Delete (id : CrawlJobID) : M (res unit) :=
  exec (delete_jobs (is_job (value id))).

Definition Job_Get (id : CrawlJobID) : M (res CrawlJob) :=
  query_job (fun _ d => limit_rows 1 (bfilter (is_job (value id)) (jobs d))).

(** [Update] sets every column but the identifier and [created_at]. *)
Definition set_job (e r : CrawlJobSnapshot) : CrawlJobSnapshot :=
  {| js_ID := js_ID r; js_JobConfigID := js_JobConfigID e; js_UserID := js_UserID e;
     js_Name := js_Name e; js_Status := js_Status e; js_CreatedAt := js_CreatedAt r;
     js_CompletedAt := js_CompletedAt e; js_JobConfig := None;
     js_ExportJSONKey := js_ExportJSONKey e; js_ExportCSVKey := js_ExportCSVKey e;
     js_ExportedAt := js_ExportedAt e; js_ExportStatus := js_ExportStatus e |}.

Definition Job_Update (entity : CrawlJob) : M (res unit) :=
  let e := SaveCrawlJobToSnapshot entity in
  stmt (fun _ d =>
    if existsb (is_job (js_ID e)) (jobs d) then
      _ ← job_refs_ok e d;
      Ok (tt, upd_jobs (update_where (is_job (js_ID e)) (set_job e)) d)
    else Ok (tt, d)).

Definition newest_first (a b : CrawlJobSnapshot) : bool := js_CreatedAt b <=? js_CreatedAt a.

Definition Job_List (status : TaskStatus) (limit offset : Z) : M (res (list CrawlJob)) :=
  query_jobs (fun _ d =>
    limit_rows limit (offset_rows offset
      (order_by newest_first (bfilter (fun j => bool_decide (js_Status j = status)) (jobs d))))).

Definition Job_ListAll (limit offset : Z) : M (res (list CrawlJob)) :=
  query_jobs (fun _ d => limit_rows limit (offset_rows offset (order_by newest_first (jobs d)))).

(** pgx reports a missing row as [pgx.ErrNoRows]; the test is for [sql.ErrNoRows]. *)
Definition Job_GetLatestByConfigID (configID : ID) : M (res (option CrawlJob)) :=
  try j <- query_job (fun _ d =>
      limit_rows 1 (order_by newest_first
        (bfilter (fun j => bool_decide (js_JobConfigID j = Some (value configID))) (jobs d))))
    else e => (if errors_Is e "sql.ErrNoRows" then ret_ok None else ret_err e);
  ret_ok (Some j).

(** The WHERE clause of [ListEligibleForExport]. *)
Definition terminal_status (s : string) : bool :=
  bool_decide (s = TaskStatusParsed) || bool_decide (s = TaskStatusCompleted)
  || bool_decide (s = TaskStatusFailed) || bool_decide (s = TaskStatusSkipped).
Definition parsed_status (s : string) : bool :=
  bool_decide (s = TaskStatusParsed) || bool_decide (s = TaskStatusCompleted).
Definition tasks_of (j : CrawlJobSnapshot) (d : database) : list CrawlTaskSnapshot :=
  bfilter (fun t => bool_decide (ts_JobID t = js_ID j)) (tasks d).
Definition has_result_key (t : CrawlTaskSnapshot) : bool :=
  match ts_ResultObjectKey t with None => false | Some k => negb (bool_decide (k = "")) end.

(** Conditions 1 and 2: every task is terminal, every parsed one has its result. *)
Definition tasks_finished (j : CrawlJobSnapshot) (d : database) : bool :=
  negb (existsb (fun t => negb (terminal_status (ts_Status t))) (tasks_of j d))
  && negb (existsb (fun t => parsed_status (ts_Status t) && negb (has_result_key t)) (tasks_of j d)).
(** Condition 4: no unprocessed task.enqueued event of the job's tasks. *)
Definition no_pending_events (j : CrawlJobSnapshot) (d : database) : bool :=
  negb (existsb (fun o => unprocessed o && bool_decide (os_EventType o = EventTypeTaskEnqueued)
                          && existsb (fun t => bool_decide (ts_ID t = os_AggregateID o))
                                     (tasks_of j d)) (outbox d)).
(** Condition 5: never exported, or a result is newer than the export. *)
Definition export_outdated (j : CrawlJobSnapshot) (d : database) : bool :=
  match js_ExportedAt j with
  | None => true
  | Some x => existsb (fun t => parsed_status (ts_Status t)
                                && match ts_ResultCreatedAt t with
                                   | None => false
                                   | Some r => x <? r
                                   end) (tasks_of j d)
  end.
(** Condition 3; [NULL <> 'IN_PROGRESS'] is not true. *)
Definition export_not_running (j : CrawlJobSnapshot) : bool :=
  match js_ExportStatus j with
  | None => false
  | Some s => negb (bool_decide (s = ExportStatusInProgress))
  end.

Definition eligible (d : database) (j : CrawlJobSnapshot) : bool :=
  export_not_running j && tasks_finished j d && no_pending_events j d && export_outdated j d.

Definition eligible_rows (n : nat) (limit : Z) (d : database) : list CrawlJobSnapshot :=
  limit_rows limit
    (order_by (fun a b => null_last (js_CompletedAt a) (js_CompletedAt b))
       (bfilter (fun j => eligible d j && negb (locked_at n (js_ID j))) (jobs d))).

Definition Job_ListEligibleForExport (limit : Z) : M (res (list CrawlJob)) :=
  query_jobs (fun n d => eligible_rows n limit d).

Definition set_export_status (s : string) (r : CrawlJobSnapshot) : CrawlJobSnapshot :=
  {| js_ID := js_ID r; js_JobConfigID := js_JobConfigID r; js_UserID := js_UserID r;
     js_Name := js_Name r; js_Status := js_Status r; js_CreatedAt := js_CreatedAt r;
     js_CompletedAt := js_CompletedAt r; js_JobConfig := js_JobConfig r;
     js_ExportJSONKey := js_ExportJSONKey r; js_ExportCSVKey := js_ExportCSVKey r;
     js_ExportedAt := js_ExportedAt r; js_ExportStatus := Some s |}.

(** [UPDATE ... WHERE id = $1 AND export_status = 'NOT_STARTED']. *)
Definition may_start_export (id : string) (j : CrawlJobSnapshot) : bool :=
  is_job id j && bool_decide (js_ExportStatus j = Some ExportStatusNotStarted).

Definition Job_TryStartExport (jobID : CrawlJobID) : M (res bool) :=
  try rowsAffected <- stmt (fun _ d =>
    let p := may_start_export (value jobID) in
    Ok (length (bfilter p (jobs d)),
        upd_jobs (update_where p (set_export_status ExportStatusInProgress)) d));
  if negb (rowsAffected =? 1)%nat then ret_err (ENew "more than 1 row affected")
  else ret_ok (rowsAffected =? 1)%nat.

Definition Job_FailExport (jobID : CrawlJobID) : M (res unit) :=
  exec (upd_jobs (update_where (is_job (value jobID)) (set_export_status ExportStatusFailed))).

(** ** user_repo.go *)

Definition role_ok (r : string) : bool := Role_IsValid r.

Definition insert_user (u : UserSnapshot) (d : database) : res (string * database) :=
  _ ← guard_ (role_ok (us_Role u)) (check_violation "users_role_check");
  _ ← guard_ (negb (existsb (fun r => bool_decide (us_ID r = us_ID u)) (users d)))
             (unique_violation "users_pkey");
  _ ← guard_ (negb (existsb (fun r => bool_decide (us_Email r = us_Email u)) (users d)))
             (unique_violation "users_email_key");
  Ok (us_ID u, upd_users (fun l => l ++ [u]) d).

Definition User_Create (entity : User) : M (res UserID) :=
  try id <- stmt (fun _ d => insert_user (UserModelToSnapshot entity) d);
  lift_res (NewUserID id).

(** A missing row is [nil, nil]; the error of the row's conversion is returned as it is. *)
Definition scan_optional {A B} (f : nat -> database -> list A) (restore : A -> res B)
  : M (res (option B)) :=
  try rows <- query f
    else e => (if errors_Is e "sql.ErrNoRows" || bool_decide (Error e = "no rows in result set")
               then ret_ok None else ret_err e);
  match rows with
  | [] => ret_ok None
  | row :: _ => lift_res (b ← restore row; Ok (Some b))
  end.

Definition User_GetByID (id : UserID) : M (res (option User)) :=
  scan_optional (fun _ d => limit_rows 1 (bfilter (fun u => bool_decide (us_ID u = value id)) (users d)))
    UserSnapshotToModel.

Definition User_GetByEmail (email : string) : M (res (option User)) :=
  scan_optional (fun _ d => limit_rows 1 (bfilter (fun u => bool_decide (us_Email u = email)) (users d)))
    UserSnapshotToModel.

Definition set_user (e r : UserSnapshot) : UserSnapshot :=
  {| us_ID := us_ID r; us_Email := us_Email e; us_PasswordHash := us_PasswordHash e;
     us_Role := us_Role e; us_CreatedAt := us_CreatedAt r; us_UpdatedAt := us_UpdatedAt e |}.

Definition User_Update (entity : User) : M (res unit) :=
  let e := UserModelToSnapshot entity in
  stmt (fun _ d =>
    if existsb (fun r => bool_decide (us_ID r = us_ID e)) (users d) then
      _ ← guard_ (role_ok (us_Role e)) (check_violation "users_role_check");
      _ ← guard_ (negb (existsb (fun r => bool_decide (us_Email r = us_Email e)
                                          && negb (bool_decide (us_ID r = us_ID e))) (users d)))
                 (unique_violation "users_email_key");
      Ok (tt, upd_users (update_where (fun r => bool_decide (us_ID r = us_ID e)) (set_user e)) d)
    else Ok (tt, d)).

Definition User_List : M (res (list User)) :=
  scan_all (fun _ d => order_by (fun a b => us_CreatedAt b <=? us_CreatedAt a) (users d))
    UserSnapshotToModel.

Definition User_UpdateRole (id : UserID) (role : Role) : M (res unit) :=
  now ← time_Now;
  stmt (fun _ d =>
    if existsb (fun r => bool_decide (us_ID r = value id)) (users d) then
      _ ← guard_ (role_ok role) (check_violation "users_role_check");
      Ok (tt, upd_users (update_where (fun r => bool_decide (us_ID r = value id)) (fun r =>
        {| us_ID := us_ID r; us_Email := us_Email r; us_PasswordHash := us_PasswordHash r;
           us_Role := role; us_CreatedAt := us_CreatedAt r; us_UpdatedAt := now |})) d)
    else Ok (tt, d)).

(** ** refresh_token_repo.go *)

Definition token_ref_ok (o : option string) (self : string) (d : database) : bool :=
  match o with
  | None => true
  | Some r => bool_decide (r = self) || existsb (fun t => bool_decide (rs_ID t = r)) (tokens d)
  end.

Definition insert_token (t : RefreshTokenSnapshot) (d : database) : res (string * database) :=
  _ ← guard_ (negb (existsb (fun r => bool_decide (rs_ID r = rs_ID t)) (tokens d)))
             (unique_violation "refresh_tokens_pkey");
  _ ← guard_ (negb (existsb (fun r => bool_decide (rs_TokenHash r = rs_TokenHash t)) (tokens d)))
             (unique_violation "refresh_tokens_token_hash_key");
  _ ← guard_ (existsb (fun u => bool_decide (us_ID u = rs_UserID t)) (users d))
             (fk_violation "fk_refresh_tokens_user_id");
  _ ← guard_ (token_ref_ok (rs_ReplacedByTokenID t) (rs_ID t) d)
             (fk_violation "fk_refresh_tokens_replaced_by");
  Ok (rs_ID t, upd_tokens (fun l => l ++ [t]) d).

Definition Token_Create (entity : RefreshToken) : M (res RefreshTokenID) :=
  try id <- stmt (fun _ d => insert_token (RefreshTokenModelToSnapshot entity) d);
  lift_res (NewID id).

Definition Token_GetByTokenHash (tokenHash : string) : M (res (option RefreshToken)) :=
  scan_optional (fun _ d =>
      limit_rows 1 (bfilter (fun t => bool_decide (rs_TokenHash t = tokenHash)) (tokens d)))
    RefreshTokenSnapshotToModel.

Definition Token_GetByID (id : RefreshTokenID) : M (res (option RefreshToken)) :=
  scan_optional (fun _ d =>
      limit_rows 1 (bfilter (fun t => bool_decide (rs_ID t = value id)) (tokens d)))
    RefreshTokenSnapshotToModel.

Definition set_revoked (at_ : option Z) (by_ : option string) (r : RefreshTokenSnapshot)
  : RefreshTokenSnapshot :=
  {| rs_ID := rs_ID r; rs_UserID := rs_UserID r; rs_TokenHash := rs_TokenHash r;
     rs_ExpiresAt := rs_ExpiresAt r; rs_RevokedAt := at_; rs_CreatedAt := rs_CreatedAt r;
     rs_ReplacedByTokenID := by_ |}.

Definition Token_Update (entity : RefreshToken) : M (res unit) :=
  let e := RefreshTokenModelToSnapshot entity in
  stmt (fun _ d =>
    if existsb (fun r => bool_decide (rs_ID r = rs_ID e)) (tokens d) then
      _ ← guard_ (token_ref_ok (rs_ReplacedByTokenID e) (rs_ID e) d)
                 (fk_violation "fk_refresh_tokens_replaced_by");
      Ok (tt, upd_tokens (update_where (fun r => bool_decide (rs_ID r = rs_ID e))
                            (set_revoked (rs_RevokedAt e) (rs_ReplacedByTokenID e))) d)
    else Ok (tt, d)).

Definition revoke_row (now : Z) (r : RefreshTokenSnapshot) : RefreshTokenSnapshot :=
  set_revoked (Some now) (rs_ReplacedByTokenID r) r.

Definition Token_RevokeByTokenHash (tokenHash : string) : M (res unit) :=
  now ← time_Now;
  exec (upd_tokens (update_where (fun r => bool_decide (rs_TokenHash r = tokenHash))
                                 (revoke_row now))).

Definition Token_RevokeAllByUserID (userID : UserID) : M (res unit) :=
  now ← time_Now;
  exec (upd_tokens (update_where
          (fun r => bool_decide (rs_UserID r = value userID)
                    && match rs_RevokedAt r with None => true | Some _ => false end)
          (revoke_row now))).

(** ** preview_repo.go *)

Definition Preview_Create (entity : Preview) : M (res PreviewID) :=
  let e := SavePreviewToSnapshot entity in
  try id <- stmt (fun _ d =>
    _ ← guard_ (negb (existsb (fun r => bool_decide (ps_ID r = ps_ID e)) (previews d)))
               (unique_violation "previews_pkey");
    Ok (ps_ID e, upd_previews (fun l => l ++ [e]) d));
  lift_res (NewID id).

Definition Preview_Get (id : PreviewID) : M (res Preview) :=
  scan_one (fun _ d => limit_rows 1 (bfilter (fun p => bool_decide (ps_ID p = value id)) (previews d)))
    RestorePreviewFromSnapshot.

End Repos.

(** ** A small database for concrete runs: one user, one configuration, one job and its seed task *)

#[local] Existing Instances any_uuid plain_env plain_json.

Definition demo_user : UserSnapshot :=
  {| us_ID := "u1"; us_Email := "u@a.b"; us_PasswordHash := "h"; us_Role := RoleReadWrite;
     us_CreatedAt := 0; us_UpdatedAt := 0 |}.

Definition demo_db : database := {|
  configs := match SaveCrawlJobConfigToSnapshot demo_config with Ok s => [s] | Err _ => [] end;
  jobs := [SaveCrawlJobToSnapshot demo_job];
  tasks := [SaveCrawlTaskToSnapshot (demo_task TaskStatusInProgress)];
  outbox := []; users := [demo_user]; tokens := []; previews := [] |}.
