(* ===== verification/Routing.v ===== *)
(** * Queue routing

    [models/queue_routing.go]: the choice of the crawl queue of a new task. *)

From S2P Require Import Prelude Domain World Sql.

Section Routing.
Context `{Env}.

(** The loop that collects the queues with a positive weight and their uint32 total. *)
Fixpoint candidates_of (weights : list QueueWeight) (total : Z) : list QueueWeight * Z :=
  match weights with
  | [] => ([], total)
  | w :: weights =>
      if Weight w =? 0 then candidates_of weights total
      else let '(cs, t) := candidates_of weights (wrapu 32 (total + Weight w)) in (w :: cs, t)
  end.

(** The loop over the candidates with the random number [r]; [last] is returned when it falls
    off the end. *)
Fixpoint pick (r : Z) (candidates : list QueueWeight) (last : string) : string :=
  match candidates with
  | [] => last
  | c :: candidates =>
      if r <? Weight c then Queue c else pick (wrapu 32 (r - Weight c)) candidates last
  end.

Definition pick_available (available : list string) : M string :=
  match available with
  | [] => mret ""
  | [q] => mret q
  | _ => i ← rand_Intn (Z.of_nat (length available));
         mret (nth (Z.to_nat i) available "")
  end.

Definition SelectCrawlQueue (available : list string) (weights : list QueueWeight) : M string :=
  match weights with
  | [] => pick_available available
  | _ =>
      let '(candidates, totalWeight) := candidates_of weights 0 in
      match candidates with
      | [] => pick_available available (* all weights were 0 *)
      | [c] => mret (Queue c)
      | _ => r ← rand_Intn totalWeight;
             mret (pick (wrapu 32 r) candidates
                        (Queue (List.last candidates {| Queue := ""; Weight := 0 |})))
      end
  end.

End Routing.

(** ** Properties *)

Section Properties.
Context `{Env}.

Definition positives (weights : list QueueWeight) : list QueueWeight :=
  bfilter (fun w => negb (Weight w =? 0)) weights.

Definition total (ws : list QueueWeight) : Z := foldr Z.add 0 (Weight <$> ws).

Definition weights_ok (ws : list QueueWeight) : Prop := Forall (fun w => 0 <= Weight w < 2 ^ 32) ws.

Lemma positives_cons w ws :
  positives (w :: ws) = if Weight w =? 0 then positives ws else w :: positives ws.
Proof.
  unfold positives, bfilter. rewrite filter_cons. by destruct (Weight w =? 0).
Qed.

#[local] Arguments total : simpl never.

Lemma total_cons w ws : total (w :: ws) = Weight w + total ws.
Proof. done. Qed.
Lemma total_nil : total [] = 0.
Proof. done. Qed.

Lemma total_nonneg ws : weights_ok ws -> 0 <= total ws.
Proof. induction 1 as [|w ws Hw _ IH]; rewrite ?total_cons, ?total_nil in *; lia. Qed.

Lemma positives_ok ws :
  weights_ok ws -> weights_ok (positives ws) /\ total (positives ws) = total ws
                   /\ Forall (fun w => 0 < Weight w) (positives ws).
Proof.
  induction 1 as [|w ws Hw _ (IH1 & IH2 & IH3)]; [repeat constructor|].
  rewrite positives_cons, ?total_cons. destruct (Z.eqb_spec (Weight w) 0).
  - rewrite IH2. repeat split; [done|lia|done].
  - rewrite total_cons, IH2. repeat split; [by constructor|constructor; [lia|done]].
Qed.

(** The collected total is the sum modulo 2^32. *)
Lemma candidates_of_spec ws t :
  candidates_of ws t = (positives ws, wrapu 32 (t + total ws)) \/ positives ws = [].
Proof.
  revert t. induction ws as [|w ws IH]; intros t; [by right|].
  rewrite positives_cons. simpl. destruct (Z.eqb_spec (Weight w) 0) as [Hw|Hw].
  - destruct (IH t) as [E|E]; [|by right]. left. rewrite E, total_cons. by rewrite Hw.
  - left. destruct (IH (wrapu 32 (t + Weight w))) as [E|E].
    + rewrite E. f_equal. unfold wrapu. rewrite total_cons. rewrite Zplus_mod_idemp_l. f_equal. lia.
    + clear IH. assert (Hz : forall u, candidates_of ws u = ([], u) /\ total ws = 0).
      { clear -E. revert E. induction ws as [|x ws IH]; intros E u; [done|].
        rewrite positives_cons in E. simpl. destruct (Z.eqb_spec (Weight x) 0) as [Hx|]; [|done].
        destruct (IH E u) as [-> Ht]. split; [done|]. rewrite total_cons. lia. }
      destruct (Hz (wrapu 32 (t + Weight w))) as [-> Ht]. rewrite E.
      rewrite total_cons, Ht. do 2 f_equal. lia.
Qed.

(** The walk over the candidates finds the one whose interval holds [r]. *)
Lemma pick_interval cs last r :
  Forall (fun w => 0 < Weight w < 2 ^ 32) cs -> 0 <= r < total cs -> r < 2 ^ 32 ->
  exists pre c post, cs = pre ++ c :: post /\ total pre <= r < total pre + Weight c
                     /\ pick r cs last = Queue c.
Proof.
  intros Hcs. revert r. induction Hcs as [|c cs Hc _ IH]; intros r Hr Hw.
  - rewrite total_nil in Hr. lia.
  - simpl. destruct (Z.ltb_spec r (Weight c)) as [Hlt|Hge].
    + exists [], c, cs. rewrite total_nil. repeat split; lia.
    + rewrite wrapu_small by (simpl; lia).
      destruct (IH (r - Weight c)) as (pre & d & post & -> & Hd & Hp);
        [rewrite total_cons in Hr; lia|lia|].
      exists (c :: pre), d, post. split; [done|]. split; [|done].
      rewrite total_cons. lia.
Qed.

(** Weighted routing.  When the weights of a job add up to less than 2^32 and one of them is
    positive, the choice never panics and returns a listed queue of positive weight whatever
    queues are available: the one whose interval of the cumulated weights holds the random
    number drawn below the total, so a queue is chosen for exactly as many draws as its
    weight. *)
Theorem select_weighted available weights w :
  weights_ok weights -> total weights < 2 ^ 32 -> positives weights <> [] ->
  exists pre c post r w',
    positives weights = pre ++ c :: post
    /\ SelectCrawlQueue available weights w = (Ret (Queue c), w')
    /\ total pre <= r < total pre + Weight c
    /\ 0 <= r < total weights
    /\ ((2 <= length (positives weights))%nat -> r = intn_at (ticks w) (total weights)).
Proof.
  intros Hok Ht Hne. destruct (positives_ok _ Hok) as (Hpok & Hpt & Hpos).
  pose proof (total_nonneg _ Hok) as Hnn.
  destruct (candidates_of_spec weights 0) as [E|]; [|done].
  rewrite Z.add_0_l, wrapu_small in E by (simpl; lia).
  unfold SelectCrawlQueue. destruct weights as [|w0 ws]; [done|]. rewrite E. clear E.
  destruct (positives (w0 :: ws)) as [|c [|c' cs]] eqn:Ep; [done| |].
  - exists [], c, [], 0, w. rewrite Forall_singleton in Hpos. rewrite <- Hpt, total_cons, total_nil.
    simpl length. repeat split; lia.
  - rewrite <- Ep in *. set (l := positives (w0 :: ws)) in *.
    assert (Hl : Forall (fun w => 0 < Weight w < 2 ^ 32) l).
    { apply Forall_forall. intros x Hx. split;
        [apply (proj1 (Forall_forall _ _) Hpos x Hx)|apply (proj1 (Forall_forall _ _) Hpok x Hx)]. }
    assert (Htp : 0 < total (w0 :: ws)).
    { rewrite <- Hpt, Ep. pose proof (total_nonneg _ Hpok) as Hn. rewrite Ep in Hn, Hpos.
      apply Forall_cons in Hpos as [Hc Hpos]. apply Forall_cons in Hpos as [Hc' _].
      rewrite Ep in Hpok. apply Forall_cons in Hpok as [_ Hpok].
      pose proof (total_nonneg _ Hpok). rewrite !total_cons in *. lia. }
    pose proof (intn_at_range (ticks w) _ Htp) as Hr.
    destruct (pick_interval l (Queue (List.last l {| Queue := ""; Weight := 0 |}))
                (intn_at (ticks w) (total (w0 :: ws))) Hl)
      as (pre & d & post & El & Hd & Hp); [by rewrite Hpt|lia|].
    exists pre, d, post, (intn_at (ticks w) (total (w0 :: ws))), (tick w).
    split; [done|]. split; [|done].
    unfold rand_Intn. destruct (Z.leb_spec (total (w0 :: ws)) 0); [lia|].
    unfold mbind, M_bind, observe. rewrite wrapu_small by (simpl; lia).
    unfold mret, M_ret. by rewrite Hp.
Qed.

(** The total is a uint32.  Two or more positive weights whose sum is a multiple of 2^32 wrap
    to zero and the choice panics, though every weight is one the API accepts. *)
Theorem select_wraps_and_panics available weights w :
  (2 <= length (positives weights))%nat -> total weights mod 2 ^ 32 = 0 ->
  SelectCrawlQueue available weights w = (Panic "invalid argument to Intn", w).
Proof.
  intros Hlen Ht. destruct (candidates_of_spec weights 0) as [E|E]; [|by rewrite E in Hlen; simpl in Hlen; lia].
  unfold SelectCrawlQueue. destruct weights as [|w0 ws]; [simpl in Hlen; lia|]. rewrite E.
  destruct (positives (w0 :: ws)) as [|c [|c' cs]]; [simpl in Hlen; lia..|].
  unfold wrapu. rewrite Z.add_0_l, Ht. done.
Qed.

End Properties.

(** ** Concrete runs *)

#[local] Existing Instances any_uuid plain_env.

Definition demo_weights : list QueueWeight :=
  [{| Queue := "a"; Weight := 2 |}; {| Queue := "b"; Weight := 0 |}; {| Queue := "c"; Weight := 3 |}].

Lemma select_weighted_witness :
  exists c w', SelectCrawlQueue ["x"] demo_weights (world_of empty_db) = (Ret (Queue c), w')
               /\ 0 <= 0 < Weight c.
Proof.
  destruct (select_weighted ["x"] demo_weights (world_of empty_db))
    as (pre & c & post & r & w' & Ep & E & Hr & _ & Hd).
  - repeat constructor; discriminate.
  - vm_compute. reflexivity.
  - vm_compute. discriminate.
  - exists c, w'. split; [exact E|]. vm_compute in E. injection E as Eq _.
    destruct pre as [|p pre]; [injection Ep as <- _; split; [discriminate|vm_compute; reflexivity]|].
    injection Ep as _ Ep. destruct pre as [|p' pre]; [injection Ep as <- _; discriminate Eq|].
    destruct pre; discriminate Ep.
Defined.

Lemma select_wraps_and_panics_witness :
  SelectCrawlQueue ["x"] [{| Queue := "a"; Weight := 2 ^ 31 |}; {| Queue := "b"; Weight := 2 ^ 31 |}]
    (world_of empty_db) = (Panic "invalid argument to Intn", world_of empty_db).
Proof. apply select_wraps_and_panics; [vm_compute; lia|vm_compute; reflexivity]. Defined.
