(* ===== verification/Outbox.v ===== *)
(** * The outbox publisher and the recovery of stuck tasks

    [worker/outbox_publisher.go]: unprocessed events are fetched with row locks, published to the
    broker and marked as processed in one transaction.  [worker/stuck_task_recovery.go]: tasks that
    stay InProgress are published again.  Publishing uses the context without the transaction, so
    nothing takes a published message back. *)

From S2P Require Import Prelude GoStrings Domain Json Converters World Sql Repos Routing.

Definition DefaultOutboxPollInterval : Z := 10 * Second.
Definition DefaultOutboxBatchSize : Z := 100.

Record OutboxPublisher := {
  ob_queueName : string;
  ob_pollInterval : Z;
  ob_batchSize : Z;
  ob_tracer : bool (* a tracer is configured *) }.

Definition NewOutboxPublisher (queueName : string) (tracer : bool) : OutboxPublisher :=
  {| ob_queueName := queueName; ob_pollInterval := DefaultOutboxPollInterval;
     ob_batchSize := DefaultOutboxBatchSize; ob_tracer := tracer |}.

(** What wakes the loop of [Start]. *)
Inductive wakeup :=
| TickerFired
| ContextDone
| StopClosed.

Section Publisher.
Context `{Env, JsonLib}.

Definition targetQueue (w : OutboxPublisher) (event : TaskEnqueuedEvent) : string :=
  if bool_decide (EvTargetQueue event = "") then ob_queueName w else EvTargetQueue event.

Definition crawl_message (event : TaskEnqueuedEvent) (traceCtx : gmap string string)
  : CrawlTaskMessage :=
  {| MTaskID := EvTaskID event; MJobID := EvJobID event; MURL := EvURL event;
     MEnqueuedAt := EvEnqueuedAt event; MTraceContext := traceCtx |}.

Definition publishTaskEnqueuedEvent (w : OutboxPublisher) (outboxEvent : OutboxEvent string)
  : M (res unit) :=
  try event <- lift_res (Unmarshal event_of_json (OPayload outboxEvent))
    else e => ret_err (Errorf "failed to unmarshal event payload" e);
  traceCtx ← if ob_tracer w then InjectTraceContext else mret ∅;
  try _ <- Publish (targetQueue w event) (MsgCrawl (crawl_message event traceCtx))
    else e => ret_err (Errorf "failed to publish task to message broker" e);
  try _ <- Outbox_MarkAsProcessed (OID outboxEvent)
    else e => ret_err (Errorf "failed to mark event as processed" e);
  ret_ok tt.

Definition processEvent (w : OutboxPublisher) (event : OutboxEvent string) : M (res unit) :=
  if bool_decide (OEventType event = EventTypeTaskEnqueued) then publishTaskEnqueuedEvent w event
  else Outbox_MarkAsProcessed (OID event).

(** The body of the transaction. *)
Definition process_batch (w : OutboxPublisher) : M (res unit) :=
  try evts <- Outbox_FetchUnprocessedEvents (ob_batchSize w)
    else e => ret_err (Errorf "failed to fetch unprocessed events" e);
  match evts with
  | [] => ret_ok tt
  | _ =>
      for_each (fun event =>
        try _ <- processEvent w event
          else e => ret_err (Errorf ("failed to process outbox event " +:+ value (OID event)) e);
        ret_ok tt) evts
  end.

Definition processOutboxEvents (w : OutboxPublisher) : M unit :=
  ReadCommitted (process_batch w) ≫= fun err => mret tt.

(** The loop of [Start], driven by the wakeups it receives. *)
Fixpoint publisher_loop (w : OutboxPublisher) (events : list wakeup) : M unit :=
  match events with
  | [] => mret tt
  | ContextDone :: _ | StopClosed :: _ => mret tt
  | TickerFired :: events => processOutboxEvents w ≫= fun _ => publisher_loop w events
  end.

Definition Publisher_Start (w : OutboxPublisher) (events : list wakeup) : M unit :=
  processOutboxEvents w ≫= fun _ => publisher_loop w events.

(** ** stuck_task_recovery.go *)

Definition DefaultStuckTaskPollInterval : Z := 5 * Minute.
Definition DefaultStuckTaskThreshold : Z := 10 * Minute.
Definition DefaultStuckTaskBatchSize : Z := 500.

Record StuckTaskRecovery := {
  st_availableQueues : list string;
  st_staleThreshold : Z;
  st_batchSize : Z }.

Definition NewStuckTaskRecovery (availableQueues : list string) : StuckTaskRecovery :=
  {| st_availableQueues := availableQueues; st_staleThreshold := DefaultStuckTaskThreshold;
     st_batchSize := DefaultStuckTaskBatchSize |}.

Definition republish (r : StuckTaskRecovery) (traceCtx : gmap string string) (task : CrawlTask)
  : M unit :=
  targetQueue ← SelectCrawlQueue (st_availableQueues r) [];
  _ ← Publish targetQueue (MsgCrawl
        {| MTaskID := value (TID task); MJobID := value (JobID task); MURL := URL task;
           MEnqueuedAt := EnqueuedAt task; MTraceContext := traceCtx |});
  mret tt.

Definition recover (r : StuckTaskRecovery) : M unit :=
  now ← time_Now;
  err ← Task_ListStaleInProgress (now - st_staleThreshold r) (st_batchSize r);
  match err with
  | Err _ => mret tt
  | Ok [] => mret tt
  | Ok tasks =>
      traceCtx ← InjectTraceContext;
      for_all (republish r traceCtx) tasks
  end.

Fixpoint recovery_loop (r : StuckTaskRecovery) (events : list wakeup) : M unit :=
  match events with
  | [] => mret tt
  | ContextDone :: _ | StopClosed :: _ => mret tt
  | TickerFired :: events => recover r ≫= fun _ => recovery_loop r events
  end.

End Publisher.

(** ** Lemmas *)

Section PublisherLemmas.
Context `{Env, JsonLib}.

(** What a message published for an event says about it. *)
Definition announces (w : OutboxPublisher) (payload : string) (p : string * message) : Prop :=
  exists event traceCtx,
    Unmarshal event_of_json payload = Ok event
    /\ p = (targetQueue w event, MsgCrawl (crawl_message event traceCtx)).

(** One event handled without error. *)
Definition event_done (w : OutboxPublisher) (event : OutboxEvent string) (a b : world) : Prop :=
  tx b = tx a
  /\ (exists now, db b = upd_outbox (update_where (fun r => bool_decide (os_ID r = value (OID event)))
                                       (set_processed now)) (db a))
  /\ exists msgs, published b = published a ++ msgs
     /\ (OEventType event = EventTypeTaskEnqueued ->
         exists p, msgs = [p] /\ announces w (OPayload event) p).

Lemma mark_done (ev : OutboxEvent string) a b :
  Outbox_MarkAsProcessed (OID ev) a = (Ret (Ok tt), b) ->
  tx b = tx a /\ published b = published a /\
  exists now, db b = upd_outbox (update_where (fun r => bool_decide (os_ID r = value (OID ev)))
                                  (set_processed now)) (db a).
Proof. intros (_ & d & [= <-] & ->)%stmt_ok. simpl. eauto. Qed.

Lemma inject_tracer w a o b :
  ((if ob_tracer w then InjectTraceContext else mret ∅) : M (gmap string string)) a = (o, b) ->
  exists tc, o = Ret tc /\ tx b = tx a /\ db b = db a /\ published b = published a.
Proof. destruct (ob_tracer w); intros [= <- <-]; eauto. Qed.

Lemma processEvent_done w ev a b :
  processEvent w ev a = (Ret (Ok tt), b) -> event_done w ev a b.
Proof.
  unfold processEvent. case_bool_decide as Hty.
  - unfold publishTaskEnqueuedEvent. intros E.
    apply try_ok in E as (event & a1 & E1 & E). injection E1 as E1 <-.
    unfold mbind at 1, M_bind in E.
    destruct (((if ob_tracer w then InjectTraceContext else mret ∅) : M _) a) as [o a2] eqn:Et.
    destruct (inject_tracer _ _ _ _ Et) as (tc & -> & Htx2 & Hdb2 & Hp2).
    apply try_ok in E as ([] & a3 & E3 & E). apply try_ok in E as ([] & a4 & E4 & E).
    injection E as <-. apply call_ok in E3. injection E3 as ->.
    destruct (mark_done _ _ _ E4) as (Htx & Hp & now & Hd). simpl in *.
    split; [congruence|]. split; [exists now; by rewrite Hd, Hdb2|].
    exists [(targetQueue w event, MsgCrawl (crawl_message event tc))].
    rewrite Hp, Hp2. split; [done|]. intros _. eexists. split; [done|]. by exists event, tc.
  - intros E. destruct (mark_done _ _ _ E) as (Htx & Hp & now & Hd).
    split; [done|]. split; [eauto|]. exists []. rewrite app_nil_r. by split.
Qed.

(** The events of a batch handled one after the other. *)
Inductive batch_done (w : OutboxPublisher) : list (OutboxEvent string) -> world -> world -> Prop :=
| batch_nil a : batch_done w [] a a
| batch_cons ev evs a b c :
    event_done w ev a b -> batch_done w evs b c -> batch_done w (ev :: evs) a c.

Lemma for_each_batch w evs a b :
  for_each (fun event =>
    try _ <- processEvent w event
      else e => ret_err (Errorf ("failed to process outbox event " +:+ value (OID event)) e);
    ret_ok tt) evs a = (Ret (Ok tt), b) ->
  batch_done w evs a b.
Proof.
  revert a. induction evs as [|ev evs IH]; simpl; intros a E.
  - injection E as <-. constructor.
  - apply try_ok' in E as ([] & a1 & E1 & E). apply try_ok in E1 as ([] & a2 & E1 & E2).
    injection E2 as <-. econstructor; [by apply processEvent_done|]. by apply IH.
Qed.

Lemma batch_published w evs a b : batch_done w evs a b -> exists l, published b = published a ++ l.
Proof.
  induction 1 as [|ev evs a b c (_ & _ & m & Hm & _) _ [l IH]]; [by exists []; rewrite app_nil_r|].
  exists (m ++ l). by rewrite IH, Hm, app_assoc.
Qed.

(** Each row after the batch is a row before it, processed only if its event is in the batch, and
    then announced. *)
Lemma batch_rows w evs a b :
  batch_done w evs a b ->
  forall r', r' ∈ outbox (db b) ->
  exists r, r ∈ outbox (db a) /\ os_ID r = os_ID r' /\ os_EventType r = os_EventType r'
    /\ os_Payload r = os_Payload r'
    /\ (os_ProcessedAt r' = os_ProcessedAt r \/ exists ev, ev ∈ evs /\ value (OID ev) = os_ID r).
Proof.
  induction 1 as [a|ev evs a b c (_ & (now & Hd) & _) _ IH]; intros r' Hr'.
  - exists r'. repeat split; auto.
  - destruct (IH r' Hr') as (r1 & Hr1 & Ei & Et & Ep & Hpr). rewrite Hd in Hr1. simpl in Hr1.
    apply list_elem_of_fmap in Hr1 as (r & -> & Hr). exists r.
    case_bool_decide as Hid; simpl in *.
    + repeat split; try done. right. exists ev. split; [left|done].
    + repeat split; try done. destruct Hpr as [?|(e & ? & ?)]; [by left|].
      right. exists e. split; [by right|done].
Qed.

Lemma batch_announced w evs a b ev :
  batch_done w evs a b -> ev ∈ evs -> OEventType ev = EventTypeTaskEnqueued ->
  exists p, p ∈ drop (length (published a)) (published b) /\ announces w (OPayload ev) p.
Proof.
  induction 1 as [a|ev' evs a b c (_ & _ & m & Hm & Ha) Hb IH]; intros Hin Hty; [by inversion Hin|].
  destruct (batch_published _ _ _ _ Hb) as [l Hl].
  apply elem_of_cons in Hin as [->|Hin].
  - destruct (Ha Hty) as (p & -> & Hp). exists p. split; [|done].
    rewrite Hl, Hm, <- app_assoc, drop_app_length. set_solver.
  - destruct (IH Hin Hty) as (p & Hpin & Hp). exists p. split; [|done].
    rewrite Hl in Hpin |- *. rewrite Hm in Hpin |- *.
    rewrite drop_app_length in Hpin. rewrite <- app_assoc, drop_app_length. set_solver.
Qed.

Lemma fetch_ok limit a evs b :
  Outbox_FetchUnprocessedEvents limit a = (Ret (Ok evs), b) ->
  b = tick a /\ forall ev, ev ∈ evs ->
    exists r, r ∈ outbox (db a) /\ unprocessed r = true /\ value (OID ev) = os_ID r
              /\ OEventType ev = os_EventType r /\ OPayload ev = os_Payload r.
Proof.
  unfold Outbox_FetchUnprocessedEvents, scan_all. intros E.
  apply try_ok' in E as (rows & a1 & E1 & E). apply query_ok in E1 as (_ & -> & ->).
  injection E as E <-. split; [done|]. intros ev Hev.
  destruct (map_res_elem _ _ _ _ E Hev) as (r & Hr & Er). exists r.
  apply elem_of_limit_rows, elem_of_order_by, elem_of_bfilter in Hr as [Hp Hr].
  apply andb_true_iff in Hp as [Hp _].
  unfold RestoreOutboxEventFromSnapshot, NewOutboxEventID in Er.
  case_bool_decide; [done|]. simpl in Er. injection Er as <-. done.
Qed.

(** What a batch that returned no error did. *)
Lemma process_batch_ok w a b :
  process_batch w a = (Ret (Ok tt), b) ->
  exists evs, batch_done w evs (tick a) b /\ forall ev, ev ∈ evs ->
    exists r, r ∈ outbox (db a) /\ unprocessed r = true /\ value (OID ev) = os_ID r
              /\ OEventType ev = os_EventType r /\ OPayload ev = os_Payload r.
Proof.
  unfold process_batch. intros E. apply try_ok in E as (evs & a1 & E1 & E).
  destruct (fetch_ok _ _ _ _ E1) as [-> Hf]. exists evs. split; [|done].
  destruct evs as [|ev evs]; [injection E as <-; constructor|]. by apply for_each_batch.
Qed.

Lemma row_unique {A B} (key : A -> B) (l : list A) r1 r2 :
  NoDup (key <$> l) -> r1 ∈ l -> r2 ∈ l -> key r1 = key r2 -> r1 = r2.
Proof.
  intros Hnd Hr1 Hr2 E. apply list_elem_of_lookup in Hr1 as [i Hi], Hr2 as [j Hj].
  assert (i = j) as ->.
  { eapply NoDup_lookup; [exact Hnd|by rewrite list_lookup_fmap, Hi|].
    rewrite list_lookup_fmap, Hj. simpl. by rewrite E. }
  congruence.
Qed.

(** Only messages are added to the broker, whatever happens. *)
Definition grows (a b : world) : Prop := exists l, published b = published a ++ l.

#[export] Instance grows_preorder : PreOrder grows.
Proof.
  split.
  - intros a. exists []. by rewrite app_nil_r.
  - intros a b c [l Hl] [m Hm]. exists (l ++ m). by rewrite Hm, Hl, app_assoc.
Qed.

Lemma grows_stmt {A} (f : nat -> database -> res (A * database)) : keeps grows (stmt f).
Proof.
  intros w. unfold stmt, grows. simpl. exists [].
  destruct (tx w) as [[]|]; [|destruct (verdict_at (ticks w))..]; simpl;
    try (destruct (f (ticks w) (db w)) as [[??]|]); by rewrite app_nil_r.
Qed.

Lemma grows_publish q m : keeps grows (Publish q m).
Proof.
  intros w. unfold Publish, call, grows. simpl.
  destruct (verdict_at (ticks w)); simpl; eauto. exists []. by rewrite app_nil_r.
Qed.

End PublisherLemmas.

Section Properties.
Context `{Env, JsonLib}.

Lemma grows_observe {A} (f : nat -> A) : keeps grows (observe f).
Proof. intros w. exists []. simpl. by rewrite app_nil_r. Qed.

Lemma grows_processEvent w ev : keeps grows (processEvent w ev).
Proof.
  unfold processEvent, publishTaskEnqueuedEvent, lift_res, ret_err, ret_ok,
    Outbox_MarkAsProcessed, InjectTraceContext.
  keeps_steps first [apply grows_stmt | apply grows_publish | apply grows_observe].
Qed.

Lemma grows_batch w : keeps grows (process_batch w).
Proof.
  unfold process_batch, Outbox_FetchUnprocessedEvents, scan_all, query, ret_err, ret_ok, lift_res.
  keeps_steps first [apply grows_stmt | apply grows_processEvent
                    | apply keeps_for_each; [exact _|exact _|intros ?]].
Qed.

(** One poll of the publisher, in every case. *)
Definition publisher_step (w : OutboxPublisher) (a b : world) : Prop :=
  tx b = None /\ os_ID <$> outbox (db b) = os_ID <$> outbox (db a) /\ grows a b /\
  forall r', r' ∈ outbox (db b) ->
    exists r, r ∈ outbox (db a) /\ os_ID r = os_ID r' /\ os_EventType r = os_EventType r'
      /\ os_Payload r = os_Payload r'
      /\ (unprocessed r = true -> unprocessed r' = false ->
          os_EventType r = EventTypeTaskEnqueued ->
          exists p, p ∈ drop (length (published a)) (published b) /\ announces w (os_Payload r) p).

Lemma batch_ids w evs a b :
  batch_done w evs a b -> os_ID <$> outbox (db b) = os_ID <$> outbox (db a).
Proof.
  induction 1 as [|ev evs a b c (_ & (now & Hd) & _) _ IH]; [done|].
  rewrite IH, Hd. simpl. unfold update_where. rewrite <- list_fmap_compose.
  apply list_fmap_ext. intros i r _. simpl. by case_bool_decide.
Qed.

Lemma processOutboxEvents_step w a :
  tx a = None -> NoDup (os_ID <$> outbox (db a)) ->
  exists b, processOutboxEvents w a = (Ret tt, b) /\ publisher_step w a b.
Proof.
  intros Ht Hnd.
  destruct (ReadCommitted_cases (process_batch w) a Ht) as (r & b & E & Htb & Hc).
  exists b. unfold processOutboxEvents. rewrite (bind_ret _ _ _ _ _ E). split; [done|].
  destruct Hc as [[_ ->]|(o & w1 & Ef & Hp & _ & Hc)].
  { split; [done|]. split; [done|]. split; [exists []; by rewrite app_nil_r|].
    intros r' Hr'. exists r'. repeat split; try done. congruence. }
  assert (Hg : grows a b).
  { pose proof (grows_batch w (set_tx (Some false) (tick a))) as Hg. rewrite Ef in Hg.
    unfold grows in *. by rewrite Hp. }
  destruct Hc as [[_ Hd]|([] & -> & _ & _ & Hd)].
  - split; [done|]. rewrite Hd. split; [done|]. split; [done|].
    intros r' Hr'. exists r'. repeat split; try done. congruence.
  - destruct (process_batch_ok _ _ _ Ef) as (evs & Hb & Hevs).
    split; [done|]. rewrite Hd. split; [by rewrite (batch_ids _ _ _ _ Hb)|]. split; [done|].
    intros r' Hr'. destruct (batch_rows _ _ _ _ Hb r' Hr') as (r0 & Hr0 & Ei & Et & Ep & Hpr).
    simpl in Hr0. exists r0. repeat split; try done. intros Hu Hu' Hty.
    destruct Hpr as [Hpr|(ev & Hev & Eid)];
      [unfold unprocessed in *; rewrite Hpr in Hu'; congruence|].
    destruct (Hevs ev Hev) as (r1 & Hr1 & _ & Eid1 & Ety1 & Epl1). simpl in Hr1.
    assert (r1 = r0) as -> by (eapply row_unique; [exact Hnd|done..|congruence]).
    destruct (batch_announced _ _ _ _ ev Hb Hev) as (p & Hin & Ha); [congruence|].
    exists p. rewrite Hp. simpl in Hin. split; [done|]. by rewrite <- Epl1.
Qed.

Lemma publisher_step_trans w a b c :
  publisher_step w a b -> publisher_step w b c -> publisher_step w a c.
Proof.
  intros (_ & Hi & [l Hl] & Hr) (Ht & Hi' & [m Hm] & Hr').
  split; [done|]. split; [congruence|]. split; [exists (l ++ m); by rewrite Hm, Hl, app_assoc|].
  intros r2 H2. destruct (Hr' r2 H2) as (r1 & H1' & Ei1 & Et1 & Ep1 & Hpub1).
  destruct (Hr r1 H1') as (r0 & H0' & Ei0 & Et0 & Ep0 & Hpub0).
  exists r0. repeat split; try congruence. intros Hu0 Hu2 Hty.
  rewrite Hm, Hl, <- app_assoc, drop_app_length. destruct (unprocessed r1) eqn:Hu1.
  - destruct Hpub1 as (p & Hin & Ha); [done..|congruence|]. exists p.
    rewrite Hm, drop_app_length in Hin. split; [set_solver|congruence].
  - destruct Hpub0 as (p & Hin & Ha); [done..|]. exists p.
    rewrite Hl, drop_app_length in Hin. split; [set_solver|done].
Qed.

Lemma publisher_step_refl w a : tx a = None -> publisher_step w a a.
Proof.
  intros Ht. split; [done|]. split; [done|]. split; [exists []; by rewrite app_nil_r|].
  intros r Hr. exists r. repeat split; try done. congruence.
Qed.

Lemma publisher_loop_step w events a :
  tx a = None -> NoDup (os_ID <$> outbox (db a)) ->
  exists b, publisher_loop w events a = (Ret tt, b) /\ publisher_step w a b.
Proof.
  revert a. induction events as [|[] events IH]; simpl; intros a Ht Hnd;
    try (exists a; split; [done|by apply publisher_step_refl]).
  destruct (processOutboxEvents_step w a Ht Hnd) as (b & E & Hs).
  rewrite (bind_ret _ _ _ _ _ E). pose proof Hs as (Htb & Hib & _).
  destruct (IH b Htb) as (c & Ec & Hs'); [by rewrite Hib|].
  exists c. split; [done|]. by eapply publisher_step_trans.
Qed.

(** C3: at-least-once publication.  Whatever the database and the broker do (lost commits, lost
    acknowledgements, statements that fail, rows locked by another publisher) and however long
    the publisher runs, it never panics, it leaves no transaction open and loses no event; and a
    task.enqueued event that goes from unprocessed to processed was published by this run, to
    the queue its payload names (the default crawl queue when it names none), with its task,
    job and URL. *)
Theorem processed_events_published w events a :
  tx a = None -> NoDup (os_ID <$> outbox (db a)) ->
  exists b, Publisher_Start w events a = (Ret tt, b) /\ tx b = None
    /\ os_ID <$> outbox (db b) = os_ID <$> outbox (db a)
    /\ forall r r', r ∈ outbox (db a) -> unprocessed r = true ->
         r' ∈ outbox (db b) -> os_ID r' = os_ID r -> unprocessed r' = false ->
         os_EventType r = EventTypeTaskEnqueued ->
         exists event traceCtx,
           Unmarshal event_of_json (os_Payload r) = Ok event
           /\ (targetQueue w event, MsgCrawl (crawl_message event traceCtx))
              ∈ drop (length (published a)) (published b).
Proof.
  intros Ht Hnd. unfold Publisher_Start.
  destruct (processOutboxEvents_step w a Ht Hnd) as (b & E & Hs).
  rewrite (bind_ret _ _ _ _ _ E). pose proof Hs as (Htb & Hib & _).
  destruct (publisher_loop_step w events b Htb) as (c & Ec & Hs'); [by rewrite Hib|].
  exists c. split; [done|].
  destruct (publisher_step_trans _ _ _ _ Hs Hs') as (Htc & Hic & _ & Hrows).
  split; [done|]. split; [done|]. intros r r' Hr Hu Hr' Eid Hu' Hty.
  destruct (Hrows r' Hr') as (r0 & Hr0 & Ei & Et & Ep & Hpub).
  assert (r0 = r) as -> by (eapply row_unique; [exact Hnd|done..|congruence]).
  destruct Hpub as (p & Hin & event & tc & Eu & ->); [done..|]. eauto.
Qed.

(** *** A broker and a database without faults *)

Lemma batch_marks w evs a b :
  batch_done w evs a b -> forall r', r' ∈ outbox (db b) ->
  (exists ev, ev ∈ evs /\ value (OID ev) = os_ID r') -> unprocessed r' = false.
Proof.
  induction 1 as [a|ev evs a b c (_ & (now & Hd) & _) Hb IH]; intros r' Hr' (e & He & Ei).
  - by inversion He.
  - destruct (decide (os_ID r' ∈ (fun ev => value (OID ev)) <$> evs)) as [Hin|Hout].
    { apply list_elem_of_fmap in Hin as (ev' & E' & Hin). apply IH; [done|]. by exists ev'. }
    clear IH. assert (Hno : forall ev', ev' ∈ evs -> value (OID ev') <> os_ID r').
    { intros ev' Hin E'. apply Hout, list_elem_of_fmap. by exists ev'. }
    destruct (batch_rows _ _ _ _ Hb r' Hr') as (r1 & Hr1 & Ei1 & _ & _ & Hp).
    destruct Hp as [Hp|(e' & He' & Ee')]; [|destruct (Hno e' He'); congruence].
    rewrite Hd in Hr1. simpl in Hr1. apply list_elem_of_fmap in Hr1 as (r & -> & Hr).
    apply elem_of_cons in He as [->|He]; [|by destruct (Hno e He)].
    rewrite bool_decide_eq_true_2 in Hp, Ei1 by (case_bool_decide; simpl in *; congruence).
    unfold unprocessed. by rewrite Hp.
Qed.

Definition decodable (r : OutboxEventSnapshot) : bool :=
  negb (bool_decide (os_EventType r = EventTypeTaskEnqueued))
  || is_ok (Unmarshal event_of_json (os_Payload r)).

Lemma processEvent_runs w ev a :
  (forall n, verdict_at n = Succeeds) -> tx a = Some false ->
  (OEventType ev = EventTypeTaskEnqueued ->
   is_ok (Unmarshal event_of_json (OPayload ev)) = true) ->
  exists b, processEvent w ev a = (Ret (Ok tt), b) /\ tx b = Some false.
Proof.
  intros Hv Ht Hu. unfold processEvent. case_bool_decide as Hty.
  - unfold publishTaskEnqueuedEvent, try_bind, lift_res.
    destruct (Unmarshal event_of_json (OPayload ev)) as [event|] eqn:Eu;
      [|specialize (Hu Hty); done].
    unfold mbind, M_bind. simpl.
    destruct (ob_tracer w); unfold Publish, call, Outbox_MarkAsProcessed, stmt; simpl;
      rewrite !Hv; simpl; rewrite Ht; simpl; rewrite ?Hv; eauto.
  - unfold Outbox_MarkAsProcessed, stmt. simpl. rewrite Ht, Hv. eauto.
Qed.

Lemma for_each_runs {A} (f : A -> M (res unit)) l a :
  (forall x a, x ∈ l -> tx a = Some false ->
     exists b, f x a = (Ret (Ok tt), b) /\ tx b = Some false) ->
  tx a = Some false ->
  exists b, for_each f l a = (Ret (Ok tt), b) /\ tx b = Some false.
Proof.
  revert a. induction l as [|x l IH]; simpl; intros a Hf Ht; [eauto|].
  destruct (Hf x a ltac:(left) Ht) as (b & E & Hb).
  unfold try_bind. rewrite (bind_ret _ _ _ _ _ E).
  apply IH; [|done]. intros. apply Hf; [by right|done].
Qed.

(** The rows of a poll whose batch size is not reached and that no session has locked. *)
Lemma unprocessed_rows_all w n d :
  (forall r, r ∈ outbox d -> locked_at n (os_ID r) = false) ->
  Z.of_nat (length (bfilter unprocessed (outbox d))) <= ob_batchSize w ->
  forall r, r ∈ unprocessed_rows n (ob_batchSize w) d <-> r ∈ outbox d /\ unprocessed r = true.
Proof.
  intros Hl Hlen r. unfold unprocessed_rows.
  assert (E : bfilter (fun e => unprocessed e && negb (locked_at n (os_ID e))) (outbox d)
              = bfilter unprocessed (outbox d)).
  { apply bfilter_ext. intros e He. rewrite (Hl e He). simpl.
    by rewrite andb_true_r. }
  rewrite E. clear E. unfold limit_rows. destruct (Z.ltb_spec (ob_batchSize w) 0).
  - rewrite elem_of_order_by, elem_of_bfilter. tauto.
  - rewrite take_ge by (rewrite order_by_perm; lia).
    rewrite elem_of_order_by, elem_of_bfilter. tauto.
Qed.

Lemma batch_runs w a :
  (forall n, verdict_at n = Succeeds) -> tx a = Some false ->
  (forall r, r ∈ outbox (db a) -> os_ID r <> "" /\ (unprocessed r = true -> decodable r = true)) ->
  (forall r, r ∈ unprocessed_rows (ticks a) (ob_batchSize w) (db a) ->
             r ∈ outbox (db a) /\ unprocessed r = true) ->
  exists evs b, process_batch w a = (Ret (Ok tt), b) /\ tx b = Some false
    /\ batch_done w evs (tick a) b
    /\ forall r, r ∈ unprocessed_rows (ticks a) (ob_batchSize w) (db a) ->
         exists ev, ev ∈ evs /\ value (OID ev) = os_ID r.
Proof.
  intros Hv Ht Hrows Hsub. unfold process_batch, Outbox_FetchUnprocessedEvents, scan_all, query, stmt.
  unfold try_bind. unfold mbind, M_bind. simpl. rewrite Ht, Hv. simpl.
  destruct (map_res_total RestoreOutboxEventFromSnapshot
              (unprocessed_rows (ticks a) (ob_batchSize w) (db a))) as (evs & E & Hevs).
  { intros r Hr. destruct (Hrows r) as [Hid _]; [by apply Hsub|].
    unfold RestoreOutboxEventFromSnapshot, NewOutboxEventID.
    by rewrite bool_decide_eq_false_2. }
  assert (Ew : set_db (db a) (tick a) = tick a) by (by destruct a).
  rewrite E, Ew. simpl. exists evs.
  assert (Hrun : exists b, for_each (fun event =>
    try _ <- processEvent w event
      else e => ret_err (Errorf ("failed to process outbox event " +:+ value (OID event)) e);
    ret_ok tt) evs (tick a) = (Ret (Ok tt), b) /\ tx b = Some false).
  { apply for_each_runs; [|done]. intros ev c Hev Hc.
    destruct (processEvent_runs w ev c Hv Hc) as (b & Eb & Hb).
    - intros Hty. destruct (map_res_elem _ _ _ _ E Hev) as (r & Hr & Er).
      unfold RestoreOutboxEventFromSnapshot, NewOutboxEventID in Er.
      case_bool_decide; [done|]. simpl in Er. injection Er as <-. simpl in *.
      destruct (Hsub r Hr) as [Hin Hu]. destruct (Hrows r Hin) as [_ Hd].
      specialize (Hd Hu). unfold decodable in Hd. by rewrite bool_decide_eq_true_2 in Hd.
    - exists b. split; [|done]. unfold try_bind. by rewrite (bind_ret _ _ _ _ _ Eb). }
  destruct Hrun as (b & Eb & Hb). exists b.
  split; [|split; [done|split]].
  - destruct evs; [simpl in Eb; by injection Eb as <-|exact Eb].
  - by apply for_each_batch.
  - intros r Hr. destruct (Hevs r Hr) as (ev & Hev & Er). exists ev. split; [done|].
    unfold RestoreOutboxEventFromSnapshot, NewOutboxEventID in Er.
    case_bool_decide; [done|]. simpl in Er. by injection Er as <-.
Qed.

(** The outbox drains.  When the database and the broker answer, no other publisher holds the
    rows, every pending payload decodes and the pending events fit in a batch, one poll leaves no
    event unprocessed. *)
Theorem outbox_drains w a :
  (forall n, verdict_at n = Succeeds) -> tx a = None ->
  (forall n r, r ∈ outbox (db a) -> locked_at n (os_ID r) = false) ->
  (forall r, r ∈ outbox (db a) -> os_ID r <> "" /\ (unprocessed r = true -> decodable r = true)) ->
  NoDup (os_ID <$> outbox (db a)) ->
  Z.of_nat (length (bfilter unprocessed (outbox (db a)))) <= ob_batchSize w ->
  exists b, processOutboxEvents w a = (Ret tt, b) /\ tx b = None
    /\ os_ID <$> outbox (db b) = os_ID <$> outbox (db a)
    /\ forall r, r ∈ outbox (db b) -> unprocessed r = false.
Proof.
  intros Hv Ht Hl Hrows Hnd Hlen.
  set (a1 := set_tx (Some false) (tick a)).
  assert (Hall : forall r, r ∈ unprocessed_rows (ticks a1) (ob_batchSize w) (db a1)
                           <-> r ∈ outbox (db a1) /\ unprocessed r = true)
    by (apply unprocessed_rows_all; [apply Hl|exact Hlen]).
  destruct (batch_runs w a1 Hv eq_refl Hrows ltac:(apply Hall)) as (evs & b & Eb & Htb & Hb & Hin).
  unfold processOutboxEvents, ReadCommitted, mbind, M_bind. rewrite Ht, Hv. fold a1.
  rewrite Eb. unfold Commit. rewrite Htb, Hv.
  exists (set_tx None (tick b)). split; [done|]. split; [done|].
  split; [exact (batch_ids _ _ _ _ Hb)|]. simpl. intros r' Hr'.
  destruct (batch_rows _ _ _ _ Hb r' Hr') as (r & Hr & Ei & _ & _ & Hp). simpl in Hr.
  destruct (unprocessed r) eqn:Hu.
  - apply (batch_marks _ _ _ _ Hb r' Hr').
    destruct (Hin r) as (ev & Hev & Ee); [by apply Hall|]. exists ev. split; [done|congruence].
  - destruct Hp as [Hp|(ev & Hev & Ee)]; [unfold unprocessed in *; by rewrite Hp|].
    apply (batch_marks _ _ _ _ Hb r' Hr'). exists ev. split; [done|congruence].
Qed.

(** One bad payload blocks the outbox.  While a pending task.enqueued event whose payload does
    not decode is among the events of the batch, no poll commits anything, whatever the
    database and the broker do: the events before it are published again by every poll and the
    events after it never are. *)
Theorem poison_event_blocks w events a poison :
  tx a = None -> poison ∈ outbox (db a) -> unprocessed poison = true ->
  decodable poison = false -> os_ID poison <> "" ->
  (forall n r, r ∈ outbox (db a) -> locked_at n (os_ID r) = false) ->
  Z.of_nat (length (bfilter unprocessed (outbox (db a)))) <= ob_batchSize w ->
  exists b, Publisher_Start w events a = (Ret tt, b) /\ db b = db a /\ tx b = None.
Proof.
  intros Ht Hp Hu Hd Hid Hl Hlen.
  assert (Hstep : forall a', db a' = db a -> tx a' = None ->
    exists b, processOutboxEvents w a' = (Ret tt, b) /\ db b = db a /\ tx b = None).
  { intros a' Hda Hta.
    destruct (ReadCommitted_cases (process_batch w) a' Hta) as (r & b & E & Htb & Hc).
    exists b. unfold processOutboxEvents. rewrite (bind_ret _ _ _ _ _ E). split; [done|].
    split; [|done]. destruct Hc as [[_ ->]|(o & w1 & Ef & _ & _ & [[_ Hdb]|([] & -> & _)])];
      [done|congruence|].
    exfalso. unfold process_batch in Ef. apply try_ok in Ef as (evs & a2 & E2 & Ef).
    unfold Outbox_FetchUnprocessedEvents, scan_all in E2.
    apply try_ok' in E2 as (rows & a3 & E3 & E2). apply query_ok in E3 as (_ & -> & ->).
    injection E2 as E2 <-. simpl in E2. rewrite Hda in E2.
    assert (Hin : poison ∈ unprocessed_rows (S (ticks a')) (ob_batchSize w) (db a))
      by (apply unprocessed_rows_all; [apply Hl|done|done]).
    assert (Hev : exists ev, ev ∈ evs /\ RestoreOutboxEventFromSnapshot poison = Ok ev)
      by exact (map_res_in _ _ _ _ E2 Hin).
    destruct Hev as (ev & Hev & Er). destruct evs as [|e0 evs]; [by inversion Hev|].
    apply for_each_batch in Ef.
    unfold RestoreOutboxEventFromSnapshot, NewOutboxEventID in Er.
    rewrite bool_decide_eq_false_2 in Er by done. simpl in Er. injection Er as <-.
    unfold decodable in Hd. apply orb_false_iff in Hd as [Hty Hun].
    apply negb_false_iff, bool_decide_eq_true in Hty.
    destruct (batch_announced _ _ _ _ _ Ef Hev) as (p & _ & event & tc & Eu & _); [done|].
    simpl in Eu. by rewrite Eu in Hun. }
  unfold Publisher_Start. destruct (Hstep a eq_refl Ht) as (b & E & Hdb & Htb).
  rewrite (bind_ret _ _ _ _ _ E). clear E.
  revert b Hdb Htb. induction events as [|[] events IH]; intros b Hdb Htb; simpl; eauto.
  destruct (Hstep b Hdb Htb) as (c & E & Hdc & Htc). rewrite (bind_ret _ _ _ _ _ E). by apply IH.
Qed.

End Properties.

(** ** The recovery *)

Section Recovery.
Context `{Env}.

Lemma pick_available_runs qs a :
  qs <> [] -> exists q b, pick_available qs a = (Ret q, b) /\ q ∈ qs /\ db b = db a /\ tx b = tx a
    /\ published b = published a.
Proof.
  intros Hq. destruct qs as [|q [|q2 qs]]; [done|by exists q, a; repeat constructor|].
  unfold pick_available, rand_Intn. set (n := Z.of_nat _). assert (Hn : 0 < n) by (subst n; simpl; lia).
  destruct (Z.leb_spec n 0); [lia|]. rewrite (bind_ret _ _ _ _ _ (observe_ret _ _)).
  pose proof (intn_at_range (ticks a) n Hn) as Hi. eexists _, _. split; [done|].
  split; [|by repeat split]. apply list_elem_of_In, nth_In. subst n. lia.
Qed.

(** The message [republish] sends for a task. *)
Definition recovery_message (tc : gmap string string) (t : CrawlTask) : message :=
  MsgCrawl {| MTaskID := value (TID t); MJobID := value (JobID t); MURL := URL t;
              MEnqueuedAt := EnqueuedAt t; MTraceContext := tc |}.

Lemma republish_runs r tc t a :
  (forall n, verdict_at n = Succeeds) -> st_availableQueues r <> [] ->
  exists q b, republish r tc t a = (Ret tt, b) /\ db b = db a /\ tx b = tx a
    /\ published b = published a ++ [(q, recovery_message tc t)] /\ q ∈ st_availableQueues r.
Proof.
  intros Hv Hq. unfold republish.
  destruct (pick_available_runs _ a Hq) as (q & a1 & E & Hin & Hd & Ht & Hp).
  unfold SelectCrawlQueue. rewrite (bind_ret _ _ _ _ _ E). unfold Publish, call, mbind, M_bind. rewrite Hv.
  eexists q, _. split; [done|]. simpl. split; [done|]. split; [done|]. by rewrite Hp.
Qed.

Lemma republish_all r tc ts : forall a,
  (forall n, verdict_at n = Succeeds) -> st_availableQueues r <> [] ->
  exists b l, for_all (republish r tc) ts a = (Ret tt, b) /\ db b = db a /\ tx b = tx a
    /\ published b = published a ++ l
    /\ forall t, t ∈ ts -> exists q, (q, recovery_message tc t) ∈ l /\ q ∈ st_availableQueues r.
Proof.
  induction ts as [|t ts IH]; intros a Hv Hq; cbn [for_all].
  { exists a, []. rewrite app_nil_r. repeat split. intros t Hin. by inversion Hin. }
  destruct (republish_runs r tc t a Hv Hq) as (q & a1 & E & Hd & Ht & Hp & Hqin).
  rewrite (bind_ret _ _ _ _ _ E). destruct (IH a1 Hv Hq) as (b & l & E2 & Hd2 & Ht2 & Hp2 & Hl).
  exists b, ((q, recovery_message tc t) :: l). split; [exact E2|]. split; [congruence|]. split; [congruence|].
  split; [by rewrite Hp2, Hp, <- app_assoc|]. intros t' [->|Hin]%elem_of_cons.
  - exists q. split; [left|done].
  - destruct (Hl t' Hin) as (q' & ? & ?). exists q'. split; [by right|done].
Qed.

(** One poll sends a message for every row of its batch when all of them can be restored. *)
Lemma recover_run r a :
  let rows := stale_rows (clock_at (ticks a) - st_staleThreshold r) (st_batchSize r) (db a) in
  (forall n, verdict_at n = Succeeds) -> tx a = None -> st_availableQueues r <> [] ->
  (forall t, t ∈ rows -> is_ok (RestoreCrawlTaskFromSnapshot t) = true) ->
  exists b l, recover r a = (Ret tt, b) /\ tx b = None /\ db b = db a
    /\ published b = published a ++ l
    /\ forall t, t ∈ rows -> exists q k t', RestoreCrawlTaskFromSnapshot t = Ok t'
         /\ (q, recovery_message (trace_at k) t') ∈ l /\ q ∈ st_availableQueues r.
Proof.
  intros rows Hv Ht Hq Hok.
  destruct (map_res_total RestoreCrawlTaskFromSnapshot rows Hok) as (ts & Ets & Hts).
  unfold recover, time_Now. rewrite (bind_ret _ _ _ _ _ (observe_ret _ _)).
  assert (E : Task_ListStaleInProgress (clock_at (ticks a) - st_staleThreshold r) (st_batchSize r) (tick a)
              = (Ret (Ok ts), tick (tick a))).
  { unfold Task_ListStaleInProgress, scan_all, query, stmt, try_bind, lift_res, mbind, M_bind.
    simpl. rewrite Ht, Hv. simpl. unfold rows in Ets. by rewrite Ets. }
  rewrite (bind_ret _ _ _ _ _ E). destruct ts as [|t0 ts0].
  - exists (tick (tick a)), []. rewrite app_nil_r. repeat (split; [done|]).
    intros t Hin. destruct (Hts t Hin) as (t' & Hnil & _). by inversion Hnil.
  - unfold InjectTraceContext. rewrite (bind_ret _ _ _ _ _ (observe_ret _ _)).
    destruct (republish_all r (trace_at (ticks (tick (tick a)))) (t0 :: ts0) (tick (tick (tick a))) Hv Hq)
      as (b & l & E2 & Hd & Htb & Hp & Hl).
    exists b, l. split; [exact E2|]. split; [by rewrite Htb|]. split; [done|]. split; [done|].
    intros t Hin. destruct (Hts t Hin) as (t' & Ht' & Er). destruct (Hl t' Ht') as (q & ? & ?). eauto 7.
Qed.

(** The recovery wakes up every task that stands still.  When the database and the broker
    answer, one poll publishes for every task that has been in progress for longer than the
    threshold a crawl message with its identifier to one of the configured queues, provided they
    fit in a batch and their rows can be restored; it changes no row. *)
Theorem recovery_republishes r a :
  let cutoff := clock_at (ticks a) - st_staleThreshold r in
  (forall n, verdict_at n = Succeeds) -> tx a = None -> st_availableQueues r <> [] ->
  (forall t, t ∈ tasks (db a) -> is_stale cutoff t = true ->
     is_ok (RestoreCrawlTaskFromSnapshot t) = true) ->
  Z.of_nat (length (bfilter (is_stale cutoff) (tasks (db a)))) <= st_batchSize r ->
  exists b l, recover r a = (Ret tt, b) /\ tx b = None /\ db b = db a
    /\ published b = published a ++ l
    /\ forall t, t ∈ tasks (db a) -> is_stale cutoff t = true ->
         exists q m, (q, MsgCrawl m) ∈ l /\ q ∈ st_availableQueues r /\ MTaskID m = ts_ID t.
Proof.
  intros cutoff Hv Ht Hq Hok Hlen.
  assert (Hin : forall t, t ∈ stale_rows cutoff (st_batchSize r) (db a)
                          <-> t ∈ tasks (db a) /\ is_stale cutoff t = true).
  { intros t. unfold stale_rows, limit_rows. destruct (Z.ltb_spec (st_batchSize r) 0).
    - rewrite elem_of_order_by, elem_of_bfilter. tauto.
    - rewrite take_ge by (rewrite order_by_perm; lia). rewrite elem_of_order_by, elem_of_bfilter. tauto. }
  destruct (recover_run r a Hv Ht Hq) as (b & l & E & Htb & Hd & Hp & Hl).
  { intros t [? ?]%Hin. by apply Hok. }
  exists b, l. repeat (split; [done|]). intros t Hint Hst.
  destruct (Hl t) as (q & k & t' & Er & Hm & Hqin); [by apply Hin|].
  eexists q, _. split; [exact Hm|]. split; [done|]. by apply (restored_row t t' Er).
Qed.

End Recovery.

(** ** Concrete runs *)

#[local] Existing Instances any_uuid plain_env plain_json.

Definition demo_event : TaskEnqueuedEvent :=
  {| EvID := "e1"; EvType := EventTypeTaskEnqueued; EvOccurredAt := 5; EvTaskID := "t1";
     EvJobID := "j1"; EvURL := "http://a.b/"; EvEnqueuedAt := 5; EvTraceContext := ∅;
     EvTargetQueue := "crawl-2" |}.

Definition demo_row (id payload : string) : OutboxEventSnapshot :=
  {| os_ID := id; os_EventType := EventTypeTaskEnqueued; os_AggregateID := "t1";
     os_Payload := payload; os_OccurredAt := 5; os_ProcessedAt := None; os_CreatedAt := 5 |}.

Definition demo_outbox (rows : list OutboxEventSnapshot) : world :=
  world_of {| configs := []; jobs := []; tasks := []; outbox := rows; users := []; tokens := [];
              previews := [] |}.

Definition demo_publisher : OutboxPublisher := NewOutboxPublisher "crawl-1" false.
Definition demo_payload : string := marshal (json_of_event demo_event).

Lemma processed_events_published_witness :
  let a := demo_outbox [demo_row "o1" demo_payload] in
  (tx a = None /\ NoDup (os_ID <$> outbox (db a)))
  /\ exists b, Publisher_Start demo_publisher [TickerFired] a
               = (Ret tt, b) /\ tx b = None.
Proof.
  intros a. assert (Hnd : NoDup (os_ID <$> outbox (db a))) by (apply NoDup_singleton).
  split; [split; [reflexivity|exact Hnd]|].
  destruct (processed_events_published demo_publisher [TickerFired]
              a eq_refl Hnd) as (b & E & Ht & _).
  exists b. split; assumption.
Defined.

Lemma outbox_drains_witness :
  exists b, processOutboxEvents demo_publisher
              (demo_outbox [demo_row "o1" demo_payload]) = (Ret tt, b)
            /\ forall r, r ∈ outbox (db b) -> unprocessed r = false.
Proof.
  destruct (outbox_drains demo_publisher
              (demo_outbox [demo_row "o1" demo_payload])) as (b & E & _ & _ & Hu).
  - reflexivity.
  - reflexivity.
  - reflexivity.
  - intros r ->%list_elem_of_singleton. split; [discriminate|]. intros _. vm_compute. reflexivity.
  - apply NoDup_singleton.
  - vm_compute. discriminate.
  - exists b. split; assumption.
Defined.

Lemma poison_event_blocks_witness :
  let a := demo_outbox [demo_row "o1" demo_payload; demo_row "o2" "xyz"] in
  exists b, Publisher_Start demo_publisher
              [TickerFired; TickerFired] a = (Ret tt, b) /\ db b = db a.
Proof.
  intros a. destruct (poison_event_blocks demo_publisher
              [TickerFired; TickerFired] a (demo_row "o2" "xyz")) as (b & E & Hd & _).
  - reflexivity.
  - right. left.
  - reflexivity.
  - vm_compute. reflexivity.
  - discriminate.
  - reflexivity.
  - vm_compute. discriminate.
  - exists b. split; assumption.
Defined.

(** One task that was enqueued at 2 is looked at with a threshold of 500, at the instant 1000. *)
Lemma recovery_republishes_witness :
  let r := {| st_availableQueues := ["crawl-1"; "crawl-2"]; st_staleThreshold := 500;
              st_batchSize := DefaultStuckTaskBatchSize |} in
  let a := {| db := demo_db; tx := None; objects := ∅; published := []; ticks := 1 |} in
  exists b l, recover r a = (Ret tt, b) /\ published b = l
    /\ exists q m, (q, MsgCrawl m) ∈ l /\ q ∈ ["crawl-1"; "crawl-2"] /\ MTaskID m = "t1".
Proof.
  intros r a. destruct (recovery_republishes r a) as (b & l & E & _ & _ & Hp & Hl).
  - reflexivity.
  - reflexivity.
  - discriminate.
  - intros t ->%list_elem_of_singleton. intros _. vm_compute. reflexivity.
  - vm_compute. discriminate.
  - exists b, l. split; [exact E|]. split; [exact Hp|].
    apply (Hl (SaveCrawlTaskToSnapshot (demo_task TaskStatusInProgress))); [left|].
    vm_compute. reflexivity.
Defined.
