(* ===== verification/GoUrl.v ===== *)
(** * Go's [net/url]

    [url.Parse], [URL.Parse], [ResolveReference], [String] and [Hostname], which the scope
    validator and the workers call, on the bytes of a URL. *)

From S2P Require Import Prelude GoStrings.

Abbreviation chars := (list ascii).

Record url := {
  Scheme : chars; Opaque : chars; UserInfo : option (chars * option chars); Host : chars;
  Path : chars; RawPath : chars; OmitHost : bool; ForceQuery : bool; RawQuery : chars;
  Fragment : chars; RawFragment : chars }.

Definition empty_url : url :=
  {| Scheme := []; Opaque := []; UserInfo := None; Host := []; Path := []; RawPath := [];
     OmitHost := false; ForceQuery := false; RawQuery := []; Fragment := []; RawFragment := [] |}.

(** ** Bytes *)

Definition mem (c : ascii) (s : string) : bool := bool_decide (c ∈ bytes_of s).
Definition is_alpha (c : ascii) : bool := between 65 90 c || between 97 122 c.
Definition is_digit (c : ascii) : bool := between 48 57 c.
Definition is_alnum (c : ascii) : bool := is_alpha c || is_digit c.

Definition unhex (c : ascii) : option nat :=
  if is_digit c then Some (code c - 48)%nat
  else if between 97 102 c then Some (code c - 87)%nat
  else if between 65 70 c then Some (code c - 55)%nat
  else None.

Definition upperhex (n : nat) : ascii := ascii_of_nat (if (n <? 10)%nat then 48 + n else 55 + n)%nat.

Inductive encoding := encodePath | encodeHost | encodeZone | encodeUserPassword | encodeFragment.

Definition is_host_mode (m : encoding) : bool :=
  match m with encodeHost | encodeZone => true | _ => false end.

Definition shouldEscape (c : ascii) (m : encoding) : bool :=
  if is_alnum c then false
  else if is_host_mode m && (mem c "!$&'()*+,;=:[]<>" || bool_decide (code c = 34%nat)) then false
  else if mem c "-_.~" then false
  else if mem c "$&+,/:;=?@" then
    match m with
    | encodePath => mem c "?"
    | encodeUserPassword => mem c "@/?:"
    | encodeFragment => false
    | _ => true
    end
  else if match m with encodeFragment => true | _ => false end && mem c "!()*" then false
  else true.

Definition escape (s : chars) (m : encoding) : chars :=
  s ≫= fun c => if shouldEscape c m
                then ["%"%char; upperhex (code c / 16); upperhex (code c mod 16)]
                else [c].

(** [unescape]; [None] is an [EscapeError] or an [InvalidHostError]. *)
Fixpoint unescape (s : chars) (m : encoding) : option chars :=
  match s with
  | [] => Some []
  | c :: s' =>
      if Ascii.eqb c "%"%char then
        match s' with
        | a :: b :: s'' =>
            match unhex a, unhex b with
            | Some x, Some y =>
                let v := ascii_of_nat (16 * x + y) in
                let is25 := Ascii.eqb a "2"%char && Ascii.eqb b "5"%char in
                let bad :=
                  match m with
                  | encodeHost => (x <? 8)%nat && negb is25
                  | encodeZone => negb is25 && negb (Ascii.eqb v " "%char)
                                  && shouldEscape v encodeHost
                  | _ => false
                  end in
                if bad then None else r ← unescape s'' m; Some (v :: r)
            | _, _ => None
            end
        | _ => None
        end
      else if is_host_mode m && (code c <? 128)%nat && shouldEscape c m then None
      else r ← unescape s' m; Some (c :: r)
  end.

(** [strings.Cut(s, sep)] and the position of the last [sep]. *)
Definition cut (sep : ascii) (s : chars) : chars * chars * bool :=
  match cut_at sep [] s with Some (a, b) => (a, b, true) | None => (s, [], false) end.

Definition last_cut (sep : ascii) (s : chars) : option (chars * chars) :=
  match cut_at sep [] (rev s) with Some (a, b) => Some (rev b, rev a) | None => None end.

Definition starts (p : string) (s : chars) : bool := is_prefix (bytes_of p) s.
Definition has (c : ascii) (s : chars) : bool := existsb (Ascii.eqb c) s.

(** ** Parsing *)

Fixpoint getScheme_at (i : nat) (acc s : chars) : res (option (chars * chars)) :=
  match s with
  | [] => Ok None
  | c :: s' =>
      if is_alpha c then getScheme_at (S i) (c :: acc) s'
      else if is_digit c || mem c "+-." then
        match i with O => Ok None | _ => getScheme_at (S i) (c :: acc) s' end
      else if Ascii.eqb c ":"%char then
        match i with O => Err (ENew "missing protocol scheme") | _ => Ok (Some (rev acc, s')) end
      else Ok None
  end.

Definition getScheme (raw : chars) : res (chars * chars) :=
  o ← getScheme_at 0 [] raw;
  match o with Some p => Ok p | None => Ok ([], raw) end.

Definition validOptionalPort (p : chars) : bool :=
  match p with [] => true | c :: p => Ascii.eqb c ":"%char && forallb is_digit p end.

(** The first "%25" of an IPv6 literal starts its zone. *)
Fixpoint zone_at (acc s : chars) : option (chars * chars) :=
  match s with
  | [] => None
  | c :: s' => if starts "%25" s then Some (rev acc, s) else zone_at (c :: acc) s'
  end.

Definition opt_err {A} (o : option A) (e : string) : res A :=
  match o with Some a => Ok a | None => Err (ENew e) end.

Definition parseHost (host : chars) : res chars :=
  if starts "[" host then
    match last_cut "]"%char host with
    | None => Err (ENew "missing ']' in host")
    | Some (inner, colonPort) =>
        if negb (validOptionalPort colonPort) then Err (ENew "invalid port after host")
        else
          match zone_at [] inner with
          | Some (h1, z) =>
              a ← opt_err (unescape h1 encodeHost) "invalid URL escape";
              b ← opt_err (unescape z encodeZone) "invalid URL escape";
              c ← opt_err (unescape ("]"%char :: colonPort) encodeHost) "invalid URL escape";
              Ok (a ++ b ++ c)
          | None => opt_err (unescape host encodeHost) "invalid URL escape"
          end
    end
  else
    match last_cut ":"%char host with
    | Some (_, port) =>
        if negb (validOptionalPort (":"%char :: port)) then Err (ENew "invalid port after host")
        else opt_err (unescape host encodeHost) "invalid character in host name"
    | None => opt_err (unescape host encodeHost) "invalid character in host name"
    end.

Definition validUserinfo (s : chars) : bool :=
  forallb (fun c => is_alnum c || mem c "-._:~!$&'()*+,;=%@") s.

Definition parseAuthority (authority : chars) : res (option (chars * option chars) * chars) :=
  match last_cut "@"%char authority with
  | None => h ← parseHost authority; Ok (None, h)
  | Some (userinfo, host) =>
      h ← parseHost host;
      if negb (validUserinfo userinfo) then Err (ENew "net/url: invalid userinfo")
      else
        let '(name, pass, found) := cut ":"%char userinfo in
        n ← opt_err (unescape name encodeUserPassword) "invalid URL escape";
        if found then
          p ← opt_err (unescape pass encodeUserPassword) "invalid URL escape";
          Ok (Some (n, Some p), h)
        else Ok (Some (n, None), h)
  end.

Definition setPath (p : chars) (u : url) : res url :=
  path ← opt_err (unescape p encodePath) "invalid URL escape";
  Ok {| Scheme := Scheme u; Opaque := Opaque u; UserInfo := UserInfo u; Host := Host u;
        Path := path;
        RawPath := if bool_decide (p = escape path encodePath) then [] else p;
        OmitHost := OmitHost u; ForceQuery := ForceQuery u; RawQuery := RawQuery u;
        Fragment := Fragment u; RawFragment := RawFragment u |}.

Definition setFragment (f : chars) (u : url) : res url :=
  frag ← opt_err (unescape f encodeFragment) "invalid URL escape";
  Ok {| Scheme := Scheme u; Opaque := Opaque u; UserInfo := UserInfo u; Host := Host u;
        Path := Path u; RawPath := RawPath u; OmitHost := OmitHost u;
        ForceQuery := ForceQuery u; RawQuery := RawQuery u; Fragment := frag;
        RawFragment := if bool_decide (f = escape frag encodeFragment) then [] else f |}.

Definition is_ctl (c : ascii) : bool := (code c <? 32)%nat || (code c =? 127)%nat.

Definition parse_noFragment (raw : chars) : res url :=
  if existsb is_ctl raw then Err (ENew "net/url: invalid control character in URL")
  else if bool_decide (raw = ["*"%char]) then
    Ok {| Scheme := []; Opaque := []; UserInfo := None; Host := []; Path := raw; RawPath := [];
          OmitHost := false; ForceQuery := false; RawQuery := []; Fragment := [];
          RawFragment := [] |}
  else
    sr ← getScheme raw;
    let scheme := lower_char <$> sr.1 in
    let '(rest, query, found) := cut "?"%char sr.2 in
    let force := found && bool_decide (query = []) in
    let mk user host omit :=
      {| Scheme := scheme; Opaque := []; UserInfo := user; Host := host; Path := [];
         RawPath := []; OmitHost := omit; ForceQuery := force; RawQuery := query;
         Fragment := []; RawFragment := [] |} in
    if negb (starts "/" rest) && negb (bool_decide (scheme = [])) then
      Ok {| Scheme := scheme; Opaque := rest; UserInfo := None; Host := []; Path := [];
            RawPath := []; OmitHost := false; ForceQuery := force; RawQuery := query;
            Fragment := []; RawFragment := [] |}
    else if negb (starts "/" rest) && has ":"%char (cut "/"%char rest).1.1 then
      Err (ENew "first path segment in URL cannot contain colon")
    else if (negb (bool_decide (scheme = [])) || negb (starts "///" rest)) && starts "//" rest then
      let auth_rest := drop 2 rest in
      let '(authority, path, slash) := cut "/"%char auth_rest in
      a ← parseAuthority authority;
      setPath (if slash then "/"%char :: path else []) (mk a.1 a.2 false)
    else
      setPath rest (mk None [] (negb (bool_decide (scheme = [])) && starts "/" rest)).

Definition parse_error (raw : chars) (e : gerror) : gerror :=
  EWrap ("parse " +:+ of_bytes raw +:+ ": ") e "".

Definition parse_chars (raw : chars) : res url :=
  let '(u, frag, _) := cut "#"%char raw in
  match parse_noFragment u with
  | Err e => Err (parse_error u e)
  | Ok r =>
      match frag with
      | [] => Ok r
      | _ => match setFragment frag r with Ok r => Ok r | Err e => Err (parse_error raw e) end
      end
  end.

Definition url_Parse (raw : string) : res url := parse_chars (bytes_of raw).

(** ** Printing *)

Definition validEncoded (s : chars) (m : encoding) : bool :=
  forallb (fun c => mem c "!$&'()*+,;=:@[]%" || negb (shouldEscape c m)) s.

Definition EscapedPath (u : url) : chars :=
  let raw := RawPath u in
  if negb (bool_decide (raw = [])) && validEncoded raw encodePath
     && bool_decide (unescape raw encodePath = Some (Path u)) then raw
  else if bool_decide (Path u = ["*"%char]) then Path u
  else escape (Path u) encodePath.

Definition EscapedFragment (u : url) : chars :=
  let raw := RawFragment u in
  if negb (bool_decide (raw = [])) && validEncoded raw encodeFragment
     && bool_decide (unescape raw encodeFragment = Some (Fragment u)) then raw
  else escape (Fragment u) encodeFragment.

Definition user_string (u : chars * option chars) : chars :=
  escape u.1 encodeUserPassword
  ++ match u.2 with None => [] | Some p => ":"%char :: escape p encodeUserPassword end.

Definition url_chars (u : url) : chars :=
  let scheme := match Scheme u with [] => [] | s => s ++ [":"%char] end in
  let body :=
    match Opaque u with
    | [] =>
        let no_host := bool_decide (Host u = []) in
        let no_user := bool_decide (UserInfo u = None) in
        let authority :=
          if bool_decide (Scheme u = []) && no_host && no_user then []
          else if OmitHost u && no_host && no_user then []
          else (if negb no_host || negb (bool_decide (Path u = [])) || negb no_user
                then bytes_of "//" else [])
               ++ match UserInfo u with None => [] | Some i => user_string i ++ ["@"%char] end
               ++ escape (Host u) encodeHost in
        let path := EscapedPath u in
        let slash := if negb (bool_decide (path = [])) && negb (starts "/" path) && negb no_host
                     then ["/"%char] else [] in
        let before := scheme ++ authority ++ slash in
        let dot := match before with
                   | [] => if has ":"%char (cut "/"%char path).1.1 then bytes_of "./" else []
                   | _ => []
                   end in
        authority ++ slash ++ dot ++ path
    | o => o
    end in
  scheme ++ body
  ++ (if ForceQuery u || negb (bool_decide (RawQuery u = [])) then "?"%char :: RawQuery u else [])
  ++ match Fragment u with [] => [] | _ => "#"%char :: EscapedFragment u end.

Definition url_String (u : url) : string := of_bytes (url_chars u).

(** [u.Hostname()]: the host without port and without the brackets of an IPv6 literal. *)
Definition Hostname (u : url) : string :=
  let h := match last_cut ":"%char (Host u) with
           | Some (h, p) => if validOptionalPort (":"%char :: p) then h else Host u
           | None => Host u
           end in
  of_bytes (if starts "[" h && bool_decide (last h = Some "]"%char)
            then removelast (tail h) else h).

(** ** References *)

(** The loop of [resolvePath] over the elements; [dst] is what is written after the first "/". *)
Fixpoint resolve_elems (first : bool) (dst : chars) (elems : list chars) : bool * chars :=
  match elems with
  | [] => (first, dst)
  | e :: elems =>
      if bool_decide (e = bytes_of ".") then resolve_elems false dst elems
      else if bool_decide (e = bytes_of "..") then
        match last_cut "/"%char dst with
        | None => resolve_elems true [] elems
        | Some (d, _) => resolve_elems first d elems
        end
      else resolve_elems false (dst ++ (if first then [] else ["/"%char]) ++ e) elems
  end.

Definition resolvePath (base ref : chars) : chars :=
  let full :=
    match ref with
    | [] => base
    | c :: _ => if Ascii.eqb c "/"%char then ref
                else match last_cut "/"%char base with
                     | Some (b, _) => b ++ ["/"%char] ++ ref
                     | None => ref
                     end
    end in
  match full with
  | [] => []
  | _ =>
      let elems := split_on "/"%char [] full in
      let dst := (resolve_elems true [] elems).2 in
      let e := List.last elems [] in
      let dst := if bool_decide (e = bytes_of ".") || bool_decide (e = bytes_of "..")
                 then dst ++ ["/"%char] else dst in
      if starts "/" dst then dst else "/"%char :: dst
  end.

(** The fields [ResolveReference] replaces; [setPath] of an escaped path does not fail, and if it
    did the path would stay as it was. *)
Definition with_path (p : chars) (u : url) : url :=
  match setPath p u with Ok u' => u' | Err _ => u end.

Definition ResolveReference (u ref : url) : url :=
  let scheme := match Scheme ref with [] => Scheme u | s => s end in
  let mk opaque user host path query frag rfrag :=
    {| Scheme := scheme; Opaque := opaque; UserInfo := user; Host := host; Path := path;
       RawPath := RawPath ref; OmitHost := OmitHost ref; ForceQuery := ForceQuery ref;
       RawQuery := query; Fragment := frag; RawFragment := rfrag |} in
  if negb (bool_decide (Scheme ref = [])) || negb (bool_decide (Host ref = []))
     || negb (bool_decide (UserInfo ref = None)) then
    with_path (resolvePath (EscapedPath ref) [])
      (mk (Opaque ref) (UserInfo ref) (Host ref) (Path ref) (RawQuery ref) (Fragment ref)
          (RawFragment ref))
  else if negb (bool_decide (Opaque ref = [])) then
    mk (Opaque ref) None [] [] (RawQuery ref) (Fragment ref) (RawFragment ref)
  else
    let inherit := bool_decide (Path ref = []) && negb (ForceQuery ref)
                   && bool_decide (RawQuery ref = []) in
    let query := if inherit then RawQuery u else RawQuery ref in
    let keepf := inherit && bool_decide (Fragment ref = []) in
    let frag := if keepf then Fragment u else Fragment ref in
    let rfrag := if keepf then RawFragment u else RawFragment ref in
    if bool_decide (Path ref = []) && negb (bool_decide (Opaque u = [])) then
      mk (Opaque u) None [] [] query frag rfrag
    else
      with_path (resolvePath (EscapedPath u) (EscapedPath ref))
        (mk [] (UserInfo u) (Host u) (Path ref) query frag rfrag).

(** [u.Parse(ref)]. *)
Definition url_ParseRef (u : url) (ref : string) : res url :=
  r ← url_Parse ref; Ok (ResolveReference u r).

(** ** Examples from the documentation of [net/url] *)

Definition parse_print (s : string) : string :=
  match url_Parse s with Ok u => url_String u | Err e => "!" +:+ Error e end.
Definition resolve (b r : string) : string :=
  match url_Parse b with
  | Ok u => match url_ParseRef u r with Ok v => url_String v | Err e => "!" +:+ Error e end
  | Err e => "!" +:+ Error e
  end.

Example parse_print_1 : parse_print "http://bing.com/search?q=dotnet" = "http://bing.com/search?q=dotnet".
Proof. vm_compute. reflexivity. Qed.
Example parse_print_2 : parse_print "HTTP://Me:p%40ss@[::1]:80/a%2fb?x#y z" = "http://Me:p%40ss@[::1]:80/a%2fb?x#y%20z".
Proof. vm_compute. reflexivity. Qed.
Example resolve_1 : resolve "http://example.com/directory/" "../../..//search?q=dotnet" = "http://example.com/search?q=dotnet".
Proof. vm_compute. reflexivity. Qed.
Example resolve_2 : resolve "http://a/b/c/d;p?q" "../g" = "http://a/b/g".
Proof. vm_compute. reflexivity. Qed.
Example resolve_3 : resolve "http://a/b/c/d;p?q" "//g" = "http://g".
Proof. vm_compute. reflexivity. Qed.
Example resolve_4 : resolve "http://a/b/c/d;p?q" "?y" = "http://a/b/c/d;p?y".
Proof. vm_compute. reflexivity. Qed.
Example resolve_5 : resolve "http://a/b/c/d;p?q" "../../../g" = "http://a/g".
Proof. vm_compute. reflexivity. Qed.
Example resolve_6 : resolve "http://a/b/c/d;p?q" "mailto:x@y" = "mailto:x@y".
Proof. vm_compute. reflexivity. Qed.
Example resolve_7 : resolve "http://a/b/c/d;p?q" "./" = "http://a/b/c/".
Proof. vm_compute. reflexivity. Qed.
