(* ===== verification/Scope.v ===== *)
(** * Scope rules

    [models/scoperules.go] and [services/fetcher/scope_validator.go].  Deny patterns are regular
    expressions of the user, matched by [regexp.MatchString], a parameter; the wildcard patterns
    compile to anchored expressions of literals and ".*" only, whose matching is written out. *)

From S2P Require Import Prelude GoStrings Domain GoUrl.

(** [regexp.MatchString(pattern, s)]. *)
Class RegexpLib := { regexp_MatchString : string -> string -> res bool }.

(** ** Wildcard patterns *)

Inductive rtok :=
| RLit (c : ascii)
| RAny.                                (* ".*" *)

(** The text given to [regexp.Compile]. *)
Definition regexPattern (pattern : string) : chars :=
  ["^"%char]
  ++ replace2 backslash star_char (bytes_of ".*") (bytes_of (QuoteMeta pattern))
  ++ ["$"%char].

(** [regexp.Compile] on texts of literals, escaped bytes and ".*"; any other metacharacter is
    outside this fragment. *)
Fixpoint compile_toks (t : chars) : option (list rtok) :=
  match t with
  | [] => Some []
  | a :: t1 =>
      if bool_decide (a = backslash) then
        match t1 with b :: t' => r ← compile_toks t'; Some (RLit b :: r) | [] => None end
      else if bool_decide (a = "."%char) then
        match t1 with
        | b :: t' => if bool_decide (b = star_char) then r ← compile_toks t'; Some (RAny :: r) else None
        | [] => None
        end
      else if special a then None
      else r ← compile_toks t1; Some (RLit a :: r)
  end.

Definition regexp_Compile (t : chars) : res (list rtok) :=
  if negb (utf8_valid t) then Err (ENew "error parsing regexp: invalid UTF-8")
  else
    match t with
    | a :: t =>
        if bool_decide (a = "^"%char) && bool_decide (last t = Some "$"%char)
        then opt_err (compile_toks (removelast t)) "error parsing regexp"
        else Err (ENew "error parsing regexp")
    | [] => Err (ENew "error parsing regexp")
    end.

Definition CompileAllowedURLPattern (pattern : string) : res (option (list rtok)) :=
  let pattern := TrimSpace pattern in
  if bool_decide (pattern = "") then Ok None
  else r ← regexp_Compile (regexPattern pattern); Ok (Some r).

Fixpoint CompileAllowedURLPatterns (patterns : list string) : res (list (list rtok)) :=
  match patterns with
  | [] => Ok []
  | p :: patterns =>
      re ← CompileAllowedURLPattern p;
      rest ← CompileAllowedURLPatterns patterns;
      Ok (match re with Some re => re :: rest | None => rest end)
  end.

(** [re.MatchString(s)] of a compiled wildcard pattern; "." does not match a newline. *)
Fixpoint match_toks (r : list rtok) : chars -> bool :=
  match r with
  | [] => fun s => match s with [] => true | _ => false end
  | RLit c :: r => fun s => match s with d :: s' => bool_decide (c = d) && match_toks r s' | [] => false end
  | RAny :: r =>
      fix go (s : chars) : bool :=
        match_toks r s
        || match s with d :: s' => negb (bool_decide (d = newline)) && go s' | [] => false end
  end.

Definition MatchString (r : list rtok) (s : string) : bool := match_toks r (bytes_of s).

(** The test on a link of the parser worker: no pattern means no restriction. *)
Definition allowed_url (patterns : list (list rtok)) (link : string) : bool :=
  match patterns with [] => true | _ => existsb (fun p => MatchString p link) patterns end.

(** ** scope_validator.go *)

Section Validate.
Context `{RegexpLib}.

Definition domain_allowed (host domain : string) : bool :=
  bool_decide (host = domain) || HasSuffix host ("." +:+ domain).

Fixpoint check_denied (patterns : list string) (urlStr : string) : res unit :=
  match patterns with
  | [] => Ok tt
  | pattern :: patterns =>
      match regexp_MatchString pattern urlStr with
      | Err e => Err (EWrap ("invalid deny pattern " +:+ pattern +:+ ": ") e "")
      | Ok true => Err (ENew ("URL matches denied pattern: " +:+ pattern))
      | Ok false => check_denied patterns urlStr
      end
  end.

Definition Validate (urlStr : string) (depth : Z) (rules : ScopeRules) : res unit :=
  if MaxDepth rules <? depth then
    Err (ENew ("depth " +:+ pretty depth +:+ " exceeds max depth " +:+ pretty (MaxDepth rules)))
  else
    match url_Parse urlStr with
    | Err e => Err (Errorf "invalid URL" e)
    | Ok parsedURL =>
        let host := of_bytes (Host parsedURL) in
        if negb (bool_decide (AllowedDomains rules = []))
           && negb (existsb (domain_allowed host) (AllowedDomains rules)) then
          Err (ENew ("domain " +:+ host +:+ " not in allowed domains"))
        else check_denied (DenyUrlPatterns rules) urlStr
    end.

End Validate.

(** ** Properties *)

(** What a wildcard pattern means: "*" stands for any text on one line, every other byte for
    itself. *)
Inductive glob : chars -> chars -> Prop :=
| glob_nil : glob [] []
| glob_lit c p s : c <> star_char -> glob p s -> glob (c :: p) (c :: s)
| glob_star p u s : Forall (fun d => d <> newline) u -> glob p s -> glob (star_char :: p) (u ++ s).

(** The tokens of a pattern. *)
Definition tokens (p : chars) : list rtok :=
  (fun c => if bool_decide (c = star_char) then RAny else RLit c) <$> p.

Lemma special_star : special star_char = true.
Proof. by vm_compute. Qed.

Lemma special_backslash : special backslash = true.
Proof. by vm_compute. Qed.

Lemma replace2_skip x y new a l :
  a <> x \/ head l <> Some y -> replace2 x y new (a :: l) = a :: replace2 x y new l.
Proof.
  intros Ha. destruct l as [|b l]; [done|]. simpl.
  assert (E : bool_decide (a = x) && bool_decide (b = y) = false).
  { apply andb_false_iff. destruct Ha as [Ha|Hb]; [left|right]; apply bool_decide_eq_false_2; [done|].
    simpl in Hb. congruence. }
  by rewrite E.
Qed.

Lemma quote_meta_head p : head (quote_meta p) <> Some star_char.
Proof.
  destruct p as [|c p]; [done|]. simpl. destruct (special c) eqn:Hc; simpl; [done|].
  intros [= ->]. by rewrite special_star in Hc.
Qed.

(** Quoting, opening the stars and compiling gives the tokens of the pattern. *)
Lemma compile_quoted p :
  compile_toks (replace2 backslash star_char (bytes_of ".*") (quote_meta p)) = Some (tokens p).
Proof.
  induction p as [|c p IH]; [done|].
  unfold tokens in *. rewrite fmap_cons. simpl quote_meta.
  destruct (special c) eqn:Hs.
  - case_bool_decide as Hc.
    + subst c. change (replace2 backslash star_char (bytes_of ".*")
                         (backslash :: star_char :: quote_meta p))
        with ("."%char :: star_char ::
              replace2 backslash star_char (bytes_of ".*") (quote_meta p)).
      change (compile_toks ("."%char :: star_char ::
                replace2 backslash star_char (bytes_of ".*") (quote_meta p)))
        with (r ← compile_toks (replace2 backslash star_char (bytes_of ".*") (quote_meta p));
              Some (RAny :: r)).
      by rewrite IH.
    + rewrite replace2_skip by (right; simpl; congruence).
      rewrite replace2_skip by (right; apply quote_meta_head).
      cbn [compile_toks]. rewrite bool_decide_eq_true_2 by done. by rewrite IH.
  - assert (Hb : c <> backslash) by (intros ->; by rewrite special_backslash in Hs).
    rewrite replace2_skip by (by left). cbn [compile_toks].
    rewrite bool_decide_eq_false_2 by done.
    rewrite (bool_decide_eq_false_2 (c = "."%char)) by (intros ->; by vm_compute in Hs).
    rewrite Hs, IH. rewrite bool_decide_eq_false_2; [done|].
    intros ->. by rewrite special_star in Hs.
Qed.

Lemma match_glob p s : match_toks (tokens p) s = true <-> glob p s.
Proof.
  revert s. induction p as [|c p IH]; intros s.
  - split; [destruct s; [constructor|done]|by inversion 1].
  - unfold tokens in *. rewrite fmap_cons. case_bool_decide as Hc.
    + subst. split.
      * induction s as [|d s IHs]; simpl; rewrite orb_true_iff.
        { intros [Hm|?]; [|done]. apply (glob_star p [] []); [constructor|by apply IH]. }
        intros [Hm|[Hd Hm]%andb_true_iff].
        { apply (glob_star p [] (d :: s)); [constructor|by apply IH]. }
        apply negb_true_iff, bool_decide_eq_false in Hd.
        specialize (IHs Hm). inversion IHs as [|? ? ? Hne|p' u s' Hu Hg]; subst; [done|].
        apply (glob_star p (d :: u) s'); [by constructor|done].
      * inversion 1 as [|? ? ? Hne|p' u s' Hu Hg]; subst; [done|].
        induction u as [|d u IHu]; simpl.
        { apply IH in Hg. destruct s'; simpl; by rewrite Hg. }
        apply Forall_cons in Hu as [Hd Hu]. apply orb_true_iff. right.
        rewrite bool_decide_eq_false_2 by done. apply IHu; [by constructor|done].
    + simpl. destruct s as [|d s]; [split; [done|by inversion 1]|].
      rewrite andb_true_iff, bool_decide_eq_true, IH. split.
      * intros [-> Hg]. by constructor.
      * inversion 1; subst; done.
Qed.

(** The text of a pattern, byte by byte. *)
Definition expand (c : ascii) : chars :=
  if bool_decide (c = star_char) then bytes_of ".*"
  else if special c then [backslash; c] else [c].

Lemma replace_quoted p :
  replace2 backslash star_char (bytes_of ".*") (quote_meta p) = p ≫= expand.
Proof.
  induction p as [|c p IH]; [done|]. simpl mbind. unfold expand at 1. simpl quote_meta.
  case_bool_decide as Hc.
  - subst c. rewrite special_star.
    change (bytes_of ".*" ++ replace2 backslash star_char (bytes_of ".*") (quote_meta p)
            = bytes_of ".*" ++ (p ≫= expand)). by rewrite IH.
  - destruct (special c) eqn:Hs.
    + rewrite replace2_skip by (right; simpl; congruence).
      rewrite replace2_skip by (right; apply quote_meta_head). by rewrite IH.
    + rewrite replace2_skip by (left; intros ->; by rewrite special_backslash in Hs).
      by rewrite IH.
Qed.

Lemma special_ascii c : special c = true -> between 0 127 c = true.
Proof.
  unfold special. rewrite bool_decide_eq_true. simpl.
  intros Hc. repeat (apply elem_of_cons in Hc as [->|Hc]; [done|]). by inversion Hc.
Qed.

Lemma expand_high c : between 0 127 c = false -> expand c = [c].
Proof.
  intros Hc. unfold expand. rewrite bool_decide_eq_false_2 by (intros ->; done).
  destruct (special c) eqn:Hs; [|done]. apply special_ascii in Hs. congruence.
Qed.

Lemma high_of (c : ascii) lo hi : (128 <= lo)%nat -> between lo hi c = true -> between 0 127 c = false.
Proof.
  unfold between. rewrite andb_true_iff, !Nat.leb_le, andb_false_iff, !Nat.leb_gt. lia.
Qed.

Lemma high_cont c : cont c = true -> between 0 127 c = false.
Proof. apply (high_of c 128 191). lia. Qed.

Lemma utf8_ascii c l : between 0 127 c = true -> utf8_valid (c :: l) = utf8_valid l.
Proof. intros Hc. simpl. by rewrite Hc. Qed.

Lemma utf8_expand_ascii c l : between 0 127 c = true -> utf8_valid (expand c ++ l) = utf8_valid l.
Proof.
  intros Hc. unfold expand. case_bool_decide; [done|]. destruct (special c); simpl; by rewrite Hc.
Qed.

Lemma high_three a b :
  (if (code a =? 224)%nat then between 160 191 b
   else if (code a =? 237)%nat then between 128 159 b else cont b) = true ->
  between 0 127 b = false.
Proof.
  repeat case_match; [apply high_of; lia..|apply high_cont].
Qed.

Lemma high_four a b :
  (if (code a =? 240)%nat then between 144 191 b
   else if (code a =? 244)%nat then between 128 143 b else cont b) = true ->
  between 0 127 b = false.
Proof.
  repeat case_match; [apply high_of; lia..|apply high_cont].
Qed.

(** Quoting a valid text and closing it with ASCII gives a valid text. *)
Lemma utf8_expand s p :
  utf8_valid p = true -> utf8_valid s = true -> utf8_valid ((p ≫= expand) ++ s) = true.
Proof.
  intros Hp Hs. remember (length p) as n eqn:Hn. revert p Hn Hp.
  induction (lt_wf n) as [n _ IH]. intros [|a l1] -> Hp; [done|]. rewrite bind_cons.
  destruct (between 0 127 a) eqn:Ha.
  { rewrite <- app_assoc, utf8_expand_ascii by done. rewrite utf8_ascii in Hp by done.
    apply (IH (length l1)); simpl; auto. }
  rewrite (expand_high a Ha). simpl in Hp. rewrite Ha in Hp.
  destruct l1 as [|b l2]; [done|]. rewrite bind_cons.
  destruct (between 194 223 a) eqn:H2.
  { apply andb_true_iff in Hp as [Hb Hp]. rewrite (expand_high b (high_cont _ Hb)). simpl.
    rewrite Ha, H2, Hb. simpl. apply (IH (length l2)); simpl; auto. }
  destruct l2 as [|c l3]; [done|]. rewrite bind_cons. destruct (between 224 239 a) eqn:H3.
  { rewrite !andb_true_iff in Hp. destruct Hp as [[Hb Hc] Hp].
    rewrite (expand_high b (high_three _ _ Hb)), (expand_high c (high_cont _ Hc)). simpl.
    rewrite Ha, H2, H3, Hb, Hc. simpl. apply (IH (length l3)); simpl; auto. }
  destruct l3 as [|d l4]; [done|]. rewrite bind_cons.
  rewrite !andb_true_iff in Hp. destruct Hp as [[[[H4 Hb] Hc] Hd] Hp].
  rewrite (expand_high b (high_four _ _ Hb)), (expand_high c (high_cont _ Hc)),
    (expand_high d (high_cont _ Hd)). simpl.
  rewrite Ha, H2, H3, H4, Hb, Hc, Hd. simpl. apply (IH (length l4)); simpl; auto.
Qed.

Lemma compile_pattern p :
  utf8_valid (bytes_of p) = true -> regexp_Compile (regexPattern p) = Ok (tokens (bytes_of p)).
Proof.
  intros Hp. unfold regexp_Compile, regexPattern, QuoteMeta. rewrite bytes_of_bytes, replace_quoted.
  assert (Hu : utf8_valid (["^"%char] ++ (bytes_of p ≫= expand) ++ ["$"%char]) = true)
    by (simpl app; rewrite utf8_ascii by done; by apply utf8_expand).
  rewrite Hu. cbn [negb app]. cbv iota.
  rewrite last_snoc, removelast_last, <- replace_quoted, compile_quoted. done.
Qed.

(** Wildcard patterns.  A pattern that is blank is ignored; any other pattern that is valid
    UTF-8 compiles, whatever characters it holds, and the expression matches exactly the URLs the
    wildcard describes from the first byte to the last, "*" being any text without a line
    break. *)
Theorem CompileAllowedURLPattern_spec pattern :
  utf8_valid (bytes_of (TrimSpace pattern)) = true ->
  (TrimSpace pattern = "" -> CompileAllowedURLPattern pattern = Ok None)
  /\ (TrimSpace pattern <> "" ->
      exists re, CompileAllowedURLPattern pattern = Ok (Some re)
        /\ forall s, MatchString re s = true <-> glob (bytes_of (TrimSpace pattern)) (bytes_of s)).
Proof.
  intros Hu. unfold CompileAllowedURLPattern. split.
  - intros ->. done.
  - intros Hne. rewrite bool_decide_eq_false_2 by done. rewrite (compile_pattern _ Hu).
    exists (tokens (bytes_of (TrimSpace pattern))). split; [done|]. intros s. apply match_glob.
Qed.

Lemma CompileAllowedURLPattern_spec_witness :
  utf8_valid (bytes_of (TrimSpace " https://a.b/*?x=[1] ")) = true
  /\ exists re, CompileAllowedURLPattern " https://a.b/*?x=[1] " = Ok (Some re)
     /\ (MatchString re "https://a.b/c/d?x=[1]" = true
         <-> glob (bytes_of (TrimSpace " https://a.b/*?x=[1] ")) (bytes_of "https://a.b/c/d?x=[1]")).
Proof.
  split; [vm_compute; reflexivity|].
  destruct (CompileAllowedURLPattern_spec " https://a.b/*?x=[1] ") as [_ Hc];
    [vm_compute; reflexivity|].
  destruct Hc as (re & E & Hm); [vm_compute; discriminate|]. exists re. split; [exact E|apply Hm].
Defined.

Section ValidateProperties.
Context `{RegexpLib}.

Lemma check_denied_ok patterns u :
  check_denied patterns u = Ok tt <->
  Forall (fun p => regexp_MatchString p u = Ok false) patterns.
Proof.
  induction patterns as [|p ps IH]; simpl; [by split|].
  rewrite Forall_cons, <- IH. destruct (regexp_MatchString p u) as [[]|e]; split; try done;
    intros [? ?]; done.
Qed.

(** A host is within a domain: the domain itself or a name that ends with a dot and the domain. *)
Definition within_domain (host domain : string) : Prop :=
  host = domain \/ exists sub, host = sub +:+ "." +:+ domain.

(** What [Validate] accepts. *)
Lemma Validate_ok_iff u depth rules :
  Validate u depth rules = Ok tt <->
  depth <= MaxDepth rules
  /\ exists p, url_Parse u = Ok p
     /\ (AllowedDomains rules = []
         \/ exists d, d ∈ AllowedDomains rules /\ within_domain (of_bytes (Host p)) d)
     /\ Forall (fun pat => regexp_MatchString pat u = Ok false) (DenyUrlPatterns rules).
Proof.
  unfold Validate. destruct (Z.ltb_spec (MaxDepth rules) depth).
  { split; [done|]. intros [? _]. lia. }
  destruct (url_Parse u) as [p|e] eqn:Ep; [|split; [done|intros (_ & p & ? & _); congruence]].
  set (host := of_bytes (Host p)).
  assert (Hd : negb (bool_decide (AllowedDomains rules = []))
               && negb (existsb (domain_allowed host) (AllowedDomains rules)) = false
               <-> AllowedDomains rules = []
                   \/ exists d, d ∈ AllowedDomains rules /\ within_domain host d).
  { rewrite andb_false_iff, !negb_false_iff, bool_decide_eq_true, existsb_exists.
    apply or_iff_compat_l. split; intros (d & Hin & Hd); exists d;
      (split; [by apply list_elem_of_In|]); unfold domain_allowed, within_domain in *;
      rewrite ?orb_true_iff, ?bool_decide_eq_true, ?HasSuffix_spec in *; done. }
  split.
  - intros E. split; [lia|]. exists p. split; [done|].
    destruct (negb (bool_decide (AllowedDomains rules = []))
               && negb (existsb (domain_allowed host) (AllowedDomains rules))); [done|].
    split; [by apply Hd|by apply check_denied_ok].
  - intros (_ & p' & [= <-] & Hdom & Hden). apply Hd in Hdom. rewrite Hdom.
    by apply check_denied_ok.
Qed.

End ValidateProperties.

(** C36: scope.  A URL is in scope exactly when its depth is at most the maximum, it parses, its
    host (with the port, if it names one) is an allowed domain or a subdomain of one whenever
    domains are listed, and no deny pattern matches; an unusable deny pattern puts every URL out
    of scope. *)
Theorem Validate_spec `{RegexpLib} u depth rules :
  Validate u depth rules = Ok tt <->
  depth <= MaxDepth rules
  /\ exists p, url_Parse u = Ok p
     /\ (AllowedDomains rules = []
         \/ exists d, d ∈ AllowedDomains rules /\ within_domain (of_bytes (Host p)) d)
     /\ Forall (fun pat => regexp_MatchString pat u = Ok false) (DenyUrlPatterns rules).
Proof. apply Validate_ok_iff. Qed.

(** A matcher that never matches, for concrete runs. *)
Definition no_regexp : RegexpLib := {| regexp_MatchString _ _ := Ok false |}.

Example Validate_port :
  @Validate no_regexp "http://example.com:8080/" 0
    {| MaxDepth := 1; AllowedDomains := ["example.com"]; DenyUrlPatterns := [];
       AllowedURLPatterns := [] |}
  = Err (ENew "domain example.com:8080 not in allowed domains").
Proof. vm_compute. reflexivity. Qed.
