(* ===== verification/FetchWorker.v ===== *)
(** * The fetch worker

    [worker/fetch_worker.go]: one crawl message is checked against the scope, robots.txt and the
    rate limit, its page is fetched and stored, the task is marked and the parsing message is
    published.  The services it calls are the class [FetchServices]; they may read clocks and fail,
    and leave the database, the object store and the broker alone. *)

From S2P Require Import Prelude GoStrings Domain Json Converters World Sql Repos GoUrl Scope.

Record FetchResult := {
  Body : string; ContentType : string; StatusCode : Z; ResFinalURL : string }.

(** Two worlds that differ at most in the count of calls. *)
Definition same_store (a b : world) : Prop :=
  db b = db a /\ tx b = tx a /\ objects b = objects a /\ published b = published a.

#[export] Instance same_store_preorder : PreOrder same_store.
Proof.
  split; [by intros a|]. intros a b c (?&?&?&?) (?&?&?&?). repeat split; congruence.
Qed.

(** [RobotsTxtService.IsAllowed]. *)
Class RobotsTxtService `{Env} := {
  robots_IsAllowed : string -> string -> M (res bool);
  robots_keeps u a : keeps same_store (robots_IsAllowed u a) }.

(** [RateLimiter.Allow] and the [Fetch] of the fetcher the factory creates. *)
Class FetchServices `{RobotsTxtService} := {
  ratelimit_Allow : CrawlJobConfig -> string -> string -> M (res (bool * Z));
  fetcher_Fetch : AuthOptions -> RetryPolicy -> string -> M (res FetchResult);
  ratelimit_keeps c k h : keeps same_store (ratelimit_Allow c k h);
  fetcher_keeps a r u : keeps same_store (fetcher_Fetch a r u) }.

Definition userAgent : string :=
  "Mozilla/5.0 (Windows NT 10.0; Win64; x64) AppleWebKit/537.36 (KHTML, like Gecko) Chrome/120.0.0.0 Safari/537.36".

(** [extractDomain] and [categorizeError], the labels of the metrics. *)
Definition extractDomain (rawURL : string) : string :=
  match url_Parse rawURL with
  | Err _ => "unknown"
  | Ok parsed => let host := Hostname parsed in
                 if bool_decide (host = "") then "unknown" else host
  end.

Definition categorizeError (err : gerror) : string :=
  let errStr := ToLower (Error err) in
  if Contains errStr "timeout" then "timeout"
  else if Contains errStr "connection refused" then "connection_refused"
  else if Contains errStr "no such host" then "dns_error"
  else if Contains errStr "permanent error" then "permanent"
  else if Contains errStr "403" || Contains errStr "forbidden" then "http_403"
  else if Contains errStr "404" || Contains errStr "not found" then "http_404"
  else if Contains errStr "5" then "http_5xx"
  else "other".

Section FetchWorker.
Context `{FetchServices, RegexpLib, JsonLib}.

Record FetchWorker := { fw_crawlQueues : list string; fw_parsingQueue : string }.

Definition minio_key (jobID taskID : string) : string :=
  "pages/" +:+ jobID +:+ "/" +:+ taskID +:+ ".html".

Definition isPermanent (err : gerror) : bool := Contains (Error err) "permanent error".
Definition retriesExhausted (err : gerror) : bool :=
  Contains (Error err) "failed after" && Contains (Error err) "attempts".

(** [task.MarkAsFailed(reason)] and the update of its row; the message is acknowledged. *)
Definition fail_task (task : CrawlTask) (reason : string) : M (res unit) :=
  try _ <- Task_Update (MarkAsFailed reason task)
    else e => ret_err (Errorf "failed to update task status" e);
  ret_ok tt.

(** The host whose rate is limited. *)
Definition rate_host (rawURL : string) : res string :=
  match url_Parse rawURL with
  | Err e => Err (Errorf "invalid url for rate limiting" e)
  | Ok parsedURL =>
      if bool_decide (Host parsedURL = []) then
        Err (Errorf "invalid url for rate limiting" (ENew "missing host"))
      else
        let host := Hostname parsedURL in
        Ok (if bool_decide (host = "") then of_bytes (Host parsedURL) else host)
  end.

(** Rate limiting: one wait and one retry. *)
Definition wait_rate (config : CrawlJobConfig) (host : string) : M (res unit) :=
  try allow <- ratelimit_Allow config "domain" host
    else e => ret_err (Errorf "failed to check rate limit" e);
  if negb allow.1 then
    try allow <- ratelimit_Allow config "domain" host
      else e => ret_err (Errorf "failed to check rate limit after retry" e);
    if negb allow.1 then ret_err (ENew "still rate limited after waiting") else ret_ok tt
  else ret_ok tt.

(** The robots.txt check: [false] when the URL is disallowed; an error allows it. *)
Definition robots_ok (config : CrawlJobConfig) (link : string) : M bool :=
  if RespectRobotsTxt config then
    r ← robots_IsAllowed link userAgent;
    mret (match r with Ok allowed => allowed | Err _ => true end)
  else mret true.

(** From the fetched page to the parsing message. *)
Definition store_and_publish (w : FetchWorker) (taskMsg : CrawlTaskMessage) (task : CrawlTask)
    (fetchResult : FetchResult) : M (res unit) :=
  let minioKey := minio_key (value (JobID task)) (MTaskID taskMsg) in
  try _ <- Store minioKey (Body fetchResult)
    else e => ret_err (Errorf "failed to store content to MinIO" e);
  try _ <- Task_Update (MarkAsFetched (ResFinalURL fetchResult) minioKey task)
    else e => ret_err (Errorf "failed to update task" e);
  now ← time_Now;
  traceCtx ← InjectTraceContext;
  try _ <- Publish (fw_parsingQueue w) (MsgParsing
        {| PTaskID := MTaskID taskMsg; PJobID := MJobID taskMsg; PEnqueuedAt := now;
           PTraceContext := traceCtx |})
    else e => ret_err (Errorf "failed to publish to parsing queue" e);
  ret_ok tt.

(** The fetch and what becomes of its error. *)
Definition fetch_page (w : FetchWorker) (taskMsg : CrawlTaskMessage) (task : CrawlTask)
    (config : CrawlJobConfig) : M (res unit) :=
  try fetchResult <- fetcher_Fetch (Auth config) (Retries config) (URL task)
    else err => (if isPermanent err || retriesExhausted err
                 then fail_task task ("fetch failed: " +:+ Error err)
                 else ret_err (Errorf "failed to fetch page" err));
  store_and_publish w taskMsg task fetchResult.

(** The checks on a task before its page is fetched. *)
Definition process_task (w : FetchWorker) (taskMsg : CrawlTaskMessage) (task : CrawlTask)
    (config : CrawlJobConfig) : M (res unit) :=
  match Validate (URL task) (Depth task) (Scopes config) with
  | Err err => fail_task task ("scope validation failed: " +:+ Error err)
  | Ok _ =>
      allowed ← robots_ok config (URL task);
      if negb allowed then fail_task task "URL disallowed by robots.txt"
      else
        try host <- lift_res (rate_host (URL task));
        try _ <- wait_rate config host;
        fetch_page w taskMsg task config
  end.

Definition handleMessage (w : FetchWorker) (body : string) : M (res unit) :=
  try taskMsg <- lift_res (Unmarshal crawl_msg_of_json body)
    else e => ret_err (Errorf "failed to unmarshal task" e);
  try taskID <- lift_res (NewID (MTaskID taskMsg))
    else e => ret_err (Errorf "invalid task ID" e);
  try task <- Task_Get taskID
    else e => (if errors_Is e "pgx.ErrNoRows" then ret_ok tt
               else ret_err (Errorf "failed to get task" e));
  match Job task with
  | None => panic "invalid memory address or nil pointer dereference"
  | Some job =>
      try config <- Config_Get (JobConfigID job)
        else e => (if errors_Is e "pgx.ErrNoRows" then ret_ok tt
                   else ret_err (Errorf "failed to get job config" e));
      process_task w taskMsg task config
  end.

End FetchWorker.

(** ** Properties *)

Section Properties.
Context `{FetchServices, RegexpLib, JsonLib}.

Lemma try_run {A B} (m : M (res A)) (h : gerror -> M (res B)) k w r w1 :
  m w = (Ret r, w1) -> try_bind m h k w = match r with Ok a => k a w1 | Err e => h e w1 end.
Proof. intros E. unfold try_bind. rewrite (bind_ret _ _ _ _ _ E). by destruct r. Qed.

(** The row of the task after [Task_Update t], when there is one. *)
Definition updated (t : CrawlTask) (a b : database) : Prop :=
  b = upd_tasks (update_where (is_task (value (TID t))) (set_task (SaveCrawlTaskToSnapshot t))) a.

Definition has_row (t : CrawlTask) (d : database) : Prop :=
  exists r, r ∈ tasks d /\ ts_ID r = value (TID t).

(** Where the configuration respects robots.txt, the service was asked for the link, on the database
    [d], and did not refuse it: it allowed the link, or it had no answer. *)
Definition robots_passed (d : database) (c : CrawlJobConfig) (link : string) : Prop :=
  RespectRobotsTxt c = true ->
  exists x r y, db x = d /\ robots_IsAllowed link userAgent x = (Ret r, y) /\ r <> Ok false.

Lemma robots_ok_passed d c l w w' :
  db w = d -> robots_ok c l w = (Ret true, w') -> robots_passed d c l.
Proof.
  intros Hd E Hc. unfold robots_ok in E. rewrite Hc in E. unfold mbind, M_bind in E.
  destruct (robots_IsAllowed l userAgent w) as [[r|s] y] eqn:Er; [|done].
  exists w, r, y. split; [done|]. split; [done|]. intros ->. injection E as E _. discriminate E.
Qed.

(** A configuration that is stored lets the page of the task be fetched: its URL is in scope and
    robots.txt does not refuse it. *)
Definition may_fetch (d : database) (t : CrawlTask) (c : CrawlJobConfig) : Prop :=
  (exists s, s ∈ configs d /\ RestoreCrawlJobConfigFromSnapshot s = Ok c)
  /\ Validate (URL t) (Depth t) (Scopes c) = Ok tt /\ robots_passed d c (URL t).

(** The page, with the final URL, is what the fetcher of such a configuration gave for the URL. *)
Definition page_of (d : database) (t : CrawlTask) (u : string) (page : string) : Prop :=
  exists c x y f, may_fetch d t c /\ fetcher_Fetch (Auth c) (Retries c) (URL t) x = (Ret (Ok f), y)
    /\ u = ResFinalURL f /\ page = Body f.

(** The key of the page of a task. *)
Definition page_key (t : CrawlTask) : string := minio_key (value (JobID t)) (value (TID t)).

(** The task is the one of its row. *)
Definition is_row (t : CrawlTask) (d : database) : Prop := SaveCrawlTaskToSnapshot t ∈ tasks d.

Lemma is_row_has t d : is_row t d -> has_row t d.
Proof. intros Hr. by eexists. Qed.

(** The repositories answered [e] for the task [id] or for its configuration. *)
Definition task_gone (id : string) (a : world) (e : gerror) : Prop :=
  errors_Is e "pgx.ErrNoRows" = true
  /\ exists a1, same_store a a1
       /\ ((exists a2, Task_Get (MkID id) a1 = (Ret (Err e), a2))
           \/ exists t j a2 a3, Task_Get (MkID id) a1 = (Ret (Ok t), a2) /\ Job t = Some j
                /\ Config_Get (JobConfigID j) a2 = (Ret (Err e), a3)).

Lemma task_gone_same id a a' e : same_store a a' -> task_gone id a' e -> task_gone id a e.
Proof. intros Hs (He & a1 & Hs1 & Hg). split; [done|]. exists a1. split; [by etrans|done]. Qed.

(** What one message of the task [id] may have done when [handleMessage] returns [r]. *)
Inductive fetch_effect (w : FetchWorker) (id : string) (a b : world) : res unit -> Prop :=
| eff_none e :                      (* nothing; the message is delivered again *)
    same_store a b -> fetch_effect w id a b (Err e)
| eff_gone e :                      (* nothing; the task or its configuration is gone *)
    same_store a b -> task_gone id a e -> fetch_effect w id a b (Ok tt)
| eff_failed t reason r :           (* the task is failed *)
    value (TID t) = id ->
    is_row t (db a) -> updated (MarkAsFailed reason t) (db a) (db b) -> tx b = None ->
    objects b = objects a -> published b = published a ->
    fetch_effect w id a b r
| eff_stored t u page e :           (* the page is stored, the task is as before *)
    value (TID t) = id -> is_row t (db a) -> page_of (db a) t u page ->
    db b = db a -> tx b = None -> objects b = <[page_key t := page]> (objects a) ->
    published b = published a -> fetch_effect w id a b (Err e)
| eff_fetched t u page e :          (* fetched, the parsing message is not published *)
    value (TID t) = id -> is_row t (db a) -> page_of (db a) t u page ->
    updated (MarkAsFetched u (page_key t) t) (db a) (db b) ->
    tx b = None -> objects b = <[page_key t := page]> (objects a) ->
    published b = published a -> fetch_effect w id a b (Err e)
| eff_published t u page m r :      (* fetched and published *)
    value (TID t) = id -> is_row t (db a) -> page_of (db a) t u page ->
    updated (MarkAsFetched u (page_key t) t) (db a) (db b) ->
    tx b = None -> objects b = <[page_key t := page]> (objects a) ->
    published b = published a ++ [(fw_parsingQueue w, MsgParsing m)] ->
    PTaskID m = value (TID t) -> fetch_effect w id a b r.

Lemma Task_Update_out t w :
  tx w = None ->
  exists r w', Task_Update t w = (Ret r, w') /\ tx w' = None /\ objects w' = objects w
    /\ published w' = published w
    /\ ((is_ok r = false /\ db w' = db w) \/ updated t (db w) (db w')).
Proof.
  intros Ht. unfold Task_Update.
  destruct (stmt_out (fun _ d =>
    _ ← guard_ (task_update_ok (SaveCrawlTaskToSnapshot t) d)
               (unique_violation "uq_crawl_tasks_job_id_url");
    Ok (tt, upd_tasks (update_where (is_task (ts_ID (SaveCrawlTaskToSnapshot t)))
                         (set_task (SaveCrawlTaskToSnapshot t))) d)) w Ht)
    as (r & w' & E & Ht' & Ho & Hp & Hd & Hr).
  exists r, w'. repeat (split; [done|]).
  assert (Hu : forall x d, (_ ← guard_ (task_update_ok (SaveCrawlTaskToSnapshot t) (db w))
               (unique_violation "uq_crawl_tasks_job_id_url");
    Ok (tt, upd_tasks (update_where (is_task (ts_ID (SaveCrawlTaskToSnapshot t)))
                         (set_task (SaveCrawlTaskToSnapshot t))) (db w))) = Ok (x, d)
    -> updated t (db w) d).
  { intros x d. destruct (task_update_ok _ _); simpl; [|done]. by intros [= _ <-]. }
  destruct Hd as [Hd|(x & d & E1 & Hd)].
  - destruct r as [[]|e]; [right|by left]. eapply Hu, Hr. done.
  - right. rewrite Hd. by eapply Hu.
Qed.

(** The effect does not depend on the count of calls before it. *)
Lemma effect_same w id a a' b r : same_store a a' -> fetch_effect w id a' b r -> fetch_effect w id a b r.
Proof.
  intros Hs0 Hb. pose proof Hs0 as (Hd & Ht & Ho & Hp).
  destruct Hb as [e Hs|e Hs Hg|t re r Hi Hw Hu Htb Hob Hpb|t u p e Hi Hw Hg Hdb Htb Hob Hpb
                 |t u p e Hi Hw Hg Hu Htb Hob Hpb|t u p m r Hi Hw Hg Hu Htb Hob Hpb Hm]; rewrite ?Hd in *.
  - apply eff_none. by etrans; [|exact Hs].
  - eapply eff_gone; [by etrans; [|exact Hs]|by eapply task_gone_same].
  - eapply eff_failed; [exact Hi|exact Hw|exact Hu|congruence..].
  - eapply eff_stored; [exact Hi|exact Hw|exact Hg|congruence|done|by rewrite <- Ho|congruence].
  - eapply eff_fetched; [exact Hi|exact Hw|exact Hg|exact Hu|done|by rewrite <- Ho|congruence].
  - eapply eff_published; [exact Hi|exact Hw|exact Hg|exact Hu|done|by rewrite <- Ho|by rewrite <- Hp|done].
Qed.

Lemma fail_task_effect w t reason a :
  tx a = None -> is_row t (db a) ->
  exists r b, fail_task t reason a = (Ret r, b) /\ fetch_effect w (value (TID t)) a b r /\ tx b = None.
Proof.
  intros Ht Hw. unfold fail_task.
  destruct (Task_Update_out (MarkAsFailed reason t) a Ht) as (r & b & E & Htb & Ho & Hp & Hd).
  rewrite (try_run _ _ _ _ _ _ E).
  destruct r as [[]|e]; (eexists _, b; split; [done|]; split; [|done]).
  - destruct Hd as [[? _]|Hu]; [done|]. by eapply eff_failed.
  - destruct Hd as [[_ Hd]|Hu]; [|by eapply eff_failed]. apply eff_none. by repeat split; try congruence.
Qed.

Lemma store_and_publish_effect w m t f a :
  tx a = None -> is_row t (db a) -> MTaskID m = value (TID t) ->
  page_of (db a) t (ResFinalURL f) (Body f) ->
  exists r b, store_and_publish w m t f a = (Ret r, b) /\ fetch_effect w (value (TID t)) a b r /\ tx b = None.
Proof.
  intros Ht Hw Hm Hpg. unfold store_and_publish. rewrite Hm.
  change (minio_key (value (JobID t)) (value (TID t))) with (page_key t). set (key := page_key t).
  destruct (call_out (fun w => (tt, put_object key (Body f) w)) a) as (r1 & a1 & E1 & Hc1 & Hr1).
  rewrite (try_run _ _ _ _ _ _ E1).
  destruct r1 as [[]|e]; [|eexists _, a1; split; [done|]].
  2:{ destruct Hc1 as [[_ ->]| ->]; (split; [|done]).
      - by apply eff_none. - eapply eff_stored; [done|exact Hw|exact Hpg|done..]. }
  specialize (Hr1 tt eq_refl). injection Hr1 as ->. clear Hc1 E1.
  set (a1 := put_object key (Body f) (tick a)).
  destruct (Task_Update_out (MarkAsFetched (ResFinalURL f) key t) a1 Ht)
    as (r2 & a2 & E2 & Ht2 & Ho2 & Hp2 & Hd2).
  rewrite (try_run _ _ _ _ _ _ E2).
  destruct r2 as [[]|e]; [|eexists _, a2; split; [done|]].
  2:{ destruct Hd2 as [[_ Hd2]|Hu]; (split; [|done]).
      - eapply eff_stored; [done|exact Hw|exact Hpg|by rewrite Hd2|done|exact Ho2|exact Hp2].
      - eapply eff_fetched; [done|exact Hw|exact Hpg|exact Hu|done|exact Ho2|exact Hp2]. }
  destruct Hd2 as [[? _]|Hu]; [done|].
  unfold time_Now, InjectTraceContext.
  rewrite (bind_ret _ _ _ _ _ (observe_ret _ _)), (bind_ret _ _ _ _ _ (observe_ret _ _)).
  set (pm := {| PTaskID := _ |}). unfold Publish.
  destruct (call_out (fun w' => (tt, add_message (fw_parsingQueue w) (MsgParsing pm) w'))
              (tick (tick a2))) as (r3 & b & E3 & Hc3 & Hr3).
  rewrite (try_run _ _ _ _ _ _ E3).
  assert (Hpub : b = add_message (fw_parsingQueue w) (MsgParsing pm) (tick (tick (tick a2))) ->
                 forall r, fetch_effect w (value (TID t)) a b r).
  { intros -> r. apply (eff_published w _ a _ t (ResFinalURL f) (Body f) pm r);
      [done|exact Hw|exact Hpg|exact Hu|done|exact Ho2| |done]. simpl. by rewrite Hp2. }
  destruct r3 as [[]|e]; (eexists _, b; split; [done|]); destruct Hc3 as [[? ->]|Hb]; try done;
    try (split; [by apply Hpub|by rewrite Hb]).
  split; [|done]. eapply eff_fetched; [done|exact Hw|exact Hpg|exact Hu|done|exact Ho2|exact Hp2].
Qed.

(** A call of a service returns or panics; its world is the one before up to the count. *)
Lemma service_run {A} (m : M A) a o b : keeps same_store m -> m a = (o, b) -> same_store a b.
Proof. intros Hk E. specialize (Hk a). by rewrite E in Hk. Qed.


(** The effect of a run, whether it returns or panics. *)
Definition run_effect (w : FetchWorker) (id : string) (a : world) (p : outcome (res unit) * world) : Prop :=
  match p.1 with
  | Ret r => fetch_effect w id a p.2 r /\ tx p.2 = None
  | Panic _ => same_store a p.2
  end.

Lemma run_of_ret w id a m :
  (exists r b, m a = (Ret r, b) /\ fetch_effect w id a b r /\ tx b = None) -> run_effect w id a (m a).
Proof. intros (r & b & -> & ? & ?). by split. Qed.

Lemma run_effect_same w id a a' p : same_store a a' -> run_effect w id a' p -> run_effect w id a p.
Proof.
  unfold run_effect. intros Hs. destruct p as [[r|s] b]; simpl.
  - intros [? ?]. split; [by eapply effect_same|done].
  - intros ?. by etrans.
Qed.

Lemma run_err w id a a' e : tx a = None -> same_store a a' -> run_effect w id a (Ret (Err e), a').
Proof. intros Ht Hs. split; [by apply eff_none|]. destruct Hs as (_ & Hx & _). simpl. congruence. Qed.

(** A service call followed by the rest. *)
Lemma run_service {A} w id a (m : M A) (k : A -> M (res unit)) :
  keeps same_store m ->
  (forall x a', m a = (Ret x, a') -> same_store a a' -> run_effect w id a' (k x a')) ->
  run_effect w id a ((m ≫= k) a).
Proof.
  intros Hm Hk. unfold mbind, M_bind. destruct (m a) as [o a'] eqn:E.
  pose proof (service_run _ _ _ _ Hm E) as Hs. destruct o as [x|s]; [|exact Hs].
  eapply run_effect_same; [exact Hs|by apply Hk].
Qed.

Lemma row_same t a a' : same_store a a' -> is_row t (db a) -> is_row t (db a').
Proof. intros (-> & _). done. Qed.

Lemma may_fetch_same t c a a' : same_store a a' -> may_fetch (db a) t c -> may_fetch (db a') t c.
Proof. intros (-> & _). done. Qed.

Lemma tx_same a a' : same_store a a' -> tx a = None -> tx a' = None.
Proof. intros (_ & -> & _). done. Qed.

Lemma fetch_page_effect w m t c a :
  tx a = None -> is_row t (db a) -> MTaskID m = value (TID t) -> may_fetch (db a) t c ->
  run_effect w (value (TID t)) a (fetch_page w m t c a).
Proof.
  intros Ht Hw Hm Hc. unfold fetch_page, try_bind. apply run_service; [apply fetcher_keeps|].
  intros r a' E Hs. pose proof (tx_same _ _ Hs Ht) as Ht'. pose proof (row_same _ _ _ Hs Hw) as Hw'.
  pose proof (may_fetch_same _ _ _ _ Hs Hc) as Hc'. destruct r as [f|e].
  - apply run_of_ret. apply store_and_publish_effect; [done..|]. by exists c, a, a', f.
  - destruct (isPermanent e || retriesExhausted e); [|by apply run_err].
    apply run_of_ret. by apply fail_task_effect.
Qed.

Lemma wait_rate_keeps c h : keeps same_store (wait_rate c h).
Proof.
  unfold wait_rate, ret_err, ret_ok. keeps_steps (apply ratelimit_keeps).
Qed.

Lemma robots_ok_keeps c l : keeps same_store (robots_ok c l).
Proof. unfold robots_ok. keeps_steps (apply robots_keeps). Qed.

Lemma process_task_effect w m t c a :
  tx a = None -> is_row t (db a) -> MTaskID m = value (TID t) ->
  (exists s, s ∈ configs (db a) /\ RestoreCrawlJobConfigFromSnapshot s = Ok c) ->
  run_effect w (value (TID t)) a (process_task w m t c a).
Proof.
  intros Ht Hw Hm Hcf. unfold process_task. destruct (Validate _ _ _) as [[]|e] eqn:Ev;
    [|apply run_of_ret; by apply fail_task_effect].
  apply run_service; [apply robots_ok_keeps|]. intros ok a1 Er Hs1.
  pose proof (tx_same _ _ Hs1 Ht) as Ht1. pose proof (row_same _ _ _ Hs1 Hw) as Hw1. destruct ok; simpl;
    [|apply run_of_ret; by apply fail_task_effect].
  assert (Hc : may_fetch (db a) t c) by (split; [done|]; split; [done|]; by eapply robots_ok_passed).
  unfold try_bind, lift_res. destruct (rate_host (URL t)) as [h|e]; [|by apply run_err].
  apply run_service; [by apply keeps_ret|]. intros r a2 _ Hs2.
  destruct r as [h'|e]; [|apply run_err; [by eapply tx_same|done]].
  apply run_service; [apply wait_rate_keeps|]. intros r a3 _ Hs3.
  pose proof (tx_same _ _ Hs3 (tx_same _ _ Hs2 Ht1)) as Ht3.
  pose proof (row_same _ _ _ Hs3 (row_same _ _ _ Hs2 Hw1)) as Hw3.
  assert (Hc3 : may_fetch (db a3) t c)
    by (eapply may_fetch_same; [|exact Hc]; etrans; [exact Hs1|]; by etrans).
  destruct r as [[]|e]; [by apply fetch_page_effect|by apply run_err].
Qed.

Lemma scan_one_out {A B} (f : nat -> database -> list A) (g : A -> res B) a :
  tx a = None ->
  exists r b, scan_one f g a = (Ret r, b) /\ same_store a b
    /\ (forall x, r = Ok x -> exists row, head (f (ticks a) (db a)) = Some row /\ g row = Ok x).
Proof.
  intros Ht. unfold scan_one.
  destruct (query_out f a Ht) as (r & b & E & Htb & Ho & Hp & Hd & Hr).
  rewrite (try_run _ _ _ _ _ _ E). destruct r as [rows|e].
  - specialize (Hr rows eq_refl). destruct rows as [|row rows]; (eexists _, b; split; [done|];
      split; [repeat split; congruence|]).
    + done.
    + intros x Hx. exists row. rewrite <- Hr. by split.
  - eexists _, b. split; [done|]. split; [repeat split; congruence|done].
Qed.

(** Reads by identifier return, whatever they answer, and change nothing. *)
Lemma scan_one_runs {A B} (f : nat -> database -> list A) (g : A -> res B) a :
  tx a = None -> exists r b, scan_one f g a = (Ret r, b) /\ same_store a b /\ tx b = None.
Proof.
  intros Ht. destruct (scan_one_out f g a Ht) as (r & b & E & Hs & _). exists r, b.
  split; [done|]. split; [done|by eapply tx_same].
Qed.

Lemma Task_Get_runs id a :
  tx a = None -> exists r b, Task_Get id a = (Ret r, b) /\ same_store a b /\ tx b = None.
Proof. apply scan_one_runs. Qed.

Lemma Job_Get_runs id a :
  tx a = None -> exists r b, Job_Get id a = (Ret r, b) /\ same_store a b /\ tx b = None.
Proof. apply scan_one_runs. Qed.

Lemma Config_Get_runs id a :
  tx a = None -> exists r b, Config_Get id a = (Ret r, b) /\ same_store a b /\ tx b = None.
Proof. apply scan_one_runs. Qed.

Lemma Task_Get_id id t a b :
  Task_Get id a = (Ret (Ok t), b) -> tx a = None ->
  TID t = id /\ is_Some (Job t) /\ is_row t (db a).
Proof.
  intros E Ht. unfold Task_Get in E.
  destruct (scan_one_out (fun _ d => tasks_with_job (value id) d)
              RestoreCrawlTaskWithJobFromSnapshot a Ht) as (r & b' & E' & _ & Hr).
  rewrite E in E'. injection E' as <- <-. destruct (Hr t eq_refl) as (row & Hh & Er).
  unfold tasks_with_job in Hh. apply head_Some_elem_of, elem_of_limit_rows in Hh.
  apply list_elem_of_bind in Hh as (r & Hrow & Hin). apply list_elem_of_fmap in Hrow as (j & -> & Hj).
  apply elem_of_bfilter in Hin as [Hid Hin]. apply bool_decide_eq_true in Hid.
  unfold RestoreCrawlTaskWithJobFromSnapshot in Er. simpl in Er.
  destruct (NewID (ts_ID r)) as [i|] eqn:Ei; [|done]. simpl in Er.
  destruct (NewCrawlJobID (ts_JobID r)) as [ji|] eqn:Eji; [|done]. simpl in Er.
  match type of Er with context [RestoreCrawlJobFromSnapshot ?x] =>
    destruct (RestoreCrawlJobFromSnapshot x) as [k|]; [|done] end. simpl in Er.
  injection Er as <-. destruct (NewID_ok _ _ Ei) as (-> & _ & _). unfold NewCrawlJobID in Eji.
  apply res_bind_Ok in Eji as (ji' & Eji & [= <-]). destruct (NewID_ok _ _ Eji) as (-> & _ & _).
  split; [simpl; rewrite Hid; by destruct id|]. split; [by eexists|].
  unfold is_row, SaveCrawlTaskToSnapshot. simpl. by destruct r.
Qed.

Lemma Config_Get_row id c a b :
  Config_Get id a = (Ret (Ok c), b) -> tx a = None ->
  exists s, s ∈ configs (db a) /\ RestoreCrawlJobConfigFromSnapshot s = Ok c.
Proof.
  intros E Ht. unfold Config_Get in E.
  match type of E with scan_one ?f ?g _ = _ => destruct (scan_one_out f g a Ht) as (r & b' & E' & _ & Hr) end.
  rewrite E in E'. injection E' as <- <-. destruct (Hr c eq_refl) as (row & Hh & Er).
  apply head_Some_elem_of, elem_of_limit_rows, elem_of_bfilter in Hh as [_ Hin]. by exists row.
Qed.


Lemma handleMessage_effect w body id a :
  tx a = None -> (forall m, Unmarshal crawl_msg_of_json body = Ok m -> MTaskID m = id) ->
  run_effect w id a (handleMessage w body a).
Proof.
  intros Ht Hid0. unfold handleMessage, try_bind at 1, lift_res.
  destruct (Unmarshal crawl_msg_of_json body) as [m|e]; [|by apply run_err].
  specialize (Hid0 m eq_refl). subst id.
  unfold mbind at 1, M_bind, mret at 1, M_ret, try_bind at 1, mbind at 1, M_bind, mret at 1, M_ret.
  destruct (NewID (MTaskID m)) as [id|e] eqn:Ei; [|by apply run_err].
  destruct (NewID_ok _ _ Ei) as (-> & _ & _).
  destruct (Task_Get_runs (MkID (MTaskID m)) a Ht) as (r & a1 & E & Hs & Ht1).
  rewrite (try_run _ _ _ _ _ _ E). destruct r as [t|e].
  2:{ destruct (errors_Is e "pgx.ErrNoRows") eqn:He; [|by apply run_err].
      split; [|done]. eapply eff_gone; [done|]. split; [exact He|]. exists a. split; [reflexivity|].
      left. exists a1. exact E. }
  destruct (Task_Get_id (MkID (MTaskID m)) _ _ _ E Ht) as (Hid & [j Hj] & Hrow). rewrite Hj.
  destruct (Config_Get_runs (JobConfigID j) a1 Ht1) as (r & a2 & E2 & Hs2 & Ht2).
  rewrite (try_run _ _ _ _ _ _ E2).
  assert (Hs02 : same_store a a2) by (by etrans).
  destruct r as [c|e].
  - eapply run_effect_same; [exact Hs02|]. destruct (Config_Get_row _ _ _ _ E2 Ht1) as (s & Hs' & Hc).
    replace (MTaskID m) with (value (TID t)) by (by rewrite Hid).
    apply process_task_effect; [done|by eapply row_same|by rewrite Hid|].
    exists s. split; [|done]. destruct Hs2 as (-> & _). done.
  - destruct (errors_Is e "pgx.ErrNoRows") eqn:He; [|by apply run_err].
    split; [|done]. eapply eff_gone; [done|]. split; [exact He|]. exists a. split; [reflexivity|].
    right. exists t, j, a1, a2. split; [exact E|]. split; [exact Hj|exact E2].
Qed.

(** The row of a task that was there is the updated one. *)
Lemma updated_row t t' a b :
  has_row t a -> value (TID t') = value (TID t) -> updated t' a b ->
  exists r, r ∈ tasks b /\ ts_ID r = value (TID t) /\ ts_Status r = Status t'
            /\ ts_MinioObjectKey r = MinioObjectKey t' /\ ts_ErrorMessage r = ErrorMessage t'.
Proof.
  intros (r & Hr & Hid) Ht' ->. exists (set_task (SaveCrawlTaskToSnapshot t') r). split; [|done].
  simpl. apply list_elem_of_fmap. exists r. split; [|done]. unfold is_task.
  by rewrite bool_decide_eq_true_2 by congruence.
Qed.

(** C11: a crawl message.  Whatever the services, the database, the object store and the broker
    do, the handler of a crawl message ends in one of these ways, whether it acknowledges the message,
    returns an error or panics.
    - Nothing changed; it acknowledges only when the database answered that the task or its
      configuration does not exist.
    - The task's row is Failed with a reason, nothing else changed.
    - The page that the fetcher gave for the URL of the task - in scope, and not refused by robots.txt
      when the configuration respects it - is in the object store under the key of the task, and of the
      rest either nothing changed, or the task's row is Fetched and names the page, or moreover one
      parsing message of the task was sent to the parsing queue.  Only the last is acknowledged.
    The other rows, tables and objects stay, and no transaction is left open. *)
Theorem fetch_message_outcome w body id a o b :
  tx a = None -> (forall m, Unmarshal crawl_msg_of_json body = Ok m -> MTaskID m = id) ->
  handleMessage w body a = (o, b) ->
  tx b = None
  /\ ((same_store a b /\ (o = Ret (Ok tt) -> exists e, task_gone id a e))
      \/ exists t, value (TID t) = id /\ is_row t (db a)
           /\ ((exists reason, updated (MarkAsFailed reason t) (db a) (db b)
                  /\ objects b = objects a /\ published b = published a)
               \/ exists u page, page_of (db a) t u page /\ objects b = <[page_key t := page]> (objects a)
                    /\ ((o <> Ret (Ok tt) /\ db b = db a /\ published b = published a)
                        \/ (updated (MarkAsFetched u (page_key t) t) (db a) (db b)
                            /\ ((o <> Ret (Ok tt) /\ published b = published a)
                                \/ exists m, PTaskID m = id
                                     /\ published b = published a ++ [(fw_parsingQueue w, MsgParsing m)]))))).
Proof.
  intros Ht Hid E. pose proof (handleMessage_effect w body id a Ht Hid) as He. rewrite E in He.
  destruct o as [r|s]; [destruct He as [He Htx]; simpl in He, Htx
                       |split; [exact (tx_same _ _ He Ht)|left; split; [exact He|done]]].
  split; [done|].
  destruct He as [e Hs|e Hs Hg|t re r Hi Hw Hu Htb Hob Hpb|t u p e Hi Hw Hg Hdb Htb Hob Hpb
                 |t u p e Hi Hw Hg Hu Htb Hob Hpb|t u p m r Hi Hw Hg Hu Htb Hob Hpb Hm].
  - by left.
  - left. split; [done|]. intros _. by exists e.
  - right. exists t. split; [done|]. split; [done|]. left. by exists re.
  - right. exists t. split; [done|]. split; [done|]. right. exists u, p. split; [done|]. split; [done|]. by left.
  - right. exists t. split; [done|]. split; [done|]. right. exists u, p. split; [done|]. split; [done|].
    right. split; [done|]. by left.
  - right. exists t. split; [done|]. split; [done|]. right. exists u, p. split; [done|]. split; [done|].
    right. split; [done|]. right. exists m. split; [congruence|done].
Qed.

End Properties.

(** ** A concrete run *)

#[local] Existing Instances any_uuid plain_env plain_json no_regexp.

Definition plain_robots : RobotsTxtService.
Proof.
  refine {| robots_IsAllowed _ _ := mret (Ok true) |}. intros. apply keeps_ret; exact _.
Defined.
#[local] Existing Instance plain_robots.

Definition plain_services : FetchServices.
Proof.
  refine {| ratelimit_Allow _ _ _ := mret (Ok (true, 0));
            fetcher_Fetch _ _ u := mret (Ok {| Body := "<html>"; ContentType := "text/html";
                                               StatusCode := 200; ResFinalURL := u |}) |};
    intros; apply keeps_ret; exact _.
Defined.
#[local] Existing Instance plain_services.

Definition demo_worker : FetchWorker := {| fw_crawlQueues := ["crawl-1"]; fw_parsingQueue := "parse" |}.

Definition demo_message : string :=
  marshal (json_of_crawl_msg {| MTaskID := "t1"; MJobID := "j1"; MURL := "http://a.b/";
                                MEnqueuedAt := 7; MTraceContext := ∅ |}).

Lemma fetch_message_outcome_witness :
  exists b t u m, handleMessage demo_worker demo_message (world_of demo_db) = (Ret (Ok tt), b)
    /\ updated (MarkAsFetched u (page_key t) t) demo_db (db b) /\ value (TID t) = "t1"
    /\ is_Some (objects b !! page_key t) /\ published b = [("parse", MsgParsing m)].
Proof.
  destruct (handleMessage demo_worker demo_message (world_of demo_db)) as [o b] eqn:E.
  assert (Hid : forall m, Unmarshal crawl_msg_of_json demo_message = Ok m -> MTaskID m = "t1")
    by (intros m; vm_compute; by intros [= <-]).
  pose proof (fetch_message_outcome demo_worker demo_message "t1" (world_of demo_db) o b eq_refl Hid E)
    as [_ Hout].
  assert (Ho : (handleMessage demo_worker demo_message (world_of demo_db)).1 = Ret (Ok tt))
    by (vm_compute; reflexivity).
  assert (Hp : length (published (handleMessage demo_worker demo_message (world_of demo_db)).2) = 1%nat)
    by (vm_compute; reflexivity).
  rewrite E in Ho, Hp. simpl in Ho, Hp. subst o.
  assert (Hn : published b <> published (world_of demo_db)) by (intros Hn; rewrite Hn in Hp; discriminate Hp).
  destruct Hout as [[(_ & _ & _ & Hq) _]|(t & Hi & _ & [(re & _ & _ & Hq)|(u & p & _ & Hob & Hrest)])];
    [by destruct (Hn Hq)..|].
  destruct Hrest as [(_ & _ & Hq)|(Hu & [[_ Hq]|(m & _ & Hq)])]; [by destruct (Hn Hq)..|].
  exists b, t, u, m. split; [reflexivity|]. split; [exact Hu|]. split; [exact Hi|].
  split; [rewrite Hob; exists p; apply lookup_insert_eq|exact Hq].
Defined.
