(* ===== verification/GoNum.v ===== *)
(** * Go's [strconv] and the "%v" of numbers

    Decimal integers and floats as the extraction DSL reads and prints them.  [round64] is the
    rounding of a rational to float64 (nearest, ties to even).  Hexadecimal floats are not
    modelled: they are refused here. *)

From S2P Require Import Prelude GoStrings Domain Json Converters GoUrl.

(** ** Integers *)

Fixpoint digits_value (acc : Z) (l : chars) : Z :=
  match l with [] => acc | c :: l => digits_value (10 * acc + Z.of_nat (code c - 48)) l end.

Definition split_sign (l : chars) : bool * chars :=
  match l with
  | c :: l' => if Ascii.eqb c "-"%char then (true, l')
               else if Ascii.eqb c "+"%char then (false, l') else (false, l)
  | [] => (false, [])
  end.

Definition syntax_error (fn s : string) : gerror :=
  ENew ("strconv." +:+ fn +:+ ": parsing " +:+ s +:+ ": invalid syntax").
Definition range_error (fn s : string) : gerror :=
  ENew ("strconv." +:+ fn +:+ ": parsing " +:+ s +:+ ": value out of range").

(** [strconv.ParseInt(s, 10, 64)], also [strconv.Atoi(s)]. *)
Definition ParseInt (s : string) : res Z :=
  let '(neg, l) := split_sign (bytes_of s) in
  if bool_decide (l = []) || negb (forallb is_digit l) then Err (syntax_error "ParseInt" s)
  else
    let v := if neg then - digits_value 0 l else digits_value 0 l in
    if (int64_min <=? v) && (v <=? int64_max) then Ok v else Err (range_error "ParseInt" s).

(** [strconv.ParseBool(s)]. *)
Definition ParseBool (s : string) : res bool :=
  if bool_decide (s ∈ ["1"; "t"; "T"; "true"; "TRUE"; "True"]) then Ok true
  else if bool_decide (s ∈ ["0"; "f"; "F"; "false"; "FALSE"; "False"]) then Ok false
  else Err (syntax_error "ParseBool" s).

(** ** Floats *)

(** The float64 nearest to [num / den], [0 <= num], [0 < den]; [None] is an overflow. *)
Definition round64 (num den : Z) : option Q :=
  if num <=? 0 then Some 0%Q
  else
    let scaled e := if e <? 0 then (num * 2 ^ (- e), den) else (num, den * 2 ^ e) in
    let floor e := let '(n, d) := scaled e in n / d in
    let e0 := Z.log2 num - Z.log2 den - 52 in
    let e1 := if floor e0 <? 2 ^ 52 then e0 - 1 else if 2 ^ 53 <=? floor e0 then e0 + 1 else e0 in
    let e := Z.max e1 (-1074) in
    let m := let '(n, d) := scaled e in div_even n d in
    if (0 <? e) && (2 ^ 1024 <=? m * 2 ^ e) then None
    else Some (Qred (if e <? 0 then m # Z.to_pos (2 ^ (- e)) else inject_Z (m * 2 ^ e))).

Inductive float_result := FFinite (q : Q) | FSpecial (s : string).

Definition take_digits (l : chars) : chars * chars :=
  (fix go (acc l : chars) : chars * chars :=
     match l with
     | c :: l' => if is_digit c then go (c :: acc) l' else (rev acc, l)
     | [] => (rev acc, [])
     end) [] l.

(** The exponent of "e" or "E"; Go stops adding digits past 10000. *)
Definition read_exponent (l : chars) : option Z :=
  match l with
  | [] => Some 0
  | c :: l =>
      if Ascii.eqb c "e"%char || Ascii.eqb c "E"%char then
        let '(neg, l) := split_sign l in
        if bool_decide (l = []) || negb (forallb is_digit l) then None
        else let v := Z.min (digits_value 0 l) 99999 in Some (if neg then - v else v)
      else None
  end.

Definition signed (neg : bool) (q : Q) : Q := if neg then Qopp q else q.

(** [strconv.ParseFloat(s, 64)]. *)
Definition ParseFloat (s : string) : res float_result :=
  let '(neg, l) := split_sign (bytes_of s) in
  let low := of_bytes (lower_char <$> l) in
  if bool_decide (low = "inf") || bool_decide (low = "infinity") then
    Ok (FSpecial (if neg then "-Inf" else "+Inf"))
  else if bool_decide (ToLower s = "nan") then Ok (FSpecial "NaN")
  else
    let '(ip, l1) := take_digits l in
    let '(fp, l2) := match l1 with
                     | c :: l' => if Ascii.eqb c "."%char then take_digits l' else ([], l1)
                     | [] => ([], [])
                     end in
    match read_exponent l2 with
    | None => Err (syntax_error "ParseFloat" s)
    | Some x =>
        if bool_decide (ip = []) && bool_decide (fp = []) then Err (syntax_error "ParseFloat" s)
        else
          let m := digits_value 0 (ip ++ fp) in
          let e := x - Z.of_nat (length fp) in
          let '(n, d) := if e <? 0 then (m, 10 ^ (- e)) else (m * 10 ^ e, 1) in
          match round64 n d with
          | Some q => Ok (FFinite (signed neg q))
          | None => Err (range_error "ParseFloat" s)
          end
    end.

(** The float64 of an int64. *)
Definition float_of_int (z : Z) : Q := inject_Z (round53s z).

(** [int64(f)]: truncation; a value out of range is the smallest integer (amd64). *)
Definition int_of_float (q : Q) : Z :=
  let z := Z.quot (Qnum q) (Zpos (Qden q)) in
  if (int64_min <=? z) && (z <=? int64_max) then z else int64_min.

(** [10^k] as numerator and denominator. *)
Definition pow10 (k : Z) : Z * Z := if k <? 0 then (1, 10 ^ (- k)) else (10 ^ k, 1).

(** The decimal exponent of a positive rational: [10^k <= num/den < 10^(k+1)]. *)
Definition dec_exponent (num den : Z) : Z :=
  let k := (Z.log2 num - Z.log2 den) * 30103 / 100000 in
  let le j := let '(a, b) := pow10 j in a * den <=? num * b in
  if le (k + 2) then k + 2 else if le (k + 1) then k + 1 else if le k then k else if le (k - 1) then k - 1 else k - 2.

(** The fewest digits [m] and the exponent [x] with [m * 10^(x+1-n)] reading back as [q]. *)
Fixpoint shortest_digits (fuel : nat) (n : Z) (q : Q) (num den x : Z) : Z * Z * Z :=
  let '(a, b) := pow10 (n - 1 - x) in
  let m := div_even (num * a) (den * b) in
  match fuel with
  | O => (m, n, x)
  | S fuel =>
      let '(c, d) := pow10 (x + 1 - n) in
      if bool_decide (round64 (m * c) d = Some q) then
        if m =? 10 ^ n then (10 ^ (n - 1), n, x + 1) else (m, n, x)
      else shortest_digits fuel (n + 1) q num den x
  end.

Definition zeros (n : Z) : string := of_bytes (repeat "0"%char (Z.to_nat n)).

(** [fmt.Sprintf("%v", f)] of a finite float64: the shortest digits, in scientific notation for
    exponents below -4 or from 6 on. *)
Definition format_float (q : Q) : string :=
  if Qnum q =? 0 then "0"
  else
    let neg := Qnum q <? 0 in
    let num := Z.abs (Qnum q) in let den := Zpos (Qden q) in
    let '(m, n, x) := shortest_digits 16 1 (num # Qden q) num den (dec_exponent num den) in
    let ds := pretty m in
    let body :=
      if (x <? -4) || (6 <=? x) then
        let head := take 1 (bytes_of ds) in let rest := drop 1 (bytes_of ds) in
        of_bytes head +:+ (match rest with [] => "" | _ => "." +:+ of_bytes rest end)
        +:+ "e" +:+ (if x <? 0 then "-" else "+")
        +:+ (if Z.abs x <? 10 then "0" else "") +:+ pretty (Z.abs x)
      else if x <? 0 then "0." +:+ zeros (- x - 1) +:+ ds
      else if n <=? x + 1 then ds +:+ zeros (x + 1 - n)
      else of_bytes (take (Z.to_nat (x + 1)) (bytes_of ds)) +:+ "."
           +:+ of_bytes (drop (Z.to_nat (x + 1)) (bytes_of ds)) in
    if neg then "-" +:+ body else body.

Definition reprint (s : string) : string :=
  match ParseFloat s with
  | Ok (FFinite q) => format_float q
  | Ok (FSpecial s) => s
  | Err e => Error e
  end.

Example reprint_1 : reprint "19.99" = "19.99". Proof. vm_compute. reflexivity. Qed.
Example reprint_2 : reprint "0.1" = "0.1". Proof. vm_compute. reflexivity. Qed.
Example reprint_3 : reprint "-1e21" = "-1e+21". Proof. vm_compute. reflexivity. Qed.
Example reprint_4 : reprint "1234567" = "1.234567e+06". Proof. vm_compute. reflexivity. Qed.
Example reprint_5 : reprint "0.00001234" = "1.234e-05". Proof. vm_compute. reflexivity. Qed.
Example reprint_6 : reprint "9007199254740993" = "9.007199254740992e+15". Proof. vm_compute. reflexivity. Qed.
