(* ===== verification/Sha256.v ===== *)
(** * SHA-256

    [crypto/sha256.Sum256] and its hexadecimal print, on the bytes of a string: the padding, the
    message schedule and the 64 rounds over 32-bit words, as FIPS 180-4 states them. *)

From S2P Require Import Prelude GoStrings.

Definition add32 (x y : Z) : Z := wrapu 32 (x + y).
Definition rotr (n x : Z) : Z := Z.lor (Z.shiftr x n) (wrapu 32 (Z.shiftl x (32 - n))).

Definition big_sigma0 (x : Z) : Z := Z.lxor (rotr 2 x) (Z.lxor (rotr 13 x) (rotr 22 x)).
Definition big_sigma1 (x : Z) : Z := Z.lxor (rotr 6 x) (Z.lxor (rotr 11 x) (rotr 25 x)).
Definition small_sigma0 (x : Z) : Z := Z.lxor (rotr 7 x) (Z.lxor (rotr 18 x) (Z.shiftr x 3)).
Definition small_sigma1 (x : Z) : Z := Z.lxor (rotr 17 x) (Z.lxor (rotr 19 x) (Z.shiftr x 10)).
Definition choose (x y z : Z) : Z := Z.lxor (Z.land x y) (Z.land (Z.lxor x (2 ^ 32 - 1)) z).
Definition majority (x y z : Z) : Z := Z.lxor (Z.land x y) (Z.lxor (Z.land x z) (Z.land y z)).

Definition round_constants : list Z := [
  1116352408; 1899447441; 3049323471; 3921009573; 961987163; 1508970993; 2453635748; 2870763221;
  3624381080; 310598401; 607225278; 1426881987; 1925078388; 2162078206; 2614888103; 3248222580;
  3835390401; 4022224774; 264347078; 604807628; 770255983; 1249150122; 1555081692; 1996064986;
  2554220882; 2821834349; 2952996808; 3210313671; 3336571891; 3584528711; 113926993; 338241895;
  666307205; 773529912; 1294757372; 1396182291; 1695183700; 1986661051; 2177026350; 2456956037;
  2730485921; 2820302411; 3259730800; 3345764771; 3516065817; 3600352804; 4094571909; 275423344;
  430227734; 506948616; 659060556; 883997877; 958139571; 1322822218; 1537002063; 1747873779;
  1955562222; 2024104815; 2227730452; 2361852424; 2428436474; 2756734187; 3204031479; 3329325298].

Definition initial_hash : list Z :=
  [1779033703; 3144134277; 1013904242; 2773480762; 1359893119; 2600822924; 528734635; 1541459225].

(** The message with its padding, as byte values. *)
Definition padded (s : string) : list Z :=
  let bs := (fun c => Z.of_nat (code c)) <$> bytes_of s in
  let n := Z.of_nat (length bs) in
  let zeros := Z.to_nat ((55 - n) mod 64) in
  bs ++ [128] ++ repeat 0 zeros
  ++ ((fun i => wrapu 8 (Z.shiftr (8 * n) (8 * i))) <$> [7; 6; 5; 4; 3; 2; 1; 0]).

Fixpoint words (l : list Z) : list Z :=
  match l with
  | a :: b :: c :: d :: l => (2 ^ 24 * a + 2 ^ 16 * b + 2 ^ 8 * c + d) :: words l
  | _ => []
  end.

(** The schedule, newest word first. *)
Fixpoint extend (n : nat) (w : list Z) : list Z :=
  match n with
  | O => w
  | S n =>
      let at_ i := nth i w 0 in
      extend n (add32 (add32 (small_sigma1 (at_ 1%nat)) (at_ 6%nat))
                      (add32 (small_sigma0 (at_ 14%nat)) (at_ 15%nat)) :: w)
  end.

Definition sha_round (h : list Z) (kw : Z * Z) : list Z :=
  match h with
  | [a; b; c; d; e; f; g; hh] =>
      let t1 := add32 (add32 hh (big_sigma1 e)) (add32 (choose e f g) (add32 kw.1 kw.2)) in
      let t2 := add32 (big_sigma0 a) (majority a b c) in
      [add32 t1 t2; a; b; c; add32 d t1; e; f; g]
  | _ => h
  end.

Definition compress (h block : list Z) : list Z :=
  let w := rev (extend 48 (rev block)) in
  zip_with add32 h (fold_left sha_round (zip round_constants w) h).

Fixpoint blocks (fuel : nat) (h ws : list Z) : list Z :=
  match fuel, ws with
  | O, _ | _, [] => h
  | S fuel, _ => blocks fuel (compress h (take 16 ws)) (drop 16 ws)
  end.

(** One block takes 16 words, so that the count of words is fuel enough. *)
Definition sha256_words (s : string) : list Z :=
  let ws := words (padded s) in blocks (length ws) initial_hash ws.

Definition hex_digit (n : Z) : ascii :=
  ascii_of_nat (Z.to_nat (if n <? 10 then 48 + n else 87 + n)).
Definition hex32 (x : Z) : list ascii :=
  (fun i => hex_digit (Z.land (Z.shiftr x (4 * i)) 15)) <$> [7; 6; 5; 4; 3; 2; 1; 0].

(** [fmt.Sprintf("%x", sha256.Sum256([]byte(s)))]. *)
Definition sha256_hex (s : string) : string := of_bytes (sha256_words s ≫= hex32).

Example sha256_empty :
  sha256_hex "" = "e3b0c44298fc1c149afbf4c8996fb92427ae41e4649b934ca495991b7852b855".
Proof. vm_compute. reflexivity. Qed.
Example sha256_abc :
  sha256_hex "abc" = "ba7816bf8f01cfea414140de5dae2223b00361a396177a9cb410ff61f20015ad".
Proof. vm_compute. reflexivity. Qed.
Example sha256_two_blocks :
  sha256_hex "abcdbcdecdefdefgefghfghighijhijkijkljklmklmnlmnomnopnopq"
  = "248d6a61d20638b8e5c026930c3e6039a33ce45964ff2167f6ecedd419db06c1".
Proof. vm_compute. reflexivity. Qed.
