(* ===== verification/Extraction.v ===== *)
(** * The extraction DSL

    [worker/parser_worker.go], from [extractData] to [convertToType]: CSS selectors over the parsed
    page, the transforms and the conversion to the declared type.  The HTML parser and the selector
    engine (goquery, x/net/html/charset) are the class [HtmlLib]; a Selection is the list of its
    nodes.  White space classes, tag removal, prices, numbers, URLs and SHA-256 are written out. *)

From S2P Require Import Prelude GoStrings Domain Json Converters GoUrl GoNum Sha256.

Class HtmlLib := {
  node : Type;
  charset_NewReader : string -> res string;        (* the page in UTF-8 *)
  NewDocumentFromReader : string -> res node;
  Find : node -> string -> list node;              (* no node for an invalid selector *)
  Text : node -> string;
  Html : node -> res string;
  Attr : node -> string -> option string }.

(** A nil [[]string] when nothing was appended. *)
Definition strs (l : list string) : any := match l with [] => ANilStrs | _ => AStrs l end.

(** [value.([]string)]. *)
Definition as_strs (v : any) : option (list string) :=
  match v with ANilStrs => Some [] | AStrs l => Some l | _ => None end.

(** ** Regular expressions of the transforms *)

(** The class "\s" of regexp: tab, newline, form feed, carriage return, space. *)
Definition re_space (c : ascii) : bool :=
  let n := code c in ((n =? 9) || (n =? 10) || (n =? 12) || (n =? 13) || (n =? 32))%nat.

(** Every run of "\s" becomes one space; [in_run] says that the byte before was in a run. *)
Fixpoint squeeze (in_run : bool) (l : chars) : chars :=
  match l with
  | [] => []
  | c :: l => if re_space c then (if in_run then [] else [" "%char]) ++ squeeze true l
              else c :: squeeze false l
  end.

Definition collapse_ws (s : string) : string := of_bytes (squeeze false (bytes_of (TrimSpace s))).

(** Every match of "<[^>]*>" is removed: from a "<" to the next ">".  [k] bytes of a match are
    left to skip. *)
Fixpoint tag_length (l : chars) : option nat :=
  match l with
  | [] => None
  | c :: l => if Ascii.eqb c ">"%char then Some 1%nat else S <$> tag_length l
  end.

Fixpoint strip_tags (k : nat) (l : chars) : chars :=
  match l with
  | [] => []
  | c :: l =>
      match k with
      | S k => strip_tags k l
      | O => if Ascii.eqb c "<"%char then
               match tag_length l with
               | Some k => strip_tags k l
               | None => c :: strip_tags 0 l
               end
             else c :: strip_tags 0 l
      end
  end.

Definition html_to_text (s : string) : string := of_bytes (strip_tags 0 (bytes_of s)).

(** The first match of "\d+\.?\d*", empty when there is none. *)
Fixpoint find_price (l : chars) : chars :=
  match l with
  | [] => []
  | c :: l' =>
      if is_digit c then
        let '(ip, l1) := take_digits l in
        match l1 with
        | d :: l2 => if Ascii.eqb d "."%char then ip ++ d :: (take_digits l2).1 else ip
        | [] => ip
        end
      else find_price l'
  end.

(** ** Transforms *)

(** The elements that occur the first time. *)
Fixpoint unique_from (seen : gset string) (l : list string) : list string :=
  match l with
  | [] => []
  | x :: l => if bool_decide (x ∈ seen) then unique_from seen l
              else x :: unique_from ({[x]} ∪ seen) l
  end.

(** The limit an argument denotes: -1 when it is not a number. *)
Definition limit_arg (v : any) : Z :=
  match v with
  | AInt i | AInt64 i => i
  | AFloat f => int_of_float f
  | ANonFinite _ => int64_min
  | AStr s => match ParseInt (TrimSpace s) with Ok i => i | Err _ => -1 end
  | _ => -1
  end.

Definition any_float (f : float_result) : any :=
  match f with FFinite q => AFloat q | FSpecial s => ANonFinite s end.

Definition on_str (v : any) (f : string -> any) : any := match v with AStr s => f s | _ => v end.

Definition applyTransform (spec : TransformSpec) (v : any) : any :=
  match v with ANil => ANil | _ =>
  let op := Op spec in
  if bool_decide (op = OpTrim) then on_str v (fun s => AStr (TrimSpace s))
  else if bool_decide (op = OpLower) then on_str v (fun s => AStr (ToLower s))
  else if bool_decide (op = OpUpper) then on_str v (fun s => AStr (ToUpper s))
  else if bool_decide (op = OpCollapseWS) then on_str v (fun s => AStr (collapse_ws s))
  else if bool_decide (op = OpHTMLToText) then on_str v (fun s => AStr (html_to_text s))
  else if bool_decide (op = OpNormalizeURL) then
    on_str v (fun s => match url_Parse s with Ok p => AStr (url_String p) | Err _ => v end)
  else if bool_decide (op = OpUnique) then
    match as_strs v with Some arr => strs (unique_from ∅ arr) | None => v end
  else if bool_decide (op = OpLimit) then
    match as_strs v with
    | Some arr =>
        let limit := limit_arg (Arg spec) in
        if (0 <=? limit) && (limit <? Z.of_nat (length arr))
        then AStrs (take (Z.to_nat limit) arr) else v
    | None => v
    end
  else if bool_decide (op = OpParseInt) then
    on_str v (fun s => match ParseInt (TrimSpace s) with Ok i => AInt64 i | Err _ => v end)
  else if bool_decide (op = OpParseFloat) then
    on_str v (fun s => match ParseFloat (TrimSpace s) with Ok f => any_float f | Err _ => v end)
  else if bool_decide (op = OpParsePrice) then
    on_str v (fun s =>
      match find_price (bytes_of s) with
      | [] => v
      | m => match ParseFloat (of_bytes m) with Ok f => any_float f | Err _ => v end
      end)
  else if bool_decide (op = OpSHA256) then on_str v (fun s => AStr (sha256_hex s))
  else v
  end.

(** ** Conversion *)

Definition join_space (l : list string) : string :=
  match l with [] => "" | x :: l => fold_left (fun acc s => acc +:+ " " +:+ s) l x end.

(** [fmt.Sprintf("%v", v)]; the keys of a map are printed in order. *)
Fixpoint sprint (v : any) : string :=
  match v with
  | ANil => "<nil>"
  | AStr s => s
  | AInt i | AInt64 i => pretty i
  | AFloat f => format_float f
  | ANonFinite s => s
  | ABool b => if b then "true" else "false"
  | ANilStrs => "[]"
  | AStrs l => "[" +:+ join_space l +:+ "]"
  | AAnys l => "[" +:+ join_space (sprint <$> l) +:+ "]"
  | AMap m =>
      let entries := merge_sort key_le ((fun p => (p.1, sprint p.2)) <$> m) in
      "map[" +:+ join_space ((fun p => p.1 +:+ ":" +:+ p.2) <$> entries) +:+ "]"
  end.

Definition convertToType (v : any) (valueType : ValueType) : res any :=
  if bool_decide (valueType = ValueString) then
    match v with
    | ANilStrs | AStrs _ => Ok v
    | AAnys l => Ok (AStrs (sprint <$> l))
    | _ => Ok (AStr (sprint v))
    end
  else if bool_decide (valueType = ValueInt) then
    match v with
    | AInt i | AInt64 i => Ok (AInt64 i)
    | AFloat f => Ok (AInt64 (int_of_float f))
    | ANonFinite _ => Ok (AInt64 int64_min)
    | AStr s => i ← ParseInt (TrimSpace s); Ok (AInt64 i)
    | _ => Ok v
    end
  else if bool_decide (valueType = ValueFloat) then
    match v with
    | AFloat _ | ANonFinite _ => Ok v
    | AInt i | AInt64 i => Ok (AFloat (float_of_int i))
    | AStr s => f ← ParseFloat (TrimSpace s); Ok (any_float f)
    | _ => Ok v
    end
  else if bool_decide (valueType = ValueBool) then
    match v with
    | AStr s => b ← ParseBool s; Ok (ABool b)
    | _ => Ok v
    end
  else if bool_decide (valueType = ValueURL) then
    match v with
    | AStr s => _ ← url_Parse s; Ok v
    | _ => Ok v
    end
  else Ok v.

(** The transforms in order and the conversion of a raw value; nothing is done to nil and to the
    empty string. *)
Definition transform_value (spec : FieldSpec) (raw : any) : res any :=
  match raw with
  | ANil | AStr "" => Ok ANil
  | _ => convertToType (fold_left (fun v t => applyTransform t v) (Transforms spec) raw) (FType spec)
  end.

(** ** Extraction *)

Section Extraction.
Context `{HtmlLib}.

Definition parseHTMLDocument (htmlContent : string) : res node :=
  match charset_NewReader htmlContent with
  | Ok reader => NewDocumentFromReader reader
  | Err _ => NewDocumentFromReader htmlContent
  end.

Definition extractElementValue (selection : node) (attribute : string) (baseURL : option url)
  : string :=
  let attr := ToLower (TrimSpace attribute) in
  if bool_decide (attr ∈ [""; "text"; "innertext"]) then TrimSpace (Text selection)
  else if bool_decide (attr ∈ ["html"; "innerhtml"]) then
    match Html selection with Ok h => TrimSpace h | Err _ => "" end
  else
    match Attr selection attr with
    | None => ""
    | Some v =>
        let v := TrimSpace v in
        match baseURL with
        | Some base =>
            if bool_decide (attr ∈ ["href"; "src"]) then
              match url_ParseRef base v with Ok resolved => url_String resolved | Err _ => v end
            else v
        | None => v
        end
    end.

(** [extractWithCSS] and [extractWithCSSFromSelection], on the document and on a container. *)
Definition extractWithCSSFromSelection (spec : ExtractorSpec) (sel : node) (baseURL : option url)
  : res any :=
  match Find sel (Selector spec) with
  | [] => Err (ENew ("no elements found for selector: " +:+ Selector spec))
  | (first :: _) as selection =>
      if Multiple spec then
        let results := filter (fun v => v <> "")
                         ((fun s => extractElementValue s (Attribute spec) baseURL) <$> selection) in
        match Index spec with
        | Some i =>
            let n := Z.of_nat (length results) in
            let idx := if i <? 0 then n + i else i in
            if (0 <=? idx) && (idx <? n) then Ok (AStr (nth (Z.to_nat idx) results ""))
            else Ok (strs results)
        | None => Ok (strs results)
        end
      else Ok (AStr (extractElementValue first (Attribute spec) baseURL))
  end.

Definition extractWithCSS (spec : ExtractorSpec) (doc : node) (baseURL : option url) : res any :=
  extractWithCSSFromSelection spec doc baseURL.

Definition extractField (spec : FieldSpec) (doc : node) (baseURL : option url) : res any :=
  rawValue ← extractWithCSS (Extractor spec) doc baseURL;
  transform_value spec rawValue.

Definition extractFieldFromSelection (spec : FieldSpec) (sel : node) (baseURL : option url)
  : res any :=
  rawValue ← extractWithCSSFromSelection (Extractor spec) sel baseURL;
  transform_value spec rawValue.

(** One item: a field that fails is left out. *)
Definition extract_item (fields : list FieldSpec) (container : node) (baseURL : option url)
  : gmap string any :=
  fold_left (fun item spec =>
    match extractFieldFromSelection spec container baseURL with
    | Ok v => <[FName spec := v]> item
    | Err _ => item
    end) fields ∅.

Definition extractItems (spec : ItemsSpec) (doc : node) (baseURL : option url)
  : list (gmap string any) :=
  if bool_decide (ContainerSelector spec = "") then []
  else (fun container => extract_item (IFields spec) container baseURL)
         <$> Find doc (ContainerSelector spec).

Record extractionResult := { RFields : gmap string any; RItems : list (gmap string any) }.

(** The URL relative links are resolved against. *)
Definition page_url (task : CrawlTask) : res url :=
  match FinalURL task with
  | Some u => if bool_decide (u = "") then url_Parse (URL task) else url_Parse u
  | None => url_Parse (URL task)
  end.

(** The fields of the page: one that fails is nil. *)
Definition extract_fields (fields : list FieldSpec) (doc : node) (baseURL : option url)
  : gmap string any :=
  fold_left (fun m spec =>
    <[FName spec := match extractField spec doc baseURL with Ok v => v | Err _ => ANil end]> m)
    fields ∅.

Definition extractData (task : CrawlTask) (spec : ExtractionSpec) (htmlContent : string)
  : res extractionResult :=
  match parseHTMLDocument htmlContent with
  | Err e => Err (Errorf "failed to parse HTML" e)
  | Ok doc =>
      let baseURL := match page_url task with Ok u => Some u | Err _ => None end in
      Ok {| RFields := extract_fields (Fields spec) doc baseURL;
            RItems := match Items spec with
                      | Some items => extractItems items doc baseURL
                      | None => []
                      end |}
  end.

End Extraction.

(** ** Lemmas on the transforms *)

Lemma unique_from_elem seen l x : x ∈ unique_from seen l <-> x ∈ l /\ x ∉ seen.
Proof.
  revert seen. induction l as [|y l IH]; intros seen; simpl; [set_solver|].
  case_bool_decide; rewrite ?elem_of_cons, IH; [set_solver|].
  destruct (decide (x = y)); set_solver.
Qed.

Lemma unique_from_NoDup seen l : NoDup (unique_from seen l).
Proof.
  revert seen. induction l as [|y l IH]; intros seen; simpl; [constructor|].
  case_bool_decide; [done|]. constructor; [|done]. rewrite unique_from_elem. set_solver.
Qed.

Lemma unique_from_sublist seen l : unique_from seen l `sublist_of` l.
Proof.
  revert seen. induction l as [|y l IH]; intros seen; simpl; [constructor|].
  case_bool_decide; by constructor.
Qed.

(** A duplicate-free list stays as it is. *)
Lemma unique_from_id seen l :
  NoDup l -> (forall x, x ∈ l -> x ∉ seen) -> unique_from seen l = l.
Proof.
  intros Hl. revert seen. induction Hl as [|y l Hy Hl IH]; intros seen Hs; simpl; [done|].
  rewrite bool_decide_eq_false_2 by (apply Hs; left). f_equal. apply IH. set_solver.
Qed.

Lemma as_strs_strs l : as_strs (strs l) = Some l.
Proof. by destruct l. Qed.

(** No "<" is followed by a ">". *)
Definition tag_free (l : chars) : Prop :=
  forall u v w, l <> u ++ "<"%char :: v ++ ">"%char :: w.

Lemma tag_length_None l : tag_length l = None <-> ">"%char ∉ l.
Proof.
  induction l as [|c l IH]; simpl; [split; [by inversion 2|done]|].
  destruct (Ascii.eqb_spec c ">"%char) as [->|Hc]; [set_solver|].
  rewrite fmap_None, IH, not_elem_of_cons. naive_solver.
Qed.

Lemma tag_length_Some l k :
  tag_length l = Some k -> exists u w, l = u ++ ">"%char :: w /\ ">"%char ∉ u /\ k = S (length u).
Proof.
  revert k. induction l as [|c l IH]; intros k; simpl; [done|].
  destruct (Ascii.eqb_spec c ">"%char) as [->|Hc].
  - intros [= <-]. exists [], l. split; [done|]. split; [by inversion 1|done].
  - intros (k' & E & ->)%fmap_Some. destruct (IH k' E) as (u & w & -> & Hu & ->).
    exists (c :: u), w. split; [done|]. split; [by apply not_elem_of_cons|done].
Qed.

Lemma strip_skip k l : strip_tags k l = strip_tags 0 (drop k l).
Proof. revert l. induction k as [|k IH]; intros [|c l]; simpl; auto. Qed.

Lemma strip_elem c k l : c ∈ strip_tags k l -> c ∈ l.
Proof.
  revert k. induction l as [|d l IH]; intros k; simpl; [done|].
  destruct k as [|k]; [|intros ?; right; by eapply IH].
  destruct (Ascii.eqb d "<"%char); [destruct (tag_length l)|]; intros Hc;
    try (apply elem_of_cons in Hc as [->|Hc]; [left|]); right; by eapply IH.
Qed.

Lemma tag_free_cons c l : c <> "<"%char -> tag_free l -> tag_free (c :: l).
Proof.
  intros Hc Hl [|d u] v w E; simplify_eq/=. by eapply Hl.
Qed.

Lemma tag_free_no_gt l : ">"%char ∉ l -> tag_free l.
Proof. intros Hl u v w ->. set_solver. Qed.

Lemma strip_tag_free k l : tag_free (strip_tags k l).
Proof.
  rewrite strip_skip. remember (drop k l) as m eqn:E. clear E l k.
  remember (length m) as n eqn:Hn. revert m Hn.
  induction (lt_wf n) as [n _ IH]. intros [|c m] Hn; simpl; [by intros [|? ?] v w ?|].
  simpl in Hn.
  destruct (Ascii.eqb_spec c "<"%char) as [->|Hc].
  - destruct (tag_length m) as [k|] eqn:Ek.
    + rewrite strip_skip. apply (IH (length (drop k m))); [|done]. rewrite length_drop. lia.
    + apply tag_length_None in Ek. apply tag_free_no_gt. rewrite not_elem_of_cons.
      split; [done|]. intros ?%strip_elem. done.
  - apply tag_free_cons; [done|]. apply (IH (length m)); [lia|done].
Qed.

(** ** The types of values *)

Definition int64_ok (i : Z) : Prop := int64_min <= i <= int64_max.

(** What one element gives and its transforms make of it. *)
Definition scalar (v : any) : Prop :=
  match v with
  | AStr _ | AFloat _ | ANonFinite _ => True
  | AInt64 i => int64_ok i
  | _ => False
  end.

(** A list of strings, what several elements give. *)
Definition listy (v : any) : Prop := is_Some (as_strs v).

Definition text_only (ts : list TransformSpec) : Prop :=
  Forall (fun t => Op t ∉ [OpParseInt; OpParseFloat; OpParsePrice]) ts.

Lemma ParseInt_range s i : ParseInt s = Ok i -> int64_ok i.
Proof.
  unfold ParseInt, int64_ok. destruct (split_sign _) as [neg l].
  destruct (_ || _); [done|]. set (z := if neg then _ else _).
  destruct ((int64_min <=? z) && (z <=? int64_max)) eqn:E; [|done].
  apply andb_true_iff in E as [?%Z.leb_le ?%Z.leb_le]. intros [= <-]. done.
Qed.

Lemma int_of_float_range q : int64_ok (int_of_float q).
Proof.
  unfold int_of_float, int64_ok. cbv zeta. set (z := _ ÷ _).
  destruct ((int64_min <=? z) && (z <=? int64_max)) eqn:E.
  - by apply andb_true_iff in E as [?%Z.leb_le ?%Z.leb_le].
  - by vm_compute.
Qed.

Lemma any_float_scalar f : scalar (any_float f).
Proof. by destruct f. Qed.

#[export] Hint Resolve ParseInt_range int_of_float_range any_float_scalar : crawler.

Lemma applyTransform_scalar t v : scalar v -> scalar (applyTransform t v).
Proof.
  intros Hv. unfold applyTransform, on_str.
  destruct v as [|s|i|i|f|s|b| |l|l|m]; try done; repeat (case_match; try done); simpl in *;
    eauto with crawler.
Qed.

Lemma applyTransform_listy t v : listy v -> listy (applyTransform t v).
Proof.
  unfold listy. intros [l Hl]. unfold applyTransform, on_str.
  destruct v; try done; repeat case_match; simpl in *; try by eexists.
  - by rewrite as_strs_strs. - by rewrite as_strs_strs.
Qed.

#[local] Arguments applyTransform : simpl never.

(** Without numeric transforms a string stays a string. *)
Lemma applyTransform_text t s :
  Op t ∉ [OpParseInt; OpParseFloat; OpParsePrice] -> exists s', applyTransform t (AStr s) = AStr s'.
Proof.
  intros Ht. unfold applyTransform, on_str, as_strs. repeat case_match; try by eexists.
  all: exfalso; apply Ht; repeat match goal with H : bool_decide _ = true |- _ =>
    apply bool_decide_eq_true in H end; set_solver.
Qed.

Lemma transforms_keep (P : any -> Prop) ts v :
  (forall t v, P v -> P (applyTransform t v)) -> P v ->
  P (fold_left (fun v t => applyTransform t v) ts v).
Proof. intros Hp. revert v. induction ts as [|t ts IH]; simpl; auto. Qed.

Lemma transforms_text ts s :
  text_only ts -> exists s', fold_left (fun v t => applyTransform t v) ts (AStr s) = AStr s'.
Proof.
  intros Ht. revert s. induction Ht as [|t ts Ht _ IH]; intros s; simpl; [by eexists|].
  destruct (applyTransform_text t s Ht) as [s' ->]. apply IH.
Qed.

(** The shape a declared type promises of a scalar. *)
Definition has_type (ty : ValueType) (v : any) : Prop :=
  (ty = ValueString -> exists s, v = AStr s)
  /\ (ty = ValueInt -> exists i, v = AInt64 i /\ int64_ok i)
  /\ (ty = ValueFloat -> exists f, v = any_float f).

Lemma convertToType_scalar ty v v' : scalar v -> convertToType v ty = Ok v' -> has_type ty v'.
Proof.
  intros Hv E. unfold has_type.
  split; [|split]; intros ->; unfold convertToType in E; simpl in E;
    destruct v; simpl in *; try done; simplify_eq/=;
    try (apply res_bind_Ok in E as (x & Ex & E); simplify_eq/=); eauto with crawler.
  - eexists. split; [done|]. by vm_compute.
  - by eexists (FFinite _).
  - by eexists (FFinite _).
  - by eexists (FSpecial _).
Qed.

(** A list is returned as it is whatever the declared type. *)
Lemma convertToType_listy ty v : listy v -> convertToType v ty = Ok v.
Proof.
  intros [l Hl]. unfold convertToType. destruct v; try done; repeat case_match; done.
Qed.

Lemma transform_value_scalar spec s v :
  transform_value spec (AStr s) = Ok v -> v = ANil \/ has_type (FType spec) v.
Proof.
  unfold transform_value. destruct s as [|c s]; [intros [= <-]; by left|].
  intros E. right. eapply convertToType_scalar, E.
  apply transforms_keep; [apply applyTransform_scalar|done].
Qed.

Lemma transform_value_text spec s v :
  text_only (Transforms spec) -> transform_value spec (AStr s) = Ok v ->
  v = ANil \/ (FType spec = ValueBool -> exists b, v = ABool b)
           /\ (FType spec = ValueURL -> exists s' u, v = AStr s' /\ url_Parse s' = Ok u).
Proof.
  unfold transform_value. destruct s as [|c s]; [intros _ [= <-]; by left|].
  intros Ht. destruct (transforms_text _ (String c s) Ht) as [s' ->]. intros E. right.
  split; intros Hty; rewrite Hty in E; unfold convertToType in E; simpl in E;
    apply res_bind_Ok in E as (x & Ex & E); simplify_eq/=; eauto.
Qed.

Lemma transform_value_listy spec v v' :
  listy v -> transform_value spec v = Ok v' -> listy v'.
Proof.
  intros Hv E.
  assert (Hl : listy (fold_left (fun v t => applyTransform t v) (Transforms spec) v))
    by (apply transforms_keep; [apply applyTransform_listy|done]).
  destruct Hv as [l Hv]. destruct v; try done; simpl in E;
    rewrite convertToType_listy in E by done; by injection E as <-.
Qed.

Section ExtractionProperties.
Context `{HtmlLib}.

(** What the extractor gives before the transforms. *)
Lemma extractWithCSS_shape spec doc base v :
  extractWithCSS spec doc base = Ok v ->
  Find doc (Selector spec) <> [] /\
  if Multiple spec
  then (exists l, v = strs l /\ Forall (fun s => s <> "") l) \/ (Index spec <> None /\ exists s, v = AStr s)
  else exists s, v = AStr s.
Proof.
  unfold extractWithCSS, extractWithCSSFromSelection.
  destruct (Find doc (Selector spec)) as [|n ns]; [done|]. intros E. split; [done|].
  destruct (Multiple spec); [|injection E as <-; by eexists].
  set (results := filter _ _) in E.
  assert (Hr : Forall (fun s => s <> "") results).
  { apply Forall_forall. by intros x [Hx _]%list_elem_of_filter. }
  destruct (Index spec) as [i|]; [|injection E as <-; eauto].
  destruct (_ && _); injection E as <-; [right|left]; eauto.
Qed.

Lemma omap_if_fmap {A B} (P : A -> Prop) `{!forall x, Decision (P x)} (g : A -> B) (l : list A) :
  omap (fun x => if decide (P x) then Some (g x) else None) l = g <$> filter P l.
Proof.
  induction l as [|x l IH]; [done|]. rewrite filter_cons. csimpl. rewrite IH.
  by destruct (decide (P x)).
Qed.

Lemma fold_insert_lookup {A B} (f : A -> string) (g : A -> option B) l (m : gmap string B) k :
  fold_left (fun m x => match g x with Some v => <[f x := v]> m | None => m end) l m !! k
  = match last (omap (fun x => if decide (f x = k) then g x else None) l) with
    | Some v => Some v
    | None => m !! k
    end.
Proof.
  revert m. induction l as [|x l IH]; intros m; simpl; [done|]. rewrite IH.
  destruct (g x) as [v|]; destruct (decide (f x = k)) as [<-|Hk]; try done.
  - rewrite lookup_insert_eq, last_cons. by destruct (last _).
  - by rewrite lookup_insert_ne.
Qed.

(** Nil, or a value of the declared type: a string, an int64 in range or a float; with transforms
    that keep texts, a bool for a bool field and a text that parses as a URL for a URL field. *)
Definition typed_value (spec : FieldSpec) (v : any) : Prop :=
  v = ANil \/ (has_type (FType spec) v
    /\ (text_only (Transforms spec) ->
         (FType spec = ValueBool -> exists b, v = ABool b)
         /\ (FType spec = ValueURL -> exists s u, v = AStr s /\ url_Parse s = Ok u))).

Lemma text_typed spec s v : transform_value spec (AStr s) = Ok v -> typed_value spec v.
Proof.
  intros E. destruct (transform_value_scalar _ _ _ E) as [?|?]; [by left|].
  destruct v; try (by left); right; (split; [done|]); intros Ht;
    destruct (transform_value_text _ _ _ Ht E) as [?|?]; done.
Qed.

(** C39: the type of extracted values.  A field that asks for one element gives nil or a value of
    its declared type ([typed_value]).  A field that asks for all elements gives a list of strings,
    whatever its declared type, unless it also has an index and the index picks one of them, which
    is then typed like a single element. *)
Theorem extractField_typed spec doc base v :
  extractField spec doc base = Ok v ->
  (Multiple (Extractor spec) = false -> typed_value spec v)
  /\ (Multiple (Extractor spec) = true ->
      (exists l, as_strs v = Some l) \/ (Index (Extractor spec) <> None /\ typed_value spec v)).
Proof.
  unfold extractField. intros (raw & Er & E)%res_bind_Ok.
  destruct (extractWithCSS_shape _ _ _ _ Er) as [_ Hs]. split; intros Hm; rewrite Hm in Hs.
  - destruct Hs as [s ->]. by eapply text_typed.
  - destruct Hs as [(l & -> & _)|[Hi [s ->]]]; [left|right; split; [done|by eapply text_typed]].
    apply (transform_value_listy spec (strs l)); [|done]. by eexists; apply as_strs_strs.
Qed.

(** A page with failures.  The result of a page that parses is total: every declared field is
    present, with the value of the last field of its name or nil when that one failed; there is
    one item per container, and an item holds for each name the value of the last field of that
    name that succeeded, so that a failing field never costs another field or item. *)
Theorem extractData_total task spec html doc :
  parseHTMLDocument html = Ok doc ->
  exists r, extractData task spec html = Ok r
  /\ (forall k, RFields r !! k =
        last ((fun f => match extractField f doc
                          (match page_url task with Ok u => Some u | Err _ => None end)
                        with Ok v => v | Err _ => ANil end)
              <$> filter (fun f => FName f = k) (Fields spec)))
  /\ (forall items i container, Items spec = Some items -> ContainerSelector items <> "" ->
        Find doc (ContainerSelector items) !! i = Some container ->
        exists item, RItems r !! i = Some item /\ forall k, item !! k =
          last (omap (fun f => if decide (FName f = k) then
                                 match extractFieldFromSelection f container
                                   (match page_url task with Ok u => Some u | Err _ => None end)
                                 with Ok v => Some v | Err _ => None end
                               else None) (IFields items)))
  /\ (forall items, Items spec = Some items -> ContainerSelector items <> "" ->
        length (RItems r) = length (Find doc (ContainerSelector items))).
Proof.
  intros Ed. unfold extractData. rewrite Ed.
  set (base := match page_url task with Ok u => Some u | Err _ => None end).
  eexists. split; [done|]. simpl. split; [|split].
  - intros k. unfold extract_fields.
    set (g := fun f => match extractField f doc base with Ok v => v | Err _ => ANil end).
    rewrite (fold_insert_lookup FName (fun f => Some (g f)) (Fields spec) ∅ k).
    rewrite lookup_empty.
    rewrite (omap_if_fmap (fun f => FName f = k) g). by destruct (last _).
  - intros items i c -> Hs Hc. unfold extractItems.
    rewrite bool_decide_eq_false_2 by done. rewrite list_lookup_fmap, Hc. simpl.
    eexists. split; [done|]. intros k. unfold extract_item.
    set (g := fun f => match extractFieldFromSelection f c base with Ok v => Some v | Err _ => None end).
    assert (E : forall l (m : gmap string any), fold_left (fun item spec =>
        match extractFieldFromSelection spec c base with
        | Ok v => <[FName spec := v]> item | Err _ => item end) l m
      = fold_left (fun m x => match g x with Some v => <[FName x := v]> m | None => m end) l m).
    { induction l as [|f l IH]; intros m; [done|]. cbn [fold_left]. rewrite IH. unfold g.
      by destruct (extractFieldFromSelection f c base). }
    rewrite E, fold_insert_lookup, lookup_empty. unfold g. by destruct (last _).
  - intros items -> Hs. unfold extractItems.
    rewrite bool_decide_eq_false_2 by done. by rewrite length_fmap.
Qed.

End ExtractionProperties.

(** The elements, in order, without repetition. *)
Definition dedup_of (l l' : list string) : Prop :=
  NoDup l' /\ (forall x, x ∈ l' <-> x ∈ l) /\ l' `sublist_of` l.

Lemma apply_unique arg l :
  applyTransform {| Op := OpUnique; Arg := arg |} (strs l) = strs (unique_from ∅ l).
Proof. by destruct l. Qed.

Lemma apply_limit arg l :
  applyTransform {| Op := OpLimit; Arg := arg |} (strs l)
  = if (0 <=? limit_arg arg) && (limit_arg arg <? Z.of_nat (length l))
    then AStrs (take (Z.to_nat (limit_arg arg)) l) else strs l.
Proof. by destruct l. Qed.

(** Transforms of lists and texts.  "unique" keeps one occurrence of each element, in the
    order of the list, and is idempotent; "limit" with a number n keeps the first n elements, and
    all of them when n is negative or the list is not longer; "html_to_text" leaves no "<" that a
    ">" follows. *)
Theorem applyTransform_normal arg l s :
  (exists l', as_strs (applyTransform {| Op := OpUnique; Arg := arg |} (strs l)) = Some l'
     /\ dedup_of l l'
     /\ as_strs (applyTransform {| Op := OpUnique; Arg := arg |} (strs l')) = Some l')
  /\ as_strs (applyTransform {| Op := OpLimit; Arg := arg |} (strs l))
     = Some (if bool_decide (0 <= limit_arg arg) then take (Z.to_nat (limit_arg arg)) l else l)
  /\ exists s', applyTransform {| Op := OpHTMLToText; Arg := arg |} (AStr s) = AStr s'
                /\ tag_free (bytes_of s').
Proof.
  assert (Hu : forall l, as_strs (applyTransform {| Op := OpUnique; Arg := arg |} (strs l))
                         = Some (unique_from ∅ l))
    by (intros k; rewrite apply_unique; apply as_strs_strs).
  split; [|split].
  - exists (unique_from ∅ l). split; [apply Hu|]. split; [split; [apply unique_from_NoDup|split]|].
    + intros x. rewrite unique_from_elem. set_solver.
    + apply unique_from_sublist.
    + rewrite Hu, unique_from_id; [done|apply unique_from_NoDup|set_solver].
  - rewrite apply_limit. destruct (Z.leb_spec 0 (limit_arg arg)); case_bool_decide; try lia; simpl;
      [|apply as_strs_strs].
    destruct (Z.ltb_spec (limit_arg arg) (Z.of_nat (length l))); simpl; [done|].
    rewrite as_strs_strs, take_ge; [done|]. lia.
  - eexists. split; [done|]. unfold html_to_text. rewrite bytes_of_bytes. apply strip_tag_free.
Qed.

(** ** A document for concrete runs: elements with a tag, attributes, a text and children *)

Inductive dom_node := Dom (tag : string) (attrs : list (string * string)) (text : string) (children : list dom_node).

Fixpoint descendants (d : dom_node) : list dom_node :=
  match d with Dom _ _ _ cs => mjoin ((fun c => c :: descendants c) <$> cs) end.
Definition dom_tag (d : dom_node) : string := match d with Dom t _ _ _ => t end.
Definition dom_attr (d : dom_node) (k : string) : option string :=
  match d with Dom _ a _ _ => (list_to_map a : gmap string string) !! k end.
Fixpoint dom_text (d : dom_node) : string :=
  match d with Dom _ _ t cs => fold_left (fun acc s => acc +:+ s) (dom_text <$> cs) t end.

Definition demo_page : dom_node :=
  Dom "#document" [] "" [
    Dom "h1" [] " Title " []; Dom "p" [] "$19.99 each" []; Dom "p" [] "b" [];
    Dom "a" [("href", "/next?page=2#top")] "next" []; Dom "a" [("href", "mailto:x@a.b")] "mail" [];
    Dom "a" [("href", "http://other.c/")] "other" []].

(** Selectors are tags, or a tag with "[href]"; every page parses to [demo_page]. *)
Definition demo_html : HtmlLib := {|
  node := dom_node;
  charset_NewReader s := Ok s;
  NewDocumentFromReader _ := Ok demo_page;
  Find d sel := filter (fun c => dom_tag c = sel \/ (sel = dom_tag c +:+ "[href]" /\ is_Some (dom_attr c "href")))
                  (descendants d);
  Text := dom_text;
  Html d := Ok (dom_text d);
  Attr := dom_attr |}.

#[local] Existing Instance demo_html.

Definition demo_field (sel : string) (ty : ValueType) (multiple : bool) (ops : list TransformOp) : FieldSpec :=
  {| FName := sel; FType := ty; Required := true;
     Extractor := {| Selector := sel; Attribute := ""; Multiple := multiple; Index := None |};
     Transforms := (fun op => {| Op := op; Arg := ANil |}) <$> ops |}.

Definition demo_task_at (u : string) : CrawlTask := {|
  TID := MkID "t1"; JobID := MkID "j1"; Job := None; URL := u; FinalURL := None;
  Status := TaskStatusFetched; EnqueuedAt := 2; Depth := 0; MinioObjectKey := "page";
  ResultObjectKey := None; ResultContentType := None; ResultSizeBytes := None;
  ResultCreatedAt := None; ErrorMessage := None |}.

Example extract_title :
  extractField (demo_field "h1" ValueString false [OpUpper]) demo_page None = Ok (AStr "TITLE").
Proof. vm_compute. reflexivity. Qed.
Example extract_price :
  extractField (demo_field "p" ValueFloat false [OpParsePrice]) demo_page None
  = Ok (AFloat (5626684784446013 # 281474976710656)).
Proof. vm_compute. reflexivity. Qed.
Example extract_list :
  extractField (demo_field "p" ValueString true []) demo_page None = Ok (AStrs ["$19.99 each"; "b"]).
Proof. vm_compute. reflexivity. Qed.

Lemma extractField_typed_witness :
  extractField (demo_field "p" ValueInt false [OpParsePrice]) demo_page None = Ok (AInt64 19)
  /\ (AInt64 19 = ANil \/ has_type ValueInt (AInt64 19)).
Proof.
  assert (E : extractField (demo_field "p" ValueInt false [OpParsePrice]) demo_page None = Ok (AInt64 19))
    by (vm_compute; reflexivity).
  split; [exact E|]. destruct (extractField_typed _ _ _ _ E) as [H _].
  destruct (H eq_refl) as [?|[? _]]; [left|right]; assumption.
Defined.

Lemma extractData_total_witness :
  exists r, extractData (demo_task_at "http://a.b/")
    {| Fields := [demo_field "h1" ValueString false []; demo_field "h9" ValueString false []];
       Pagination := []; Items := None |} "<html>" = Ok r
  /\ RFields r !! "h1" = Some (AStr "Title") /\ RFields r !! "h9" = Some ANil.
Proof.
  destruct (@extractData_total demo_html (demo_task_at "http://a.b/")
    {| Fields := [demo_field "h1" ValueString false []; demo_field "h9" ValueString false []];
       Pagination := []; Items := None |} "<html>" demo_page eq_refl) as (r & E & Hf & _).
  exists r. split; [exact E|]. rewrite !Hf. split; vm_compute; reflexivity.
Defined.
