(* ===== verification/ParserWorker.v ===== *)
(** * The parser worker

    [worker/parser_worker.go]: a parsing message loads the task, its job and configuration and the
    stored page; the page is extracted, the result is stored, links and pagination targets become
    new tasks, and in one transaction the task is marked as parsed and the new tasks are inserted;
    the tasks that were inserted are published to the crawl queues. *)

From S2P Require Import Prelude GoStrings Domain Json Converters World Sql Repos Routing GoUrl.
From S2P Require Import Scope FetchWorker GoNum Extraction.

(** The order in which [for k := range m] visits the keys of a map. *)
Class MapOrder := {
  map_order_at : nat -> list string -> list string;
  map_order_perm n l : map_order_at n l ≡ₚ l }.

Section ParserWorker.
Context `{RobotsTxtService, RegexpLib, JsonLib, HtmlLib, MapOrder}.

Record ParserWorker := { pw_parsingQueue : string; pw_availableQueues : list string }.

Definition range_set (s : gset string) : M (list string) :=
  observe (fun n => map_order_at n (elements s)).

(** ** Links *)

(** A reference of the page made absolute, without its fragment; only http and https. *)
Definition absolute_link (baseURL : url) (ref : string) : option string :=
  match url_Parse (TrimSpace ref) with
  | Err _ => None
  | Ok linkURL =>
      let u := ResolveReference baseURL linkURL in
      let scheme := ToLower (of_bytes (Scheme u)) in
      if negb (bool_decide (scheme = "http")) && negb (bool_decide (scheme = "https")) then None
      else Some (url_String
        {| Scheme := Scheme u; Opaque := Opaque u; UserInfo := UserInfo u; Host := Host u;
           Path := Path u; RawPath := RawPath u; OmitHost := OmitHost u;
           ForceQuery := ForceQuery u; RawQuery := RawQuery u; Fragment := [];
           RawFragment := RawFragment u |})
  end.

(** [extractURL] of the pagination loop. *)
Definition pagination_link (baseURL : url) (attribute : string) (s : node) : option string :=
  let rawValue := extractElementValue s attribute (Some baseURL) in
  if bool_decide (rawValue = "") then None else absolute_link baseURL rawValue.

Definition pagination_urls (specs : list PaginationSpec) (doc : node) (baseURL : url) : gset string :=
  list_to_set (spec ← specs;
    if bool_decide (PSelector spec = "") then []
    else
      let attribute := if bool_decide (PAttribute spec = "") then "href" else PAttribute spec in
      let selection := Find doc (PSelector spec) in
      omap (pagination_link baseURL attribute)
        (if PMultiple spec then selection else take 1 selection)).

Definition discovered_link (baseURL : url) (s : node) : option string :=
  match Attr s "href" with
  | None => None
  | Some href => if bool_decide (href = "") then None else absolute_link baseURL href
  end.

Definition discovered_urls (doc : node) (baseURL : url) : gset string :=
  list_to_set (omap (discovered_link baseURL) (Find doc "a[href]")).

(** A task for a link that passes the scope, the URL patterns and robots.txt. *)
Definition link_task (crawlTask : CrawlTask) (jobConfig : CrawlJobConfig)
    (allowedURLPatterns : list (list rtok)) (nextDepth now : Z) (link : string)
  : M (list CrawlTask) :=
  match Validate link nextDepth (Scopes jobConfig) with
  | Err _ => mret []
  | Ok _ =>
      if negb (allowed_url allowedURLPatterns link) then mret []
      else
        allowed ← robots_ok jobConfig link;
        if negb allowed then mret []
        else
          taskID ← uuid_New;
          mret [{| TID := MkID taskID; JobID := JobID crawlTask; Job := None; URL := link;
                   FinalURL := None; Status := TaskStatusInProgress; EnqueuedAt := now;
                   Depth := nextDepth; MinioObjectKey := ""; ResultObjectKey := None;
                   ResultContentType := None; ResultSizeBytes := None; ResultCreatedAt := None;
                   ErrorMessage := None |}]
  end.

Fixpoint link_tasks (crawlTask : CrawlTask) (jobConfig : CrawlJobConfig)
    (allowedURLPatterns : list (list rtok)) (nextDepth now : Z) (links : list string)
  : M (list CrawlTask) :=
  match links with
  | [] => mret []
  | link :: links =>
      new ← link_task crawlTask jobConfig allowedURLPatterns nextDepth now link;
      rest ← link_tasks crawlTask jobConfig allowedURLPatterns nextDepth now links;
      mret (new ++ rest)
  end.

(** The tasks of a set of links, one level deeper than the page. *)
Definition tasks_of_links (crawlTask : CrawlTask) (jobConfig : CrawlJobConfig)
    (allowedURLPatterns : list (list rtok)) (urls : gset string) : M (res (list CrawlTask)) :=
  if bool_decide (urls = ∅) then ret_ok []
  else
    let nextDepth := wrapu 64 (Depth crawlTask + 1) in
    now ← time_Now;
    links ← range_set urls;
    tasks ← link_tasks crawlTask jobConfig allowedURLPatterns nextDepth now links;
    ret_ok tasks.

(** The document and the base URL of a page. *)
Definition link_source (what : string) (crawlTask : CrawlTask) (htmlContent : string)
  : res (node * url) :=
  match parseHTMLDocument htmlContent with
  | Err e => Err (Errorf ("failed to parse HTML for " +:+ what) e)
  | Ok doc =>
      match page_url crawlTask with
      | Err e => Err (Errorf "failed to parse base URL" e)
      | Ok baseURL => Ok (doc, baseURL)
      end
  end.

Definition preparePaginationLinks (crawlTask : CrawlTask) (htmlContent : string)
    (jobConfig : CrawlJobConfig) : M (res (list CrawlTask)) :=
  try allowedURLPatterns <- lift_res (CompileAllowedURLPatterns (AllowedURLPatterns (Scopes jobConfig)))
    else e => ret_err (Errorf "invalid scopes.allowed_url_patterns" e);
  match Pagination (CfgExtractionSpec jobConfig) with
  | [] => ret_ok []
  | specs =>
      if MaxDepth (Scopes jobConfig) <=? Depth crawlTask then ret_ok []
      else
        try src <- lift_res (link_source "pagination extraction" crawlTask htmlContent);
        tasks_of_links crawlTask jobConfig allowedURLPatterns (pagination_urls specs src.1 src.2)
  end.

Definition prepareDiscoveredLinks (crawlTask : CrawlTask) (htmlContent : string)
    (jobConfig : CrawlJobConfig) : M (res (list CrawlTask)) :=
  try allowedURLPatterns <- lift_res (CompileAllowedURLPatterns (AllowedURLPatterns (Scopes jobConfig)))
    else e => ret_err (Errorf "invalid scopes.allowed_url_patterns" e);
  if MaxDepth (Scopes jobConfig) <=? Depth crawlTask then ret_ok []
  else
    try src <- lift_res (link_source "link discovery" crawlTask htmlContent);
    tasks_of_links crawlTask jobConfig allowedURLPatterns (discovered_urls src.1 src.2).

(** ** The result of a page *)

Definition map_any (m : gmap string any) : list (string * any) :=
  merge_sort (fun p q => String.leb p.1 q.1 = true) (map_to_list m).

(** The document [uploadResultToS3] prints; its keys are in order. *)
Definition result_json (taskID url : string) (trace : gmap string string) (result : extractionResult)
  : json :=
  JObj ((if bool_decide (RFields result = ∅) then []
         else [("fields", json_of_any (AMap (map_any (RFields result))))])
        ++ (match RItems result with
            | [] => []
            | items => [("items", JArr ((fun m => json_of_any (AMap (map_any m))) <$> items))]
            end)
        ++ [("task_id", JStr taskID); ("trace_context", smap_json trace); ("url", JStr url)]).

(** Only the values that are not finite floats make [json.MarshalIndent] fail. *)
Definition result_encodable (result : extractionResult) : bool :=
  encodable (AMap (map_any (RFields result)))
  && forallb (fun m => encodable (AMap (map_any m))) (RItems result).

Definition result_key (taskID : string) : string := "results/tasks/" +:+ taskID +:+ ".json".

Definition uploadResultToS3 (taskID url : string) (result : extractionResult)
  : M (res (string * Z)) :=
  trace ← InjectTraceContext;
  if negb (result_encodable result) then
    ret_err (Errorf "failed to marshal output" (ENew "json: unsupported value"))
  else
    let jsonData := marshal_indent (result_json taskID url trace result) in
    let objectKey := result_key taskID in
    try _ <- Store objectKey jsonData
      else e => ret_err (Errorf "failed to upload result to S3" e);
    ret_ok (objectKey, Z.of_nat (String.length jsonData)).

(** ** The handler *)

(** The transaction: the task is parsed and the new tasks are inserted. *)
Definition persist (crawlTask : CrawlTask) (objectKey : string) (sizeBytes : Z)
    (allTasks : list CrawlTask) : M (res (list CrawlTaskID)) :=
  ReadCommitted
    (now ← time_Now;
     try _ <- Task_Update (MarkAsParsed objectKey "application/json" sizeBytes now crawlTask)
       else e => ret_err (Errorf "failed to update task status to parsed" e);
     match allTasks with
     | [] => ret_ok []
     | _ =>
         try ids <- Task_BulkCreate allTasks
           else e => ret_err (Errorf "failed to bulk create new tasks" e);
         ret_ok ids
     end).

(** [taskByID]: the last task of an identifier. *)
Definition task_by_id (allTasks : list CrawlTask) : gmap string CrawlTask :=
  fold_left (fun m t => <[value (TID t) := t]> m) allTasks ∅.

(** The publication of the inserted tasks; an error is logged. *)
Definition publish_inserted (w : ParserWorker) (jobConfig : CrawlJobConfig)
    (allTasks : list CrawlTask) (insertedIDs : list CrawlTaskID) : M unit :=
  match insertedIDs with
  | [] => mret tt
  | _ =>
      traceCtx ← InjectTraceContext;
      for_all (fun id =>
        match task_by_id allTasks !! value id with
        | None => mret tt
        | Some t =>
            targetQueue ← SelectCrawlQueue (pw_availableQueues w) (QueueWeights jobConfig);
            _ ← Publish targetQueue (MsgCrawl
                  {| MTaskID := value id; MJobID := value (JobID t); MURL := URL t;
                     MEnqueuedAt := EnqueuedAt t; MTraceContext := traceCtx |});
            mret tt
        end) insertedIDs
  end.

(** The links of a page under the crawl mode; an error of a preparation is logged. *)
Definition prepare_links (crawlTask : CrawlTask) (htmlContent : string)
    (jobConfig : CrawlJobConfig) : M (list CrawlTask) :=
  let crawlMode := if bool_decide (CfgCrawlMode jobConfig = "") then CrawlModePaginationAndLinks
                   else CfgCrawlMode jobConfig in
  pagination ← (if bool_decide (crawlMode = CrawlModeLinksOnly) then ret_ok []
                else preparePaginationLinks crawlTask htmlContent jobConfig);
  discovery ← (if bool_decide (crawlMode = CrawlModePaginationOnly) then ret_ok []
               else prepareDiscoveredLinks crawlTask htmlContent jobConfig);
  let ok r := match r with Ok l => l | Err _ => [] end in
  mret (ok pagination ++ ok discovery).

(** From the page to the published tasks.  [MarkAsFailed] after a failed transaction overwrites
    every field [MarkAsParsed] has set. *)
Definition parse_page (w : ParserWorker) (taskID : string) (crawlTask : CrawlTask)
    (jobConfig : CrawlJobConfig) (htmlContent : string) : M (res unit) :=
  match extractData crawlTask (CfgExtractionSpec jobConfig) htmlContent with
  | Err err => fail_task crawlTask ("extraction failed: " +:+ Error err)
  | Ok result =>
      try stored <- uploadResultToS3 taskID (URL crawlTask) result
        else err => fail_task crawlTask ("failed to persist results: " +:+ Error err);
      allTasks ← prepare_links crawlTask htmlContent jobConfig;
      try insertedIDs <- persist crawlTask stored.1 stored.2 allTasks
        else err => fail_task crawlTask ("failed to persist results: " +:+ Error err);
      _ ← publish_inserted w jobConfig allTasks insertedIDs;
      ret_ok tt
  end.

Definition handleMessage (w : ParserWorker) (body : string) : M (res unit) :=
  try task <- lift_res (Unmarshal parsing_msg_of_json body)
    else e => ret_err (Errorf "failed to unmarshal task" e);
  try taskID <- lift_res (NewID (PTaskID task))
    else e => ret_err (Errorf "invalid task ID" e);
  try crawlTask <- Task_Get taskID
    else e => (if errors_Is e "pgx.ErrNoRows" then ret_ok tt
               else ret_err (Errorf "failed to load crawl task" e));
  if bool_decide (Status crawlTask = TaskStatusParsed) then ret_ok tt
  else
    try crawlJob <- Job_Get (JobID crawlTask)
      else e => (if errors_Is e "pgx.ErrNoRows" then ret_ok tt
                 else ret_err (Errorf "failed to load crawl job" e));
    try jobConfig <- Config_Get (JobConfigID crawlJob)
      else e => (if errors_Is e "pgx.ErrNoRows" then ret_ok tt
                 else ret_err (Errorf "failed to load job config" e));
    try htmlContent <- Retrieve (MinioObjectKey crawlTask)
      else e => ret_err (Errorf "failed to load HTML from MinIO" e);
    parse_page w (PTaskID task) crawlTask jobConfig htmlContent.

End ParserWorker.

(** ** Lemmas on links *)

Section Links.
Context `{RobotsTxtService, RegexpLib, JsonLib, HtmlLib, MapOrder}.

(** What a new task is: of the same job, one level deeper, in progress, without a result, its URL
    in scope, allowed by the patterns and not refused by robots.txt. *)
Definition child (d : database) (t : CrawlTask) (c : CrawlJobConfig) (r : CrawlTask) : Prop :=
  JobID r = JobID t /\ Status r = TaskStatusInProgress /\ ResultObjectKey r = None
  /\ Depth t < MaxDepth (Scopes c) /\ Depth r = wrapu 64 (Depth t + 1)
  /\ Validate (URL r) (Depth r) (Scopes c) = Ok tt /\ robots_passed d c (URL r)
  /\ exists pats, CompileAllowedURLPatterns (AllowedURLPatterns (Scopes c)) = Ok pats
       /\ allowed_url pats (URL r) = true.

(** A computation that starts on the database [d] leaves it alone and gives a value of [Q]. *)
Definition yields_on {A} (d : database) (Q : A -> Prop) (m : M A) : Prop :=
  forall w x w', db w = d -> m w = (Ret x, w') -> Q x /\ db w' = d.

Lemma on_ret {A} d (Q : A -> Prop) x : Q x -> yields_on d Q (mret x).
Proof. intros Hx w y w' Hd [= <- <-]. by split. Qed.

Lemma on_bind {A B} d (P : A -> Prop) (Q : B -> Prop) (m : M A) (f : A -> M B) :
  yields_on d P m -> (forall x, P x -> yields_on d Q (f x)) -> yields_on d Q (m ≫= f).
Proof.
  intros Hm Hf w y w' Hd. unfold mbind, M_bind. destruct (m w) as [[x|s] w1] eqn:E; [|done].
  destruct (Hm w x w1 Hd E) as [Hx Hd1]. by apply Hf.
Qed.

Lemma on_any {A} d (m : M A) : keeps same_store m -> yields_on d (fun _ => True) m.
Proof. intros Hm w x w' Hd E. split; [done|]. by destruct (service_run _ _ _ _ Hm E) as (-> & _). Qed.

Lemma on_lift {A B} d (r : res A) (h : gerror -> M (res B)) k (Q : res B -> Prop) :
  (forall e, yields_on d Q (h e)) -> (forall x, r = Ok x -> yields_on d Q (k x)) ->
  yields_on d Q (try_bind (lift_res r) h k).
Proof.
  intros Hh Hk w x w' Hd. unfold try_bind, lift_res, mbind, M_bind, mret, M_ret.
  destruct r as [y|e]; [by apply Hk|by apply Hh].
Qed.

Lemma same_observe {A} (f : nat -> A) : keeps same_store (observe f).
Proof. by intros w. Qed.

Lemma robots_on d c l : yields_on d (fun ok => ok = true -> robots_passed d c l) (robots_ok c l).
Proof.
  intros w ok w' Hd E. split; [|by destruct (service_run _ _ _ _ (robots_ok_keeps c l) E) as (-> & _)].
  intros ->. by eapply robots_ok_passed.
Qed.

Lemma link_tasks_child d t c pats now links :
  CompileAllowedURLPatterns (AllowedURLPatterns (Scopes c)) = Ok pats ->
  Depth t < MaxDepth (Scopes c) ->
  yields_on d (Forall (child d t c)) (link_tasks t c pats (wrapu 64 (Depth t + 1)) now links).
Proof.
  intros Hp Hd. induction links as [|l ls IH]; simpl; [by apply on_ret|].
  eapply (on_bind d (Forall (child d t c))).
  - unfold link_task. destruct (Validate l _ _) as [[]|e] eqn:Ev; [|by apply on_ret].
    destruct (allowed_url pats l) eqn:Ea; simpl; [|by apply on_ret].
    eapply on_bind; [apply robots_on|]. intros [] Hr; simpl; [|by apply on_ret].
    eapply on_bind; [apply on_any, same_observe|]. intros id _. apply on_ret.
    apply Forall_singleton. specialize (Hr eq_refl). repeat split; simpl; eauto.
  - intros new Hn. eapply on_bind; [exact IH|]. intros rest Hr. apply on_ret.
    by apply Forall_app.
Qed.

(** A list result of children, or an error. *)
Definition children (d : database) (t : CrawlTask) (c : CrawlJobConfig) (r : res (list CrawlTask)) : Prop :=
  forall l, r = Ok l -> Forall (child d t c) l.

Lemma on_children_nil d t c : yields_on d (children d t c) (ret_ok []).
Proof. apply on_ret. by intros l [= <-]. Qed.

Lemma on_children_err d t c e : yields_on d (children d t c) (ret_err e).
Proof. apply on_ret. by intros l ?. Qed.

Lemma tasks_of_links_child d t c pats urls :
  CompileAllowedURLPatterns (AllowedURLPatterns (Scopes c)) = Ok pats ->
  Depth t < MaxDepth (Scopes c) -> yields_on d (children d t c) (tasks_of_links t c pats urls).
Proof.
  intros Hp Hd. unfold tasks_of_links. case_bool_decide; [apply on_children_nil|].
  do 2 (eapply on_bind; [apply on_any, same_observe|]; intros ? _).
  eapply on_bind; [by apply link_tasks_child|]. intros l Hl. apply on_ret.
  by intros ? [= <-].
Qed.

Lemma preparePaginationLinks_child d t html c :
  yields_on d (children d t c) (preparePaginationLinks t html c).
Proof.
  unfold preparePaginationLinks. apply on_lift; [intros e; apply on_children_err|]. intros pats Hp.
  destruct (Pagination _) as [|s ss]; [apply on_children_nil|].
  destruct (Z.leb_spec (MaxDepth (Scopes c)) (Depth t)); [apply on_children_nil|].
  apply on_lift; intros; [apply on_children_err|by apply tasks_of_links_child].
Qed.

Lemma prepareDiscoveredLinks_child d t html c :
  yields_on d (children d t c) (prepareDiscoveredLinks t html c).
Proof.
  unfold prepareDiscoveredLinks. apply on_lift; [intros e; apply on_children_err|]. intros pats Hp.
  destruct (Z.leb_spec (MaxDepth (Scopes c)) (Depth t)); [apply on_children_nil|].
  apply on_lift; intros; [apply on_children_err|by apply tasks_of_links_child].
Qed.

Lemma prepare_links_child d t html c : yields_on d (Forall (child d t c)) (prepare_links t html c).
Proof.
  unfold prepare_links.
  eapply (on_bind d (children d t c)).
  { case_bool_decide; [apply on_children_nil|apply preparePaginationLinks_child]. }
  intros r1 Hr1. eapply (on_bind d (children d t c)).
  { case_bool_decide; [apply on_children_nil|apply prepareDiscoveredLinks_child]. }
  intros r2 Hr2. apply on_ret. apply Forall_app.
  split; [destruct r1|destruct r2]; try apply Forall_nil_2; [by apply Hr1|by apply Hr2].
Qed.

Lemma link_tasks_keeps t c pats d now links :
  keeps same_store (link_tasks t c pats d now links).
Proof.
  induction links as [|l ls IH]; simpl; [apply keeps_ret; exact _|].
  unfold link_task, uuid_New.
  keeps_steps first [exact IH | apply robots_ok_keeps | apply same_observe].
Qed.

Lemma prepare_links_keeps t html c : keeps same_store (prepare_links t html c).
Proof.
  unfold prepare_links, preparePaginationLinks, prepareDiscoveredLinks, tasks_of_links, ret_ok,
    ret_err, lift_res, time_Now, range_set.
  keeps_steps first [apply link_tasks_keeps | apply same_observe].
Qed.

End Links.

(** ** Lemmas on the steps of a page *)

Section Steps.
Context `{RobotsTxtService, RegexpLib, JsonLib, HtmlLib, MapOrder}.

Lemma uploadResultToS3_out taskID u res a :
  exists r b, uploadResultToS3 taskID u res a = (Ret r, b)
    /\ db b = db a /\ tx b = tx a /\ published b = published a
    /\ (objects b = objects a \/ exists v, objects b = <[result_key taskID := v]> (objects a))
    /\ forall p, r = Ok p -> p.1 = result_key taskID /\ result_encodable res = true
         /\ exists trace, objects b !! result_key taskID
                          = Some (marshal_indent (result_json taskID u trace res)).
Proof.
  unfold uploadResultToS3, InjectTraceContext. rewrite (bind_ret _ _ _ _ _ (observe_ret _ _)).
  destruct (result_encodable res) eqn:Er; simpl; [|eexists _, _; split; [done|]; repeat split; eauto; done].
  unfold Store. set (v := marshal_indent _).
  destruct (call_out (fun w => (tt, put_object (result_key taskID) v w)) (tick a))
    as (r & b & E & Hc & Hr).
  rewrite (try_run _ _ _ _ _ _ E). destruct r as [[]|e].
  - specialize (Hr tt eq_refl). injection Hr as ->. eexists _, _. split; [done|]. simpl.
    repeat (split; [done|]). split; [right; by eexists|]. intros p [= <-].
    split; [done|]. split; [done|]. eexists. apply lookup_insert_eq.
  - eexists _, _. split; [done|]. destruct Hc as [[_ ->]| ->]; simpl;
      (split; [done|]; split; [done|]; split; [done|]; split; [eauto|done]).
Qed.

(** New rows share neither an identifier nor a URL of their job with the old ones or among
    themselves. *)
Definition job_url (r : CrawlTaskSnapshot) : string * string := (ts_JobID r, ts_URL r).
Definition fresh_rows (old new : list CrawlTaskSnapshot) : Prop :=
  (forall r x, r ∈ new -> x ∈ old -> ts_ID x <> ts_ID r /\ job_url x <> job_url r)
  /\ NoDup (ts_ID <$> new) /\ NoDup (job_url <$> new).

Lemma fresh_nil old : fresh_rows old [].
Proof. split; [by inversion 1|]. split; constructor. Qed.

Lemma fresh_cons old t new :
  (forall x, x ∈ old -> ts_ID x <> ts_ID t /\ job_url x <> job_url t) ->
  fresh_rows (old ++ [t]) new -> fresh_rows old (t :: new).
Proof.
  intros Ht (Hf & Hn1 & Hn2). split; [|split].
  - intros r x [->|Hr]%elem_of_cons Hx; [by apply Ht|]. apply Hf; [done|]. set_solver.
  - rewrite fmap_cons. constructor; [|done]. intros (r & E & Hr)%list_elem_of_fmap.
    destruct (Hf r t Hr) as [? _]; [set_solver|congruence].
  - rewrite fmap_cons. constructor; [|done]. intros (r & E & Hr)%list_elem_of_fmap.
    destruct (Hf r t Hr) as [_ ?]; [set_solver|congruence].
Qed.

Lemma insert_task_out t d id d' :
  insert_task t d = Ok (id, d') ->
  id = ts_ID t /\ d' = upd_tasks (fun l => l ++ [t]) d
  /\ forall x, x ∈ tasks d -> ts_ID x <> ts_ID t /\ job_url x <> job_url t.
Proof.
  unfold insert_task, guard_. intros E.
  destruct (task_pk_ok t d) eqn:Epk; [|done]. destruct (task_url_ok t d) eqn:Eu; [|done].
  destruct (task_fk_ok t d); [|done]. simpl in E. injection E as <- <-. split; [done|]. split; [done|].
  intros x Hx. unfold task_pk_ok in Epk. unfold task_url_ok in Eu. rewrite not_existsb in Epk, Eu.
  specialize (Epk x Hx). specialize (Eu x Hx). apply bool_decide_eq_false in Epk.
  unfold same_job_url in Eu. unfold job_url.
  apply andb_false_iff in Eu. rewrite !bool_decide_eq_false in Eu.
  split; [done|]. intros [= ? ?]. tauto.
Qed.

(** A row that is skipped has the job and the URL of one that is there. *)
Lemma task_url_taken t d : task_url_ok t d = false -> job_url t ∈ job_url <$> tasks d.
Proof.
  unfold task_url_ok. rewrite negb_false_iff. intros (r & Hr & E)%existsb_exists.
  unfold same_job_url in E. apply andb_true_iff in E as [Ej%bool_decide_eq_true Eu%bool_decide_eq_true].
  apply list_elem_of_fmap. exists r. split; [|by apply list_elem_of_In].
  unfold job_url. congruence.
Qed.

(** The rows an insertion adds: every row of the call is there afterwards, itself or as one of its
    job and URL. *)
Lemma insert_tasks_out rows d ids d' :
  insert_tasks rows d = Ok (ids, d') ->
  exists new, d' = upd_tasks (fun l => l ++ new) d /\ new `sublist_of` rows /\ ids = ts_ID <$> new
              /\ fresh_rows (tasks d) new /\ forall r, r ∈ rows -> job_url r ∈ job_url <$> tasks d ++ new.
Proof.
  revert d ids d'. induction rows as [|t rows IH]; simpl; intros d ids d' E.
  - injection E as <- <-. exists [].
    split; [|split; [constructor|split; [done|split; [apply fresh_nil|by inversion 1]]]].
    unfold upd_tasks. rewrite app_nil_r. by destruct d.
  - destruct (task_url_ok t d) eqn:Eu.
    + apply res_bind_Ok in E as ([id d1] & E1 & E). apply res_bind_Ok in E as ([ids1 d2] & E2 & E).
      injection E as <- <-. destruct (insert_task_out _ _ _ _ E1) as (-> & -> & Hf).
      destruct (IH _ _ _ E2) as (new & -> & Hs & -> & Hn & Hall). exists (t :: new).
      split; [unfold upd_tasks; simpl; by rewrite <- app_assoc|]. split; [by constructor|].
      split; [done|]. split; [by apply fresh_cons|]. simpl in Hall. rewrite <- app_assoc in Hall.
      intros r [->|Hr]%elem_of_cons; [|by apply Hall]. apply list_elem_of_fmap. exists t. split; [done|].
      apply elem_of_app. right. left.
    + destruct (IH _ _ _ E) as (new & -> & Hs & -> & Hn & Hall). exists new.
      split; [done|]. split; [by constructor|]. split; [done|]. split; [done|].
      intros r [->|Hr]%elem_of_cons; [|by apply Hall]. rewrite fmap_app. apply elem_of_app. left.
      by apply task_url_taken.
Qed.

(** What the transaction commits: the task's row is set, and of the new tasks all are added whose URL
    the job does not have. *)
Definition parsed_with (t : CrawlTask) (key : string) (all : list CrawlTask)
    (new : list CrawlTaskSnapshot) (d d' : database) : Prop :=
  exists size now,
    d' = upd_tasks (fun l => update_where (is_task (value (TID t)))
           (set_task (SaveCrawlTaskToSnapshot (MarkAsParsed key "application/json" size now t))) l
           ++ new) d
    /\ new `sublist_of` (SaveCrawlTaskToSnapshot <$> all)
    /\ fresh_rows (update_where (is_task (value (TID t)))
           (set_task (SaveCrawlTaskToSnapshot (MarkAsParsed key "application/json" size now t)))
           (tasks d)) new
    /\ Forall (fun ct => job_url (SaveCrawlTaskToSnapshot ct) ∈ job_url <$> tasks d') all.

Lemma map_NewID ids l : map_res NewID ids = Ok l -> ids = value <$> l.
Proof.
  revert l. induction ids as [|i ids IH]; intros l E; [by injection E as <-|]. simpl in E.
  apply res_bind_Ok in E as (x & Ex & E). apply res_bind_Ok in E as (xs & Exs & E).
  injection E as <-. rewrite fmap_cons, <- (IH _ Exs). by destruct (NewID_ok _ _ Ex) as (-> & _).
Qed.

Lemma Task_Update_in_tx t a b :
  Task_Update t a = (Ret (Ok tt), b) -> updated t (db a) (db b) /\ tx b = tx a.
Proof.
  unfold Task_Update. intros (_ & d & E & ->)%stmt_ok.
  apply res_bind_Ok in E as ([] & _ & E). injection E as <-. done.
Qed.

Lemma Task_BulkCreate_in_tx all a ids b :
  Task_BulkCreate all a = (Ret (Ok ids), b) ->
  exists new, db b = upd_tasks (fun l => l ++ new) (db a)
    /\ new `sublist_of` (SaveCrawlTaskToSnapshot <$> all) /\ value <$> ids = ts_ID <$> new
    /\ fresh_rows (tasks (db a)) new
    /\ Forall (fun ct => job_url (SaveCrawlTaskToSnapshot ct) ∈ job_url <$> tasks (db b)) all.
Proof.
  unfold Task_BulkCreate. destruct all as [|t ts].
  - intros [= <- <-]. exists []. split; [|split; [constructor|split; [done|split; [apply fresh_nil|done]]]].
    unfold upd_tasks. rewrite app_nil_r. by destruct (db a).
  - intros (ids' & a1 & E1 & E)%try_ok'. injection E as E <-. apply map_NewID in E.
    apply stmt_ok in E1 as (_ & d & E1 & ->).
    destruct (insert_tasks_out _ _ _ _ E1) as (new & -> & Hs & Hi & Hf & Hall). exists new.
    split; [done|]. split; [done|]. split; [congruence|]. split; [done|].
    apply Forall_forall. intros ct Hct. apply (Hall (SaveCrawlTaskToSnapshot ct)), list_elem_of_fmap.
    by exists ct.
Qed.

Lemma persist_out t key size all a :
  tx a = None ->
  exists r b, persist t key size all a = (Ret r, b) /\ tx b = None
    /\ objects b = objects a /\ published b = published a
    /\ ((is_ok r = false /\ db b = db a)
        \/ exists ids new, (is_ok r = true -> r = Ok ids)
             /\ parsed_with t key all new (db a) (db b) /\ value <$> ids = ts_ID <$> new).
Proof.
  intros Ht. unfold persist.
  match goal with |- context [ReadCommitted ?m] => set (fn := m) end.
  assert (Hq : keeps quiet fn).
  { subst fn. apply keeps_bind; [exact _|apply quiet_observe|intros now].
    unfold Task_BulkCreate, ret_ok, ret_err, lift_res. keeps_steps (apply quiet_stmt). }
  destruct (ReadCommitted_cases fn a Ht) as (r & b & E & Htb & Hc).
  exists r, b. split; [done|]. split; [done|].
  destruct Hc as [[Hr ->]|(o & w1 & Ef & Hp & Ho & Hc)]; [by repeat split; auto|].
  specialize (Hq (set_tx (Some false) (tick a))). rewrite Ef in Hq. destruct Hq as [Hq1 Hq2].
  split; [by rewrite Ho|]. split; [by rewrite Hp|].
  destruct Hc as [?|(ids & -> & Hr & _ & Hd)]; [by left|]. right.
  unfold fn, time_Now in Ef. rewrite (bind_ret _ _ _ _ _ (observe_ret _ _)) in Ef.
  apply try_ok in Ef as ([] & w2 & E2 & Ef).
  apply Task_Update_in_tx in E2 as [Hu _]. unfold updated in Hu. simpl in Hu.
  assert (Hb : Task_BulkCreate all w2 = (Ret (Ok ids), w1)).
  { destruct all as [|x xs]; [done|].
    apply try_ok in Ef as (ids' & w3 & E3 & Ef). injection Ef as -> ->. exact E3. }
  destruct (Task_BulkCreate_in_tx _ _ _ _ Hb) as (new & Hb' & Hs & Hi & Hf & Hall).
  exists ids, new. split; [done|]. split; [|done].
  eexists _, _. split; [|split; [exact Hs|]].
  - rewrite Hd, Hb', Hu. done.
  - rewrite Hu in Hf. split; [exact Hf|]. by rewrite Hd.
Qed.

(** Messages are added to the broker and all satisfy [P]; nothing else changes. *)
Definition sends (P : string * message -> Prop) (a b : world) : Prop :=
  db b = db a /\ tx b = tx a /\ objects b = objects a
  /\ exists l, published b = published a ++ l /\ Forall P l.

#[export] Instance sends_preorder P : PreOrder (sends P).
Proof.
  split.
  - intros a. repeat split. exists []. by rewrite app_nil_r.
  - intros a b c (? & ? & ? & l & Hl & HP) (? & ? & ? & l' & Hl' & HP').
    repeat split; try congruence. exists (l ++ l'). rewrite Hl', Hl, app_assoc.
    split; [done|]. by apply Forall_app.
Qed.

Lemma sends_publish (P : string * message -> Prop) q m : P (q, m) -> keeps (sends P) (Publish q m).
Proof.
  intros HP w. unfold Publish, call. destruct (verdict_at (ticks w)); simpl; repeat split; simpl;
    first [exists []; by rewrite app_nil_r
          | exists [(q, m)]; split; [done|by apply Forall_singleton]].
Qed.

Lemma sends_observe {A} P (f : nat -> A) : keeps (sends P) (observe f).
Proof. intros w. repeat split; simpl. exists []. by rewrite app_nil_r. Qed.

Lemma sends_panic {A} P s : keeps (sends P) (panic s : M A).
Proof. intros w. simpl. reflexivity. Qed.

Lemma sends_SelectCrawlQueue P av ws : keeps (sends P) (SelectCrawlQueue av ws).
Proof.
  unfold SelectCrawlQueue, pick_available, rand_Intn.
  keeps_steps first [apply sends_observe | apply sends_panic].
Qed.

(** The crawl messages of the inserted tasks. *)
Definition announces_new (t : CrawlTask) (new : list CrawlTaskSnapshot) (p : string * message)
  : Prop :=
  exists q m r, p = (q, MsgCrawl m) /\ r ∈ new /\ ts_ID r = MTaskID m
                /\ MJobID m = value (JobID t).

Lemma task_by_id_in all (m : gmap string CrawlTask) k t :
  fold_left (fun m t => <[value (TID t) := t]> m) all m !! k = Some t -> m !! k = Some t \/ t ∈ all.
Proof.
  revert m. induction all as [|x xs IH]; simpl; intros m E; [by left|].
  destruct (IH _ E) as [Hm|?]; [|right; by right].
  destruct (decide (value (TID x) = k)) as [<-|Hne].
  - rewrite lookup_insert_eq in Hm. injection Hm as ->. right. left.
  - rewrite lookup_insert_ne in Hm by done. by left.
Qed.

Lemma publish_inserted_keeps w d t c all new ids :
  Forall (child d t c) all -> value <$> ids = ts_ID <$> new ->
  keeps (sends (announces_new t new)) (publish_inserted w c all ids).
Proof.
  intros Hc Hi. unfold publish_inserted.
  destruct ids as [|i0 ids0]; [apply keeps_ret; exact _|].
  unfold InjectTraceContext. apply keeps_bind; [exact _|apply sends_observe|]. intros tc.
  assert (Hall : forall id, id ∈ i0 :: ids0 -> exists r, r ∈ new /\ ts_ID r = value id).
  { intros id Hid. assert (Hv : value id ∈ ts_ID <$> new).
    { rewrite <- Hi. apply list_elem_of_fmap. by exists id. }
    apply list_elem_of_fmap in Hv as (r & ? & ?). by exists r. }
  clear Hi. revert Hall. generalize (i0 :: ids0) as l. induction l as [|id l IH]; intros Hall; simpl;
    [apply keeps_ret; exact _|].
  apply keeps_bind; [exact _| |intros _; apply IH; intros; apply Hall; by right].
  destruct (task_by_id all !! value id) as [t'|] eqn:Et; [|apply keeps_ret; exact _].
  apply keeps_bind; [exact _|apply sends_SelectCrawlQueue|]. intros q.
  apply keeps_bind; [exact _| |intros ?; apply keeps_ret; exact _].
  apply sends_publish. destruct (Hall id) as (r & Hr & Hid); [left|].
  destruct (task_by_id_in all ∅ _ _ Et) as [?|Hin]; [done|].
  rewrite Forall_forall in Hc. destruct (Hc _ Hin) as (Hj & _).
  eexists _, _, r. split; [done|]. simpl. by rewrite Hj.
Qed.

(** The task a message names. *)
Definition task_of (m : message) : string :=
  match m with MsgCrawl m => MTaskID m | MsgParsing m => PTaskID m end.

(** The tasks that were announced are among the new ones, in order and each once; they are all of
    them when no call failed. *)
Definition announced (new : list CrawlTaskSnapshot) (l : list (string * message)) (complete : Prop) : Prop :=
  ((fun p => task_of p.2) <$> l) `sublist_of` (ts_ID <$> new)
  /\ (complete -> (forall n, verdict_at n = Succeeds) -> ((fun p => task_of p.2) <$> l) = ts_ID <$> new).

Lemma publish_each_announces w c all ids tc a o b :
  (forall i, i ∈ ids -> is_Some (task_by_id all !! value i)) ->
  for_all (fun id =>
        match task_by_id all !! value id with
        | None => mret tt
        | Some t =>
            targetQueue ← SelectCrawlQueue (pw_availableQueues w) (QueueWeights c);
            _ ← Publish targetQueue (MsgCrawl
                  {| MTaskID := value id; MJobID := value (JobID t); MURL := URL t;
                     MEnqueuedAt := EnqueuedAt t; MTraceContext := tc |});
            mret tt
        end) ids a = (o, b) ->
  exists l, published b = published a ++ l
    /\ ((fun p => task_of p.2) <$> l) `sublist_of` (value <$> ids)
    /\ (o = Ret tt -> (forall n, verdict_at n = Succeeds) -> ((fun p => task_of p.2) <$> l) = value <$> ids).
Proof.
  revert a. induction ids as [|i ids IH]; intros a Hin E.
  { injection E as <- <-. exists []. rewrite app_nil_r. by repeat split. }
  simpl in E. destruct (Hin i) as [t Et]; [left|]. rewrite Et in E.
  unfold mbind at 1, M_bind at 1, mbind at 1, M_bind at 1 in E.
  destruct (SelectCrawlQueue _ _ a) as [[q|s] a1] eqn:Eq.
  2:{ injection E as <- <-. exists []. pose proof (sends_SelectCrawlQueue (fun _ => False) (pw_availableQueues w) (QueueWeights c) a) as Hs.
      rewrite Eq in Hs. destruct Hs as (_ & _ & _ & l & Hl & Hn). destruct l; [|by apply Forall_inv in Hn].
      split; [done|]. split; [apply sublist_nil_l|done]. }
  pose proof (sends_SelectCrawlQueue (fun _ => False) (pw_availableQueues w) (QueueWeights c) a) as Hs.
  rewrite Eq in Hs. destruct Hs as (_ & _ & _ & l0 & Hl0 & Hn). destruct l0; [|by apply Forall_inv in Hn].
  rewrite app_nil_r in Hl0. simpl in Hl0. set (m := MsgCrawl _) in E.
  assert (Hp : exists r b1 l1, Publish q m a1 = (Ret r, b1) /\ published b1 = published a1 ++ l1
             /\ (l1 = [] \/ l1 = [(q, m)]) /\ ((forall n, verdict_at n = Succeeds) -> l1 = [(q, m)])).
  { unfold Publish, call. destruct (verdict_at (ticks a1)) eqn:Ev;
      [eexists _, _, [(q, m)]|eexists _, _, []|eexists _, _, [(q, m)]]; (split; [reflexivity|]); simpl;
      (split; [by rewrite ?app_nil_r|]); (split; [by auto|]); try done. intros Hc. by rewrite Hc in Ev. }
  destruct Hp as (r & b1 & l1 & Ep & Hb1 & Hl1 & Hc1). unfold mbind, M_bind in E. rewrite Ep in E.
  destruct (IH b1) as (l & Hl & Hsub & Hall); [by intros j Hj; apply Hin; right|exact E|].
  exists (l1 ++ l). split; [by rewrite Hl, Hb1, Hl0, app_assoc|]. rewrite !fmap_cons, fmap_app. split.
  - destruct Hl1 as [-> | ->]; simpl; by constructor.
  - intros Ho Hc. by rewrite (Hc1 Hc), <- (Hall Ho Hc).
Qed.

Lemma task_by_id_has all (m : gmap string CrawlTask) i :
  (exists t, t ∈ all /\ value (TID t) = i) \/ is_Some (m !! i) ->
  is_Some (fold_left (fun m t => <[value (TID t) := t]> m) all m !! i).
Proof.
  revert m. induction all as [|x xs IH]; simpl; intros m; [by intros [(t & Ht & _)|?]; [inversion Ht|]|].
  intros [(t & [->|Ht]%elem_of_cons & <-)|Hm]; apply IH; [right|left; eauto|right].
  - rewrite lookup_insert_eq. eauto.
  - destruct (decide (value (TID x) = i)) as [<-|]; [rewrite lookup_insert_eq; eauto|by rewrite lookup_insert_ne].
Qed.

Lemma publish_inserted_announces w c all new ids a o b :
  new `sublist_of` (SaveCrawlTaskToSnapshot <$> all) -> value <$> ids = ts_ID <$> new ->
  publish_inserted w c all ids a = (o, b) ->
  exists l, published b = published a ++ l /\ announced new l (o = Ret tt).
Proof.
  intros Hsub Hi E. unfold announced. rewrite <- Hi. unfold publish_inserted in E.
  destruct ids as [|i0 ids0] eqn:Eids.
  { injection E as <- <-. exists []. rewrite app_nil_r. by repeat split. }
  rewrite <- Eids in *. unfold InjectTraceContext in E. rewrite (bind_ret _ _ _ _ _ (observe_ret _ _)) in E.
  assert (Hall : forall i, i ∈ ids -> is_Some (task_by_id all !! value i)); cycle 1.
  { destruct (publish_each_announces _ _ _ _ _ _ _ _ Hall E) as (l & Hl & Hs & Hc). by exists l. }
  intros i Hin. apply task_by_id_has. left.
  assert (Hv : value i ∈ ts_ID <$> new) by (rewrite <- Hi; apply list_elem_of_fmap; by exists i).
  apply list_elem_of_fmap in Hv as (r & Er & Hr). pose proof (sublist_subseteq _ _ Hsub _ Hr) as Hr'.
  apply list_elem_of_fmap in Hr' as (t & -> & Ht). exists t. by split.
Qed.

(** What the transaction left: nothing, or its commit. *)
Definition committed (t : CrawlTask) (c : CrawlJobConfig) (new : list CrawlTaskSnapshot)
    (d d' : database) : Prop :=
  (d' = d /\ new = [])
  \/ exists all, Forall (child d t c) all
       /\ parsed_with t (result_key (value (TID t))) all new d d'.

(** The tasks the links of the page give, asked for on the database [d]. *)
Definition prepared (d : database) (t : CrawlTask) (c : CrawlJobConfig) (html : string)
    (all : list CrawlTask) : Prop :=
  exists x y, db x = d /\ prepare_links t html c x = (Ret all, y).

(** What a page may have done. *)
Inductive page_effect (t : CrawlTask) (c : CrawlJobConfig) (html : string) (a b : world)
  : outcome (res unit) -> Prop :=
| pe_failed new d1 reason o :     (* the task is failed *)
    committed t c new (db a) d1 -> updated (MarkAsFailed reason t) d1 (db b) ->
    published b = published a -> page_effect t c html a b o
| pe_error new o :                (* an error or a panic; its failure could not be stored *)
    o <> Ret (Ok tt) -> committed t c new (db a) (db b) ->
    db b = db a \/ is_Some (objects b !! result_key (value (TID t))) ->
    published b = published a -> page_effect t c html a b o
| pe_parsed all new l res trace o :
    extractData t (CfgExtractionSpec c) html = Ok res -> result_encodable res = true ->
    Forall (child (db a) t c) all -> prepared (db a) t c html all ->
    parsed_with t (result_key (value (TID t))) all new (db a) (db b) ->
    objects b !! result_key (value (TID t))
      = Some (marshal_indent (result_json (value (TID t)) (URL t) trace res)) ->
    published b = published a ++ l -> Forall (announces_new t new) l ->
    announced new l (o = Ret (Ok tt)) ->
    page_effect t c html a b o.

(** [fail_task] after what the transaction left. *)
Lemma fail_task_page t c html reason new a a1 :
  tx a1 = None -> committed t c new (db a) (db a1) ->
  db a1 = db a \/ is_Some (objects a1 !! result_key (value (TID t))) -> published a1 = published a ->
  exists o b, fail_task t reason a1 = (o, b) /\ tx b = None /\ page_effect t c html a b o.
Proof.
  intros Ht Hc Hres Hp. unfold fail_task.
  destruct (Task_Update_out (MarkAsFailed reason t) a1 Ht) as (r & b & E & Htb & Hob & Hpb & Hd).
  rewrite (try_run _ _ _ _ _ _ E).
  destruct r as [[]|e]; (eexists _, b; split; [done|]; split; [done|]).
  - destruct Hd as [[? _]|Hu]; [done|]. eapply pe_failed; [exact Hc|exact Hu|congruence].
  - destruct Hd as [[_ Hd]|Hu].
    + eapply pe_error; [done|by rewrite Hd|by rewrite Hd, Hob|congruence].
    + eapply pe_failed; [exact Hc|exact Hu|congruence].
Qed.

Lemma parse_page_effect w t c html a :
  tx a = None ->
  exists o b, parse_page w (value (TID t)) t c html a = (o, b) /\ tx b = None
              /\ page_effect t c html a b o.
Proof.
  intros Ht. unfold parse_page. destruct (extractData t _ html) as [res|e] eqn:Ex.
  2:{ eapply (fail_task_page _ _ _ _ []); [done|by left|by left|done]. }
  destruct (uploadResultToS3_out (value (TID t)) (URL t) res a)
    as (r1 & a1 & E1 & Hd1 & Ht1 & Hp1 & _ & Hr1).
  rewrite (try_run _ _ _ _ _ _ E1).
  destruct r1 as [[key size]|e].
  2:{ eapply (fail_task_page _ _ _ _ []); [congruence|by left|by left|done]. }
  destruct (Hr1 _ eq_refl) as (Hk & Hen & trace & Ho1). simpl in Hk. subst key.
  unfold mbind, M_bind.
  destruct (prepare_links t html c a1) as [[all|s] a2] eqn:E2.
  2:{ pose proof (service_run _ _ _ _ (prepare_links_keeps t html c) E2) as (Hd2 & Ht2 & _ & Hp2).
      eexists _, a2. split; [done|]. split; [congruence|].
      eapply pe_error; [done|left; split; [congruence|done]|left; congruence|congruence]. }
  destruct (prepare_links_child (db a) _ _ _ _ _ _ Hd1 E2) as [Hall _].
  pose proof (service_run _ _ _ _ (prepare_links_keeps t html c) E2) as (Hd2 & Ht2 & Ho2 & Hp2).
  destruct (persist_out t (result_key (value (TID t))) size all a2 ltac:(congruence))
    as (r3 & a3 & E3 & Ht3 & Ho3 & Hp3 & Hc3).
  simpl. rewrite (try_run _ _ _ _ _ _ E3). rewrite Hd2, Hd1 in Hc3. destruct r3 as [ids|e].
  - destruct Hc3 as [[? _]|(ids' & new & Hr & Hpw & Hids)]; [done|].
    injection (Hr eq_refl) as <-.
    pose proof (publish_inserted_keeps w (db a) t c all new ids Hall Hids a3) as (Hdb & Htb & Hob & l & Hl & Hal).
    destruct (publish_inserted w c all ids a3) as [o b] eqn:E4. simpl in *.
    assert (Hsub : new `sublist_of` (SaveCrawlTaskToSnapshot <$> all)) by (destruct Hpw as (? & ? & _ & ? & _); done).
    destruct (publish_inserted_announces _ _ _ _ _ _ _ _ Hsub Hids E4) as (l' & Hl' & Han).
    assert (l' = l) as -> by (rewrite Hl in Hl'; by apply app_inv_head in Hl').
    assert (Hprep : prepared (db a) t c html all) by (by exists a1, a2).
    assert (Heff : forall o', (o' = Ret (Ok tt) -> o = Ret tt) -> page_effect t c html a b o').
    { intros o' Ho'. eapply pe_parsed; [exact Ex|exact Hen|exact Hall|exact Hprep|by rewrite Hdb| |
        by rewrite Hl, Hp3, Hp2, Hp1|exact Hal|destruct Han as [? Hc]; split; [done|auto]].
      rewrite Hob, Ho3, Ho2. exact Ho1. }
    destruct o as [[]|s]; (eexists _, b; split; [done|]; split; [congruence|by apply Heff]).
  - assert (Hc : exists new, committed t c new (db a) (db a3)).
    { destruct Hc3 as [[_ Hd]|(ids' & new & _ & Hpw & _)]; [exists []; by left|].
      exists new. right. by exists all. }
    destruct Hc as [new Hc]. eapply fail_task_page; [done|exact Hc| |congruence].
    right. rewrite Ho3, Ho2, Ho1. eauto.
Qed.

End Steps.

(** ** The handler *)

Section Handler.
Context `{RobotsTxtService, RegexpLib, JsonLib, HtmlLib, MapOrder}.

Lemma page_effect_same t c html a a' b o :
  same_store a a' -> page_effect t c html a' b o -> page_effect t c html a b o.
Proof.
  intros (Hd & _ & _ & Hp) [new d1 re o' Hc Hu Hpb|new o' Ho Hc Hres Hpb|all new l res tr o' Hx He Ha Hpr Hw Hob Hpb Hl Han].
  - eapply pe_failed; [rewrite <- Hd; exact Hc|exact Hu|congruence].
  - eapply pe_error; [exact Ho|rewrite <- Hd; exact Hc|by rewrite <- Hd|congruence].
  - eapply pe_parsed; [exact Hx|exact He|by rewrite <- Hd|by rewrite <- Hd|rewrite <- Hd; exact Hw|exact Hob
      |by rewrite <- Hp|exact Hl|exact Han].
Qed.

Lemma Retrieve_out key a :
  exists r b, Retrieve key a = (Ret r, b) /\ same_store a b
    /\ forall v, r = Ok v -> objects a !! key = Some v.
Proof.
  unfold Retrieve. destruct (call_out (fun w => (objects w !! key, w)) a) as (r & b & E & Hc & Hr).
  rewrite (try_run _ _ _ _ _ _ E).
  assert (Hs : same_store a b) by (destruct Hc as [[_ ->]| ->]; by repeat split).
  destruct r as [[v|]|e]; (eexists _, b; split; [done|]; split; [done|]); try done.
  intros ? [= <-]. specialize (Hr _ eq_refl). by injection Hr.
Qed.

(** The repositories answered [e] for the task [id], its job or its configuration. *)
Definition page_gone (id : string) (a : world) (e : gerror) : Prop :=
  errors_Is e "pgx.ErrNoRows" = true
  /\ exists a1, same_store a a1
       /\ ((exists a2, Task_Get (MkID id) a1 = (Ret (Err e), a2))
           \/ exists t a2, Task_Get (MkID id) a1 = (Ret (Ok t), a2)
                /\ ((exists a3, Job_Get (JobID t) a2 = (Ret (Err e), a3))
                    \/ exists j a3 a4, Job_Get (JobID t) a2 = (Ret (Ok j), a3)
                         /\ Config_Get (JobConfigID j) a3 = (Ret (Err e), a4))).

(** What a parsing message of the task [id] may have done. *)
Inductive handle_effect (id : string) (a b : world) : outcome (res unit) -> Prop :=
| he_none e :                                   (* nothing; the message is delivered again *)
    same_store a b -> handle_effect id a b (Ret (Err e))
| he_gone e :                                   (* the task, its job or configuration is gone *)
    same_store a b -> page_gone id a e -> handle_effect id a b (Ret (Ok tt))
| he_done t :                                   (* parsed before *)
    value (TID t) = id ->
    same_store a b -> SaveCrawlTaskToSnapshot t ∈ tasks (db a) -> Status t = TaskStatusParsed ->
    handle_effect id a b (Ret (Ok tt))
| he_page t s c html o :
    value (TID t) = id ->
    SaveCrawlTaskToSnapshot t ∈ tasks (db a) -> Status t <> TaskStatusParsed ->
    s ∈ configs (db a) -> RestoreCrawlJobConfigFromSnapshot s = Ok c ->
    objects a !! MinioObjectKey t = Some html ->
    page_effect t c html a b o -> handle_effect id a b o.

(** A row that could not be read: the message is dropped when it is missing, and kept otherwise. *)
Lemma unread_effect id what a b e o b' :
  same_store a b -> tx b = None -> (errors_Is e "pgx.ErrNoRows" = true -> page_gone id a e) ->
  (if errors_Is e "pgx.ErrNoRows" then ret_ok tt else ret_err (Errorf what e)) b = (o, b') ->
  tx b' = None /\ handle_effect id a b' o.
Proof.
  intros Hs Ht Hg. destruct (errors_Is e "pgx.ErrNoRows"); intros [= <- <-]; (split; [done|]).
  - by eapply he_gone; [|apply Hg].
  - by apply he_none.
Qed.

Lemma parsing_message_effect w body id a o b :
  tx a = None -> (forall m, Unmarshal parsing_msg_of_json body = Ok m -> PTaskID m = id) ->
  handleMessage w body a = (o, b) -> tx b = None /\ handle_effect id a b o.
Proof.
  intros Ht Hid0. unfold handleMessage, try_bind at 1, lift_res.
  destruct (Unmarshal parsing_msg_of_json body) as [m|e]; [|intros [= <- <-]; split; [done|by apply he_none]].
  specialize (Hid0 m eq_refl). subst id.
  unfold mbind at 1, M_bind, mret at 1, M_ret, try_bind at 1, mbind at 1, M_bind, mret at 1, M_ret.
  destruct (NewID (PTaskID m)) as [id|e] eqn:Ei; [|intros [= <- <-]; split; [assumption|by apply he_none]].
  destruct (NewID_ok _ _ Ei) as (-> & _ & _).
  destruct (Task_Get_runs (MkID (PTaskID m)) a Ht) as (r & a1 & E & Hs & Ht1).
  rewrite (try_run _ _ _ _ _ _ E). destruct r as [t|e].
  2:{ apply unread_effect; [done|done|]. intros He. split; [done|]. exists a. split; [done|]. left. by exists a1. }
  destruct (Task_Get_id (MkID (PTaskID m)) _ _ _ E Ht) as (Hid & _ & Hrow).
  case_bool_decide as Hst; [intros [= <- <-]; split; [assumption|eapply he_done; [by rewrite Hid|done..]]|].
  destruct (Job_Get_runs (JobID t) a1 Ht1) as (r & a2 & E2 & Hs2 & Ht2).
  rewrite (try_run _ _ _ _ _ _ E2). assert (Hs02 : same_store a a2) by (by etrans). destruct r as [j|e].
  2:{ apply unread_effect; [done|done|]. intros He. split; [done|]. exists a. split; [done|]. right.
      exists t, a1. split; [exact E|]. left. by exists a2. }
  destruct (Config_Get_runs (JobConfigID j) a2 Ht2) as (r & a3 & E3 & Hs3 & Ht3).
  rewrite (try_run _ _ _ _ _ _ E3). assert (Hs03 : same_store a a3) by (by etrans). destruct r as [c|e].
  2:{ apply unread_effect; [done|done|]. intros He. split; [done|]. exists a. split; [done|]. right.
      exists t, a1. split; [exact E|]. right. by exists j, a2, a3. }
  destruct (Config_Get_row (JobConfigID j) _ _ _ E3 Ht2) as (s & Hsin & Hsc).
  destruct (Retrieve_out (MinioObjectKey t) a3) as (r & a4 & E4 & Hs4 & Hr4).
  rewrite (try_run _ _ _ _ _ _ E4). pose proof (tx_same _ _ Hs4 Ht3) as Ht4.
  assert (Hs04 : same_store a a4) by (by etrans).
  destruct r as [html|e]; [|intros [= <- <-]; split; [assumption|by apply he_none]].
  replace (PTaskID m) with (value (TID t)) by (by rewrite Hid).
  destruct (parse_page_effect w t c html a4 Ht4) as (o' & b' & E5 & Htb & He).
  rewrite E5. intros [= <- <-]. split; [done|].
  eapply he_page; [by rewrite Hid|exact Hrow|exact Hst| |exact Hsc| |by eapply page_effect_same].
  - destruct Hs02 as (Hd & _). by rewrite <- Hd.
  - destruct Hs03 as (_ & _ & Ho & _). rewrite <- Ho. by apply Hr4.
Qed.

End Handler.

(** ** Properties *)

Section Properties.
Context `{RobotsTxtService, RegexpLib, JsonLib, HtmlLib, MapOrder}.

Lemma get_uint_range w k fs z : get_uint w k fs = Ok z -> 0 <= z < 2 ^ w \/ z = 0.
Proof.
  unfold get_uint. destruct (lookup_field k fs) as [| |x| | | |]; try done; [intros [= <-]; by right|].
  destruct ((0 <=? x) && (x <? 2 ^ w)) eqn:E; [|done]. intros [= <-]. left.
  apply andb_true_iff in E as [?%Z.leb_le ?%Z.ltb_lt]. lia.
Qed.

(** The depth bound of a stored configuration is a uint64. *)
Lemma restored_MaxDepth s c :
  RestoreCrawlJobConfigFromSnapshot s = Ok c -> 0 <= MaxDepth (Scopes c) <= uint64_max.
Proof.
  unfold RestoreCrawlJobConfigFromSnapshot. intros E.
  apply res_bind_Ok in E as (? & _ & E). apply res_bind_Ok in E as (? & _ & E).
  apply res_bind_Ok in E as (? & _ & E). apply res_bind_Ok in E as (sc & Es & E).
  repeat (apply res_bind_Ok in E as (? & _ & E)). injection E as <-. simpl.
  unfold restore_part in Es. destruct (scopes_of_json _) as [sc'|] eqn:Ej; [|done].
  injection Es as <-. unfold scopes_of_json in Ej.
  apply res_bind_Ok in Ej as (fs & _ & Ej). apply res_bind_Ok in Ej as (d & Ed & Ej).
  repeat (apply res_bind_Ok in Ej as (? & _ & Ej)). injection Ej as <-. simpl.
  unfold uint64_max. destruct (get_uint_range _ _ _ _ Ed) as [?| ->]; lia.
Qed.

(** The row of a new task of the page of [t], whose links were examined on the database [d]. *)
Definition frontier_row (d : database) (t : CrawlTask) (c : CrawlJobConfig) (r : CrawlTaskSnapshot) : Prop :=
  ts_JobID r = value (JobID t) /\ ts_Status r = TaskStatusInProgress /\ ts_ResultObjectKey r = None
  /\ ts_Depth r = Depth t + 1 /\ ts_Depth r <= MaxDepth (Scopes c)
  /\ Validate (ts_URL r) (ts_Depth r) (Scopes c) = Ok tt /\ robots_passed d c (ts_URL r)
  /\ exists pats, CompileAllowedURLPatterns (AllowedURLPatterns (Scopes c)) = Ok pats
       /\ allowed_url pats (ts_URL r) = true.

Lemma child_row d t c ct :
  0 <= Depth t -> MaxDepth (Scopes c) <= uint64_max -> child d t c ct ->
  frontier_row d t c (SaveCrawlTaskToSnapshot ct).
Proof.
  intros H0t Hmax (Hj & Hs & Hr & Hd & Hdep & Hv & Hrb & Hp). unfold uint64_max in Hmax.
  rewrite wrapu_small in Hdep by lia.
  repeat split; simpl; try done; [by rewrite Hj|]. rewrite Hdep. lia.
Qed.

Lemma parsed_rows t c key all new d d' :
  0 <= Depth t -> MaxDepth (Scopes c) <= uint64_max -> Forall (child d t c) all ->
  parsed_with t key all new d d' -> Forall (frontier_row d t c) new.
Proof.
  intros H0t Hm Hall (size & now & _ & Hs & _). apply Forall_forall. intros r Hr.
  assert (Hin : r ∈ SaveCrawlTaskToSnapshot <$> all) by (by eapply sublist_subseteq).
  apply list_elem_of_fmap in Hin as (ct & -> & Hct). rewrite Forall_forall in Hall.
  apply child_row; auto.
Qed.

(** The rows of [d'] are those of [d], of which only the one of [t] may have changed, and [new];
    the other tables are the same. *)
Definition extends (t : CrawlTask) (new : list CrawlTaskSnapshot) (d d' : database) : Prop :=
  exists f, tasks d' = (f <$> tasks d) ++ new
    /\ (forall r, ts_ID (f r) = ts_ID r /\ ts_JobID (f r) = ts_JobID r
                  /\ (ts_ID r <> value (TID t) -> f r = r))
    /\ jobs d' = jobs d /\ configs d' = configs d /\ outbox d' = outbox d /\ users d' = users d
    /\ World.tokens d' = World.tokens d /\ previews d' = previews d.

Lemma set_row_neutral id e r :
  let f r := if is_task id r then set_task e r else r in
  ts_ID (f r) = ts_ID r /\ ts_JobID (f r) = ts_JobID r /\ (ts_ID r <> id -> f r = r).
Proof.
  unfold is_task. simpl. case_bool_decide; simpl; repeat split; done.
Qed.

Lemma committed_extends t c new d d1 : committed t c new d d1 -> extends t new d d1.
Proof.
  intros [[-> ->]|(all & _ & size & now & -> & _)].
  - exists id. rewrite list_fmap_id, app_nil_r. by repeat split.
  - eexists. split; [done|]. split; [|done]. intros r. apply set_row_neutral.
Qed.

Lemma update_where_skip {A} (p : A -> bool) g l :
  Forall (fun x => p x = false) l -> update_where p g l = l.
Proof.
  intros Hl. unfold update_where. induction Hl as [|x l Hx _ IH]; [done|].
  rewrite fmap_cons, IH. by rewrite Hx.
Qed.

Lemma updated_extends t e new d d1 d2 :
  TID e = TID t -> Forall (fun r => ts_ID r <> value (TID t)) new ->
  extends t new d d1 -> updated e d1 d2 -> extends t new d d2.
Proof.
  intros He Hn (f & Ht & Hf & Ho) ->.
  exists ((fun r => if is_task (value (TID e)) r then set_task (SaveCrawlTaskToSnapshot e) r else r) ∘ f).
  split; [|split; [|exact Ho]].
  - simpl. rewrite Ht. unfold update_where at 1. rewrite fmap_app, <- list_fmap_compose. f_equal.
    apply (update_where_skip (is_task (value (TID e)))). eapply Forall_impl; [exact Hn|].
    intros r Hr. unfold is_task. rewrite bool_decide_eq_false, He. done.
  - intros r. destruct (Hf r) as (Hi & Hj & Hs). unfold compose. rewrite He.
    destruct (set_row_neutral (value (TID t)) (SaveCrawlTaskToSnapshot e) (f r)) as (Hi' & Hj' & Hs').
    simpl in *. split; [by rewrite Hi'|]. split; [by rewrite Hj'|]. intros Hne.
    rewrite Hs'; [by apply Hs|by rewrite Hi].
Qed.

(** New rows are not the row of the task itself. *)
Lemma committed_other t c new d d1 :
  has_row t d -> committed t c new d d1 -> Forall (fun r => ts_ID r <> value (TID t)) new.
Proof.
  intros (x & Hx & Hid) [[-> ->]|(all & _ & size & now & _ & _ & (Hf & _) & _)]; [done|].
  apply Forall_forall. intros r Hr E.
  match type of Hf with forall r x, _ -> x ∈ update_where ?p ?g _ -> _ =>
    destruct (Hf r (if p x then g x else x) Hr) as [Hne _] end.
  - unfold update_where. apply list_elem_of_fmap. by exists x.
  - apply Hne. unfold is_task. case_bool_decide; simpl; congruence.
Qed.

Lemma committed_fresh t c new d d1 :
  committed t c new d d1 ->
  NoDup (ts_ID <$> new) /\ NoDup (job_url <$> new).
Proof.
  intros [[-> ->]|(all & _ & size & now & _ & _ & (_ & Hf) & _)]; [split; constructor|done].
Qed.

Lemma committed_rows t c new d d1 :
  0 <= Depth t -> MaxDepth (Scopes c) <= uint64_max ->
  committed t c new d d1 -> Forall (frontier_row d t c) new.
Proof.
  intros H0t Hm [[-> ->]|(all & Ha & Hp)]; [done|by eapply parsed_rows].
Qed.


Lemma extends_has_row t new d d1 : extends t new d d1 -> has_row t d -> has_row t d1.
Proof.
  intros (f & Ht & Hf & _) (r & Hr & Hid). exists (f r). rewrite Ht. split.
  - apply elem_of_app. left. apply list_elem_of_fmap. by exists r.
  - by destruct (Hf r) as [-> _].
Qed.

(** The row of a task that was committed as parsed. *)
Lemma parsed_row t key all new d d1 :
  has_row t d -> parsed_with t key all new d d1 ->
  exists r, r ∈ tasks d1 /\ ts_ID r = value (TID t) /\ ts_Status r = TaskStatusParsed
            /\ ts_ResultObjectKey r = Some key /\ ts_ErrorMessage r = None.
Proof.
  intros (r & Hr & Hid) (size & now & -> & _).
  exists (set_task (SaveCrawlTaskToSnapshot (MarkAsParsed key "application/json" size now t)) r).
  split; [|done]. simpl. apply elem_of_app. left. apply list_elem_of_fmap. exists r. split; [|done].
  unfold is_task. by rewrite bool_decide_eq_true_2.
Qed.


End Properties.

(** ** A concrete run *)

#[local] Existing Instances any_uuid plain_env plain_json no_regexp plain_robots demo_html.

Definition plain_order : MapOrder := {| map_order_at _ l := l; map_order_perm _ l := reflexivity l |}.
#[local] Existing Instance plain_order.

Definition demo_parser : ParserWorker :=
  {| pw_parsingQueue := "parse"; pw_availableQueues := ["crawl-1"] |}.

Definition demo_parsing_message : string :=
  marshal (json_of_parsing_msg {| PTaskID := "t1"; PJobID := "j1"; PEnqueuedAt := 7; PTraceContext := ∅ |}).

(** The page of the seed task is stored, the task is fetched. *)
Definition demo_fetched : world :=
  let d := {| configs := configs demo_db; jobs := jobs demo_db;
              tasks := [SaveCrawlTaskToSnapshot (demo_task TaskStatusFetched)]; outbox := [];
              users := users demo_db; World.tokens := []; previews := [] |} in
  {| db := d; tx := None; objects := {["" := "<html>"]}; published := []; ticks := 0 |}.

Definition demo_run := handleMessage demo_parser demo_parsing_message demo_fetched.

Example demo_run_result :
  (demo_run.1, (fun r => (ts_URL r, ts_Status r, ts_Depth r)) <$> tasks (db demo_run.2),
   length (published demo_run.2))
  = (Ret (Ok tt), [("http://a.b/", TaskStatusParsed, 0);
                   ("http://a.b/next?page=2", TaskStatusInProgress, 1)], 1%nat).
Proof. vm_compute. reflexivity. Qed.


