(* ===== verification/GoTime.v ===== *)
(** * The text of times

    [t.UTC().Format(time.RFC3339)]: the civil date of a count of nanoseconds after Go's zero time,
    1 January of year 1. *)

From S2P Require Import Prelude.

Record civil := { year : Z; month : Z; day : Z }.

(** The proleptic Gregorian date of a count of days after 1 January of year 1 (counted from 1 March
    of year 0 in cycles of 400 years). *)
Definition civil_of_days (days : Z) : civil :=
  let z := days + 306 in
  let era := z / 146097 in
  let doe := z mod 146097 in
  let yoe := (doe - doe / 1460 + doe / 36524 - doe / 146096) / 365 in
  let doy := doe - (365 * yoe + yoe / 4 - yoe / 100) in
  let mp := (5 * doy + 2) / 153 in
  let m := if mp <? 10 then mp + 3 else mp - 9 in
  {| year := yoe + era * 400 + (if m <=? 2 then 1 else 0); month := m;
     day := doy - (153 * mp + 2) / 5 + 1 |}.

(** A number of at least [n] digits. *)
Definition digits (n : nat) (z : Z) : string :=
  let s := pretty z in String.concat "" (repeat "0" (n - String.length s)) +:+ s.

Definition format_rfc3339 (t : Z) : string :=
  let secs := t / Second in
  let d := civil_of_days (secs / 86400) in
  let s := secs mod 86400 in
  digits 4 (year d) +:+ "-" +:+ digits 2 (month d) +:+ "-" +:+ digits 2 (day d) +:+ "T"
  +:+ digits 2 (s / 3600) +:+ ":" +:+ digits 2 (s / 60 mod 60) +:+ ":" +:+ digits 2 (s mod 60) +:+ "Z".

Example format_zero : format_rfc3339 0 = "0001-01-01T00:00:00Z".
Proof. vm_compute. reflexivity. Qed.
Example format_unix_epoch : format_rfc3339 (719162 * 86400 * Second) = "1970-01-01T00:00:00Z".
Proof. vm_compute. reflexivity. Qed.
Example format_leap_day : format_rfc3339 ((719162 * 86400 + 1709210096) * Second) = "2024-02-29T12:34:56Z".
Proof. vm_compute. reflexivity. Qed.
