(* ===== verification/Csv.v ===== *)
(** * Go's [encoding/csv] writer

    [csv.Writer.Write] with the default comma and line ends, and a reader of RFC 4180 that says
    what the written text means; the reader recovers every table. *)

From S2P Require Import Prelude GoStrings GoUrl.

Definition quote : ascii := ascii_of_nat 34.
Definition comma : ascii := ","%char.
Definition carriage_return : ascii := ascii_of_nat 13.

(** The first rune of a field is white space. *)
Definition starts_space (l : chars) : bool :=
  match l with
  | [] => false
  | a :: l1 =>
      ascii_space a
      || match l1 with
         | [] => false
         | b :: l2 => space2 a b || match l2 with [] => false | c :: _ => space3 a b c end
         end
  end.

Definition needs_quote (c : ascii) : bool :=
  bool_decide (c = newline) || bool_decide (c = carriage_return) || bool_decide (c = quote)
  || bool_decide (c = comma).

Definition fieldNeedsQuotes (field : chars) : bool :=
  match field with
  | [] => false
  | _ => bool_decide (field = [backslash; "."%char]) || existsb needs_quote field || starts_space field
  end.

Definition double_quotes (field : chars) : chars :=
  field ≫= fun c => if bool_decide (c = quote) then [quote; quote] else [c].

Definition csv_field (field : chars) : chars :=
  if fieldNeedsQuotes field then quote :: double_quotes field ++ [quote] else field.

(** The fields of a record, separated by commas. *)
Fixpoint csv_fields (record : list chars) : chars :=
  match record with
  | [] => []
  | [f] => csv_field f
  | f :: record => csv_field f ++ comma :: csv_fields record
  end.

Definition csv_Write (record : list chars) : chars := csv_fields record ++ [newline].

Definition csv_table (rows : list (list chars)) : chars := rows ≫= csv_Write.

(** ** The reader *)

(** What is being read: the start of a field, a plain field, a quoted field, or a quoted field
    just after a quote.  [cur] and [row] are in reverse. *)
Inductive csv_state := FieldStart | Plain | Quoted | AfterQuote.

Fixpoint csv_read (st : csv_state) (cur : chars) (row : list chars) (l : chars)
  : option (list (list chars)) :=
  match l with
  | [] => match st, row with FieldStart, [] => Some [] | _, _ => None end
  | c :: l =>
      let close st := (* a comma or a line end after a complete field *)
        if bool_decide (c = comma) then csv_read FieldStart [] (rev cur :: row) l
        else if bool_decide (c = newline) then
          rows ← csv_read FieldStart [] [] l; Some (rev (rev cur :: row) :: rows)
        else match st with Plain => csv_read Plain (c :: cur) row l | _ => None end in
      match st with
      | FieldStart => if bool_decide (c = quote) then csv_read Quoted [] row l else close Plain
      | Plain => if bool_decide (c = quote) then None else close Plain
      | Quoted => if bool_decide (c = quote) then csv_read AfterQuote cur row l
                  else csv_read Quoted (c :: cur) row l
      | AfterQuote => if bool_decide (c = quote) then csv_read Quoted (quote :: cur) row l
                      else close AfterQuote
      end
  end.

Definition read_table (l : chars) : option (list (list chars)) := csv_read FieldStart [] [] l.

(** ** The reader recovers what the writer wrote *)

(** What the reader does at the end of a field that holds [f]. *)
Definition at_end (f : chars) (row : list chars) (c : ascii) (l : chars)
  : option (list (list chars)) :=
  if bool_decide (c = comma) then csv_read FieldStart [] (f :: row) l
  else rows ← csv_read FieldStart [] [] l; Some (rev (f :: row) :: rows).

Definition separator (c : ascii) : Prop := c = comma \/ c = newline.

Lemma read_close st f row c l :
  separator c -> st = Plain \/ st = AfterQuote ->
  csv_read st (rev f) row (c :: l) = at_end f row c l.
Proof.
  intros Hc Hst. unfold at_end.
  assert (Hq : c <> quote) by (destruct Hc as [-> | ->]; discriminate).
  destruct Hst as [-> | ->]; simpl; rewrite bool_decide_eq_false_2 by done; rewrite rev_involutive;
    destruct Hc as [-> | ->]; simpl; done.
Qed.

Lemma read_start row c l : separator c -> csv_read FieldStart [] row (c :: l) = at_end [] row c l.
Proof. intros [-> | ->]; done. Qed.

Lemma needs_quote_false c :
  needs_quote c = false -> c <> quote /\ c <> comma /\ c <> newline.
Proof. unfold needs_quote. rewrite !orb_false_iff, !bool_decide_eq_false. tauto. Qed.

Lemma read_plain f acc row c l :
  existsb needs_quote f = false -> separator c ->
  csv_read Plain (rev acc) row (f ++ c :: l) = at_end (acc ++ f) row c l.
Proof.
  intros Hf Hc. revert acc Hf. induction f as [|x f IH]; intros acc Hf.
  - rewrite app_nil_r. apply read_close; auto.
  - simpl in Hf. apply orb_false_iff in Hf as [Hx Hf].
    destruct (needs_quote_false _ Hx) as (Hq & Hco & Hn).
    simpl. rewrite !bool_decide_eq_false_2 by done.
    change (x :: rev acc) with (rev [x] ++ rev acc). rewrite <- (rev_app_distr acc [x]).
    rewrite IH by done. by rewrite <- app_assoc.
Qed.

Lemma read_quoted f acc row c l :
  separator c ->
  csv_read Quoted (rev acc) row (double_quotes f ++ quote :: c :: l) = at_end (acc ++ f) row c l.
Proof.
  intros Hc. revert acc. induction f as [|x f IH]; intros acc.
  - rewrite app_nil_r. unfold double_quotes. simpl. apply (read_close AfterQuote); auto.
  - unfold double_quotes in *. rewrite bind_cons. case_bool_decide as Hq.
    + subst x. simpl. change (quote :: rev acc) with (rev [quote] ++ rev acc).
      rewrite <- (rev_app_distr acc [quote]), IH. by rewrite <- app_assoc.
    + simpl. rewrite bool_decide_eq_false_2 by done.
      change (x :: rev acc) with (rev [x] ++ rev acc). rewrite <- (rev_app_distr acc [x]), IH.
      by rewrite <- app_assoc.
Qed.

Lemma read_field f row c l :
  separator c -> csv_read FieldStart [] row (csv_field f ++ c :: l) = at_end f row c l.
Proof.
  intros Hc. unfold csv_field. destruct (fieldNeedsQuotes f) eqn:Hq.
  - simpl. rewrite <- app_assoc. apply (read_quoted f [] row c l Hc).
  - destruct f as [|x f]; [by apply read_start|]. simpl in Hq.
    apply orb_false_iff in Hq as [Hq _]. apply orb_false_iff in Hq as [_ Hq].
    pose proof Hq as Hq'. apply orb_false_iff in Hq' as [Hx Hf].
    destruct (needs_quote_false _ Hx) as (Hxq & Hco & Hn).
    simpl. rewrite !bool_decide_eq_false_2 by done. apply (read_plain f [x]); done.
Qed.

Lemma read_record f record row l :
  csv_read FieldStart [] row (csv_fields (f :: record) ++ newline :: l)
  = (rows ← csv_read FieldStart [] [] l; Some ((rev row ++ f :: record) :: rows)).
Proof.
  revert f row. induction record as [|g record IH]; intros f row.
  - simpl csv_fields. rewrite read_field by (by right). unfold at_end. simpl. done.
  - change (csv_fields (f :: g :: record)) with (csv_field f ++ comma :: csv_fields (g :: record)).
    rewrite <- app_assoc.
    change ((comma :: csv_fields (g :: record)) ++ newline :: l)
      with (comma :: (csv_fields (g :: record) ++ newline :: l)).
    rewrite read_field by (by left). unfold at_end. rewrite bool_decide_eq_true_2 by done.
    rewrite IH. simpl rev. by rewrite <- app_assoc.
Qed.

(** Every table whose records have a field reads back. *)
Lemma read_table_written rows :
  Forall (fun r => r <> []) rows -> read_table (csv_table rows) = Some rows.
Proof.
  intros Hr. unfold read_table, csv_table. induction Hr as [|r rows Hr _ IH]; [done|].
  rewrite bind_cons. destruct r as [|f r]; [done|]. unfold csv_Write at 1. rewrite <- app_assoc.
  change ([newline] ++ (rows ≫= csv_Write)) with (newline :: (rows ≫= csv_Write)).
  rewrite read_record, IH. done.
Qed.
