(* ===== verification/ExportWorker.v ===== *)
(** * The export worker

    [worker/export_worker.go]: in one transaction the jobs whose crawl is finished are listed, the
    stored results of their tasks are read back, a JSON and a CSV report are stored, and the jobs
    are marked as exported. *)

From S2P Require Import Prelude GoStrings Domain Json Converters Restored World Sql Repos GoUrl FetchWorker.
From S2P Require Import GoTime Csv Extraction ParserWorker.

Record TaskResult := {
  RTaskID : string; RURL : string; RStatus : string;
  RResFields : gmap string any; RResItems : list (gmap string any); RError : string }.

(** ** Values decoded into [any] *)

(** A JSON object decoded into a map: the last binding of a key wins. *)
Definition go_map {A} (l : list (string * A)) : gmap string A :=
  fold_left (fun m p => <[p.1 := p.2]> m) l ∅.

Fixpoint decode_any (j : json) : any :=
  match j with
  | JNull => ANil
  | JBool b => ABool b
  | JInt z => AFloat (inject_Z (round53s z))
  | JFloat q => AFloat q
  | JStr s => AStr s
  | JArr l => AAnys (decode_any <$> l)
  | JObj fs => AMap (map_any (go_map ((fun p => (p.1, decode_any p.2)) <$> fs)))
  end.

Definition decode_object (fs : list (string * json)) : gmap string any :=
  go_map ((fun p => (p.1, decode_any p.2)) <$> fs).

Section ExportWorker.
Context `{Env, JsonLib}.

(** ** The results of the tasks *)

Definition parseResultItems (raw : option json) : list (gmap string any) :=
  match raw with
  | Some (JArr l) => omap (fun e => match e with JObj fs => Some (decode_object fs) | _ => None end) l
  | _ => []
  end.

Definition with_error (r : TaskResult) (e : string) : TaskResult :=
  {| RTaskID := RTaskID r; RURL := RURL r; RStatus := RStatus r; RResFields := RResFields r;
     RResItems := RResItems r; RError := e |}.

(** The fields and items of a stored document. *)
Definition with_document (r : TaskResult) (jsonData : string) : TaskResult :=
  match Unmarshal as_object jsonData with
  | Err e => with_error r ("failed to parse JSON: " +:+ Error e)
  | Ok fs =>
      let taskOutput := go_map fs in
      {| RTaskID := RTaskID r; RURL := RURL r; RStatus := RStatus r;
         RResFields := match taskOutput !! "fields" with
                       | Some (JObj f) => decode_object f
                       | _ => ∅
                       end;
         RResItems := parseResultItems (taskOutput !! "items"); RError := RError r |}
  end.

(** The body of the loop; no branch of it makes [loadTaskResults] fail. *)
Definition load_result (task : CrawlTask) : M TaskResult :=
  let result := {| RTaskID := value (TID task); RURL := URL task; RStatus := Status task;
                   RResFields := ∅; RResItems := []; RError := "" |} in
  let key := match ResultObjectKey task with Some k => k | None => "" end in
  if (bool_decide (Status task = TaskStatusCompleted) || bool_decide (Status task = TaskStatusParsed))
     && negb (bool_decide (key = "")) then
    r ← Retrieve key;
    mret (match r with
          | Err e => with_error result ("failed to load result: " +:+ Error e)
          | Ok jsonData => with_document result jsonData
          end)
  else if bool_decide (Status task = TaskStatusFailed) then
    mret (with_error result "task failed during crawl/parse")
  else mret result.

Fixpoint loadTaskResults (tasks : list CrawlTask) : M (list TaskResult) :=
  match tasks with
  | [] => mret []
  | task :: tasks =>
      result ← load_result task;
      results ← loadTaskResults tasks;
      mret (result :: results)
  end.

(** ** The JSON report *)

Definition json_of_go_map (m : gmap string any) : json := json_of_any (AMap (map_any m)).

Definition json_of_result (r : TaskResult) : json :=
  JObj ([("task_id", JStr (RTaskID r)); ("url", JStr (RURL r)); ("status", JStr (RStatus r))]
        ++ (if bool_decide (RResFields r = ∅) then [] else [("fields", json_of_go_map (RResFields r))])
        ++ (match RResItems r with
            | [] => []
            | items => [("items", JArr (json_of_go_map <$> items))]
            end)
        ++ omit_str "error" (RError r)).

Definition json_report (jobID : CrawlJobID) (now : Z) (results : list TaskResult) : json :=
  JObj [("exported_at", JStr (format_rfc3339 now)); ("job_id", JStr (value jobID));
        ("results", JArr (json_of_result <$> results));
        ("total_tasks", JInt (Z.of_nat (length results)))].

Definition json_key (jobID : CrawlJobID) : string := "exports/jobs/" +:+ value jobID +:+ "/report.json".
Definition csv_key (jobID : CrawlJobID) : string := "exports/jobs/" +:+ value jobID +:+ "/report.csv".

(** What was decoded is finite, so that [json.MarshalIndent] does not fail. *)
Definition generateJSONReport (jobID : CrawlJobID) (results : list TaskResult) : M (res string) :=
  now ← time_Now;
  try _ <- Store (json_key jobID) (marshal_indent (json_report jobID now results))
    else e => ret_err (Errorf "failed to upload JSON report to S3" e);
  ret_ok (json_key jobID).

(** ** The CSV report *)

Definition sorted_names (s : gset string) : list string := merge_sort (fun x y => String.leb x y = true) (elements s).

Definition collectFieldNames (results : list TaskResult) : list string :=
  sorted_names (⋃ ((fun r => dom (RResFields r)) <$> results)).
Definition collectItemFieldNames (results : list TaskResult) : list string :=
  sorted_names (⋃ ((fun r => ⋃ ((fun item : gmap string any => dom item) <$> RResItems r)) <$> results)).

Definition toCSVValue (v : any) : string :=
  match v with
  | ANil => ""
  | AStr s => s
  | ABool b => if b then "true" else "false"
  | _ => if encodable v then marshal (json_of_any v) else sprint v
  end.

Definition cell (m : gmap string any) (name : string) : string :=
  match m !! name with Some v => toCSVValue v | None => "" end.

Definition csv_header (fieldNames itemFieldNames : list string) : list string :=
  ["task_id"; "url"; "status"] ++ fieldNames ++ ["item_index"]
  ++ ((fun n => "item." +:+ n) <$> itemFieldNames) ++ ["error"].

Definition csv_rows (fieldNames itemFieldNames : list string) (r : TaskResult) : list (list string) :=
  let baseRow := [RTaskID r; RURL r; RStatus r] ++ (cell (RResFields r) <$> fieldNames) in
  match RResItems r with
  | [] => [baseRow ++ [""] ++ ((fun _ => "") <$> itemFieldNames) ++ [RError r]]
  | items => imap (fun idx item =>
               baseRow ++ [pretty (Z.of_nat idx)] ++ (cell item <$> itemFieldNames) ++ [RError r]) items
  end.

Definition csv_report (results : list TaskResult) : list (list string) :=
  let fieldNames := collectFieldNames results in
  let itemFieldNames := collectItemFieldNames results in
  csv_header fieldNames itemFieldNames :: (r ← results; csv_rows fieldNames itemFieldNames r).

Definition csv_text (results : list TaskResult) : string :=
  match results with
  | [] => "task_id,url,status" +:+ String newline ""
  | _ => of_bytes (csv_table ((fun row : list string => bytes_of <$> row) <$> csv_report results))
  end.

Definition generateCSVReport (jobID : CrawlJobID) (results : list TaskResult) : M (res string) :=
  try _ <- Store (csv_key jobID) (csv_text results)
    else e => ret_err (Errorf (match results with
                               | [] => "failed to upload empty CSV"
                               | _ => "failed to upload CSV report to S3"
                               end) e);
  ret_ok (csv_key jobID).

(** ** The worker *)

Definition failExport (jobID : CrawlJobID) : M unit := Job_FailExport jobID ≫= fun _ => mret tt.

Definition processJob (job : CrawlJob) : M (res unit) :=
  try tasks <- Task_ListByJob (JID job)
    else e => (_ ← failExport (JID job); ret_err (Errorf "failed to load tasks" e));
  results ← loadTaskResults tasks;
  try jsonKey <- generateJSONReport (JID job) results
    else e => (_ ← failExport (JID job); ret_err (Errorf "failed to generate JSON report" e));
  try csvKey <- generateCSVReport (JID job) results
    else e => (_ ← failExport (JID job); ret_err (Errorf "failed to generate CSV report" e));
  exportedAt ← time_Now;
  try _ <- Job_Update (MarkAsExported jsonKey csvKey exportedAt job)
    else e => ret_err (Errorf "failed to mark export as completed" e);
  ret_ok tt.

(** The body of the transaction; the error of a job is logged. *)
Definition export_batch (batchSize : Z) : M (res unit) :=
  try jobs <- Job_ListEligibleForExport batchSize
    else e => ret_err (Errorf "failed to list eligible jobs for export" e);
  _ ← for_all (fun job => processJob job ≫= fun _ => mret tt) jobs;
  ret_ok tt.

Definition processEligibleJobs (batchSize : Z) : M unit :=
  ReadCommitted (export_batch batchSize) ≫= fun _ => mret tt.

(** The events of the loop; [StopAccepting] clears the flag. *)
Inductive export_event := ExportTick | ExportDone | StopAccepting.

Fixpoint export_loop (batchSize : Z) (accepting : bool) (events : list export_event) : M unit :=
  match events with
  | [] | ExportDone :: _ => mret tt
  | StopAccepting :: events => export_loop batchSize false events
  | ExportTick :: events =>
      if negb accepting then mret tt
      else processEligibleJobs batchSize ≫= fun _ => export_loop batchSize accepting events
  end.

Definition Export_Start (batchSize : Z) (accepting : bool) (events : list export_event) : M unit :=
  if negb accepting then mret tt
  else processEligibleJobs batchSize ≫= fun _ => export_loop batchSize accepting events.

End ExportWorker.

(** ** Lemmas on maps *)

Lemma go_map_list_to_map {A} (l : list (string * A)) :
  NoDup l.*1 -> go_map l = list_to_map l.
Proof.
  unfold go_map. intros Hn.
  assert (E : forall m : gmap string A, (forall k, k ∈ l.*1 -> m !! k = None) ->
      fold_left (fun m p => <[p.1 := p.2]> m) l m = m ∪ list_to_map l).
  { revert Hn. induction l as [|[k v] l IH]; intros Hn m Hm; simpl; [by rewrite (right_id_L ∅ (∪))|].
    apply NoDup_cons in Hn as [Hk Hn]. rewrite IH; [|done|].
    - rewrite <- insert_union_r by (apply Hm; left). by rewrite insert_union_l.
    - intros k' Hk'. rewrite lookup_insert_ne by (intros ->; done). apply Hm. by right. }
  rewrite E by done. apply (left_id_L ∅ (∪)).
Qed.

Lemma map_any_perm m : map_any m ≡ₚ map_to_list m.
Proof. apply merge_sort_Permutation. Qed.

Lemma map_any_keys m : NoDup (map_any m).*1.
Proof. rewrite map_any_perm. apply NoDup_fst_map_to_list. Qed.

Lemma go_map_map_any m : go_map (map_any m) = m.
Proof.
  rewrite go_map_list_to_map by apply map_any_keys.
  rewrite (list_to_map_proper (map_any m) (map_to_list m)); [apply list_to_map_to_list| |apply map_any_perm].
  apply map_any_keys.
Qed.

Lemma omap_fmap_Some {A B C} (f : B -> option C) (g : A -> B) (h : A -> C) (l : list A) :
  (forall x, f (g x) = Some (h x)) -> omap f (g <$> l) = h <$> l.
Proof.
  intros Hx. induction l as [|x l IH]; [done|]. rewrite !fmap_cons, <- IH. simpl. by rewrite Hx.
Qed.

(** A field decoded after it was printed. *)
Definition reread (v : any) : any := decode_any (json_of_any v).
Definition reread_map (m : gmap string any) : gmap string any := reread <$> m.

Lemma go_map_fmap {A B} (f : A -> B) (l : list (string * A)) :
  NoDup l.*1 -> go_map ((fun p => (p.1, f p.2)) <$> l) = f <$> go_map l.
Proof.
  intros Hn.
  assert (E : ((fun p : string * A => (p.1, f p.2)) <$> l).*1 = l.*1)
    by (rewrite <- list_fmap_compose; by apply list_fmap_ext).
  rewrite !go_map_list_to_map by (rewrite ?E; done).
  rewrite <- list_to_map_fmap. reflexivity.
Qed.

Lemma decode_go_map m :
  match json_of_go_map m with JObj f => decode_object f | _ => ∅ end = reread_map m.
Proof.
  unfold json_of_go_map, decode_object, reread_map. simpl. rewrite <- list_fmap_compose.
  change (go_map ((fun p => (p.1, reread p.2)) <$> map_any m) = reread <$> m).
  rewrite go_map_fmap by apply map_any_keys. by rewrite go_map_map_any.
Qed.

(** ** Lemmas on keys *)

Lemma string_suffix_inj (x a b y : string) : x +:+ a +:+ y = x +:+ b +:+ y -> a = b.
Proof.
  intros E. apply (f_equal bytes_of) in E. rewrite !bytes_of_app in E.
  apply app_inv_head in E. apply app_inv_tail in E.
  rewrite <- (of_bytes_of a), E. apply of_bytes_of.
Qed.

Lemma json_key_inj i j : json_key i = json_key j -> i = j.
Proof. intros E. apply string_suffix_inj in E. destruct i, j. simpl in E. by f_equal. Qed.

Lemma csv_key_inj i j : csv_key i = csv_key j -> i = j.
Proof. intros E. apply string_suffix_inj in E. destruct i, j. simpl in E. by f_equal. Qed.

Lemma json_csv_key i j : json_key i <> csv_key j.
Proof.
  intros E. apply (f_equal (fun s => last (bytes_of s))) in E. unfold json_key, csv_key in E.
  rewrite !bytes_of_app in E. rewrite !app_assoc, !last_app in E. vm_compute in E. discriminate E.
Qed.

(** ** The reports *)

Section Reports.
Context `{Env, JsonLib}.

Lemma bind_join {A B} (f : A -> list B) l : l ≫= f = mjoin (f <$> l).
Proof. induction l as [|x l IH]; [done|]. rewrite bind_cons, fmap_cons, IH. done. Qed.

Lemma csv_rows_length fs its r row :
  row ∈ csv_rows fs its r -> length row = (length fs + length its + 5)%nat.
Proof.
  unfold csv_rows. intros Hr.
  assert (Hl : forall i e (cells : list string), length cells = length its ->
    length (([RTaskID r; RURL r; RStatus r] ++ (cell (RResFields r) <$> fs)) ++ [i] ++ cells ++ [e])
    = (length fs + length its + 5)%nat).
  { intros i e cells Hc. rewrite !length_app, length_fmap. simpl. lia. }
  destruct (RResItems r) as [|it items].
  - apply list_elem_of_singleton in Hr as ->. apply Hl. by rewrite length_fmap.
  - apply elem_of_lookup_imap in Hr as (i & x & -> & _). apply Hl. by rewrite length_fmap.
Qed.

(** A row per item, at least one, that starts with the task and ends with its error. *)
Lemma csv_rows_shape fs its r :
  length (csv_rows fs its r) = Nat.max 1 (length (RResItems r))
  /\ Forall (fun row => take 3 row = [RTaskID r; RURL r; RStatus r] /\ last row = Some (RError r))
       (csv_rows fs its r).
Proof.
  unfold csv_rows. set (base := [RTaskID r; RURL r; RStatus r] ++ (cell (RResFields r) <$> fs)).
  assert (Hrow : forall i e (cells : list string),
    take 3 (base ++ [i] ++ cells ++ [e]) = [RTaskID r; RURL r; RStatus r]
    /\ last (base ++ [i] ++ cells ++ [e]) = Some e).
  { intros i e cells. split; [reflexivity|]. rewrite !app_assoc. apply last_snoc. }
  destruct (RResItems r) as [|it items].
  - split; [reflexivity|]. apply Forall_singleton. apply Hrow.
  - split; [by rewrite length_imap; simpl|]. apply Forall_forall.
    intros row (i & x & -> & _)%elem_of_lookup_imap. apply Hrow.
Qed.

(** C37: the CSV report.  A reader of RFC 4180 reads the report of at least one task back into the
    header and the rows, whatever commas, quotes, line breaks and spaces the values hold; every
    row has as many fields as the header; and each task has one row, or one per item when it has
    items, which starts with the task's identifier, URL and status and ends with its error. *)
Theorem csv_report_reads_back results :
  results <> [] ->
  read_table (bytes_of (csv_text results))
    = Some ((fun row : list string => bytes_of <$> row) <$> csv_report results)
  /\ Forall (fun row => length row
               = length (csv_header (collectFieldNames results) (collectItemFieldNames results)))
       (csv_report results)
  /\ (exists rows, csv_report results
        = csv_header (collectFieldNames results) (collectItemFieldNames results) :: mjoin rows
      /\ Forall2 (fun r rs => length rs = Nat.max 1 (length (RResItems r))
                   /\ Forall (fun row => take 3 row = [RTaskID r; RURL r; RStatus r]
                                         /\ last row = Some (RError r)) rs) results rows).
Proof.
  intros Hne. set (fs := collectFieldNames results). set (its := collectItemFieldNames results).
  assert (Hlen : Forall (fun row => length row = length (csv_header fs its)) (csv_report results)).
  { unfold csv_report. fold fs its. constructor; [done|]. apply Forall_forall. intros row Hrow.
    apply list_elem_of_bind in Hrow as (r & Hrow & _). rewrite (csv_rows_length _ _ _ _ Hrow).
    unfold csv_header. rewrite !length_app, length_fmap. simpl. lia. }
  split; [|split; [exact Hlen|]].
  - destruct results as [|r rs]; [done|]. unfold csv_text. rewrite bytes_of_bytes.
    apply read_table_written. apply Forall_fmap. eapply Forall_impl; [exact Hlen|].
    intros row Hrow E. apply fmap_nil_inv in E as ->. unfold csv_header in Hrow.
    rewrite !length_app in Hrow. simpl in Hrow. lia.
  - exists (csv_rows fs its <$> results).
    split; [unfold csv_report; fold fs its; by rewrite bind_join|].
    apply Forall2_fmap_r, Forall_Forall2_diag, Forall_forall. intros r _. apply csv_rows_shape.
Qed.

(** C38: results travel.  What the export worker reads from the object the parser worker stored is
    what was extracted: each field and item value as JSON prints and decodes it, no more and no
    less. *)
Theorem export_reads_parser_result r taskID u trace res :
  json_wf (result_json taskID u trace res) = true ->
  with_document r (marshal_indent (result_json taskID u trace res))
  = {| RTaskID := RTaskID r; RURL := RURL r; RStatus := RStatus r;
       RResFields := reread_map (RFields res);
       RResItems := reread_map <$> RItems res; RError := RError r |}.
Proof.
  intros Hw. unfold with_document, Unmarshal. rewrite unmarshal_marshal_indent by done.
  assert (Hi : forall l : list (gmap string any),
    parseResultItems (Some (JArr ((fun m => json_of_go_map m) <$> l))) = reread_map <$> l).
  { intros l. apply omap_fmap_Some. intros m. rewrite <- decode_go_map. done. }
  assert (Hf := decode_go_map (RFields res)).
  unfold result_json. simpl as_object. unfold json_of_go_map in *.
  case_bool_decide as Hfe; destruct (RItems res) as [|it items] eqn:Eit; cbn [app];
    unfold go_map; cbn [fold_left fst snd].
  all: repeat (rewrite lookup_insert_ne by done); rewrite ?lookup_insert_eq, ?lookup_empty; f_equal.
  all: try (rewrite Hfe; reflexivity).
  all: first [exact Hf | apply (Hi []) | apply (Hi (it :: items)) | idtac].
Qed.

End Reports.

(** ** Lemmas on a batch *)

Section Batch.
Context `{Env, JsonLib}.

(** The results of a report are those of the job's tasks. *)
Definition covers (ts : list CrawlTaskSnapshot) (id : string) (results : list TaskResult) : Prop :=
  (fun r => (RTaskID r, RURL r, RStatus r)) <$> results
  ≡ₚ (fun t => (ts_ID t, ts_URL t, ts_Status t))
     <$> bfilter (fun t => bool_decide (ts_JobID t = id)) ts.

Definition has_json (ts : list CrawlTaskSnapshot) (objs : gmap string string) (id : string) : Prop :=
  exists now results, covers ts id results
    /\ objs !! json_key (MkID id) = Some (marshal_indent (json_report (MkID id) now results)).
Definition has_csv (ts : list CrawlTaskSnapshot) (objs : gmap string string) (id : string) : Prop :=
  exists results, covers ts id results /\ objs !! csv_key (MkID id) = Some (csv_text results).

(** What a batch may do to a job: mark its export as failed, or as completed once both of its
    reports are stored. *)
Definition exported_row (ts : list CrawlTaskSnapshot) (objs : gmap string string)
    (j : CrawlJobSnapshot) : Prop :=
  js_ExportStatus j = Some ExportStatusFailed
  \/ (js_ExportStatus j = Some ExportStatusCompleted
      /\ js_ExportJSONKey j = Some (json_key (MkID (js_ID j)))
      /\ js_ExportCSVKey j = Some (csv_key (MkID (js_ID j)))
      /\ has_json ts objs (js_ID j) /\ has_csv ts objs (js_ID j)).

(** The columns an export keeps. *)
Definition kept_columns (j : CrawlJobSnapshot) : string * option string * option string * option string * Z :=
  (js_ID j, js_JobConfigID j, js_UserID j, js_Name j, js_CreatedAt j).

(** A row before and after: it stays, or it is one of [ids] and its export was marked. *)
Definition row_exported (ids : list string) (ts : list CrawlTaskSnapshot) (objs : gmap string string)
    (j j' : CrawlJobSnapshot) : Prop :=
  j' = j \/ (kept_columns j' = kept_columns j /\ js_ID j ∈ ids /\ exported_row ts objs j').

Definition exports (ids : list string) (a b : world) : Prop :=
  (db b = upd_jobs (fun _ => jobs (db b)) (db a) /\ published b = published a)
  /\ (forall id, (objects b !! json_key (MkID id) = objects a !! json_key (MkID id)
                  \/ has_json (tasks (db b)) (objects b) id)
              /\ (objects b !! csv_key (MkID id) = objects a !! csv_key (MkID id)
                  \/ has_csv (tasks (db b)) (objects b) id))
  /\ Forall2 (row_exported ids (tasks (db b)) (objects b)) (jobs (db a)) (jobs (db b)).

Lemma same_rows_exported ids ts objs l : Forall2 (row_exported ids ts objs) l l.
Proof. induction l; constructor; [by left|done]. Qed.

Lemma same_jobs d : d = upd_jobs (fun _ => jobs d) d.
Proof. by destruct d. Qed.

#[export] Instance exports_preorder ids : PreOrder (exports ids).
Proof.
  split; [intros a; repeat split; auto; [apply same_jobs|apply same_rows_exported]|].
  intros a b c ((Hd & Hp) & Hk & Hj) ((Hd' & Hp') & Hk' & Hj').
  assert (Ht' : tasks (db c) = tasks (db b)) by (by rewrite Hd').
  split; [split; [rewrite Hd', Hd; done|congruence]|].
  assert (Hjson : forall id, has_json (tasks (db b)) (objects b) id -> has_json (tasks (db c)) (objects c) id).
  { intros id (now & rs & Hcov & E). destruct (Hk' id) as [[E'|?] _]; [|done].
    exists now, rs. rewrite Ht', E'. done. }
  assert (Hcsv : forall id, has_csv (tasks (db b)) (objects b) id -> has_csv (tasks (db c)) (objects c) id).
  { intros id (rs & Hcov & E). destruct (Hk' id) as [_ [E'|?]]; [|done].
    exists rs. rewrite Ht', E'. done. }
  split.
  - intros id. destruct (Hk id) as [H1' H2'], (Hk' id) as [H3' H4']. split.
    + destruct H3' as [->|?]; [|by right]. destruct H1' as [?|?]; [by left|right; by apply Hjson].
    + destruct H4' as [->|?]; [|by right]. destruct H2' as [?|?]; [by left|right; by apply Hcsv].
  - eapply Forall2_trans; [|exact Hj|exact Hj']. intros x y z Hxy Hyz.
    destruct Hxy as [->|(Hcol & Hid & Hex)]; [exact Hyz|]. right.
    destruct Hyz as [->|(Hcol' & _ & Hex')]; [|split; [congruence|by split]].
    split; [done|]. split; [done|]. destruct Hex as [?|(? & ? & ? & ? & ?)]; [by left|right; auto 10].
Qed.

Lemma exports_same ids a b :
  db b = db a -> objects b = objects a -> published b = published a -> exports ids a b.
Proof.
  intros Hd Ho Hp. unfold exports. rewrite Hd, Ho, Hp.
  repeat split; auto; [apply same_jobs|apply same_rows_exported].
Qed.

(** A statement that changes jobs only. *)
Lemma exports_jobs ids a b p f :
  objects b = objects a -> published b = published a ->
  db b = db a \/ db b = upd_jobs (update_where p f) (db a) ->
  (forall j, j ∈ jobs (db a) -> p j = true ->
     kept_columns (f j) = kept_columns j /\ js_ID j ∈ ids /\ exported_row (tasks (db a)) (objects a) (f j)) ->
  exports ids a b.
Proof.
  intros Ho Hp [Hd|Hd] Hf; [by apply exports_same|].
  split; [by rewrite Hd|]. split; [intros; rewrite Ho; auto|].
  rewrite Hd. simpl. rewrite Ho. unfold update_where. apply Forall2_fmap_r.
  apply Forall_Forall2_diag, Forall_forall. intros j Hj.
  change (row_exported ids (tasks (db a)) (objects a) j (if p j then f j else j)).
  destruct (p j) eqn:E; [right; by apply Hf|by left].
Qed.

Lemma failExport_keeps ids id : value id ∈ ids -> keeps (exports ids) (failExport id).
Proof.
  intros Hid. unfold failExport. apply keeps_bind; [exact _| |intros ?; apply keeps_ret; exact _].
  intros w. unfold Job_FailExport, exec.
  match goal with |- context [stmt ?f w] => destruct (stmt_any f w) as (r & w' & E & Ho & Hp & Hd & _) end.
  rewrite E. simpl.
  eapply (exports_jobs _ _ _ (is_job (value id)) (set_export_status ExportStatusFailed)); [done|done| |].
  - destruct Hd as [?|(x & d & [= <- <-] & ?)]; auto.
  - intros j _ Hj. unfold is_job in Hj. apply bool_decide_eq_true in Hj.
    split; [done|]. split; [congruence|by left].
Qed.

Lemma load_result_out t w :
  exists r w', load_result t w = (Ret r, w') /\ same_store w w'
    /\ RTaskID r = value (TID t) /\ RURL r = URL t /\ RStatus r = Status t.
Proof.
  unfold load_result.
  assert (Hd : forall r s, RTaskID (with_document r s) = RTaskID r /\ RURL (with_document r s) = RURL r
                           /\ RStatus (with_document r s) = RStatus r).
  { intros r s. unfold with_document. by destruct (Unmarshal as_object s). }
  destruct (_ && _); [|destruct (bool_decide _); eexists _, w; by split].
  destruct (Retrieve_out (match ResultObjectKey t with Some k => k | None => "" end) w)
    as (r & w' & E & Hs & _).
  rewrite (bind_ret _ _ _ _ _ E). eexists _, w'. split; [done|]. split; [done|].
  destruct r as [s|e]; [|done]. match goal with |- context [with_document ?r0 s] =>
    destruct (Hd r0 s) as (-> & -> & ->) end. done.
Qed.

Lemma loadTaskResults_out ts w :
  exists rs w', loadTaskResults ts w = (Ret rs, w') /\ same_store w w'
    /\ (fun r => (RTaskID r, RURL r, RStatus r)) <$> rs
       = (fun t => (value (TID t), URL t, Status t)) <$> ts.
Proof.
  revert w. induction ts as [|t ts IH]; intros w; simpl; [by exists [], w|].
  destruct (load_result_out t w) as (r & w1 & E1 & Hs1 & Hi & Hu & Hst).
  destruct (IH w1) as (rs & w2 & E2 & Hs2 & Hrs).
  rewrite (bind_ret _ _ _ _ _ E1), (bind_ret _ _ _ _ _ E2).
  exists (r :: rs), w2. split; [done|]. split; [by etrans|].
  rewrite !fmap_cons, Hrs. cbv beta. by rewrite Hi, Hu, Hst.
Qed.

Lemma restored_ids (rows : list CrawlTaskSnapshot) ts :
  map_res RestoreCrawlTaskFromSnapshot rows = Ok ts ->
  (fun t => (value (TID t), URL t, Status t)) <$> ts
  = (fun r => (ts_ID r, ts_URL r, ts_Status r)) <$> rows.
Proof.
  revert ts. induction rows as [|r rows IH]; intros ts E; [by injection E as <-|]. simpl in E.
  apply res_bind_Ok in E as (t & Et & E). apply res_bind_Ok in E as (ts' & Ets & E).
  injection E as <-. rewrite !fmap_cons, (IH _ Ets). f_equal.
  unfold RestoreCrawlTaskFromSnapshot in Et. apply res_bind_Ok in Et as (i & Ei & Et).
  apply res_bind_Ok in Et as (ji & _ & Et). injection Et as <-.
  by destruct (NewID_ok _ _ Ei) as (-> & _).
Qed.

Lemma Task_ListByJob_any id w :
  exists r w', Task_ListByJob id w = (Ret r, w') /\ db w' = db w /\ objects w' = objects w
    /\ published w' = published w
    /\ forall ts, r = Ok ts ->
       (fun t => (value (TID t), URL t, Status t)) <$> ts
       ≡ₚ (fun r => (ts_ID r, ts_URL r, ts_Status r))
          <$> bfilter (fun t => bool_decide (ts_JobID t = value id)) (tasks (db w)).
Proof.
  unfold Task_ListByJob, scan_all, query.
  match goal with |- context [stmt ?f] => destruct (stmt_any f w) as (r & w' & E & Ho & Hp & Hd & Hr) end.
  assert (Hdb : db w' = db w) by (destruct Hd as [?|(x & d & [= <- <-] & ?)]; done).
  rewrite (try_run _ _ _ _ _ _ E). destruct r as [rows|e]; (eexists _, w'; repeat (split; [done|])); [|done].
  intros ts Ets. specialize (Hr rows eq_refl). injection Hr as Hrows _.
  rewrite (restored_ids _ _ Ets), <- Hrows. by rewrite order_by_perm.
Qed.

(** Storing a report under a key of its own. *)
Lemma exports_store ids k v w w' :
  w' = put_object k v (tick w) ->
  (forall id, json_key (MkID id) = k -> has_json (tasks (db w)) (<[k := v]> (objects w)) id) ->
  (forall id, csv_key (MkID id) = k -> has_csv (tasks (db w)) (<[k := v]> (objects w)) id) ->
  exports ids w w'.
Proof.
  intros -> Hj Hc. split; [split; [apply same_jobs|done]|]. split; [|apply same_rows_exported].
  simpl. intros id. split.
  - destruct (decide (json_key (MkID id) = k)) as [E|E]; [right; by apply Hj|].
    left. by rewrite lookup_insert_ne by done.
  - destruct (decide (csv_key (MkID id) = k)) as [E|E]; [right; by apply Hc|].
    left. by rewrite lookup_insert_ne by done.
Qed.

Lemma Store_out k v w :
  exists r w', Store k v w = (Ret r, w')
    /\ ((is_ok r = false /\ w' = tick w) \/ w' = put_object k v (tick w))
    /\ (r = Ok tt -> w' = put_object k v (tick w)).
Proof.
  unfold Store. destruct (call_out (fun w => (tt, put_object k v w)) w) as (r & w' & E & Hc & Hr).
  exists r, w'. split; [done|]. split; [done|]. intros ->. specialize (Hr tt eq_refl). congruence.
Qed.

Lemma generateJSONReport_out ids id rs w :
  covers (tasks (db w)) (value id) rs ->
  exists r w', generateJSONReport id rs w = (Ret r, w') /\ exports ids w w' /\ db w' = db w
    /\ (forall k, r = Ok k -> k = json_key id /\ has_json (tasks (db w')) (objects w') (value id)).
Proof.
  intros Hcov. unfold generateJSONReport, time_Now. rewrite (bind_ret _ _ _ _ _ (observe_ret _ _)).
  set (v := marshal_indent _). assert (Eid : MkID (value id) = id) by (by destruct id).
  destruct (Store_out (json_key id) v (tick w)) as (r & w' & E & Hc & Hr).
  rewrite (try_run _ _ _ _ _ _ E).
  assert (Hhas : has_json (tasks (db w)) (<[json_key id := v]> (objects w)) (value id)).
  { eexists _, rs. split; [exact Hcov|]. rewrite Eid. apply lookup_insert_eq. }
  assert (Hput : exports ids w (put_object (json_key id) v (tick (tick w)))).
  { apply (exports_store ids (json_key id) v (tick w)); [done| |].
    - intros i Hi. apply json_key_inj in Hi. subst id. exact Hhas.
    - intros i Hi. exfalso. by eapply json_csv_key. }
  destruct r as [[]|e]; (eexists _, w'; split; [done|]).
  - rewrite (Hr eq_refl). split; [exact Hput|]. split; [done|]. by intros k [= <-].
  - destruct Hc as [[_ ->]| ->]; (split; [|done]); [by apply exports_same|exact Hput].
Qed.

Lemma generateCSVReport_out ids id rs w :
  covers (tasks (db w)) (value id) rs ->
  exists r w', generateCSVReport id rs w = (Ret r, w') /\ exports ids w w' /\ db w' = db w
    /\ (forall k, r = Ok k -> k = csv_key id /\ has_csv (tasks (db w')) (objects w') (value id)).
Proof.
  intros Hcov. unfold generateCSVReport. assert (Eid : MkID (value id) = id) by (by destruct id).
  destruct (Store_out (csv_key id) (csv_text rs) w) as (r & w' & E & Hc & Hr).
  rewrite (try_run _ _ _ _ _ _ E).
  assert (Hhas : has_csv (tasks (db w)) (<[csv_key id := csv_text rs]> (objects w)) (value id)).
  { eexists rs. split; [exact Hcov|]. rewrite Eid. apply lookup_insert_eq. }
  assert (Hput : exports ids w (put_object (csv_key id) (csv_text rs) (tick w))).
  { apply (exports_store ids (csv_key id) (csv_text rs) w); [done| |].
    - intros i Hi. exfalso. by eapply json_csv_key.
    - intros i Hi. apply csv_key_inj in Hi. subst id. exact Hhas. }
  destruct r as [[]|e]; (eexists _, w'; split; [done|]).
  - rewrite (Hr eq_refl). split; [exact Hput|]. split; [done|]. by intros k [= <-].
  - destruct Hc as [[_ ->]| ->]; (split; [|done]); [by apply exports_same|exact Hput].
Qed.

(** The row of a job, as it was loaded. *)
Definition loaded_as (j : CrawlJob) (r : CrawlJobSnapshot) : Prop :=
  null_id (JobConfigID j) = js_JobConfigID r /\ null_id (JUserID j) = js_UserID r /\ JName j = js_Name r.

(** Every row under the identifier of the job is as it was loaded. *)
Definition loaded_from (j : CrawlJob) (d : database) : Prop :=
  forall r, r ∈ jobs d -> js_ID r = value (JID j) -> loaded_as j r.

Lemma loaded_kept ids j a b : exports ids a b -> loaded_from j (db a) -> loaded_from j (db b).
Proof.
  intros (_ & _ & Hj) Hl r Hr Hid. apply list_elem_of_lookup in Hr as [i Hi].
  destruct (Forall2_lookup_r _ _ _ _ _ Hj Hi) as (r0 & Hr0 & Hx). apply list_elem_of_lookup_2 in Hr0.
  destruct Hx as [->|([= Ei Ec Eu En _] & _)]; [by apply Hl|].
  destruct (Hl r0 Hr0) as (? & ? & ?); [congruence|]. unfold loaded_as. by rewrite Ec, Eu, En.
Qed.

Lemma Job_Update_exported ids j jk ck now w :
  storable j -> loaded_from j (db w) -> value (JID j) ∈ ids -> jk = json_key (JID j) -> ck = csv_key (JID j) ->
  has_json (tasks (db w)) (objects w) (value (JID j)) ->
  has_csv (tasks (db w)) (objects w) (value (JID j)) ->
  exists r w', Job_Update (MarkAsExported jk ck now j) w = (Ret r, w') /\ exports ids w w'.
Proof.
  intros Hst Hload Hid -> -> Hj Hc. unfold Job_Update.
  match goal with |- context [stmt ?f] => destruct (stmt_any f w) as (r & w' & E & Ho & Hp & Hd & _) end.
  exists r, w'. split; [exact E|].
  destruct (storable_columns (MarkAsExported (json_key (JID j)) (csv_key (JID j)) now j) Hst)
    as (Eid & Es & Ejk & Eck).
  set (e := SaveCrawlJobToSnapshot _) in *. simpl in Eid, Es, Ejk, Eck.
  assert (Ecol : loaded_as j e)
    by (unfold e, SaveCrawlJobToSnapshot; simpl; destruct (JobConfig j);
        [destruct (SaveCrawlJobConfigToSnapshot _)|]; by repeat split).
  apply (exports_jobs _ _ _ (is_job (js_ID e)) (set_job e)); [done|done| |].
  - destruct Hd as [?|(x & d & Ed & ->)]; [by left|].
    destruct (existsb _ _); [|injection Ed as _ <-; by left].
    apply res_bind_Ok in Ed as ([] & _ & Ed). injection Ed as _ <-. by right.
  - intros j1 Hj1 Hid1. unfold is_job in Hid1. apply bool_decide_eq_true in Hid1.
    assert (Hm : MkID (js_ID j1) = JID j) by (rewrite Hid1, Eid; by destruct (JID j)).
    destruct (Hload j1 Hj1) as (Hc1 & Hu1 & Hn1); [congruence|]. destruct Ecol as (Hc2 & Hu2 & Hn2).
    split; [unfold kept_columns; simpl; congruence|]. split; [congruence|].
    right. simpl. rewrite Hm, Hid1, Eid. auto.
Qed.

Lemma covers_results (rows : list CrawlTaskSnapshot) id ts rs :
  (fun r => (RTaskID r, RURL r, RStatus r)) <$> rs = (fun t => (value (TID t), URL t, Status t)) <$> ts ->
  (fun t => (value (TID t), URL t, Status t)) <$> ts
    ≡ₚ (fun r => (ts_ID r, ts_URL r, ts_Status r)) <$> bfilter (fun t => bool_decide (ts_JobID t = id)) rows ->
  covers rows id rs.
Proof. intros E Hp. unfold covers. by rewrite E. Qed.

Lemma processJob_keeps ids j w :
  storable j -> value (JID j) ∈ ids -> loaded_from j (db w) -> exports ids w (processJob j w).2.
Proof.
  intros Hst Hid Hload. unfold processJob.
  assert (Hfail : forall e w1, exports ids w w1 ->
    exports ids w ((_ ← failExport (JID j); (ret_err e : M (res unit))) w1).2).
  { intros e w1 Hw. etrans; [exact Hw|]. revert w1 Hw. intros w1 _.
    apply (keeps_bind (exports ids)); [by apply failExport_keeps|]. intros ?. apply keeps_ret; exact _. }
  destruct (Task_ListByJob_any (JID j) w) as (r & w1 & E1 & Hd1 & Ho1 & Hp1 & Hl).
  rewrite (try_run _ _ _ _ _ _ E1). pose proof (exports_same ids _ _ Hd1 Ho1 Hp1) as Hw1.
  destruct r as [ts|e]; [|by apply Hfail].
  destruct (loadTaskResults_out ts w1) as (rs & w2 & E2 & (Hd2 & _ & Ho2 & Hp2) & Hrs).
  rewrite (bind_ret _ _ _ _ _ E2).
  assert (Hw2 : exports ids w w2) by (etrans; [exact Hw1|by apply exports_same]).
  assert (Hcov : covers (tasks (db w2)) (value (JID j)) rs).
  { rewrite Hd2, Hd1. eapply covers_results; [exact Hrs|by apply Hl]. }
  destruct (generateJSONReport_out ids (JID j) rs w2 Hcov) as (r3 & w3 & E3 & Hx3 & Hd3 & Hr3).
  rewrite (try_run _ _ _ _ _ _ E3). assert (Hw3 : exports ids w w3) by (by etrans).
  destruct r3 as [jk|e]; [|by apply Hfail]. destruct (Hr3 _ eq_refl) as [Ejk Hjson].
  rewrite <- Hd3 in Hcov.
  destruct (generateCSVReport_out ids (JID j) rs w3 Hcov) as (r4 & w4 & E4 & Hx4 & Hd4 & Hr4).
  rewrite (try_run _ _ _ _ _ _ E4). assert (Hw4 : exports ids w w4) by (by etrans).
  destruct r4 as [ck|e]; [|by apply Hfail]. destruct (Hr4 _ eq_refl) as [Eck Hcsv].
  assert (Hjson4 : has_json (tasks (db w4)) (objects w4) (value (JID j))).
  { destruct Hx4 as (_ & Hk & _). destruct (Hk (value (JID j))) as [[E|?] _]; [|done].
    destruct Hjson as (now & rs' & Hc & Eo). exists now, rs'. rewrite Hd4, E. done. }
  unfold time_Now. rewrite (bind_ret _ _ _ _ _ (observe_ret _ _)).
  pose proof (loaded_kept ids j w w4 Hw4 Hload) as Hload4.
  destruct (Job_Update_exported ids j jk ck (clock_at (ticks w4)) (tick w4) Hst Hload4 Hid Ejk Eck Hjson4 Hcsv)
    as (r5 & w5 & E5 & Hx5).
  rewrite (try_run _ _ _ _ _ _ E5).
  assert (Hw5 : exports ids w w5)
    by (etrans; [exact Hw4|]; etrans; [by apply (exports_same ids w4 (tick w4))|exact Hx5]).
  by destruct r5 as [[]|e].
Qed.

(** The jobs the query gives are eligible. *)
Lemma eligible_jobs limit w js w' :
  Job_ListEligibleForExport limit w = (Ret (Ok js), w') ->
  w' = tick w /\ forall j, j ∈ js -> storable j /\ exists r,
    r ∈ jobs (db w) /\ eligible (db w) r = true /\ js_ID r = value (JID j) /\ loaded_as j r.
Proof.
  unfold Job_ListEligibleForExport, query_jobs. intros E.
  apply try_ok' in E as (rows & w1 & E1 & E). apply query_ok in E1 as (_ & -> & ->).
  injection E as E <-. split; [done|]. intros j Hj. unfold scanJobsWithQueueEndpoints in E.
  apply res_bind_Ok in E as (snaps & Esn & E).
  destruct (map_res_elem _ _ _ _ E Hj) as (s & Hs & Es).
  destruct (map_res_elem _ _ _ _ Esn Hs) as (row & Hrow & Er).
  apply list_elem_of_fmap in Hrow as (r & -> & Hr). unfold eligible_rows in Hr.
  apply elem_of_limit_rows, elem_of_order_by, elem_of_bfilter in Hr as [Hel Hin].
  apply andb_true_iff in Hel as [Hel _]. split; [by eapply restored_storable|].
  exists r. split; [done|]. split; [done|].
  unfold join_config, scanCrawlJobWithConfig in Er. simpl in Er.
  destruct (job_config_row (db w) r) as [cr|]; [|done]. injection Er as <-.
  destruct (restored_job_ids _ _ Es) as (Hi & Hcols). by split.
Qed.

Definition eligible_ids (d : database) : list string := js_ID <$> bfilter (eligible d) (jobs d).

(** Identifiers are unique, so that the row that was read is the only one of its job. *)
Lemma loaded_unique j r d :
  NoDup (js_ID <$> jobs d) -> r ∈ jobs d -> js_ID r = value (JID j) -> loaded_as j r -> loaded_from j d.
Proof.
  intros Hnd Hr Hid Hl x Hx Hxi. replace x with r; [done|].
  apply list_elem_of_lookup in Hr as [i Hi], Hx as [k Hk].
  assert (i = k) as ->; [|congruence].
  eapply NoDup_lookup; [exact Hnd|rewrite list_lookup_fmap, Hi; reflexivity|].
  rewrite list_lookup_fmap, Hk. simpl. congruence.
Qed.

Lemma export_batch_keeps limit w :
  NoDup (js_ID <$> jobs (db w)) -> exports (eligible_ids (db w)) w (export_batch limit w).2.
Proof.
  intros Hnd. unfold export_batch.
  destruct (Job_ListEligibleForExport limit w) as [[[js|e]|s] w1] eqn:E.
  - destruct (eligible_jobs _ _ _ _ E) as [-> Hel]. rewrite (try_run _ _ _ _ _ _ E).
    etrans; [by apply (exports_same _ w (tick w))|].
    assert (Hjobs : forall j, j ∈ js -> storable j /\ value (JID j) ∈ eligible_ids (db w)
                                    /\ loaded_from j (db (tick w))).
    { intros j Hj. destruct (Hel j Hj) as (Hst & r & Hr & He & Hid & Hl). split; [done|].
      split; [rewrite <- Hid; apply list_elem_of_fmap; exists r; split; [done|by apply elem_of_bfilter]|].
      by apply (loaded_unique j r). }
    clear E Hel. revert Hjobs. generalize (tick w) as w1. generalize (eligible_ids (db w)) as ids.
    induction js as [|j js IH]; intros ids w1 Hjobs; simpl; [by apply exports_same|].
    destruct (Hjobs j) as (Hst & Hid & Hl); [left|].
    pose proof (processJob_keeps ids j w1 Hst Hid Hl) as Hx.
    unfold mbind at 1, M_bind, mbind at 1, M_bind, mbind at 1, M_bind.
    destruct (processJob j w1) as [[r|s] w2]; simpl in *; [|done]. etrans; [exact Hx|].
    apply (IH ids w2). intros j' Hj'. destruct (Hjobs j') as (? & ? & ?); [by right|].
    split; [done|]. split; [done|]. by eapply loaded_kept.
  - rewrite (try_run _ _ _ _ _ _ E). simpl.
    unfold Job_ListEligibleForExport, query_jobs, query, try_bind, mbind, M_bind in E.
    match type of E with context [stmt ?f w] => destruct (stmt_any f w) as (r & w' & E' & Ho & Hp & Hd & _) end.
    rewrite E' in E. assert (w1 = w') as -> by (destruct r; by injection E).
    apply exports_same; [|done..]. destruct Hd as [?|(x & d & [= <- <-] & ?)]; done.
  - exfalso. unfold Job_ListEligibleForExport, query_jobs, query, try_bind, mbind, M_bind in E.
    match type of E with context [stmt ?f w] => destruct (stmt_any f w) as (r & w' & E' & _) end.
    rewrite E' in E. by destruct r.
Qed.

End Batch.

(** C9: exports are safe.  Whatever the database and the object store do, a poll of the export
    worker does not panic, publishes nothing and changes no table but that of the jobs.  No job row
    comes or goes: each is there afterwards at its place, unchanged, or it was eligible when the poll
    began (every task finished, every parsed task with its result, no event pending, not in
    progress), keeps its identifier, configuration, user, name and creation time, and is marked as
    Failed, or as Completed, and then both reports it names are in the object store and list exactly
    the tasks of the job with their statuses.  Identifiers of jobs are unique (the primary key). *)
Theorem exports_safe `{Env, JsonLib} batchSize a :
  tx a = None -> NoDup (js_ID <$> jobs (db a)) ->
  exists b, processEligibleJobs batchSize a = (Ret tt, b) /\ tx b = None
    /\ db b = upd_jobs (fun _ => jobs (db b)) (db a) /\ published b = published a
    /\ Forall2 (fun j j' => j' = j
         \/ (kept_columns j' = kept_columns j /\ (exists r, r ∈ jobs (db a) /\ eligible (db a) r = true /\ js_ID r = js_ID j)
             /\ exported_row (tasks (db a)) (objects b) j')) (jobs (db a)) (jobs (db b)).
Proof.
  intros Ht Hnd. unfold processEligibleJobs.
  destruct (ReadCommitted_cases (export_batch batchSize) a Ht) as (r & b & E & Htb & Hc).
  rewrite (bind_ret _ _ _ _ _ E). exists b. split; [done|]. split; [done|].
  assert (Hsame : forall l, Forall2 (fun j j' => j' = j
         \/ (kept_columns j' = kept_columns j /\ (exists r, r ∈ jobs (db a) /\ eligible (db a) r = true /\ js_ID r = js_ID j)
             /\ exported_row (tasks (db a)) (objects b) j')) l l)
    by (intros l; induction l; constructor; [by left|done]).
  destruct Hc as [[_ ->]|(o & w1 & Ef & Hp & Ho & Hc)]; [by repeat split; auto; apply same_jobs|].
  pose proof (export_batch_keeps batchSize (set_tx (Some false) (tick a)) Hnd) as Hk.
  rewrite Ef in Hk. destruct Hk as ((Hkd & Hkp) & _ & Hkj). simpl in *.
  destruct Hc as [[_ Hd]|(x & -> & _ & _ & Hd)].
  - rewrite Hd, Hp, Hkp. split; [apply same_jobs|]. by split.
  - rewrite Hd, Hp, Hkp. split; [done|]. split; [done|]. eapply Forall2_impl; [exact Hkj|].
    intros j j' [?|(Hcol & Hid & Hex)]; [by left|right]. split; [done|]. rewrite Hkd in Hex. simpl in Hex.
    rewrite <- Ho in Hex. split; [|done].
    apply list_elem_of_fmap in Hid as (r0 & Hid & Hr0). apply elem_of_bfilter in Hr0 as [Hel Hin].
    exists r0. by rewrite Hid.
Qed.

(** ** Concrete runs *)

#[local] Existing Instances any_uuid plain_env plain_json.

Definition demo_extraction : extractionResult :=
  {| RFields := {["title" := AStr "T, with a comma"]}; RItems := [{["n" := AInt64 7]}; {["n" := ANil]}] |}.

(** The seed task of the demo job is parsed and its result is stored. *)
Definition demo_parsed : world :=
  {| db := {| configs := configs demo_db; jobs := jobs demo_db;
              tasks := [SaveCrawlTaskToSnapshot
                          (Domain.MarkAsParsed (result_key "t1") "application/json" 9 5 (demo_task TaskStatusFetched))];
              outbox := []; users := users demo_db; tokens := []; previews := [] |};
     tx := None;
     objects := {[result_key "t1" := marshal_indent (result_json "t1" "http://a.b/" ∅ demo_extraction)]};
     published := []; ticks := 0 |}.

Definition demo_exported : world := (processEligibleJobs 10 demo_parsed).2.

Example demo_export_run :
  (js_ExportStatus <$> jobs (db demo_exported), js_Status <$> jobs (db demo_exported))
  = ([Some "COMPLETED"], ["Completed"]).
Proof. vm_compute. reflexivity. Qed.

(** The job of the run has both of its reports, of one task. *)
Lemma exports_safe_witness :
  exists b j, processEligibleJobs 10 demo_parsed = (Ret tt, b) /\ jobs (db b) = [j]
    /\ js_ExportStatus j = Some ExportStatusCompleted
    /\ has_json (tasks (db demo_parsed)) (objects b) (js_ID j)
    /\ has_csv (tasks (db demo_parsed)) (objects b) (js_ID j)
    /\ users (db b) = users (db demo_parsed).
Proof.
  destruct (exports_safe 10 demo_parsed eq_refl) as (b & E & _ & Hd & _ & Hj).
  { vm_compute. apply NoDup_singleton. }
  assert (Hs : js_ExportStatus <$> jobs (db demo_exported) = [Some ExportStatusCompleted])
    by (vm_compute; reflexivity).
  unfold demo_exported in Hs. rewrite E in Hs. simpl in Hs.
  destruct (jobs (db b)) as [|j [|? ?]] eqn:Ej; [discriminate Hs| |discriminate Hs].
  injection Hs as Hs. exists b, j. split; [exact E|]. split; [exact Ej|]. split; [exact Hs|].
  apply Forall2_cons_1 in Hj as [[->|(_ & _ & [Hf|(_ & _ & _ & Hjson & Hcsv)])] _].
  - discriminate Hs.
  - rewrite Hs in Hf. discriminate Hf.
  - split; [exact Hjson|]. split; [exact Hcsv|]. by rewrite Hd.
Defined.

Lemma export_reads_parser_result_witness :
  RResFields (with_document {| RTaskID := "t1"; RURL := ""; RStatus := ""; RResFields := ∅;
                               RResItems := []; RError := "" |}
    (marshal_indent (result_json "t1" "http://a.b/" ∅ demo_extraction)))
  = reread_map (RFields demo_extraction).
Proof. rewrite export_reads_parser_result by (vm_compute; reflexivity). reflexivity. Defined.

Definition demo_results : list TaskResult :=
  [{| RTaskID := "t1"; RURL := "http://a.b/,x"; RStatus := TaskStatusParsed;
      RResFields := {["title" := AStr "a,b"]}; RResItems := [{["n" := AInt64 7]}; {["n" := ANil]}]; RError := "" |};
   {| RTaskID := "t2"; RURL := "http://a.b/y"; RStatus := TaskStatusFailed; RResFields := ∅;
      RResItems := []; RError := " task failed" |}].

Lemma csv_report_reads_back_witness :
  read_table (bytes_of (csv_text demo_results))
  = Some ((fun row : list string => bytes_of <$> row) <$>
      [["task_id"; "url"; "status"; "title"; "item_index"; "item.n"; "error"];
       ["t1"; "http://a.b/,x"; "Parsed"; "a,b"; "0"; marshal (JInt 7); ""];
       ["t1"; "http://a.b/,x"; "Parsed"; "a,b"; "1"; ""; ""];
       ["t2"; "http://a.b/y"; "Failed"; ""; ""; ""; " task failed"]]).
Proof.
  destruct (csv_report_reads_back demo_results) as [E _]; [discriminate|].
  rewrite E. vm_compute. reflexivity.
Defined.
