(* ===== verification/JobService.v ===== *)
(** * The crawl job service

    [application/service/crawl_job]: a command creates a configuration, its job, a task per seed and
    an outbox event per task in one transaction; deleting a job deletes its configuration and with
    it every run of it. *)

From S2P Require Import Prelude GoStrings Domain Json Converters World Sql Repos Routing GoUrl Scope.
From S2P Require Import FetchWorker Extraction ParserWorker.

(** [service.CreateCrawlJobCommand]. *)
Record CreateCrawlJobCommand := {
  CmdUserID : string; CmdConfig : CrawlJobConfig; AvailableQueues : list string }.

(** The loop that drops blank patterns. *)
Definition normalize_patterns (patterns : list string) : list string :=
  filter (fun p => p <> "") (TrimSpace <$> patterns).

Definition with_patterns (patterns : list string) (c : CrawlJobConfig) : CrawlJobConfig :=
  {| CfgID := CfgID c; CfgUserID := CfgUserID c; CfgName := CfgName c;
     CfgExtractionSpec := CfgExtractionSpec c;
     Scopes := {| MaxDepth := MaxDepth (Scopes c); AllowedDomains := AllowedDomains (Scopes c);
                  DenyUrlPatterns := DenyUrlPatterns (Scopes c); AllowedURLPatterns := patterns |};
     Seeds := Seeds c; RateLimit := RateLimit c; Retries := Retries c; Auth := Auth c;
     Schedule := Schedule c; CfgJobType := CfgJobType c; RespectRobotsTxt := RespectRobotsTxt c;
     CfgCrawlMode := CfgCrawlMode c; QueueWeights := QueueWeights c |}.

Definition with_ids (id : ID) (user : UserID) (c : CrawlJobConfig) : CrawlJobConfig :=
  {| CfgID := id; CfgUserID := user; CfgName := CfgName c;
     CfgExtractionSpec := CfgExtractionSpec c; Scopes := Scopes c; Seeds := Seeds c;
     RateLimit := RateLimit c; Retries := Retries c; Auth := Auth c; Schedule := Schedule c;
     CfgJobType := CfgJobType c; RespectRobotsTxt := RespectRobotsTxt c;
     CfgCrawlMode := CfgCrawlMode c; QueueWeights := QueueWeights c |}.

Definition new_job (id : CrawlJobID) (configID : ID) (config : CrawlJobConfig) (user : UserID)
    (name : option string) (now : Z) : CrawlJob :=
  {| JID := id; JobConfigID := configID; JobConfig := Some config; JUserID := user; JName := name;
     JStatus := TaskStatusInProgress; CreatedAt := now; CompletedAt := None; ExportJSONKey := None;
     ExportCSVKey := None; ExportedAt := None; JExportStatus := ExportStatusNotStarted |}.

(** A task for a seed. *)
Definition seed_task (id : CrawlTaskID) (jobID : CrawlJobID) (url : string) (now : Z) : CrawlTask :=
  {| TID := id; JobID := jobID; Job := None; URL := url; FinalURL := None;
     Status := TaskStatusInProgress; EnqueuedAt := now; Depth := 0; MinioObjectKey := "";
     ResultObjectKey := None; ResultContentType := None; ResultSizeBytes := None;
     ResultCreatedAt := None; ErrorMessage := None |}.

Definition with_route (queue : string) (trace : gmap string string) (e : TaskEnqueuedEvent)
  : TaskEnqueuedEvent :=
  {| EvID := EvID e; EvType := EvType e; EvOccurredAt := EvOccurredAt e; EvTaskID := EvTaskID e;
     EvJobID := EvJobID e; EvURL := EvURL e; EvEnqueuedAt := EvEnqueuedAt e;
     EvTraceContext := trace; EvTargetQueue := queue |}.

Section JobService.
Context `{Env, JsonLib}.

(** [json.Marshal(event)] fails on a time out of the years 0 to 9999. *)
Definition marshal_event (e : TaskEnqueuedEvent) : res string :=
  if time_ok (EvOccurredAt e) && time_ok (EvEnqueuedAt e) then Ok (marshal (json_of_event e))
  else Err (ENew "Time.MarshalJSON: year outside of range [0,9999]").

Definition outbox_event (id : string) (event : TaskEnqueuedEvent) (payload : string) (created : Z)
  : OutboxEvent string :=
  {| OID := MkID id; OEventType := EvType event; OAggregateID := EvTaskID event;
     OPayload := payload; OOccurredAt := EvOccurredAt event; OProcessedAt := None;
     OCreatedAt := created |}.

(** The task of a seed and its event, routed to a queue. *)
Definition new_seed (jobID : CrawlJobID) (queues : list string) (weights : list QueueWeight)
    (now : Z) (seed : Seed) : M (CrawlTask * TaskEnqueuedEvent) :=
  taskID ← uuid_New;
  let task := seed_task (MkID taskID) jobID (SeedUrl seed) now in
  eventID ← uuid_New;
  occurred ← time_Now;
  let event := NewTaskEnqueuedEvent eventID occurred (value (TID task)) (value (JobID task))
                 (URL task) (EnqueuedAt task) in
  queue ← SelectCrawlQueue queues weights;
  mret (task, with_route queue ∅ event).

(** The loop over the seeds: each event is stored as it is made. *)
Fixpoint create_seeds (jobID : CrawlJobID) (queues : list string) (weights : list QueueWeight)
    (now : Z) (seeds : list Seed) : M (res (list CrawlTask)) :=
  match seeds with
  | [] => ret_ok []
  | seed :: seeds =>
      te ← new_seed jobID queues weights now seed;
      trace ← InjectTraceContext;
      let event := with_route (EvTargetQueue te.2) trace te.2 in
      try payload <- lift_res (marshal_event event)
        else e => ret_err (Errorf "failed to marshal event" e);
      oid ← uuid_New;
      created ← time_Now;
      try _ <- Outbox_Create (outbox_event oid event payload created)
        else e => ret_err (Errorf "failed to create outbox event" e);
      try tasks <- create_seeds jobID queues weights now seeds;
      ret_ok (te.1 :: tasks)
  end.

(** The body of the transaction. *)
Definition create_job (command : CreateCrawlJobCommand) (cfg : CrawlJobConfig) (userID : UserID)
  : M (res CrawlJobID) :=
  configID ← uuid_New;
  jobID ← uuid_New;
  let config := with_ids (MkID configID) userID cfg in
  try createdConfigID <- Config_Create config
    else e => ret_err (Errorf "failed to create job config" e);
  created ← time_Now;
  try jobID <- Job_Create (new_job (MkID jobID) createdConfigID config userID None created)
    else e => ret_err (Errorf "failed to create crawl job" e);
  now ← time_Now;
  try tasks <- create_seeds jobID (AvailableQueues command) (QueueWeights config) now (Seeds config);
  try _ <- Task_BulkCreate tasks
    else e => ret_err (Errorf "failed to create crawl tasks" e);
  ret_ok jobID.

Definition CreateCrawlJob (command : CreateCrawlJobCommand) : M (res CrawlJobID) :=
  match Seeds (CmdConfig command) with
  | [] => ret_err (ENew "seeds list cannot be empty")
  | _ =>
      let patterns := normalize_patterns (AllowedURLPatterns (Scopes (CmdConfig command))) in
      let config := with_patterns patterns (CmdConfig command) in
      try _ <- lift_res (CompileAllowedURLPatterns patterns)
        else e => ret_err (Errorf "invalid scopes.allowed_url_patterns" e);
      try userID <- lift_res (NewUserID (CmdUserID command))
        else e => ret_err (Errorf "invalid user_id" e);
      ReadCommitted (create_job command config userID)
  end.

Definition DeleteCrawlJob (jobID : string) : M (res unit) :=
  try id <- lift_res (NewCrawlJobID jobID)
    else e => ret_err (Errorf "invalid job id" e);
  try job <- Job_Get id
    else e => ret_err (Errorf "get crawl job" e);
  Config_Delete (JobConfigID job).

Definition GetCrawlJob (id : string) : M (res CrawlJob) :=
  try id <- lift_res (NewCrawlJobID id); Job_Get id.

End JobService.

(** ** Lemmas *)

Section Creation.
Context `{Env, JsonLib}.

(** The foreign key of [crawl_tasks]. *)
Definition tasks_have_jobs (d : database) : Prop :=
  forall t, t ∈ tasks d -> exists j, j ∈ jobs d /\ js_ID j = ts_JobID t.

(** The event that announces a task. *)
Definition announces_task (e : OutboxEventSnapshot) (r : CrawlTaskSnapshot) : Prop :=
  os_AggregateID e = ts_ID r /\ os_EventType e = EventTypeTaskEnqueued /\ os_ProcessedAt e = None
  /\ exists ev, os_Payload e = marshal (json_of_event ev) /\ EvTaskID ev = ts_ID r
       /\ EvJobID ev = ts_JobID r /\ EvURL ev = ts_URL r.

(** A job with its seeds in [d'], relative to [d]: the job row, one task at depth 0 per distinct
    seed URL, exactly one event per seed, in order, and among them one that names each task.  (A seed
    that is listed twice has one task and two events, the second naming no row.) *)
Definition job_started (id : CrawlJobID) (seeds : list Seed) (d d' : database) : Prop :=
  exists j new evs,
    jobs d' = jobs d ++ [j] /\ tasks d' = tasks d ++ new /\ outbox d' = outbox d ++ evs
    /\ js_ID j = value id /\ js_Status j = TaskStatusInProgress
    /\ js_ExportStatus j = Some ExportStatusNotStarted
    /\ Forall (fun r => ts_JobID r = value id /\ ts_Status r = TaskStatusInProgress /\ ts_Depth r = 0) new
    /\ NoDup (ts_URL <$> new) /\ (forall u, u ∈ ts_URL <$> new <-> u ∈ SeedUrl <$> seeds)
    /\ Forall2 (fun seed e => exists r, announces_task e r /\ ts_URL r = SeedUrl seed
                                      /\ ts_JobID r = value id) seeds evs
    /\ Forall (fun r => exists e, e ∈ evs /\ announces_task e r) new.

Lemma new_seed_out jobID queues ws now seed a o b :
  new_seed jobID queues ws now seed a = (o, b) ->
  same_store a b /\ forall te, o = Ret te -> exists id evid occ queue,
    te = (seed_task (MkID id) jobID (SeedUrl seed) now,
          with_route queue ∅ (NewTaskEnqueuedEvent evid occ id (value jobID) (SeedUrl seed) now)).
Proof.
  unfold new_seed, uuid_New, time_Now. intros E. unfold mbind in E. unfold M_bind in E. simpl in E.
  destruct (SelectCrawlQueue queues ws (tick (tick (tick a)))) as [q b'] eqn:Eq.
  assert (Hs : same_store a b').
  { pose proof (sends_SelectCrawlQueue (fun _ => False) queues ws (tick (tick (tick a)))) as Hk.
    rewrite Eq in Hk. destruct Hk as (Hd & Ht & Ho & l & Hl & HF). simpl in *.
    destruct l; [|by inversion HF]. rewrite app_nil_r in Hl. by repeat split. }
  destruct q as [q|s]; injection E as <- <-; (split; [done|]); [|done].
  intros te [= <-]. eauto.
Qed.

(** What the loop over the seeds does when it returns. *)
Lemma create_seeds_ok jobID queues ws now seeds a ts b :
  create_seeds jobID queues ws now seeds a = (Ret (Ok ts), b) ->
  exists evs, db b = upd_outbox (fun l => l ++ evs) (db a) /\ tx b = tx a
    /\ Forall2 (fun seed t => exists id, t = seed_task (MkID id) jobID (SeedUrl seed) now) seeds ts
    /\ Forall2 (fun t e => announces_task e (SaveCrawlTaskToSnapshot t)) ts evs.
Proof.
  revert a ts b. induction seeds as [|seed seeds IH]; intros a ts b E.
  - injection E as <- <-. exists []. split; [|split; [done|split; constructor]].
    unfold upd_outbox. rewrite app_nil_r. by destruct (db a).
  - simpl in E. unfold mbind at 1, M_bind in E.
    destruct (new_seed jobID queues ws now seed a) as [[te|s] a1] eqn:E1; [|done].
    destruct (new_seed_out _ _ _ _ _ _ _ _ E1) as [(Hd1 & Ht1 & _ & _) Hte].
    destruct (Hte te eq_refl) as (id & evid & occ & queue & ->). simpl in E.
    unfold InjectTraceContext in E. rewrite (bind_ret _ _ _ _ _ (observe_ret _ _)) in E.
    set (ev := with_route queue _ _) in E.
    apply try_ok in E as (payload & a2 & E2 & E). injection E2 as E2 <-.
    unfold marshal_event in E2. destruct (_ && _); [|done]. injection E2 as <-.
    unfold uuid_New, time_Now in E. rewrite (bind_ret _ _ _ _ _ (observe_ret _ _)) in E.
    rewrite (bind_ret _ _ _ _ _ (observe_ret _ _)) in E.
    apply try_ok in E as ([] & a3 & E3 & E). apply try_ok' in E as (ts' & a4 & E4 & E).
    injection E as <- <-. destruct (IH _ _ _ E4) as (evs & Hd4 & Ht4 & Hs & Ha).
    unfold Outbox_Create in E3. apply stmt_ok in E3 as (_ & d & E3 & ->).
    apply res_bind_Ok in E3 as (d' & E3 & [= <-]). unfold insert_event in E3.
    apply res_bind_Ok in E3 as ([] & _ & [= <-]). simpl in Hd4, Ht4.
    set (e := SaveOutboxEventToSnapshot _) in Hd4. exists (e :: evs).
    split; [rewrite Hd4, Hd1; unfold upd_outbox; simpl; by rewrite <- app_assoc|].
    split; [congruence|]. split; [constructor; [by eexists|done]|]. constructor.
    + split; [done|]. split; [done|]. split; [done|]. by exists ev.
    + exact Ha.
Qed.

(** The events of the tasks of the seeds, one per seed. *)
Lemma seeds_announced jobID now seeds ts evs :
  Forall2 (fun seed t => exists id, t = seed_task (MkID id) jobID (SeedUrl seed) now) seeds ts ->
  Forall2 (fun t e => announces_task e (SaveCrawlTaskToSnapshot t)) ts evs ->
  Forall2 (fun seed e => exists r, announces_task e r /\ ts_URL r = SeedUrl seed
                                   /\ ts_JobID r = value jobID) seeds evs
  /\ forall r, r ∈ SaveCrawlTaskToSnapshot <$> ts -> exists e, e ∈ evs /\ announces_task e r.
Proof.
  intros Hs. revert evs. induction Hs as [|seed t seeds ts (id & ->) Hs IH]; intros evs He;
    inversion He as [|? e ? evs' Hte Hes]; subst.
  - split; [constructor|by inversion 1].
  - destruct (IH _ Hes) as [IH1 IH2]. split; [constructor; [by eexists|done]|].
    intros r. rewrite fmap_cons. intros [->|Hr]%elem_of_cons; [exists e; split; [left|done]|].
    destruct (IH2 r Hr) as (e' & ? & ?). exists e'. split; [by right|done].
Qed.

Lemma Forall2_Forall_l_elem {A B} (P : A -> B -> Prop) l k x :
  Forall2 P l k -> x ∈ l -> exists y, y ∈ k /\ P x y.
Proof.
  intros Hf Hx. apply list_elem_of_lookup in Hx as [i Hi].
  destruct (Forall2_lookup_l _ _ _ _ _ Hf Hi) as (y & Hy & HP). exists y.
  split; [by eapply list_elem_of_lookup_2|done].
Qed.

Lemma Forall2_Forall_r_elem {A B} (P : A -> B -> Prop) l k y :
  Forall2 P l k -> y ∈ k -> exists x, x ∈ l /\ P x y.
Proof.
  intros Hf Hy. apply list_elem_of_lookup in Hy as [i Hi].
  destruct (Forall2_lookup_r _ _ _ _ _ Hf Hi) as (x & Hx & HP). exists x.
  split; [by eapply list_elem_of_lookup_2|done].
Qed.

(** Every row given to an insertion has a row with its job and URL afterwards. *)
Lemma insert_tasks_covers rows d ids d' r :
  insert_tasks rows d = Ok (ids, d') -> r ∈ rows -> exists x, x ∈ tasks d' /\ job_url x = job_url r.
Proof.
  intros E Hr. destruct (insert_tasks_out _ _ _ _ E) as (new & -> & _ & _ & _ & Hall).
  apply Hall, list_elem_of_fmap in Hr as (x & Ex & Hx). by exists x.
Qed.

(** The rows of the seeds of a job that had none. *)
Lemma seeds_inserted jobID now seeds ts d ids d' :
  Forall2 (fun seed t => exists id, t = seed_task (MkID id) jobID (SeedUrl seed) now) seeds ts ->
  (forall t, t ∈ tasks d -> ts_JobID t <> value jobID) ->
  insert_tasks (SaveCrawlTaskToSnapshot <$> ts) d = Ok (ids, d') ->
  exists new, d' = upd_tasks (fun l => l ++ new) d
    /\ new `sublist_of` (SaveCrawlTaskToSnapshot <$> ts)
    /\ Forall (fun r => ts_JobID r = value jobID /\ ts_Status r = TaskStatusInProgress /\ ts_Depth r = 0) new
    /\ NoDup (ts_URL <$> new) /\ (forall u, u ∈ ts_URL <$> new <-> u ∈ SeedUrl <$> seeds).
Proof.
  intros Hs Hd E. destruct (insert_tasks_out _ _ _ _ E) as (new & -> & Hsub & _ & (_ & _ & Hnd) & _).
  exists new. split; [done|]. split; [done|].
  assert (Hrows : forall r, r ∈ SaveCrawlTaskToSnapshot <$> ts ->
    (ts_JobID r = value jobID /\ ts_Status r = TaskStatusInProgress /\ ts_Depth r = 0)
    /\ ts_URL r ∈ SeedUrl <$> seeds).
  { intros r (t & -> & Ht)%list_elem_of_fmap.
    destruct (Forall2_Forall_r_elem _ _ _ _ Hs Ht) as (seed & Hseed & id & ->).
    split; [done|]. simpl. apply list_elem_of_fmap. by exists seed. }
  assert (Hnew : forall r, r ∈ new -> r ∈ SaveCrawlTaskToSnapshot <$> ts)
    by (intros r Hr; by eapply elem_of_sublist).
  split; [apply Forall_forall; intros r Hr; by apply Hrows, Hnew|]. split.
  - assert (Ej : job_url <$> new = (fun u => (value jobID, u)) <$> (ts_URL <$> new)).
    { rewrite <- list_fmap_compose. apply list_fmap_ext. intros i r Hr. unfold job_url. simpl.
      destruct (Hrows r) as [[-> _] _]; [|done]. apply Hnew. by eapply list_elem_of_lookup_2. }
    rewrite Ej in Hnd. by eapply NoDup_fmap_1.
  - intros u. split; intros (x & -> & Hx)%list_elem_of_fmap; [by apply Hrows, Hnew|].
    destruct (Forall2_Forall_l_elem _ _ _ _ Hs Hx) as (t & Ht & id & ->).
    destruct (insert_tasks_covers _ _ _ _ (SaveCrawlTaskToSnapshot (seed_task (MkID id) jobID (SeedUrl x) now)) E)
      as (r & Hr & Ej); [apply list_elem_of_fmap; by eexists|].
    injection Ej as Ej Eu. simpl in Hr. apply elem_of_app in Hr as [Hr|Hr]; [by destruct (Hd r Hr)|].
    apply list_elem_of_fmap. by exists r.
Qed.

End Creation.

Section CreateProperties.
Context `{Env, JsonLib}.

Lemma Config_Create_ok c a id b :
  Config_Create c a = (Ret (Ok id), b) ->
  exists s, SaveCrawlJobConfigToSnapshot c = Ok s /\ db b = upd_configs (fun l => l ++ [s]) (db a)
            /\ value id = value (CfgID c) /\ tx b = tx a.
Proof.
  unfold Config_Create. intros E. apply try_ok' in E as (s & a1 & E1 & E). injection E1 as E1 <-.
  apply try_ok' in E as (i & a2 & E2 & E). injection E as E <-.
  apply stmt_ok in E2 as (_ & d & E2 & ->). unfold insert_config in E2.
  repeat (apply res_bind_Ok in E2 as ([] & _ & E2)). injection E2 as <- <-. exists s.
  split; [done|]. split; [done|]. split; [|done]. destruct (NewID_ok _ _ E) as (-> & _). simpl.
  unfold SaveCrawlJobConfigToSnapshot in E1. destruct (negb _); [done|]. by injection E1 as <-.
Qed.

Lemma new_job_columns id cid c user name now s :
  SaveCrawlJobConfigToSnapshot c = Ok s ->
  let r := SaveCrawlJobToSnapshot (new_job id cid c user name now) in
  js_ID r = value id /\ js_Status r = TaskStatusInProgress
  /\ js_ExportStatus r = Some ExportStatusNotStarted /\ js_JobConfigID r = null_id cid.
Proof. intros E. unfold SaveCrawlJobToSnapshot. simpl. by rewrite E. Qed.

Lemma Job_Create_ok j a id b :
  Job_Create j a = (Ret (Ok id), b) ->
  exists r, db b = upd_jobs (fun l => l ++ [r]) (db a) /\ value id = js_ID r /\ tx b = tx a
    /\ js_ID r = js_ID (SaveCrawlJobToSnapshot j) /\ js_Status r = js_Status (SaveCrawlJobToSnapshot j)
    /\ js_ExportStatus r = js_ExportStatus (SaveCrawlJobToSnapshot j)
    /\ js_JobConfigID r = js_JobConfigID (SaveCrawlJobToSnapshot j)
    /\ forall x, x ∈ jobs (db a) -> js_ID x <> js_ID r.
Proof.
  unfold Job_Create. intros E. apply try_ok' in E as (i & a1 & E1 & E). injection E as E <-.
  apply stmt_ok in E1 as (_ & d & E1 & ->). unfold insert_job in E1.
  apply res_bind_Ok in E1 as ([] & Eg & E1). apply res_bind_Ok in E1 as ([] & _ & E1).
  injection E1 as <- <-. eexists. split; [done|].
  unfold NewCrawlJobID in E. apply res_bind_Ok in E as (i' & E & [= <-]).
  destruct (NewID_ok _ _ E) as (-> & _). repeat (split; [done|]).
  unfold guard_ in Eg. destruct (negb (existsb _ _)) eqn:Ex; [|done]. rewrite not_existsb in Ex.
  intros x Hx. specialize (Ex x Hx). by apply bool_decide_eq_false in Ex.
Qed.

(** The configuration of the command is stored under a new identifier, and the job names it; the
    tables of users, tokens and previews stay. *)
Definition configured (id : CrawlJobID) (cfg : CrawlJobConfig) (user : UserID) (d d' : database) : Prop :=
  exists cid c j, SaveCrawlJobConfigToSnapshot (with_ids cid user cfg) = Ok c
    /\ configs d' = configs d ++ [c] /\ cs_ID c = value cid
    /\ jobs d' = jobs d ++ [j] /\ js_ID j = value id /\ js_JobConfigID j = Some (cs_ID c)
    /\ users d' = users d /\ World.tokens d' = World.tokens d /\ previews d' = previews d.

(** The committed effect of [create_job]. *)
Lemma create_job_ok cmd cfg user a id b :
  tasks_have_jobs (db a) -> create_job cmd cfg user a = (Ret (Ok id), b) ->
  job_started id (Seeds cfg) (db a) (db b) /\ configured id cfg user (db a) (db b).
Proof.
  intros Hfk. unfold create_job, uuid_New, time_Now.
  do 2 rewrite (bind_ret _ _ _ _ _ (observe_ret _ _)). intros E.
  apply try_ok in E as (cid & a1 & E1 & E). destruct (Config_Create_ok _ _ _ _ E1) as (s & Es & Hd1 & Hcid & _).
  rewrite (bind_ret _ _ _ _ _ (observe_ret _ _)) in E.
  apply try_ok in E as (jid & a2 & E2 & E).
  destruct (Job_Create_ok _ _ _ _ E2) as (r & Hd2 & Hid & _ & Er & Est & Eex & Ecf & Hfresh).
  destruct (new_job_columns (MkID (uuid_at (ticks (tick a)))) cid _ user None (clock_at (ticks a1)) s Es)
    as (_ & Hst & Hex & Hcf).
  rewrite (bind_ret _ _ _ _ _ (observe_ret _ _)) in E.
  apply try_ok' in E as (ts & a3 & E3 & E). destruct (create_seeds_ok _ _ _ _ _ _ _ _ E3) as (evs & Hd3 & _ & Hs & Ha).
  apply try_ok in E as (ids & a4 & E4 & E). injection E as <- <-.
  change (db (tick a2)) with (db a2) in Hd3. change (db (tick a1)) with (db a1) in Hd2, Hfresh.
  change (db (tick (tick a))) with (db a) in Hd1.
  assert (Hnone : forall t, t ∈ tasks (db a3) -> ts_JobID t <> value jid).
  { intros t Ht Ej. rewrite Hd3, Hd2, Hd1 in Ht. simpl in Ht. destruct (Hfk t Ht) as (j & Hj & Hji).
    apply (Hfresh j); [rewrite Hd1; exact Hj|congruence]. }
  assert (E5 : exists ids', insert_tasks (SaveCrawlTaskToSnapshot <$> ts) (db a3) = Ok (ids', db a4)).
  { unfold Task_BulkCreate in E4. destruct ts as [|t0 ts0].
    - injection E4 as <- <-. exists []. done.
    - apply try_ok' in E4 as (ids' & a5 & E4 & E5). injection E5 as _ <-.
      apply stmt_ok in E4 as (_ & d & E4 & ->). exists ids'. exact E4. }
  destruct E5 as [ids' E5].
  destruct (seeds_inserted _ _ _ _ _ _ _ Hs Hnone E5) as (new & Hd4 & Hsub & Hrows & Hnd & Hu).
  destruct (seeds_announced _ _ _ _ _ Hs Ha) as [Hev Hcov].
  split.
  2:{ exists (MkID (uuid_at (ticks a))), s, r. rewrite Hd4, Hd3, Hd2, Hd1. split; [done|]. split; [done|].
      assert (Hcs : cs_ID s = uuid_at (ticks a))
        by (unfold SaveCrawlJobConfigToSnapshot in Es; destruct (negb _); [done|by injection Es as <-]).
      split; [done|]. split; [done|]. split; [done|]. split; [|done]. rewrite Ecf, Hcf. unfold null_id, IsEmpty.
      rewrite Hcid, Hcs. simpl. rewrite bool_decide_eq_false_2; [done|]. by destruct (uuid_at_ok (ticks a)). }
  exists r, new, evs. rewrite Hd4, Hd3, Hd2, Hd1. simpl.
  split; [done|]. split; [done|]. split; [done|]. split; [done|].
  split; [by rewrite Est|]. split; [by rewrite Eex|]. split; [done|]. split; [done|]. split; [done|].
  split; [done|]. apply Forall_forall. intros x Hx. by apply Hcov, (elem_of_sublist _ _ _ Hx Hsub).
Qed.

(** C5: creating a job is all or nothing.  Whatever the database does, [CreateCrawlJob] never panics,
    and it leaves the database as it was, with an error, or all of this is there: the configuration of
    the command (its patterns normalized) under a new identifier, a job in progress that names it,
    exactly one task at depth 0 per distinct seed URL, and exactly one unprocessed outbox event per
    seed, in the order of the seeds, such that each task is named by one (a seed that is listed twice
    gives one task and two events).  An identifier it returns is that of the job; an error together
    with the rows is the lost answer to a commit.  No other table changes.  The tasks there before must
    have their jobs. *)
Theorem CreateCrawlJob_atomic cmd a :
  tx a = None -> tasks_have_jobs (db a) ->
  exists r b, CreateCrawlJob cmd a = (Ret r, b) /\ tx b = None
    /\ ((is_ok r = false /\ db b = db a)
        \/ exists id user, (forall e, r = Err e -> commit_lost b e)
             /\ job_started id (Seeds (CmdConfig cmd)) (db a) (db b)
             /\ NewUserID (CmdUserID cmd) = Ok user
             /\ configured id (with_patterns (normalize_patterns (AllowedURLPatterns (Scopes (CmdConfig cmd))))
                                 (CmdConfig cmd)) user (db a) (db b)
             /\ (is_ok r = true -> r = Ok id)).
Proof.
  intros Ht Hfk. unfold CreateCrawlJob.
  destruct (Seeds (CmdConfig cmd)) as [|s0 ss] eqn:Eseeds; [eexists _, a; split; [done|]; split; [done|by left]|].
  set (pats := normalize_patterns _). unfold try_bind, lift_res.
  destruct (CompileAllowedURLPatterns pats) as [re|e];
    unfold mbind, M_bind, mret, M_ret; [|eexists _, a; split; [done|]; split; [done|by left]].
  destruct (NewUserID (CmdUserID cmd)) as [user|e] eqn:Eu; [|eexists _, a; split; [done|]; split; [done|by left]].
  set (cfg := with_patterns pats (CmdConfig cmd)).
  assert (Hok : forall b id w1, create_job cmd cfg user (set_tx (Some false) (tick a)) = (Ret (Ok id), w1) ->
            db b = db w1 -> job_started id (s0 :: ss) (db a) (db b) /\ configured id cfg user (db a) (db b)).
  { intros b id w1 Ef Hd. destruct (create_job_ok cmd cfg user (set_tx (Some false) (tick a)) id w1) as [Hs Hcf];
      [done..|]. rewrite Hd. simpl in Hs. rewrite Eseeds in Hs. by split. }
  destruct (ReadCommitted_cases (create_job cmd cfg user) a Ht) as (r & b & E & Htb & _).
  exists r, b. split; [exact E|]. split; [done|]. destruct r as [id|e].
  - destruct (ReadCommitted_ok _ _ _ _ Ht E) as (w1 & Ef & _ & Hd & _). right. exists id, user.
    split; [done|]. destruct (Hok b id w1 Ef Hd). by repeat split.
  - destruct (ReadCommitted_err _ _ _ _ Ht E) as [Hd|(Hl & id & w1 & Ef & Hd & _)]; [by left|].
    right. exists id, user. split; [by intros ? [= <-]|]. destruct (Hok b id w1 Ef Hd). by repeat split.
Qed.

End CreateProperties.

(** ** A concrete run *)

#[local] Existing Instances any_uuid plain_env plain_json.

Definition demo_command : CreateCrawlJobCommand :=
  {| CmdUserID := "u1";
     CmdConfig := {| CfgID := MkID ""; CfgUserID := MkID ""; CfgName := "new";
       CfgExtractionSpec := CfgExtractionSpec demo_config; Scopes := Scopes demo_config;
       Seeds := [{| SeedUrl := "http://a.b/1" |}; {| SeedUrl := "http://a.b/2" |}; {| SeedUrl := "http://a.b/1" |}];
       RateLimit := RateLimit demo_config; Retries := Retries demo_config; Auth := Auth demo_config;
       Schedule := Schedule demo_config; CfgJobType := JobTypeOnce; RespectRobotsTxt := false;
       CfgCrawlMode := ""; QueueWeights := [] |};
     AvailableQueues := ["q1"] |}.

(** The seed that is listed twice gets one task and two events. *)
Example CreateCrawlJob_demo :
  let b := (CreateCrawlJob demo_command (world_of demo_db)).2 in
  (ts_URL <$> tasks (db b), length (outbox (db b)))
  = (["http://a.b/"; "http://a.b/1"; "http://a.b/2"], 3%nat).
Proof. vm_compute. reflexivity. Qed.

Lemma CreateCrawlJob_atomic_witness :
  exists r b, CreateCrawlJob demo_command (world_of demo_db) = (Ret r, b)
    /\ exists id user cfg, job_started id (Seeds (CmdConfig demo_command)) demo_db (db b)
         /\ configured id cfg user demo_db (db b).
Proof.
  assert (Hfk : tasks_have_jobs demo_db).
  { intros t Ht. apply list_elem_of_singleton in Ht as ->. exists (SaveCrawlJobToSnapshot demo_job).
    split; [left|reflexivity]. }
  destruct (CreateCrawlJob_atomic demo_command (world_of demo_db) eq_refl Hfk) as (r & b & E & _ & Hc).
  exists r, b. split; [exact E|].
  assert (Ho : length (outbox (db (CreateCrawlJob demo_command (world_of demo_db)).2)) = 3%nat)
    by (vm_compute; reflexivity).
  rewrite E in Ho. simpl in Ho. destruct Hc as [[_ Hd]|(id & user & _ & Hs & _ & Hcf & _)].
  - rewrite Hd in Ho. discriminate Ho.
  - eexists id, user, _. split; [exact Hs|exact Hcf].
Defined.
