(* ===== verification/Scheduler.v ===== *)
(** * The schedule worker

    [worker/scheduler_worker.go]: the scheduled configurations are walked page by page; a
    configuration that is due and whose last job is complete gets a new job.  Cron expressions
    (robfig/cron) are the class [CronLib]. *)

From S2P Require Import Prelude GoStrings Domain Json Converters Restored World Sql Repos Routing.
From S2P Require Import GoUrl Scope FetchWorker GoTime Extraction ParserWorker JobService.

(** [cron.ParseStandard] and [Schedule.Next]: the next activation is later than the given time;
    the zero time stands for none. *)
Class CronLib := {
  cron_schedule : Type;
  cron_ParseStandard : string -> res cron_schedule;
  cron_Next : cron_schedule -> Z -> Z;
  cron_Next_later s t : cron_Next s t = 0 \/ t < cron_Next s t }.

Definition DefaultSchedulePollInterval : Z := 10 * Second.
Definition DefaultScheduleBatchSize : Z := 100.

Record ScheduleWorker := { sw_batchSize : Z; sw_availableQueues : list string }.

Definition NewScheduleWorker (availableQueues : list string) : ScheduleWorker :=
  {| sw_batchSize := DefaultScheduleBatchSize; sw_availableQueues := availableQueues |}.

Definition with_schedule (lastRunAt nextRunAt : option Z) (c : CrawlJobConfig) : CrawlJobConfig :=
  {| CfgID := CfgID c; CfgUserID := CfgUserID c; CfgName := CfgName c;
     CfgExtractionSpec := CfgExtractionSpec c; Scopes := Scopes c; Seeds := Seeds c;
     RateLimit := RateLimit c; Retries := Retries c; Auth := Auth c;
     Schedule := {| Cron := Cron (Schedule c); LastRunAt := lastRunAt; NextRunAt := nextRunAt |};
     CfgJobType := CfgJobType c; RespectRobotsTxt := RespectRobotsTxt c;
     CfgCrawlMode := CfgCrawlMode c; QueueWeights := QueueWeights c |}.

Section Scheduler.
Context `{Env, JsonLib, CronLib}.

(** The loop over the seeds: tasks and events are collected. *)
Fixpoint collect_seeds (jobID : CrawlJobID) (queues : list string) (weights : list QueueWeight)
    (now : Z) (seeds : list Seed) : M (res (list (CrawlTask * OutboxEvent string))) :=
  match seeds with
  | [] => ret_ok []
  | seed :: seeds =>
      te ← new_seed jobID queues weights now seed;
      try payload <- lift_res (marshal_event te.2)
        else e => ret_err (Errorf "failed to marshal task enqueue event" e);
      oid ← uuid_New;
      try rest <- collect_seeds jobID queues weights now seeds;
      ret_ok ((te.1, outbox_event oid te.2 payload now) :: rest)
  end.

(** The body of the transaction. *)
Definition scheduled_body (w : ScheduleWorker) (config : CrawlJobConfig) (schedule : cron_schedule)
    (now : Z) : M (res unit) :=
  let config := with_schedule (Some now) (Some (cron_Next schedule now)) config in
  try _ <- Config_Update config
    else e => ret_err (Errorf "failed to update schedule config" e);
  jobID ← uuid_New;
  let jobName := CfgName config +:+ "_" +:+ format_rfc3339 now in
  try _ <- Job_Create (new_job (MkID jobID) (CfgID config) config (CfgUserID config) (Some jobName) now)
    else e => ret_err (Errorf "failed to create scheduled crawl job" e);
  try tes <- collect_seeds (MkID jobID) (sw_availableQueues w) (QueueWeights config) now (Seeds config);
  try _ <- Task_BulkCreate tes.*1
    else e => ret_err (Errorf "failed to create scheduled crawl tasks" e);
  try _ <- Outbox_BulkCreate tes.*2
    else e => ret_err (Errorf "failed to create scheduled outbox events" e);
  ret_ok tt.

Definition createScheduledJob (w : ScheduleWorker) (config : CrawlJobConfig)
    (schedule : cron_schedule) (now : Z) : M (res unit) :=
  ReadCommitted (scheduled_body w config schedule now).

(** The first activation of a configuration that has none. *)
Definition first_activation (config : CrawlJobConfig) (schedule : cron_schedule) (now : Z)
  : M (res unit) :=
  try lastJob <- Job_GetLatestByConfigID (CfgID config)
    else e => ret_err (Errorf ("failed to load last job for config " +:+ value (CfgID config)) e);
  let lastRunAt := match lastJob with
                   | Some j => match CompletedAt j with
                               | Some _ => Some (CreatedAt j)
                               | None => LastRunAt (Schedule config)
                               end
                   | None => LastRunAt (Schedule config)
                   end in
  let baseTime := match lastRunAt with Some t => t | None => now end in
  Config_Update (with_schedule lastRunAt (Some (cron_Next schedule baseTime)) config).

Definition processConfig (w : ScheduleWorker) (config : CrawlJobConfig) : M (res unit) :=
  let cronExpr := TrimSpace (Cron (Schedule config)) in
  if bool_decide (cronExpr = "") then ret_ok tt
  else
    try schedule <- lift_res (cron_ParseStandard cronExpr)
      else e => ret_err (Errorf ("invalid cron expression " +:+ cronExpr) e);
    now ← time_Now;
    match NextRunAt (Schedule config) with
    | None => first_activation config schedule now
    | Some nextRunAt =>
        if After nextRunAt now then ret_ok tt
        else
          try lastJob <- Job_GetLatestByConfigID (CfgID config)
            else e => ret_err (Errorf ("failed to load last job for config " +:+ value (CfgID config)) e);
          match lastJob with
          | Some j => match CompletedAt j with
                      | None => ret_ok tt
                      | Some _ => createScheduledJob w config schedule now
                      end
          | None => createScheduledJob w config schedule now
          end
    end.

(** The loop over the pages: [true] when it returns, [false] when the fuel is used up. *)
Fixpoint schedule_pages (fuel : nat) (w : ScheduleWorker) (offset : Z) : M bool :=
  match fuel with
  | O => mret false
  | S fuel =>
      r ← Config_ListAllScheduled (sw_batchSize w) offset;
      match r with
      | Err _ | Ok [] => mret true
      | Ok configs =>
          _ ← for_all (fun config => processConfig w config ≫= fun _ => mret tt) configs;
          if Z.of_nat (length configs) <? sw_batchSize w then mret true
          else schedule_pages fuel w (offset + Z.of_nat (length configs))
      end
  end.

(** One iteration per stored configuration and one more are enough. *)
Definition processSchedules (w : ScheduleWorker) : M bool :=
  fun a => schedule_pages (S (length (configs (db a)))) w 0 a.

(** The events of the loop; [ScheduleStop] is [StopAccepting]. *)
Inductive schedule_event := ScheduleTick | ScheduleDone | ScheduleStop.

Fixpoint schedule_loop (w : ScheduleWorker) (accepting : bool) (events : list schedule_event)
  : M unit :=
  match events with
  | [] | ScheduleDone :: _ => mret tt
  | ScheduleStop :: events => schedule_loop w false events
  | ScheduleTick :: events =>
      if negb accepting then mret tt
      else processSchedules w ≫= fun _ => schedule_loop w accepting events
  end.

Definition Schedule_Start (w : ScheduleWorker) (accepting : bool) (events : list schedule_event)
  : M unit :=
  processSchedules w ≫= fun _ => schedule_loop w accepting events.

End Scheduler.

(** ** Lemmas *)

Section Lemmas.
Context `{Env, JsonLib, CronLib}.

Lemma collect_seeds_out jobID queues ws now seeds a o b :
  collect_seeds jobID queues ws now seeds a = (o, b) ->
  same_store a b /\ forall tes, o = Ret (Ok tes) ->
    Forall2 (fun seed t => exists id, t = seed_task (MkID id) jobID (SeedUrl seed) now) seeds tes.*1
    /\ Forall2 (fun t e => announces_task e (SaveCrawlTaskToSnapshot t)) tes.*1
         (SaveOutboxEventToSnapshot <$> tes.*2).
Proof.
  revert a o b. induction seeds as [|seed seeds IH]; intros a o b E.
  - injection E as <- <-. split; [done|]. intros tes [= <-]. split; constructor.
  - simpl in E. unfold mbind at 1, M_bind in E.
    destruct (new_seed jobID queues ws now seed a) as [[te|s] a1] eqn:E1;
      destruct (new_seed_out _ _ _ _ _ _ _ _ E1) as [Hs1 Hte]; [|injection E as <- <-; by split].
    destruct (Hte te eq_refl) as (id & evid & occ & queue & ->). simpl in E.
    unfold try_bind at 1, lift_res in E.
    destruct (marshal_event _) as [payload|e] eqn:Em;
      unfold mbind at 1, M_bind, mret at 1, M_ret in E; [|injection E as <- <-; by split].
    unfold uuid_New in E. rewrite (bind_ret _ _ _ _ _ (observe_ret _ _)) in E.
    destruct (collect_seeds jobID queues ws now seeds (tick a1)) as [o2 a2] eqn:E2.
    destruct (IH _ _ _ E2) as [Hs2 Hr]. unfold try_bind, mbind, M_bind in E. rewrite E2 in E.
    assert (Hs : same_store a a2) by (etrans; [exact Hs1|exact Hs2]).
    destruct o2 as [[rest|e]|s]; injection E as <- <-; (split; [done|]); [|done..].
    intros tes [= <-]. destruct (Hr rest eq_refl) as [Hf Ha]. simpl.
    split; [constructor; [by eexists|done]|]. constructor; [|done].
    unfold marshal_event in Em. destruct (_ && _); [|done]. injection Em as <-.
    split; [done|]. split; [done|]. split; [done|]. eexists. split; [done|]. done.
Qed.

Lemma insert_events_ok es d d' : insert_events es d = Ok d' -> d' = upd_outbox (fun l => l ++ es) d.
Proof.
  revert d. induction es as [|e es IH]; intros d E; simpl in E.
  - injection E as <-. unfold upd_outbox. rewrite app_nil_r. by destruct d.
  - apply res_bind_Ok in E as (d1 & E1 & E). unfold insert_event in E1.
    apply res_bind_Ok in E1 as ([] & _ & [= <-]). rewrite (IH _ E). unfold upd_outbox. simpl.
    by rewrite <- app_assoc.
Qed.

Lemma Outbox_BulkCreate_ok es a b :
  Outbox_BulkCreate es a = (Ret (Ok tt), b) ->
  db b = upd_outbox (fun l => l ++ (SaveOutboxEventToSnapshot <$> es)) (db a).
Proof.
  unfold Outbox_BulkCreate. destruct es as [|e es].
  - intros [= <-]. simpl. unfold upd_outbox. rewrite app_nil_r. by destruct (db a).
  - intros (_ & d & E & ->)%stmt_ok. apply res_bind_Ok in E as (d' & E & [= <-]).
    by apply insert_events_ok in E as ->.
Qed.

(** The row of a configuration after an update. *)
Definition config_updated (c : CrawlJobConfig) (d d' : database) : Prop :=
  exists s, SaveCrawlJobConfigToSnapshot c = Ok s
    /\ d' = upd_configs (update_where (fun r => bool_decide (cs_ID r = cs_ID s)) (set_config s)) d.

Lemma Config_Update_ok c a b :
  Config_Update c a = (Ret (Ok tt), b) -> config_updated c (db a) (db b).
Proof.
  unfold Config_Update. intros E. apply try_ok' in E as (s & a1 & E1 & E). injection E1 as E1 <-.
  apply stmt_ok in E as (_ & d & E & ->). repeat (apply res_bind_Ok in E as ([] & _ & E)).
  injection E as <-. by exists s.
Qed.

End Lemmas.

(** ** One configuration *)

Section Configuration.
Context `{Env, JsonLib, CronLib}.

Lemma scheduled_body_ok w c s now a b :
  tasks_have_jobs (db a) -> scheduled_body w c s now a = (Ret (Ok tt), b) ->
  exists d1 id, config_updated (with_schedule (Some now) (Some (cron_Next s now)) c) (db a) d1
    /\ job_started id (Seeds c) d1 (db b).
Proof.
  intros Hfk. unfold scheduled_body. intros E. apply try_ok in E as ([] & a1 & E1 & E).
  apply Config_Update_ok in E1 as (cs & Es & Hd1).
  unfold uuid_New in E. rewrite (bind_ret _ _ _ _ _ (observe_ret _ _)) in E.
  set (id := MkID (uuid_at (ticks a1))) in *.
  apply try_ok in E as (jid & a2 & E2 & E).
  destruct (Job_Create_ok _ _ _ _ E2) as (r & Hd2 & Hid & _ & Er & Est & Eex & _ & Hfresh).
  match type of Er with js_ID r = js_ID (SaveCrawlJobToSnapshot (new_job ?i ?ci ?k ?u ?n ?t)) =>
    destruct (new_job_columns i ci k u n t cs Es) as (Hni & Hst & Hex & _) end.
  apply try_ok' in E as (tes & a3 & E3 & E).
  destruct (collect_seeds_out _ _ _ _ _ _ _ _ E3) as [(Hd3 & _) Hr].
  destruct (Hr tes eq_refl) as [Hs Ha].
  apply try_ok in E as (ids & a4 & E4 & E). apply try_ok in E as ([] & a5 & E5 & E).
  injection E as <-. apply Outbox_BulkCreate_ok in E5.
  change (db (tick a1)) with (db a1) in Hd2, Hfresh.
  assert (Eid : js_ID r = value id) by (rewrite Er; exact Hni).
  assert (Hnone : forall t, t ∈ tasks (db a3) -> ts_JobID t <> value id).
  { intros t Ht Ej. rewrite Hd3, Hd2, Hd1 in Ht. simpl in Ht. destruct (Hfk t Ht) as (j & Hj & Hji).
    apply (Hfresh j); [by rewrite Hd1|congruence]. }
  assert (E6 : exists ids', insert_tasks (SaveCrawlTaskToSnapshot <$> tes.*1) (db a3) = Ok (ids', db a4)).
  { unfold Task_BulkCreate in E4. destruct tes.*1 as [|t0 ts0].
    - injection E4 as <- <-. by exists [].
    - apply try_ok' in E4 as (ids' & a6 & E4 & E6). injection E6 as _ <-.
      apply stmt_ok in E4 as (_ & d & E4 & ->). by exists ids'. }
  destruct E6 as [ids' E6].
  destruct (seeds_inserted _ _ _ _ _ _ _ Hs Hnone E6) as (new & Hd4 & Hsub & Hrows & Hnd & Hu).
  exists (db a1), id. split; [by exists cs|].
  exists r, new, (SaveOutboxEventToSnapshot <$> tes.*2). rewrite E5, Hd4, Hd3, Hd2. simpl.
  split; [done|]. split; [done|]. split; [done|]. split; [done|].
  split; [by rewrite Est|]. split; [by rewrite Eex|]. split; [done|]. split; [done|]. split; [done|].
  destruct (seeds_announced _ _ _ _ _ Hs Ha) as [Hev Hcov]. split; [done|].
  apply Forall_forall. intros x Hx. by apply Hcov, (elem_of_sublist _ _ _ Hx Hsub).
Qed.

(** The newest job of a configuration. *)
Definition latest_row (id : ID) (d : database) : option CrawlJobSnapshot :=
  head (limit_rows 1 (order_by newest_first
    (bfilter (fun j => bool_decide (js_JobConfigID j = Some (value id))) (jobs d)))).

Lemma latest_out id a :
  tx a = None ->
  exists r b, Job_GetLatestByConfigID id a = (Ret r, b) /\ same_store a b
    /\ forall j, r = Ok (Some j) -> exists row, latest_row id (db a) = Some row
                                     /\ CompletedAt j = js_CompletedAt row.
Proof.
  intros Ht. unfold Job_GetLatestByConfigID.
  match goal with |- context [query_job ?f] =>
    destruct (scan_one_out (fun n d => join_config d <$> f n d)
      (fun row => s ← scanCrawlJobWithConfig row; RestoreCrawlJobFromSnapshot s) a Ht)
      as (r & b & E & Hs & Hr);
    rewrite (try_run (query_job f) _ _ _ _ _ E) end.
  destruct r as [j|e].
  - eexists _, b. split; [done|]. split; [done|]. intros k [= <-].
    destruct (Hr j eq_refl) as (row & Hh & Ej).
    unfold latest_row. destruct (limit_rows 1 _) as [|x xs]; [done|]. simpl in Hh. injection Hh as <-.
    exists x. split; [done|]. apply res_bind_Ok in Ej as (s & Es & Ej).
    unfold scanCrawlJobWithConfig, join_config in Es. simpl in Es.
    destruct (job_config_row (db a) x); [|done]. injection Es as <-.
    unfold RestoreCrawlJobFromSnapshot in Ej. repeat (apply res_bind_Ok in Ej as (? & _ & Ej)).
    by injection Ej as <-.
  - destruct (errors_Is e "sql.ErrNoRows"); eexists _, b; (split; [done|]); split; done.
Qed.

(** The repository said that the configuration has no job, or its newest job is complete. *)
Definition no_open_job (id : ID) (a : world) : Prop :=
  (exists a1 a2, same_store a a1 /\ Job_GetLatestByConfigID id a1 = (Ret (Ok None), a2))
  \/ exists row, latest_row id (db a) = Some row /\ js_CompletedAt row <> None.

(** What [processConfig] may have done. *)
Inductive config_effect (w : ScheduleWorker) (c : CrawlJobConfig) (a b : world) : Prop :=
| ce_none : db b = db a -> config_effect w c a b
| ce_first s last base :           (* the first activation is set *)
    NextRunAt (Schedule c) = None ->
    cron_ParseStandard (TrimSpace (Cron (Schedule c))) = Ok s ->
    config_updated (with_schedule last (Some (cron_Next s base)) c) (db a) (db b) ->
    config_effect w c a b
| ce_job s next now w0 w1 :        (* due, no job is open: a job is created *)
    cron_ParseStandard (TrimSpace (Cron (Schedule c))) = Ok s ->
    NextRunAt (Schedule c) = Some next -> next <= now ->
    no_open_job (CfgID c) a ->
    db w0 = db a -> scheduled_body w c s now w0 = (Ret (Ok tt), w1) -> db b = db w1 ->
    config_effect w c a b.

Lemma Config_Update_out c a :
  tx a = None ->
  exists r b, Config_Update c a = (Ret r, b) /\ tx b = None
    /\ (db b = db a \/ config_updated c (db a) (db b)).
Proof.
  intros Ht. unfold Config_Update, try_bind, lift_res, mbind, M_bind, mret, M_ret.
  destruct (SaveCrawlJobConfigToSnapshot c) as [s|e] eqn:Es; [|eexists _, a; split; [done|]; auto].
  match goal with |- context [stmt ?f] => destruct (stmt_out f a Ht) as (r & b & E & Htb & _ & _ & Hd & _) end.
  exists r, b. split; [exact E|]. split; [done|].
  destruct Hd as [?|(x & d & Ed & Hd)]; [by left|right].
  repeat (apply res_bind_Ok in Ed as ([] & _ & Ed)). injection Ed as _ <-. by exists s.
Qed.

Lemma processConfig_effect w c a :
  tx a = None ->
  exists r b, processConfig w c a = (Ret r, b) /\ tx b = None /\ config_effect w c a b.
Proof.
  intros Ht. unfold processConfig. case_bool_decide as Hb; [eexists _, a; split; [done|]; split; [done|by apply ce_none]|].
  unfold try_bind at 1, lift_res, mbind at 1, M_bind, mret at 1, M_ret.
  destruct (cron_ParseStandard _) as [s|e] eqn:Ec; [|eexists _, a; split; [done|]; split; [done|by apply ce_none]].
  unfold time_Now. rewrite (bind_ret _ _ _ _ _ (observe_ret _ _)). set (now := clock_at (ticks a)).
  destruct (NextRunAt (Schedule c)) as [next|] eqn:En.
  - unfold After. case_bool_decide; [eexists _, (tick a); split; [done|]; split; [done|by apply ce_none]|].
    destruct (latest_out (CfgID c) (tick a) Ht) as (r & b & E & (Hd & Htb & _ & _) & Hr).
    change (tx (tick a)) with (tx a) in Htb.
    rewrite (try_run _ _ _ _ _ _ E). destruct r as [last|e].
    2:{ eexists _, b. split; [done|]. split; [congruence|by apply ce_none]. }
    assert (Hjob : no_open_job (CfgID c) a -> exists r b', createScheduledJob w c s now b = (Ret r, b')
              /\ tx b' = None /\ config_effect w c a b').
    { intros Hno. unfold createScheduledJob.
      assert (Htb' : tx b = None) by congruence.
      destruct (ReadCommitted_cases (scheduled_body w c s now) b Htb') as (r & b' & E' & Htb2 & Hc).
      exists r, b'. split; [done|]. split; [done|].
      destruct Hc as [[_ ->]|(o & w1 & Ef & _ & _ & [[_ Hd']|([] & -> & _ & _ & Hd')])];
        [apply ce_none; exact Hd|apply ce_none; by rewrite Hd'|].
      eapply ce_job; [exact Ec|exact En| |exact Hno| |exact Ef|exact Hd']; [lia|exact Hd]. }
    destruct last as [j|].
    + destruct (Hr j eq_refl) as (row & Hrow & Hcj). destruct (CompletedAt j) eqn:Ej.
      * apply Hjob. right. exists row. split; [exact Hrow|]. by rewrite <- Hcj.
      * eexists _, b. split; [done|]. split; [congruence|]. by apply ce_none.
    + apply Hjob. left. exists (tick a), b. split; [done|exact E].
  - unfold first_activation. destruct (latest_out (CfgID c) (tick a) Ht) as (r & b & E & (Hd & Htb & _ & _) & _).
    change (tx (tick a)) with (tx a) in Htb.
    rewrite (try_run _ _ _ _ _ _ E). destruct r as [last|e].
    2:{ eexists _, b. split; [done|]. split; [congruence|by apply ce_none]. }
    match goal with |- context [Config_Update (with_schedule ?l (Some (cron_Next s ?t)) c) b] =>
      destruct (Config_Update_out (with_schedule l (Some (cron_Next s t)) c) b ltac:(congruence))
        as (r & b' & E' & Htb' & Hu) end.
    exists r, b'. split; [done|]. split; [done|].
    change (db (tick a)) with (db a) in Hd. rewrite Hd in Hu.
    destruct Hu as [?|Hu]; [by apply ce_none|]. eapply ce_first; [exact En|exact Ec|exact Hu].
Qed.

End Configuration.

(** C12: scheduling.  Whatever the database does, handling a configuration never panics and leaves
    the database as it was, or sets the first activation of a configuration that has none, or the
    configuration was due, its newest job was complete, and then in one commit its next activation
    is set to the one the cron expression gives after now and a job with a task per distinct seed
    and their events is started.  A cron expression that is blank or invalid never starts a job. *)
Theorem processConfig_outcome `{Env, JsonLib, CronLib} w c a :
  tx a = None -> tasks_have_jobs (db a) ->
  exists r b, processConfig w c a = (Ret r, b) /\ tx b = None
    /\ (db b = db a
        \/ exists s, cron_ParseStandard (TrimSpace (Cron (Schedule c))) = Ok s
           /\ ((NextRunAt (Schedule c) = None /\ exists last base,
                  config_updated (with_schedule last (Some (cron_Next s base)) c) (db a) (db b))
               \/ exists next now d1 id,
                    NextRunAt (Schedule c) = Some next /\ next <= now /\ no_open_job (CfgID c) a
                    /\ config_updated (with_schedule (Some now) (Some (cron_Next s now)) c) (db a) d1
                    /\ job_started id (Seeds c) d1 (db b))).
Proof.
  intros Ht Hfk. destruct (processConfig_effect w c a Ht) as (r & b & E & Htb & He).
  exists r, b. split; [done|]. split; [done|].
  destruct He as [?|s last base Hn Hs Hu|s next now w0 w1 Hs Hn Hdue Hno Hd0 Eb Hd1]; [by left|right..].
  - exists s. split; [done|]. left. eauto.
  - exists s. split; [done|]. right. rewrite <- Hd0 in Hfk.
    destruct (scheduled_body_ok _ _ _ _ _ _ Hfk Eb) as (d1 & id & Hu & Hj).
    exists next, now, d1, id. rewrite Hd0 in Hu. rewrite <- Hd1 in Hj. auto 10.
Qed.

(** ** Termination *)

Section Termination.
Context `{Env, JsonLib, CronLib}.

(** The count of configurations stays the same. *)
Definition same_count (d d' : database) : Prop := length (configs d') = length (configs d).
#[export] Instance same_count_preorder : PreOrder same_count.
Proof. split; [by intros d|]. intros a b c; unfold same_count; congruence. Qed.

Definition counted (a b : world) : Prop := same_count (db a) (db b).
#[export] Instance counted_preorder : PreOrder counted.
Proof. split; [by intros a|]. intros a b c. unfold counted. intros; by etrans. Qed.

Lemma updated_count c d d' : config_updated c d d' -> same_count d d'.
Proof. intros (s & _ & ->). unfold same_count. simpl. unfold update_where. by rewrite length_fmap. Qed.

Lemma counted_observe {A} (f : nat -> A) : keeps counted (observe f).
Proof. by intros w. Qed.

Lemma counted_Config_Update c : keeps counted (Config_Update c).
Proof.
  unfold Config_Update. apply keeps_try; [exact _|apply keeps_ret; exact _|intros ?; apply keeps_ret; exact _|].
  intros s. apply (keeps_db_stmt same_count). intros n d x d' E.
  repeat (apply res_bind_Ok in E as ([] & _ & E)). injection E as <- <-.
  unfold same_count. simpl. unfold update_where. by rewrite length_fmap.
Qed.

Lemma counted_Job_Create j : keeps counted (Job_Create j).
Proof.
  unfold Job_Create. apply keeps_try; [exact _| |intros ?; apply keeps_ret; exact _|intros ?; apply keeps_ret; exact _].
  apply (keeps_db_stmt same_count). intros n d x d' E. unfold insert_job in E.
  repeat (apply res_bind_Ok in E as ([] & _ & E)). by injection E as <- <-.
Qed.

Lemma counted_Task_BulkCreate ts : keeps counted (Task_BulkCreate ts).
Proof.
  unfold Task_BulkCreate. destruct ts; [apply keeps_ret; exact _|].
  apply keeps_try; [exact _| |intros ?; apply keeps_ret; exact _|intros ?; apply keeps_ret; exact _].
  apply (keeps_db_stmt same_count). intros n d ids d' E.
  by destruct (insert_tasks_out _ _ _ _ E) as (new & -> & _).
Qed.

Lemma counted_Outbox_BulkCreate es : keeps counted (Outbox_BulkCreate es).
Proof.
  unfold Outbox_BulkCreate. destruct es; [apply keeps_ret; exact _|].
  apply (keeps_db_stmt same_count). intros n d x d' E.
  apply res_bind_Ok in E as (d1 & E & [= <- <-]). by apply insert_events_ok in E as ->.
Qed.

Lemma counted_collect jobID queues ws now seeds : keeps counted (collect_seeds jobID queues ws now seeds).
Proof.
  intros a. destruct (collect_seeds jobID queues ws now seeds a) as [o b] eqn:E.
  destruct (collect_seeds_out _ _ _ _ _ _ _ _ E) as [(Hd & _) _]. unfold counted. simpl. by rewrite Hd.
Qed.

Lemma counted_scheduled_body w c s now : keeps counted (scheduled_body w c s now).
Proof.
  unfold scheduled_body, ret_ok, ret_err, uuid_New.
  keeps_steps first [apply counted_Config_Update | apply counted_observe | apply counted_Job_Create
                    | apply counted_collect | apply counted_Task_BulkCreate | apply counted_Outbox_BulkCreate].
Qed.

Lemma effect_count w c a b : config_effect w c a b -> same_count (db a) (db b).
Proof.
  intros [->|s last base _ _ Hu|s next now w0 w1 _ _ _ _ Hd0 Eb ->]; [done|by eapply updated_count|].
  pose proof (counted_scheduled_body w c s now w0) as Hk. rewrite Eb in Hk. by rewrite <- Hd0.
Qed.

Lemma configs_processed w cs a :
  tx a = None ->
  exists b, for_all (fun config => processConfig w config ≫= fun _ => mret tt) cs a = (Ret tt, b)
            /\ tx b = None /\ same_count (db a) (db b).
Proof.
  revert a. induction cs as [|c cs IH]; intros a Ht; simpl; [by exists a|].
  destruct (processConfig_effect w c a Ht) as (r & b & E & Htb & He).
  destruct (IH b Htb) as (b' & E' & Htb' & Hc).
  exists b'. unfold mbind at 1, M_bind. rewrite (bind_ret _ _ _ _ _ E). split; [exact E'|].
  split; [done|]. etrans; [by eapply effect_count|exact Hc].
Qed.

(** A page lies within the stored configurations. *)
Lemma page_bound limit offset a :
  tx a = None -> 0 <= offset ->
  exists r b, Config_ListAllScheduled limit offset a = (Ret r, b) /\ tx b = None /\ db b = db a
    /\ forall cs, r = Ok cs -> cs <> [] -> offset + Z.of_nat (length cs) <= Z.of_nat (length (configs (db a))).
Proof.
  intros Ht Hoff. unfold Config_ListAllScheduled, scan_all.
  match goal with |- context [query ?f] => destruct (query_out f a Ht) as (r & b & E & Htb & _ & _ & Hd & Hr) end.
  rewrite (try_run _ _ _ _ _ _ E). destruct r as [rows|e]; (eexists _, b; split; [done|]; split; [done|]; split; [done|]); [|done].
  intros cs Ecs Hne. specialize (Hr rows eq_refl). subst rows.
  apply map_res_length in Ecs. rewrite Ecs.
  assert (Hpos : (0 < length cs)%nat) by (destruct cs; simpl; [done|lia]). rewrite Ecs in Hpos.
  assert (Hlim : forall l : list CrawlJobConfigSnapshot, (length (limit_rows limit l) <= length l)%nat).
  { intros l. unfold limit_rows. destruct (limit <? 0); [done|]. rewrite length_take. lia. }
  assert (Hf : (length (bfilter (fun c => bool_decide (cs_JobType c = JobTypeScheduled)) (configs (db a)))
                <= length (configs (db a)))%nat) by apply length_filter.
  match goal with |- context [limit_rows limit (offset_rows offset ?l)] => set (l0 := l) in * end.
  assert (El : length l0 = length (bfilter (fun c => bool_decide (cs_JobType c = JobTypeScheduled)) (configs (db a))))
    by (unfold l0; by rewrite order_by_perm).
  pose proof (Hlim (offset_rows offset l0)) as Hl. unfold offset_rows in *.
  destruct (Z.ltb_spec offset 0); [lia|]. rewrite length_drop in Hl. lia.
Qed.

Lemma schedule_pages_returns fuel w offset a :
  1 <= sw_batchSize w -> tx a = None ->
  0 <= offset <= Z.of_nat (length (configs (db a))) ->
  Z.of_nat (length (configs (db a))) < offset + Z.of_nat fuel ->
  exists b, schedule_pages fuel w offset a = (Ret true, b) /\ tx b = None.
Proof.
  intros Hb. revert offset a. induction fuel as [|fuel IH]; intros offset a Ht Ho Hf; simpl; [lia|].
  destruct (page_bound (sw_batchSize w) offset a Ht ltac:(lia)) as (r & b & E & Htb & Hd & Hr).
  rewrite (bind_ret _ _ _ _ _ E). destruct r as [[|c cs]|e]; [by exists b| |by exists b].
  specialize (Hr (c :: cs) eq_refl ltac:(done)).
  destruct (configs_processed w (c :: cs) b Htb) as (b' & E' & Htb' & Hc).
  rewrite (bind_ret _ _ _ _ _ E'). destruct (_ <? _) eqn:El; [by exists b'|].
  unfold same_count in Hc. apply IH; [done|rewrite Hc, Hd; simpl length in *; lia|].
  rewrite Hc, Hd. simpl length in *. lia.
Qed.

End Termination.

(** A walk over the schedules ends.  Whatever the database does and whatever becomes of each
    configuration, the loop over the pages returns: it takes at most one page more than there are
    configurations. *)
Theorem processSchedules_returns `{Env, JsonLib, CronLib} w a :
  1 <= sw_batchSize w -> tx a = None ->
  exists b, processSchedules w a = (Ret true, b) /\ tx b = None.
Proof. intros Hb Ht. apply schedule_pages_returns; [done|done|lia|lia]. Qed.

(** ** Concrete runs *)

#[local] Existing Instances any_uuid plain_env plain_json.

(** Every expression but "@never" parses and activates an hour later. *)
Definition hourly : CronLib.
Proof.
  refine {| cron_schedule := bool;
            cron_ParseStandard s := Ok (negb (bool_decide (s = "@never")));
            cron_Next s t := if s then t + Hour else 0 |}.
  intros [] t; [right|left; done]. unfold Hour, Minute, Second, Millisecond. lia.
Defined.
#[local] Existing Instance hourly.

Definition scheduled_config (cron : string) (next : option Z) : CrawlJobConfig :=
  {| CfgID := CfgID demo_config; CfgUserID := CfgUserID demo_config; CfgName := CfgName demo_config;
     CfgExtractionSpec := CfgExtractionSpec demo_config; Scopes := Scopes demo_config;
     Seeds := Seeds demo_config; RateLimit := RateLimit demo_config; Retries := Retries demo_config;
     Auth := Auth demo_config; Schedule := {| Cron := cron; LastRunAt := None; NextRunAt := next |};
     CfgJobType := JobTypeScheduled; RespectRobotsTxt := false; CfgCrawlMode := ""; QueueWeights := [] |}.

Definition completed_job : CrawlJob := {|
  JID := MkID "j1"; JobConfigID := MkID "c1"; JobConfig := None; JUserID := MkID "u1";
  JName := None; JStatus := TaskStatusCompleted; CreatedAt := 1; CompletedAt := Some 5;
  ExportJSONKey := None; ExportCSVKey := None; ExportedAt := None;
  JExportStatus := ExportStatusCompleted |}.

(** A database with one scheduled configuration whose job is complete. *)
Definition scheduled_db (cron : string) (next : option Z) : world :=
  world_of {| configs := match SaveCrawlJobConfigToSnapshot (scheduled_config cron next) with
                         | Ok s => [s] | Err _ => [] end;
              jobs := [SaveCrawlJobToSnapshot completed_job]; tasks := []; outbox := [];
              users := [demo_user]; World.tokens := []; previews := [] |}.

Definition demo_scheduler : ScheduleWorker := NewScheduleWorker ["q1"].

Definition polls (n : nat) (a : world) : world :=
  Nat.iter n (fun w => (processSchedules demo_scheduler w).2) a.

(** An hour's schedule: the first poll sets the activation, and nothing is due at the second. *)
Example hourly_polls : length (jobs (db (polls 2 (scheduled_db "@hourly" None)))) = 1%nat.
Proof. vm_compute. reflexivity. Qed.

Lemma processConfig_outcome_witness :
  exists r b, processConfig demo_scheduler (scheduled_config "@hourly" (Some 0)) (scheduled_db "@hourly" (Some 0)) = (Ret r, b)
    /\ exists d1 id, job_started id (Seeds demo_config) d1 (db b).
Proof.
  assert (Hfk : tasks_have_jobs (db (scheduled_db "@hourly" (Some 0)))) by (intros t Ht; inversion Ht).
  destruct (processConfig_outcome demo_scheduler (scheduled_config "@hourly" (Some 0))
              (scheduled_db "@hourly" (Some 0)) eq_refl Hfk) as (r & b & E & _ & Hc).
  exists r, b. split; [exact E|].
  assert (Hn : length (jobs (db (processConfig demo_scheduler (scheduled_config "@hourly" (Some 0))
                                  (scheduled_db "@hourly" (Some 0))).2)) = 2%nat) by (vm_compute; reflexivity).
  rewrite E in Hn. simpl in Hn.
  destruct Hc as [Hd|(s & _ & [[Hnone _]|(next & now & d1 & id & _ & _ & _ & _ & Hj)])].
  - rewrite Hd in Hn. discriminate Hn.
  - discriminate Hnone.
  - exists d1, id. exact Hj.
Defined.

Lemma processSchedules_returns_witness :
  exists b, processSchedules demo_scheduler (scheduled_db "@hourly" (Some 0)) = (Ret true, b).
Proof.
  destruct (processSchedules_returns demo_scheduler (scheduled_db "@hourly" (Some 0))) as (b & E & _);
    [vm_compute; discriminate|reflexivity|]. exists b. exact E.
Defined.

(** An expression without activations is always due.  For a cron expression that parses but
    never activates (as "0 0 30 2 *"), the zero time is stored as the next activation; it is
    before every now, so that the second poll starts a job. *)
Theorem never_activating_schedule_runs :
  cron_ParseStandard "@never" = Ok false /\ (forall t, cron_Next false t = 0)
  /\ length (jobs (db (polls 1 (scheduled_db "@never" None)))) = 1%nat
  /\ length (jobs (db (polls 2 (scheduled_db "@never" None)))) = 2%nat.
Proof. split; [reflexivity|]. split; [reflexivity|]. split; vm_compute; reflexivity. Qed.
