(* ===== verification/Base64.v ===== *)
(** * encoding/base64

    [base64.URLEncoding] of the standard library, which the API uses for its cursors: alphabet
    with [-] and [_], padding with [=].  Decoding skips line breaks and, as the encoding is not
    strict, ignores the unused bits of the last digit. *)

From S2P Require Import Prelude GoStrings.

#[local] Abbreviation chars := (list ascii).

Definition codez (c : ascii) : Z := Z.of_nat (nat_of_ascii c).
Definition byte (z : Z) : ascii := ascii_of_nat (Z.to_nat z).

(** The digits 0 to 63. *)
Definition digit_char (d : Z) : ascii :=
  if d <? 26 then byte (65 + d)
  else if d <? 52 then byte (97 + (d - 26))
  else if d <? 62 then byte (48 + (d - 52))
  else if d =? 62 then "-"%char else "_"%char.

Definition char_digit (c : ascii) : option Z :=
  let z := codez c in
  if (65 <=? z) && (z <=? 90) then Some (z - 65)
  else if (97 <=? z) && (z <=? 122) then Some (z - 97 + 26)
  else if (48 <=? z) && (z <=? 57) then Some (z - 48 + 52)
  else if z =? 45 then Some 62 else if z =? 95 then Some 63 else None.

Definition pad : ascii := "="%char.

Fixpoint encode_bytes (l : chars) : chars :=
  match l with
  | a :: b :: c :: l =>
      let '(x, y, z) := (codez a, codez b, codez c) in
      digit_char (x / 4) :: digit_char (x mod 4 * 16 + y / 16)
      :: digit_char (y mod 16 * 4 + z / 64) :: digit_char (z mod 64) :: encode_bytes l
  | [a; b] =>
      let '(x, y) := (codez a, codez b) in
      [digit_char (x / 4); digit_char (x mod 4 * 16 + y / 16); digit_char (y mod 16 * 4); pad]
  | [a] => [digit_char (codez a / 4); digit_char (codez a mod 4 * 16); pad; pad]
  | [] => []
  end.

Fixpoint decode_quads (l : chars) : option chars :=
  match l with
  | [] => Some []
  | a :: b :: c :: d :: l =>
      x ← char_digit a; y ← char_digit b;
      let first := byte (x * 4 + y / 16) in
      if Ascii.eqb c pad then
        if Ascii.eqb d pad && bool_decide (l = []) then Some [first] else None
      else
        z ← char_digit c;
        let second := byte (y mod 16 * 16 + z / 4) in
        if Ascii.eqb d pad then
          if bool_decide (l = []) then Some [first; second] else None
        else
          u ← char_digit d; rest ← decode_quads l;
          Some (first :: second :: byte (z mod 4 * 64 + u) :: rest)
  | _ => None
  end.

Definition line_break (c : ascii) : bool := (codez c =? 10) || (codez c =? 13).

Definition EncodeToString (data : string) : string := of_bytes (encode_bytes (bytes_of data)).
Definition DecodeString (s : string) : res string :=
  match decode_quads (filter (fun c => line_break c = false) (bytes_of s)) with
  | Some l => Ok (of_bytes l)
  | None => Err (ENew "illegal base64 data")
  end.

(** ** Decoding an encoding *)

Lemma codez_range c : 0 <= codez c < 256.
Proof. unfold codez. pose proof (nat_ascii_bounded c). lia. Qed.

Lemma byte_codez c : byte (codez c) = c.
Proof. unfold byte, codez. by rewrite Nat2Z.id, ascii_nat_embedding. Qed.

Definition digits : list Z := seqZ 0 64.

Lemma digit_in d : 0 <= d < 64 -> d ∈ digits.
Proof. intros H. unfold digits. apply elem_of_seqZ. lia. Qed.

Lemma digit_check (P : Z -> bool) d : forallb P digits = true -> 0 <= d < 64 -> P d = true.
Proof.
  intros H Hd. apply forallb_Forall_true in H. rewrite Forall_forall in H.
  by apply H, digit_in.
Qed.

Lemma char_digit_digit_char d : 0 <= d < 64 -> char_digit (digit_char d) = Some d.
Proof.
  intros Hd.
  pose proof (digit_check
    (fun d => match char_digit (digit_char d) with Some e => e =? d | None => false end) d
    eq_refl Hd) as H. simpl in H.
  destruct (char_digit (digit_char d)); [|done]. f_equal. by apply Z.eqb_eq.
Qed.

Lemma digit_not_pad d : 0 <= d < 64 -> Ascii.eqb (digit_char d) pad = false.
Proof.
  intros Hd. apply negb_true_iff.
  exact (digit_check (fun d => negb (Ascii.eqb (digit_char d) pad)) d eq_refl Hd).
Qed.

Lemma digit_not_break d : 0 <= d < 64 -> line_break (digit_char d) = false.
Proof.
  intros Hd. apply negb_true_iff.
  exact (digit_check (fun d => negb (line_break (digit_char d))) d eq_refl Hd).
Qed.

Ltac digit_range :=
  repeat match goal with c : ascii |- _ => lazymatch goal with
    | H : 0 <= codez c < 256 |- _ => fail | _ => pose proof (codez_range c) end end;
  Z.to_euclidean_division_equations; lia.

Lemma list_ind_3 {A} (P : list A -> Prop) :
  P [] -> (forall a, P [a]) -> (forall a b, P [a; b]) ->
  (forall a b c l, P l -> P (a :: b :: c :: l)) -> forall l, P l.
Proof. intros H0 H1 H2 H3. fix IH 1. intros [|a [|b [|c l]]]; [done|done|done|apply H3, IH]. Qed.

Lemma encode_no_break l : Forall (fun c => line_break c = false) (encode_bytes l).
Proof.
  induction l as [|a|a b|a b c l IH] using list_ind_3; simpl;
    repeat first [apply Forall_nil_2 | apply Forall_cons_2; [by first [reflexivity|apply digit_not_break; digit_range]|] | exact IH].
Qed.

Lemma decode_encode_bytes l : decode_quads (encode_bytes l) = Some l.
Proof.
  induction l as [|a|a b|a b c l IH] using list_ind_3; cbn -[Z.div Z.modulo Z.mul Z.add digit_char];
    [done|..];
    rewrite ?char_digit_digit_char, ?digit_not_pad by digit_range; cbn -[Z.div Z.modulo Z.mul Z.add digit_char];
    rewrite ?IH; simpl; repeat f_equal;
    match goal with |- byte ?e = ?c =>
      transitivity (byte (codez c)); [f_equal; digit_range|apply byte_codez] end.
Qed.

Lemma DecodeString_EncodeToString s : DecodeString (EncodeToString s) = Ok s.
Proof.
  unfold DecodeString, EncodeToString. rewrite String.list_ascii_of_string_of_list_ascii.
  assert (E : filter (fun c => line_break c = false) (encode_bytes (bytes_of s))
              = encode_bytes (bytes_of s)).
  { generalize (encode_no_break (bytes_of s)). generalize (encode_bytes (bytes_of s)).
    induction 1 as [|c l Hc _ IH]; [done|]. rewrite filter_cons, decide_True by done. by rewrite IH. }
  rewrite E, decode_encode_bytes. by rewrite String.string_of_list_ascii_of_string.
Qed.

Example encoded : EncodeToString "Man?>" = "TWFuPz4=".
Proof. vm_compute. reflexivity. Qed.
