(* ===== verification/Keyset.v ===== *)
(** * Keyset pagination

    The part [ListWithCursor] of the task and of the job repository share: rows ordered by a
    column and, among equals, by identifier, in one of two directions; the rows strictly beyond a
    position; a page is the first rows beyond the position of the last row of the page before.
    Following the pages gives the ordered rows, each once. *)

From S2P Require Import Prelude GoStrings Sql.

(** The value of the column that sorts, a parameter of a query or NULL. *)
Inductive sort_key := KText (s : string) | KNum (z : Z) | KNull.

#[export] Instance sort_key_eq_dec : EqDecision sort_key.
Proof. solve_decision. Defined.

(** ORDER BY puts NULL after every value. *)
Definition key_leb (a b : sort_key) : bool :=
  match a, b with
  | KText x, KText y => text_le x y
  | KNum x, KNum y => x <=? y
  | _, KNull => true
  | KNull, _ => false
  | KText _, KNum _ => true
  | KNum _, KText _ => false
  end.

Definition position : Type := sort_key * string.

(** ORDER BY column, id. *)
Definition pos_leb (p q : position) : bool :=
  if bool_decide (p.1 = q.1) then text_le p.2 q.2 else key_leb p.1 q.1.

(** The row comparison [(column, id) < (?, ?)], not true when a column is NULL. *)
Definition row_lt (p q : position) : bool :=
  match p.1, q.1 with
  | KNull, _ | _, KNull => false
  | _, _ => if bool_decide (p.1 = q.1) then text_lt p.2 q.2 else key_leb p.1 q.1
  end.

Definition directed (asc : bool) (f : position -> position -> bool) (p q : position) : bool :=
  if asc then f p q else f q p.

(** WHERE with the condition of the cursor, ORDER BY, LIMIT. *)
Definition keyset {A} (pos : A -> position) (asc : bool) (cursor : option position) (l : list A)
  : list A :=
  order_by (fun r s => directed asc pos_leb (pos r) (pos s))
    (bfilter (fun r => match cursor with
                       | None => true
                       | Some c => directed asc row_lt c (pos r)
                       end) l).

(** ** The order of positions *)

Lemma text_le_total a b : text_le a b = true \/ text_le b a = true.
Proof.
  unfold text_le, String.leb. rewrite (String.compare_antisym a b).
  destruct (String.compare b a); simpl; auto.
Qed.

Lemma text_le_antisym a b : text_le a b = true -> text_le b a = true -> a = b.
Proof.
  unfold text_le, String.leb. rewrite (String.compare_antisym a b).
  destruct (String.compare b a) eqn:E; simpl; try done. intros _ _. symmetry.
  by apply String.compare_eq_iff.
Qed.

Lemma ascii_compare_lt_trans a b c :
  Ascii.compare a b = Lt -> Ascii.compare b c = Lt -> Ascii.compare a c = Lt.
Proof.
  unfold Ascii.compare. rewrite !N.compare_lt_iff. lia.
Qed.

Lemma string_compare_lt_trans a b c :
  String.compare a b = Lt -> String.compare b c = Lt -> String.compare a c = Lt.
Proof.
  revert b c. induction a as [|x a IH]; intros [|y b] [|z c]; simpl; try done.
  destruct (Ascii.compare x y) eqn:Exy, (Ascii.compare y z) eqn:Eyz; try done.
  - apply Ascii.compare_eq_iff in Exy, Eyz. subst.
    replace (Ascii.compare z z) with Eq by (unfold Ascii.compare; by rewrite N.compare_refl).
    apply IH.
  - apply Ascii.compare_eq_iff in Exy. subst. by rewrite Eyz.
  - apply Ascii.compare_eq_iff in Eyz. subst. by rewrite Exy.
  - by rewrite (ascii_compare_lt_trans _ _ _ Exy Eyz).
Qed.

Lemma text_le_trans a b c : text_le a b = true -> text_le b c = true -> text_le a c = true.
Proof.
  unfold text_le, String.leb.
  destruct (String.compare a b) eqn:Eab; [|..|done].
  - apply String.compare_eq_iff in Eab. by subst.
  - destruct (String.compare b c) eqn:Ebc; [|..|done]; intros _ _.
    + apply String.compare_eq_iff in Ebc. subst. by rewrite Eab.
    + by rewrite (string_compare_lt_trans _ _ _ Eab Ebc).
Qed.

Lemma key_leb_total a b : key_leb a b = true \/ key_leb b a = true.
Proof.
  destruct a, b; simpl; try tauto; [apply text_le_total|]. rewrite !Z.leb_le. lia.
Qed.

Lemma key_leb_antisym a b : key_leb a b = true -> key_leb b a = true -> a = b.
Proof.
  destruct a, b; simpl; try done.
  - intros. f_equal. by apply text_le_antisym.
  - rewrite !Z.leb_le. intros. f_equal. lia.
Qed.

Lemma key_leb_trans a b c : key_leb a b = true -> key_leb b c = true -> key_leb a c = true.
Proof.
  destruct a, b, c; simpl; try done; [apply text_le_trans|]. rewrite !Z.leb_le. lia.
Qed.

Lemma pos_leb_total p q : pos_leb p q = true \/ pos_leb q p = true.
Proof.
  unfold pos_leb. rewrite (bool_decide_ext (q.1 = p.1) (p.1 = q.1)) by done.
  case_bool_decide; [apply text_le_total|apply key_leb_total].
Qed.

Lemma pos_leb_antisym p q : pos_leb p q = true -> pos_leb q p = true -> p = q.
Proof.
  unfold pos_leb. rewrite (bool_decide_ext (q.1 = p.1) (p.1 = q.1)) by done.
  destruct p as [k i], q as [k' i']; simpl. case_bool_decide as E.
  - intros. subst. f_equal. by apply text_le_antisym.
  - intros. by destruct E; apply key_leb_antisym.
Qed.

Lemma pos_leb_trans p q r : pos_leb p q = true -> pos_leb q r = true -> pos_leb p r = true.
Proof.
  unfold pos_leb. destruct p as [a i], q as [b j], r as [c k]; simpl.
  destruct (decide (a = b)) as [->|Hab], (decide (b = c)) as [->|Hbc];
    rewrite ?bool_decide_eq_true_2 by done; rewrite ?(bool_decide_eq_false_2 (a = b)) by done;
    rewrite ?(bool_decide_eq_false_2 (b = c)) by done; try done.
  - apply text_le_trans.
  - by rewrite bool_decide_eq_false_2.
  - intros H1 H2. case_bool_decide as Hac.
    + subst. by destruct Hab; apply key_leb_antisym.
    + by eapply key_leb_trans.
Qed.

(** Between positions without NULL the row comparison is the strict part of the order. *)
Lemma row_lt_spec p q :
  p.1 <> KNull -> q.1 <> KNull -> row_lt p q = pos_leb p q && negb (pos_leb q p).
Proof.
  destruct p as [a i], q as [b j]. unfold row_lt, pos_leb. simpl. intros Ha Hb.
  destruct (decide (a = b)) as [->|Hne].
  - rewrite !bool_decide_eq_true_2 by done. unfold text_lt.
    destruct (text_le_total i j) as [E|E]; destruct b; try done; unfold text_le in *;
      rewrite ?E; simpl; try done; by rewrite andb_false_r.
  - rewrite !bool_decide_eq_false_2 by done.
    destruct a, b; try done;
      (destruct (key_leb _ _) eqn:E1; simpl; [|done]; symmetry; apply negb_true_iff, not_true_iff_false;
       intros E2; by destruct Hne; apply key_leb_antisym).
Qed.

(** ** Pages *)

Section Pages.
Context {A : Type} (pos : A -> position) (asc : bool) (l : list A).
Hypothesis distinct_ids : NoDup ((fun r => (pos r).2) <$> l).
Hypothesis no_null : Forall (fun r => (pos r).1 <> KNull) l.

Notation ord := (fun r s : A => directed asc pos_leb (pos r) (pos s)).

#[local] Instance ord_total : Total (bool_rel ord).
Proof. intros r s. unfold bool_rel, directed. destruct asc; apply pos_leb_total. Qed.

#[local] Instance ord_transitive : Transitive (bool_rel ord).
Proof. intros r s t. unfold bool_rel, directed. destruct asc; eauto using pos_leb_trans. Qed.

Lemma order_by_sorted (m : list A) : StronglySorted (bool_rel ord) (order_by ord m).
Proof. apply StronglySorted_merge_sort; exact _. Qed.

Lemma pos_inj r s : r ∈ l -> s ∈ l -> pos r = pos s -> r = s.
Proof.
  intros Hr Hs E. apply list_elem_of_lookup in Hr as [i Hi]. apply list_elem_of_lookup in Hs as [j Hj].
  assert (i = j) as ->; [|congruence].
  eapply (NoDup_lookup _ i j (pos r).2); [exact distinct_ids|..]; rewrite list_lookup_fmap.
  - by rewrite Hi.
  - by rewrite Hj, E.
Qed.

(** An ordered arrangement of some of the rows is determined by them. *)
Lemma ordered_unique m m' :
  m ⊆ l -> StronglySorted (bool_rel ord) m -> StronglySorted (bool_rel ord) m' -> m ≡ₚ m' ->
  m = m'.
Proof.
  intros Hsub Hs Hs' Hp. apply (StronglySorted_unique_strong (bool_rel ord)); [|done..].
  intros r s Hr Hs1 Hrs Hsr. rewrite <- Hp in Hs1. apply pos_inj; [by apply Hsub..|].
  unfold bool_rel, directed in *. destruct asc; by apply pos_leb_antisym.
Qed.

Lemma keyset_perm_sub c : keyset pos asc c l ⊆ l.
Proof.
  intros r Hr. unfold keyset in Hr. rewrite order_by_perm in Hr.
  by apply list_elem_of_filter in Hr as [_ Hr].
Qed.

Lemma keyset_all_perm : keyset pos asc None l ≡ₚ l.
Proof.
  unfold keyset. rewrite order_by_perm. unfold bfilter.
  clear distinct_ids no_null.
  induction l as [|r m IH]; [done|]. rewrite filter_cons, decide_True by done. by rewrite IH.
Qed.

Lemma bfilter_app_none (p : A -> bool) (m m' : list A) :
  (forall r, r ∈ m -> p r = false) -> bfilter p (m ++ m') = bfilter p m'.
Proof.
  intros H. unfold bfilter. induction m as [|r m IH]; [done|].
  simpl. rewrite filter_cons, decide_False.
  - apply IH. intros s Hs. apply H. set_solver.
  - rewrite H by set_solver. done.
Qed.

Lemma bfilter_true (p : A -> bool) (m : list A) :
  (forall r, r ∈ m -> p r = true) -> bfilter p m = m.
Proof.
  intros H. unfold bfilter. induction m as [|r m IH]; [done|].
  rewrite filter_cons, decide_True by (apply H; set_solver). f_equal. apply IH. set_solver.
Qed.

Lemma beyond_spec x r :
  x ∈ l -> r ∈ l ->
  directed asc row_lt (pos x) (pos r) = ord x r && negb (ord r x).
Proof.
  intros Hx Hr. rewrite Forall_forall in no_null. unfold directed.
  destruct asc; apply row_lt_spec; auto.
Qed.

(** The rows beyond a row are those after it in the order. *)
Lemma keyset_after pre x post :
  keyset pos asc None l = pre ++ x :: post -> keyset pos asc (Some (pos x)) l = post.
Proof.
  intros E. assert (Hin : pre ++ x :: post ⊆ l) by (rewrite <- E; apply keyset_perm_sub).
  assert (Hp : pre ++ x :: post ≡ₚ l) by (rewrite <- E; apply keyset_all_perm).
  pose proof (order_by_sorted (bfilter (fun _ => true) l)) as Hs.
  change (order_by ord (bfilter (fun _ => true) l)) with (keyset pos asc None l) in Hs.
  rewrite E in Hs. apply StronglySorted_app in Hs as (Hpre & _ & Hpost).
  apply StronglySorted_inv in Hpost as [Hpost Hx].
  assert (Hnd : NoDup (pre ++ x :: post)).
  { rewrite Hp. by apply NoDup_fmap_1 in distinct_ids. }
  apply NoDup_app in Hnd as (_ & _ & [Hxn _]%NoDup_cons).
  apply ordered_unique.
  - apply keyset_perm_sub.
  - apply order_by_sorted.
  - done.
  - unfold keyset. rewrite order_by_perm.
    transitivity (bfilter (fun r => directed asc row_lt (pos x) (pos r)) (pre ++ x :: post)).
    { unfold bfilter. by rewrite Hp. }
    assert (Hxl : x ∈ l) by (apply Hin; set_solver).
    rewrite bfilter_app_none.
    + change (x :: post) with ([x] ++ post). rewrite bfilter_app_none.
      * rewrite bfilter_true; [done|]. intros r Hr.
        rewrite beyond_spec by (first [done|apply Hin; set_solver]).
        rewrite Forall_forall in Hx. pose proof (Hx r Hr) as Hxr. unfold bool_rel in Hxr.
        rewrite Hxr. simpl. apply negb_true_iff, not_true_iff_false. intros Hrx.
        apply Hxn. replace x with r; [done|].
        apply pos_inj; [apply Hin; set_solver|done|].
        unfold directed in *. destruct asc; by apply pos_leb_antisym.
      * intros r ->%list_elem_of_singleton. rewrite beyond_spec by done.
        by destruct (directed _ _ _ _).
    + intros r Hr. rewrite beyond_spec by (first [done|apply Hin; set_solver]).
      assert (Hrx : ord r x = true) by (apply Hpre; set_solver).
      simpl in Hrx. rewrite Hrx. apply andb_false_r.
Qed.

End Pages.
