(* ===== verification/Pages.v ===== *)
(** * Reading a listing page by page

    A client that follows the cursors of a paged listing.  When every page gives the first rows
    beyond the position that its request carries, and the request that follows it carries the
    position of its last row, the client reads the rows of the keyset order, each once. *)

From S2P Require Import Prelude Converters World Sql Keyset.

Section Reader.
Context `{Env} {Rq Rs T : Type}.
Context (page : Rq -> M (res Rs)) (items : Rs -> list T) (more : Rs -> bool)
  (follow : Rs -> Rq -> Rq).

Fixpoint read_pages (fuel : nat) (req : Rq) : M (res (list T)) :=
  match fuel with
  | O => ret_err (ENew "more pages")
  | S fuel =>
      try resp <- page req;
      if more resp then
        try rest <- read_pages fuel (follow resp req);
        ret_ok (items resp ++ rest)
      else ret_ok (items resp)
  end.

Section Complete.
Context {R : Type} (pos : R -> position) (asc : bool) (l : list R) (restore : R -> res T).
Context (n : nat) (d : database) (asks : Rq -> option position -> Prop).

Hypothesis some_rows : (0 < n)%nat.
Hypothesis distinct_ids : NoDup ((fun r => (pos r).2) <$> l).
Hypothesis no_null : Forall (fun r => (pos r).1 <> KNull) l.
Hypothesis page_ok : forall req cur a ts,
  asks req cur -> tx a = None -> db a = d -> map_res restore (keyset pos asc cur l) = Ok ts ->
  exists resp,
    page req a = (Ret (Ok resp), set_db d (tick a))
    /\ items resp = take n ts /\ more resp = bool_decide (n < length ts)%nat
    /\ forall r, (n < length ts)%nat -> last (take n (keyset pos asc cur l)) = Some r ->
                 asks (follow resp req) (Some (pos r)).

Lemma read_pages_from fuel : forall req cur pre a ts,
  asks req cur -> keyset pos asc None l = pre ++ keyset pos asc cur l ->
  map_res restore (keyset pos asc cur l) = Ok ts ->
  (length (keyset pos asc cur l) < fuel)%nat -> tx a = None -> db a = d ->
  exists b, read_pages fuel req a = (Ret (Ok ts), b) /\ db b = d.
Proof.
  induction fuel as [|fuel IH]; intros req cur pre a ts Hask Hall Er Hf Ht Hd; [lia|].
  destruct (page_ok req cur a ts Hask Ht Hd Er) as (resp & E & Eitems & Emore & Hnext).
  pose proof (map_res_length _ _ _ Er) as Hlen.
  simpl. unfold try_bind at 1. rewrite (bind_ret _ _ _ _ _ E), Emore, Eitems.
  case_bool_decide as Hmore.
  2: { rewrite take_ge by lia. by eexists. }
  set (rows := keyset pos asc cur l) in *.
  destruct (last (take n rows)) as [y|] eqn:Elast.
  2: { apply last_None in Elast. apply (f_equal length) in Elast. rewrite length_take in Elast.
       simpl in Elast. lia. }
  specialize (Hnext y Hmore eq_refl). apply last_Some in Elast as [k Ek].
  assert (Hsplit : keyset pos asc None l = (pre ++ k) ++ y :: drop n rows).
  { rewrite Hall, <-(take_drop n rows), Ek, drop_app_length'; [by rewrite <-!app_assoc|].
    rewrite <-Ek, length_take. lia. }
  assert (Hrest : keyset pos asc (Some (pos y)) l = drop n rows)
    by (by eapply keyset_after).
  rewrite <-(take_drop n rows) in Er. apply map_res_app_inv in Er as (l1 & l2 & E1 & E2 & ->).
  assert (Hl1 : take n (l1 ++ l2) = l1).
  { apply take_app_length'. rewrite (map_res_length _ _ _ E1), length_take. lia. }
  destruct (IH (follow resp req) (Some (pos y)) (pre ++ k ++ [y]) (set_db d (tick a)) l2 Hnext)
    as (b & Eb & Hdb).
  - rewrite Hrest, Hsplit. by rewrite <-!app_assoc.
  - by rewrite Hrest.
  - rewrite Hrest, length_drop. lia.
  - done.
  - done.
  - exists b. split; [|done]. unfold try_bind at 1. by rewrite (bind_ret _ _ _ _ _ Eb), Hl1.
Qed.

(** A client that asks from the start reads every row, in the order of the listing. *)
Lemma read_pages_all fuel req a ts :
  asks req None -> map_res restore (keyset pos asc None l) = Ok ts -> (length l < fuel)%nat ->
  tx a = None -> db a = d ->
  exists b, read_pages fuel req a = (Ret (Ok ts), b) /\ db b = d.
Proof.
  intros Hask Er Hf. apply (read_pages_from fuel req None []); [done..|].
  by rewrite (Permutation_length (keyset_all_perm pos asc l)).
Qed.

End Complete.
End Reader.
