(* ===== verification/Pagination.v ===== *)
(** * Listings with cursors

    The tasks of a job page by page: [ListTasksByJob] of the gRPC API
    ([api/crawl_job/task_list.go]), of the service ([service/crawl_task]) and [ListWithCursor] of
    the repository.  [JobListing] is the listing of jobs. *)

From S2P Require Import Prelude GoStrings Domain Json Converters World Sql Repos Base64 Keyset Pages.

(** ** application/service/crawl_task_service.go *)

Definition TaskSortByEnqueuedAt : string := "enqueued_at".
Definition TaskSortByURL : string := "url".
Definition TaskSortByStatus : string := "status".
Definition TaskSortByDepth : string := "depth".

Record ListTasksFilter := {
  FStatus : option string; FURL : option string; FMinDepth : option Z; FMaxDepth : option Z;
  FEnqueuedFrom : option Z; FEnqueuedTo : option Z }.

Record ListTasksCursor := {
  TCSortField : string; TCSortAsc : bool; TCEnqueuedAt : Z; TCURL : string; TCStatus : string;
  TCDepth : option Z; TCID : string }.

Record ListTasksByJobQuery := {
  TQJobID : string; TQCursor : option ListTasksCursor; TQLimit : Z; TQFilter : ListTasksFilter;
  TQSortField : string; TQSortAsc : bool }.

Record ListTasksResult := {
  TRTasks : list CrawlTask; TRNextCursor : option ListTasksCursor; TRHasMore : bool }.

Definition default_limit (limit : Z) : Z :=
  let limit := if limit =? 0 then 20 else limit in if 100 <? limit then 100 else limit.

Definition with_limit (limit : Z) (q : ListTasksByJobQuery) : ListTasksByJobQuery :=
  {| TQJobID := TQJobID q; TQCursor := TQCursor q; TQLimit := limit; TQFilter := TQFilter q;
     TQSortField := TQSortField q; TQSortAsc := TQSortAsc q |}.

Definition given (o : option string) (p : string -> bool) : bool :=
  match o with Some s => bool_decide (s = "") || p s | None => true end.
Definition bounded (o : option Z) (p : Z -> bool) : bool :=
  match o with Some z => p z | None => true end.

(** A uint64 argument for a BIGINT parameter. *)
Definition int8_arg (o : option Z) : res unit :=
  guard_ (bounded o (fun z => z <=? int64_max)) (ENew "is greater than maximum value for int8").

(** [Limit(uint64(n))] for an [int] [n]. *)
Definition limit_param (n : Z) : res Z :=
  let l := wrapu 64 n in _ ← guard_ (l <=? int64_max) (ENew "bigint out of range"); Ok l.

Section Pagination.
Context `{Env, JsonLib}.

(** ** persistence/postgres/repos/crawl_task_repo.go: ListWithCursor *)

Definition task_where (q : ListTasksByJobQuery) (r : CrawlTaskSnapshot) : bool :=
  let f := TQFilter q in
  bool_decide (ts_JobID r = TQJobID q)
  && given (FStatus f) (fun s => bool_decide (ts_Status r = s))
  && given (FURL f) (fun u => ilike_contains u (ts_URL r))
  && bounded (FMinDepth f) (fun d => d <=? ts_Depth r)
  && bounded (FMaxDepth f) (fun d => ts_Depth r <=? d)
  && bounded (FEnqueuedFrom f) (fun t => t <=? ts_EnqueuedAt r)
  && bounded (FEnqueuedTo f) (fun t => ts_EnqueuedAt r <=? t).

Definition task_sort (q : ListTasksByJobQuery) : string :=
  if bool_decide (TQSortField q = "") then TaskSortByEnqueuedAt else TQSortField q.

Definition task_position (field : string) (r : CrawlTaskSnapshot) : position :=
  if bool_decide (field = TaskSortByURL) then (KText (ts_URL r), ts_ID r)
  else if bool_decide (field = TaskSortByStatus) then (KText (ts_Status r), ts_ID r)
  else if bool_decide (field = TaskSortByDepth) then (KNum (ts_Depth r), ts_ID r)
  else (KNum (ts_EnqueuedAt r), ts_ID r).

Definition task_cursor_position (field : string) (c : ListTasksCursor) : position :=
  if bool_decide (field = TaskSortByURL) then (KText (TCURL c), TCID c)
  else if bool_decide (field = TaskSortByStatus) then (KText (TCStatus c), TCID c)
  else if bool_decide (field = TaskSortByDepth) then
    (match TCDepth c with Some d => KNum d | None => KNull end, TCID c)
  else (KNum (TCEnqueuedAt c), TCID c).

(** The arguments of the statement that the driver can refuse; identifiers are text. *)
Definition task_args (q : ListTasksByJobQuery) : res unit :=
  _ ← int8_arg (FMinDepth (TQFilter q));
  _ ← int8_arg (FMaxDepth (TQFilter q));
  match TQCursor q with
  | None => Ok tt
  | Some c => if bool_decide (task_sort q = TaskSortByDepth) then int8_arg (TCDepth c) else Ok tt
  end.

Definition task_page (q : ListTasksByJobQuery) (fetchLimit : Z) (d : database)
  : res (list CrawlTaskSnapshot) :=
  _ ← task_args q;
  limit ← limit_param fetchLimit;
  Ok (limit_rows limit
        (keyset (task_position (task_sort q)) (TQSortAsc q)
           (task_cursor_position (task_sort q) <$> TQCursor q)
           (bfilter (task_where q) (tasks d)))).

Definition next_task_cursor (q : ListTasksByJobQuery) (t : CrawlTask) : ListTasksCursor :=
  {| TCSortField := task_sort q; TCSortAsc := TQSortAsc q; TCEnqueuedAt := EnqueuedAt t;
     TCURL := URL t; TCStatus := Status t; TCDepth := Some (Depth t); TCID := value (TID t) |}.

Definition Task_ListWithCursor (q : ListTasksByJobQuery) : M (res ListTasksResult) :=
  let limit := default_limit (TQLimit q) in
  try rows <- stmt (fun _ d => rows ← task_page q (limit + 1) d; Ok (rows, d));
  if limit <? 0 then panic "runtime error: makeslice: cap out of range" else
  lift_res (ts ← map_res RestoreCrawlTaskFromSnapshot (take (Z.to_nat limit) rows);
    let hasMore := limit <? Z.of_nat (length rows) in
    Ok {| TRTasks := ts;
          TRNextCursor := if hasMore then next_task_cursor q <$> last ts else None;
          TRHasMore := hasMore |}).

(** ** application/service/crawl_task/list_tasks_by_job_query.go *)

Definition task_filter_check (f : ListTasksFilter) : res unit :=
  _ ← match FStatus f with
      | Some s => guard_ (bool_decide (s = "") || TaskStatus_IsValid s)
                    (ENew ("invalid status: " +:+ s))
      | None => Ok tt
      end;
  _ ← match FMinDepth f, FMaxDepth f with
      | Some a, Some b => guard_ (a <=? b) (ENew "min_depth cannot be greater than max_depth")
      | _, _ => Ok tt
      end;
  match FEnqueuedFrom f, FEnqueuedTo f with
  | Some a, Some b => guard_ (negb (After a b)) (ENew "enqueued_from cannot be after enqueued_to")
  | _, _ => Ok tt
  end.

Definition ListTasksByJob (q : ListTasksByJobQuery) : M (res ListTasksResult) :=
  let q := with_limit (default_limit (TQLimit q)) q in
  try _ <- lift_res (task_filter_check (TQFilter q));
  try result <- Task_ListWithCursor q else e => ret_err (Errorf "failed to list tasks" e);
  ret_ok result.

(** ** api/crawl_job/task_list.go *)

Inductive SortOrder := SORT_ORDER_UNSPECIFIED | SORT_ORDER_ASC | SORT_ORDER_DESC.
Inductive TaskSortField :=
| TASK_SORT_FIELD_UNSPECIFIED | TASK_SORT_FIELD_ENQUEUED_AT | TASK_SORT_FIELD_URL
| TASK_SORT_FIELD_STATUS | TASK_SORT_FIELD_DEPTH.

Record ListTasksByJobRequest := {
  RqJobId : string; RqCursor : option string; RqLimit : Z; RqFilter : ListTasksFilter;
  RqSortField : TaskSortField; RqSortOrder : SortOrder }.

Record ListTasksByJobResponse := {
  RsTasks : list CrawlTask; RsNextCursor : string; RsHasMore : bool }.

Definition is_desc (o : SortOrder) : bool :=
  match o with SORT_ORDER_DESC => true | _ => false end.

Definition request_sort (f : TaskSortField) : string :=
  match f with
  | TASK_SORT_FIELD_URL => TaskSortByURL
  | TASK_SORT_FIELD_STATUS => TaskSortByStatus
  | TASK_SORT_FIELD_DEPTH => TaskSortByDepth
  | _ => TaskSortByEnqueuedAt
  end.

Definition json_of_task_cursor (c : ListTasksCursor) : json :=
  JObj (omit_str "sf" (TCSortField c)
        ++ [("sa", JBool (TCSortAsc c)); ("e", JStr (time_text (TCEnqueuedAt c)))]
        ++ omit_str "u" (TCURL c) ++ omit_str "st" (TCStatus c)
        ++ match TCDepth c with Some d => [("d", JInt d)] | None => [] end
        ++ [("i", JStr (TCID c))]).

Definition task_cursor_of_json (j : json) : res ListTasksCursor :=
  fs ← as_object j;
  sf ← get_string "sf" fs; sa ← get_bool "sa" fs; e ← get_time "e" fs;
  u ← get_string "u" fs; st ← get_string "st" fs;
  d ← match lookup_field "d" fs with
      | JNull => Ok None
      | _ => d ← get_uint 64 "d" fs; Ok (Some d)
      end;
  i ← get_string "i" fs;
  Ok {| TCSortField := sf; TCSortAsc := sa; TCEnqueuedAt := e; TCURL := u; TCStatus := st;
        TCDepth := d; TCID := i |}.

Definition encodeTaskCursor (c : ListTasksCursor) : res string :=
  if time_ok (TCEnqueuedAt c) then Ok (EncodeToString (marshal (json_of_task_cursor c)))
  else Err (ENew "Time.MarshalJSON: year outside of range [0,9999]").

Definition decodeTaskCursor (encoded : string) : res ListTasksCursor :=
  data ← DecodeString encoded; Unmarshal task_cursor_of_json data.

Definition task_query (req : ListTasksByJobRequest) (cursor : option ListTasksCursor)
  : ListTasksByJobQuery :=
  {| TQJobID := RqJobId req; TQCursor := cursor; TQLimit := RqLimit req; TQFilter := RqFilter req;
     TQSortField := match cursor with
                    | Some c => TCSortField c
                    | None => request_sort (RqSortField req)
                    end;
     TQSortAsc := match cursor with
                  | Some c => TCSortAsc c
                  | None => negb (is_desc (RqSortOrder req))
                  end |}.

Definition request_cursor (req : ListTasksByJobRequest) : res (option ListTasksCursor) :=
  match RqCursor req with
  | None => Ok None
  | Some s =>
      if bool_decide (s = "") then Ok None
      else match decodeTaskCursor s with
           | Ok c => Ok (Some c)
           | Err e => Err (Errorf "rpc error: code = InvalidArgument desc = invalid cursor" e)
           end
  end.

Definition API_ListTasksByJob (req : ListTasksByJobRequest) : M (res ListTasksByJobResponse) :=
  try cursor <- lift_res (request_cursor req);
  try result <- ListTasksByJob (task_query req cursor);
  try next <- lift_res (match TRNextCursor result with
                        | None => Ok ""
                        | Some c => encodeTaskCursor c
                        end)
    else e => ret_err (Errorf "rpc error: code = Internal desc = failed to encode cursor" e);
  ret_ok {| RsTasks := TRTasks result; RsNextCursor := next; RsHasMore := TRHasMore result |}.

(** A client that reads page after page. *)
Definition with_cursor (c : string) (req : ListTasksByJobRequest) : ListTasksByJobRequest :=
  {| RqJobId := RqJobId req; RqCursor := Some c; RqLimit := RqLimit req; RqFilter := RqFilter req;
     RqSortField := RqSortField req; RqSortOrder := RqSortOrder req |}.

Definition read_tasks : nat -> ListTasksByJobRequest -> M (res (list CrawlTask)) :=
  read_pages API_ListTasksByJob RsTasks RsHasMore (fun resp => with_cursor (RsNextCursor resp)).

End Pagination.

(** ** The cursor of the API reads back *)

Section Cursors.
Context `{JsonLib}.

Definition task_cursor_ok (c : ListTasksCursor) : bool :=
  utf8_valid (bytes_of (TCSortField c)) && utf8_valid (bytes_of (TCURL c))
  && utf8_valid (bytes_of (TCStatus c)) && utf8_valid (bytes_of (TCID c))
  && time_ok (TCEnqueuedAt c) && bounded (TCDepth c) (fun d => (0 <=? d) && (d <? 2 ^ 64)).

Lemma task_cursor_wf c : task_cursor_ok c = true -> json_wf (json_of_task_cursor c) = true.
Proof.
  unfold task_cursor_ok. rewrite !andb_true_iff. intros [[[[[? ?] ?] ?] ?] Hd].
  unfold json_of_task_cursor, omit_str.
  destruct c as [sf sa e u st [d|] i]; simpl in *;
    destruct (bool_decide (sf = _)), (bool_decide (u = _)), (bool_decide (st = _)); simpl;
    rewrite ?andb_true_iff, ?time_text_utf8; simpl; repeat split; done.
Qed.

Lemma task_cursor_of_json_of c :
  task_cursor_ok c = true -> task_cursor_of_json (json_of_task_cursor c) = Ok c.
Proof.
  unfold task_cursor_ok. rewrite !andb_true_iff. intros [[[[[? ?] ?] ?] Ht] Hd].
  unfold task_cursor_of_json, json_of_task_cursor, omit_str, get_string, get_bool, get_time,
    get_uint.
  destruct c as [sf sa e u st [d|] i]; simpl in *; repeat case_bool_decide; subst; simpl;
    rewrite !time_parse_text by done; simpl; rewrite ?andb_true_iff, ?Hd; done.
Qed.

Lemma decodeTaskCursor_encode c :
  task_cursor_ok c = true ->
  exists s, encodeTaskCursor c = Ok s /\ decodeTaskCursor s = Ok c.
Proof.
  intros Hc. assert (Ht : time_ok (TCEnqueuedAt c) = true)
    by (unfold task_cursor_ok in Hc; rewrite !andb_true_iff in Hc; tauto).
  unfold encodeTaskCursor, decodeTaskCursor. rewrite Ht. eexists; split; [done|].
  rewrite DecodeString_EncodeToString. simpl.
  rewrite Unmarshal_marshal by (by apply task_cursor_wf). by apply task_cursor_of_json_of.
Qed.

End Cursors.

(** ** Reading every page of the tasks *)

Lemma default_limit_range n : 0 <= n -> 1 <= default_limit n <= 100.
Proof.
  intros Hn. unfold default_limit.
  destruct (n =? 0) eqn:E; [done|]. destruct (100 <? n) eqn:E'; lia.
Qed.

Lemma default_limit_id n : 1 <= n <= 100 -> default_limit n = n.
Proof.
  intros Hn. unfold default_limit. destruct (n =? 0) eqn:E; [lia|].
  destruct (100 <? n) eqn:E'; lia.
Qed.

Lemma limit_param_id n : 0 <= n <= 101 -> limit_param n = Ok n.
Proof.
  intros Hn. unfold limit_param. rewrite wrapu_small by lia. unfold guard_.
  replace (n <=? int64_max) with true by (unfold int64_max; lia). done.
Qed.

Lemma limit_param_negative n :
  - 2 ^ 63 <= n < 0 -> limit_param n = Err (ENew "bigint out of range").
Proof.
  intros Hn. unfold limit_param, guard_, wrapu.
  replace (n mod 2 ^ 64) with (n + 2 ^ 64)
    by (rewrite <- (Z_mod_plus_full _ 1 (2 ^ 64)), Z.mod_small; lia).
  by replace (n + 2 ^ 64 <=? int64_max) with false by (unfold int64_max; lia).
Qed.

Lemma limit_rows_take {A} n (l : list A) : 0 <= n -> limit_rows n l = take (Z.to_nat n) l.
Proof. intros Hn. unfold limit_rows. by destruct (n <? 0) eqn:E; [lia|]. Qed.

(** What a listing needs of a stored row: canonical identifiers, text and a time that JSON
    carries, a depth of the column's type. *)
Definition task_row_ok `{UuidLib} (r : CrawlTaskSnapshot) : bool :=
  id_ok (MkID (ts_ID r)) && id_ok (MkID (ts_JobID r))
  && utf8_valid (bytes_of (ts_ID r)) && utf8_valid (bytes_of (ts_URL r))
  && utf8_valid (bytes_of (ts_Status r)) && time_ok (ts_EnqueuedAt r)
  && (0 <=? ts_Depth r) && (ts_Depth r <=? int64_max).

Section TaskPages.
Context `{Env, JsonLib}.
Hypothesis calm : forall n, verdict_at n = Succeeds.

Lemma stmt_calm {A} (f : nat -> database -> res (A * database)) a x d :
  tx a = None -> f (ticks a) (db a) = Ok (x, d) -> stmt f a = (Ret (Ok x), set_db d (tick a)).
Proof. intros Ht E. unfold stmt. simpl. by rewrite Ht, calm, E. Qed.

Lemma row_restores r : task_row_ok r = true -> exists t, RestoreCrawlTaskFromSnapshot r = Ok t.
Proof.
  unfold task_row_ok. rewrite !andb_true_iff. intros [[[[[[[Hi Hj] _] _] _] _] _] _].
  apply id_ok_NewID in Hi, Hj. simpl in Hi, Hj.
  unfold RestoreCrawlTaskFromSnapshot, NewCrawlJobID. rewrite Hi, Hj. simpl. eauto.
Qed.

(** The cursor made of a row's task stands at the row. *)
Lemma next_cursor_position q r t field :
  RestoreCrawlTaskFromSnapshot r = Ok t ->
  task_cursor_position field (next_task_cursor q t) = task_position field r.
Proof.
  intros Er. apply restored_row in Er as (Ei & Ee & Eu & Es & Ed).
  unfold task_cursor_position, task_position, next_task_cursor. simpl.
  by rewrite Ei, Ee, Eu, Es, Ed.
Qed.

Lemma page_spec q a ts (n := TQLimit q) :
  let rows := keyset (task_position (task_sort q)) (TQSortAsc q)
                (task_cursor_position (task_sort q) <$> TQCursor q)
                (bfilter (task_where q) (tasks (db a))) in
  1 <= n <= 100 -> tx a = None -> task_args q = Ok tt ->
  map_res RestoreCrawlTaskFromSnapshot rows = Ok ts ->
  let page := take (Z.to_nat n) ts in
  let hasMore := bool_decide (Z.to_nat n < length ts)%nat in
  Task_ListWithCursor q a
  = (Ret (Ok {| TRTasks := page;
                TRNextCursor := if hasMore then next_task_cursor q <$> last page else None;
                TRHasMore := hasMore |}), set_db (db a) (tick a)).
Proof.
  intros rows Hn Ht Ha Er page hasMore.
  unfold Task_ListWithCursor. fold n. rewrite (default_limit_id n) by done. unfold try_bind.
  erewrite bind_ret; [|apply (stmt_calm _ a (take (Z.to_nat (n + 1)) rows) (db a) Ht)].
  - destruct (n <? 0) eqn:En; [lia|]. rewrite take_take.
    rewrite Nat.min_l by lia. rewrite (map_res_take _ _ _ _ Er). simpl.
    assert (Eh : (n <? Z.of_nat (length (take (Z.to_nat (n + 1)) rows))) = hasMore).
    { unfold hasMore. rewrite (map_res_length _ _ _ Er). rewrite length_take.
      apply eq_bool_prop_intro. rewrite !Is_true_true, Z.ltb_lt, bool_decide_eq_true. lia. }
    by rewrite Eh.
  - unfold task_page. rewrite Ha. simpl. rewrite limit_param_id by lia. simpl.
    by rewrite limit_rows_take by lia.
Qed.

End TaskPages.

Section ReadTasks.
Context `{Env, JsonLib}.
Hypothesis calm : forall n, verdict_at n = Succeeds.
Context (job : string) (filter_ : ListTasksFilter) (limit : Z) (field : string) (asc : bool).
Context (d : database).

Definition wanted (r : CrawlTaskSnapshot) : bool :=
  task_where {| TQJobID := job; TQCursor := None; TQLimit := limit; TQFilter := filter_;
                TQSortField := field; TQSortAsc := asc |} r.
Definition beyond (c : option position) : list CrawlTaskSnapshot :=
  keyset (task_position field) asc c (bfilter wanted (tasks d)).

Hypothesis limit_ok : 0 <= limit.
Hypothesis filter_ok : task_filter_check filter_ = Ok tt.
Hypothesis depths_ok :
  int8_arg (FMinDepth filter_) = Ok tt /\ int8_arg (FMaxDepth filter_) = Ok tt.
Hypothesis rows_ok : forallb task_row_ok (tasks d) = true.
Hypothesis field_cases :
  field = TaskSortByEnqueuedAt \/ field = TaskSortByURL \/ field = TaskSortByStatus
  \/ field = TaskSortByDepth.

(** A request for the page beyond [cur] of this listing. *)
Definition asks (req : ListTasksByJobRequest) (cur : option ListTasksCursor) : Prop :=
  RqJobId req = job /\ RqFilter req = filter_ /\ RqLimit req = limit
  /\ request_cursor req = Ok cur
  /\ TQSortField (task_query req cur) = field /\ TQSortAsc (task_query req cur) = asc
  /\ match cur with
     | None => True
     | Some c => int8_arg (TCDepth c) = Ok tt
     end.

Lemma asks_args req cur : asks req cur -> task_args (task_query req cur) = Ok tt.
Proof.
  intros (Ej & Ef & _ & _ & _ & _ & Hc). unfold task_args, task_query. simpl.
  destruct depths_ok as [Hmin Hmax]. rewrite Ef, Hmin. simpl. rewrite Hmax. simpl.
  destruct cur as [c|]; [|done]. by case_match.
Qed.

Lemma field_sort q : TQSortField q = field -> task_sort q = field.
Proof.
  intros E. unfold task_sort. rewrite E, bool_decide_eq_false_2; [done|].
  by destruct field_cases as [->|[->|[->| ->]]].
Qed.

Lemma beyond_rows c r : r ∈ beyond c -> task_row_ok r = true.
Proof.
  intros Hr. apply keyset_perm_sub in Hr. apply list_elem_of_filter in Hr as [_ Hr].
  pose proof rows_ok as Ho. apply forallb_Forall_true in Ho. rewrite Forall_forall in Ho. by apply Ho.
Qed.

Lemma next_cursor_ok q r t :
  TQSortField q = field -> task_row_ok r = true -> RestoreCrawlTaskFromSnapshot r = Ok t ->
  task_cursor_ok (next_task_cursor q t) = true
  /\ int8_arg (TCDepth (next_task_cursor q t)) = Ok tt.
Proof.
  intros Eq Hr Et. apply restored_row in Et as (Ei & Ee & Eu & Es & Ed).
  unfold task_row_ok in Hr. rewrite !andb_true_iff in Hr.
  destruct Hr as [[[[[[[Hi _] K1] K2] K3] K4] K5] K6].
  unfold next_task_cursor, task_cursor_ok, int8_arg, guard_; simpl.
  rewrite Ei, Ee, Eu, Es, Ed, K1, K2, K3, K4, K5, K6, (field_sort _ Eq).
  unfold id_ok in Hi. apply andb_true_iff in Hi as [_ Hi]. simpl in Hi.
  replace (utf8_valid (bytes_of field)) with true.
  - repeat split; try done. simpl. unfold int64_max in K6. lia.
  - by destruct field_cases as [->|[->|[->| ->]]].
Qed.

Lemma encoded_not_empty c s : encodeTaskCursor c = Ok s -> decodeTaskCursor s = Ok c -> s <> "".
Proof.
  intros _ E ->. unfold decodeTaskCursor, Unmarshal in E. simpl in E.
  replace (of_bytes []) with "" in E by done. by rewrite unmarshal_empty in E.
Qed.

Notation n := (Z.to_nat (default_limit limit)).

(** One page of the service: the first rows beyond the cursor. *)
Lemma service_page q a ts :
  TQJobID q = job -> TQFilter q = filter_ -> TQLimit q = limit -> TQSortField q = field ->
  TQSortAsc q = asc -> task_args q = Ok tt -> tx a = None -> db a = d ->
  map_res RestoreCrawlTaskFromSnapshot (beyond (task_cursor_position field <$> TQCursor q)) = Ok ts ->
  let hasMore := bool_decide (n < length ts)%nat in
  ListTasksByJob q a
  = (Ret (Ok {| TRTasks := take n ts;
                TRNextCursor := if hasMore then next_task_cursor q <$> last (take n ts) else None;
                TRHasMore := hasMore |}), set_db d (tick a)).
Proof.
  intros Ej Ef El Es Ea Hargs Ht Hd Er hasMore.
  unfold ListTasksByJob. rewrite El. set (q' := with_limit _ q).
  assert (Eq : task_sort q' = field) by (by apply field_sort).
  pose proof (default_limit_range _ limit_ok) as Hn.
  assert (Ew : bfilter (task_where q') (tasks (db a)) = bfilter wanted (tasks d)).
  { rewrite Hd. unfold bfilter. apply list_filter_iff. intros r. unfold wanted, task_where, q'.
    simpl. by rewrite Ej, Ef. }
  assert (Ep : map_res RestoreCrawlTaskFromSnapshot
            (keyset (task_position (task_sort q')) (TQSortAsc q')
              (task_cursor_position (task_sort q') <$> TQCursor q')
              (bfilter (task_where q') (tasks (db a)))) = Ok ts).
  { rewrite Ew, Eq. change (TQSortAsc q') with (TQSortAsc q). by rewrite Ea. }
  pose proof (page_spec calm q' a ts Hn Ht Hargs Ep) as E. simpl in E.
  unfold try_bind. change (TQFilter q') with (TQFilter q). rewrite Ef.
  erewrite (bind_ret _ _ a); [|by rewrite filter_ok]. cbv beta iota.
  erewrite (bind_ret _ _ a); [|exact E]. by rewrite Hd.
Qed.

(** One page of the API, with a cursor that stands at its last row when more rows follow. *)
Lemma api_page req cur a ts :
  asks req cur -> tx a = None -> db a = d ->
  map_res RestoreCrawlTaskFromSnapshot (beyond (task_cursor_position field <$> cur)) = Ok ts ->
  exists resp,
    API_ListTasksByJob req a = (Ret (Ok resp), set_db d (tick a))
    /\ RsTasks resp = take n ts /\ RsHasMore resp = bool_decide (n < length ts)%nat
    /\ ((n < length ts)%nat ->
        exists t, last (take n ts) = Some t
                  /\ asks (with_cursor (RsNextCursor resp) req)
                          (Some (next_task_cursor (task_query req cur) t))).
Proof.
  intros Hask Ht Hd Er. pose proof (asks_args _ _ Hask) as Hargs.
  destruct Hask as (Ej & Ef & El & Ec & Es & Ea & Hc).
  pose proof (service_page (task_query req cur) a ts Ej Ef El Es Ea Hargs Ht Hd Er) as E.
  simpl in E. unfold API_ListTasksByJob, try_bind.
  erewrite (bind_ret _ _ a); [|by rewrite Ec]. cbv beta iota.
  erewrite (bind_ret _ _ a); [|exact E]. cbv beta iota. simpl TRNextCursor. simpl TRTasks.
  case_bool_decide as Hlen.
  2: { eexists. split; [done|]. split; [done|]. split; [done|]. intros ?. done. }
  pose proof (default_limit_range _ limit_ok) as Hn.
  destruct (last (take n ts)) as [t|] eqn:Elast.
  2: { apply last_None in Elast. apply (f_equal length) in Elast. rewrite length_take in Elast.
       simpl in Elast. lia. }
  simpl. set (c := next_task_cursor (task_query req cur) t).
  assert (Hin : t ∈ ts).
  { eapply (subseteq_take (n)). by eapply last_Some_elem_of. }
  destruct (map_res_elem _ _ _ _ Er Hin) as (r & Hr & Et).
  destruct (next_cursor_ok _ r t Es (beyond_rows _ _ Hr) Et) as [Hok Hd8]. fold c in Hok, Hd8.
  destruct (decodeTaskCursor_encode c Hok) as (s & Ee & Edec).
  rewrite Ee. eexists. split; [done|]. split; [done|]. split; [done|]. intros _. exists t. split; [done|].
  unfold asks, request_cursor. simpl. rewrite bool_decide_eq_false_2 by (by eapply encoded_not_empty).
  rewrite Edec. repeat split; try done. simpl. by rewrite (field_sort _ Es).
Qed.

Hypothesis ids_distinct : NoDup (ts_ID <$> tasks d).

Lemma task_position_id f r : (task_position f r).2 = ts_ID r.
Proof. unfold task_position. by repeat case_bool_decide. Qed.

Lemma task_position_not_null f r : (task_position f r).1 <> KNull.
Proof. unfold task_position. by repeat case_bool_decide. Qed.

(** Following the cursors from the first page reads every row. *)
Lemma read_all req a ts fuel :
  asks req None -> map_res RestoreCrawlTaskFromSnapshot (beyond None) = Ok ts ->
  (length (bfilter wanted (tasks d)) < fuel)%nat -> tx a = None -> db a = d ->
  exists b, read_tasks fuel req a = (Ret (Ok ts), b) /\ db b = d.
Proof.
  intros Hask Er. pose proof (default_limit_range _ limit_ok) as Hn.
  apply (read_pages_all _ _ _ _ (task_position field) asc _ RestoreCrawlTaskFromSnapshot n d
           (fun rq p => exists cur, asks rq cur /\ p = task_cursor_position field <$> cur)).
  - lia.
  - erewrite list_fmap_ext; [|intros; apply task_position_id].
    eapply sublist_NoDup; [exact ids_distinct|]. apply fmap_sublist, sublist_filter.
  - apply Forall_forall. intros r _. apply task_position_not_null.
  - clear Er ts a. intros rq p a ts (cur & Hc & ->) Ht Hd Er.
    destruct (api_page _ _ _ _ Hc Ht Hd Er) as (resp & E & Eitems & Emore & Hnext).
    exists resp. split; [done|]. split; [done|]. split; [done|]. intros r Hlt Hr.
    destruct (Hnext Hlt) as (t & Et & Hask'). eexists. split; [exact Hask'|].
    pose proof (map_res_take _ n _ _ Er) as Etake.
    destruct (map_res_last _ _ _ _ Etake Hr) as (t' & Er' & Et').
    simpl. rewrite Et in Et'. injection Et' as <-. by rewrite (next_cursor_position _ r t).
  - by exists None.
  - done.
Qed.

End ReadTasks.

(** ** Properties *)

Section Properties.
Context `{Env, JsonLib}.

(** A first request with arguments the API accepts. *)
Definition first_request (req : ListTasksByJobRequest) : bool :=
  match RqCursor req with None => true | Some s => bool_decide (s = "") end
  && (0 <=? RqLimit req)
  && is_ok (task_filter_check (RqFilter req))
  && is_ok (int8_arg (FMinDepth (RqFilter req))) && is_ok (int8_arg (FMaxDepth (RqFilter req))).

Lemma is_ok_unit (r : res unit) : is_ok r = true -> r = Ok tt.
Proof. by destruct r as [[]|]. Qed.

(** C7: pages are complete.  While the database does not change and answers, a client that asks
    for the tasks of a job and follows [next_cursor] through the API, its base64 and its JSON, ends
    after at most as many requests as there are tasks plus one; it has then every task of the job
    that passes the filter, each exactly once, ordered by the requested column and the
    identifier in the requested direction, for every limit that is not negative (0 means 20, above 100
    means 100; a negative limit makes the handler panic or the statement fail, see
    [negative_limit_panics]).  The rows of the table must be ones that can be restored and written
    into a cursor ([task_row_ok]), and the request a first one, with a filter that is valid
    ([first_request]). *)
Theorem list_tasks_complete req a :
  (forall n, verdict_at n = Succeeds) ->
  tx a = None -> NoDup (ts_ID <$> tasks (db a)) ->
  forallb task_row_ok (tasks (db a)) = true -> first_request req = true ->
  let q := task_query req None in
  exists rows ts b,
    read_tasks (S (length (tasks (db a)))) req a = (Ret (Ok ts), b) /\ db b = db a
    /\ map_res RestoreCrawlTaskFromSnapshot rows = Ok ts
    /\ rows ≡ₚ filter (fun r => task_where q r = true) (tasks (db a))
    /\ StronglySorted
         (fun r s => directed (TQSortAsc q) pos_leb (task_position (TQSortField q) r)
                       (task_position (TQSortField q) s) = true) rows.
Proof.
  intros Hcalm Ht Hnd Hrows Hreq q. unfold first_request in Hreq.
  rewrite !andb_true_iff in Hreq. destruct Hreq as [[[[Hc Hl] Hf] Hmin] Hmax].
  apply Z.leb_le in Hl. apply is_ok_unit in Hf, Hmin, Hmax.
  set (wh := wanted (RqJobId req) (RqFilter req) (RqLimit req) (TQSortField q) (TQSortAsc q)).
  set (rows := beyond (RqJobId req) (RqFilter req) (RqLimit req) (TQSortField q) (TQSortAsc q)
                 (db a) None).
  assert (Hp : rows ≡ₚ bfilter wh (tasks (db a))) by apply keyset_all_perm.
  destruct (map_res_total RestoreCrawlTaskFromSnapshot rows) as (ts & Ets & _).
  { intros r Hr. destruct (row_restores r) as [t ->]; [|done].
    rewrite Hp in Hr. apply list_elem_of_filter in Hr as [_ Hr].
    apply forallb_Forall_true in Hrows. rewrite Forall_forall in Hrows. by apply Hrows. }
  assert (Hfield : TQSortField q = TaskSortByEnqueuedAt \/ TQSortField q = TaskSortByURL
                   \/ TQSortField q = TaskSortByStatus \/ TQSortField q = TaskSortByDepth).
  { unfold q, task_query. simpl. destruct (RqSortField req); simpl; tauto. }
  assert (Hlen : (length (bfilter wh (tasks (db a))) < S (length (tasks (db a))))%nat).
  { unfold bfilter. pose proof (length_filter (fun r => wh r = true) (tasks (db a))). lia. }
  assert (Hask : asks (RqJobId req) (RqFilter req) (RqLimit req) (TQSortField q) (TQSortAsc q)
                   req None).
  { unfold asks, request_cursor. destruct (RqCursor req) as [s|]; [rewrite Hc|]; done. }
  destruct (read_all Hcalm (RqJobId req) (RqFilter req) (RqLimit req) (TQSortField q)
    (TQSortAsc q) (db a) Hl Hf (conj Hmin Hmax) Hrows Hfield Hnd
    req a ts _ Hask Ets Hlen Ht eq_refl) as (b & E & Hb).
  exists rows, ts, b. split; [exact E|]. split; [done|]. split; [done|]. split; [exact Hp|].
  apply (order_by_sorted (task_position (TQSortField q)) (TQSortAsc q)).
Qed.

Lemma list_fails req a o b :
  request_cursor req = Ok None -> task_filter_check (RqFilter req) = Ok tt ->
  Task_ListWithCursor (with_limit (default_limit (RqLimit req)) (task_query req None)) a = (o, b) ->
  match o with
  | Panic m => API_ListTasksByJob req a = (Panic m, b)
  | Ret (Err e) => API_ListTasksByJob req a = (Ret (Err (Errorf "failed to list tasks" e)), b)
  | _ => True
  end.
Proof.
  intros Hc Hf E. destruct o as [[r|e]|m]; [done|..];
    unfold API_ListTasksByJob, ListTasksByJob, try_bind, lift_res, ret_err, mbind, M_bind, mret,
      M_ret;
    rewrite Hc; change (TQFilter (with_limit _ (task_query req None))) with (RqFilter req);
    rewrite Hf; simpl TQLimit; by rewrite E.
Qed.

(** Negative limits.  Limits are not checked from below.  A first request with limit -1 and
    otherwise valid arguments panics in the handler when the database answers; with a smaller limit
    it is an error of the database. *)
Theorem negative_limit_panics req a :
  (forall n, verdict_at n = Succeeds) -> tx a = None -> RqLimit req < 0 ->
  request_cursor req = Ok None -> task_args (task_query req None) = Ok tt ->
  task_filter_check (RqFilter req) = Ok tt -> - 2 ^ 31 <= RqLimit req ->
  (RqLimit req = -1 -> exists m b, API_ListTasksByJob req a = (Panic m, b))
  /\ (RqLimit req < -1 -> exists e b, API_ListTasksByJob req a = (Ret (Err e), b) /\ db b = db a).
Proof.
  intros Hcalm Ht Hl Hc Hargs Hf Hmin.
  assert (El : default_limit (RqLimit req) = RqLimit req).
  { unfold default_limit. destruct (RqLimit req =? 0) eqn:E; [lia|].
    by destruct (100 <? RqLimit req) eqn:E'; [lia|]. }
  set (q := with_limit (RqLimit req) (task_query req None)).
  assert (Hargs' : task_args q = Ok tt) by exact Hargs.
  pose proof (list_fails req a) as Hfail. rewrite El in Hfail. fold q in Hfail.
  destruct (Task_ListWithCursor q a) as [o b] eqn:E. specialize (Hfail o b Hc Hf eq_refl).
  unfold Task_ListWithCursor in E. change (TQLimit q) with (RqLimit req) in E. rewrite El in E.
  unfold try_bind, mbind, M_bind in E.
  split; intros Hlt.
  - rewrite (stmt_calm Hcalm _ a [] (db a) Ht) in E.
    + rewrite Hlt in E. simpl in E. injection E as <- <-. eauto.
    + unfold task_page. rewrite Hargs', Hlt. simpl. by rewrite limit_rows_take.
  - unfold stmt in E. simpl in E. rewrite Ht, Hcalm in E. unfold task_page in E.
    rewrite Hargs' in E. simpl in E. rewrite (limit_param_negative (RqLimit req + 1)) in E by lia.
    simpl in E. injection E as <- <-. eauto.
Qed.

End Properties.

(** ** A concrete listing *)

#[local] Existing Instances any_uuid plain_env plain_json.

Definition demo_listed : world :=
  world_of {| configs := []; jobs := []; outbox := []; users := []; tokens := []; previews := [];
    tasks := (fun p => {| ts_ID := p.1; ts_JobID := "j1"; ts_URL := "http://a.b/" +:+ p.1;
                          ts_FinalURL := None; ts_Status := TaskStatusInProgress;
                          ts_EnqueuedAt := 7; ts_Depth := p.2; ts_MinioObjectKey := "";
                          ts_ResultObjectKey := None; ts_ResultContentType := None;
                          ts_ResultSizeBytes := None; ts_ResultCreatedAt := None;
                          ts_ErrorMessage := None |})
             <$> [("t3", 1); ("t1", 2); ("t5", 1); ("t2", 0); ("t4", 1)] |}.

Definition demo_request : ListTasksByJobRequest :=
  {| RqJobId := "j1"; RqCursor := None; RqLimit := 2;
     RqFilter := {| FStatus := None; FURL := Some "A.B"; FMinDepth := Some 1; FMaxDepth := None;
                    FEnqueuedFrom := None; FEnqueuedTo := None |};
     RqSortField := TASK_SORT_FIELD_DEPTH; RqSortOrder := SORT_ORDER_DESC |}.

Example demo_pages :
  match (read_tasks 6 demo_request demo_listed).1 with
  | Ret (Ok ts) => (fun t => value (TID t)) <$> ts
  | _ => []
  end = ["t1"; "t5"; "t4"; "t3"].
Proof. vm_compute. reflexivity. Qed.

Lemma list_tasks_complete_witness :
  exists ts b, read_tasks 6 demo_request demo_listed = (Ret (Ok ts), b).
Proof.
  destruct (list_tasks_complete demo_request demo_listed) as (rows & ts & b & E & _).
  - intros n. reflexivity.
  - reflexivity.
  - apply (bool_decide_unpack _). vm_compute. exact I.
  - vm_compute. reflexivity.
  - vm_compute. reflexivity.
  - exists ts, b. exact E.
Defined.

Lemma negative_limit_panics_witness :
  let req := {| RqJobId := "j1"; RqCursor := None; RqLimit := -1;
                RqFilter := RqFilter demo_request; RqSortField := TASK_SORT_FIELD_DEPTH;
                RqSortOrder := SORT_ORDER_DESC |} in
  exists m b, API_ListTasksByJob req demo_listed = (Panic m, b).
Proof.
  intros req. destruct (negative_limit_panics req demo_listed) as [A _];
    try (vm_compute; first [reflexivity|congruence]).
  apply A. reflexivity.
Defined.
