(* ===== verification/GoFloat.v ===== *)
(** * Arithmetic of float64

    The operations Go and Lua compute on float64 are the exact ones, rounded to nearest
    ([GoNum.round64]).  Here: the rounding of a rational of any sign and a bound of its error. *)

From S2P Require Import Prelude GoStrings Converters GoNum.
From Stdlib Require Import Lqa Qabs Qround.
#[local] Open Scope Z_scope.

(** The float64 nearest to a rational; [None] is an infinity. *)
Definition fl (x : Q) : option Q :=
  if Qnum x <? 0 then Qopp <$> round64 (- Qnum x) (Zpos (Qden x))
  else round64 (Qnum x) (Zpos (Qden x)).

(** ** The error of the rounding *)

Lemma div_even_half n d : 0 < d -> 2 * Z.abs (d * div_even n d - n) <= d.
Proof.
  intros Hd. unfold div_even. pose proof (Z.div_mod n d ltac:(lia)) as E.
  pose proof (Z.mod_pos_bound n d Hd) as Hr. set (q := n / d) in *. set (r := n mod d) in *.
  destruct (2 * r <? d) eqn:E1; [nia|]. destruct (d <? 2 * r) eqn:E2; [nia|].
  destruct (Z.even q); nia.
Qed.

Definition pow2 (e : Z) : Q := if e <? 0 then 1 # Z.to_pos (2 ^ (- e)) else inject_Z (2 ^ e).

Lemma pow2_pos e : (0 < pow2 e)%Q.
Proof.
  unfold pow2. destruct (e <? 0) eqn:E; [done|].
  assert (0 < 2 ^ e) by (apply Z.pow_pos_nonneg; lia). unfold Qlt, inject_Z. simpl. lia.
Qed.

Definition scaled (num den e : Z) : Z * Z :=
  if e <? 0 then (num * 2 ^ (- e), den) else (num, den * 2 ^ e).

Lemma scaled_den num den e : 0 < den -> 0 < (scaled num den e).2.
Proof.
  intros Hd. unfold scaled. destruct (e <? 0) eqn:E; simpl; [done|].
  assert (0 < 2 ^ e) by (apply Z.pow_pos_nonneg; lia). nia.
Qed.

(** [num / den] in units of [2^e]. *)
Lemma scaled_value num den e :
  0 < den ->
  let p := scaled num den e in
  ((num # Z.to_pos den) == (p.1 # Z.to_pos p.2) * pow2 e)%Q.
Proof.
  intros Hd. unfold scaled, pow2. destruct (e <? 0) eqn:E; simpl.
  - assert (0 < 2 ^ (- e)) by (apply Z.pow_pos_nonneg; lia).
    unfold Qeq. simpl. rewrite Pos2Z.inj_mul, !Z2Pos.id by lia. ring.
  - assert (0 < 2 ^ e) by (apply Z.pow_pos_nonneg; lia).
    unfold Qeq, inject_Z. simpl. rewrite Pos.mul_1_r, !Z2Pos.id by nia. ring.
Qed.

(** The exponent [round64] chooses. *)
Definition float_exponent (num den : Z) : Z :=
  let floor e := let '(n, d) := scaled num den e in n / d in
  let e0 := Z.log2 num - Z.log2 den - 52 in
  if floor e0 <? 2 ^ 52 then e0 - 1 else if 2 ^ 53 <=? floor e0 then e0 + 1 else e0.

Lemma log2_bounds n : 0 < n -> 2 ^ Z.log2 n <= n < 2 * 2 ^ Z.log2 n.
Proof.
  intros Hn. pose proof (Z.log2_spec n Hn) as H. pose proof (Z.log2_nonneg n).
  rewrite Z.pow_succ_r in H by done. done.
Qed.

Lemma scaled_succ num den e :
  (scaled num den e).1 * (scaled num den (e + 1)).2
  = 2 * (scaled num den (e + 1)).1 * (scaled num den e).2.
Proof.
  unfold scaled. destruct (e <? 0) eqn:E.
  - destruct (e + 1 <? 0) eqn:E'; simpl.
    + replace (- e) with (Z.succ (- (e + 1))) by lia. rewrite Z.pow_succ_r by lia. ring.
    + assert (e = -1) as -> by lia. change (2 ^ (- -1)) with 2. change (2 ^ (-1 + 1)) with 1. ring.
  - destruct (e + 1 <? 0) eqn:E'; [lia|]. simpl. rewrite Z.pow_add_r by lia.
    change (2 ^ 1) with 2. ring.
Qed.

Lemma scaled_start num den :
  0 < num -> 0 < den ->
  let p := scaled num den (Z.log2 num - Z.log2 den - 52) in 2 ^ 51 * p.2 <= p.1.
Proof.
  intros Hn Hd. pose proof (log2_bounds num Hn) as [Ha _]. pose proof (log2_bounds den Hd) as [_ Hb].
  pose proof (Z.log2_nonneg num). pose proof (Z.log2_nonneg den).
  set (a := Z.log2 num) in *. set (b := Z.log2 den) in *. unfold scaled.
  destruct (a - b - 52 <? 0) eqn:E; simpl.
  - replace (- (a - b - 52)) with (52 + b - a) by lia.
    assert (E2 : 2 ^ a * 2 ^ (52 + b - a) = 2 ^ 52 * 2 ^ b).
    { rewrite <- !Z.pow_add_r by lia. f_equal. lia. }
    assert (0 < 2 ^ (52 + b - a)) by (apply Z.pow_pos_nonneg; lia).
    change (2 ^ 51) with 2251799813685248 in *. change (2 ^ 52) with 4503599627370496 in *. nia.
  - assert (E2 : 2 ^ a = 2 ^ 52 * 2 ^ b * 2 ^ (a - b - 52)).
    { rewrite <- !Z.pow_add_r by lia. f_equal. lia. }
    assert (0 < 2 ^ (a - b - 52)) by (apply Z.pow_pos_nonneg; lia).
    change (2 ^ 51) with 2251799813685248 in *. change (2 ^ 52) with 4503599627370496 in *. nia.
Qed.

(** At the exponent chosen the significand has at least 53 bits. *)
Lemma float_exponent_spec num den :
  0 < num -> 0 < den ->
  let p := scaled num den (float_exponent num den) in 2 ^ 52 * p.2 <= p.1.
Proof.
  intros Hn Hd. unfold float_exponent.
  set (e0 := Z.log2 num - Z.log2 den - 52).
  pose proof (scaled_start num den Hn Hd) as Hs. fold e0 in Hs. simpl in Hs.
  pose proof (scaled_den num den e0 Hd) as Hd0.
  change (2 ^ 51) with 2251799813685248 in *. change (2 ^ 53) with 9007199254740992.
  change (2 ^ 52) with 4503599627370496.
  destruct (scaled num den e0) as [n0 d0] eqn:E0. simpl in Hs, Hd0.
  destruct (n0 / d0 <? 4503599627370496) eqn:E1.
  - pose proof (scaled_succ num den (e0 - 1)) as S. replace (e0 - 1 + 1) with e0 in S by lia.
    rewrite E0 in S. simpl in S. pose proof (scaled_den num den (e0 - 1) Hd). simpl. nia.
  - assert (4503599627370496 * d0 <= n0).
    { apply Z.ltb_ge in E1. pose proof (Z.mul_div_le n0 d0 Hd0). nia. }
    destruct (9007199254740992 <=? n0 / d0) eqn:E2.
    + pose proof (scaled_succ num den e0) as S. rewrite E0 in S. simpl in S.
      pose proof (scaled_den num den (e0 + 1) Hd).
      assert (9007199254740992 * d0 <= n0).
      { apply Z.leb_le in E2. pose proof (Z.mul_div_le n0 d0 Hd0). nia. }
      simpl. nia.
    + rewrite E0. done.
Qed.

Lemma round64_eq num den :
  round64 num den
  = if num <=? 0 then Some 0%Q
    else
      let e := Z.max (float_exponent num den) (-1074) in
      let m := let '(n, d) := scaled num den e in div_even n d in
      if (0 <? e) && (2 ^ 1024 <=? m * 2 ^ e) then None
      else Some (Qred (if e <? 0 then m # Z.to_pos (2 ^ (- e)) else inject_Z (m * 2 ^ e))).
Proof. done. Qed.

Definition ulp_small : Q := (1 # 2) * pow2 (-1074).
Definition ulp_half : Q := 1 # 9007199254740992.

(** Nearest: the error is at most half a unit in the last place. *)
Lemma round64_error num den q :
  0 < num -> 0 < den -> round64 num den = Some q ->
  let x := (num # Z.to_pos den)%Q in
  (0 <= q /\ q <= x + x * ulp_half + ulp_small /\ x <= q + x * ulp_half + ulp_small)%Q.
Proof.
  intros Hn Hd. rewrite round64_eq. destruct (num <=? 0) eqn:E0; [lia|]. cbv zeta.
  set (e := Z.max (float_exponent num den) (-1074)).
  destruct (scaled num den e) as [n d] eqn:Es.
  pose proof (scaled_den num den e Hd) as Hd'. rewrite Es in Hd'. simpl in Hd'.
  pose proof (scaled_value num den e Hd) as Hx. rewrite Es in Hx. simpl in Hx.
  pose proof (div_even_half n d Hd') as Hm. set (m := div_even n d) in *.
  destruct ((0 <? e) && _); [done|]. intros [= <-].
  set (x := (num # Z.to_pos den)%Q) in *. rewrite Qred_correct.
  assert (Hq : ((if e <? 0 then m # Z.to_pos (2 ^ (- e)) else inject_Z (m * 2 ^ e))
                == inject_Z m * pow2 e)%Q).
  { unfold pow2. destruct (e <? 0); [|by rewrite inject_Z_mult].
    unfold Qeq. cbn [Qnum Qden Qmult inject_Z]. rewrite Pos.mul_1_l. ring. }
  rewrite Hq. clear Hq. pose proof (pow2_pos e) as Hp.
  assert (Hy : (inject_Z m - (1 # 2) <= n # Z.to_pos d /\ n # Z.to_pos d <= inject_Z m + (1 # 2))%Q).
  { unfold Qle. simpl. rewrite !Pos2Z.inj_mul, !Z2Pos.id by lia. lia. }
  set (y := (n # Z.to_pos d)%Q) in *.
  assert (Hn0 : 0 <= n).
  { unfold scaled in Es. destruct (e <? 0); injection Es as <- <-; [|lia].
    assert (0 <= 2 ^ (- e)) by (apply Z.pow_nonneg; lia). nia. }
  assert (Hm0 : 0 <= m) by nia.
  assert (Hsmall : (pow2 e * (1 # 2) <= x * ulp_half + ulp_small)%Q).
  { assert (Hx0 : (0 <= x)%Q) by (unfold x, Qle; simpl; lia).
    assert (0 < ulp_small)%Q by (unfold ulp_small; pose proof (pow2_pos (-1074)); lra).
    destruct (Z.max_spec (float_exponent num den) (-1074)) as [[_ E]|[_ E]].
    - replace e with (-1074) by done. unfold ulp_small, ulp_half. lra.
    - pose proof (float_exponent_spec num den Hn Hd) as F. rewrite <- E in F. fold e in F.
      rewrite Es in F. simpl in F.
      assert (Hy2 : (inject_Z 4503599627370496 <= y)%Q).
      { unfold y, Qle. simpl. rewrite Z2Pos.id by lia. lia. }
      rewrite Hx. unfold ulp_half.
      assert ((inject_Z 4503599627370496 * pow2 e <= y * pow2 e)%Q).
      { apply Qmult_le_compat_r; [done|lra]. }
      unfold inject_Z in *. lra. }
  assert (A1 : ((inject_Z m - (1 # 2)) * pow2 e <= y * pow2 e)%Q)
    by (apply Qmult_le_compat_r; [apply Hy|lra]).
  assert (A2 : (y * pow2 e <= (inject_Z m + (1 # 2)) * pow2 e)%Q)
    by (apply Qmult_le_compat_r; [apply Hy|lra]).
  split; [|split]; [|lra..].
  apply Qmult_le_0_compat; [unfold Qle; simpl; lia|lra].
Qed.

Lemma ulp_small_tiny : (0 < ulp_small /\ ulp_small <= 1 # 1152921504606846976)%Q.
Proof. split; vm_compute; congruence. Qed.

(** Non-negative operands give non-negative results, up to the error. *)
Lemma fl_error x q :
  (0 <= x)%Q -> fl x = Some q ->
  (0 <= q /\ q <= x + x * ulp_half + ulp_small /\ x <= q + x * ulp_half + ulp_small)%Q.
Proof.
  intros Hx. unfold fl. destruct x as [n d]. simpl.
  assert (Hn : 0 <= n) by (unfold Qle in Hx; simpl in Hx; lia).
  destruct (n <? 0) eqn:E; [lia|]. destruct (Z.eq_dec n 0) as [->|Hnz].
  - intros [= <-]. pose proof ulp_small_tiny as [Hs _].
    replace (0 # d)%Q with (0 # d)%Q by done.
    assert (E0 : (0 # d == 0)%Q) by done. rewrite !E0. lra.
  - intros Hr. apply (round64_error n (Zpos d) q ltac:(lia) ltac:(lia) Hr).
Qed.

(** A result that is infinite stands for a number beyond 2^1000. *)
Lemma fl_overflow x : (0 <= x)%Q -> fl x = None -> (inject_Z (2 ^ 1000) <= x)%Q.
Proof.
  intros Hx. unfold fl. destruct x as [n d]. simpl.
  assert (Hn : 0 <= n) by (unfold Qle in Hx; simpl in Hx; lia).
  destruct (n <? 0) eqn:E; [lia|]. rewrite round64_eq. destruct (n <=? 0) eqn:E0; [done|].
  cbv zeta. set (e := Z.max (float_exponent n (Zpos d)) (-1074)).
  pose proof (scaled_den n (Zpos d) e ltac:(lia)) as Hd'.
  pose proof (scaled_value n (Zpos d) e ltac:(lia)) as Hv. simpl in Hv.
  destruct (scaled n (Zpos d) e) as [n' d'] eqn:Es. simpl in Hd', Hv.
  pose proof (div_even_half n' d' Hd') as Hm. set (m := div_even n' d') in *.
  destruct ((0 <? e) && (2 ^ 1024 <=? m * 2 ^ e)) eqn:Eo; [|done].
  intros _. apply andb_true_iff in Eo as [He Hbig]. rewrite Hv.
  assert (Hp : pow2 e = inject_Z (2 ^ e)) by (unfold pow2; by destruct (e <? 0) eqn:Ee; [lia|]).
  rewrite Hp. assert (Hpe : 0 < 2 ^ e) by (apply Z.pow_pos_nonneg; lia).
  apply Z.leb_le in Hbig. change (2 ^ 1024) with (2 ^ 24 * 2 ^ 1000) in Hbig.
  assert (Hm1 : 1 <= m) by nia.
  unfold Qle. simpl. rewrite Pos.mul_1_r, Z2Pos.id by lia.
  assert (d' * m <= 2 * n') by nia.
  assert (0 < 2 ^ 1000) by done. set (K := 2 ^ 1000) in *. clearbody K.
  assert (2 * K <= m * 2 ^ e) by nia.
  assert (d' * (m * 2 ^ e) <= 2 * (n' * 2 ^ e)) by nia. nia.
Qed.

(** ** The operations, on finite operands and positive infinity *)

Definition fadd (a b : option Q) : option Q :=
  match a, b with Some x, Some y => fl (x + y) | _, _ => None end.
Definition fmul (a b : option Q) : option Q :=
  match a, b with Some x, Some y => fl (x * y) | _, _ => None end.
Definition fdiv (a : option Q) (b : Q) : option Q :=
  match a with Some x => fl (x / b) | None => None end.
Definition fmin (a : Q) (b : option Q) : Q :=
  match b with Some y => if Qle_bool a y then a else y | None => a end.

(** [time.Duration.Seconds]: whole seconds and the fraction, each exact, added. *)
Definition duration_Seconds (d : Z) : option Q :=
  fadd (Some (inject_Z (Z.quot d Second))) (fl (Z.rem d Second # 1000000000)).

(** [time.Duration(f) * time.Millisecond] for a float64 [f]. *)
Definition duration_of_ms (f : option Q) : Z :=
  wraps 64 (match f with Some q => int_of_float q | None => int64_min end * Millisecond).
