(* ===== verification/GoDuration.v ===== *)
(** * Go's [time.ParseDuration] *)

From S2P Require Import Prelude GoStrings Domain Json Converters GoUrl GoNum GoFloat.

(** [unitMap], in nanoseconds; both spellings of the micro sign. *)
Definition micro (a b : nat) : string :=
  of_bytes [ascii_of_nat a; ascii_of_nat b; "s"%char].
Definition unitMap : list (string * Z) :=
  [("ns", 1); ("us", 1000); (micro 194 181, 1000); (micro 206 188, 1000);
   ("ms", Millisecond); ("s", Second); ("m", Minute); ("h", Hour)].
Definition unit_value (u : string) : option Z :=
  snd <$> head (filter (fun p => p.1 = u) unitMap).

Definition invalid_duration (what orig : string) : gerror :=
  ENew ("time: " +:+ what +:+ " duration " +:+ orig).

(** [leadingFraction]: the digits that fit and their scale; the rest is skipped. *)
Fixpoint leading_fraction (x scale : Z) (overflow : bool) (l : chars) : Z * Z :=
  match l with
  | [] => (x, scale)
  | c :: l =>
      let y := x * 10 + Z.of_nat (code c - 48) in
      if overflow || ((2 ^ 63 - 1) / 10 <? x) || (2 ^ 63 <? y)
      then leading_fraction x scale true l
      else leading_fraction y (scale * 10) false l
  end.

(** [uint64(float64(f) * (float64(unit) / scale))]. *)
Definition fraction_value (f unit scale : Z) : Z :=
  match fmul (fl (inject_Z f)) (fdiv (Some (inject_Z unit)) (inject_Z scale)) with
  | Some q => Qnum q / Zpos (Qden q)
  | None => 0
  end.

Definition unit_char (c : ascii) : bool := negb (Ascii.eqb c "."%char) && negb (is_digit c).

(** The characters before the first that is not of the class. *)
Fixpoint take_while (p : ascii -> bool) (l : chars) : chars * chars :=
  match l with
  | c :: l' => if p c then let '(a, b) := take_while p l' in (c :: a, b) else ([], l)
  | [] => ([], [])
  end.

(** One number with its unit; the rest of the text. *)
Definition duration_part (orig : string) (l : chars) : res (Z * chars) :=
  let '(ds, l) := take_while is_digit l in
  let v := digits_value 0 ds in
  if 2 ^ 63 <? v then Err (invalid_duration "invalid" orig)
  else
    let '(fs, l) := match l with
                    | c :: l' => if Ascii.eqb c "."%char then take_while is_digit l' else ([], l)
                    | [] => ([], [])
                    end in
    let '(f, scale) := leading_fraction 0 1 false fs in
    if bool_decide (ds = []) && bool_decide (fs = []) then Err (invalid_duration "invalid" orig)
    else
      let '(u, l) := take_while unit_char l in
      if bool_decide (u = []) then Err (invalid_duration "missing unit in" orig)
      else
        match unit_value (of_bytes u) with
        | None => Err (invalid_duration "unknown unit in" orig)
        | Some unit =>
            if 2 ^ 63 / unit <? v then Err (invalid_duration "invalid" orig)
            else
              let v := v * unit + (if 0 <? f then fraction_value f unit scale else 0) in
              if 2 ^ 63 <? v then Err (invalid_duration "invalid" orig) else Ok (v, l)
        end.

(** Every part takes a character, so that the length of the text is enough. *)
Fixpoint duration_parts (fuel : nat) (orig : string) (d : Z) (l : chars) : res Z :=
  match l, fuel with
  | [], _ => Ok d
  | _, O => Err (invalid_duration "invalid" orig)
  | _, S fuel =>
      '(v, l) ← duration_part orig l;
      let d := wrapu 64 (d + v) in
      if 2 ^ 63 <? d then Err (invalid_duration "invalid" orig) else duration_parts fuel orig d l
  end.

Definition ParseDuration (s : string) : res Z :=
  let '(neg, l) := split_sign (bytes_of s) in
  if bool_decide (l = ["0"%char]) then Ok 0
  else if bool_decide (l = []) then Err (invalid_duration "invalid" s)
  else
    d ← duration_parts (length l) s 0 l;
    if neg then Ok (- d)
    else if int64_max <? d then Err (invalid_duration "invalid" s) else Ok d.

(** ** What it reads *)

Example duration_minutes : ParseDuration "15m" = Ok (15 * Minute).
Proof. vm_compute. reflexivity. Qed.
Example duration_mixed : ParseDuration "-1h2.5s" = Ok (- (Hour + 2 * Second + 500 * Millisecond)).
Proof. vm_compute. reflexivity. Qed.
Example duration_needs_unit : is_ok (ParseDuration "15") = false.
Proof. vm_compute. reflexivity. Qed.

Lemma take_while_length p l a b : take_while p l = (a, b) -> (length l = length a + length b)%nat.
Proof.
  revert a. induction l as [|c l IH]; intros a; simpl; [intros [= <- <-]; done|].
  destruct (p c); [|by intros [= <- <-]].
  destruct (take_while p l) as [a' b'] eqn:E. intros [= <- <-]. simpl. by rewrite (IH a' eq_refl).
Qed.

(** A part is not empty. *)
Lemma duration_part_shorter orig l v l' :
  duration_part orig l = Ok (v, l') -> (length l' < length l)%nat.
Proof.
  unfold duration_part. destruct (take_while is_digit l) as [ds l1] eqn:E1.
  apply take_while_length in E1. destruct (2 ^ 63 <? _); [done|].
  set (p := match l1 with [] => _ | _ => _ end). assert (Hp : (length p.2 <= length l1)%nat).
  { subst p. destruct l1 as [|c l1]; [done|]. destruct (Ascii.eqb c "."%char); [|done].
    destruct (take_while is_digit l1) as [fs l2] eqn:E2. apply take_while_length in E2. simpl. lia. }
  destruct p as [fs l2]. simpl in Hp. destruct (leading_fraction 0 1 false fs) as [f scale].
  destruct (bool_decide (ds = []) && _); [done|].
  destruct (take_while unit_char l2) as [u l3] eqn:E3. apply take_while_length in E3.
  case_bool_decide as Hu; [done|]. destruct (unit_value (of_bytes u)) as [unit|]; [|done].
  destruct (2 ^ 63 / unit <? _); [done|]. destruct (2 ^ 63 <? _); [done|]. intros [= <- <-].
  destruct u; [done|]. simpl in E3. lia.
Qed.

(** The fuel does not change the answer once it is the length of the text. *)
Lemma duration_parts_fuel orig n : forall m d l,
  (length l <= n)%nat -> (length l <= m)%nat -> duration_parts n orig d l = duration_parts m orig d l.
Proof.
  induction n as [|n IH]; intros m d l Hn Hm; (destruct l as [|c l]; [by destruct m|]); [simpl in Hn; lia|].
  destruct m as [|m]; [simpl in Hm; lia|]. cbn [duration_parts].
  destruct (duration_part orig (c :: l)) as [[v l']|e] eqn:E; [|done]. simpl.
  apply duration_part_shorter in E. simpl in *. destruct (2 ^ 63 <? wrapu 64 (d + v)); [done|]. apply IH; lia.
Qed.
