(* ===== verification/RateLimiter.v ===== *)
(** * Rate limiters

    [infra/cache/inmemory_rate_limiter.go] and [infra/cache/redis_rate_limiter.go] with its Lua
    script: two token buckets on float64 behind [services.RateLimiter].  Both refine one abstract
    bucket ([TokenBucket]) with exact arithmetic, whose bound on the requests let through in any
    window they inherit. *)

From S2P Require Import Prelude GoStrings Domain Json Converters World GoNum GoFloat.
From Stdlib Require Import Lqa Qabs Qround.
#[local] Open Scope Z_scope.

(** [math.Max(1, math.Ceil(rps))]: the burst. *)
Definition capacity (rps : Q) : Q := inject_Z (Z.max 1 (Qceiling rps)).

Definition rate_key (cfg : CrawlJobConfig) (scope id : string) : string :=
  "rl:rps:" +:+ value (CfgID cfg) +:+ ":" +:+ scope +:+ ":" +:+ id.

(** [math.Ceil((tokensNeeded / rps) * 1000)]. *)
Definition retry_ms (tokens rps : Q) : option Q :=
  match fmul (fdiv (fl (1 - tokens)) rps) (Some 1000%Q) with
  | Some q => Some (inject_Z (Qceiling q))
  | None => None
  end.

Definition at_least_one (ms : option Q) : option Q :=
  match ms with Some q => Some (if Qle_bool 1 q then q else 1%Q) | None => None end.

(** Values that are not infinite: what remains of a bucket after a request. *)
Definition spend (tokens : Q) : Q := match fl (tokens - 1) with Some q => q | None => tokens end.

(** ** inmemory_rate_limiter.go *)

Module InMemory.

Record rateLimitBucket := { tokens : Q; lastRefillAt : Z; lastSeenAt : Z }.
Record InMemoryRateLimiter := { buckets : gmap string rateLimitBucket; ttl : Z }.

Definition NewInMemoryRateLimiter (ttl : Z) : InMemoryRateLimiter :=
  {| buckets := ∅; ttl := if ttl =? 0 then 5 * Minute else ttl |}.

Definition cleanupExpiredLocked (now : Z) (r : InMemoryRateLimiter) : InMemoryRateLimiter :=
  if ttl r <=? 0 then r
  else {| buckets := filter (fun kb => negb (ttl r <? time_Sub now (lastSeenAt kb.2)) = true)
                       (buckets r);
          ttl := ttl r |}.

(** The refill of a bucket. *)
Definition refill (rps : Q) (now : Z) (b : rateLimitBucket) : rateLimitBucket :=
  let elapsedSec := duration_Seconds (time_Sub now (lastRefillAt b)) in
  if match elapsedSec with Some e => Qle_bool e 0 | None => false end then b
  else {| tokens := fmin (capacity rps)
                      (fadd (Some (tokens b)) (fmul elapsedSec (Some rps)));
          lastRefillAt := now; lastSeenAt := lastSeenAt b |}.

Definition fresh (rps : Q) (now : Z) : rateLimitBucket :=
  {| tokens := capacity rps; lastRefillAt := now; lastSeenAt := now |}.

(** One request on a bucket: whether it is allowed, [retryAfter] and the bucket left. *)
Definition take_token (rps : Q) (now : Z) (b : rateLimitBucket) : bool * Z * rateLimitBucket :=
  let b := refill rps now b in
  if Qle_bool 1 (tokens b) then
    (true, 0, {| tokens := spend (tokens b); lastRefillAt := lastRefillAt b; lastSeenAt := now |})
  else
    (false, duration_of_ms (at_least_one (retry_ms (tokens b) rps)),
     {| tokens := tokens b; lastRefillAt := lastRefillAt b; lastSeenAt := now |}).

(** [ctxErr] is [ctx.Err()]. *)
Definition Allow (ctxErr : option gerror) (cfg : CrawlJobConfig) (scope id : string) (now : Z)
    (r : InMemoryRateLimiter) : res (bool * Z) * InMemoryRateLimiter :=
  match ctxErr with
  | Some e => (Err e, r)
  | None =>
      let rps := Rps (RateLimit cfg) in
      if Qle_bool rps 0 then (Ok (true, 0), r)
      else
        let key := rate_key cfg scope id in
        let r := cleanupExpiredLocked now r in
        let b := default (fresh rps now) (buckets r !! key) in
        let '(allowed, retryAfter, b) := take_token rps now b in
        (Ok (allowed, retryAfter), {| buckets := <[key := b]> (buckets r); ttl := ttl r |})
  end.

End InMemory.

(** ** redis_rate_limiter.go *)

Module Redis.

(** The hash of a key with its expiry, in milliseconds of the server's clock. *)
Record entry := { tokens : Q; ts : Z; expires : Z }.

Record RedisRateLimiter := { ttl : Z }.
Definition NewRedisRateLimiter (ttl : Z) : RedisRateLimiter :=
  {| ttl := if ttl =? 0 then 5 * Minute else ttl |}.

(** [TIME] answers seconds and microseconds. *)
Definition now_ms (now_sec now_usec : Z) : Z :=
  now_sec * 1000 + match fl (now_usec # 1000) with Some q => Qfloor q | None => 0 end.

(** What HGET finds. *)
Definition live (now : Z) (key : string) (s : gmap string entry) : option entry :=
  match s !! key with Some e => if expires e <? now then None else Some e | None => None end.

(** The Lua script: [allowed], [new_tokens], [retry_after_ms] and the store left. *)
Definition rateLimitLuaScript (key : string) (refill_per_sec : Q) (ttl_ms now : Z)
    (s : gmap string entry) : Z * Q * option Q * gmap string entry :=
  let cap := capacity refill_per_sec in
  let '(current_tokens, last_refill_ms) :=
    match live now key s with Some e => (tokens e, ts e) | None => (cap, now) end in
  let elapsed_sec := fl (now - last_refill_ms # 1000) in
  let new_tokens := fmin cap (fadd (Some current_tokens) (fmul elapsed_sec (Some refill_per_sec))) in
  let '(allowed, rest, retry) :=
    if Qle_bool 1 new_tokens then (1, spend new_tokens, Some 0%Q)
    else (0, new_tokens, retry_ms new_tokens refill_per_sec) in
  let s := <[key := {| tokens := rest; ts := now; expires := now + ttl_ms |}]> s in
  (allowed, rest, retry, if ttl_ms <=? 0 then delete key s else s).

(** [Allow]; the script runs on the server or the call fails ([verdict]). *)
Definition Allow (v : verdict) (r : RedisRateLimiter) (cfg : CrawlJobConfig) (scope id : string)
    (now : Z) (s : gmap string entry) : res (bool * Z) * gmap string entry :=
  let rps := Rps (RateLimit cfg) in
  if Qle_bool rps 0 then (Ok (true, 0), s)
  else
    let key := rate_key cfg scope id in
    let '(allowedInt, _, retryAfterMs, s') :=
      rateLimitLuaScript key rps (Z.quot (ttl r) Millisecond) now s in
    match v with
    | Succeeds => (Ok (bool_decide (allowedInt = 1), duration_of_ms retryAfterMs), s')
    | FailsBefore e => (Err (Errorf "failed to execute rate limit script" e), s)
    | FailsAfter e => (Err (Errorf "failed to execute rate limit script" e), s')
    end.

End Redis.

(** ** Amounts cut at a capacity *)

Definition cut (cap x : Q) : Q := if Qle_bool cap x then cap else x.

Lemma cut_cases cap x : (cap <= x /\ cut cap x = cap)%Q \/ (x < cap /\ cut cap x = x)%Q.
Proof.
  unfold cut. destruct (Qle_bool cap x) eqn:E; [left; split; [by apply Qle_bool_iff|done]|].
  right. split; [|done]. apply Qnot_le_lt. intros H. apply Qle_bool_iff in H. congruence.
Qed.

Lemma cut_cap cap x : (cut cap x <= cap)%Q.
Proof. destruct (cut_cases cap x) as [[? ->]|[? ->]]; lra. Qed.

Lemma cut_le cap x : (cut cap x <= x)%Q.
Proof. destruct (cut_cases cap x) as [[? ->]|[? ->]]; lra. Qed.

Lemma cut_mono cap x y : (x <= y -> cut cap x <= cut cap y)%Q.
Proof.
  intros H. destruct (cut_cases cap x) as [[? ->]|[? ->]], (cut_cases cap y) as [[? ->]|[? ->]]; lra.
Qed.

Lemma cut_eq cap x y : (x == y -> cut cap x == cut cap y)%Q.
Proof.
  intros H. destruct (cut_cases cap x) as [[? ->]|[? ->]], (cut_cases cap y) as [[? ->]|[? ->]]; lra.
Qed.

Lemma cut_full cap x : (cap <= x -> cut cap x == cap)%Q.
Proof. intros H. destruct (cut_cases cap x) as [[? ->]|[? ->]]; lra. Qed.

(** ** The abstract bucket

    A level and the time it was taken; a request at [now] finds the level refilled at [rate] per unit
    of time, cut at [cap].  It is let through when a token is there, and then takes it; it is refused
    only when there is less than one, and then takes none.  [slack] allows for rounding, on both
    sides. *)

Module TokenBucket.
Section Spec.
Context (cap rate slack : Q).

Record level := { amount : Q; since : Z }.

Definition refilled (l : level) (now : Z) : Q :=
  cut cap (amount l + rate * inject_Z (now - since l)).

Definition cost (allowed : bool) : Q := if allowed then 1%Q else 0%Q.

Definition step (l : level) (request : Z * bool) (l' : level) : Prop :=
  since l <= request.1 /\ since l' = request.1 /\ (0 <= amount l')%Q
  /\ (amount l' + cost request.2 <= refilled l request.1 + slack)%Q
  /\ (refilled l request.1 <= amount l' + cost request.2 + slack)%Q
  /\ (request.2 = false -> refilled l request.1 < 1 + slack)%Q.

Inductive run : level -> list (Z * bool) -> level -> Prop :=
| run_nil l : run l [] l
| run_cons l r l1 rs l2 : step l r l1 -> run l1 rs l2 -> run l (r :: rs) l2.

Definition allowed_count (rs : list (Z * bool)) : Z := Z.of_nat (length (filter (fun r => r.2 = true) rs)).

Lemma refilled_cap l now : (refilled l now <= cap)%Q.
Proof. apply cut_cap. Qed.

Lemma refilled_le l now : (refilled l now <= amount l + rate * inject_Z (now - since l))%Q.
Proof. apply cut_le. Qed.

Lemma allowed_count_cons r rs :
  inject_Z (allowed_count (r :: rs)) == (cost r.2 + inject_Z (allowed_count rs))%Q.
Proof.
  unfold allowed_count. rewrite filter_cons. destruct r as [t []]; simpl.
  - rewrite Nat2Z.inj_succ. unfold Z.succ. rewrite inject_Z_plus. unfold cost. simpl. ring.
  - unfold cost. ring.
Qed.

(** After its first request a bucket lets through what its level and the refill allow. *)
Lemma run_bound l rs l' :
  run l rs l' ->
  (inject_Z (allowed_count rs) + amount l'
   <= amount l + rate * inject_Z (since l' - since l) + inject_Z (Z.of_nat (length rs)) * slack)%Q.
Proof.
  induction 1 as [l|l r l1 rs l2 (Ht & Ht1 & _ & Hs & _) _ IH].
  - replace (since l - since l) with 0 by lia. change (allowed_count []) with 0.
    change (inject_Z (Z.of_nat (length []))) with 0%Q. change (inject_Z 0) with 0%Q. lra.
  - rewrite allowed_count_cons. pose proof (refilled_le l r.1) as Hr. rewrite Ht1 in IH.
    simpl length. rewrite Nat2Z.inj_succ. unfold Z.succ. rewrite inject_Z_plus.
    replace (since l2 - since l) with ((since l2 - r.1) + (r.1 - since l)) by lia.
    rewrite inject_Z_plus. change (inject_Z 1) with 1%Q. lra.
Qed.

Lemma run_nonneg l rs l' : run l rs l' -> (0 <= amount l)%Q -> (0 <= amount l')%Q.
Proof. induction 1 as [|? ? ? ? ? (_ & _ & H & _)]; auto. Qed.

(** A window: the requests from the first one on. *)
Lemma window_bound l r rs l' :
  run l (r :: rs) l' ->
  (inject_Z (allowed_count (r :: rs))
   <= cap + rate * inject_Z (since l' - r.1) + inject_Z (Z.of_nat (S (length rs))) * slack)%Q.
Proof.
  inversion 1 as [|? ? l1 ? ? (Ht & Ht1 & Hn & Hs & _) Hrun]; subst.
  apply run_bound in Hrun as Hb. rewrite allowed_count_cons.
  pose proof (run_nonneg _ _ _ Hrun Hn) as Hl.
  pose proof (refilled_cap l r.1) as Hc. rewrite Ht1 in Hb.
  rewrite Nat2Z.inj_succ. unfold Z.succ. rewrite inject_Z_plus. change (inject_Z 1) with 1%Q. lra.
Qed.

End Spec.
End TokenBucket.

(** ** Rounding in a bucket *)

Section Rounding.
#[local] Open Scope Q_scope.

Definition rounding (cap : Q) : Q := cap * (1 # 562949953421312).

Lemma capacity_spec rps : 0 < rps -> rps <= capacity rps /\ 1 <= capacity rps.
Proof.
  intros _. unfold capacity. pose proof (Qle_ceiling rps) as H. split.
  - eapply Qle_trans; [exact H|]. rewrite <- Zle_Qle. lia.
  - change 1 with (inject_Z 1). rewrite <- Zle_Qle. lia.
Qed.

Lemma fl_add_error x y q :
  0 <= x -> 0 <= y -> fl (x + y) = Some q ->
  0 <= q /\ q <= (x + y) + (x + y) * ulp_half + ulp_small
  /\ x + y <= q + (x + y) * ulp_half + ulp_small.
Proof. intros Hx Hy. apply fl_error. lra. Qed.

Lemma inject_nonneg z : (0 <= z)%Z -> 0 <= inject_Z z.
Proof. intros H. change 0 with (inject_Z 0). by rewrite <- Zle_Qle. Qed.

Lemma duration_split d : (d # 1000000000) == inject_Z (d ÷ Second) + (Z.rem d Second # 1000000000).
Proof.
  pose proof (Z.quot_rem' d Second) as E. unfold Qeq. cbn -[Z.quot Z.rem]. unfold Second, Millisecond in *.
  lia.
Qed.

(** The seconds of a duration are exact up to rounding. *)
Lemma seconds_bound d el :
  (0 <= d)%Z -> duration_Seconds d = Some el ->
  let x := d # 1000000000 in
  0 <= el /\ el <= x + x * (4 * ulp_half) + 4 * ulp_small
  /\ x <= el + x * (4 * ulp_half) + 4 * ulp_small /\ ((0 < d)%Z -> 0 < el).
Proof.
  intros Hd E x. unfold duration_Seconds in E.
  destruct (fl (Z.rem d Second # 1000000000)) as [f|] eqn:Ef; [|done]. cbn [fadd] in E.
  assert (Hq : 0 <= inject_Z (d ÷ Second)) by (apply inject_nonneg, Z.quot_pos; [lia|done]).
  assert (Hr : 0 <= (Z.rem d Second # 1000000000)).
  { unfold Qle. simpl. pose proof (Z.rem_nonneg d Second ltac:(done) Hd). lia. }
  apply fl_error in Ef as (Hf0 & Hf1 & Hf2); [|done].
  apply fl_add_error in E as (He0 & He1 & He2); [|done..].
  pose proof (duration_split d) as Hx. fold x in Hx. pose proof ulp_small_tiny as [Hs Hs'].
  unfold ulp_half in *. set (a := inject_Z (d ÷ Second)) in *.
  set (b := (Z.rem d Second # 1000000000)) in *. set (s := ulp_small) in *. clearbody a b s.
  split; [done|]. split; [lra|]. split; [lra|]. intros Hpos.
  assert (Hx1 : (1 # 1000000000) <= x) by (unfold x, Qle; simpl; lia). lra.
Qed.

(** No token is lost in a refill but by rounding. *)
Lemma refill_lower cap rps tokens_ el x :
  0 < rps -> 1 <= cap -> rps <= cap -> 0 <= tokens_ -> 0 <= el -> 0 <= x ->
  x <= el + x * (4 * ulp_half) + 4 * ulp_small ->
  cut cap (tokens_ + rps * x)
  <= fmin cap (fadd (Some tokens_) (fmul (Some el) (Some rps))) + rounding cap * (1 # 2).
Proof.
  intros Hr H1 Hrc Ht Hel Hx Hex. pose proof (cut_cap cap (tokens_ + rps * x)) as Hcc.
  assert (Hround : 0 <= rounding cap) by (unfold rounding; lra).
  pose proof ulp_small_tiny as [Hs Hs'].
  assert (Hsmall : ulp_small * rps <= cap * (1 # 1152921504606846976)).
  { apply (Qle_trans _ ((1 # 1152921504606846976) * rps)); [apply Qmult_le_compat_r; lra|lra]. }
  assert (Helr : 0 <= el * rps) by (apply Qmult_le_0_compat; lra).
  assert (Hbound : rps * x <= el * rps + rps * x * (4 * ulp_half) + 4 * (ulp_small * rps)).
  { apply (Qle_trans _ ((el + x * (4 * ulp_half) + 4 * ulp_small) * rps)); [|lra].
    rewrite (Qmult_comm rps). apply Qmult_le_compat_r; lra. }
  unfold fmin, fadd, fmul. destruct (fl (el * rps)) as [r|] eqn:Er; [|lra].
  apply fl_error in Er as (R0 & _ & R2); [|done].
  destruct (fl (tokens_ + r)) as [y|] eqn:Ey; [|lra].
  apply fl_add_error in Ey as (Y0 & _ & Y2); [|done..].
  destruct (Qle_bool cap y) eqn:E; [lra|].
  assert (Hy : y < cap) by (apply Qnot_le_lt; intros H; apply Qle_bool_iff in H; congruence).
  eapply Qle_trans; [apply cut_le|].
  unfold rounding, ulp_half in *. set (e := rps * x) in *. set (sr := ulp_small * rps) in *.
  set (sm := ulp_small) in *. set (er := el * rps) in *. clearbody e sr sm er. lra.
Qed.

(** The refill: exact up to rounding, and never above the capacity. *)
Lemma refill_bound cap rps tokens_ el x :
  0 < rps -> rps <= cap -> 1 <= cap -> cap <= inject_Z (2 ^ 52) ->
  0 <= tokens_ -> 0 <= el -> 0 <= x -> el <= x + x * (4 * ulp_half) + 4 * ulp_small ->
  x <= el + x * (4 * ulp_half) + 4 * ulp_small ->
  let t := fmin cap (fadd (Some tokens_) (fmul (Some el) (Some rps))) in
  0 <= t /\ t <= cap
  /\ t <= cut cap (tokens_ + rps * x) + rounding cap * (1 # 2)
  /\ cut cap (tokens_ + rps * x) <= t + rounding cap * (1 # 2).
Proof.
  intros Hr Hrc H1 Hc Ht Hel Hx Hex Hxe t.
  assert (Hlow := refill_lower cap rps tokens_ el x Hr H1 Hrc Ht Hel Hx Hxe).
  enough (Hup : 0 <= t /\ t <= cap /\ t <= cut cap (tokens_ + rps * x) + rounding cap * (1 # 2))
    by (destruct Hup as (? & ? & ?); by repeat split).
  assert (Hcap : t <= cap).
  { unfold t, fmin. destruct (fadd _ _) as [y|]; [|lra]. destruct (Qle_bool cap y) eqn:E; [lra|].
    destruct (Qlt_le_dec y cap) as [H|H]; [lra|]. apply Qle_bool_iff in H. congruence. }
  assert (Hround : 0 <= rounding cap) by (unfold rounding; lra).
  assert (Hsmall : ulp_small * rps <= cap * (1 # 1152921504606846976)).
  { pose proof ulp_small_tiny as [? ?].
    apply (Qle_trans _ ((1 # 1152921504606846976) * rps)); [apply Qmult_le_compat_r; lra|lra]. }
  assert (Helr : 0 <= el * rps) by (apply Qmult_le_0_compat; lra).
  assert (Hxr : 0 <= rps * x) by (apply Qmult_le_0_compat; lra).
  assert (Hbound : el * rps <= rps * x + rps * x * (4 * ulp_half) + 4 * (ulp_small * rps)).
  { apply (Qle_trans _ ((x + x * (4 * ulp_half) + 4 * ulp_small) * rps));
      [apply Qmult_le_compat_r; lra|]. lra. }
  pose proof ulp_small_tiny as [Hs Hs'].
  unfold t, fmin, fadd, fmul in *.
  destruct (fl (el * rps)) as [r|] eqn:Er.
  - apply fl_error in Er as (R0 & R1 & _); [|done].
    destruct (fl (tokens_ + r)) as [y|] eqn:Ey.
    + apply fl_add_error in Ey as (Y0 & Y1 & _); [|done..].
      split; [destruct (Qle_bool cap y); lra|]. split; [done|].
      destruct (cut_cases cap (tokens_ + rps * x)) as [[_ ->]|[Hlt ->]]; [lra|].
      assert (Hy : y <= tokens_ + rps * x + rounding cap * (1 # 2)).
      { unfold rounding, ulp_half in *. set (e := rps * x) in *. set (sr := ulp_small * rps) in *.
        set (s := ulp_small) in *. set (er := el * rps) in *. clearbody e sr s er. lra. }
      destruct (Qle_bool cap y) eqn:Ecy; [|done]. apply Qle_bool_iff in Ecy. lra.
    + split; [lra|]. split; [done|]. apply fl_overflow in Ey; [|lra].
      destruct (cut_cases cap (tokens_ + rps * x)) as [[_ ->]|[Hlt ->]]; [lra|].
      assert (inject_Z (2 ^ 52) * 4 <= inject_Z (2 ^ 1000)) by (vm_compute; congruence).
      unfold ulp_half in *. lra.
  - split; [lra|]. split; [done|]. apply fl_overflow in Er; [|done].
    destruct (cut_cases cap (tokens_ + rps * x)) as [[_ ->]|[Hlt ->]]; [lra|].
    assert (inject_Z (2 ^ 52) * 4 <= inject_Z (2 ^ 1000)) by (vm_compute; congruence).
    unfold ulp_half in *. lra.
Qed.

(** Lower bounds: a bucket that is due a token has it. *)
Lemma ulp_small_tinier : ulp_small <= 1 # 1267650600228229401496703205376.
Proof. vm_compute. congruence. Qed.

Lemma refill_enough cap rps tokens_ el x :
  0 < rps -> rps <= 1048576 -> 1 <= cap -> 0 <= tokens_ -> 0 <= el -> 0 <= x ->
  x <= el + x * (4 * ulp_half) + 4 * ulp_small ->
  1 + (1 # 1099511627776) <= tokens_ + rps * x ->
  1 <= fmin cap (fadd (Some tokens_) (fmul (Some el) (Some rps))).
Proof.
  intros Hr Hr1 H1 Ht Hel Hx Hex Hdue. pose proof ulp_small_tinier as Hs'.
  pose proof ulp_small_tiny as [Hs _].
  assert (Hsmall : ulp_small * rps <= (1 # 1208925819614629174706176)).
  { apply (Qle_trans _ ((1 # 1267650600228229401496703205376) * rps));
      [apply Qmult_le_compat_r; lra|lra]. }
  assert (Helr : 0 <= el * rps) by (apply Qmult_le_0_compat; lra).
  assert (Hbound : rps * x <= el * rps + rps * x * (4 * ulp_half) + 4 * (ulp_small * rps)).
  { apply (Qle_trans _ ((el + x * (4 * ulp_half) + 4 * ulp_small) * rps)); [|lra].
    rewrite (Qmult_comm rps). apply Qmult_le_compat_r; lra. }
  unfold fmin, fadd, fmul. destruct (fl (el * rps)) as [r|] eqn:Er; [|done].
  apply fl_error in Er as (R0 & _ & R2); [|done].
  destruct (fl (tokens_ + r)) as [y|] eqn:Ey; [|done].
  apply fl_add_error in Ey as (Y0 & _ & Y2); [|done..].
  assert (1 <= y).
  { unfold ulp_half in *. set (e := rps * x) in *. set (sr := ulp_small * rps) in *.
    set (s := ulp_small) in *. set (er := el * rps) in *. clearbody e sr s er. lra. }
  destruct (Qle_bool cap y); lra.
Qed.

(** The wait of [c] milliseconds, the last of three rounded results, refills what is missing. *)
Lemma wait_refills tokens_ n0 rps d f m c :
  0 <= tokens_ -> tokens_ < 1 -> (1 # 1048576) <= rps -> rps <= 1048576 -> d * rps == n0 ->
  n0 <= 1 - tokens_ + (1 - tokens_) * ulp_half + ulp_small ->
  1 - tokens_ <= n0 + (1 - tokens_) * ulp_half + ulp_small ->
  f <= d + d * ulp_half + ulp_small -> d <= f + d * ulp_half + ulp_small ->
  f * 1000 <= m + f * 1000 * ulp_half + ulp_small -> m <= inject_Z c ->
  1 - tokens_ - (1 # 4398046511104) <= rps * (inject_Z c * (1 # 1000)).
Proof.
  intros Ht0 Ht1 Hr0 Hr1 Hdiv N1 N2 F1 F2 M2 Hc.
  pose proof ulp_small_tinier as Hs'. pose proof ulp_small_tiny as [Hs _]. unfold ulp_half in *.
  assert (Hmr : 0 <= (inject_Z c - m) * rps) by (apply Qmult_le_0_compat; lra).
  assert (Hsr : ulp_small * rps <= (1 # 1208925819614629174706176)).
  { apply (Qle_trans _ ((1 # 1267650600228229401496703205376) * rps));
      [apply Qmult_le_compat_r; lra|lra]. }
  assert (Hfr : 0 <= (f - (d - d * (1 # 9007199254740992) - ulp_small)) * rps)
    by (apply Qmult_le_0_compat; lra).
  assert (Hm2 : 0 <= (m - (f * 1000 - f * 1000 * (1 # 9007199254740992) - ulp_small)) * rps)
    by (apply Qmult_le_0_compat; lra).
  assert (Hf1 : 0 <= (d + d * (1 # 9007199254740992) + ulp_small - f) * rps)
    by (apply Qmult_le_0_compat; lra).
  set (fr := f * rps) in *. set (mr := m * rps) in *. set (sr := ulp_small * rps) in *.
  set (cr := inject_Z c * rps) in *.
  assert (A1 : 0 <= cr - mr) by (unfold cr, mr; lra).
  assert (A2 : 0 <= fr - (n0 - n0 * (1 # 9007199254740992) - sr))
    by (rewrite <- Hdiv; unfold fr, sr; lra).
  assert (A3 : 0 <= mr - (fr * 1000 - fr * 1000 * (1 # 9007199254740992) - sr))
    by (unfold mr, fr, sr; lra).
  assert (A4 : fr <= n0 + n0 * (1 # 9007199254740992) + sr) by (rewrite <- Hdiv; unfold fr, sr; lra).
  assert (A5 : rps * (inject_Z c * (1 # 1000)) == cr * (1 # 1000)) by (unfold cr; ring).
  rewrite A5. clearbody cr mr fr sr. clear -A1 A2 A3 A4 N1 N2 Hsr Ht0 Ht1 Hs Hs'. lra.
Qed.

(** The wait in milliseconds that is asked for, and what it refills. *)
Lemma retry_ms_bound tokens_ rps :
  0 <= tokens_ -> tokens_ < 1 -> (1 # 1048576) <= rps -> rps <= 1048576 ->
  exists z : Z,
    at_least_one (retry_ms tokens_ rps) = Some (inject_Z z) /\ (1 <= z <= 2 ^ 40)%Z
    /\ 1 - tokens_ - (1 # 4398046511104) <= rps * (inject_Z z * (1 # 1000)).
Proof.
  intros Ht0 Ht1 Hr0 Hr1. pose proof ulp_small_tinier as Hs'. pose proof ulp_small_tiny as [Hs _].
  assert (Hbig : inject_Z (2 ^ 64) <= inject_Z (2 ^ 1000)) by (vm_compute; congruence).
  change (inject_Z (2 ^ 64)) with 18446744073709551616 in Hbig.
  unfold retry_ms, fdiv.
  destruct (fl (1 - tokens_)) as [n0|] eqn:E0; [|apply fl_overflow in E0; [exfalso; lra|lra]].
  apply fl_error in E0 as (N0 & N1 & N2); [|lra].
  assert (Hdiv : (n0 / rps) * rps == n0) by (field; lra).
  assert (Hdiv0 : 0 <= n0 / rps) by (apply Qle_shift_div_l; lra).
  assert (Hdiv1 : n0 / rps <= n0 * 1048576).
  { apply Qle_shift_div_r; [lra|].
    apply (Qle_trans _ (n0 * 1048576 * (1 # 1048576))); [lra|].
    rewrite !(Qmult_comm (n0 * 1048576)). apply Qmult_le_compat_r; lra. }
  set (d := n0 / rps) in *.
  unfold ulp_half in *.
  destruct (fl d) as [f|] eqn:Ef; [|apply fl_overflow in Ef; [exfalso; lra|done]].
  apply fl_error in Ef as (F0 & F1 & F2); [|done]. simpl fmul. unfold ulp_half in *.
  destruct (fl (f * 1000)) as [m|] eqn:Em; [|apply fl_overflow in Em; [exfalso; lra|lra]].
  apply fl_error in Em as (M0 & M1 & M2); [|lra]. unfold ulp_half in *.
  pose proof (Qle_ceiling m) as Hc. pose proof (Qceiling_lt m) as Hc1.
  set (c := Qceiling m) in *.
  assert (Hcz : (0 <= c <= 2 ^ 39)%Z).
  { split.
    - assert (-1 < inject_Z c) by lra. change (-1) with (inject_Z (-1)) in H.
      rewrite <- Zlt_Qlt in H. lia.
    - assert (inject_Z (c - 1) < inject_Z (2 ^ 39)).
      { change (inject_Z (2 ^ 39)) with 549755813888. lra. }
      rewrite <- Zlt_Qlt in H. lia. }
  assert (Hwait : 1 - tokens_ - (1 # 4398046511104) <= rps * (inject_Z c * (1 # 1000)))
    by (by eapply (wait_refills tokens_ n0 rps d f m c)).
  simpl. destruct (Qle_bool 1 (inject_Z c)) eqn:E1.
  - exists c. split; [done|]. split; [|done]. apply Qle_bool_iff in E1.
    change 1 with (inject_Z 1) in E1. rewrite <- Zle_Qle in E1. lia.
  - exists 1%Z. split; [done|]. split; [lia|].
    assert (inject_Z c < 1).
    { apply Qnot_le_lt. intros H. apply Qle_bool_iff in H. congruence. }
    eapply Qle_trans; [exact Hwait|]. rewrite !(Qmult_comm rps). apply Qmult_le_compat_r; [|lra].
    change (inject_Z 1) with 1. lra.
Qed.

Lemma spend_bound cap t :
  1 <= cap -> cap <= inject_Z (2 ^ 52) -> 1 <= t -> t <= cap ->
  0 <= spend t /\ spend t <= cap /\ spend t + 1 <= t + rounding cap * (1 # 2)
  /\ t <= spend t + 1 + rounding cap * (1 # 2).
Proof.
  intros H1 Hc Ht1 Ht. unfold spend. pose proof ulp_small_tiny as [Hs Hs'].
  destruct (fl (t - 1)) as [q|] eqn:E.
  - apply fl_error in E as (Q0 & Q1 & Q2); [|lra]. unfold rounding, ulp_half in *.
    change (inject_Z (2 ^ 52)) with 4503599627370496 in Hc. split; [done|]. split; [lra|]. split; lra.
  - apply fl_overflow in E; [|lra].
    assert (inject_Z (2 ^ 52) * 4 <= inject_Z (2 ^ 1000)) by (vm_compute; congruence). lra.
Qed.

End Rounding.

(** ** The interface: what a limiter owes the bucket of a key *)

Import TokenBucket.

(** A call of [Allow] on scope "domain", with the fate of the request to the store. *)
Record call := { c_cfg : CrawlJobConfig; c_id : string; c_now : Z; c_verdict : verdict }.

Definition call_key (c : call) : string := rate_key (c_cfg c) "domain" (c_id c).

(** [services.RateLimiter] on a state [St]. *)
Class Limiter (St : Type) := allow : call -> St -> res (bool * Z) * St.

Definition granted (r : res (bool * Z)) : bool := match r with Ok (allowed, _) => allowed | _ => false end.

(** [St] refines the bucket of [k] for configurations with [rps] requests per second: [stands now s l]
    says that the state [s] at [now] stands for the level [l]. *)
Class Refines (St : Type) `{Limiter St} (k : string) (rps rate slack : Q) := {
  stands : Z -> St -> level -> Prop;
  refines_call c s l now0 :
    call_key c = k -> Rps (RateLimit (c_cfg c)) = rps -> now0 <= c_now c <= int64_max ->
    stands now0 s l ->
    let '(r, s') := allow c s in
    (is_ok r = false /\ stands (c_now c) s' l)
    \/ exists a l', step (capacity rps) rate slack l (c_now c, a) l' /\ stands (c_now c) s' l'
                   /\ (is_ok r = true -> granted r = a);
  refines_other c s l now0 :
    call_key c <> k -> now0 <= c_now c <= int64_max -> stands now0 s l -> stands (c_now c) (allow c s).2 l }.

(** The calls of all workers in their order, and what they were answered. *)
Fixpoint serve {St} `{Limiter St} (calls : list call) (s : St) : list (call * res (bool * Z)) * St :=
  match calls with
  | [] => ([], s)
  | c :: calls =>
      let '(r, s) := allow c s in let '(rs, s) := serve calls s in ((c, r) :: rs, s)
  end.

(** The answers of the calls on [k] are those of the bucket's requests: every call that is answered is
    a request at its time with that answer; a call that fails is none, or one whose answer was lost. *)
Inductive answered (k : string) : list (call * res (bool * Z)) -> list (Z * bool) -> Prop :=
| answered_nil : answered k [] []
| answered_other c r out rs : call_key c <> k -> answered k out rs -> answered k ((c, r) :: out) rs
| answered_failed c r out rs :
    call_key c = k -> is_ok r = false -> answered k out rs -> answered k ((c, r) :: out) rs
| answered_lost c r a out rs :
    call_key c = k -> is_ok r = false -> answered k out rs -> answered k ((c, r) :: out) ((c_now c, a) :: rs)
| answered_with c a d out rs :
    call_key c = k -> answered k out rs -> answered k ((c, Ok (a, d)) :: out) ((c_now c, a) :: rs).

(** How many requests for [k] were let through. *)
Definition let_through (k : string) (rs : list (call * res (bool * Z))) : Z :=
  Z.of_nat (length (filter (fun p => bool_decide (call_key p.1 = k) && granted p.2 = true) rs)).

(** Calls from [t] on, in the order of their times, that agree on the rate of [k]. *)
Inductive calls_from (k : string) (rps : Q) : Z -> list call -> Prop :=
| calls_nil t : calls_from k rps t []
| calls_cons t c cs :
    t <= c_now c <= int64_max -> (call_key c = k -> Rps (RateLimit (c_cfg c)) = rps) ->
    calls_from k rps (c_now c) cs -> calls_from k rps t (c :: cs).

Section Windows.
Context {St : Type} `{Limiter St} (k : string) (rps rate slack : Q) `{!Refines St k rps rate slack}.

Lemma last_now c calls t :
  default t (c_now <$> last (c :: calls)) = default (c_now c) (c_now <$> last calls).
Proof. rewrite last_cons. by destruct (last calls). Qed.

Lemma last_after t calls : calls_from k rps t calls -> t <= default t (c_now <$> last calls).
Proof.
  induction 1 as [|t c calls Ht _ _ IH]; [simpl; lia|]. rewrite last_now. lia.
Qed.

(** The calls on [k] are a run of the bucket. *)
Lemma serve_run calls : forall t s l,
  calls_from k rps t calls -> stands t s l ->
  exists rs l', run (capacity rps) rate slack l rs l' /\ answered k (serve calls s).1 rs.
Proof.
  induction calls as [|c calls IH]; intros t s l Hc Hs.
  - exists [], l. split; constructor.
  - inversion Hc as [|? ? ? Ht0 Hr Hc']; subst. simpl serve.
    pose proof (refines_other c s l t) as Ho.
    destruct (decide (call_key c = k)) as [Hk|Hk].
    + pose proof (refines_call c s l t Hk (Hr Hk) Ht0 Hs) as Hcall.
      destruct (allow c s) as [r s1].
      destruct Hcall as [[Hg Hs1]|(a & l1 & Hstep & Hs1 & Ha)];
        destruct (IH _ s1 _ Hc' Hs1) as (rs & l' & Hrun & Hans);
        destruct (serve calls s1) as [out s2]; simpl in Hans |- *.
      * exists rs, l'. split; [done|by apply answered_failed].
      * exists ((c_now c, a) :: rs), l'. split; [by econstructor|].
        destruct r as [[a' d]|e]; [|by apply answered_lost].
        specialize (Ha eq_refl). simpl in Ha. subst a'. by apply answered_with.
    + specialize (Ho Hk Ht0 Hs). destruct (allow c s) as [r s1]. simpl in Ho.
      destruct (IH _ s1 _ Hc' Ho) as (rs & l' & Hrun & Hans).
      destruct (serve calls s1) as [out s2]. simpl in Hans |- *.
      exists rs, l'. split; [done|by apply answered_other].
Qed.

(** No more was let through than the bucket let through. *)
Lemma answered_count out rs : answered k out rs -> let_through k out <= allowed_count rs.
Proof.
  unfold let_through, allowed_count.
  induction 1 as [|c r out rs Hk _ IH|c r out rs Hk He _ IH|c r a out rs Hk He _ IH|c a d out rs Hk _ IH];
    [done|rewrite filter_cons; simpl..].
  - by rewrite bool_decide_eq_false_2.
  - rewrite decide_False; [done|]. rewrite andb_true_iff. intros [_ Hg]. by destruct r as [[]|].
  - rewrite decide_False by (rewrite andb_true_iff; intros [_ Hg]; by destruct r as [[]|]).
    rewrite filter_cons. destruct a; simpl; [|done]. rewrite Nat2Z.inj_succ. lia.
  - rewrite bool_decide_eq_true_2 by done. rewrite filter_cons. destruct a; simpl; [|done].
    rewrite !Nat2Z.inj_succ. lia.
Qed.

(** The requests come at times of the calls. *)
Lemma answered_times calls : forall t s rs,
  calls_from k rps t calls -> answered k (serve calls s).1 rs ->
  (length rs <= length calls)%nat /\ Forall (fun r => t <= r.1 <= default t (c_now <$> last calls)) rs.
Proof.
  induction calls as [|c calls IH]; intros t s rs Hc Ha; [by inversion Ha|].
  inversion Hc as [|? ? ? Ht0 Hr Hc']; subst. rewrite last_now.
  pose proof (last_after _ _ Hc') as Hafter. simpl in Ha.
  destruct (allow c s) as [r s1]. destruct (serve calls s1) as [out s2] eqn:Es.
  assert (Hrest : forall rs', answered k out rs' -> (length rs' <= length calls)%nat
    /\ Forall (fun x => t <= x.1 <= default (c_now c) (c_now <$> last calls)) rs').
  { intros rs' Hrs'. destruct (IH (c_now c) s1 rs' Hc') as [Hl Hf]; [by rewrite Es|]. split; [done|].
    eapply Forall_impl; [exact Hf|]. cbv beta. intros x Hx. lia. }
  inversion Ha; clear Ha; subst;
    match goal with Hx : answered _ _ _ |- _ => destruct (Hrest _ Hx) as [Hl Hf] end;
    simpl; (split; [lia|]); try done; (constructor; [simpl; lia|done]).
Qed.

Lemma run_since l rs l' t :
  run (capacity rps) rate slack l rs l' -> Forall (fun r => r.1 <= t) rs -> rs <> [] ->
  since l' <= t.
Proof.
  induction 1 as [|l r l1 rs l2 (_ & Ht & _) Hrun IH]; [done|]. intros Hf _.
  inversion Hf as [|? ? Hr Hrs]; subst. destruct rs as [|r' rs]; [|by apply IH].
  inversion Hrun; subst. lia.
Qed.

(** In every window the requests let through are at most the burst and the refill. *)
Lemma window_let_through t s l calls :
  (0 <= rate)%Q -> (0 <= slack)%Q -> calls_from k rps t calls -> stands t s l ->
  (inject_Z (let_through k (serve calls s).1)
   <= capacity rps + rate * inject_Z (default t (c_now <$> last calls) - t)
      + inject_Z (Z.of_nat (length calls)) * slack)%Q.
Proof.
  intros Hrate Hslack Hc Hs. destruct (serve_run calls t s l Hc Hs) as (rs & l' & Hrun & Hans).
  destruct (answered_times calls t s rs Hc Hans) as [Hlen Hf].
  pose proof (answered_count _ _ Hans) as Hcount. rewrite Zle_Qle in Hcount. eapply Qle_trans; [exact Hcount|].
  pose proof (last_after _ _ Hc) as Hlast. set (e := default t (c_now <$> last calls)) in *.
  assert (Hmono : forall a b c d : Z, a <= b -> c <= d ->
            (rate * inject_Z a + inject_Z c * slack <= rate * inject_Z b + inject_Z d * slack)%Q).
  { intros a b c d Hab Hcd. rewrite Zle_Qle in Hab, Hcd.
    assert (rate * inject_Z a <= rate * inject_Z b)%Q by (rewrite !(Qmult_comm rate); by apply Qmult_le_compat_r).
    assert (inject_Z c * slack <= inject_Z d * slack)%Q by (by apply Qmult_le_compat_r). lra. }
  destruct rs as [|r rs].
  - change (allowed_count []) with 0.
    pose proof (Hmono 0 (e - t) 0 (Z.of_nat (length calls)) ltac:(lia) ltac:(lia)) as Hm.
    change (inject_Z 0) with 0%Q in *.
    assert (1 <= capacity rps)%Q.
    { unfold capacity. change 1%Q with (inject_Z 1). rewrite <- Zle_Qle. lia. }
    lra.
  - pose proof (window_bound _ _ _ _ _ _ _ Hrun) as Hb.
    inversion Hf as [|? ? [Hr1 Hr2] Hrs]; subst.
    assert (He : since l' <= e).
    { eapply run_since; [exact Hrun| |done]. eapply Forall_impl; [exact Hf|]. cbv beta. intros x Hx. lia. }
    pose proof (Hmono (since l' - r.1) (e - t) (Z.of_nat (S (length rs))) (Z.of_nat (length calls))
                  ltac:(lia) ltac:(simpl in Hlen; lia)) as Hm. lra.
Qed.

End Windows.

(** ** The limiter in memory refines the bucket *)

Section InMemoryRefines.
Context (k : string) (rps : Q) (life : Z).
Hypothesis rps_pos : (0 < rps)%Q.
Hypothesis rps_small : (capacity rps <= inject_Z (2 ^ 52))%Q.
(** A bucket that is forgotten has been idle long enough to be full. *)
Hypothesis life_ok : life <= 0 \/ (capacity rps <= rps * (life # 1000000000))%Q.

#[export] Instance in_memory_limiter : Limiter InMemory.InMemoryRateLimiter := fun c s =>
  InMemory.Allow (match c_verdict c with Succeeds => None | FailsBefore e | FailsAfter e => Some e end)
    (c_cfg c) "domain" (c_id c) (c_now c) s.

Notation cap := (capacity rps).
Notation rate := (rps * (1 # 1000000000))%Q.

Import InMemory.

Definition memory_stands (now : Z) (s : InMemoryRateLimiter) (l : level) : Prop :=
  ttl s = life /\ (0 <= amount l)%Q /\ 0 <= since l <= now
  /\ match buckets s !! k with
     | Some b => amount l = tokens b /\ since l = lastRefillAt b
                 /\ lastRefillAt b <= lastSeenAt b <= now /\ (tokens b <= cap)%Q
     | None => (cap <= amount l + rate * inject_Z (now - since l))%Q
     end.

Lemma rate_mono a b : a <= b -> (rate * inject_Z a <= rate * inject_Z b)%Q.
Proof.
  intros H. rewrite Zle_Qle in H. rewrite !(Qmult_comm rate). apply Qmult_le_compat_r; [done|].
  apply Qmult_le_0_compat; [lra|done].
Qed.

Lemma rate_seconds d : (rate * inject_Z d == rps * (d # 1000000000))%Q.
Proof.
  assert (E : (d # 1000000000 == (1 # 1000000000) * inject_Z d)%Q) by (unfold Qeq; simpl; lia).
  rewrite E. ring.
Qed.

Lemma time_Sub_le t u : u <= t -> 0 <= time_Sub t u <= t - u.
Proof. unfold time_Sub, int64_min, int64_max. lia. Qed.

(** Time passes. *)
Lemma stands_later now now' s l :
  memory_stands now s l -> now <= now' -> memory_stands now' s l.
Proof.
  intros (Ht & Ha & Hs & Hb) Hle. split; [done|]. split; [done|]. split; [lia|].
  destruct (buckets s !! k) as [b|].
  - destruct Hb as (? & ? & ? & ?). repeat split; try done; lia.
  - pose proof (rate_mono (now - since l) (now' - since l) ltac:(lia)). lra.
Qed.

(** Forgetting an idle bucket is invisible: it would be full. *)
Lemma cleanup_stands now s l : memory_stands now s l -> memory_stands now (cleanupExpiredLocked now s) l.
Proof.
  intros Hst. unfold cleanupExpiredLocked. destruct (ttl s <=? 0) eqn:El; [done|].
  destruct Hst as (Ht & Ha & Hs & Hb). split; [done|]. split; [done|]. split; [done|]. simpl.
  destruct (filter _ (buckets s) !! k) as [b|] eqn:E.
  - apply map_lookup_filter_Some in E as [E _]. by rewrite E in Hb.
  - destruct (buckets s !! k) as [b|] eqn:Eb; [|done].
    apply map_lookup_filter_None in E as [E|E]; [congruence|]. specialize (E b Eb). simpl in E.
    destruct Hb as (Ea & Es & [H1 H2] & _).
    destruct (ttl s <? time_Sub now (lastSeenAt b)) eqn:Eexp; [|done].
    pose proof (time_Sub_le now (lastSeenAt b) H2) as Hsub.
    destruct life_ok as [Hl|Hl]; [lia|]. rewrite <- rate_seconds in Hl.
    pose proof (rate_mono life (now - since l) ltac:(lia)). lra.
Qed.

Lemma seconds_some d : 0 <= d <= int64_max -> exists el, duration_Seconds d = Some el.
Proof.
  intros Hd. unfold duration_Seconds.
  assert (Hbig : (inject_Z (2 ^ 64) + 2 <= inject_Z (2 ^ 1000))%Q) by (vm_compute; congruence).
  pose proof (Z.rem_bound_pos d Second ltac:(lia) ltac:(done)) as Hr.
  assert (Hrq : (0 <= (Z.rem d Second # 1000000000) /\ (Z.rem d Second # 1000000000) <= 1)%Q).
  { change Second with 1000000000 in *. unfold Qle. cbn [Qnum Qden]. lia. }
  assert (Hq : 0 <= d ÷ Second <= 2 ^ 63).
  { split; [apply Z.quot_pos; [lia|done]|]. apply Z.quot_le_upper_bound; [done|].
    unfold int64_max, Second, Millisecond in *. lia. }
  assert (Hqq : (0 <= inject_Z (d ÷ Second) /\ inject_Z (d ÷ Second) <= inject_Z (2 ^ 64))%Q).
  { split; [apply inject_nonneg; lia|]. rewrite <- Zle_Qle. lia. }
  pose proof ulp_small_tiny as [? ?]. destruct Hqq as [Q0 Q1], Hrq as [R0 R1].
  destruct (fl (Z.rem d Second # 1000000000)) as [f|] eqn:Ef.
  - apply fl_error in Ef as (F0 & F1 & _); [|done]. unfold ulp_half in F1. simpl.
    destruct (fl (inject_Z (d ÷ Second) + f)) as [el|] eqn:E; [by exists el|].
    apply fl_overflow in E; [|lra]. lra.
  - apply fl_overflow in Ef; [|done].
    assert (0 <= inject_Z (2 ^ 64))%Q by (vm_compute; congruence). lra.
Qed.

(** One request on a bucket. *)
Lemma take_token_step b now :
  (0 <= tokens b)%Q -> (tokens b <= cap)%Q -> lastRefillAt b <= now -> now - lastRefillAt b <= int64_max ->
  let '(allowed, _, b') := take_token rps now b in
  (0 <= tokens b')%Q /\ (tokens b' <= cap)%Q /\ lastRefillAt b' = now /\ lastSeenAt b' = now
  /\ let found := cut cap (tokens b + rate * inject_Z (now - lastRefillAt b)) in
     (tokens b' + cost allowed <= found + rounding cap)%Q /\ (found <= tokens b' + cost allowed + rounding cap)%Q
     /\ (allowed = false -> found < 1 + rounding cap)%Q.
Proof.
  intros Hb0 Hb1 Hle Hmax. destruct (capacity_spec rps rps_pos) as [Hcr Hc1].
  assert (Esub : time_Sub now (lastRefillAt b) = now - lastRefillAt b).
  { apply time_Sub_exact. unfold int64_min, int64_max in *. lia. }
  destruct (seconds_some (now - lastRefillAt b) ltac:(lia)) as [el Eel].
  destruct (seconds_bound (now - lastRefillAt b) el ltac:(lia) Eel) as (He0 & He1 & He2 & Hepos).
  assert (Hfound : (cut cap (tokens b + rate * inject_Z (now - lastRefillAt b))
                    == cut cap (tokens b + rps * (now - lastRefillAt b # 1000000000)))%Q)
    by (apply cut_eq; by rewrite rate_seconds).
  set (found := cut cap (tokens b + rate * inject_Z (now - lastRefillAt b))) in *.
  set (x := (now - lastRefillAt b # 1000000000)%Q) in *.
  assert (Hx0 : (0 <= x)%Q) by (unfold x, Qle; simpl; lia).
  assert (Hround : (0 <= rounding cap)%Q) by (unfold rounding; lra).
  assert (Hrefill : let b1 := refill rps now b in
            (0 <= tokens b1)%Q /\ (tokens b1 <= cap)%Q /\ lastRefillAt b1 = now
            /\ (tokens b1 <= cut cap (tokens b + rps * x) + rounding cap * (1 # 2))%Q
            /\ (cut cap (tokens b + rps * x) <= tokens b1 + rounding cap * (1 # 2))%Q).
  { unfold refill. rewrite Esub, Eel. destruct (Qle_bool el 0) eqn:Ez.
    - apply Qle_bool_iff in Ez. assert (Enow : lastRefillAt b = now).
      { destruct (Z.eq_dec (lastRefillAt b) now) as [->|Hne]; [done|]. specialize (Hepos ltac:(lia)). lra. }
      assert (Ex : (x == 0)%Q) by (unfold x; rewrite Enow, Z.sub_diag; reflexivity).
      split; [done|]. split; [done|]. split; [done|].
      assert (Exr : (rps * x == 0)%Q) by (rewrite Ex; ring).
      destruct (cut_cases cap (tokens b + rps * x)) as [[? ->]|[? ->]]; split; lra.
    - by pose proof (refill_bound cap rps (tokens b) el x rps_pos Hcr Hc1 rps_small Hb0 He0 Hx0 He1 He2)
        as (T0 & T1 & T2 & T3). }
  simpl in Hrefill. destruct Hrefill as (R0 & R1 & R2 & R3 & R4).
  unfold take_token. destruct (Qle_bool 1 (tokens (refill rps now b))) eqn:E1; simpl.
  - apply Qle_bool_iff in E1. destruct (spend_bound cap _ Hc1 rps_small E1 R1) as (S0 & S1 & S2 & S3).
    split; [done|]. split; [done|]. split; [done|]. split; [done|]. unfold cost.
    split; [lra|]. split; [lra|done].
  - assert (Hlt : (tokens (refill rps now b) < 1)%Q)
      by (apply Qnot_le_lt; intros H; apply Qle_bool_iff in H; congruence).
    split; [done|]. split; [done|]. split; [done|]. split; [done|]. unfold cost.
    split; [lra|]. split; [lra|]. intros _. lra.
Qed.

Lemma memory_call c s l now0 :
  call_key c = k -> Rps (RateLimit (c_cfg c)) = rps -> now0 <= c_now c <= int64_max ->
  memory_stands now0 s l ->
  let '(r, s') := allow c s in
  (is_ok r = false /\ memory_stands (c_now c) s' l)
  \/ exists a l', step cap rate (rounding cap) l (c_now c, a) l'
                /\ memory_stands (c_now c) s' l' /\ (is_ok r = true -> granted r = a).
Proof.
  intros Hk Hr [Hle Hmax] Hst. pose proof (stands_later _ (c_now c) _ _ Hst Hle) as Hst'.
  unfold allow, in_memory_limiter, InMemory.Allow. fold (call_key c). rewrite Hk, Hr.
  assert (Hq : Qle_bool rps 0 = false).
  { apply not_true_iff_false. rewrite Qle_bool_iff. lra. }
  destruct (c_verdict c) as [|e|e]; [|left; split; [reflexivity|exact Hst']..]. rewrite Hq.
  apply cleanup_stands in Hst'. set (s1 := cleanupExpiredLocked (c_now c) s) in *.
  destruct (capacity_spec rps rps_pos) as [_ Hc1].
  destruct Hst' as (Et & Ha & Hs & Hb).
  set (b := default (fresh rps (c_now c)) (buckets s1 !! k)).
  assert (Hb' : (0 <= tokens b)%Q /\ (tokens b <= cap)%Q /\ 0 <= lastRefillAt b <= c_now c
                /\ (cut cap (tokens b + rate * inject_Z (c_now c - lastRefillAt b))
                    == refilled cap rate l (c_now c))%Q).
  { unfold b, refilled. destruct (buckets s1 !! k) as [b0|]; simpl.
    - destruct Hb as (E1 & E2 & H1 & H2). rewrite <- E1, <- E2.
      split; [done|]. split; [by rewrite E1|]. split; [lia|reflexivity].
    - split; [lra|]. split; [apply Qle_refl|]. split; [lia|].
      rewrite Z.sub_diag. change (inject_Z 0) with 0%Q. rewrite !cut_full; [reflexivity|done|lra]. }
  destruct Hb' as (B0 & B1 & B2 & B3).
  pose proof (take_token_step b (c_now c) B0 B1 (proj2 B2) ltac:(lia)) as Htake. fold b.
  destruct (take_token rps (c_now c) b) as [[a retry] b'].
  destruct Htake as (T0 & T1 & T2 & T3 & T4 & T5 & T6). rewrite B3 in T4, T5, T6. simpl. right.
  exists a, {| amount := tokens b'; since := c_now c |}.
  split; [by (split; [simpl; lia|]; split; [done|]; split; [exact T0|]; split; [exact T4|]; split)|].
  split; [|done].
  split; [done|]. split; [done|]. split; [simpl; lia|]. simpl.
  rewrite lookup_insert_eq. rewrite T2, T3. repeat split; try done; lia.
Qed.

Lemma memory_other c s l now0 :
  call_key c <> k -> now0 <= c_now c <= int64_max -> memory_stands now0 s l ->
  memory_stands (c_now c) (allow c s).2 l.
Proof.
  intros Hk [Hle _] Hst. apply (stands_later _ (c_now c)) in Hst; [|done].
  unfold allow, in_memory_limiter, InMemory.Allow. fold (call_key c).
  destruct (c_verdict c) as [|e|e]; try done. destruct (Qle_bool _ 0); [done|].
  apply cleanup_stands in Hst. set (s1 := cleanupExpiredLocked (c_now c) s) in *.
  destruct (take_token _ _ _) as [[a retry] b']. simpl.
  destruct Hst as (Et & Ha & Hs & Hb). split; [done|]. split; [done|]. split; [done|].
  simpl. by rewrite lookup_insert_ne.
Qed.

#[export] Instance memory_refines : Refines InMemoryRateLimiter k rps rate (rounding cap) :=
  {| stands := memory_stands; refines_call := memory_call; refines_other := memory_other |}.

End InMemoryRefines.

(** ** The limiter in Redis refines the bucket, in milliseconds of the server's clock *)

Section RedisRefines.
Context (k : string) (rps : Q) (r : Redis.RedisRateLimiter).
Hypothesis rps_pos : (0 < rps)%Q.
Hypothesis rps_small : (capacity rps <= inject_Z (2 ^ 52))%Q.
Notation life := (Z.quot (Redis.ttl r) Millisecond).
Hypothesis life_pos : 0 < life.
Hypothesis life_ok : (capacity rps <= rps * (life # 1000))%Q.

#[export] Instance redis_limiter : Limiter (gmap string Redis.entry) := fun c s =>
  Redis.Allow (c_verdict c) r (c_cfg c) "domain" (c_id c) (c_now c) s.

Notation cap := (capacity rps).
Notation rate := (rps * (1 # 1000))%Q.

Import Redis.

Definition redis_stands (now : Z) (s : gmap string entry) (l : level) : Prop :=
  (0 <= amount l)%Q /\ 0 <= since l <= now
  /\ match s !! k with
     | Some e => (amount l = tokens e /\ since l = ts e /\ expires e = ts e + life
                  /\ (tokens e <= cap)%Q)
     | None => (cap <= amount l + rate * inject_Z (now - since l))%Q
     end.

Lemma redis_rate_mono a b : a <= b -> (rate * inject_Z a <= rate * inject_Z b)%Q.
Proof.
  intros H. rewrite Zle_Qle in H. rewrite !(Qmult_comm rate). apply Qmult_le_compat_r; [done|].
  apply Qmult_le_0_compat; [lra|done].
Qed.

Lemma redis_rate_seconds d : (rate * inject_Z d == rps * (d # 1000))%Q.
Proof.
  assert (E : (d # 1000 == (1 # 1000) * inject_Z d)%Q) by (unfold Qeq; simpl; lia).
  rewrite E. ring.
Qed.

Lemma redis_later now now' s l : redis_stands now s l -> now <= now' -> redis_stands now' s l.
Proof.
  intros (Ha & Hs & Hb) Hle. split; [done|]. split; [lia|].
  destruct (s !! k) as [b|]; [done|].
  pose proof (redis_rate_mono (now - since l) (now' - since l) ltac:(lia)). lra.
Qed.

(** What the script reads: the level, or a full bucket where the key has expired or is new. *)
Lemma redis_read now s l :
  redis_stands now s l ->
  let '(current, last) := match live now k s with Some e => (tokens e, ts e) | None => (cap, now) end in
  (0 <= current)%Q /\ (current <= cap)%Q /\ 0 <= last /\ last <= now
  /\ (cut cap (current + rate * inject_Z (now - last)) == refilled cap rate l now)%Q.
Proof.
  intros (Ha & Hs & Hb). unfold live, refilled. destruct (capacity_spec rps rps_pos) as [_ Hc1].
  destruct (s !! k) as [e|].
  - destruct Hb as (E1 & E2 & E3 & H2). destruct (expires e <? now) eqn:Ee.
    + split; [lra|]. split; [apply Qle_refl|]. split; [lia|]. split; [lia|].
      rewrite Z.sub_diag. change (inject_Z 0) with 0%Q.
      pose proof (redis_rate_mono life (now - since l) ltac:(lia)) as Hm.
      rewrite <- redis_rate_seconds in life_ok. rewrite !cut_full; [reflexivity|lra..].
    + rewrite <- E1, <- E2. split; [done|]. split; [by rewrite E1|].
      split; [lia|]. split; [lia|reflexivity].
  - split; [lra|]. split; [apply Qle_refl|]. split; [lia|]. split; [lia|].
    rewrite Z.sub_diag. change (inject_Z 0) with 0%Q. rewrite !cut_full; [reflexivity|done|lra].
Qed.

Lemma redis_refill current x :
  (0 <= current)%Q -> (current <= cap)%Q -> (0 <= x)%Q -> (x <= inject_Z (2 ^ 64))%Q ->
  let t := fmin cap (fadd (Some current) (fmul (fl x) (Some rps))) in
  (0 <= t)%Q /\ (t <= cap)%Q /\ (t <= cut cap (current + rps * x) + rounding cap * (1 # 2))%Q
  /\ (cut cap (current + rps * x) <= t + rounding cap * (1 # 2))%Q.
Proof.
  intros C0 C1 Hx0 Hx1. destruct (capacity_spec rps rps_pos) as [Hcr Hc1].
  pose proof ulp_small_tiny as [? ?]. destruct (fl x) as [el|] eqn:Eel.
  - destruct (fl_error x el Hx0 Eel) as (He0 & He1 & He2).
    apply (refill_bound cap rps current el x rps_pos Hcr Hc1 rps_small C0 He0 Hx0);
      unfold ulp_half in *; lra.
  - exfalso. apply fl_overflow in Eel; [|done].
    assert (inject_Z (2 ^ 64) + 1 <= inject_Z (2 ^ 1000))%Q by (vm_compute; congruence). lra.
Qed.

Lemma script_step now s l :
  now <= int64_max -> redis_stands now s l ->
  let '(allowed, _, _, s') := rateLimitLuaScript k rps life now s in
  exists l', step cap rate (rounding cap) l (now, bool_decide (allowed = 1)) l'
             /\ redis_stands now s' l'.
Proof.
  intros Hmax Hst. pose proof (redis_read now s l Hst) as Hread.
  destruct Hst as (Ha & Hs & Hb). unfold rateLimitLuaScript.
  destruct (match live now k s with Some e => _ | None => _ end) as [current last].
  destruct Hread as (C0 & C1 & C2 & C2' & C3). destruct (capacity_spec rps rps_pos) as [Hcr Hc1].
  set (x := (now - last # 1000)%Q).
  assert (Hx0 : (0 <= x)%Q) by (unfold x, Qle; simpl; lia).
  assert (Hx1 : (x <= inject_Z (2 ^ 64))%Q) by (unfold x, Qle, int64_max in *; simpl; lia).
  assert (Hround : (0 <= rounding cap)%Q) by (unfold rounding; lra).
  destruct (redis_refill current x C0 C1 Hx0 Hx1) as (N0 & N1 & N2 & N3).
  set (t := fmin cap _) in *.
  assert (Ecut : (cut cap (current + rps * x) == refilled cap rate l now)%Q).
  { rewrite <- C3. apply cut_eq. unfold x. by rewrite <- redis_rate_seconds. }
  rewrite Ecut in N2, N3.
  destruct (life <=? 0) eqn:El; [lia|].
  destruct (Qle_bool 1 t) eqn:E1.
  - apply Qle_bool_iff in E1. destruct (spend_bound cap t Hc1 rps_small E1 N1) as (S0 & S1 & S2 & S3).
    exists {| amount := spend t; since := now |}. split.
    + split; [simpl; lia|]. split; [done|]. split; [done|]. unfold cost. simpl.
      split; [lra|]. split; [lra|done].
    + split; [done|]. split; [simpl; lia|]. rewrite lookup_insert_eq. simpl. done.
  - assert (Hlt : (t < 1)%Q) by (apply Qnot_le_lt; intros H; apply Qle_bool_iff in H; congruence).
    exists {| amount := t; since := now |}. split.
    + split; [simpl; lia|]. split; [done|]. split; [done|]. unfold cost. simpl.
      split; [lra|]. split; [lra|]. intros _. lra.
    + split; [done|]. split; [simpl; lia|]. rewrite lookup_insert_eq. simpl. done.
Qed.

Lemma redis_call c s l now0 :
  call_key c = k -> Rps (RateLimit (c_cfg c)) = rps -> now0 <= c_now c <= int64_max ->
  redis_stands now0 s l ->
  let '(res_, s') := allow c s in
  (is_ok res_ = false /\ redis_stands (c_now c) s' l)
  \/ exists a l', step cap rate (rounding cap) l (c_now c, a) l'
                /\ redis_stands (c_now c) s' l' /\ (is_ok res_ = true -> granted res_ = a).
Proof.
  intros Hk Hr [Hle Hmax] Hst. pose proof (redis_later _ (c_now c) _ _ Hst Hle) as Hst'.
  pose proof (script_step (c_now c) s l Hmax Hst') as Hscript.
  unfold allow, redis_limiter, Redis.Allow. fold (call_key c). rewrite Hk, Hr.
  assert (Hq : Qle_bool rps 0 = false).
  { apply not_true_iff_false. rewrite Qle_bool_iff. lra. }
  rewrite Hq. destruct (rateLimitLuaScript k rps life (c_now c) s) as [[[a tk] retry] s1].
  destruct Hscript as (l' & Hstep & Hs1).
  destruct (c_verdict c); [right; by exists (bool_decide (a = 1)), l'|left; split; [reflexivity|exact Hst']|].
  right. by exists (bool_decide (a = 1)), l'.
Qed.

Lemma redis_other c s l now0 :
  call_key c <> k -> now0 <= c_now c <= int64_max -> redis_stands now0 s l ->
  redis_stands (c_now c) (allow c s).2 l.
Proof.
  intros Hk [Hle _] Hst. apply (redis_later _ (c_now c)) in Hst; [|done].
  unfold allow, redis_limiter, Redis.Allow. fold (call_key c).
  destruct (Qle_bool _ 0); [done|]. unfold rateLimitLuaScript.
  destruct (match live _ _ _ with Some e => _ | None => _ end) as [current last].
  destruct Hst as (Ha & Hs & Hb). destruct (life <=? 0) eqn:El; [lia|].
  destruct (Qle_bool 1 _), (c_verdict c); simpl;
    (split; [done|]; split; [done|]; simpl; by rewrite ?lookup_insert_ne).
Qed.

#[export] Instance redis_refines : Refines (gmap string entry) k rps rate (rounding cap) :=
  {| stands := redis_stands; refines_call := redis_call; refines_other := redis_other |}.

End RedisRefines.

(** ** Waiting *)

Section Waiting.
Import InMemory.
#[local] Open Scope Q_scope.

Lemma int_of_float_inject z : (int64_min <= z <= int64_max)%Z -> int_of_float (inject_Z z) = z.
Proof.
  intros Hz. unfold int_of_float. simpl. rewrite Z.quot_1_r.
  destruct ((int64_min <=? z)%Z && (z <=? int64_max)%Z) eqn:E; [done|].
  apply andb_false_iff in E. lia.
Qed.

Lemma duration_of_ms_small z :
  (0 <= z <= 2 ^ 40)%Z -> duration_of_ms (Some (inject_Z z)) = (z * Millisecond)%Z.
Proof.
  intros Hz. unfold duration_of_ms.
  rewrite int_of_float_inject by (unfold int64_min, int64_max; lia).
  apply wraps_small; [done|]. unfold Millisecond. lia.
Qed.

(** A bucket that was refused a token and asked to wait [d] has one a millisecond later than
    that. *)
Lemma refused_then_due rps now now' b d b' :
  (1 # 1048576) <= rps -> rps <= 1048576 -> 0 <= tokens b -> (lastRefillAt b <= now)%Z ->
  take_token rps now b = (false, d, b') -> (lastRefillAt b' = now)%Z ->
  (now + d + Millisecond <= now')%Z -> (now' - now <= int64_max)%Z -> 0 <= tokens b' ->
  exists r b'', take_token rps now' b' = (true, r, b'').
Proof.
  intros Hr0 Hr1 Hb Hl Htake Hb' Hwait Hmax Hb0.
  assert (Hrps : 0 < rps) by lra. destruct (capacity_spec rps Hrps) as [_ Hc1].
  unfold take_token in Htake. destruct (Qle_bool 1 (tokens (refill rps now b))) eqn:E1; [done|].
  injection Htake as <- <-. simpl in Hb', Hb0.
  assert (Hlt : tokens (refill rps now b) < 1).
  { apply Qnot_le_lt. intros H. apply Qle_bool_iff in H. congruence. }
  destruct (retry_ms_bound _ rps Hb0 Hlt Hr0 Hr1) as (z & Ez & Hz & Hdue). rewrite Ez in Hwait.
  rewrite duration_of_ms_small in Hwait by lia.
  set (b1 := {| tokens := tokens (refill rps now b); lastRefillAt := lastRefillAt (refill rps now b);
                lastSeenAt := now |}).
  assert (Hsub : time_Sub now' now = (now' - now)%Z).
  { apply time_Sub_exact. unfold int64_min, Millisecond in *. lia. }
  destruct (seconds_some (now' - now)) as [el Eel]; [unfold Millisecond in *; lia|].
  assert (Hd : (0 < now' - now)%Z) by (unfold Millisecond in *; lia).
  destruct (seconds_bound _ _ (Z.lt_le_incl _ _ Hd) Eel) as (S0 & _ & S2 & S3). specialize (S3 Hd).
  assert (Hx : inject_Z z * (1 # 1000) + (1 # 1000) <= (now' - now # 1000000000)).
  { unfold Millisecond in Hwait. unfold Qle. simpl. lia. }
  set (x := (now' - now # 1000000000)) in *.
  assert (Hz0 : 0 <= inject_Z z) by (apply inject_nonneg; lia).
  assert (Hx0 : 0 <= x) by lra.
  assert (Hrx : rps * (inject_Z z * (1 # 1000)) + rps * (1 # 1000) <= rps * x).
  { rewrite <- Qmult_plus_distr_r, !(Qmult_comm rps). apply Qmult_le_compat_r; lra. }
  assert (Hge : 1 <= tokens (refill rps now' b1)).
  { unfold refill. cbn [lastRefillAt b1]. rewrite Hb', Hsub, Eel.
    destruct (Qle_bool el 0) eqn:Ez0; [apply Qle_bool_iff in Ez0; lra|].
    apply (refill_enough _ rps _ el x);
      [lra|lra|lra|exact Hb0|lra|lra|lra|cbn [tokens b1]; lra]. }
  unfold take_token. fold b1. apply Qle_bool_iff in Hge. rewrite Hge. eauto.
Qed.

End Waiting.

(** ** Properties *)

Section Properties.
Import InMemory.

(** C16: both limiters are the bucket.  Whatever calls the workers make, in whatever order and
    with whatever failures of Redis, the calls on one key of the limiter in memory and of the one
    in Redis (in the milliseconds of the server) are a run of the abstract bucket with exact
    arithmetic: every call that is answered is a request of the run with that answer, which finds the
    level refilled at the rate and cut at the burst, takes a token when it is let through and is refused
    only when there is less than one - all up to 2^-49 of the burst for rounding, in both directions;
    a call that fails is no request, or one whose answer was lost.  Conditions: a bucket is full again
    by the time the limiter forgets it (slower rates are not kept, [slow_rate_exceeded]), the burst is
    at most 2^52, the calls on the key agree on its rate, their times do not go back and count from an
    origin less than 292 years ago. *)
Theorem limiters_refine_bucket k rps life r calls t l :
  (0 < rps)%Q -> (capacity rps <= inject_Z (2 ^ 52))%Q -> calls_from k rps t calls ->
  (forall s, (life <= 0 \/ (capacity rps <= rps * (life # 1000000000))%Q) ->
     memory_stands k rps life t s l ->
     exists rs l', run (capacity rps) (rps * (1 # 1000000000)) (rounding (capacity rps)) l rs l'
       /\ answered k (serve calls s).1 rs)
  /\ (forall s, let ms := Z.quot (Redis.ttl r) Millisecond in
     0 < ms -> (capacity rps <= rps * (ms # 1000))%Q ->
     redis_stands k rps r t s l ->
     exists rs l', run (capacity rps) (rps * (1 # 1000)) (rounding (capacity rps)) l rs l'
       /\ answered k (serve (H := redis_limiter r) calls s).1 rs).
Proof.
  intros Hr Hc Hcalls. split.
  - intros s Hlife Hst. pose (R := memory_refines k rps life Hr Hc Hlife).
    by apply (serve_run k rps _ _ (Refines0 := R) calls t s l Hcalls).
  - intros s ms Hms Hlife Hst. pose (R := redis_refines k rps r Hr Hc Hms Hlife).
    by apply (serve_run k rps _ _ (Refines0 := R) calls t s l Hcalls).
Qed.

(** C32: the rate is kept.  In any window of calls the limiter in memory, and the one in Redis,
    lets through for one key at most the burst, plus the rate times the length of the window, plus
    2^-49 of the burst per call for rounding - provided a bucket is full again by the time the limiter
    forgets it (five minutes in the program; for slower rates the bound fails, [slow_rate_exceeded]),
    the burst is at most 2^52, the calls on the key agree on its rate and their times do not go back and
    count from an origin less than 292 years ago. *)
Theorem limiters_keep_rate k rps life r calls t l :
  (0 < rps)%Q -> (capacity rps <= inject_Z (2 ^ 52))%Q -> calls_from k rps t calls ->
  let window := default t (c_now <$> last calls) - t in
  let rounding_ := (inject_Z (Z.of_nat (length calls)) * rounding (capacity rps))%Q in
  (forall s, (life <= 0 \/ (capacity rps <= rps * (life # 1000000000))%Q) ->
     memory_stands k rps life t s l ->
     (inject_Z (let_through k (serve calls s).1)
      <= capacity rps + rps * (1 # 1000000000) * inject_Z window + rounding_)%Q)
  /\ (forall s, let ms := Z.quot (Redis.ttl r) Millisecond in
     0 < ms -> (capacity rps <= rps * (ms # 1000))%Q -> redis_stands k rps r t s l ->
     (inject_Z (let_through k (serve (H := redis_limiter r) calls s).1)
      <= capacity rps + rps * (1 # 1000) * inject_Z window + rounding_)%Q).
Proof.
  intros Hr Hc Hcalls window rounding_.
  assert (Hround : (0 <= rounding (capacity rps))%Q).
  { unfold rounding. destruct (capacity_spec rps Hr). lra. }
  split.
  - intros s Hlife Hst. pose (R := memory_refines k rps life Hr Hc Hlife).
    apply (window_let_through k rps _ _ (Refines0 := R) t s l calls); [lra|done..].
  - intros s ms Hms Hlife Hst. pose (R := redis_refines k rps r Hr Hc Hms Hlife).
    apply (window_let_through k rps _ _ (Refines0 := R) t s l calls); [lra|done..].
Qed.

Lemma fresh_granted rps now :
  (0 < rps)%Q -> exists b, take_token rps now (fresh rps now) = (true, 0, b).
Proof.
  intros Hr. destruct (capacity_spec rps Hr) as [_ Hc].
  assert (E : refill rps now (fresh rps now) = fresh rps now).
  { unfold refill. cbn [lastRefillAt fresh]. unfold time_Sub. rewrite Z.sub_diag.
    change (Z.max int64_min (Z.min int64_max 0)) with 0. vm_compute (duration_Seconds 0). done. }
  unfold take_token. rewrite E. apply Qle_bool_iff in Hc. simpl. rewrite Hc. eauto.
Qed.

(** Waiting helps.  For rates between 2^-20 and 2^20 per second, a request refused with
    [retryAfter] is let through when it is repeated a millisecond later than that. *)
Theorem retry_after_suffices cfg scope id s now now' d s' :
  let rps := Rps (RateLimit cfg) in
  (1 # 1048576 <= rps)%Q -> (rps <= 1048576)%Q ->
  match buckets s !! rate_key cfg scope id with
  | Some b => (0 <= tokens b)%Q /\ (tokens b <= capacity rps)%Q
              /\ lastRefillAt b <= now /\ now - lastRefillAt b <= int64_max
  | None => True
  end ->
  Allow None cfg scope id now s = (Ok (false, d), s') ->
  now + d + Millisecond <= now' -> now' - now <= int64_max ->
  exists s'', Allow None cfg scope id now' s' = (Ok (true, 0), s'').
Proof.
  intros rps Hr0 Hr1 Hb Ha Hwait Hmax. set (k := rate_key cfg scope id) in *.
  assert (Hr : (0 < rps)%Q) by lra.
  assert (Hcap : (capacity rps <= inject_Z (2 ^ 52))%Q).
  { unfold capacity. rewrite <- Zle_Qle. pose proof (Qceiling_resp_le _ _ Hr1) as Hc.
    change (Qceiling 1048576) with 1048576 in Hc. lia. }
  assert (Hq : Qle_bool rps 0 = false).
  { apply not_true_iff_false. rewrite Qle_bool_iff. lra. }
  unfold Allow in Ha |- *. fold rps in Ha |- *. rewrite Hq in Ha |- *. fold k in Ha |- *.
  set (s1 := cleanupExpiredLocked now s) in *. set (b := default (fresh rps now) (buckets s1 !! k)) in *.
  assert (Hbok : (0 <= tokens b)%Q /\ (tokens b <= capacity rps)%Q /\ lastRefillAt b <= now
                 /\ now - lastRefillAt b <= int64_max).
  { destruct (capacity_spec rps Hr) as [_ Hc1]. unfold b.
    destruct (buckets s1 !! k) as [b0|] eqn:Eb; simpl.
    - unfold s1, cleanupExpiredLocked in Eb. destruct (ttl s <=? 0); simpl in Eb.
      + by rewrite Eb in Hb.
      + apply map_lookup_filter_Some in Eb as [Eb _]. by rewrite Eb in Hb.
    - split; [lra|]. split; [apply Qle_refl|]. unfold int64_max. lia. }
  destruct Hbok as (B0 & B1 & B2 & B3).
  pose proof (take_token_step rps Hr Hcap b now B0 B1 B2 B3) as Hstep.
  destruct (take_token rps now b) as [[a d'] b'] eqn:Et. injection Ha as -> -> <-.
  destruct Hstep as (T0 & _ & T2 & _).
  destruct (refused_then_due rps now now' b d b' Hr0 Hr1 B0 B2 Et T2 Hwait Hmax T0) as (x & b'' & E).
  assert (x = 0) as ->.
  { unfold take_token in E. destruct (Qle_bool 1 _); [congruence|done]. }
  set (s2 := cleanupExpiredLocked now' _). 
  assert (Hs2 : buckets s2 !! k = Some b' \/ buckets s2 !! k = None).
  { unfold s2, cleanupExpiredLocked. simpl. destruct (ttl s1 <=? 0); simpl.
    - left. by rewrite lookup_insert_eq.
    - rewrite map_lookup_filter, lookup_insert_eq. simpl. case_guard; auto. }
  destruct Hs2 as [-> | ->]; simpl.
  - rewrite E. eauto.
  - destruct (fresh_granted rps now' Hr) as [b3 ->]. eauto.
Qed.

End Properties.

(** ** Concrete runs *)

Definition with_rps (rps : Q) (c : CrawlJobConfig) : CrawlJobConfig :=
  {| CfgID := CfgID c; CfgUserID := CfgUserID c; CfgName := CfgName c;
     CfgExtractionSpec := CfgExtractionSpec c; Scopes := Scopes c; Seeds := Seeds c;
     RateLimit := {| Rps := rps |}; Retries := Retries c; Auth := Auth c; Schedule := Schedule c;
     CfgJobType := CfgJobType c; RespectRobotsTxt := RespectRobotsTxt c;
     CfgCrawlMode := CfgCrawlMode c; QueueWeights := QueueWeights c |}.

Definition demo_call (rps : Q) (now : Z) : call :=
  {| c_cfg := with_rps rps demo_config; c_id := "a.b"; c_now := now; c_verdict := Succeeds |}.
Definition demo_key : string := call_key (demo_call 2 0).

(** Two requests per second: the burst, a refusal, and a token half a second later. *)
Example demo_limited :
  (fun p => p.2) <$> (serve (demo_call 2 <$> [0; 1; 2; 500000002; 500000003])
                        (InMemory.NewInMemoryRateLimiter 0)).1
  = [Ok (true, 0); Ok (true, 0); Ok (false, 500 * Millisecond); Ok (true, 0);
     Ok (false, 500 * Millisecond)].
Proof. vm_compute. reflexivity. Qed.

(** Slow rates are not kept.  The limiter in memory forgets a bucket after five minutes
    without calls and a new bucket is full, so a rate below one request in five minutes is not
    enforced: at 1/1024 per second, three requests 301 seconds apart are all let through, where
    the burst and the refill of the window allow fewer than two. *)
Theorem slow_rate_exceeded :
  let calls := demo_call (1 # 1024) <$> [0; 301 * Second; 602 * Second] in
  let_through demo_key (serve calls (InMemory.NewInMemoryRateLimiter 0)).1 = 3
  /\ (capacity (1 # 1024) + (1 # 1024) * (1 # 1000000000) * inject_Z (602 * Second)
      + inject_Z 3 * rounding (capacity (1 # 1024)) < 2)%Q.
Proof. split; vm_compute; reflexivity. Qed.

Lemma demo_calls_from : calls_from demo_key 2 0 (demo_call 2 <$> [0; 1; 2]).
Proof.
  repeat first [apply calls_nil | apply calls_cons; [split; vm_compute; congruence|done|]].
Defined.

Lemma demo_memory_stands :
  memory_stands demo_key 2 (5 * Minute) 0 (InMemory.NewInMemoryRateLimiter 0)
    {| amount := 2; since := 0 |}.
Proof.
  split; [reflexivity|]. split; [vm_compute; congruence|].
  split; [split; vm_compute; congruence|]. vm_compute. congruence.
Defined.

Lemma limiters_refine_bucket_witness :
  exists rs l',
    run (capacity 2) (2 * (1 # 1000000000)) (rounding (capacity 2)) {| amount := 2; since := 0 |} rs l'
    /\ rs = [(0, true); (1, true); (2, false)].
Proof.
  set (calls := demo_call 2 <$> [0; 1; 2]).
  destruct (limiters_refine_bucket demo_key 2 (5 * Minute) (Redis.NewRedisRateLimiter 0) calls 0
              {| amount := 2; since := 0 |} ltac:(vm_compute; reflexivity)
              ltac:(vm_compute; congruence) demo_calls_from) as [A _].
  destruct (A (InMemory.NewInMemoryRateLimiter 0) ltac:(right; vm_compute; congruence)
              demo_memory_stands) as (rs & l' & B & C).
  exists rs, l'. split; [exact B|].
  assert (E : (serve calls (InMemory.NewInMemoryRateLimiter 0)).1
              = combine calls [Ok (true, 0); Ok (true, 0); Ok (false, 500 * Millisecond)])
    by (vm_compute; reflexivity).
  rewrite E in C. clear -C. subst calls. simpl in C.
  repeat match goal with
  | H : answered _ (_ :: _) _ |- _ => inversion H; clear H; subst; [done|done|done|]
  | H : answered _ [] _ |- _ => inversion H; clear H; subst
  end. reflexivity.
Defined.

Lemma limiters_keep_rate_witness :
  let calls := demo_call 2 <$> [0; 1; 2] in
  (inject_Z (let_through demo_key (serve calls (InMemory.NewInMemoryRateLimiter 0)).1)
   <= capacity 2 + 2 * (1 # 1000000000) * inject_Z (default 0%Z (c_now <$> last calls) - 0)%Z
      + inject_Z (Z.of_nat (length calls)) * rounding (capacity 2))%Q.
Proof.
  intros calls.
  destruct (limiters_keep_rate demo_key 2 (5 * Minute) (Redis.NewRedisRateLimiter 0) calls 0
              {| amount := 2; since := 0 |} ltac:(vm_compute; reflexivity)
              ltac:(vm_compute; congruence) demo_calls_from) as [A _].
  exact (A (InMemory.NewInMemoryRateLimiter 0) ltac:(right; vm_compute; congruence)
           demo_memory_stands).
Defined.

Lemma retry_after_suffices_witness :
  let s := (serve (demo_call 2 <$> [0; 1]) (InMemory.NewInMemoryRateLimiter 0)).2 in
  let '(r, s') := InMemory.Allow None (with_rps 2 demo_config) "domain" "a.b" 2 s in
  r = Ok (false, 500 * Millisecond)
  /\ exists s'', InMemory.Allow None (with_rps 2 demo_config) "domain" "a.b"
                   (2 + 500 * Millisecond + Millisecond) s' = (Ok (true, 0), s'').
Proof.
  intros s. destruct (InMemory.Allow None (with_rps 2 demo_config) "domain" "a.b" 2 s) as [r s'] eqn:E.
  assert (Er : r = Ok (false, 500 * Millisecond)).
  { change r with ((r, s').1). rewrite <- E. vm_compute. reflexivity. }
  split; [exact Er|]. rewrite Er in E.
  apply (retry_after_suffices (with_rps 2 demo_config) "domain" "a.b" s 2
           (2 + 500 * Millisecond + Millisecond) (500 * Millisecond) s').
  - vm_compute. congruence.
  - vm_compute. congruence.
  - vm_compute. repeat split; congruence.
  - exact E.
  - vm_compute. congruence.
  - vm_compute. congruence.
Defined.
