(* ===== verification/Registry.v ===== *)
(** * Worker health

    [workerhealth/registry.go] and the API over it, [api/worker/worker_impl.go]: the records of the
    workers, the commands for them, and the handlers of the workers' streams.  Go's channels are
    kept in a store, since the registry and a handler share them: closing a closed channel and
    sending on one panics.  The handlers, their sender goroutines and the calls of the API run
    concurrently; the registry's lock makes each call of it one step. *)

From S2P Require Import Prelude GoStrings World.

#[export] Instance outcome_ret : MRet outcome := @Ret.
#[export] Instance outcome_bind : MBind outcome := fun A B f o =>
  match o with Ret a => f a | Panic msg => Panic msg end.

(** ** The data of registry.go *)

Notation Status := string (only parsing).
Definition StatusUnknown : Status := "UNKNOWN".
Definition StatusActive : Status := "ACTIVE".
Definition StatusInactive : Status := "INACTIVE".
Definition StatusDraining : Status := "DRAINING".
Definition StatusDead : Status := "DEAD".

Inductive CommandType := CommandDrain | CommandForceKill.

Record HeartbeatInfo := {
  hi_WorkerID : string; hi_WorkerType : string; hi_Status : Status;
  hi_Timestamp : Z; hi_StartedAt : Z }.

Record WorkerRecord := {
  WorkerID : string; WorkerType : string; WStatus : Status;
  LastHeartbeatAt : Z; WStartedAt : Z; LastStatusAt : Z }.

Record WorkerSnapshot := { Worker : WorkerRecord; Uptime : Z }.

Record Command := { CmdType : CommandType; Reason : string; IssuedAt : Z }.

#[export] Instance CommandType_eq_dec : EqDecision CommandType.
Proof. solve_decision. Defined.
#[export] Instance Command_eq_dec : EqDecision Command.
Proof. solve_decision. Defined.

(** A channel of commands; the registry makes them with room for 8. *)
Record channel := { buffered : list Command; closed : bool }.
Definition channel_cap : nat := 8.

(** [streams] holds references into [channels], the channels made so far. *)
Record Registry := {
  workers : gmap string WorkerRecord;
  streams : gmap string nat;
  pendingCommands : gmap string (list Command);
  channels : list channel;
  inactiveThreshold : Z;
  cleanupDelay : Z }.

Definition NewRegistry (threshold delay : Z) : Registry :=
  {| workers := ∅; streams := ∅; pendingCommands := ∅; channels := [];
     inactiveThreshold := threshold; cleanupDelay := delay |}.

Definition set_workers (ws : gmap string WorkerRecord) (r : Registry) : Registry :=
  {| workers := ws; streams := streams r; pendingCommands := pendingCommands r;
     channels := channels r; inactiveThreshold := inactiveThreshold r;
     cleanupDelay := cleanupDelay r |}.
Definition set_streams (ss : gmap string nat) (r : Registry) : Registry :=
  {| workers := workers r; streams := ss; pendingCommands := pendingCommands r;
     channels := channels r; inactiveThreshold := inactiveThreshold r;
     cleanupDelay := cleanupDelay r |}.
Definition set_pending (ps : gmap string (list Command)) (r : Registry) : Registry :=
  {| workers := workers r; streams := streams r; pendingCommands := ps;
     channels := channels r; inactiveThreshold := inactiveThreshold r;
     cleanupDelay := cleanupDelay r |}.
Definition set_channels (cs : list channel) (r : Registry) : Registry :=
  {| workers := workers r; streams := streams r; pendingCommands := pendingCommands r;
     channels := cs; inactiveThreshold := inactiveThreshold r;
     cleanupDelay := cleanupDelay r |}.

(** ** Channels *)

Definition close (c : nat) (r : Registry) : outcome Registry :=
  match channels r !! c with
  | Some ch =>
      if closed ch then Panic "close of closed channel"
      else Ret (set_channels (<[c := {| buffered := buffered ch; closed := true |}]> (channels r)) r)
  | None => Panic "close of nil channel"
  end.

(** [select { case ch <- cmd: ... default: ... }]; [None] when it would block. *)
Definition try_send (c : nat) (cmd : Command) (r : Registry) : outcome (option Registry) :=
  match channels r !! c with
  | Some ch =>
      if closed ch then Panic "send on closed channel"
      else if decide (length (buffered ch) < channel_cap)%nat then
        Ret (Some (set_channels
          (<[c := {| buffered := buffered ch ++ [cmd]; closed := false |}]> (channels r)) r))
      else Ret None
  | None => Ret None
  end.

(** ** The operations of registry.go *)

Definition normalizeStatus (status : Status) : Status :=
  if decide (status = StatusActive \/ status = StatusInactive \/ status = StatusDraining
             \/ status = StatusDead)
  then status else StatusUnknown.

Definition safeTime (t fallback : Z) : Z := if negb (IsZero t) then t else fallback.

Definition firstNonEmpty (v fallback : string) : string := if decide (v = "") then fallback else v.

Definition with_status (status : Status) (now : Z) (w : WorkerRecord) : WorkerRecord :=
  if decide (status = WStatus w) then w
  else {| WorkerID := WorkerID w; WorkerType := WorkerType w; WStatus := status;
          LastHeartbeatAt := LastHeartbeatAt w; WStartedAt := WStartedAt w; LastStatusAt := now |}.

Definition mark_inactive (threshold now : Z) (w : WorkerRecord) : WorkerRecord :=
  if decide (WStatus w = StatusDead) then w
  else if IsZero (LastHeartbeatAt w) then w
  else if threshold <? time_Sub now (LastHeartbeatAt w) then with_status StatusInactive now w
  else w.

Definition markInactiveLocked (now : Z) (r : Registry) : Registry :=
  if inactiveThreshold r =? 0 then r
  else set_workers (mark_inactive (inactiveThreshold r) now <$> workers r) r.

(** The status a record takes after a heartbeat that reports [status]. *)
Definition heartbeat_status (old status : Status) : Status :=
  let newStatus := normalizeStatus status in
  let newStatus := if decide (old = StatusDead) then StatusDead else newStatus in
  if decide (old = StatusDraining /\ newStatus = StatusActive) then StatusDraining else newStatus.

(** [clock] is [time.Now().UTC()], used when the heartbeat carries no time. *)
Definition UpdateHeartbeat (clock : Z) (info : HeartbeatInfo) (r : Registry) : Registry :=
  let now := if IsZero (hi_Timestamp info) then clock else hi_Timestamp info in
  let r := markInactiveLocked now r in
  let record :=
    match workers r !! hi_WorkerID info with
    | None =>
        {| WorkerID := hi_WorkerID info; WorkerType := hi_WorkerType info;
           WStatus := normalizeStatus (hi_Status info); LastHeartbeatAt := now;
           WStartedAt := safeTime (hi_StartedAt info) now; LastStatusAt := now |}
    | Some record =>
        with_status (heartbeat_status (WStatus record) (hi_Status info)) now
          {| WorkerID := WorkerID record;
             WorkerType := firstNonEmpty (hi_WorkerType info) (WorkerType record);
             WStatus := WStatus record; LastHeartbeatAt := now;
             WStartedAt := safeTime (hi_StartedAt info) (WStartedAt record);
             LastStatusAt := LastStatusAt record |}
    end in
  set_workers (<[hi_WorkerID info := record]> (workers r)) r.

Definition AttachStream (workerID : string) (r : Registry)
    : outcome (nat * list Command * Registry) :=
  r ← match streams r !! workerID with Some existing => close existing r | None => Ret r end;
  let stream := length (channels r) in
  let r := set_channels (channels r ++ [{| buffered := []; closed := false |}]) r in
  let r := set_streams (<[workerID := stream]> (streams r)) r in
  let pending := default [] (pendingCommands r !! workerID) in
  Ret (stream, pending, set_pending (delete workerID (pendingCommands r)) r).

Definition DetachStream (workerID : string) (r : Registry) : outcome Registry :=
  match streams r !! workerID with
  | Some ch => r ← close ch r; Ret (set_streams (delete workerID (streams r)) r)
  | None => Ret r
  end.

Definition ensureWorkerLocked (clock : Z) (workerID : string) (r : Registry) : WorkerRecord :=
  match workers r !! workerID with
  | Some record => record
  | None =>
      {| WorkerID := workerID; WorkerType := ""; WStatus := StatusUnknown; LastHeartbeatAt := 0;
         WStartedAt := clock; LastStatusAt := clock |}
  end.

Definition add_pending (workerID : string) (cmd : Command) (r : Registry) : Registry :=
  set_pending (<[workerID := default [] (pendingCommands r !! workerID) ++ [cmd]]>
                 (pendingCommands r)) r.

Definition sendCommand (clock : Z) (workerID : string) (cmd : Command) (status : Status)
    (r : Registry) : outcome (bool * Registry) :=
  let record := with_status status (IssuedAt cmd) (ensureWorkerLocked clock workerID r) in
  let r := set_workers (<[workerID := record]> (workers r)) r in
  match streams r !! workerID with
  | Some ch =>
      sent ← try_send ch cmd r;
      Ret match sent with
          | Some r => (true, r)
          | None => (false, add_pending workerID cmd r)
          end
  | None => Ret (false, add_pending workerID cmd r)
  end.

(** The two clocks: of the command, and of the record of a worker not known yet. *)
Definition drain_command (reason : string) (issued : Z) : Command :=
  {| CmdType := CommandDrain; Reason := reason; IssuedAt := issued |}.
Definition kill_command (reason : string) (issued : Z) : Command :=
  {| CmdType := CommandForceKill; Reason := reason; IssuedAt := issued |}.

Definition RequestDrain (workerID reason : string) (issued clock : Z) (r : Registry)
    : outcome (bool * Registry) :=
  sendCommand clock workerID (drain_command reason issued) StatusDraining r.
Definition RequestForceKill (workerID reason : string) (issued clock : Z) (r : Registry)
    : outcome (bool * Registry) :=
  sendCommand clock workerID (kill_command reason issued) StatusDead r.

(** The workers [cleanupInactiveLocked] deletes. *)
Definition expired (delay now : Z) (w : WorkerRecord) : bool :=
  bool_decide (WStatus w = StatusInactive \/ WStatus w = StatusDead)
  && (delay <? time_Sub now (LastStatusAt w)).

Definition cleanup_worker (now : Z) (workerID : string) (r : Registry) : outcome Registry :=
  match workers r !! workerID with
  | Some w =>
      if expired (cleanupDelay r) now w then
        let r := set_workers (delete workerID (workers r)) r in
        let r := set_pending (delete workerID (pendingCommands r)) r in
        match streams r !! workerID with
        | Some ch => r ← close ch r; Ret (set_streams (delete workerID (streams r)) r)
        | None => Ret r
        end
      else Ret r
  | None => Ret r
  end.

Fixpoint cleanup_workers (now : Z) (ids : list string) (r : Registry) : outcome Registry :=
  match ids with
  | [] => Ret r
  | id :: ids => r ← cleanup_worker now id r; cleanup_workers now ids r
  end.

(** [range] is the order in which Go ranges over the map. *)
Definition map_range : Type := gmap string WorkerRecord -> list string.

Definition cleanupInactiveLocked (range : map_range) (now : Z) (r : Registry) : outcome Registry :=
  if cleanupDelay r =? 0 then Ret r else cleanup_workers now (range (workers r)) r.

Definition uptimeFor (w : WorkerRecord) (now : Z) : Z :=
  if IsZero (WStartedAt w) then 0
  else if Before now (WStartedAt w) then 0
  else if bool_decide (WStatus w = StatusInactive \/ WStatus w = StatusDead)
          && negb (IsZero (LastHeartbeatAt w)) && After (LastHeartbeatAt w) (WStartedAt w)
  then time_Sub (LastHeartbeatAt w) (WStartedAt w)
  else time_Sub now (WStartedAt w).

Definition List (range : map_range) (clock now : Z) (r : Registry)
    : outcome (list WorkerSnapshot * Registry) :=
  let now := if IsZero now then clock else now in
  r ← cleanupInactiveLocked range now (markInactiveLocked now r);
  Ret (omap (fun id => w ← workers r !! id; Some {| Worker := w; Uptime := uptimeFor w now |})
         (range (workers r)), r).

(** ** The registry is sound

    [owners] names the worker each channel was made for.  The streams are the channels that are
    open, one at most for each worker, and no channel holds more than it has room for. *)

Record reg_ok (owners : list string) (r : Registry) : Prop := {
  ok_length : length (channels r) = length owners;
  ok_streams id c :
    streams r !! id = Some c
    <-> owners !! c = Some id /\ exists ch, channels r !! c = Some ch /\ closed ch = false;
  ok_bounded : Forall (fun ch => length (buffered ch) <= channel_cap)%nat (channels r) }.

(** Changes that leave the channels and the streams alone. *)
Lemma reg_ok_same owners r r' :
  reg_ok owners r -> channels r' = channels r -> streams r' = streams r -> reg_ok owners r'.
Proof. intros [Hl Hs Hb] Ec Es. split; rewrite Ec; [done| |done]. intros id c. by rewrite Es. Qed.

Lemma reg_ok_started threshold delay : reg_ok [] (NewRegistry threshold delay).
Proof.
  split; [done| |constructor]. intros id c. simpl. rewrite lookup_empty. split; [done|].
  intros [? _]. done.
Qed.

(** What a call leaves of the buffers: [close] and everything but sending keeps them. *)
Definition bufs (r : Registry) : list (list Command) := buffered <$> channels r.

Definition close_channel (c : nat) (r : Registry) : Registry :=
  set_channels (alter (fun ch => {| buffered := buffered ch; closed := true |}) c (channels r)) r.

Lemma close_open owners r id c :
  reg_ok owners r -> streams r !! id = Some c -> close c r = Ret (close_channel c r).
Proof.
  intros [_ Hs _] Hc. apply Hs in Hc as (_ & ch & Hch & Hopen). unfold close, close_channel.
  rewrite Hch, Hopen, list_insert_alter. do 2 f_equal.
  apply list_alter_ext; [|done]. intros x Hx. by simplify_eq.
Qed.

Lemma close_bufs c r : bufs (close_channel c r) = bufs r.
Proof.
  unfold bufs. simpl. apply list_eq. intros i. rewrite !list_lookup_fmap.
  destruct (decide (i = c)) as [->|Hne].
  - rewrite list_lookup_alter_eq. by destruct (channels r !! c).
  - by rewrite list_lookup_alter_ne.
Qed.

Lemma detached_ok owners r id c :
  reg_ok owners r -> streams r !! id = Some c ->
  reg_ok owners (set_streams (delete id (streams r)) (close_channel c r)).
Proof.
  intros [Hl Hs Hb] Hc. split; simpl.
  - by rewrite length_alter.
  - intros id' c'. rewrite lookup_delete_Some, Hs, list_lookup_alter.
    pose proof (proj1 (Hs _ _) Hc) as (Ho & _). case_decide as Heq.
    + subst c'. split; [intros [Hne [Ho' _]]; congruence|].
      intros [_ (ch & Hch & Hopen)]. destruct (channels r !! c); simpl in Hch; [|done].
      by injection Hch as <-.
    + split; [by intros [_ ?]|]. intros [Ho' Hch]. split; [|done]. intros <-.
      pose proof (proj2 (Hs id c') (conj Ho' Hch)) as E. congruence.
  - by apply Forall_alter.
Qed.

Lemma attached_ok owners r id :
  reg_ok owners r -> streams r !! id = None ->
  reg_ok (owners ++ [id])
    (set_streams (<[id := length (channels r)]> (streams r))
       (set_channels (channels r ++ [{| buffered := []; closed := false |}]) r)).
Proof.
  intros [Hl Hs Hb] Hn. split; simpl.
  - rewrite !length_app. simpl. lia.
  - intros id' c. rewrite lookup_insert_Some, Hs, !lookup_app_Some. split.
    + intros [[<- <-]|[Hne [Ho (ch & Hch & Hopen)]]].
      * split; [right; rewrite Hl, Nat.sub_diag; split; [lia|done]|].
        eexists. rewrite lookup_app_r, Nat.sub_diag by done. done.
      * split; [by left|]. exists ch. split; [|done]. by apply lookup_app_l_Some.
    + intros [Ho (ch & Hch & Hopen)]. apply lookup_app_Some in Hch as [Hch|[Hge Hch]].
      * right. pose proof (lookup_lt_Some _ _ _ Hch).
        destruct Ho as [Ho|[Hge _]]; [|lia]. split; [|by eauto]. intros <-.
        assert (streams r !! id = Some c) by (apply Hs; by eauto). congruence.
      * destruct Ho as [Ho|[_ Ho]]; [pose proof (lookup_lt_Some _ _ _ Ho); lia|].
        left. destruct (c - length owners)%nat eqn:E; [|done]. simpl in Ho. injection Ho as ->.
        split; [done|lia].
  - apply Forall_app. split; [done|]. constructor; [simpl; lia|constructor].
Qed.

Lemma attach_spec owners id r :
  reg_ok owners r ->
  exists r', AttachStream id r = Ret (length (channels r), default [] (pendingCommands r !! id), r')
    /\ reg_ok (owners ++ [id]) r' /\ bufs r' = bufs r ++ [[]]
    /\ pendingCommands r' = delete id (pendingCommands r) /\ workers r' = workers r.
Proof.
  intros Hok. unfold AttachStream. destruct (streams r !! id) as [c|] eqn:Ec.
  - rewrite (close_open _ _ _ _ Hok Ec). cbn [mbind outcome_bind].
    replace (length (channels r)) with (length (channels (close_channel c r)))
      by (simpl; by rewrite length_alter).
    eexists. split; [reflexivity|].
    split; [|split; [|done]].
    + pose proof (attached_ok _ _ id (detached_ok _ _ _ _ Hok Ec) (lookup_delete_eq _ _)) as Ha.
      eapply reg_ok_same; [exact Ha|done|]. simpl. by rewrite insert_delete_eq.
    + rewrite <- (close_bufs c r). unfold bufs at 1. simpl. by rewrite fmap_app.
  - eexists. split; [reflexivity|]. split; [|split; [|done]].
    + eapply reg_ok_same; [by apply attached_ok|done|done].
    + unfold bufs at 1. simpl. by rewrite fmap_app.
Qed.

Lemma detach_spec owners id r :
  reg_ok owners r ->
  exists r', DetachStream id r = Ret r' /\ reg_ok owners r' /\ bufs r' = bufs r
    /\ pendingCommands r' = pendingCommands r /\ workers r' = workers r
    /\ streams r' = delete id (streams r).
Proof.
  intros Hok. unfold DetachStream. destruct (streams r !! id) as [c|] eqn:Ec.
  - rewrite (close_open _ _ _ _ Hok Ec). eexists. split; [reflexivity|].
    split; [exact (detached_ok _ _ _ _ Hok Ec)|]. split; [exact (close_bufs c r)|done].
  - exists r. split_and!; try done. by rewrite delete_id.
Qed.

(** The command goes to the worker's open channel when it has room, and else waits. *)
Lemma send_spec owners clock id cmd status r :
  reg_ok owners r ->
  exists b r', sendCommand clock id cmd status r = Ret (b, r') /\ reg_ok owners r'
    /\ workers r' = <[id := with_status status (IssuedAt cmd) (ensureWorkerLocked clock id r)]> (workers r)
    /\ ((b = true /\ pendingCommands r' = pendingCommands r
         /\ exists c buf, owners !! c = Some id /\ bufs r !! c = Some buf
                          /\ bufs r' = <[c := buf ++ [cmd]]> (bufs r))
        \/ (b = false /\ bufs r' = bufs r
            /\ pendingCommands r' = <[id := default [] (pendingCommands r !! id) ++ [cmd]]> (pendingCommands r))).
Proof.
  intros Hok. unfold sendCommand. simpl.
  destruct (streams r !! id) as [c|] eqn:Ec.
  - destruct (proj1 (ok_streams _ _ Hok id c) Ec) as (Ho & ch & Hch & Hopen).
    unfold try_send. simpl. rewrite Hch, Hopen. case_decide as Hroom; simpl.
    + eexists _, _. split; [reflexivity|]. destruct Hok as [Hl Hs Hb]. split; [split; simpl|].
      * by rewrite length_insert.
      * intros id' c'. rewrite Hs. destruct (decide (c' = c)) as [->|Hne].
        -- rewrite list_lookup_insert_eq by (by eapply lookup_lt_Some). split.
           ++ intros [? _]. split; [done|]. by eexists.
           ++ intros [? _]. split; [done|]. by exists ch.
        -- by rewrite list_lookup_insert_ne.
      * apply Forall_insert; [done|]. simpl. rewrite length_app. simpl. lia.
      * split; [done|]. left. split; [done|]. split; [done|]. exists c, (buffered ch).
        split; [done|]. split; [unfold bufs; by rewrite list_lookup_fmap, Hch|].
        unfold bufs. simpl. by rewrite list_fmap_insert.
    + eexists _, _. split; [reflexivity|]. split; [by apply (reg_ok_same owners r)|].
      split; [done|]. by right.
  - eexists _, _. split; [reflexivity|]. split; [by apply (reg_ok_same owners r)|].
    split; [done|]. by right.
Qed.

(** Whether a clean-up at [now] that visits [ids] removes worker [id]. *)
Definition cleaned (now : Z) (ids : list string) (r : Registry) (id : string) : bool :=
  bool_decide (id ∈ ids)
  && match workers r !! id with Some w => expired (cleanupDelay r) now w | None => false end.

Lemma cleanup_worker_spec owners now id r :
  reg_ok owners r ->
  exists r', cleanup_worker now id r = Ret r' /\ reg_ok owners r' /\ bufs r' = bufs r
    /\ cleanupDelay r' = cleanupDelay r
    /\ workers r' = (if cleaned now [id] r id then delete id (workers r) else workers r)
    /\ pendingCommands r' = (if cleaned now [id] r id then delete id (pendingCommands r)
                             else pendingCommands r).
Proof.
  intros Hok. unfold cleanup_worker, cleaned. rewrite bool_decide_eq_true_2 by set_solver. simpl.
  destruct (workers r !! id) as [w|]; [|by exists r].
  destruct (expired _ _ w); [|by exists r].
  set (r1 := set_pending _ _). assert (Hok1 : reg_ok owners r1) by (by apply (reg_ok_same owners r)).
  destruct (streams r !! id) as [c|] eqn:Ec.
  - rewrite (close_open _ _ id c Hok1 Ec). eexists. split; [reflexivity|].
    split; [exact (detached_ok _ _ _ _ Hok1 Ec)|]. split; [exact (close_bufs c r1)|done].
  - by exists r1.
Qed.

Lemma cleanup_spec owners now ids r :
  reg_ok owners r ->
  exists r', cleanup_workers now ids r = Ret r' /\ reg_ok owners r' /\ bufs r' = bufs r
    /\ cleanupDelay r' = cleanupDelay r
    /\ (forall id, workers r' !! id = if cleaned now ids r id then None else workers r !! id)
    /\ (forall id, pendingCommands r' !! id
                   = if cleaned now ids r id then None else pendingCommands r !! id).
Proof.
  revert r. induction ids as [|i ids IH]; intros r Hok.
  - by exists r.
  - destruct (cleanup_worker_spec _ now i r Hok) as (r1 & E1 & Hok1 & Hb1 & Hd1 & Hw1 & Hp1).
    destruct (IH r1 Hok1) as (r' & E & Hok' & Hb & Hd & Hw & Hp).
    exists r'. simpl. rewrite E1. split; [done|]. split; [done|]. split; [congruence|].
    split; [congruence|].
    assert (Hc : forall id, cleaned now (i :: ids) r id
              = (bool_decide (id = i) && cleaned now [i] r i) || cleaned now ids r1 id).
    { intros id. unfold cleaned at 1 3. rewrite Hd1, Hw1.
      destruct (decide (id = i)) as [->|Hne].
      - rewrite !bool_decide_eq_true_2 by set_solver. unfold cleaned.
        rewrite bool_decide_eq_true_2 by set_solver. simpl.
        destruct (workers r !! i) as [w|] eqn:Ew; simpl; [|by rewrite Ew, andb_false_r].
        destruct (expired _ _ w) eqn:Eexp; [done|]. rewrite Ew, Eexp. by rewrite andb_false_r.
      - rewrite (bool_decide_eq_false_2 (id = i)) by done. simpl.
        replace (bool_decide (id ∈ i :: ids)) with (bool_decide (id ∈ ids))
          by (apply bool_decide_ext; set_solver).
        destruct (cleaned now [i] r i); [by rewrite lookup_delete_ne|done]. }
    split; intros id; rewrite Hc; [rewrite Hw, Hw1|rewrite Hp, Hp1];
      destruct (cleaned now ids r1 id); rewrite ?orb_true_r, ?orb_false_r; try done;
      destruct (cleaned now [i] r i); rewrite ?andb_true_r, ?andb_false_r; try done;
      case_bool_decide; subst; by rewrite ?lookup_delete_eq, ?lookup_delete_ne.
Qed.

(** ** The records *)

(** A record stands under the name it carries. *)
Definition named (r : Registry) : Prop := map_Forall (fun id w => WorkerID w = id) (workers r).

Lemma with_status_id status now w : WorkerID (with_status status now w) = WorkerID w.
Proof. unfold with_status. by case_decide. Qed.

Lemma with_status_status status now w : WStatus (with_status status now w) = status.
Proof. unfold with_status. by case_decide. Qed.

Lemma with_status_heartbeat status now w :
  LastHeartbeatAt (with_status status now w) = LastHeartbeatAt w.
Proof. unfold with_status. by case_decide. Qed.

Lemma mark_inactive_cases threshold now w :
  (mark_inactive threshold now w = w
   /\ (WStatus w = StatusDead \/ LastHeartbeatAt w = 0 \/ time_Sub now (LastHeartbeatAt w) <= threshold))
  \/ (mark_inactive threshold now w = with_status StatusInactive now w
      /\ WStatus w <> StatusDead /\ threshold < time_Sub now (LastHeartbeatAt w)).
Proof.
  unfold mark_inactive. case_decide as Hd; [left; by auto|].
  destruct (IsZero (LastHeartbeatAt w)) eqn:Ez; [left; split; [done|]; right; left|].
  { unfold IsZero in Ez. by apply bool_decide_eq_true in Ez. }
  destruct (Z.ltb_spec threshold (time_Sub now (LastHeartbeatAt w))); [by right|].
  left. split; [done|]. by right; right.
Qed.

Lemma mark_inactive_id threshold now w : WorkerID (mark_inactive threshold now w) = WorkerID w.
Proof.
  destruct (mark_inactive_cases threshold now w) as [[-> _]|[-> _]]; [done|apply with_status_id].
Qed.

Lemma markInactive_lookup now r id :
  workers (markInactiveLocked now r) !! id
  = (if inactiveThreshold r =? 0 then Datatypes.id else mark_inactive (inactiveThreshold r) now)
      <$> workers r !! id.
Proof.
  unfold markInactiveLocked. destruct (inactiveThreshold r =? 0).
  - by destruct (workers r !! id).
  - simpl. by rewrite lookup_fmap.
Qed.

Lemma markInactive_named now r : named r -> named (markInactiveLocked now r).
Proof.
  intros Hn id w. rewrite markInactive_lookup. intros (w0 & Hw0 & ->)%fmap_Some.
  apply Hn in Hw0 as <-. destruct (_ =? 0); [done|apply mark_inactive_id].
Qed.

Lemma markInactive_ok owners now r : reg_ok owners r -> reg_ok owners (markInactiveLocked now r).
Proof.
  intros Hok. unfold markInactiveLocked. destruct (_ =? 0); [done|]. by apply (reg_ok_same owners r).
Qed.

Lemma markInactive_rest now r :
  bufs (markInactiveLocked now r) = bufs r
  /\ pendingCommands (markInactiveLocked now r) = pendingCommands r
  /\ cleanupDelay (markInactiveLocked now r) = cleanupDelay r.
Proof. unfold markInactiveLocked. by destruct (_ =? 0). Qed.

Lemma heartbeat_ok owners clock info r :
  reg_ok owners r -> reg_ok owners (UpdateHeartbeat clock info r).
Proof.
  intros Hok. unfold UpdateHeartbeat. set (now := if _ : bool then _ else _).
  by apply (reg_ok_same owners (markInactiveLocked now r)); [apply markInactive_ok|..].
Qed.

Lemma heartbeat_rest clock info r :
  bufs (UpdateHeartbeat clock info r) = bufs r
  /\ pendingCommands (UpdateHeartbeat clock info r) = pendingCommands r.
Proof.
  unfold UpdateHeartbeat. set (now := if _ : bool then _ else _).
  destruct (markInactive_rest now r) as (? & ? & _). done.
Qed.

Lemma heartbeat_named clock info r : named r -> named (UpdateHeartbeat clock info r).
Proof.
  intros Hn. unfold UpdateHeartbeat. set (now := if _ : bool then _ else _).
  apply map_Forall_insert_2; [|by apply markInactive_named].
  destruct (workers (markInactiveLocked now r) !! hi_WorkerID info) as [w|] eqn:Ew; simpl; [|done].
  rewrite with_status_id. simpl. by apply (markInactive_named now r Hn) in Ew.
Qed.

(** What [List] does, with the records it keeps. *)
Lemma List_spec owners range clock now r :
  reg_ok owners r ->
  let t := if IsZero now then clock else now in
  let r1 := markInactiveLocked t r in
  let gone id := negb (cleanupDelay r =? 0) && cleaned t (range (workers r1)) r1 id in
  exists r',
    List range clock now r
      = Ret (omap (fun id => w ← workers r' !! id; Some {| Worker := w; Uptime := uptimeFor w t |})
               (range (workers r')), r')
    /\ reg_ok owners r' /\ bufs r' = bufs r
    /\ (forall id, workers r' !! id = if gone id then None else workers r1 !! id)
    /\ (forall id, pendingCommands r' !! id = if gone id then None else pendingCommands r !! id).
Proof.
  intros Hok t r1 gone. unfold List. fold t. fold r1.
  destruct (markInactive_rest t r) as (Hb & Hp & Hd). fold r1 in Hb, Hp, Hd.
  assert (Hok1 : reg_ok owners r1) by (by apply markInactive_ok).
  unfold cleanupInactiveLocked, gone. rewrite <- Hd. destruct (cleanupDelay r1 =? 0).
  - exists r1. simpl. rewrite Hp. done.
  - destruct (cleanup_spec owners t (range (workers r1)) r1 Hok1) as (r' & -> & Hok' & Hb' & _ & Hw' & Hp').
    exists r'. simpl. split; [done|]. split; [done|]. split; [congruence|]. split; [done|].
    intros id. by rewrite Hp', Hp.
Qed.
