(* ===== verification/WorkerStream.v ===== *)
(** * The coordinator's side of the worker streams

    [api/worker/worker_impl.go]: the handler of a worker's stream with its sender goroutine, and the
    calls of the API on the registry, as a machine whose steps interleave in any order. *)

From S2P Require Import Prelude GoStrings World Registry.

(** ** Messages of the stream: open enumerations and timestamps that may be missing *)

Definition WORKER_STATUS_UNSPECIFIED : Z := 0.
Definition WORKER_STATUS_ACTIVE : Z := 1.
Definition WORKER_STATUS_INACTIVE : Z := 2.
Definition WORKER_STATUS_DRAINING : Z := 3.
Definition WORKER_STATUS_DEAD : Z := 4.
Definition WORKER_COMMAND_DRAIN : Z := 1.
Definition WORKER_COMMAND_FORCE_KILL : Z := 2.

Record WorkerHeartbeat := {
  whb_worker_id : string; whb_worker_type : string; whb_status : Z;
  whb_timestamp : option Z; whb_started_at : option Z }.
Record WorkerCommand := { wc_type : Z; wc_reason : string; wc_issued_at : Z }.
Record WorkerInfo := {
  wi_worker_id : string; wi_worker_type : string; wi_status : Z;
  wi_last_heartbeat_at : Z; wi_uptime : Z }.
Record CommandResponse := { cr_delivered : bool; cr_message : string }.

Definition toProtoStatus (status : string) : Z :=
  if decide (status = StatusActive) then WORKER_STATUS_ACTIVE
  else if decide (status = StatusInactive) then WORKER_STATUS_INACTIVE
  else if decide (status = StatusDraining) then WORKER_STATUS_DRAINING
  else if decide (status = StatusDead) then WORKER_STATUS_DEAD
  else WORKER_STATUS_UNSPECIFIED.

Definition fromProtoStatus (status : Z) : string :=
  if status =? WORKER_STATUS_ACTIVE then StatusActive
  else if status =? WORKER_STATUS_INACTIVE then StatusInactive
  else if status =? WORKER_STATUS_DRAINING then StatusDraining
  else if status =? WORKER_STATUS_DEAD then StatusDead
  else StatusUnknown.

Definition toProtoCommandType (t : CommandType) : Z :=
  match t with CommandDrain => WORKER_COMMAND_DRAIN | CommandForceKill => WORKER_COMMAND_FORCE_KILL end.

Definition toProtoCommand (cmd : Command) : WorkerCommand :=
  {| wc_type := toProtoCommandType (CmdType cmd); wc_reason := Reason cmd;
     wc_issued_at := IssuedAt cmd |}.

Definition timestampOrNow (clock : Z) (ts : option Z) : Z := default clock ts.
Definition timestampOrZero (ts : option Z) : Z := default 0 ts.

(** [clock] serves both calls of [time.Now()], here and in the registry: the second is made only
    for a heartbeat whose time is Go's zero time. *)
Definition handleHeartbeat (clock : Z) (hb : WorkerHeartbeat) (r : Registry) : Registry :=
  UpdateHeartbeat clock
    {| hi_WorkerID := whb_worker_id hb; hi_WorkerType := whb_worker_type hb;
       hi_Status := fromProtoStatus (whb_status hb);
       hi_Timestamp := timestampOrNow clock (whb_timestamp hb);
       hi_StartedAt := timestampOrZero (whb_started_at hb) |} r.

(** ** The API *)

Definition id_required : gerror := ESentinel "codes.InvalidArgument" "worker_id is required".

Definition ListWorkers (range : map_range) (clock : Z) (r : Registry)
    : outcome (list WorkerInfo * Registry) :=
  match List range clock clock r with
  | Ret (snapshots, r) =>
      Ret ((fun s =>
              {| wi_worker_id := WorkerID (Worker s); wi_worker_type := WorkerType (Worker s);
                 wi_status := toProtoStatus (WStatus (Worker s));
                 wi_last_heartbeat_at := LastHeartbeatAt (Worker s); wi_uptime := Uptime s |})
             <$> snapshots, r)
  | Panic msg => Panic msg
  end.

Definition DrainWorker (workerID reason : string) (issued clock : Z) (r : Registry)
    : outcome (res CommandResponse * Registry) :=
  if decide (workerID = "") then Ret (Err id_required, r)
  else
    match RequestDrain workerID reason issued clock r with
    | Ret (delivered, r) =>
        Ret (Ok {| cr_delivered := delivered;
                   cr_message := if delivered : bool then "drain command delivered"
                                 else "drain command queued" |}, r)
    | Panic msg => Panic msg
    end.

Definition ForceKillWorker (workerID reason : string) (issued clock : Z) (r : Registry)
    : outcome (res CommandResponse * Registry) :=
  if decide (workerID = "") then Ret (Err id_required, r)
  else
    match RequestForceKill workerID reason issued clock r with
    | Ret (delivered, r) =>
        Ret (Ok {| cr_delivered := delivered;
                   cr_message := if delivered : bool then "force kill command delivered"
                                 else "force kill command queued" |}, r)
    | Panic msg => Panic msg
    end.

(** ** The handler of a stream

    Where the handler is: the first heartbeat is not handled yet, it waits in [Recv], it looks at
    [sendErr], it has a result but its deferred [DetachStream] has not run yet, it has returned. *)
Inductive phase :=
| First (heartbeat : WorkerHeartbeat)
| Receiving
| Polling
| Returning (r : res unit)
| Finished.

(** [s_pending] is what [AttachStream] returned and the sender has not sent yet, [s_sending] says
    whether the sender still runs, [s_sendErr] what it left on its channel ([Some None] is nil). *)
Record session := {
  s_worker : string;
  s_stream : nat;
  s_phase : phase;
  s_pending : list Command;
  s_sending : bool;
  s_sendErr : option (option gerror) }.

Record system := { registry : Registry; sessions : list session }.

(** What an observer sees: commands the API accepted, commands sent on a stream or lost by it,
    commands dropped with the record of their worker, and handlers that return: before they attach, or the
    n-th that attached. *)
Inductive event :=
| Issued (workerID : string) (cmd : Command) (delivered : bool)
| Sent (workerID : string) (cmd : Command)
| SendFailed (workerID : string) (cmd : Command)
| Dropped (workerID : string) (cmd : Command)
| Refused (r : res unit)
| Returned (n : nat) (r : res unit).

(** The steps: a stream opens (its first [Recv]); the handler of the n-th handles the first
    heartbeat, receives once more, looks at [sendErr], runs its deferred call; the sender sends (with
    what [Send] returns) or sees its context done; and the calls of the API. *)
Inductive action :=
| Open (recv : res WorkerHeartbeat)
| HandleFirst (n : nat) (clock : Z)
| Receive (n : nat) (recv : res WorkerHeartbeat) (clock : Z)
| Poll (n : nat)
| Detach (n : nat)
| SenderStep (n : nat) (sendErr : option gerror)
| SenderDone (n : nat) (ctxErr : gerror)
| Drain (workerID reason : string) (issued clock : Z)
| ForceKill (workerID reason : string) (issued clock : Z)
| ListAll (range : map_range) (clock : Z).

Definition set_session (n : nat) (s : session) (st : system) : system :=
  {| registry := registry st; sessions := <[n := s]> (sessions st) |}.
Definition set_registry (r : Registry) (st : system) : system :=
  {| registry := r; sessions := sessions st |}.

Definition in_phase (p : phase) (s : session) : session :=
  {| s_worker := s_worker s; s_stream := s_stream s; s_phase := p; s_pending := s_pending s;
     s_sending := s_sending s; s_sendErr := s_sendErr s |}.
Definition with_pending (l : list Command) (s : session) : session :=
  {| s_worker := s_worker s; s_stream := s_stream s; s_phase := s_phase s; s_pending := l;
     s_sending := s_sending s; s_sendErr := s_sendErr s |}.
(** The sender ends and leaves [e]. *)
Definition sender_ends (e : option gerror) (s : session) : session :=
  {| s_worker := s_worker s; s_stream := s_stream s; s_phase := s_phase s;
     s_pending := s_pending s; s_sending := false; s_sendErr := Some e |}.

Definition recv_result (e : gerror) : res unit := if errors_Is e "io.EOF" then Ok tt else Err e.

(** The handler up to the start of the sender. *)
Definition open_stream (recv : res WorkerHeartbeat) (st : system)
    : outcome (list event * system) :=
  match recv with
  | Err e => Ret ([Refused (recv_result e)], st)
  | Ok hb =>
      if decide (whb_worker_id hb = "") then Ret ([Refused (Err id_required)], st)
      else
        match AttachStream (whb_worker_id hb) (registry st) with
        | Panic msg => Panic msg
        | Ret (commandCh, pending, r) =>
            Ret ([],
                 {| registry := r;
                    sessions := sessions st ++
                      [{| s_worker := whb_worker_id hb; s_stream := commandCh;
                          s_phase := First hb; s_pending := pending;
                          s_sending := true; s_sendErr := None |}] |})
        end
  end.

(** The end of [stream.Send]. *)
Definition sent (cmd : Command) (sendErr : option gerror) (n : nat) (s : session) (st : system)
    : list event * system :=
  match sendErr with
  | None => ([Sent (s_worker s) cmd], set_session n s st)
  | Some e => ([SendFailed (s_worker s) cmd], set_session n (sender_ends (Some e) s) st)
  end.

(** One round of the sender goroutine; it waits while there is nothing to send. *)
Definition sender_step (n : nat) (s : session) (sendErr : option gerror) (st : system)
    : list event * system :=
  match s_pending s with
  | cmd :: rest => sent cmd sendErr n (with_pending rest s) st
  | [] =>
      match channels (registry st) !! s_stream s with
      | Some ch =>
          match buffered ch with
          | cmd :: rest =>
              let r := set_channels
                (<[s_stream s := {| buffered := rest; closed := closed ch |}]>
                   (channels (registry st))) (registry st) in
              sent cmd sendErr n s (set_registry r st)
          | [] => if closed ch then ([], set_session n (sender_ends None s) st) else ([], st)
          end
      | None => ([], st)
      end
  end.

(** After a heartbeat: [select { case err := <-sendErr: ... default: }]. *)
Definition poll_result (sendErr : option gerror) : res unit :=
  match sendErr with
  | None => Ok tt
  | Some e => if errors_Is e "context.Canceled" then Ok tt else Err e
  end.

Definition poll (s : session) : session :=
  match s_sendErr s with
  | None => in_phase Receiving s
  | Some e =>
      in_phase (Returning (poll_result e))
        {| s_worker := s_worker s; s_stream := s_stream s; s_phase := s_phase s;
           s_pending := s_pending s; s_sending := s_sending s; s_sendErr := None |}
  end.

(** The commands that go with the records a call deletes. *)
Definition dropped (r r' : Registry) : list event :=
  map_to_list (pendingCommands r ∖ pendingCommands r') ≫= fun kv => Dropped kv.1 <$> kv.2.

Definition issue (workerID : string) (cmd : Command) (o : outcome (res CommandResponse * Registry))
    (st : system) : outcome (list event * system) :=
  match o with
  | Ret (Ok resp, r) => Ret ([Issued workerID cmd (cr_delivered resp)], set_registry r st)
  | Ret (Err _, r) => Ret ([], set_registry r st)
  | Panic msg => Panic msg
  end.

(** A step that is not possible changes nothing. *)
Definition act (a : action) (st : system) : outcome (list event * system) :=
  let on n (k : session -> outcome (list event * system)) :=
    match sessions st !! n with Some s => k s | None => Ret ([], st) end in
  match a with
  | Open recv => open_stream recv st
  | HandleFirst n clock =>
      on n (fun s => match s_phase s with
                     | First hb =>
                         Ret ([], set_session n (in_phase Receiving s)
                                    (set_registry (handleHeartbeat clock hb (registry st)) st))
                     | _ => Ret ([], st)
                     end)
  | Receive n recv clock =>
      on n (fun s => match s_phase s, recv with
                     | Receiving, Err e =>
                         Ret ([], set_session n (in_phase (Returning (recv_result e)) s) st)
                     | Receiving, Ok hb =>
                         Ret ([], set_session n (in_phase Polling s)
                                    (set_registry (handleHeartbeat clock hb (registry st)) st))
                     | _, _ => Ret ([], st)
                     end)
  | Poll n =>
      on n (fun s => match s_phase s with
                     | Polling => Ret ([], set_session n (poll s) st)
                     | _ => Ret ([], st)
                     end)
  | Detach n =>
      on n (fun s => match s_phase s with
                     | Returning res =>
                         match DetachStream (s_worker s) (registry st) with
                         | Ret r => Ret ([Returned n res],
                                         set_session n (in_phase Finished s) (set_registry r st))
                         | Panic msg => Panic msg
                         end
                     | _ => Ret ([], st)
                     end)
  | SenderStep n sendErr =>
      on n (fun s => Ret (if s_sending s then sender_step n s sendErr st else ([], st)))
  | SenderDone n ctxErr =>
      on n (fun s => Ret (if s_sending s && bool_decide (s_pending s = [])
                          then ([], set_session n (sender_ends (Some ctxErr) s) st) else ([], st)))
  | Drain workerID reason issued clock =>
      issue workerID (drain_command reason issued)
        (DrainWorker workerID reason issued clock (registry st)) st
  | ForceKill workerID reason issued clock =>
      issue workerID (kill_command reason issued)
        (ForceKillWorker workerID reason issued clock (registry st)) st
  | ListAll range clock =>
      match ListWorkers range clock (registry st) with
      | Ret (_, r) => Ret (dropped (registry st) r, set_registry r st)
      | Panic msg => Panic msg
      end
  end.

(** Steps in a row. *)
Fixpoint acts (l : list action) (st : system) : outcome (list event * system) :=
  match l with
  | [] => Ret ([], st)
  | a :: l =>
      match act a st with
      | Ret (es, st) =>
          match acts l st with
          | Ret (es', st) => Ret (es ++ es', st)
          | Panic msg => Panic msg
          end
      | Panic msg => Panic msg
      end
  end.

Definition started (threshold delay : Z) : system :=
  {| registry := NewRegistry threshold delay; sessions := [] |}.

(** ** Every command is accounted for

    The commands an event of a kind carries for a worker, and those of a worker that are held: in
    the registry's queue, by a sender, in a channel. *)

Definition issued_command (e : event) : option (string * Command) :=
  match e with Issued w cmd _ => Some (w, cmd) | _ => None end.
Definition sent_command (e : event) : option (string * Command) :=
  match e with Sent w cmd => Some (w, cmd) | _ => None end.
Definition failed_command (e : event) : option (string * Command) :=
  match e with SendFailed w cmd => Some (w, cmd) | _ => None end.
Definition dropped_command (e : event) : option (string * Command) :=
  match e with Dropped w cmd => Some (w, cmd) | _ => None end.

Definition commands (kind : event -> option (string * Command)) (w : string) (es : list event)
    : list Command :=
  es ≫= fun e => match kind e with
                 | Some (w', cmd) => if decide (w' = w) then [cmd] else []
                 | None => []
                 end.

Definition share (w : string) (s : session) (buf : list Command) : list Command :=
  if decide (s_worker s = w) then s_pending s ++ buf else [].

Definition held (w : string) (st : system) : list Command :=
  default [] (pendingCommands (registry st) !! w)
  ++ concat (zip_with (share w) (sessions st) (bufs (registry st))).

Definition gone (w : string) (es : list event) : list Command :=
  commands sent_command w es ++ commands failed_command w es ++ commands dropped_command w es.

Lemma commands_app kind w es es' :
  commands kind w (es ++ es') = commands kind w es ++ commands kind w es'.
Proof. apply bind_app. Qed.

#[export] Instance commands_proper kind w : Proper ((≡ₚ) ==> (≡ₚ)) (commands kind w).
Proof. intros es es' Hes. unfold commands. by rewrite Hes. Qed.

Lemma concat_insert {A} (l : list (list A)) i x y :
  l !! i = Some x -> x ++ concat (<[i := y]> l) ≡ₚ y ++ concat l.
Proof.
  revert i. induction l as [|z l IH]; intros [|i] H; simplify_eq/=; [solve_Permutation|].
  rewrite (Permutation_app_swap_app x), (Permutation_app_swap_app y). by rewrite IH.
Qed.

(** ** The invariant of the coordinator *)

Record system_ok (st : system) : Prop := {
  so_registry : reg_ok (s_worker <$> sessions st) (registry st);
  so_streams n s : sessions st !! n = Some s -> s_stream s = n;
  so_named : named (registry st) }.

Lemma started_ok threshold delay : system_ok (started threshold delay).
Proof. split; [apply reg_ok_started|done|apply map_Forall_empty]. Qed.

Lemma set_registry_ok r st :
  system_ok st -> reg_ok (s_worker <$> sessions st) r -> named r -> system_ok (set_registry r st).
Proof. intros [_ Hs _] Hr Hn. by split. Qed.

Lemma set_session_ok n s s' st :
  system_ok st -> sessions st !! n = Some s -> s_worker s' = s_worker s ->
  s_stream s' = s_stream s -> system_ok (set_session n s' st).
Proof.
  intros [Hr Hs Hn] Hl Hw Hst. split; simpl; [| |done].
  - rewrite list_fmap_insert, Hw, list_insert_id; [done|]. by rewrite list_lookup_fmap, Hl.
  - intros m x Hx. destruct (decide (m = n)) as [->|Hne].
    + rewrite list_lookup_insert_eq in Hx by (by eapply lookup_lt_Some).
      injection Hx as <-. rewrite Hst. by apply Hs.
    + rewrite list_lookup_insert_ne in Hx by done. by apply Hs.
Qed.

(** What a step owes: it returns, and what was held or issued is held or gone. *)
Definition good_step (st : system) (o : outcome (list event * system)) : Prop :=
  exists es st', o = Ret (es, st') /\ system_ok st'
    /\ forall w, commands issued_command w es ++ held w st ≡ₚ held w st' ++ gone w es.

Lemma good_quiet st es st' :
  system_ok st' -> (forall w, held w st' = held w st) ->
  (forall w, commands issued_command w es = [] /\ gone w es = []) -> good_step st (Ret (es, st')).
Proof.
  intros Hok Hh Hes. exists es, st'. split; [done|]. split; [done|]. intros w.
  destruct (Hes w) as [-> ->]. by rewrite Hh, app_nil_r.
Qed.

Lemma held_registry r st w :
  bufs r = bufs (registry st) -> pendingCommands r = pendingCommands (registry st) ->
  held w (set_registry r st) = held w st.
Proof. intros Hb Hp. unfold held. simpl. by rewrite Hb, Hp. Qed.

Lemma held_session n s s' st w :
  sessions st !! n = Some s -> s_worker s' = s_worker s -> s_pending s' = s_pending s ->
  held w (set_session n s' st) = held w st.
Proof.
  intros Hl Hw Hp. unfold held. simpl. do 2 f_equal.
  apply list_eq. intros i. rewrite !lookup_zip_with.
  destruct (decide (i = n)) as [->|Hne]; [|by rewrite list_lookup_insert_ne].
  rewrite list_lookup_insert_eq, Hl by (by eapply lookup_lt_Some). simpl.
  destruct (bufs (registry st) !! n); simpl; [|done]. unfold share. by rewrite Hw, Hp.
Qed.

(** A session and its buffer change. *)
Lemma held_update n s s' b b' r st w :
  sessions st !! n = Some s -> bufs (registry st) !! n = Some b ->
  bufs r = <[n := b']> (bufs (registry st)) ->
  pendingCommands r = pendingCommands (registry st) ->
  share w s b ++ held w (set_session n s' (set_registry r st)) ≡ₚ share w s' b' ++ held w st.
Proof.
  intros Hs Hb Er Ep. unfold held. simpl. rewrite Er, Ep, <- insert_zip_with.
  rewrite (Permutation_app_swap_app (share w s b)), (Permutation_app_swap_app (share w s' b')).
  rewrite concat_insert; [done|]. by rewrite lookup_zip_with, Hs, Hb.
Qed.

Definition quiet (es : list event) : Prop :=
  forall w, commands issued_command w es = [] /\ gone w es = [].

Lemma good_session st n s s' r es :
  system_ok st -> sessions st !! n = Some s ->
  s_worker s' = s_worker s -> s_stream s' = s_stream s -> s_pending s' = s_pending s ->
  reg_ok (s_worker <$> sessions st) r -> named r ->
  bufs r = bufs (registry st) -> pendingCommands r = pendingCommands (registry st) ->
  quiet es -> good_step st (Ret (es, set_session n s' (set_registry r st))).
Proof.
  intros Hok Hs Hw Hst Hp Hr Hn Hb Hpe Hq. apply good_quiet; [| |done].
  - by apply (set_session_ok n s); [apply set_registry_ok|..].
  - intros w. rewrite (held_session n s); [by apply held_registry|done..].
Qed.

(** The sender's outcome on a command it has taken from [b], leaving [b']. *)
Lemma good_sent st n s s1 cmd sendErr r b b' :
  system_ok st -> sessions st !! n = Some s -> bufs (registry st) !! n = Some b ->
  s_worker s1 = s_worker s -> s_stream s1 = s_stream s ->
  reg_ok (s_worker <$> sessions st) r -> named r ->
  bufs r = <[n := b']> (bufs (registry st)) ->
  pendingCommands r = pendingCommands (registry st) ->
  s_pending s ++ b = cmd :: (s_pending s1 ++ b') ->
  good_step st (Ret (sent cmd sendErr n s1 (set_registry r st))).
Proof.
  intros Hok Hs Hb Hw Hst Hr Hn Er Ep Hcmd.
  assert (Hstep : forall s2 e, s_worker s2 = s_worker s -> s_stream s2 = s_stream s ->
      s_pending s2 = s_pending s1 ->
      e = Sent (s_worker s1) cmd \/ e = SendFailed (s_worker s1) cmd ->
      good_step st (Ret ([e], set_session n s2 (set_registry r st)))).
  { intros s2 e Hw2 Hst2 Hp2 He. eexists _, _. split; [reflexivity|].
    split; [by apply (set_session_ok n s); [apply set_registry_ok|..]|]. intros w.
    pose proof (held_update n s s2 b b' r st w Hs Hb Er Ep) as Hu.
    assert (Hgone : gone w [e] = if decide (s_worker s = w) then [cmd] else []).
    { rewrite <- Hw. by destruct He as [-> | ->]; unfold gone, commands; simpl; case_decide. }
    assert (Hissued : commands issued_command w [e] = []) by (by destruct He as [-> | ->]).
    rewrite Hissued, Hgone. simpl. revert Hu. unfold share at 1 2. rewrite Hw2, Hcmd, Hp2.
    case_decide; intros Hu; [|by rewrite app_nil_r].
    apply (Permutation_app_inv_l (s_pending s1 ++ b')). rewrite <- Hu.
    rewrite <- Permutation_middle. solve_Permutation. }
  destruct sendErr as [e|]; apply Hstep; try done; [by right|by left].
Qed.

Lemma good_sender st n s sendErr :
  system_ok st -> sessions st !! n = Some s -> good_step st (Ret (sender_step n s sendErr st)).
Proof.
  intros Hok Hs. pose proof (so_streams _ Hok n s Hs) as Hst. pose proof Hok as [Hr _ Hn].
  assert (Hst' : set_registry (registry st) st = st) by (by destruct st).
  assert (Hch : exists ch, channels (registry st) !! n = Some ch).
  { apply lookup_lt_is_Some. rewrite (ok_length _ _ Hr), length_fmap. by eapply lookup_lt_Some. }
  destruct Hch as [ch Hch].
  assert (Hb : bufs (registry st) !! n = Some (buffered ch)).
  { unfold bufs. by rewrite list_lookup_fmap, Hch. }
  unfold sender_step. destruct (s_pending s) as [|cmd rest] eqn:Ep.
  - rewrite Hst, Hch. destruct (buffered ch) as [|cmd rest] eqn:Eb.
    + destruct (closed ch); [|by apply good_quiet].
      rewrite <- Hst' at 2. by apply (good_session st n s).
    + eapply (good_sent st n s s cmd _ _ _ rest); try done.
      * destruct Hr as [Hl Hss Hbd]. split; simpl.
        -- by rewrite length_insert.
        -- intros id c. rewrite Hss. destruct (decide (c = n)) as [->|Hne].
           ++ rewrite list_lookup_insert_eq by (by eapply lookup_lt_Some). rewrite Hch. split.
              ** intros [? (? & [= <-] & ?)]. split; [done|]. by eexists.
              ** intros [? (? & [= <-] & ?)]. split; [done|]. by exists ch.
           ++ by rewrite list_lookup_insert_ne.
        -- apply Forall_insert; [done|]. simpl. rewrite Forall_lookup in Hbd.
           specialize (Hbd _ _ Hch). rewrite Eb in Hbd. simpl in Hbd. lia.
      * unfold bufs. simpl. by rewrite list_fmap_insert.
      * by rewrite Ep.
  - rewrite <- Hst' at 2. eapply (good_sent st n s _ cmd _ _ _ (buffered ch)); try done.
    + by rewrite list_insert_id.
    + by rewrite Ep.
Qed.

Lemma good_open st recv : system_ok st -> good_step st (open_stream recv st).
Proof.
  intros Hok. unfold open_stream. destruct recv as [hb|e]; [|by apply good_quiet].
  case_decide as Hid; [by apply good_quiet|].
  destruct (attach_spec _ (whb_worker_id hb) _ (so_registry _ Hok)) as (r & -> & Hr & Hb & Hp & Hw).
  pose proof (ok_length _ _ (so_registry _ Hok)) as Hlen. rewrite length_fmap in Hlen.
  eexists _, _. split; [reflexivity|]. split; [split; simpl|].
  - by rewrite fmap_app.
  - intros n s Hs. apply lookup_app_Some in Hs as [Hs|[Hge Hs]]; [by apply Hok|].
    destruct (n - length (sessions st))%nat eqn:E; [|done]. injection Hs as <-. simpl. lia.
  - unfold named. rewrite Hw. apply Hok.
  - intros w. unfold held, gone, commands. simpl. rewrite Hb, Hp, app_nil_r.
    rewrite zip_with_app by (unfold bufs; by rewrite length_fmap).
    rewrite concat_app. simpl. unfold share at 3. simpl. rewrite !app_nil_r.
    destruct (decide (whb_worker_id hb = w)) as [<-|Hne].
    + rewrite lookup_delete_eq. simpl. apply Permutation_app_comm.
    + by rewrite lookup_delete_ne, app_nil_r.
Qed.

(** The buffer and the session of a channel. *)
Lemma session_of st c w :
  system_ok st -> (s_worker <$> sessions st) !! c = Some w ->
  exists s, sessions st !! c = Some s /\ s_worker s = w.
Proof. intros _. rewrite list_lookup_fmap. intros (s & Hs & ->)%fmap_Some. by exists s. Qed.

Lemma held_session_id st n s :
  sessions st !! n = Some s -> forall r, set_session n s (set_registry r st) = set_registry r st.
Proof. intros Hs r. unfold set_session. simpl. by rewrite list_insert_id. Qed.

Lemma good_command st w cmd o :
  system_ok st ->
  (exists b r, o = Ret (b, r) /\ reg_ok (s_worker <$> sessions st) r /\ named r
     /\ ((b = true /\ pendingCommands r = pendingCommands (registry st)
          /\ exists c buf, (s_worker <$> sessions st) !! c = Some w /\ bufs (registry st) !! c = Some buf
                          /\ bufs r = <[c := buf ++ [cmd]]> (bufs (registry st)))
         \/ (b = false /\ bufs r = bufs (registry st)
             /\ pendingCommands r
                = <[w := default [] (pendingCommands (registry st) !! w) ++ [cmd]]>
                    (pendingCommands (registry st))))) ->
  forall f, good_step st
    (issue w cmd (match o with
                  | Ret (b, r) => Ret (Ok {| cr_delivered := b; cr_message := f b |}, r)
                  | Panic msg => Panic msg
                  end) st).
Proof.
  intros Hok (b & r & -> & Hr & Hn & Hcase) f. simpl.
  eexists _, _. split; [reflexivity|]. split; [by apply set_registry_ok|]. intros w'.
  unfold gone, commands. simpl. rewrite !app_nil_r.
  destruct Hcase as [(_ & Hp & c & buf & Hc & Hbuf & Hb)|(_ & Hb & Hp)].
  - destruct (session_of _ _ _ Hok Hc) as (s & Hs & Hsw).
    pose proof (held_update c s s buf (buf ++ [cmd]) r st w' Hs Hbuf Hb Hp) as Hu.
    rewrite (held_session_id _ _ _ Hs) in Hu. revert Hu. unfold share. rewrite Hsw.
    case_decide; [|done]. intros Hu. apply (Permutation_app_inv_l (s_pending s ++ buf)).
    rewrite Hu. solve_Permutation.
  - unfold held. simpl. rewrite Hb, Hp. case_decide as Hww.
    + subst w'. rewrite lookup_insert_eq. simpl. solve_Permutation.
    + by rewrite lookup_insert_ne.
Qed.

Lemma send_good st w cmd status clock :
  system_ok st -> w <> "" ->
  forall f, good_step st
    (issue w cmd (match sendCommand clock w cmd status (registry st) with
                  | Ret (b, r) => Ret (Ok {| cr_delivered := b; cr_message := f b |}, r)
                  | Panic msg => Panic msg
                  end) st).
Proof.
  intros Hok _. apply good_command; [done|].
  destruct (send_spec _ clock w cmd status _ (so_registry _ Hok)) as (b & r & -> & Hr & Hw & Hcase).
  exists b, r. split; [done|]. split; [done|]. split; [|done]. unfold named. rewrite Hw.
  apply map_Forall_insert_2; [|apply Hok]. rewrite with_status_id. unfold ensureWorkerLocked.
  destruct (workers (registry st) !! w) as [x|] eqn:Ex; [|done]. by apply (so_named _ Hok) in Ex.
Qed.

Lemma dropped_commands (m : gmap string (list Command)) w :
  commands dropped_command w (map_to_list m ≫= fun kv => Dropped kv.1 <$> kv.2)
  ≡ₚ default [] (m !! w).
Proof.
  assert (Hone : forall k l, commands dropped_command w (Dropped k <$> l) = if decide (k = w) then l else []).
  { intros k l. induction l as [|x l IH]; [by case_decide|].
    rewrite fmap_cons. change (commands dropped_command w (?e :: ?es))
      with ((if decide (k = w) then [x] else []) ++ commands dropped_command w es).
    rewrite IH. by case_decide. }
  induction m as [|k l m Hk IH] using map_ind.
  - by rewrite map_to_list_empty, lookup_empty.
  - rewrite (bind_Permutation _ _ _ (map_to_list_insert m k l Hk)) at 1. 
    rewrite bind_cons, commands_app, Hone, IH. simpl. case_decide as Hkw.
    + subst. by rewrite lookup_insert_eq, Hk, app_nil_r.
    + by rewrite lookup_insert_ne.
Qed.

Lemma List_named owners range clock now r snaps r' :
  reg_ok owners r -> named r -> List range clock now r = Ret (snaps, r') -> named r'.
Proof.
  intros Hok Hn E. destruct (List_spec owners range clock now r Hok) as (r1 & E1 & _ & _ & Hw & _).
  rewrite E1 in E. injection E as _ <-. intros id w. rewrite Hw. destruct (_ && _); [done|].
  apply markInactive_named, Hn.
Qed.

Lemma commands_none kind w es : Forall (fun e => kind e = None) es -> commands kind w es = [].
Proof. induction 1 as [|e es He _ IH]; [done|]. unfold commands. simpl. rewrite He. exact IH. Qed.

Lemma dropped_kinds r r' :
  Forall (fun e => issued_command e = None /\ sent_command e = None /\ failed_command e = None)
    (dropped r r').
Proof.
  apply Forall_forall. intros e (kv & He & _)%list_elem_of_bind.
  by apply list_elem_of_fmap in He as (cmd & -> & _).
Qed.

Lemma good_list st range clock : system_ok st -> good_step st (act (ListAll range clock) st).
Proof.
  intros Hok. simpl. unfold ListWorkers.
  destruct (List_spec _ range clock clock _ (so_registry _ Hok)) as (r & E & Hr & Hb & Hw & Hp).
  pose proof (List_named _ _ _ _ _ _ _ (so_registry _ Hok) (so_named _ Hok) E) as Hn.
  rewrite E. eexists _, _. split; [reflexivity|]. split; [by apply set_registry_ok|].
  intros w. pose proof (dropped_kinds (registry st) r) as Hk.
  unfold gone. rewrite !commands_none by (eapply Forall_impl; [exact Hk|]; naive_solver).
  unfold dropped. rewrite dropped_commands. unfold held. simpl. rewrite Hb.
  rewrite lookup_difference, Hp. destruct (_ && _); simpl; [solve_Permutation|].
  by destruct (pendingCommands (registry st) !! w); rewrite app_nil_r.
Qed.

(** Every step returns, keeps the invariant and accounts for the commands. *)
Lemma act_good a st : system_ok st -> good_step st (act a st).
Proof.
  intros Hok. pose proof Hok as [Hr _ Hn].
  assert (Hst : set_registry (registry st) st = st) by (by destruct st).
  destruct a as [recv|n clock|n recv clock|n|n|n e|n e|w reason issued clock|w reason issued clock|range clock];
    simpl; try destruct (sessions st !! n) as [s|] eqn:Es; try (by apply good_quiet).
  - by apply good_open.
  - destruct (s_phase s); try (by apply good_quiet).
    apply (good_session st n s); try done; try apply heartbeat_rest;
      [by apply heartbeat_ok|by apply heartbeat_named].
  - destruct (s_phase s), recv as [hb|err]; try (by apply good_quiet).
    + apply (good_session st n s); try done; try apply heartbeat_rest;
        [by apply heartbeat_ok|by apply heartbeat_named].
    + rewrite <- Hst at 2. by apply (good_session st n s).
  - destruct (s_phase s); try (by apply good_quiet). rewrite <- Hst at 2.
    by apply (good_session st n s); try done; unfold poll; destruct (s_sendErr s).
  - destruct (s_phase s); try (by apply good_quiet).
    destruct (detach_spec _ (s_worker s) _ Hr) as (r1 & -> & Hr' & Hb & Hp & Hw & _).
    apply (good_session st n s); try done. unfold named. by rewrite Hw.
  - destruct (s_sending s); [by apply good_sender|by apply good_quiet].
  - destruct (s_sending s && _); [|by apply good_quiet]. rewrite <- Hst at 2.
    by apply (good_session st n s).
  - unfold DrainWorker. case_decide; [simpl; rewrite Hst; by apply good_quiet|].
    by apply send_good.
  - unfold ForceKillWorker. case_decide; [simpl; rewrite Hst; by apply good_quiet|].
    by apply send_good.
  - by apply good_list.
Qed.

Lemma acts_good l : forall st, system_ok st -> good_step st (acts l st).
Proof.
  induction l as [|a l IH]; intros st Hok; [by apply good_quiet|]. simpl.
  destruct (act_good a st Hok) as (es & st1 & -> & Hok1 & Hc1).
  destruct (IH st1 Hok1) as (es' & st' & -> & Hok' & Hc').
  eexists _, _. split; [reflexivity|]. split; [done|]. intros w. unfold gone.
  rewrite !commands_app. specialize (Hc1 w). specialize (Hc' w). unfold gone in *.
  rewrite <- (Permutation_app_comm (commands issued_command w es')), <- app_assoc, Hc1.
  rewrite app_assoc, Hc'. solve_Permutation.
Qed.

(** C17: the coordinator is sound.  Whatever the streams, their senders and the API do and however
    their steps interleave, nothing panics (no channel is closed twice or sent on when closed), each
    worker has at most one open channel and it belongs to one of its streams, no channel holds more
    than 8 commands, and every command the API accepted for a worker is held by the registry or a
    stream, or was sent on one of its streams, failed there, or was dropped with the worker's
    record: exactly once. *)
Theorem coordinator_sound threshold delay l :
  exists es st,
    acts l (started threshold delay) = Ret (es, st) /\ system_ok st
    /\ forall w,
         commands issued_command w es
         ≡ₚ held w st ++ commands sent_command w es ++ commands failed_command w es
            ++ commands dropped_command w es.
Proof.
  destruct (acts_good l _ (started_ok threshold delay)) as (es & st & E & Hok & Hc).
  exists es, st. split; [done|]. split; [done|]. intros w.
  specialize (Hc w). unfold held at 1, gone in Hc. simpl in Hc.
  rewrite lookup_empty, app_nil_r in Hc. exact Hc.
Qed.

(** What a sender has to send. *)
Definition to_send (n : nat) (s : session) (st : system) : list Command :=
  s_pending s ++ default [] (bufs (registry st) !! n).

Lemma sender_takes st n s cmd rest :
  system_ok st -> sessions st !! n = Some s -> s_sending s = true -> to_send n s st = cmd :: rest ->
  exists s' st', act (SenderStep n None) st = Ret ([Sent (s_worker s) cmd], st')
    /\ sessions st' !! n = Some s' /\ s_sending s' = true /\ s_worker s' = s_worker s
    /\ to_send n s' st' = rest
    /\ (closed <$> channels (registry st')) = (closed <$> channels (registry st)).
Proof.
  intros Hok Hs Hrun Hcmd. simpl. rewrite Hs, Hrun. unfold sender_step.
  pose proof (lookup_lt_Some _ _ _ Hs) as Hlt.
  unfold to_send in Hcmd. destruct (s_pending s) as [|c p] eqn:Ep.
  - rewrite (so_streams _ Hok _ _ Hs). simpl in Hcmd. unfold bufs in Hcmd.
    rewrite list_lookup_fmap in Hcmd. destruct (channels (registry st) !! n) as [ch|] eqn:Ech; [|done].
    simpl in Hcmd. rewrite Hcmd. eexists s, _. split; [reflexivity|]. simpl.
    rewrite list_lookup_insert_eq by done. split; [done|]. split; [done|]. split; [done|].
    unfold to_send, bufs. simpl. pose proof (lookup_lt_Some _ _ _ Ech).
    rewrite Ep, list_lookup_fmap, list_lookup_insert_eq by done. split; [done|].
    rewrite list_fmap_insert. simpl. by rewrite list_insert_id by (by rewrite list_lookup_fmap, Ech).
  - injection Hcmd as -> Hrest. eexists _, _. split; [reflexivity|]. simpl.
    rewrite list_lookup_insert_eq by done. split; [reflexivity|]. by split_and!.
Qed.

(** A sender that runs delivers.  While [Send] succeeds, a stream's sender sends everything it
    was given and everything buffered in its channel, in order and even when the channel has been
    closed, in as many rounds as there are commands; it ends only when the channel is closed and
    empty. *)
Theorem sender_flushes threshold delay l es st n s :
  acts l (started threshold delay) = Ret (es, st) ->
  sessions st !! n = Some s -> s_sending s = true ->
  exists st' s',
    acts (repeat (SenderStep n None) (length (to_send n s st))) st
      = Ret (Sent (s_worker s) <$> to_send n s st, st')
    /\ sessions st' !! n = Some s' /\ s_sending s' = true /\ to_send n s' st' = []
    /\ act (SenderStep n None) st'
       = Ret ([], if decide (closed <$> channels (registry st) !! n = Some true)
                  then set_session n (sender_ends None s') st' else st').
Proof.
  intros E. pose proof (acts_good l _ (started_ok threshold delay)) as (es1 & st1 & E1 & Hok & _).
  rewrite E in E1. injection E1 as _ <-. clear E.
  remember (to_send n s st) as cmds eqn:Ec. symmetry in Ec. revert st s Hok Ec.
  induction cmds as [|cmd cmds IH]; intros st s Hok Ec Hs Hrun.
  - exists st, s. split; [done|]. split; [done|]. split; [done|]. split; [done|].
    unfold to_send in Ec. apply app_nil in Ec as [Ep Eb]. simpl. rewrite Hs, Hrun.
    unfold sender_step. rewrite Ep, (so_streams _ Hok _ _ Hs).
    unfold bufs in Eb. rewrite list_lookup_fmap in Eb.
    destruct (channels (registry st) !! n) as [ch|]; simpl in *; [|done]. rewrite Eb.
    by destruct (closed ch).
  - destruct (sender_takes st n s cmd cmds Hok Hs Hrun Ec) as (s1 & st1 & Ea & Hs1 & Hrun1 & Hw1 & Ec1 & Hcl).
    destruct (act_good (SenderStep n None) st Hok) as (es2 & st2 & Ea2 & Hok1 & _).
    rewrite Ea in Ea2. injection Ea2 as _ <-.
    destruct (IH st1 s1 Hok1 Ec1 Hs1 Hrun1) as (st' & s' & Eacts & Hs' & Hrun' & Hrest & Hlast).
    exists st', s'. cbn [repeat length acts]. rewrite Ea, Eacts, Hw1. split; [done|].
    split; [done|]. split; [done|]. split; [done|]. rewrite Hlast.
    assert (Ecl : closed <$> channels (registry st1) !! n = closed <$> channels (registry st) !! n).
    { by rewrite <- !list_lookup_fmap, Hcl. }
    by rewrite Ecl.
Qed.

(** Whether a worker's last heartbeat is older than the threshold at [now]. *)
Definition late (r : Registry) (now : Z) (w : WorkerRecord) : bool :=
  negb (inactiveThreshold r =? 0) && negb (IsZero (LastHeartbeatAt w))
  && (inactiveThreshold r <? time_Sub now (LastHeartbeatAt w)).

Definition status_of (r : Registry) (id : string) : option string := WStatus <$> workers r !! id.

Lemma markInactive_status r now id :
  status_of (markInactiveLocked now r) id
  = (fun w => if decide (WStatus w = StatusDead) then StatusDead
              else if late r now w then StatusInactive else WStatus w) <$> workers r !! id.
Proof.
  unfold status_of. rewrite markInactive_lookup. destruct (workers r !! id) as [w|]; [|done].
  simpl. f_equal. unfold late. destruct (inactiveThreshold r =? 0); simpl.
  { case_decide; congruence. }
  unfold mark_inactive. case_decide; [done|]. destruct (IsZero _); [done|]. simpl.
  destruct (_ <? _); [|done]. apply with_status_status.
Qed.

(** The status of the worker whose heartbeat it is. *)
Lemma own_heartbeat_status clock info r :
  let now := if IsZero (hi_Timestamp info) then clock else hi_Timestamp info in
  let reported := normalizeStatus (hi_Status info) in
  status_of (UpdateHeartbeat clock info r) (hi_WorkerID info)
  = Some match workers r !! hi_WorkerID info with
         | None => reported
         | Some w =>
             if decide (WStatus w = StatusDead) then StatusDead
             else if decide (WStatus w = StatusDraining /\ reported = StatusActive /\ late r now w = false)
             then StatusDraining else reported
         end.
Proof.
  intros now reported. unfold UpdateHeartbeat. fold now. unfold status_of at 1. simpl.
  pose proof (markInactive_status r now (hi_WorkerID info)) as Hmark. unfold status_of in Hmark.
  rewrite lookup_insert_eq. simpl.
  destruct (workers (markInactiveLocked now r) !! hi_WorkerID info) as [w1|];
    destruct (workers r !! hi_WorkerID info) as [w|]; try done. simpl. rewrite with_status_status.
  injection Hmark as Hw1. unfold heartbeat_status. rewrite Hw1. fold reported. f_equal.
  destruct (decide (WStatus w = StatusDead)) as [Ed|Hnd]; [done|].
  destruct (late r now w); [repeat case_decide; naive_solver|].
  rewrite (decide_False (P := WStatus w = StatusDead)) by done. repeat case_decide; naive_solver.
Qed.

(** What a heartbeat does to the statuses.  The worker takes the status it reports, except
    that a dead worker stays dead and a draining one that reports itself active stays draining; but
    the exception for draining is lost when the heartbeat comes late, for the worker has been made
    inactive first.  Every other worker keeps its status, or is made inactive when its last
    heartbeat is older than the threshold and it is not dead. *)
Theorem heartbeat_statuses clock info r id :
  let now := if IsZero (hi_Timestamp info) then clock else hi_Timestamp info in
  let reported := normalizeStatus (hi_Status info) in
  status_of (UpdateHeartbeat clock info r) id
  = match workers r !! id with
    | None => if decide (id = hi_WorkerID info) then Some reported else None
    | Some w =>
        Some (if decide (WStatus w = StatusDead) then StatusDead
              else if decide (id = hi_WorkerID info) then
                if decide (WStatus w = StatusDraining /\ reported = StatusActive /\ late r now w = false)
                then StatusDraining else reported
              else if late r now w then StatusInactive else WStatus w)
    end.
Proof.
  intros now reported. destruct (decide (id = hi_WorkerID info)) as [->|Hne].
  - rewrite own_heartbeat_status. fold now reported. by destruct (workers r !! hi_WorkerID info).
  - pose proof (markInactive_status r now id) as Hmark. unfold status_of in Hmark |- *.
    unfold UpdateHeartbeat. fold now. simpl. rewrite lookup_insert_ne by done. rewrite Hmark.
    by destruct (workers r !! id).
Qed.

Lemma uptime_nonneg w now : 0 <= uptimeFor w now.
Proof.
  unfold uptimeFor, Before, After, time_Sub, int64_min, int64_max.
  destruct (IsZero (WStartedAt w)); [lia|]. case_bool_decide; [lia|].
  destruct (_ && _) eqn:E; [|lia]. apply andb_true_iff in E as [_ E].
  apply bool_decide_eq_true in E. lia.
Qed.

(** The answer of [ListWorkers], when Go's order covers the map. *)
Definition reported_status (r : Registry) (now : Z) (w : WorkerRecord) : string :=
  if decide (WStatus w = StatusDead) then StatusDead
  else if late r now w then StatusInactive else WStatus w.

Definition info_of (now : Z) (w : WorkerRecord) : WorkerInfo :=
  {| wi_worker_id := WorkerID w; wi_worker_type := WorkerType w;
     wi_status := toProtoStatus (WStatus w); wi_last_heartbeat_at := LastHeartbeatAt w;
     wi_uptime := uptimeFor w now |}.

Lemma omap_workers (m : gmap string WorkerRecord) now (ids : list string) :
  map_Forall (fun id w => WorkerID w = id) m ->
  wi_worker_id <$> ((fun s => info_of now (Worker s))
    <$> omap (fun id => w ← m !! id; Some {| Worker := w; Uptime := uptimeFor w now |}) ids)
  = filter (fun id => is_Some (m !! id)) ids.
Proof.
  intros Hn. induction ids as [|id ids IH]; [done|]. rewrite filter_cons. simpl.
  case_decide as Hid; destruct (m !! id) as [w|] eqn:Ew; simpl; [|by destruct Hid| |exact IH].
  - f_equal; [by apply Hn in Ew|exact IH].
  - destruct Hid. by exists w.
Qed.

Lemma ListWorkers_infos owners range clock r :
  reg_ok owners r -> clock <> 0 ->
  exists r', ListWorkers range clock r
    = Ret ((fun s => info_of clock (Worker s))
             <$> omap (fun id => w ← workers r' !! id; Some {| Worker := w; Uptime := uptimeFor w clock |})
                   (range (workers r')), r')
    /\ List range clock clock r
       = Ret (omap (fun id => w ← workers r' !! id; Some {| Worker := w; Uptime := uptimeFor w clock |})
                (range (workers r')), r')
    /\ forall id, workers r' !! id
         = let r1 := markInactiveLocked clock r in
           if negb (cleanupDelay r =? 0) && cleaned clock (range (workers r1)) r1 id then None
           else workers r1 !! id.
Proof.
  intros Hok Hc. destruct (List_spec owners range clock clock r Hok) as (r' & E & _ & _ & Hw & _).
  unfold IsZero in *. rewrite (bool_decide_eq_false_2 _ Hc) in *. exists r'. split; [|split; done].
  unfold ListWorkers. rewrite E. do 2 f_equal. apply list_fmap_ext. intros i s Hs.
  apply list_elem_of_lookup_2, list_elem_of_omap in Hs as (id & _ & Hs).
  destruct (workers r' !! id) as [w|]; [|done]. by injection Hs as <-.
Qed.

Lemma markInactive_keeps r clock w :
  let w' := (if inactiveThreshold r =? 0 then Datatypes.id
             else mark_inactive (inactiveThreshold r) clock) w in
  WorkerType w' = WorkerType w /\ LastHeartbeatAt w' = LastHeartbeatAt w.
Proof.
  simpl. destruct (inactiveThreshold r =? 0); [done|].
  destruct (mark_inactive_cases (inactiveThreshold r) clock w) as [[-> _]|[-> _]]; [done|].
  unfold with_status. by case_decide.
Qed.

(** What [ListWorkers] answers.  In every state the coordinator reaches, the answer names each
    worker that is left exactly once, with the type and the last heartbeat of its record, an uptime
    that is not negative, and a status that is current: a worker that is not dead is inactive
    exactly when its last heartbeat is older than the threshold or it had been made inactive; and a
    worker is left out only when it is dead or inactive and has been so for longer than the
    clean-up delay. *)
Theorem list_workers_current threshold delay l es st range clock :
  acts l (started threshold delay) = Ret (es, st) ->
  (forall m, range m ≡ₚ (map_to_list m).*1) -> clock <> 0 ->
  let r := registry st in
  exists infos r', ListWorkers range clock r = Ret (infos, r')
    /\ NoDup (wi_worker_id <$> infos)
    /\ (forall i, i ∈ infos -> exists w, workers r !! wi_worker_id i = Some w
          /\ wi_worker_type i = WorkerType w /\ wi_last_heartbeat_at i = LastHeartbeatAt w
          /\ 0 <= wi_uptime i /\ wi_status i = toProtoStatus (reported_status r clock w))
    /\ (forall id w, workers r !! id = Some w -> id ∉ wi_worker_id <$> infos ->
          cleanupDelay r <> 0
          /\ (reported_status r clock w = StatusDead \/ reported_status r clock w = StatusInactive)
          /\ exists w1, workers (markInactiveLocked clock r) !! id = Some w1
                        /\ cleanupDelay r < time_Sub clock (LastStatusAt w1)).
Proof.
  intros E Hrange Hclock r.
  pose proof (acts_good l _ (started_ok threshold delay)) as (es1 & st1 & E1 & [Hr _ Hn] & _).
  rewrite E in E1. injection E1 as _ <-. fold r in Hr, Hn.
  destruct (ListWorkers_infos _ range clock r Hr Hclock) as (r' & El & El' & Hw). cbv zeta in Hw.
  pose proof (List_named _ _ _ _ _ _ _ Hr Hn El') as Hn'.
  eexists _, r'. split; [exact El|]. rewrite (omap_workers _ _ _ Hn').
  assert (Hids : forall m id, id ∈ range m <-> is_Some (m !! id)).
  { intros m id. rewrite Hrange, list_elem_of_fmap. split.
    - intros ([k w] & -> & Hk%elem_of_map_to_list). by exists w.
    - intros [w Hk]. exists (id, w). split; [done|]. by apply elem_of_map_to_list. }
  assert (Hstatus : forall id w1, workers (markInactiveLocked clock r) !! id = Some w1 ->
      exists w, workers r !! id = Some w /\ WStatus w1 = reported_status r clock w).
  { intros id w1 H1. pose proof (markInactive_status r clock id) as Hm. unfold status_of in Hm.
    rewrite H1 in Hm. simpl in Hm. destruct (workers r !! id) as [w|]; [|done].
    injection Hm as Hm. by exists w. }
  split; [|split].
  - apply NoDup_filter. rewrite Hrange. apply NoDup_fst_map_to_list.
  - intros i (s & -> & Hs)%list_elem_of_fmap. apply list_elem_of_omap in Hs as (id & _ & Hs).
    destruct (workers r' !! id) as [w1|] eqn:Ew1; [|done]. injection Hs as <-. simpl.
    pose proof (Hn' _ _ Ew1) as Hid. simpl in Hid. rewrite Hid.
    rewrite Hw in Ew1. destruct (_ && _); [done|].
    destruct (Hstatus _ _ Ew1) as (w & Hwid & ->). exists w. split; [done|].
    rewrite markInactive_lookup, Hwid in Ew1. simpl in Ew1. injection Ew1 as <-.
    split_and!; [..|apply uptime_nonneg|done]; apply markInactive_keeps.
  - intros id w Hwid Hout.
    assert (Hnone : workers r' !! id = None).
    { destruct (workers r' !! id) as [w1|] eqn:Ew1; [|done]. exfalso. apply Hout.
      apply list_elem_of_filter. split; [by eexists|]. apply Hids. by eexists. }
    rewrite Hw in Hnone.
    assert (Hw1 : exists w1, workers (markInactiveLocked clock r) !! id = Some w1).
    { rewrite markInactive_lookup, Hwid. by eexists. }
    destruct Hw1 as [w1 Hw1]. rewrite Hw1 in Hnone.
    destruct (negb (cleanupDelay r =? 0) && _) eqn:Eg; [|done].
    apply andb_true_iff in Eg as [Ed Ec]. unfold cleaned in Ec. rewrite Hw1 in Ec.
    destruct (markInactive_rest clock r) as (_ & _ & Hd). rewrite Hd in Ec.
    apply andb_true_iff in Ec as [_ Ec]. unfold expired in Ec.
    apply andb_true_iff in Ec as [Es Et]. apply bool_decide_eq_true in Es.
    destruct (Hstatus _ _ Hw1) as (w' & Hw' & Est). rewrite Est in Es.
    rewrite Hwid in Hw'. injection Hw' as <-.
    split; [intros E0; by rewrite E0 in Ed|]. split; [naive_solver|].
    exists w1. split; [done|]. by apply Z.ltb_lt.
Qed.

(** A reconnection takes the new stream down.  A worker whose connection breaks opens a new
    stream; the handler of the old one notices at its next heartbeat that its channel was closed, and
    its deferred [DetachStream] closes the channel of the new stream, which then ends too.  A drain
    request in between is queued although the worker is connected. *)
Theorem reconnect_takes_new_stream_down :
  let hb := {| whb_worker_id := "w1"; whb_worker_type := "fetch"; whb_status := WORKER_STATUS_ACTIVE;
               whb_timestamp := Some 1000; whb_started_at := Some 500 |} in
  exists st,
    acts [Open (Ok hb); HandleFirst 0 0; Open (Ok hb); HandleFirst 1 0;
          SenderStep 0 None; Receive 0 (Ok hb) 0; Poll 0; Detach 0;
          Drain "w1" "maintenance" 2000 2000;
          SenderStep 1 None; Receive 1 (Ok hb) 0; Poll 1; Detach 1]
      (started (12 * Second) Minute)
    = Ret ([Returned 0 (Ok tt); Issued "w1" (drain_command "maintenance" 2000) false;
            Returned 1 (Ok tt)], st)
    /\ held "w1" st = [drain_command "maintenance" 2000].
Proof. eexists. split; [vm_compute; reflexivity|]. by vm_compute. Qed.

(** ** The theorems at work *)

Definition example_heartbeat : WorkerHeartbeat :=
  {| whb_worker_id := "w1"; whb_worker_type := "fetch"; whb_status := WORKER_STATUS_ACTIVE;
     whb_timestamp := Some 1000; whb_started_at := Some 500 |}.

(** A worker that is drained before it connects and killed afterwards. *)
Definition example_actions : list action :=
  [Drain "w1" "early" 100 100; Open (Ok example_heartbeat); HandleFirst 0 0;
   ForceKill "w1" "stuck" 2000 2000].

Definition example_run : list event * system :=
  match acts example_actions (started (12 * Second) Minute) with
  | Ret r => r
  | Panic _ => ([], started 0 0)
  end.

Definition example_session : session :=
  {| s_worker := "w1"; s_stream := 0; s_phase := Receiving;
     s_pending := [drain_command "early" 100]; s_sending := true; s_sendErr := None |}.

Lemma sender_flushes_witness :
  exists st',
    acts (repeat (SenderStep 0 None) 2) example_run.2
    = Ret ([Sent "w1" (drain_command "early" 100); Sent "w1" (kill_command "stuck" 2000)], st').
Proof.
  destruct (sender_flushes (12 * Second) Minute example_actions example_run.1 example_run.2 0
              example_session) as (st' & s' & E & _).
  - vm_compute. reflexivity.
  - vm_compute. reflexivity.
  - reflexivity.
  - exists st'. exact E.
Defined.

Definition example_range (m : gmap string WorkerRecord) : list string := (map_to_list m).*1.

Lemma list_workers_current_witness :
  exists infos r', ListWorkers example_range 3000 (registry example_run.2) = Ret (infos, r')
    /\ NoDup (wi_worker_id <$> infos).
Proof.
  destruct (list_workers_current (12 * Second) Minute example_actions example_run.1 example_run.2
              example_range 3000) as (infos & r' & E & Hn & _).
  - vm_compute. reflexivity.
  - done.
  - done.
  - exists infos, r'. split; [exact E|exact Hn].
Defined.
