(* ===== verification/Monitor.v ===== *)
(** * The worker's side of its stream

    [worker/monitoring.go], the loop that keeps a stream to the coordinator open, and the part of
    [app/worker_app.go] that its commands act on: draining and killing the process. *)

From S2P Require Import Prelude GoStrings World Registry WorkerStream.

(** ** The process: app/worker_app.go *)

Inductive app_type := FetchWorkerType | ParserWorkerType | ExportWorkerType | SchedulerWorkerType.

(** [a_consuming] and [a_running]: [consumeCtx] and [workerCtx] are not cancelled; [a_accepting]: the
    export or scheduler worker has not been told to stop; [a_draining]: [drainOnce] is done and its
    goroutine watches the active tasks; [a_exited]: [os.Exit] was called. *)
Record worker_app := {
  a_type : app_type; a_status : Z; a_consuming : bool; a_accepting : bool; a_draining : bool;
  a_running : bool; a_exited : bool }.

Definition app_started (t : app_type) : worker_app :=
  {| a_type := t; a_status := WORKER_STATUS_ACTIVE; a_consuming := true; a_accepting := true;
     a_draining := false; a_running := true; a_exited := false |}.

Definition currentStatus (a : worker_app) : Z := a_status a.

Definition beginDrain (a : worker_app) : worker_app :=
  if a_draining a then a
  else
    {| a_type := a_type a; a_status := WORKER_STATUS_DRAINING;
       a_consuming := match a_type a with
                      | FetchWorkerType | ParserWorkerType => false
                      | _ => a_consuming a
                      end;
       a_accepting := match a_type a with
                      | ExportWorkerType | SchedulerWorkerType => false
                      | _ => a_accepting a
                      end;
       a_draining := true; a_running := a_running a; a_exited := a_exited a |}.

(** [workerCancel] cancels the context of the consumers too. *)
Definition Stop (a : worker_app) : worker_app :=
  {| a_type := a_type a; a_status := a_status a; a_consuming := false; a_accepting := a_accepting a;
     a_draining := a_draining a; a_running := false; a_exited := a_exited a |}.

(** A round of the goroutine [beginDrain] starts. *)
Definition drain_tick (activeTasks : Z) (a : worker_app) : worker_app :=
  if a_draining a && (activeTasks =? 0) then Stop a else a.

Definition forceKill (a : worker_app) : worker_app :=
  {| a_type := a_type a; a_status := WORKER_STATUS_DEAD; a_consuming := a_consuming a;
     a_accepting := a_accepting a; a_draining := a_draining a; a_running := a_running a;
     a_exited := true |}.

(** ** The monitor: worker/monitoring.go *)

Record WorkerMonitor := {
  m_workerID : string; m_workerType : string; m_startedAt : Z; m_heartbeatInterval : Z }.

Definition NewWorkerMonitor (workerID workerType : string) (startedAt : Z) : WorkerMonitor :=
  {| m_workerID := workerID; m_workerType := workerType; m_startedAt := startedAt;
     m_heartbeatInterval := 4 * Second |}.

Definition minDuration (a b : Z) : Z := if a <? b then a else b.

Definition buildHeartbeat (m : WorkerMonitor) (now : Z) (a : worker_app) : WorkerHeartbeat :=
  {| whb_worker_id := m_workerID m; whb_worker_type := m_workerType m;
     whb_status := currentStatus a; whb_timestamp := Some now;
     whb_started_at := Some (m_startedAt m) |}.

Definition handleCommand (cmd : WorkerCommand) (a : worker_app) : worker_app :=
  if wc_type cmd =? WORKER_COMMAND_DRAIN then beginDrain a
  else if wc_type cmd =? WORKER_COMMAND_FORCE_KILL then forceKill a
  else a.

(** What happens around an open stream: the ticker fires and a heartbeat is sent, the receiver gets
    a command, the drain goroutine looks at the active tasks, the receiver fails, the context is
    done. *)
Inductive stream_event :=
| Ticked (now : Z) (sendErr : option gerror)
| Received (cmd : WorkerCommand)
| Watched (activeTasks : Z)
| RecvFailed (e : gerror)
| CtxDone (e : gerror).

(** [runStream]: the heartbeats sent, the error it returns ([None] while it runs), the process. *)
Fixpoint stream_loop (m : WorkerMonitor) (es : list stream_event) (a : worker_app)
    : list WorkerHeartbeat * option gerror * worker_app :=
  match es with
  | [] => ([], None, a)
  | Ticked now None :: es =>
      let '(hbs, e, a') := stream_loop m es a in (buildHeartbeat m now a :: hbs, e, a')
  | Ticked _ (Some e) :: _ => ([], Some e, a)
  | Received cmd :: es =>
      let a := handleCommand cmd a in
      if a_exited a then ([], None, a) else stream_loop m es a
  | Watched n :: es => stream_loop m es (drain_tick n a)
  | RecvFailed e :: _ | CtxDone e :: _ => ([], Some e, a)
  end.

Definition runStream (m : WorkerMonitor) (now : Z) (sendErr : option gerror)
    (es : list stream_event) (a : worker_app) : list WorkerHeartbeat * option gerror * worker_app :=
  match sendErr with
  | Some e => ([], Some e, a)
  | None => let '(hbs, e, a') := stream_loop m es a in (buildHeartbeat m now a :: hbs, e, a')
  end.

(** One round of [Run]: dialling fails, opening the stream fails, or [runStream] returns; the list
    of rounds ends when the context is done. *)
Inductive attempt := DialFails | OpenFails | Streams.

Definition maxBackoff : Z := 15 * Second.

(** [Run]: how long it sleeps after each round. *)
Fixpoint run_loop (backoff : Z) (rounds : list attempt) : list Z :=
  match rounds with
  | [] => []
  | r :: rounds =>
      let backoff := match r with Streams => Second | _ => backoff end in
      backoff :: run_loop (minDuration (backoff * 2) maxBackoff) rounds
  end.
Definition Run (rounds : list attempt) : list Z := run_loop Second rounds.

(** [NewWorkerID]: [hex] is the text of three random bytes. *)
Definition NewWorkerID (hostname hex : res string) (workerType : string) : res string :=
  hostname ← hostname; suffix ← hex; Ok (hostname +:+ "-" +:+ workerType +:+ "-" +:+ suffix).

(** ** Draining *)

(** Draining is kept until the process is killed. *)
Definition drained (a : worker_app) : Prop :=
  a_draining a = true /\ a_status a = WORKER_STATUS_DRAINING
  /\ match a_type a with
     | FetchWorkerType | ParserWorkerType => a_consuming a = false
     | _ => a_accepting a = false
     end.

Lemma beginDrain_drained a :
  a_draining a = false -> drained (beginDrain a) /\ a_exited (beginDrain a) = a_exited a.
Proof. intros E. unfold beginDrain. rewrite E. by destruct a as [[] ? ? ? ? ? ?]. Qed.

Lemma drain_tick_drained n a : drained a -> drained (drain_tick n a) /\ a_exited (drain_tick n a) = a_exited a.
Proof.
  intros (Hd & Hs & Hi). unfold drain_tick. rewrite Hd. simpl. destruct (n =? 0); [|done].
  split; [|done]. split; [done|]. split; [done|]. simpl. by destruct (a_type a).
Qed.

Lemma handleCommand_drained cmd a :
  drained a -> a_exited (handleCommand cmd a) = false -> drained (handleCommand cmd a).
Proof.
  intros Ha. unfold handleCommand, beginDrain. destruct Ha as (Hd & ?). rewrite Hd.
  destruct (_ =? _); [done|]. by destruct (_ =? _).
Qed.

(** While a stream of a draining worker lasts and it is not killed, it stays draining and every
    heartbeat says so. *)
Lemma stream_loop_drained m es : forall a hbs e a',
  drained a -> stream_loop m es a = (hbs, e, a') -> a_exited a' = false ->
  drained a' /\ Forall (fun hb => whb_status hb = WORKER_STATUS_DRAINING /\ whb_worker_id hb = m_workerID m) hbs.
Proof.
  induction es as [|[now [se|]|cmd|n|e0|e0] es IH]; intros a hbs e a' Ha E Hx; simpl in E;
    try (injection E as <- <- <-; by split).
  - destruct (stream_loop m es a) as [[hbs1 e1] a1] eqn:E1. injection E as <- <- <-.
    destruct (IH _ _ _ _ Ha E1 Hx) as [? ?]. split; [done|]. constructor; [|done].
    split; [apply Ha|done].
  - destruct (a_exited (handleCommand cmd a)) eqn:Ek.
    + injection E as <- <- <-. congruence.
    + by apply (IH _ _ _ _ (handleCommand_drained _ _ Ha Ek) E).
  - by apply (IH _ _ _ _ (proj1 (drain_tick_drained n a Ha)) E).
Qed.

(** What the registry makes of a draining worker's heartbeat. *)
Lemma draining_heartbeat clock hb r :
  whb_status hb = WORKER_STATUS_DRAINING ->
  status_of (handleHeartbeat clock hb r) (whb_worker_id hb)
  = Some (if decide (status_of r (whb_worker_id hb) = Some StatusDead)
          then StatusDead else StatusDraining).
Proof.
  intros Hs. unfold handleHeartbeat. rewrite Hs.
  match goal with |- status_of (UpdateHeartbeat _ ?info _) _ = _ =>
    pose proof (own_heartbeat_status clock info r) as E end.
  simpl in E. rewrite E. f_equal. unfold status_of.
  destruct (workers r !! whb_worker_id hb) as [w|]; [|done]. simpl.
  destruct (decide (WStatus w = StatusDead)) as [->|Hne]; [done|].
  rewrite (decide_False (P := Some _ = _)) by congruence. by case_decide.
Qed.



(** The monitor waits between a second and 15 seconds before it connects again. *)
Lemma run_loop_sleeps rounds : forall b,
  Second <= b <= maxBackoff -> Forall (fun d => Second <= d <= maxBackoff) (run_loop b rounds).
Proof.
  assert (Hmax : maxBackoff = 15 * Second) by done. assert (Hs : 0 < Second) by done.
  induction rounds as [|r rounds IH]; intros b Hb; simpl; [constructor|].
  set (d := match r with Streams => Second | _ => b end).
  assert (Hd : Second <= d <= maxBackoff) by (subst d; destruct r; lia).
  constructor; [done|]. apply IH. unfold minDuration. destruct (Z.ltb_spec (d * 2) maxBackoff); lia.
Qed.

Lemma Run_sleeps rounds : Forall (fun d => Second <= d <= maxBackoff) (Run rounds).
Proof. apply run_loop_sleeps. unfold maxBackoff. by vm_compute. Qed.
