(* ===== verification/Lifecycle.v ===== *)
(** * How a worker process ends

    [WorkerApp.Run] and [runWorker] of [app/worker_app.go], the [Start] loops of the four workers and
    the mains of [cmd]: the goroutines of a process as a machine whose steps interleave in any order.
    A goroutine of [Start] takes work (a message, a round of polling), counts the task it is at, and
    ends when it finds its context done; the parser worker has the goroutine of the stuck task
    recovery besides; the monitor takes commands; a signal stops the process; [Run] waits for the
    worker's goroutine and the monitor's and closes what they use. *)

From S2P Require Import Prelude GoStrings World Registry WorkerStream Monitor.

(** ** The goroutines that take work

    [Fresh]: the first round has not begun.  [Busy n]: a message or a round is taken, [n] tasks of it
    are still to be counted ([activeTasks.Add(1)]).  [Counted n]: a task is counted, [n] more follow.
    [Ended r]: the loop returned [r]. *)
Inductive consumer :=
| Fresh
| Waiting
| Busy (n : nat)
| Counted (n : nat)
| Ended (r : option gerror).

Definition Canceled : gerror := ESentinel "context.Canceled" "context canceled".

Inductive resource := RTelemetry | RDatabase | RMessaging | RRedis | RLogger.

#[export] Instance resource_eq_dec : EqDecision resource.
Proof. solve_decision. Defined.

(** The goroutine of [stuckTaskRecovery.Start]: waiting for its ticker, at a poll, or at its end. *)
Inductive recovery := NoRecovery | RecoveryIdle | RecoveryPolling | RecoveryEnded.

(** [p_returned]: what [runWorker] returned; [p_monitor]: the monitor's goroutine runs; [p_watching]:
    the goroutine of [beginDrain] runs; [p_held]: what was connected; [p_closed]: what [Run] closed;
    [p_round]: how many tasks a round has at most; [p_recovery]: the stuck task recovery. *)
Record process := {
  p_app : worker_app; p_consumers : list consumer; p_returned : option (option gerror);
  p_monitor : bool; p_watching : bool; p_held : list resource; p_closed : option (list resource);
  p_round : nat; p_recovery : recovery }.

Definition set_app (a : worker_app) (p : process) : process :=
  {| p_app := a; p_consumers := p_consumers p; p_returned := p_returned p; p_monitor := p_monitor p;
     p_watching := p_watching p; p_held := p_held p; p_closed := p_closed p; p_round := p_round p;
     p_recovery := p_recovery p |}.
Definition set_consumer (i : nat) (c : consumer) (p : process) : process :=
  {| p_app := p_app p; p_consumers := <[i := c]> (p_consumers p); p_returned := p_returned p;
     p_monitor := p_monitor p; p_watching := p_watching p; p_held := p_held p;
     p_closed := p_closed p; p_round := p_round p; p_recovery := p_recovery p |}.
Definition set_goroutines (monitor watching : bool) (p : process) : process :=
  {| p_app := p_app p; p_consumers := p_consumers p; p_returned := p_returned p;
     p_monitor := monitor; p_watching := watching; p_held := p_held p; p_closed := p_closed p;
     p_round := p_round p; p_recovery := p_recovery p |}.
Definition set_end (r : option (option gerror)) (closed : option (list resource)) (p : process)
  : process :=
  {| p_app := p_app p; p_consumers := p_consumers p; p_returned := r; p_monitor := p_monitor p;
     p_watching := p_watching p; p_held := p_held p; p_closed := closed; p_round := p_round p;
     p_recovery := p_recovery p |}.
Definition set_recovery (s : recovery) (p : process) : process :=
  {| p_app := p_app p; p_consumers := p_consumers p; p_returned := p_returned p;
     p_monitor := p_monitor p; p_watching := p_watching p; p_held := p_held p;
     p_closed := p_closed p; p_round := p_round p; p_recovery := s |}.

(** ** Start

    The fetch worker consumes each of its queues in a goroutine of its own (its single queue in
    [Start] itself), the parser worker its queue; the export and the schedule worker poll, a first
    time before they wait. *)
Definition start_consumers (t : app_type) (queues : nat) : list consumer :=
  match t with
  | FetchWorkerType => replicate queues Waiting
  | ParserWorkerType => [Waiting]
  | ExportWorkerType | SchedulerWorkerType => [Fresh]
  end.

(** [initMonitor] finds no address of the coordinator when [grpc] is false. *)
Definition process_started (t : app_type) (queues round : nat) (grpc : bool) (held : list resource)
  : process :=
  {| p_app := app_started t; p_consumers := start_consumers t queues; p_returned := None;
     p_monitor := grpc; p_watching := false; p_held := held; p_closed := None;
     p_round := match t with FetchWorkerType | ParserWorkerType => 1 | _ => round end;
     p_recovery := match t with ParserWorkerType => RecoveryIdle | _ => NoRecovery end |}.

(** The loops of [Start].  A first round: the export worker looks whether it still accepts work. *)
Definition first_round (n : nat) (a : worker_app) : consumer :=
  match a_type a with
  | ExportWorkerType => if a_accepting a then Busy n else Ended None
  | _ => Busy n
  end.

(** A message is delivered, or a tick fires: a poller that does not accept work returns nil.  When the
    context is done, too, [select] may still choose this case. *)
Definition take_work (n : nat) (a : worker_app) : consumer :=
  match a_type a with
  | FetchWorkerType | ParserWorkerType => Busy 1
  | ExportWorkerType | SchedulerWorkerType => if a_accepting a then Busy n else Ended None
  end.

(** [StuckTaskRecovery.Start]: a tick begins a poll, even when the context is done, too; the poll comes
    to its end; the loop returns when it finds its context, that of the consumers, done. *)
Definition recovery_tick (s : recovery) : recovery :=
  match s with RecoveryIdle => RecoveryPolling | _ => s end.
Definition recovery_polled (s : recovery) : recovery :=
  match s with RecoveryPolling => RecoveryIdle | _ => s end.
Definition recovery_ctx_done (a : worker_app) (s : recovery) : recovery :=
  match s with RecoveryIdle => if a_consuming a then s else RecoveryEnded | _ => s end.

(** [case <-ctx.Done()]. *)
Definition ctx_done (a : worker_app) (c : consumer) : consumer :=
  if a_consuming a then c else Ended (Some Canceled).

Definition counted (c : consumer) : bool := match c with Counted _ => true | _ => false end.
Definition activeTasksCount (p : process) : Z :=
  wraps 32 (Z.of_nat (length (filter (fun c => counted c = true) (p_consumers p)))).

(** ** Run *)

(** The worker's goroutine ends the process on an error that is not that of a context. *)
Definition graceful (r : option gerror) : bool :=
  match r with
  | None => true
  | Some e => errors_Is e "context.Canceled" || errors_Is e "context.DeadlineExceeded"
  end.

Definition exit_process (a : worker_app) : worker_app :=
  {| a_type := a_type a; a_status := a_status a; a_consuming := a_consuming a;
     a_accepting := a_accepting a; a_draining := a_draining a; a_running := a_running a;
     a_exited := true |}.

Definition worker_returns (r : option gerror) (p : process) : process :=
  let p := set_end (Some r) (p_closed p) p in
  if graceful r then p else set_app (exit_process (p_app p)) p.

(** The deferred function: what is there is closed in this order. *)
Definition Run_deferred (held : list resource) : list resource :=
  filter (fun r => r ∈ held) [RTelemetry; RDatabase; RMessaging; RRedis; RLogger].

(** [wg.Wait()] returns when both goroutines have ended. *)
Definition wg_done (p : process) : bool :=
  match p_returned p with Some _ => negb (p_monitor p) | None => false end.

(** A command starts the goroutine of [beginDrain] once. *)
Definition command (cmd : WorkerCommand) (p : process) : process :=
  let a := handleCommand cmd (p_app p) in
  let starts := a_draining a && negb (a_draining (p_app p)) in
  set_app a (set_goroutines (p_monitor p) (p_watching p || starts) p).

(** One look of that goroutine: it stops the worker, or ends with its context, or goes on. *)
Definition watch (p : process) : process :=
  if activeTasksCount p =? 0
  then set_app (drain_tick 0 (p_app p)) (set_goroutines (p_monitor p) false p)
  else if a_running (p_app p) then p else set_goroutines (p_monitor p) false p.

(** The steps of a process; what is not possible changes nothing. *)
Inductive lifecycle_action :=
| FirstRound (i n : nat)
| TakeWork (i n : nat)
| BeginTask (i : nat)
| EndTask (i : nat)
| Settle (i : nat)
| CtxIsDone (i : nat)
| StartReturns (i : nat)
| RecoveryTick
| RecoveryPolled
| RecoveryCtxDone
| CommandArrives (cmd : WorkerCommand)
| Watch
| MonitorReturns
| Signal
| RunReturns.

Definition process_step (x : lifecycle_action) (p : process) : process :=
  let on i (k : consumer -> consumer) :=
    match p_consumers p !! i with Some c => set_consumer i (k c) p | None => p end in
  let a := p_app p in
  if a_exited a then p else
  match p_closed p with
  | Some _ =>
      (* [main] may return at any moment; until then the other goroutines go on *)
      match x with
      | BeginTask i => on i (fun c => match c with Busy (S n) => Counted n | _ => c end)
      | EndTask i => on i (fun c => match c with Counted n => Busy n | _ => c end)
      | Settle i => on i (fun c => match c with Busy 0 => Waiting | _ => c end)
      | RecoveryTick => set_recovery (recovery_tick (p_recovery p)) p
      | RecoveryPolled => set_recovery (recovery_polled (p_recovery p)) p
      | RecoveryCtxDone => set_recovery (recovery_ctx_done a (p_recovery p)) p
      | _ => p
      end
  | None =>
      match x with
      | FirstRound i n =>
          on i (fun c => match c with
                         | Fresh => if (n <=? p_round p)%nat then first_round n a else c
                         | _ => c
                         end)
      | TakeWork i n =>
          on i (fun c => match c with
                         | Waiting => if (n <=? p_round p)%nat then take_work n a else c
                         | _ => c
                         end)
      | BeginTask i => on i (fun c => match c with Busy (S n) => Counted n | _ => c end)
      | EndTask i => on i (fun c => match c with Counted n => Busy n | _ => c end)
      | Settle i => on i (fun c => match c with Busy 0 => Waiting | _ => c end)
      | CtxIsDone i => on i (fun c => match c with Waiting => ctx_done a c | _ => c end)
      | StartReturns i =>
          match p_returned p, p_consumers p !! i with
          | None, Some (Ended r) => worker_returns r p
          | _, _ => p
          end
      | RecoveryTick => set_recovery (recovery_tick (p_recovery p)) p
      | RecoveryPolled => set_recovery (recovery_polled (p_recovery p)) p
      | RecoveryCtxDone => set_recovery (recovery_ctx_done a (p_recovery p)) p
      | CommandArrives cmd => if p_monitor p then command cmd p else p
      | Watch => if p_watching p then watch p else p
      | MonitorReturns => if a_running a then p else set_goroutines false (p_watching p) p
      | Signal => set_app (Stop a) p
      | RunReturns => if wg_done p then set_end (p_returned p) (Some (Run_deferred (p_held p))) p
                      else p
      end
  end.

Fixpoint process_steps (l : list lifecycle_action) (p : process) : process :=
  match l with [] => p | x :: l => process_steps l (process_step x p) end.

(** ** What holds in every state *)

Definition is_ended (c : consumer) : bool := match c with Ended _ => true | _ => false end.
Definition ended_well (c : consumer) : Prop :=
  match c with Ended r => graceful r = true | _ => True end.

Record process_ok (p : process) : Prop := {
  ok_drain : a_draining (p_app p) = true -> p_watching p = false -> a_running (p_app p) = false;
  ok_watch : p_watching p = true -> a_draining (p_app p) = true;
  ok_stop : a_running (p_app p) = false -> a_consuming (p_app p) = false;
  ok_ended : Forall ended_well (p_consumers p);
  ok_returned : forall r, p_returned p = Some r -> Ended r ∈ p_consumers p;
  ok_monitor : p_monitor p = false -> p_closed p <> None -> p_returned p <> None;
  ok_closed : forall l, p_closed p = Some l -> wg_done p = true /\ l = Run_deferred (p_held p) }.

Lemma first_round_well n a : ended_well (first_round n a).
Proof. unfold first_round. destruct (a_type a); try done. by destruct (a_accepting a). Qed.
Lemma take_work_well n a : ended_well (take_work n a).
Proof. unfold take_work. destruct (a_type a); try done; by destruct (a_accepting a). Qed.
Lemma ctx_done_well a : ended_well (ctx_done a Waiting).
Proof. unfold ctx_done. by destruct (a_consuming a). Qed.

(** One goroutine moves; what has ended stays. *)
Lemma on_ok i k p :
  (forall c, ended_well c -> ended_well (k c)) -> (forall r, k (Ended r) = Ended r) ->
    process_ok p ->
  process_ok (match p_consumers p !! i with Some c => set_consumer i (k c) p | None => p end).
Proof.
  intros Hk He Hok. destruct (p_consumers p !! i) as [c|] eqn:Ei; [|done].
  destruct Hok as [H1 H2 H3 H4 H5 H6 H7]. split; simpl; try done.
  - apply Forall_insert; [done|]. apply Hk. by apply (Forall_lookup_1 _ _ _ _ H4 Ei).
  - intros r Hr. apply H5 in Hr. apply list_elem_of_lookup in Hr as [j Hj].
    apply list_elem_of_lookup. exists j. destruct (decide (j = i)) as [->|Hne].
    + rewrite Ei in Hj. injection Hj as ->.
      rewrite list_lookup_insert_eq by (eapply lookup_lt_Some; exact Ei). by rewrite He.
    + by rewrite list_lookup_insert_ne.
Qed.

Ltac one_goroutine :=
  apply on_ok; [intros [| |[]|[]|] ?; simpl; try done; try case_match;
                auto using first_round_well, take_work_well, ctx_done_well
               |done|done].

Lemma command_ok cmd p : process_ok p -> p_closed p = None -> process_ok (command cmd p).
Proof.
  intros [H1 H2 H3 H4 H5 H6 H7] Hc. unfold command, handleCommand, beginDrain.
  destruct (wc_type cmd =? WORKER_COMMAND_DRAIN);
    [|destruct (wc_type cmd =? WORKER_COMMAND_FORCE_KILL)].
  - destruct (a_draining (p_app p)) eqn:Ed; split; simpl; try done;
      rewrite ?Ed, ?andb_false_r, ?orb_false_r, ?orb_true_r; try done.
    intros Hr. apply H3 in Hr. by destruct (a_type (p_app p)).
  - split; simpl; try done; rewrite ?andb_negb_r, ?orb_false_r; done.
  - split; simpl; try done; rewrite ?andb_negb_r, ?orb_false_r; done.
Qed.

Lemma watch_ok p : process_ok p -> p_watching p = true -> process_ok (watch p).
Proof.
  intros [H1 H2 H3 H4 H5 H6 H7] Hw. unfold watch, drain_tick. rewrite (H2 Hw). simpl.
  destruct (activeTasksCount p =? 0); [by split; simpl; auto|].
  destruct (a_running (p_app p)) eqn:Er; split; simpl; auto; congruence.
Qed.

Lemma returns_ok i r p :
  process_ok p -> p_returned p = None -> p_closed p = None -> p_consumers p !! i = Some (Ended r) ->
  process_ok (worker_returns r p).
Proof.
  intros [H1 H2 H3 H4 H5 H6 H7] Hr Hc Hi. unfold worker_returns.
  pose proof (Forall_lookup_1 _ _ _ _ H4 Hi) as Hg. simpl in Hg. rewrite Hg.
  split; simpl; try done; [|by rewrite Hc..].
  intros r' [= <-]. by apply list_elem_of_lookup_2 in Hi.
Qed.

Lemma recovery_ok s p : process_ok p -> process_ok (set_recovery s p).
Proof. by intros []. Qed.

Lemma process_step_ok x p : process_ok p -> process_ok (process_step x p).
Proof.
  intros Hok. unfold process_step. destruct (a_exited (p_app p)); [done|].
  destruct (p_closed p) as [l|] eqn:Ec;
    [destruct x; try done; first [by apply recovery_ok | one_goroutine]|].
  destruct x; try (by apply recovery_ok); try one_goroutine.
  - destruct (p_returned p) eqn:Er; [done|].
    destruct (p_consumers p !! i) as [[]|] eqn:Ei; try done. by eapply returns_ok.
  - destruct (p_monitor p); [by apply command_ok|done].
  - destruct (p_watching p) eqn:Ew; [by apply watch_ok|done].
  - destruct (a_running (p_app p)) eqn:Er; [done|]. destruct Hok. split; simpl; try done.
    by rewrite Ec.
  - destruct Hok. split; simpl; done.
  - destruct (wg_done p) eqn:Ew; [|done]. destruct Hok. split; simpl; try done.
    + intros Hm _. unfold wg_done in Ew. by destruct (p_returned p).
    + intros l [= <-]. by split.
Qed.

Lemma process_started_ok t queues round grpc held :
  process_ok (process_started t queues round grpc held).
Proof.
  split; simpl; try done. destruct t; simpl; try (by repeat constructor).
  by apply Forall_replicate.
Qed.

Lemma steps_ok l p : process_ok p -> process_ok (process_steps l p).
Proof. revert p. induction l as [|x l IH]; intros p Hp; simpl; [done|].
by apply IH, process_step_ok. Qed.

(** The number of goroutines, and the size of a round, stay. *)
Lemma step_size x p :
  length (p_consumers (process_step x p)) = length (p_consumers p)
  /\ p_round (process_step x p) = p_round p /\ p_held (process_step x p) = p_held p.
Proof.
  unfold process_step, command, watch, worker_returns.
  destruct (a_exited (p_app p)); [done|]. destruct (p_closed p), x;
    repeat (case_match; simpl; try done); by rewrite ?length_insert.
Qed.

Lemma steps_size l p :
  length (p_consumers (process_steps l p)) = length (p_consumers p)
  /\ p_round (process_steps l p) = p_round p /\ p_held (process_steps l p) = p_held p.
Proof.
  revert p. induction l as [|x l IH]; intros p; simpl; [done|].
  destruct (IH (process_step x p)) as (-> & -> & ->). apply step_size.
Qed.

(** ** Nothing is closed under a task of a single goroutine *)

Lemma activeTasksCount_zero p :
  Z.of_nat (length (p_consumers p)) < 2 ^ 31 -> activeTasksCount p = 0 ->
  Forall (fun c => counted c = false) (p_consumers p).
Proof.
  intros Hl E. unfold activeTasksCount in E.
  pose proof (length_filter (fun c => counted c = true) (p_consumers p)) as Hf.
  rewrite wraps_small in E by lia.
  apply Forall_forall. intros c Hc. destruct (counted c) eqn:Ec; [|done].
  assert (Hin : c ∈ filter (fun c => counted c = true) (p_consumers p))
    by (by apply list_elem_of_filter).
  destruct (filter _ _); [by apply elem_of_nil in Hin|simpl in E; lia].
Qed.

(** The worker stops on a signal, or with no task counted. *)
Lemma stopped_by_signal x p :
  a_running (p_app p) = true -> a_running (p_app (process_step x p)) = false ->
  Z.of_nat (length (p_consumers p)) < 2 ^ 31 ->
  x = Signal \/ Forall (fun c => counted c = false) (p_consumers p).
Proof.
  intros Hr Hr' Hq. unfold process_step in Hr'. destruct (a_exited (p_app p)); [congruence|].
  destruct (p_closed p), x; try (by left); right;
    unfold command, handleCommand, beginDrain, worker_returns, watch in Hr';
    try congruence; try (simpl in Hr'; congruence);
    try (repeat (case_match; simpl in *; try congruence); fail).
  destruct (p_watching p); [|congruence].
  destruct (activeTasksCount p =? 0) eqn:Ea;
    [apply Z.eqb_eq in Ea; by apply activeTasksCount_zero|].
  destruct (a_running (p_app p)) eqn:E; simpl in *; congruence.
Qed.

(** The goroutines of [Start] end with an error of their context or none. *)
Lemma exit_is_force_kill x p :
  process_ok p -> a_exited (p_app p) = false -> a_exited (p_app (process_step x p)) = true ->
  exists cmd, x = CommandArrives cmd /\ wc_type cmd = WORKER_COMMAND_FORCE_KILL.
Proof.
  intros Hok He He'. unfold process_step in He'. rewrite He in He'.
  destruct (p_closed p), x; try (simpl in He'; congruence);
    try (by (destruct (p_consumers p !! i); simpl in He'; congruence)).
  - destruct (p_returned p); [congruence|]. destruct (p_consumers p !! i) as [[]|] eqn:Ei; try congruence.
    pose proof (Forall_lookup_1 _ _ _ _ (ok_ended _ Hok) Ei) as Hg. simpl in Hg.
    unfold worker_returns in He'. rewrite Hg in He'. simpl in He'. congruence.
  - destruct (p_monitor p); [|congruence]. exists cmd. split; [done|].
    unfold command, handleCommand, beginDrain in He'. simpl in He'.
    destruct (wc_type cmd =? WORKER_COMMAND_DRAIN).
    + destruct (a_draining (p_app p)); simpl in He'; congruence.
    + destruct (wc_type cmd =? WORKER_COMMAND_FORCE_KILL) eqn:Ek; [by apply Z.eqb_eq|congruence].
  - destruct (p_watching p); [|congruence]. unfold watch, drain_tick in He'.
    repeat (case_match; simpl in *; try congruence).
  - destruct (a_running (p_app p)); simpl in He'; congruence.
  - destruct (wg_done p); simpl in He'; congruence.
Qed.

(** C34: A worker process closes what it uses when its work is done.  However the goroutines of the
    process, the commands of the coordinator and signals interleave: [Run] closes what was connected,
    the telemetry first and the logger last, and only after the monitor has ended and [Start] has
    returned; where [Start] has a single goroutine, as in every worker but a fetch worker of several
    queues, no message is in hand and no task is counted by [Start] then.  ([Run] does not wait for
    the parser worker's stuck task recovery.)  While a task is counted, only a signal begins the
    shutdown, since a drain waits until there is none, and at any time only a FORCE_KILL command
    ends the process at once. *)
Theorem closed_after_work t queues round grpc held l p :
  process_steps l (process_started t queues round grpc held) = p ->
  (forall rs, p_closed p = Some rs ->
     rs = Run_deferred held /\ p_monitor p = false /\ (exists r, p_returned p = Some r)
     /\ (length (start_consumers t queues) = 1%nat ->
         Forall (fun c => is_ended c = true) (p_consumers p)))
  /\ (forall x, a_running (p_app p) = true -> a_running (p_app (process_step x p)) = false ->
        Z.of_nat (length (start_consumers t queues)) < 2 ^ 31 ->
        x = Signal \/ Forall (fun c => counted c = false) (p_consumers p))
  /\ (forall x, a_exited (p_app p) = false -> a_exited (p_app (process_step x p)) = true ->
        exists cmd, x = CommandArrives cmd /\ wc_type cmd = WORKER_COMMAND_FORCE_KILL).
Proof.
  intros <-. set (p0 := process_started t queues round grpc held).
  pose proof (steps_ok l p0 (process_started_ok t queues round grpc held)) as Hok.
  destruct (steps_size l p0) as (Hlen & _ & Hheld).
  split; [|split; [|intros x; by apply exit_is_force_kill]].
  - intros rs Hc. destruct (ok_closed _ Hok _ Hc) as [Hw ->]. rewrite Hheld.
    unfold wg_done in Hw. destruct (p_returned _) as [r|] eqn:Er; [|done].
    apply negb_true_iff in Hw. split; [done|]. split; [done|]. split; [by exists r|].
    intros H1. pose proof (ok_returned _ Hok _ Er) as Hin.
    change (length (p_consumers p0)) with (length (start_consumers t queues)) in Hlen.
    rewrite H1 in Hlen. destruct (p_consumers _) as [|c [|? ?]]; try done.
    apply list_elem_of_singleton in Hin as <-. by repeat constructor.
  - intros x Hr Hr' Hq. change (length (start_consumers t queues)) with (length (p_consumers p0)) in
      Hq.
    rewrite <- Hlen in Hq. by apply (stopped_by_signal x).
Qed.

Definition drain : WorkerCommand := {| wc_type := 1; wc_reason := ""; wc_issued_at := 0 |}.
Definition demo_steps : list lifecycle_action :=
  [TakeWork 0 1; BeginTask 0; CommandArrives drain; Watch; EndTask 0; Settle 0; Watch; CtxIsDone 0;
   StartReturns 0; MonitorReturns; RunReturns].
Definition demo_process (queues : nat) : process :=
  process_started FetchWorkerType queues 0 true [RDatabase; RLogger; RTelemetry].

Lemma closed_after_work_witness :
  p_closed (process_steps demo_steps (demo_process 1)) = Some [RTelemetry; RDatabase; RLogger]
  /\ Forall (fun c => is_ended c = true) (p_consumers (process_steps demo_steps (demo_process 1))).
Proof.
  assert (E : p_closed (process_steps demo_steps (demo_process 1))
              = Some [RTelemetry; RDatabase; RLogger]) by (vm_compute; reflexivity).
  split; [exact E|].
  destruct (closed_after_work FetchWorkerType 1 0 true [RDatabase; RLogger; RTelemetry] demo_steps
    _ eq_refl) as (Hc & _ & _).
  destruct (Hc _ E) as (_ & _ & _ & Hd). by apply Hd.
Defined.

(** With two queues [Start] returns with the first goroutine that ends: after a signal [Run] closes the
    connections while the other goroutine is at a task. *)
Example signal_closes_under_a_task :
  let p := process_steps [TakeWork 0 1; BeginTask 0; Signal; CtxIsDone 1; StartReturns 1;
                          MonitorReturns; RunReturns] (demo_process 2) in
  p_closed p = Some [RTelemetry; RDatabase; RLogger] /\ p_consumers p !! 0%nat = Some (Counted 0).
Proof. vm_compute. split; reflexivity. Qed.

(** A drain does not see a message that is taken and not yet counted. *)
Example drain_misses_a_message :
  let p := process_steps [TakeWork 0 1; CommandArrives drain; Watch; CtxIsDone 1; StartReturns 1;
                          MonitorReturns; RunReturns; BeginTask 0] (demo_process 2) in
  p_closed p = Some [RTelemetry; RDatabase; RLogger] /\ p_consumers p !! 0%nat = Some (Counted 0).
Proof. vm_compute. split; reflexivity. Qed.

(** [Run] waits for nobody but [Start] and the monitor: a poll of the recovery can be under way. *)
Example closes_under_recovery :
  let p := process_steps [RecoveryTick; Signal; CtxIsDone 0; StartReturns 0; MonitorReturns; RunReturns]
             (process_started ParserWorkerType 1 0 true [RDatabase; RMessaging]) in
  p_closed p = Some [RDatabase; RMessaging] /\ p_recovery p = RecoveryPolling.
Proof. vm_compute. split; reflexivity. Qed.

(** ** A stopping process ends

    The steps that are left once nothing new arrives: [weight] bounds those of a goroutine. *)
Definition shutdown_action (x : lifecycle_action) : bool :=
  match x with TakeWork _ _ | RecoveryTick | CommandArrives _ | Signal => false | _ => true end.

Definition weight (round : nat) (c : consumer) : nat :=
  match c with
  | Fresh => 2 * round + 3
  | Waiting => 1
  | Busy n => 2 * n + 2
  | Counted n => 2 * n + 3
  | Ended _ => 0
  end.

Definition recovery_weight (s : recovery) : nat :=
  match s with RecoveryPolling => 2 | RecoveryIdle => 1 | NoRecovery | RecoveryEnded => 0 end.

Definition steps_left (p : process) : nat :=
  sum_list_with (weight (p_round p)) (p_consumers p)
  + (if p_returned p then 0 else 1) + Nat.b2n (p_monitor p) + Nat.b2n (p_watching p)
  + recovery_weight (p_recovery p) + (if p_closed p then 0 else 1).

Definition stopping (p : process) : bool :=
  negb (a_exited (p_app p)) && (a_draining (p_app p) || negb (a_running (p_app p))).

Lemma sum_insert {A} (f : A -> nat) i x y (l : list A) :
  l !! i = Some x -> (sum_list_with f (<[i := y]> l) + f x = sum_list_with f l + f y)%nat.
Proof.
  revert i. induction l as [|z l IH]; intros [|i]; simpl; intros H; try done.
  - injection H as ->. lia.
  - apply IH in H. lia.
Qed.

Lemma set_consumer_same i c p : p_consumers p !! i = Some c -> set_consumer i c p = p.
Proof. intros H. destruct p. unfold set_consumer. simpl in *. by rewrite list_insert_id. Qed.

Definition lighter (round : nat) (k : consumer -> consumer) (c : consumer) : Prop :=
  k c = c \/ (weight round (k c) < weight round c)%nat.

(** A step is progress if it leaves fewer steps and the process is still stopping. *)
Definition progress (p q : process) : Prop :=
  (steps_left q < steps_left p)%nat /\ stopping q = stopping p.

Lemma on_progress i k p c :
  p_consumers p !! i = Some c -> (weight (p_round p) (k c) < weight (p_round p) c)%nat ->
  progress p (set_consumer i (k c) p).
Proof.
  intros Hi Hw. pose proof (sum_insert (weight (p_round p)) i c (k c) (p_consumers p) Hi).
  unfold progress, steps_left, stopping. simpl. split; [lia|done].
Qed.

Lemma on_idle_or_progress i k p :
  (forall c, lighter (p_round p) k c) ->
  let q := match p_consumers p !! i with Some c => set_consumer i (k c) p | None => p end in
  q = p \/ progress p q.
Proof.
  intros Hk q. subst q. destruct (p_consumers p !! i) as [c|] eqn:Ei; [|by left].
  destruct (Hk c) as [->|Hw]; [left; by apply set_consumer_same|right; by apply on_progress].
Qed.

Lemma first_round_lighter round n a :
  (n <= round)%nat -> (weight round (first_round n a) < weight round Fresh)%nat.
Proof. intros Hn. unfold first_round. destruct (a_type a); try destruct (a_accepting a); simpl; lia.
Qed.

Lemma recovery_idle_or_progress s p :
  s = p_recovery p \/ (recovery_weight s < recovery_weight (p_recovery p))%nat ->
  set_recovery s p = p \/ progress p (set_recovery s p).
Proof.
  intros [->|Hlt]; [left; by destruct p|right].
  unfold progress, steps_left, stopping. simpl. split; [lia|done].
Qed.

(** A step of the shutdown changes nothing or is progress. *)
Lemma shutdown_step x p :
  process_ok p -> shutdown_action x = true -> p_closed p = None -> a_exited (p_app p) = false ->
  process_step x p = p \/ progress p (process_step x p).
Proof.
  intros Hok Hx Hc He. unfold process_step. rewrite He, Hc.
  destruct x as [i n|i n|i|i|i|i|i| | | |cmd| | | |]; try done;
    try (apply recovery_idle_or_progress; destruct (p_recovery p); simpl; try (by left);
         repeat case_match; simpl; try (by left); right; lia);
    try (apply on_idle_or_progress; intros [| |[]|[]|]; unfold lighter, ctx_done; simpl;
         try (by left); repeat case_match; simpl; try (by left); right; lia).
  - apply on_idle_or_progress. intros []; try (by left). simpl. unfold lighter.
    destruct (n <=? p_round p)%nat eqn:En; [right|by left].
    apply Nat.leb_le in En. by apply first_round_lighter.
  - destruct (p_returned p) eqn:Er; [by left|].
    destruct (p_consumers p !! i) as [[]|] eqn:Ei; try by left. right.
    pose proof (Forall_lookup_1 _ _ _ _ (ok_ended _ Hok) Ei) as Hg. simpl in Hg.
    unfold worker_returns, progress, steps_left, stopping. rewrite Hg. simpl. rewrite Er.
    split; [lia|done].
  - destruct (p_watching p) eqn:Ew; [|by left]. pose proof (ok_watch _ Hok Ew) as Hd.
    unfold watch, drain_tick.
    rewrite Hd. simpl. destruct (activeTasksCount p =? 0);
      [right|destruct (a_running (p_app p)) eqn:Er; [by left|right]];
      unfold progress, steps_left, stopping; simpl; rewrite Ew, ?Hd; split; try done; simpl; lia.
  - destruct (a_running (p_app p)); [by left|]. destruct (p_monitor p) eqn:Em.
    + right. unfold progress, steps_left, stopping. simpl. rewrite Em. split; [simpl; lia|done].
    + left. destruct p. simpl in *. by subst.
  - destruct (wg_done p); [right|by left]. unfold progress, steps_left, stopping. simpl. rewrite Hc.
    split; [simpl; lia|done].
Qed.

(** What a goroutine of [Start] does next when its context is done. *)
Definition next_of (i : nat) (c : consumer) : option lifecycle_action :=
  match c with
  | Fresh => Some (FirstRound i 0)
  | Busy 0 => Some (Settle i)
  | Busy (S _) => Some (BeginTask i)
  | Counted _ => Some (EndTask i)
  | Waiting => Some (CtxIsDone i)
  | Ended _ => None
  end.

Definition parked (c : consumer) : bool :=
  match c with Waiting | Ended _ => true | _ => false end.

Lemma none_counted l : forallb parked l = true -> filter (fun c => counted c = true) l = [].
Proof.
  induction l as [|c l IH]; intros H; [done|]. apply andb_true_iff in H as [Hc Hl].
  rewrite filter_cons_False; [auto|]. by destruct c.
Qed.

Lemma parked_or l :
  forallb parked l = true \/ exists i c, l !! i = Some c /\ parked c = false.
Proof.
  induction l as [|c l [IH|(i & d & Hi & Hd)]]; [by left| |right; by exists (S i), d].
  destruct (parked c) eqn:E; [left; simpl; by rewrite E|right; by exists 0%nat, c].
Qed.

Lemma ended_or l :
  forallb is_ended l = true \/ exists i c, l !! i = Some c /\ is_ended c = false.
Proof.
  induction l as [|c l [IH|(i & d & Hi & Hd)]]; [by left| |right; by exists (S i), d].
  destruct (is_ended c) eqn:E; [left; simpl; by rewrite E|right; by exists 0%nat, c].
Qed.

(** A goroutine that has not ended moves, unless it waits and its context is not done. *)
Lemma goroutine_moves i c p :
  p_closed p = None -> a_exited (p_app p) = false -> p_consumers p !! i = Some c ->
  is_ended c = false -> parked c = false \/ a_consuming (p_app p) = false ->
  exists x, shutdown_action x = true /\ progress p (process_step x p).
Proof.
  intros Hc He Hi Hn Hm. destruct (next_of i c) as [x|] eqn:Ex; [|by destruct c as [| |[]| |]].
  exists x. destruct c as [| |[|n]|n|r]; simpl in Ex; try done; injection Ex as <-; split; try done;
    unfold process_step; rewrite He, Hc, Hi; cbv beta iota; simpl Nat.leb; cbv iota.
  - apply (on_progress _ (fun _ => first_round 0 (p_app p)) _ _ Hi). apply first_round_lighter. lia.
  - apply (on_progress _ (ctx_done (p_app p)) _ _ Hi). destruct Hm as [|Hm]; [done|].
    unfold ctx_done. rewrite Hm. simpl. lia.
  - apply (on_progress _ (fun _ => Waiting) _ _ Hi). simpl. lia.
  - apply (on_progress _ (fun _ => Counted n) _ _ Hi). simpl. lia.
  - apply (on_progress _ (fun _ => Busy n) _ _ Hi). simpl. lia.
Qed.

Lemma shutdown_enabled p :
  process_ok p -> stopping p = true -> p_closed p = None -> (1 <= length (p_consumers p))%nat ->
  exists x, shutdown_action x = true /\ progress p (process_step x p).
Proof.
  intros Hok Hs Hc Hl. unfold stopping in Hs. apply andb_true_iff in Hs as [He Hs].
  apply negb_true_iff in He.
  destruct (parked_or (p_consumers p)) as [Hp|(i & c & Hi & Hn)];
    [|apply (goroutine_moves i c); auto; by destruct c].
  destruct (a_running (p_app p)) eqn:Er.
  - rewrite orb_false_r in Hs. exists Watch. split; [done|].
    destruct (p_watching p) eqn:Ew; [|rewrite (ok_drain _ Hok Hs Ew) in Er; done].
    assert (Ea : activeTasksCount p = 0) by (unfold activeTasksCount;
      by rewrite (none_counted _ Hp)).
    unfold process_step, watch, drain_tick, progress, steps_left, stopping.
    rewrite He, Hc, Ew, Ea, Hs. simpl. rewrite ?Hs, ?Ew, ?He, ?Hc. split; [simpl; lia|done].
  - destruct (ended_or (p_consumers p)) as [Ha|(i & c & Hi & Hn)].
    2: { apply (goroutine_moves i c); auto. right. by apply (ok_stop _ Hok). }
    destruct (p_consumers p) as [|c l] eqn:El; [simpl in Hl; lia|].
    simpl in Ha. apply andb_true_iff in Ha as [Hd _]. destruct c as [| | | |r]; try done.
    assert (Hi : p_consumers p !! 0%nat = Some (Ended r)) by (by rewrite El).
    destruct (p_returned p) as [r'|] eqn:Et; [destruct (p_monitor p) eqn:Em|].
    + exists MonitorReturns. split; [done|]. unfold process_step, progress, steps_left, stopping.
      rewrite He, Hc, Er. simpl. rewrite ?Em, ?Hc, ?He, ?Er. split; [simpl; lia|done].
    + exists RunReturns. split; [done|].
      unfold process_step, wg_done, progress, steps_left, stopping.
      rewrite He, Hc, Et, Em. simpl. rewrite ?Hc, ?Em, ?Et, ?He. split; [simpl; lia|done].
    + exists (StartReturns 0). split; [done|]. unfold process_step.
      rewrite He, Hc, Et, Hi. unfold worker_returns.
      pose proof (Forall_lookup_1 _ _ _ _ (ok_ended _ Hok) Hi) as Hg. simpl in Hg. rewrite Hg.
      unfold progress, steps_left, stopping. simpl. rewrite ?Et, ?Hc, ?He. split; [lia|done].
Qed.

Lemma closes_within n p :
  (steps_left p <= n)%nat -> process_ok p -> stopping p
    = true -> (1 <= length (p_consumers p))%nat ->
  exists l, (length l <= n)%nat /\ forallb shutdown_action l = true
            /\ p_closed (process_steps l p) = Some (Run_deferred (p_held p)).
Proof.
  revert p. induction n as [|n IH]; intros p Hn Hok Hs Hl;
    (destruct (p_closed p) as [rs|] eqn:Hc;
     [destruct (ok_closed _ Hok _ Hc) as [_ ->]; exists []; simpl; split; [lia|done]|]).
  - exfalso. destruct (shutdown_enabled p Hok Hs Hc Hl) as (x & _ & Hlt & _). lia.
  - destruct (shutdown_enabled p Hok Hs Hc Hl) as (x & Hx & Hlt & Hs').
    destruct (step_size x p) as (Hsz & _ & Hh).
    destruct (IH (process_step x p)) as (l & Hll & Hlx & Hcl);
      [lia|by apply process_step_ok|congruence|by rewrite Hsz|].
    exists (x :: l). simpl. rewrite Hx, Hlx, Hcl, Hh. split; [lia|done].
Qed.

(** C35: A worker process that drains or is stopped comes to its end.  From every reachable state of a
    process with a goroutine that takes work, once a drain has begun or a signal has arrived: every
    step other than taking new work (a poll of the recovery included) or receiving a command or another signal either changes nothing
    or reduces the number of steps that are left, after which the process still stops; and at most
    that many of these steps lead to [Run] closing all that was connected.  So a shutdown cannot run
    into a state where all goroutines wait for each other. *)
Theorem drained_process_closes t queues round grpc held l p :
  process_steps l (process_started t queues round grpc held) = p ->
  (1 <= length (start_consumers t queues))%nat -> stopping p = true ->
  (forall x, shutdown_action x = true -> p_closed p = None ->
     process_step x p = p \/ progress p (process_step x p))
  /\ exists l', (length l' <= steps_left p)%nat /\ forallb shutdown_action l' = true
                /\ p_closed (process_steps l' p) = Some (Run_deferred held).
Proof.
  intros <- Hq Hs. set (p0 := process_started t queues round grpc held) in *.
  pose proof (steps_ok l p0 (process_started_ok t queues round grpc held)) as Hok.
  destruct (steps_size l p0) as (Hlen & _ & Hheld). split.
  - intros x Hx Hc. apply shutdown_step; try done.
    unfold stopping in Hs. apply andb_true_iff in Hs as [He _]. by apply negb_true_iff.
  - destruct (closes_within (steps_left (process_steps l p0)) _ (le_n _) Hok Hs) as
      (l' & Hl' & Hx & Hc);
      [by rewrite Hlen|]. exists l'. rewrite Hc, Hheld. done.
Qed.

Lemma drained_process_closes_witness :
  exists l', forallb shutdown_action l' = true
    /\ p_closed (process_steps l' (process_steps [TakeWork 0 1; BeginTask 0; CommandArrives drain]
                                                 (demo_process 2)))
       = Some [RTelemetry; RDatabase; RLogger].
Proof.
  destruct (drained_process_closes FetchWorkerType 2 0 true [RDatabase; RLogger; RTelemetry]
    [TakeWork 0 1; BeginTask 0; CommandArrives drain] _ eq_refl) as [_ (l' & _ & Hx & Hc)];
    [simpl; lia|vm_compute; reflexivity|].
  exists l'. split; [exact Hx|exact Hc].
Defined.
