(* ===== verification/Auth.v ===== *)
(** * Authentication and authorization

    [application/service/auth], [internal/auth] and [application/service/user] with the handlers over
    them ([api/auth], [api/user]): registration, login, refresh and logout on the tables of users and
    refresh tokens, the access tokens, and the two interceptors that decide whether a call is served.
    bcrypt, JSON web tokens and the parser of mail addresses are third-party code and classes here;
    the hash of refresh tokens is SHA-256 itself. *)

From S2P Require Import Prelude GoStrings Domain Json Converters World Sql Repos.
From S2P Require Import GoUrl GoNum Sha256 GoFloat.

(** ** Third-party code *)

(** [golang.org/x/crypto/bcrypt] at cost 12; the n-th hash has its own salt. *)
Class PasswordLib := {
  bcrypt_Generate : nat -> string -> res string;
  bcrypt_Compare : string -> string -> option gerror;
  bcrypt_Compare_ok n p h : bcrypt_Generate n p = Ok h -> bcrypt_Compare h p = None }.

(** [net/mail.ParseAddress]: whether it accepts the text. *)
Class MailLib := { mail_ParseAddress : string -> bool }.

(** [crypto/rand.Read] of 32 bytes. *)
Class RandLib := {
  rand_Read32 : nat -> res (list Z) }.

(** The claims of a token; times are whole seconds, as [NumericDate] keeps them. *)
Record Claims := {
  cl_UserID : string; cl_Role : string; cl_ExpiresAt : option Z; cl_IssuedAt : option Z;
  cl_Issuer : string; cl_Audience : list string }.

Definition ErrTokenExpired : gerror := ESentinel "jwt.ErrTokenExpired" "token is expired".

(** [golang-jwt/v5] with HS256: what is signed with a secret parses with it while it has not
    expired; it checks neither issuer nor audience unless it is told to. *)
Class JwtLib := {
  jwt_Sign : string -> Claims -> res string;
  jwt_Parse : string -> Z -> string -> res Claims;
  jwt_Sign_ok secret c : exists t, jwt_Sign secret c = Ok t;
  jwt_roundtrip secret c t now e :
    jwt_Sign secret c = Ok t -> cl_ExpiresAt c = Some e ->
    jwt_Parse secret now t = if now <? e then Ok c else Err (EWrap "" ErrTokenExpired "") }.

(** ** password.go, refresh.go, jwt.go *)

Definition ErrInvalidPassword : gerror := ESentinel "auth.ErrInvalidPassword" "invalid password".
Definition ErrTokenGeneration : gerror :=
  ESentinel "auth.ErrTokenGeneration" "failed to generate token".
Definition ErrInvalidToken : gerror := ESentinel "auth.ErrInvalidToken" "invalid token".
Definition ErrExpiredToken : gerror := ESentinel "auth.ErrExpiredToken" "token expired".
Definition ErrMissingClaims : gerror := ESentinel "auth.ErrMissingClaims" "missing claims".

Definition HashRefreshToken (token : string) : string := sha256_hex token.

(** [hex.EncodeToString]. *)
Definition hex_bytes (l : list Z) : string :=
  of_bytes (l ≫= fun b => [hex_digit (Z.land (Z.shiftr b 4) 15); hex_digit (Z.land b 15)]).

Record JWTService := { secret : string; issuer : string; audience : string }.

(** [jwt.NewNumericDate] truncates to seconds. *)
Definition NewNumericDate (t : Z) : Z := t - t mod Second.

Section Tokens.
Context `{Env, PasswordLib, RandLib, JwtLib}.

Definition HashPassword (password : string) : M (res string) :=
  if decide (password = "") then ret_err ErrInvalidPassword
  else observe (fun n => bcrypt_Generate n password).

Definition ComparePassword (hashedPassword password : string) : option gerror :=
  bcrypt_Compare hashedPassword password.

Definition GenerateRefreshToken : M (res string) :=
  b ← observe rand_Read32;
  match b with Err _ => ret_err ErrTokenGeneration | Ok b => ret_ok (hex_bytes b) end.

Definition access_claims (s : JWTService) (userID : string) (role : Role) (ttl now : Z) : Claims :=
  {| cl_UserID := userID; cl_Role := role; cl_ExpiresAt := Some (NewNumericDate (now + ttl));
     cl_IssuedAt := Some (NewNumericDate now); cl_Issuer := issuer s; cl_Audience := [audience s] |}.

Definition SignAccessToken (s : JWTService) (userID : string) (role : Role) (ttl : Z)
  : M (res string) :=
  now ← time_Now; mret (jwt_Sign (secret s) (access_claims s userID role ttl now)).

(** [now] is the clock the parser reads. *)
Definition VerifyToken (s : JWTService) (now : Z) (tokenString : string) : res Claims :=
  match jwt_Parse (secret s) now tokenString with
  | Err e => Err (if errors_Is e "jwt.ErrTokenExpired" then ErrExpiredToken else ErrInvalidToken)
  | Ok claims =>
      if decide (cl_UserID claims = "") then Err ErrMissingClaims
      else match ParseRole (cl_Role claims) with
           | Err _ => Err ErrMissingClaims
           | Ok _ => Ok claims
           end
  end.

End Tokens.

(** ** middleware.go and authorization.go *)

(** What the interceptors put in the context, and the metadata of a call. *)
Record call_context := { user_id : option string; user_role : option string }.
Definition no_context : call_context := {| user_id := None; user_role := None |}.
Abbreviation metadata := (gmap string (list string)) (only parsing).

Definition Unauthenticated (msg : string) : gerror := ESentinel "codes.Unauthenticated" msg.
Definition PermissionDenied (msg : string) : gerror := ESentinel "codes.PermissionDenied" msg.

Definition publicEndpoints : list string :=
  ["/crawler.v1.AuthService/Register"; "/crawler.v1.AuthService/Login";
   "/crawler.v1.AuthService/Refresh"; "/crawler.v1.AuthService/Logout";
   "/grpc.health.v1.Health/Check"].

Definition isPublicEndpoint (method : string) : bool :=
  existsb (fun endpoint => bool_decide (method = endpoint)) publicEndpoints.

Definition extractTokenFromMetadata (md : option metadata) : res string :=
  match md with
  | None => Err (Unauthenticated "missing metadata")
  | Some md =>
      match default [] (md !! "authorization") with
      | [] => Err (Unauthenticated "missing authorization header")
      | authHeader :: _ =>
          match SplitN2 authHeader " "%char with
          | [scheme; token] =>
              if decide (ToLower scheme = "bearer") then Ok token
              else Err (Unauthenticated "invalid authorization header format")
          | _ => Err (Unauthenticated "invalid authorization header format")
          end
      end
  end.

Definition requiredRoleForMethod (method : string) : option Role :=
  if existsb (fun m => bool_decide (method = m))
       ["/crawler.v1.CrawlerService/ListJobs"; "/crawler.v1.CrawlerService/GetJob";
        "/crawler.v1.CrawlerService/ListTasksByJob"; "/crawler.v1.CrawlerService/GetTask";
        "/crawler.v1.CrawlerService/GetTaskFileURL"; "/crawler.v1.CrawlerService/GetTaskAnalytics";
        "/crawler.v1.CrawlerService/GetJobExportFileURL"]
  then Some RoleRead
  else if existsb (fun m => bool_decide (method = m))
       ["/crawler.v1.CrawlerService/CreateJob"; "/crawler.v1.PreviewService/CreatePreview";
        "/crawler.v1.PreviewService/GetPreview"]
  then Some RoleReadWrite
  else if existsb (fun m => bool_decide (method = m))
       ["/crawler.v1.WorkerService/ListWorkers"; "/crawler.v1.WorkerService/DrainWorker";
        "/crawler.v1.WorkerService/ForceKillWorker"; "/crawler.v1.UserService/ListUsers";
        "/crawler.v1.UserService/UpdateUserRole"; "/crawler.v1.QueueAdminService/ListQueueEndpoints";
        "/crawler.v1.QueueAdminService/CreateQueueEndpoint";
        "/crawler.v1.QueueAdminService/UpdateQueueEndpoint";
        "/crawler.v1.QueueAdminService/DeleteQueueEndpoint";
        "/crawler.v1.QueueAdminService/ListQueueRoutingRules";
        "/crawler.v1.QueueAdminService/UpsertQueueRoutingRules"]
  then Some RoleAdministrator
  else None.

Section Interceptors.
Context `{JwtLib}.

(** An interceptor gives the context the next handler runs in, or refuses. *)
Definition JWTAuthInterceptor (s : JWTService) (now : Z) (md : option metadata) (method : string)
    (ctx : call_context) : res call_context :=
  if isPublicEndpoint method then Ok ctx
  else
    match extractTokenFromMetadata md with
    | Err _ => Err (Unauthenticated "missing or invalid authorization header")
    | Ok token =>
        match VerifyToken s now token with
        | Err _ => Err (Unauthenticated "invalid or expired token")
        | Ok claims =>
            Ok {| user_id := Some (cl_UserID claims); user_role := Some (cl_Role claims) |}
        end
    end.

Definition RBACInterceptor (method : string) (ctx : call_context) : res call_context :=
  if isPublicEndpoint method then Ok ctx
  else
    match user_role ctx with
    | None => Err (PermissionDenied "missing role")
    | Some roleValue =>
        match ParseRole roleValue with
        | Err _ => Err (PermissionDenied "invalid role")
        | Ok role =>
            match requiredRoleForMethod method with
            | None => Err (PermissionDenied "access denied")
            | Some requiredRole =>
                if Level role <? Level requiredRole then Err (PermissionDenied "access denied")
                else Ok ctx
            end
        end
    end.

(** The chain of [initGRPCServer]: the context in which a call is served. *)
Definition serve_call (s : JWTService) (now : Z) (md : option metadata) (method : string)
  : res call_context :=
  ctx ← JWTAuthInterceptor s now md method no_context; RBACInterceptor method ctx.

End Interceptors.

(** ** auth_service.go *)

Definition ErrUserExists : gerror := ESentinel "auth.ErrUserExists" "user already exists".
Definition ErrInvalidCredentials : gerror := ESentinel "auth.ErrInvalidCredentials" "invalid credentials".
Definition ErrInvalidRefreshToken : gerror :=
  ESentinel "auth.ErrInvalidRefreshToken" "invalid refresh token".
Definition ErrPasswordTooShort : gerror :=
  ESentinel "auth.ErrPasswordTooShort" "password must be at least 8 characters".
Definition ErrInvalidEmail : gerror := ESentinel "auth.ErrInvalidEmail" "invalid email format".

Record AuthTokens := { AccessToken : string; RefreshTokenStr : string; ExpiresIn : Z }.

Record authService := {
  jwtService : JWTService; accessTokenTTL : Z; refreshTokenTTL : Z }.

(** [int(ttl.Seconds())]. *)
Definition ttl_seconds (ttl : Z) : Z :=
  match duration_Seconds ttl with Some q => int_of_float q | None => int64_min end.

Section Service.
Context `{Env, PasswordLib, MailLib, RandLib, JwtLib} (s : authService).

Definition generateTokens (user : User) : M (res AuthTokens) :=
  try accessToken <- SignAccessToken (jwtService s) (value (UID user)) (URole user) (accessTokenTTL s)
    else e => ret_err (Errorf "failed to sign access token" e);
  try refreshTokenStr <- GenerateRefreshToken
    else e => ret_err (Errorf "failed to generate refresh token" e);
  let tokenHash := HashRefreshToken refreshTokenStr in
  now ← time_Now;
  let expiresAt := now + refreshTokenTTL s in
  id ← uuid_New;
  created ← time_Now;
  try _ <- Token_Create (NewRefreshToken (MkID id) created (UID user) tokenHash expiresAt)
    else e => ret_err (Errorf "failed to store refresh token" e);
  ret_ok {| AccessToken := accessToken; RefreshTokenStr := refreshTokenStr;
            ExpiresIn := ttl_seconds (accessTokenTTL s) |}.

(** The bodies of the transactions. *)
Definition register_body (user : User) : M (res AuthTokens) :=
  try _ <- User_Create user else e => ret_err (Errorf "failed to create user" e);
  try tokens <- generateTokens user else e => ret_err (Errorf "failed to generate tokens" e);
  ret_ok tokens.

Definition login_body (user : User) : M (res AuthTokens) :=
  try _ <- Token_RevokeAllByUserID (UID user)
    else e => ret_err (Errorf "failed to revoke existing tokens" e);
  try tokens <- generateTokens user else e => ret_err (Errorf "failed to generate tokens" e);
  ret_ok tokens.

Definition refresh_body (refreshToken : RefreshToken) : M (res AuthTokens) :=
  now ← time_Now;
  let refreshToken := Revoke now refreshToken in
  try _ <- Token_Update refreshToken else e => ret_err (Errorf "failed to revoke old token" e);
  try user <- User_GetByID (RTUserID refreshToken)
    else e => ret_err (Errorf "failed to get user" e);
  match user with
  | None => ret_err ErrInvalidRefreshToken
  | Some user =>
      try tokens <- generateTokens user
        else e => ret_err (Errorf "failed to generate new tokens" e);
      ret_ok tokens
  end.

Definition Register (email password : string) : M (res AuthTokens) :=
  if negb (mail_ParseAddress email) then ret_err ErrInvalidEmail
  else if (String.length password <? 8)%nat then ret_err ErrPasswordTooShort
  else
    try existingUser <- User_GetByEmail email
      else e => ret_err (Errorf "failed to check existing user" e);
    match existingUser with
    | Some _ => ret_err ErrUserExists
    | None =>
        try passwordHash <- HashPassword password
          else e => ret_err (Errorf "failed to hash password" e);
        now ← time_Now;
        id ← uuid_New;
        ReadCommitted (register_body (NewUser (MkID id) now email passwordHash))
    end.

Definition Login (email password : string) : M (res AuthTokens) :=
  try user <- User_GetByEmail email else e => ret_err (Errorf "failed to get user" e);
  match user with
  | None => ret_err ErrInvalidCredentials
  | Some user =>
      match ComparePassword (PasswordHash user) password with
      | Some _ => ret_err ErrInvalidCredentials
      | None => ReadCommitted (login_body user)
      end
  end.

(** [Refresh] up to its transaction: the token, when it is valid. *)
Definition refresh_lookup (token : string) : M (res RefreshToken) :=
  try refreshToken <- Token_GetByTokenHash (HashRefreshToken token)
    else e => ret_err (Errorf "failed to get refresh token" e);
  match refreshToken with
  | None => ret_err ErrInvalidRefreshToken
  | Some refreshToken =>
      now ← (if IsRevoked refreshToken then mret 0 else time_Now);
      if RT_IsValid now refreshToken then ret_ok refreshToken else ret_err ErrInvalidRefreshToken
  end.

Definition Refresh (token : string) : M (res AuthTokens) :=
  try refreshToken <- refresh_lookup token; ReadCommitted (refresh_body refreshToken).

Definition Logout (token : string) : M (res unit) :=
  try _ <- Token_RevokeByTokenHash (HashRefreshToken token)
    else e => ret_err (Errorf "failed to revoke token" e);
  ret_ok tt.

(** ** user_service.go, and the administrator [service_provider.go] makes sure of *)

Definition ErrInvalidRole : gerror := ESentinel "user.ErrInvalidRole" "invalid role".
Definition ErrRoleNotAllowed : gerror := ESentinel "user.ErrRoleNotAllowed" "role is not allowed".
Definition ErrInvalidUserID : gerror := ESentinel "user.ErrInvalidUserID" "invalid user id".
Definition ErrUserNotFound : gerror := ESentinel "user.ErrUserNotFound" "user not found".
Definition ErrRoleUnchanged : gerror := ESentinel "user.ErrRoleUnchanged" "role is already assigned".

Definition ListUsers : M (res (list User)) := User_List.

Definition update_role_body (userID : UserID) (role : Role) : M (res unit) :=
  try user <- User_GetByID userID;
  match user with
  | None => ret_err ErrUserNotFound
  | Some user =>
      if decide (URole user = role) then ret_err ErrRoleUnchanged
      else User_UpdateRole userID role
  end.

Definition UpdateUserRole (userID : string) (role : Role) : M (res unit) :=
  if negb (Role_IsValid role) then ret_err ErrInvalidRole
  else if decide (role = RoleAdministrator) then ret_err ErrRoleNotAllowed
  else
    match NewUserID userID with
    | Err _ => ret_err ErrInvalidUserID
    | Ok userID => ReadCommitted (update_role_body userID role)
    end.

Definition EnsureDefaultAdmin (email password : string) : M (res unit) :=
  try user <- User_GetByEmail email;
  match user with
  | Some user =>
      if decide (URole user = RoleAdministrator) then ret_ok tt
      else User_UpdateRole (UID user) RoleAdministrator
  | None =>
      try passwordHash <- HashPassword password;
      now ← time_Now;
      id ← uuid_New;
      try _ <- User_Create (NewUserWithRole (MkID id) now email passwordHash RoleAdministrator);
      ret_ok tt
  end.

(** ** api/auth and api/user *)

Record TokensResponse := { tr_access_token : string; tr_refresh_token : string; tr_expires_in : Z }.

(** [int32(tokens.ExpiresIn)]. *)
Definition tokens_response (t : AuthTokens) : TokensResponse :=
  {| tr_access_token := AccessToken t; tr_refresh_token := RefreshTokenStr t;
     tr_expires_in := wraps 32 (ExpiresIn t) |}.

Definition API_Register (email password : string) : M (res TokensResponse) :=
  try tokens <- Register email password; ret_ok (tokens_response tokens).
Definition API_Login (email password : string) : M (res TokensResponse) :=
  try tokens <- Login email password; ret_ok (tokens_response tokens).
Definition API_Refresh (token : string) : M (res TokensResponse) :=
  try tokens <- Refresh token; ret_ok (tokens_response tokens).
Definition API_Logout (token : string) : M (res unit) := Logout token.

Definition ROLE_READ : Z := 1.
Definition ROLE_READ_WRITE : Z := 2.
Definition ROLE_ADMINISTRATOR : Z := 3.

Definition toProtoRole (role : Role) : Z :=
  if decide (role = RoleRead) then ROLE_READ
  else if decide (role = RoleReadWrite) then ROLE_READ_WRITE
  else if decide (role = RoleAdministrator) then ROLE_ADMINISTRATOR
  else 0.

Definition fromProtoRole (role : Z) : res Role :=
  if role =? ROLE_READ then Ok RoleRead
  else if role =? ROLE_READ_WRITE then Ok RoleReadWrite
  else if role =? ROLE_ADMINISTRATOR then Ok RoleAdministrator
  else ParseRole "".

Record ProtoUser := {
  pu_id : string; pu_email : string; pu_role : Z; pu_created_at : Z; pu_updated_at : Z }.

Definition toProtoUser (u : User) : ProtoUser :=
  {| pu_id := value (UID u); pu_email := Email u; pu_role := toProtoRole (URole u);
     pu_created_at := UCreatedAt u; pu_updated_at := UUpdatedAt u |}.

Definition status_Error (code msg : string) : gerror := ESentinel ("codes." +:+ code) msg.

Definition API_ListUsers : M (res (list ProtoUser)) :=
  try users <- ListUsers else e => ret_err (status_Error "Internal" "failed to list users");
  ret_ok (toProtoUser <$> users).

(** [switch err]: the error itself is compared, not the errors it wraps. *)
Definition API_UpdateUserRole (id : string) (role : Z) : M (res bool) :=
  if decide (id = "") then ret_err (status_Error "InvalidArgument" "id is required")
  else
    match fromProtoRole role with
    | Err _ => ret_err (status_Error "InvalidArgument" "invalid role")
    | Ok role =>
        try _ <- UpdateUserRole id role
          else err =>
            (if decide (err = ErrInvalidRole \/ err = ErrInvalidUserID)
             then ret_err (status_Error "InvalidArgument" (Error err))
             else if decide (err = ErrUserNotFound) then ret_err (status_Error "NotFound" (Error err))
             else if decide (err = ErrRoleNotAllowed)
             then ret_err (status_Error "PermissionDenied" (Error err))
             else if decide (err = ErrRoleUnchanged) then ret_ok false
             else ret_err (status_Error "Internal" "failed to update user role"));
        ret_ok true
    end.

End Service.

(** ** Lemmas on the steps *)

Section Steps.
Context `{Env, PasswordLib, MailLib, RandLib, JwtLib}.

Lemma scan_optional_out {A B} (f : nat -> database -> list A) (restore : A -> res B) a :
  tx a = None ->
  exists r b, scan_optional f restore a = (Ret r, b) /\ tx b = None /\ db b = db a
    /\ forall x, r = Ok (Some x) ->
         exists row rows, f (ticks a) (db a) = row :: rows /\ restore row = Ok x.
Proof.
  intros Ht. unfold scan_optional, try_bind, mbind, M_bind.
  destruct (query_out f a Ht) as (r & b & -> & Htb & _ & _ & Hd & Hr).
  destruct r as [rows|e].
  - rewrite <- (Hr rows eq_refl). destruct rows as [|row rows].
    + by eexists _, b.
    + eexists _, b. split; [reflexivity|]. split; [done|]. split; [done|]. intros x Hx.
      apply res_bind_Ok in Hx as (y & Hy & [= <-]). by eexists _, _.
  - destruct (_ || _); by eexists _, b.
Qed.

Lemma scan_optional_some {A B} (f : nat -> database -> list A) (restore : A -> res B) a x b :
  scan_optional f restore a = (Ret (Ok (Some x)), b) ->
  b = tick a /\ exists row rows, f (ticks a) (db a) = row :: rows /\ restore row = Ok x.
Proof.
  intros E. unfold scan_optional in E. apply try_inv in E as [(rows & a1 & E1 & E)|(e & a1 & _ & E)].
  - apply query_ok in E1 as (_ & -> & ->). destruct (f (ticks a) (db a)) as [|row rows]; [done|].
    injection E as E <-. apply res_bind_Ok in E as (y & Hy & [= <-]). eauto.
  - by destruct (_ || _).
Qed.

Lemma user_row (s : UserSnapshot) u :
  UserSnapshotToModel s = Ok u ->
  value (UID u) = us_ID s /\ us_ID s <> "" /\ Email u = us_Email s
  /\ PasswordHash u = us_PasswordHash s /\ URole u = us_Role s /\ Role_IsValid (us_Role s) = true.
Proof.
  unfold UserSnapshotToModel. intros (i & Ei & (role & Er & [= <-])%res_bind_Ok)%res_bind_Ok.
  unfold NewUserID in Ei. apply res_bind_Ok in Ei as (j & Ej & [= <-]).
  apply NewID_ok in Ej as (-> & Hne & _). by apply ParseRole_ok in Er as [-> ?].
Qed.

(** The row of the refresh token that tokens were issued with. *)
Definition issued_row (s : authService) (userID : string) (t : AuthTokens)
    (row : RefreshTokenSnapshot) : Prop :=
  rs_UserID row = userID /\ rs_TokenHash row = sha256_hex (RefreshTokenStr t)
  /\ rs_RevokedAt row = None /\ rs_ReplacedByTokenID row = None.

Definition access_token (s : authService) (userID : string) (role : Role) (t : AuthTokens) : Prop :=
  exists n, jwt_Sign (secret (jwtService s))
              (access_claims (jwtService s) userID role (accessTokenTTL s) (clock_at n))
            = Ok (AccessToken t).

Lemma insert_token_ok row d id d' :
  insert_token row d = Ok (id, d') ->
  d' = upd_tokens (fun l => l ++ [row]) d
  /\ (forall t, t ∈ tokens d -> rs_TokenHash t <> rs_TokenHash row /\ rs_ID t <> rs_ID row).
Proof.
  unfold insert_token. intros ([] & E1 & ([] & E2 & ([] & _ & ([] & _ & [= <- <-])%res_bind_Ok)%res_bind_Ok)%res_bind_Ok)%res_bind_Ok.
  split; [done|]. intros t Ht. unfold guard_ in *.
  destruct (negb (existsb _ _)) eqn:Ei in E1; [|done]. destruct (negb (existsb _ _)) eqn:Eh in E2; [|done].
  rewrite not_existsb in Ei, Eh. specialize (Ei t Ht). specialize (Eh t Ht).
  by apply bool_decide_eq_false in Ei, Eh.
Qed.

Lemma generateTokens_ok s user a t b :
  generateTokens s user a = (Ret (Ok t), b) ->
  exists row, db b = upd_tokens (fun l => l ++ [row]) (db a)
    /\ issued_row s (value (UID user)) t row /\ access_token s (value (UID user)) (URole user) t
    /\ (forall x, x ∈ tokens (db a) -> rs_TokenHash x <> rs_TokenHash row).
Proof.
  unfold generateTokens. intros E.
  apply try_ok in E as (acc & a1 & E1 & E). apply try_ok in E as (tok & a2 & E2 & E).
  unfold uuid_New, time_Now in E.
  do 3 rewrite (bind_ret _ _ _ _ _ (observe_ret _ _)) in E.
  apply try_ok in E as (id & a3 & E3 & E). injection E as <- <-.
  unfold SignAccessToken, time_Now in E1. rewrite (bind_ret _ _ _ _ _ (observe_ret _ _)) in E1.
  injection E1 as E1 <-.
  unfold GenerateRefreshToken in E2. rewrite (bind_ret _ _ _ _ _ (observe_ret _ _)) in E2.
  destruct (rand_Read32 _); [|done]. injection E2 as _ <-.
  unfold Token_Create in E3. apply try_ok' in E3 as (i & a4 & E3 & E4). injection E4 as _ <-.
  apply stmt_ok in E3 as (_ & d & E3 & ->).
  apply insert_token_ok in E3 as [-> Hfresh]. eexists. split; [done|]. split; [done|].
  split; [by eexists|]. intros x Hx. by apply Hfresh.
Qed.

End Steps.

(** ** Sessions *)

(** An update of rows out of sight. *)
Lemma filter_update_where {A} (P : A -> Prop) `{forall x, Decision (P x)} (p : A -> bool) f l :
  (forall x, p x = true -> ~ P x /\ ~ P (f x)) -> filter P (update_where p f l) = filter P l.
Proof.
  intros Hp. unfold update_where. induction l as [|x l IH]; [done|]. rewrite fmap_cons.
  destruct (p x) eqn:Ex.
  - destruct (Hp x Ex). by rewrite !filter_cons_False.
  - rewrite !filter_cons. rewrite IH. by case_decide.
Qed.

(** After a login: the user's open tokens are revoked, and one new token is open. *)
Definition session_opened `{JwtLib} (s : authService) (u : UserSnapshot) (t : AuthTokens)
    (d d' : database) : Prop :=
  exists now row,
    d' = upd_tokens (fun l =>
           update_where (fun r => bool_decide (rs_UserID r = us_ID u)
                                  && match rs_RevokedAt r with None => true | Some _ => false end)
             (revoke_row now) l ++ [row]) d
    /\ issued_row s (us_ID u) t row.

Lemma single_open_token `{JwtLib} s u t d d' :
  session_opened s u t d d' ->
  exists row, row ∈ tokens d' /\ issued_row s (us_ID u) t row
    /\ (forall r, r ∈ tokens d' -> rs_UserID r = us_ID u -> rs_RevokedAt r = None -> r = row)
    /\ filter (fun r => rs_UserID r <> us_ID u) (tokens d')
       = filter (fun r => rs_UserID r <> us_ID u) (tokens d).
Proof.
  intros (now & row & -> & Hrow). exists row. simpl. split; [set_solver|]. split; [done|]. split.
  - intros r Hr Hu Hn. apply elem_of_app in Hr as [Hr|Hr]; [|by apply list_elem_of_singleton in Hr].
    unfold update_where in Hr. apply list_elem_of_fmap in Hr as (x & -> & _).
    destruct (bool_decide (rs_UserID x = us_ID u)) eqn:Eu; simpl in *.
    + destruct (rs_RevokedAt x) eqn:Ex; [congruence|done].
    + by apply bool_decide_eq_false in Eu.
  - destruct Hrow as [Hu _]. rewrite filter_app, filter_cons_False, filter_nil, app_nil_r by naive_solver.
    apply filter_update_where. intros x Hx. apply andb_true_iff in Hx as [Hx%bool_decide_eq_true _].
    split; intros Hne; by apply Hne.
Qed.

Section Sessions.
Context `{Env, PasswordLib, MailLib, RandLib, JwtLib}.

Lemma login_body_ok s user a t b u :
  value (UID user) = us_ID u -> login_body s user a = (Ret (Ok t), b) ->
  session_opened s u t (db a) (db b) /\ access_token s (us_ID u) (URole user) t.
Proof.
  intros Hid E. unfold login_body in E. apply try_ok in E as ([] & a1 & E1 & E).
  apply try_ok in E as (t' & a2 & E2 & E). injection E as <- <-.
  unfold Token_RevokeAllByUserID, time_Now in E1. rewrite (bind_ret _ _ _ _ _ (observe_ret _ _)) in E1.
  apply stmt_ok in E1 as (_ & d & [= <-] & ->).
  destruct (generateTokens_ok _ _ _ _ _ E2) as (row & -> & Hrow & Hacc & _).
  rewrite Hid in *. split; [|done]. by eexists _, row.
Qed.

(** C18: one session per user.  [Login] always returns, with no transaction left open.  When it
    answers with tokens, there is a user with the address whose hash the password matches, and in
    the committed database that user has exactly one refresh token that is not revoked: the one
    returned, of which only the SHA-256 hash is stored; nothing else has changed, the tokens of
    other users included.  When it answers with an error nothing has changed, unless the error is that
    of the commit, whose acknowledgement was lost after it took effect: then the session of a user with
    that address and password was opened, and its tokens are not known to the client. *)
Theorem login_single_session s email password a :
  tx a = None ->
  exists r b, Login s email password a = (Ret r, b) /\ tx b = None
    /\ match r with
       | Ok t => exists u, u ∈ users (db a) /\ us_Email u = email
                   /\ bcrypt_Compare (us_PasswordHash u) password = None
                   /\ (exists f, db b = upd_tokens f (db a))
                   /\ exists row, row ∈ tokens (db b) /\ issued_row s (us_ID u) t row
                        /\ (forall x, x ∈ tokens (db b) -> rs_UserID x = us_ID u ->
                              rs_RevokedAt x = None -> x = row)
                        /\ filter (fun x => rs_UserID x <> us_ID u) (tokens (db b))
                           = filter (fun x => rs_UserID x <> us_ID u) (tokens (db a))
       | Err e => db b = db a
                  \/ commit_lost b e /\ exists u t, u ∈ users (db a) /\ us_Email u = email
                       /\ bcrypt_Compare (us_PasswordHash u) password = None
                       /\ session_opened s u t (db a) (db b)
       end.
Proof.
  intros Ht. unfold Login, try_bind, mbind, M_bind, User_GetByEmail.
  destruct (scan_optional_out (fun _ d =>
      limit_rows 1 (bfilter (fun u => bool_decide (us_Email u = email)) (users d)))
      UserSnapshotToModel a Ht) as (r & b & -> & Htb & Hd & Hr).
  destruct r as [[user|]|e]; [|eexists _, b; split; [done|]; split; [done|by left]..].
  destruct (Hr user eq_refl) as (u & rows & Eu & Hu). clear Hr.
  assert (Hin : u ∈ users (db a) /\ us_Email u = email).
  { assert (Hl : u ∈ limit_rows 1 (bfilter (fun u => bool_decide (us_Email u = email)) (users (db a))))
      by (rewrite Eu; left).
    apply elem_of_limit_rows, elem_of_bfilter in Hl as [He Hl]. by apply bool_decide_eq_true in He. }
  destruct Hin as [Hin He]. destruct (user_row _ _ Hu) as (Hid & _ & _ & Hp & _ & _).
  unfold ComparePassword. rewrite Hp.
  destruct (bcrypt_Compare (us_PasswordHash u) password) as [ce|] eqn:Ec;
    [eexists _, b; split; [done|]; split; [done|by left]|].
  destruct (ReadCommitted_cases (login_body s user) b Htb) as (r & c & E & Htc & _).
  exists r, c. split; [exact E|]. split; [done|].
  destruct r as [t|e].
  - destruct (ReadCommitted_ok _ _ _ _ Htb E) as (w1 & Ef & _ & Hdc & _).
    destruct (login_body_ok s user _ t w1 u Hid Ef) as [Hs _]. simpl in Hs. rewrite Hd, <- Hdc in Hs.
    exists u. split; [done|]. split; [done|]. split; [done|].
    split; [destruct Hs as (now & row & -> & _); by eexists|]. by apply single_open_token.
  - destruct (ReadCommitted_err _ _ _ _ Htb E) as [Hdc|(Hl & t & w1 & Ef & Hdc & _)]; [left; congruence|].
    right. split; [done|]. destruct (login_body_ok s user _ t w1 u Hid Ef) as [Hs _]. simpl in Hs.
    rewrite Hd, <- Hdc in Hs. by exists u, t.
Qed.

(** What a refresh does when it answers with tokens. *)
Lemma refresh_lookup_ok token a rt b :
  refresh_lookup token a = (Ret (Ok rt), b) ->
  db b = db a /\ tx b = tx a /\ exists row, row ∈ tokens (db a)
    /\ rs_TokenHash row = sha256_hex token /\ RefreshTokenSnapshotToModel row = Ok rt
    /\ rs_RevokedAt row = None /\ clock_at (S (ticks a)) <= rs_ExpiresAt row.
Proof.
  intros E. unfold refresh_lookup in E. apply try_ok in E as (o & a1 & E1 & E).
  destruct o as [x|]; [|done]. unfold Token_GetByTokenHash in E1.
  apply scan_optional_some in E1 as (-> & row & rows & Erow & Hrt).
  assert (Hl : row ∈ limit_rows 1 (bfilter (fun t => bool_decide (rs_TokenHash t = HashRefreshToken token))
                                    (tokens (db a)))) by (rewrite Erow; left).
  apply elem_of_limit_rows, elem_of_bfilter in Hl as [Hh%bool_decide_eq_true Hin].
  assert (Hx : RevokedAt x = rs_RevokedAt row /\ RTExpiresAt x = rs_ExpiresAt row).
  { unfold RefreshTokenSnapshotToModel in Hrt. apply res_bind_Ok in Hrt as (i & _ & Hrt).
    apply res_bind_Ok in Hrt as (ui & _ & Hrt). apply res_bind_Ok in Hrt as (ri & _ & [= <-]). done. }
  destruct Hx as [Hr Hex]. unfold IsRevoked, RT_IsValid, IsRevoked, IsExpired, After in E.
  rewrite Hr, Hex in E. destruct (rs_RevokedAt row) eqn:Erev; [done|].
  unfold time_Now in E. rewrite (bind_ret _ _ _ _ _ (observe_ret _ _)) in E. simpl in E.
  destruct (bool_decide _) eqn:Eexp in E; [done|]. injection E as <- <-.
  apply bool_decide_eq_false in Eexp. split; [done|]. split; [done|]. exists row.
  repeat (split; [done|]). lia.
Qed.

Lemma token_row row rt :
  RefreshTokenSnapshotToModel row = Ok rt ->
  value (RTID rt) = rs_ID row /\ value (RTUserID rt) = rs_UserID row
  /\ (value <$> ReplacedByTokenID rt) = rs_ReplacedByTokenID row.
Proof.
  unfold RefreshTokenSnapshotToModel. intros (i & Ei & E)%res_bind_Ok.
  apply res_bind_Ok in E as (u & Eu & E). apply res_bind_Ok in E as (ri & Er & [= <-]). simpl.
  unfold NewUserID in Eu. apply res_bind_Ok in Eu as (j & Ej & [= <-]).
  apply NewID_ok in Ei as (-> & _). apply NewID_ok in Ej as (-> & _).
  split; [done|]. split; [done|]. destruct (rs_ReplacedByTokenID row) as [x|]; [|by injection Er as <-].
  apply res_bind_Ok in Er as (k & Ek & [= <-]). by apply NewID_ok in Ek as (-> & _).
Qed.

Lemma refresh_body_ok s row rt a t b :
  RefreshTokenSnapshotToModel row = Ok rt -> row ∈ tokens (db a) ->
  refresh_body s rt a = (Ret (Ok t), b) ->
  exists now new,
    db b = upd_tokens (fun l => update_where (fun r => bool_decide (rs_ID r = rs_ID row))
             (set_revoked (Some now) (rs_ReplacedByTokenID row)) l ++ [new]) (db a)
    /\ issued_row s (rs_UserID row) t new
    /\ (forall x, x ∈ tokens (db a) -> rs_TokenHash x <> rs_TokenHash new).
Proof.
  intros Hrt Hin E. destruct (token_row _ _ Hrt) as (Hid & Huid & Hrep).
  unfold refresh_body, time_Now in E. rewrite (bind_ret _ _ _ _ _ (observe_ret _ _)) in E.
  apply try_ok in E as ([] & a1 & E1 & E). apply try_ok in E as (o & a2 & E2 & E).
  destruct o as [user|]; [|done]. apply try_ok in E as (t' & a3 & E3 & E). injection E as <- <-.
  unfold Token_Update in E1. apply stmt_ok in E1 as (_ & d & E1 & ->). simpl in E1.
  rewrite Hid, Hrep in E1.
  assert (Hex : existsb (fun r => bool_decide (rs_ID r = rs_ID row)) (tokens (db a)) = true).
  { apply existsb_exists. exists row. split; [by apply list_elem_of_In|]. by apply bool_decide_eq_true. }
  rewrite Hex in E1. apply res_bind_Ok in E1 as ([] & _ & [= <-]).
  unfold User_GetByID in E2. apply scan_optional_some in E2 as (-> & u & rows & Eu & Hu).
  destruct (user_row _ _ Hu) as (Hidu & _).
  assert (Hl : u ∈ limit_rows 1 (bfilter (fun u => bool_decide (us_ID u = value (RTUserID rt))) (users (db a))))
    by (simpl in Eu; rewrite Eu; left).
  apply elem_of_limit_rows, elem_of_bfilter in Hl as [Hu2%bool_decide_eq_true _].
  destruct (generateTokens_ok _ _ _ _ _ E3) as (new & Hd & Hnew & _ & Hfresh).
  rewrite Hidu, Hu2, Huid in Hnew. eexists _, new. split; [exact Hd|]. split; [done|].
  intros x Hx Eh. simpl in Hfresh.
  destruct (Hfresh (if bool_decide (rs_ID x = rs_ID row) then
      set_revoked (Some (clock_at (ticks a))) (rs_ReplacedByTokenID row) x else x)).
  - unfold update_where. apply list_elem_of_fmap. by exists x.
  - by case_bool_decide.
Qed.

(** C19: a refresh token is used once.  When [Refresh] answers with tokens, the token presented was
    stored, not revoked and not expired, and in the committed database it is revoked and the new one
    is open for the same user.  From then on, as long as nothing else touches its row, presenting it
    again is refused. *)
Theorem refresh_single_use s token a t b :
  tx a = None -> NoDup (rs_TokenHash <$> tokens (db a)) ->
  Refresh s token a = (Ret (Ok t), b) ->
  (exists old now new, old ∈ tokens (db a) /\ rs_TokenHash old = sha256_hex token
     /\ rs_RevokedAt old = None /\ clock_at (S (ticks a)) <= rs_ExpiresAt old
     /\ db b = upd_tokens (fun l => update_where (fun r => bool_decide (rs_ID r = rs_ID old))
                  (set_revoked (Some now) (rs_ReplacedByTokenID old)) l ++ [new]) (db a)
     /\ issued_row s (rs_UserID old) t new)
  /\ forall c, filter (fun r => rs_TokenHash r = sha256_hex token) (tokens (db c))
               = filter (fun r => rs_TokenHash r = sha256_hex token) (tokens (db b)) ->
      forall t' c', Refresh s token c <> (Ret (Ok t'), c').
Proof.
  intros Ht Hnd E. unfold Refresh in E. apply try_ok' in E as (rt & a1 & E1 & E).
  destruct (refresh_lookup_ok _ _ _ _ E1) as (Hd1 & Htx1 & row & Hin & Hh & Hrt & Hrev & Hexp).
  rewrite Ht in Htx1. destruct (ReadCommitted_ok _ _ _ _ Htx1 E) as (w1 & Eb & _ & Hd & _ & _).
  assert (Hin1 : row ∈ tokens (db (set_tx (Some false) (tick a1)))) by (simpl; by rewrite Hd1).
  destruct (refresh_body_ok _ _ _ _ _ _ Hrt Hin1 Eb) as (now & new & Hb & Hnew & Hfresh).
  rewrite <- Hd in Hb. simpl in Hb. rewrite Hd1 in Hb. simpl in Hfresh. rewrite Hd1 in Hfresh.
  split; [by exists row, now, new|].
  intros c Hc t' c' E'. unfold Refresh in E'. apply try_ok' in E' as (rt' & c1 & E1' & _).
  destruct (refresh_lookup_ok _ _ _ _ E1') as (_ & _ & x & Hx & Hhx & _ & Hrevx & _).
  assert (Hxb : x ∈ tokens (db b)).
  { assert (Hf : x ∈ filter (fun r => rs_TokenHash r = sha256_hex token) (tokens (db c)))
      by (by apply list_elem_of_filter).
    rewrite Hc in Hf. by apply list_elem_of_filter in Hf as [_ Hf]. }
  rewrite Hb in Hxb. simpl in Hxb. apply elem_of_app in Hxb as [Hxb|Hxb].
  - unfold update_where in Hxb. apply list_elem_of_fmap in Hxb as (y & -> & Hy).
    destruct (bool_decide (rs_ID y = rs_ID row)) eqn:Ey; [done|].
    apply bool_decide_eq_false in Ey. apply Ey. f_equal.
    assert (Hyr : rs_TokenHash y = rs_TokenHash row) by congruence.
    apply list_elem_of_lookup in Hy as [i Hi]. apply list_elem_of_lookup in Hin as [j Hj].
    assert (i = j).
    { eapply NoDup_lookup; [exact Hnd| |]; rewrite list_lookup_fmap;
        [by rewrite Hi|rewrite Hj; simpl; by rewrite Hyr]. }
    congruence.
  - apply list_elem_of_singleton in Hxb as ->. apply (Hfresh row Hin). congruence.
Qed.

End Sessions.

(** ** Access *)

Section Access.
Context `{Env, PasswordLib, MailLib, RandLib, JwtLib}.

Lemma bearer_token (md : metadata) token :
  md !! "authorization" = Some ["Bearer " +:+ token] -> extractTokenFromMetadata (Some md) = Ok token.
Proof.
  intros E. unfold extractTokenFromMetadata. rewrite E.
  assert (Es : SplitN2 ("Bearer " +:+ token) " "%char = ["Bearer"; token]).
  { rewrite <- (of_bytes_of token) at 2. reflexivity. }
  change (default [] (Some ["Bearer " +:+ token])) with ["Bearer " +:+ token]. cbv iota.
  by rewrite Es.
Qed.

(** A token that was signed for a stored user is accepted until it expires. *)
Lemma signed_token_verifies s userID role ttl issued tok now :
  userID <> "" -> Role_IsValid role = true ->
  jwt_Sign (secret s) (access_claims s userID role ttl issued) = Ok tok ->
  VerifyToken s now tok
  = if now <? NewNumericDate (issued + ttl) then Ok (access_claims s userID role ttl issued)
    else Err ErrExpiredToken.
Proof.
  intros Hid Hrole Hs. unfold VerifyToken.
  rewrite (jwt_roundtrip _ _ _ now (NewNumericDate (issued + ttl)) Hs) by done.
  destruct (now <? _); [|done]. simpl. rewrite decide_False by done. unfold ParseRole.
  by rewrite Hrole.
Qed.

(** What the tokens of a login open.  A call with the access token of a login is served, until
    the token expires and never after, exactly when its method needs a role the user had at the
    login, or less, and it runs as that user; methods the table does not name are refused to
    everyone, and the public ones are served with no token at all. *)
Theorem login_grants_role s email password a t b :
  tx a = None -> Login s email password a = (Ret (Ok t), b) ->
  exists u n, u ∈ users (db a) /\ us_Email u = email
    /\ forall now method md, md !! "authorization" = Some ["Bearer " +:+ AccessToken t] ->
         serve_call (jwtService s) now (Some md) method
         = if isPublicEndpoint method then Ok no_context
           else if now <? NewNumericDate (clock_at n + accessTokenTTL s) then
             match requiredRoleForMethod method with
             | Some required =>
                 if Level (us_Role u) <? Level required then Err (PermissionDenied "access denied")
                 else Ok {| user_id := Some (us_ID u); user_role := Some (us_Role u) |}
             | None => Err (PermissionDenied "access denied")
             end
           else Err (Unauthenticated "invalid or expired token").
Proof.
  intros Ht E. unfold Login in E. apply try_ok in E as (o & a1 & E1 & E).
  destruct o as [user|]; [|done]. unfold User_GetByEmail in E1.
  apply scan_optional_some in E1 as (-> & u & rows & Eu & Hu).
  assert (Hl : u ∈ limit_rows 1 (bfilter (fun u => bool_decide (us_Email u = email)) (users (db a))))
    by (rewrite Eu; left).
  apply elem_of_limit_rows, elem_of_bfilter in Hl as [He%bool_decide_eq_true Hin].
  destruct (user_row _ _ Hu) as (Hid & Hne & _ & _ & Hrole & Hvalid).
  destruct (ComparePassword _ _); [done|].
  destruct (ReadCommitted_ok _ _ _ _ (Ht : tx (tick a) = None) E) as (w1 & Eb & _).
  destruct (login_body_ok s user _ t w1 u Hid Eb) as [_ [n Hsign]]. rewrite Hrole in Hsign.
  exists u, n. split; [done|]. split; [done|]. intros now method md Hmd.
  unfold serve_call, JWTAuthInterceptor, RBACInterceptor.
  destruct (isPublicEndpoint method) eqn:Ep; [done|].
  rewrite (bearer_token _ _ Hmd), (signed_token_verifies _ _ _ _ _ _ now Hne Hvalid Hsign).
  destruct (now <? _); [|done]. simpl. unfold ParseRole. rewrite Hvalid. simpl.
  destruct (requiredRoleForMethod method) as [q|]; [|done].
  by destruct (Level (us_Role u) <? Level q).
Qed.

(** ** Roles *)

Definition administrators (l : list UserSnapshot) : list UserSnapshot :=
  filter (fun u => us_Role u = RoleAdministrator) l.

(** The role of user [id] is set. *)
Definition with_role (role : string) (now : Z) (r : UserSnapshot) : UserSnapshot :=
  {| us_ID := us_ID r; us_Email := us_Email r; us_PasswordHash := us_PasswordHash r;
     us_Role := role; us_CreatedAt := us_CreatedAt r; us_UpdatedAt := now |}.
Definition role_set (id role : string) (now : Z) : database -> database :=
  upd_users (update_where (fun r => bool_decide (us_ID r = id)) (with_role role now)).

(** A transaction wraps the errors of its body: what it returns is none of the package's own. *)
Lemma ReadCommitted_error {A} (fn : M (res A)) w e w' :
  tx w = None -> ReadCommitted fn w = (Ret (Err e), w') ->
  forall name msg, e <> ESentinel name msg.
Proof.
  intros Ht. unfold ReadCommitted, Commit, Rollback, Errorf, rollback_error. rewrite Ht.
  destruct (verdict_at (ticks w)); [|by intros [= <- _]..].
  destruct (fn _) as [[[a|e1]|m] w1].
  - destruct (tx w1) as [[]|]; [by intros [= <- _]|..];
      (destruct (verdict_at (ticks w1)); [done|by intros [= <- _]..]).
  - destruct (verdict_at (ticks w1)); by intros [= <- _].
  - destruct (verdict_at (ticks w1)); by intros [= <- _].
Qed.

Lemma update_role_body_ok id role a b :
  update_role_body id role a = (Ret (Ok tt), b) ->
  exists row now, row ∈ users (db a) /\ us_ID row = value id /\ us_Role row <> role
    /\ db b = role_set (value id) role now (db a).
Proof.
  unfold update_role_body. intros E. apply try_ok' in E as (o & a1 & E1 & E).
  destruct o as [user|]; [|done]. unfold User_GetByID in E1.
  apply scan_optional_some in E1 as (-> & u & rows & Eu & Hu).
  assert (Hl : u ∈ limit_rows 1 (bfilter (fun u => bool_decide (us_ID u = value id)) (users (db a))))
    by (rewrite Eu; left).
  apply elem_of_limit_rows, elem_of_bfilter in Hl as [Hi%bool_decide_eq_true Hin].
  destruct (user_row _ _ Hu) as (_ & _ & _ & _ & Hrole & _).
  case_decide as Hne; [done|]. unfold User_UpdateRole, time_Now in E.
  rewrite (bind_ret _ _ _ _ _ (observe_ret _ _)) in E. apply stmt_ok in E as (_ & d & E & ->).
  simpl in E.
  assert (Hex : existsb (fun r => bool_decide (us_ID r = value id)) (users (db a)) = true).
  { apply existsb_exists. exists u. split; [by apply list_elem_of_In|by apply bool_decide_eq_true]. }
  rewrite Hex in E. apply res_bind_Ok in E as ([] & _ & [= <-]).
  exists u, (clock_at (S (ticks a))). split; [done|]. split; [done|]. split; [congruence|done].
Qed.

Lemma administrators_update id role now d :
  role <> RoleAdministrator ->
  administrators (users (role_set id role now d)) `sublist_of` administrators (users d).
Proof.
  intros Hr. unfold administrators, role_set, update_where. simpl.
  induction (users d) as [|x l IH]; [done|].
  rewrite fmap_cons, !filter_cons. case_bool_decide.
  - simpl. rewrite (decide_False (P := role = _)) by done. case_decide; [by apply sublist_cons|done].
  - case_decide; [by apply sublist_skip|done].
Qed.

Lemma fromProtoRole_ok z role : fromProtoRole z = Ok role -> Role_IsValid role = true.
Proof. unfold fromProtoRole. repeat case_match; intros [= <-]; done. Qed.

(** A call that is refused at once. *)
Ltac refused a :=
  eexists _, a; split; [reflexivity|]; split; [assumption|]; split; [reflexivity|];
  split; [done|]; split; [by left|]; intros msg Emsg; vm_compute in Emsg; discriminate Emsg.

(** A change of role.  The API's [UpdateUserRole] always returns and makes nobody an
    administrator.  When it answers [updated = true] the stored user has the role it asked for and
    had another one; when it answers with an error nothing has changed, but for a commit whose
    acknowledgement was lost.  An unknown user and a role the user already has are found inside the
    transaction, whose error wraps them, and the handler compares errors with [==]: it never answers
    NotFound, nor [updated = false], but an internal error. *)
Theorem update_role_outcome id role a :
  tx a = None ->
  exists r b, API_UpdateUserRole id role a = (Ret r, b) /\ tx b = None
    /\ administrators (users (db b)) `sublist_of` administrators (users (db a))
    /\ (forall updated, r = Ok updated -> updated = true
          /\ exists row now role', row ∈ users (db a) /\ us_ID row = id /\ fromProtoRole role = Ok role'
               /\ us_Role row <> role' /\ db b = role_set id role' now (db a))
    /\ (is_ok r = false -> db b = db a
                           \/ exists now role', role' <> RoleAdministrator
                                               /\ db b = role_set id role' now (db a))
    /\ (forall msg, r <> Err (status_Error "NotFound" msg)).
Proof.
  intros Ht. unfold API_UpdateUserRole.
  case_decide; [by refused a|].
  destruct (fromProtoRole role) as [role'|e] eqn:Er; [|by refused a].
  unfold UpdateUserRole. rewrite (fromProtoRole_ok _ _ Er). simpl negb. cbv iota.
  case_decide as Hadm; [by refused a|].
  destruct (NewUserID id) as [uid|e] eqn:Eid; [|by refused a].
  assert (Huid : value uid = id).
  { unfold NewUserID in Eid. apply res_bind_Ok in Eid as (j & Ej & [= <-]).
    by apply NewID_ok in Ej as (-> & _). }
  unfold try_bind, mbind, M_bind.
  destruct (ReadCommitted_cases (update_role_body uid role') a Ht) as (r & b & E & Htb & Hc).
  rewrite E.
  assert (Hdb : (is_ok r = false /\ db b = db a)
            \/ exists row now, row ∈ users (db a) /\ us_ID row = id /\ us_Role row <> role'
                 /\ db b = role_set id role' now (db a)).
  { destruct Hc as [[Hr ->]|(o & w1 & Ef & _ & _ & [?|([] & -> & _ & _ & Hd)])]; [by left..|].
    right. destruct (update_role_body_ok _ _ _ _ Ef) as (row & now & Hin & Hi & Hne & Hw).
    exists row, now. rewrite Hd, Hw, <- Huid. by rewrite Hi. }
  assert (Hsub : administrators (users (db b)) `sublist_of` administrators (users (db a))).
  { destruct Hdb as [[_ ->]|(row & now & _ & _ & _ & ->)]; [done|]. by apply administrators_update. }
  destruct r as [[]|e].
  - exists (Ok true), b. split_and!; try done. intros updated [= <-]. split; [done|].
    destruct Hdb as [[? _]|(row & now & ? & ? & ? & ?)]; [done|]. by exists row, now, role'.
  - pose proof (ReadCommitted_error _ _ _ _ Ht E) as He.
    rewrite !decide_False by (try intros [Ee|Ee]; try intros Ee; by apply He in Ee).
    eexists _, b. split; [reflexivity|]. split_and!; try done. intros _.
    destruct Hdb as [[_ Hd]|(row & now & _ & _ & _ & Hd)]; [by left|right; by exists now, role'].
Qed.

End Access.

(** ** Instances for concrete runs

    Passwords are their own hashes, random bytes count the calls, and a token is the bits of its
    claims: the laws of the classes can hold. *)

#[export] Instance plain_passwords : PasswordLib.
Proof.
  refine {| bcrypt_Generate _ p := Ok p;
            bcrypt_Compare h p := if decide (h = p) then None else Some ErrInvalidPassword |}.
  intros _ p h [= ->]. by rewrite decide_True.
Defined.

#[export] Instance any_mail : MailLib := {| mail_ParseAddress _ := true |}.
#[export] Instance counting_rand : RandLib :=
  {| rand_Read32 n := Ok (Z.of_nat n :: repeat 0 31) |}.

#[export] Instance Claims_eq_dec : EqDecision Claims.
Proof. solve_decision. Defined.
#[export] Instance Claims_countable : Countable Claims.
Proof.
  refine (inj_countable'
    (fun c => (cl_UserID c, cl_Role c, cl_ExpiresAt c, cl_IssuedAt c, cl_Issuer c, cl_Audience c))
    (fun '(u, r, e, i, s, a) => {| cl_UserID := u; cl_Role := r; cl_ExpiresAt := e; cl_IssuedAt := i;
                                   cl_Issuer := s; cl_Audience := a |}) _).
  by intros [].
Defined.

Fixpoint bits_of (p : positive) : string :=
  match p with
  | xH => ""
  | xO p => String "0" (bits_of p)
  | xI p => String "1" (bits_of p)
  end.
Fixpoint of_bits (s : string) : positive :=
  match s with
  | EmptyString => xH
  | String c s => if Ascii.eqb c "0" then xO (of_bits s) else xI (of_bits s)
  end.

Lemma of_bits_bits p : of_bits (bits_of p) = p.
Proof. induction p as [p IH|p IH|]; simpl; by rewrite ?IH. Qed.

#[export] Instance plain_jwt : JwtLib.
Proof.
  refine {| jwt_Sign secret c := Ok (bits_of (encode (secret, c)));
            jwt_Parse secret now t :=
              match decode (of_bits t) with
              | Some (s, c) =>
                  if decide (s = secret) then
                    match cl_ExpiresAt c with
                    | Some e => if now <? e then Ok c else Err (EWrap "" ErrTokenExpired "")
                    | None => Ok c
                    end
                  else Err (ENew "token signature is invalid")
              | None => Err (ENew "token is malformed")
              end |}.
  - intros secret c. by eexists.
  - intros secret c t now e [= <-] He. rewrite of_bits_bits, decode_encode, decide_True by done.
    by rewrite He.
Defined.

#[local] Existing Instances any_uuid plain_env.

Definition demo_auth : authService :=
  {| jwtService := {| secret := "s"; issuer := "i"; audience := "a" |};
     accessTokenTTL := 15 * Minute; refreshTokenTTL := Hour |}.

Definition no_tokens : AuthTokens := {| AccessToken := ""; RefreshTokenStr := ""; ExpiresIn := 0 |}.
Definition tokens_of (r : outcome (res AuthTokens) * world) : AuthTokens :=
  match r.1 with Ret (Ok t) => t | _ => no_tokens end.

Definition demo_login : outcome (res AuthTokens) * world :=
  Login demo_auth "u@a.b" "h" (world_of demo_db).
Definition demo_session : world := demo_login.2.
Definition demo_tokens : AuthTokens := tokens_of demo_login.
Definition demo_refresh : outcome (res AuthTokens) * world :=
  Refresh demo_auth (RefreshTokenStr demo_tokens) demo_session.

Lemma login_single_session_witness :
  exists t b, Login demo_auth "u@a.b" "h" (world_of demo_db) = (Ret (Ok t), b)
    /\ exists row, row ∈ tokens (db b) /\ rs_UserID row = "u1" /\ rs_RevokedAt row = None.
Proof.
  exists demo_tokens, demo_session.
  assert (E0 : Login demo_auth "u@a.b" "h" (world_of demo_db) = (Ret (Ok demo_tokens), demo_session))
    by (vm_compute; reflexivity).
  split; [exact E0|].
  destruct (login_single_session demo_auth "u@a.b" "h" (world_of demo_db) eq_refl) as (r & b & E & _ & Hr).
  rewrite E0 in E. injection E as <- <-.
  destruct Hr as (u & Hu & _ & _ & _ & row & Hin & (Huid & _ & Hrev & _) & _).
  exists row. split; [exact Hin|]. split; [|exact Hrev].
  apply list_elem_of_singleton in Hu. rewrite Hu in Huid. exact Huid.
Defined.

Lemma refresh_single_use_witness :
  exists t b, Refresh demo_auth (RefreshTokenStr demo_tokens) demo_session = (Ret (Ok t), b)
    /\ forall t' c', Refresh demo_auth (RefreshTokenStr demo_tokens) b <> (Ret (Ok t'), c').
Proof.
  exists (tokens_of demo_refresh), demo_refresh.2.
  assert (E : Refresh demo_auth (RefreshTokenStr demo_tokens) demo_session
              = (Ret (Ok (tokens_of demo_refresh)), demo_refresh.2)) by (vm_compute; reflexivity).
  split; [exact E|].
  destruct (refresh_single_use demo_auth (RefreshTokenStr demo_tokens) demo_session
              (tokens_of demo_refresh) demo_refresh.2) as [_ Hagain].
  - vm_compute. reflexivity.
  - vm_compute. apply NoDup_singleton.
  - exact E.
  - apply Hagain. reflexivity.
Defined.

Lemma login_grants_role_witness :
  serve_call (jwtService demo_auth) 0 (Some {["authorization" := ["Bearer " +:+ AccessToken demo_tokens]]})
    "/crawler.v1.CrawlerService/CreateJob"
  = Ok {| user_id := Some "u1"; user_role := Some RoleReadWrite |}.
Proof.
  assert (E : Login demo_auth "u@a.b" "h" (world_of demo_db) = (Ret (Ok demo_tokens), demo_session))
    by (vm_compute; reflexivity).
  destruct (login_grants_role demo_auth "u@a.b" "h" (world_of demo_db) demo_tokens demo_session eq_refl E)
    as (u & n & Hu & _ & Hserve).
  apply list_elem_of_singleton in Hu. subst u.
  rewrite (Hserve 0 "/crawler.v1.CrawlerService/CreateJob"
             {["authorization" := ["Bearer " +:+ AccessToken demo_tokens]]}
             (lookup_singleton_eq _ _)).
  assert (Hn : 0 <? NewNumericDate (clock_at n + accessTokenTTL demo_auth) = true).
  { apply Z.ltb_lt. unfold NewNumericDate, Second, Millisecond. simpl clock_at. simpl accessTokenTTL.
    unfold Minute, Second, Millisecond.
    pose proof (Z.mod_le (1000 * Z.of_nat n + 15 * (60 * (1000 * 1000000))) (1000 * 1000000)).
    pose proof (Z.mod_pos_bound (1000 * Z.of_nat n + 15 * (60 * (1000 * 1000000))) (1000 * 1000000)). lia. }
  rewrite Hn. reflexivity.
Defined.

Lemma update_role_outcome_witness :
  exists b, API_UpdateUserRole "u1" ROLE_READ (world_of demo_db) = (Ret (Ok true), b)
    /\ administrators (users (db b)) `sublist_of` administrators (users demo_db).
Proof.
  exists (API_UpdateUserRole "u1" ROLE_READ (world_of demo_db)).2.
  destruct (update_role_outcome "u1" ROLE_READ (world_of demo_db) eq_refl) as (r & b & E & _ & Hs & _).
  rewrite E. split; [|exact Hs].
  assert (E1 : (API_UpdateUserRole "u1" ROLE_READ (world_of demo_db)).1 = Ret (Ok true))
    by (vm_compute; reflexivity).
  rewrite E in E1. simpl in E1. rewrite E1. reflexivity.
Defined.

(** Two uses of one refresh token at once.  The token is read before the transaction and its row is
    not locked: when both calls read it before either commits, both answer with tokens, and the user
    has two open sessions. *)
Theorem refresh_race :
  exists rt a1 a2 t1 a3 t2 a4,
    refresh_lookup (RefreshTokenStr demo_tokens) demo_session = (Ret (Ok rt), a1)
    /\ refresh_lookup (RefreshTokenStr demo_tokens) a1 = (Ret (Ok rt), a2)
    /\ ReadCommitted (refresh_body demo_auth rt) a2 = (Ret (Ok t1), a3)
    /\ ReadCommitted (refresh_body demo_auth rt) a3 = (Ret (Ok t2), a4)
    /\ length (filter (fun r => rs_UserID r = "u1" /\ rs_RevokedAt r = None) (tokens (db a4))) = 2%nat.
Proof.
  do 7 eexists. split; [vm_compute; reflexivity|]. split; [vm_compute; reflexivity|].
  split; [vm_compute; reflexivity|]. split; [vm_compute; reflexivity|]. vm_compute. reflexivity.
Qed.
