(* ===== verification/Proto.v ===== *)
(** * Jobs and tasks in protobuf

    [api/crawl_job/converter.go]: the messages of the gRPC API and their conversions to and from the
    domain models.  A pointer is an [option]; the elements of a repeated message field are pointers
    too.  An enumeration is open: any int32.  A [timestamppb.Timestamp] is the instant it stands
    for. *)

From S2P Require Import Prelude GoStrings Domain Json Converters World Sql Repos.
From S2P Require Import GoUrl GoNum FetchWorker Extraction ParserWorker ExportWorker.

(** ** Messages (pkg/v1/models.pb.go) *)

Record ProtoAuthOptions := {
  pb_Cookie : string; pb_BasicUser : string; pb_BasicPassword : string; pb_BearerToken : string }.
Record ProtoRateLimitPolicy := { pb_Rps : float64 }.
Record ProtoRetryPolicy := {
  pb_MaxAttempts : Z; pb_BackoffInitialMs : Z; pb_BackoffMultiplier : float64 }.
Record ProtoScheduleOptions := { pb_Cron : string }.
Record ProtoScopeRules := {
  pb_MaxDepth : Z; pb_AllowedDomains : list string; pb_DenyUrlPatterns : list string;
  pb_AllowedUrlPatterns : list string }.
Record ProtoSeed := { pb_SeedUrl : string }.
Record ProtoExtractorSpec := {
  pb_Selector : string; pb_Attribute : string; pb_Multiple : bool; pb_Index : option Z }.
Record ProtoTransformSpec := { pb_Op : string; pb_Arg : string }.
Record ProtoFieldSpec := {
  pb_FName : string; pb_FType : string; pb_Required : bool;
  pb_Extractor : option ProtoExtractorSpec; pb_Transforms : list (option ProtoTransformSpec) }.
Record ProtoItemsSpec := {
  pb_ContainerSelector : string; pb_IFields : list (option ProtoFieldSpec) }.
Record ProtoPaginationSpec := {
  pb_PName : string; pb_PSelector : string; pb_PAttribute : string; pb_PMultiple : bool }.
Record ProtoExtractionSpec := {
  pb_Fields : list (option ProtoFieldSpec); pb_Pagination : list (option ProtoPaginationSpec);
  pb_Items : option ProtoItemsSpec }.

Definition CRAWL_MODE_UNSPECIFIED : Z := 0.
Definition CRAWL_MODE_PAGINATION_AND_LINKS : Z := 1.
Definition CRAWL_MODE_PAGINATION_ONLY : Z := 2.
Definition CRAWL_MODE_LINKS_ONLY : Z := 3.
Definition JOB_TYPE_UNSPECIFIED : Z := 0.
Definition JOB_TYPE_ONCE : Z := 1.
Definition JOB_TYPE_SCHEDULED : Z := 2.

Record ProtoCrawlJobConfig := {
  pb_CfgId : string; pb_CfgUserId : option string; pb_CfgName : string;
  pb_ExtractionSpec : option ProtoExtractionSpec; pb_Scopes : option ProtoScopeRules;
  pb_Seeds : list (option ProtoSeed); pb_RateLimit : option ProtoRateLimitPolicy;
  pb_Retries : option ProtoRetryPolicy; pb_Auth : option ProtoAuthOptions;
  pb_Schedule : option ProtoScheduleOptions; pb_JobType : Z; pb_RespectRobotsTxt : bool;
  pb_CrawlMode : Z }.

Record ProtoCrawlJob := {
  pb_JId : string; pb_JobConfigId : string; pb_JobConfig : option ProtoCrawlJobConfig;
  pb_JUserId : option string; pb_JName : option string; pb_JStatus : string;
  pb_CreatedAt : Z; pb_CompletedAt : option Z; pb_ExportJsonKey : option string;
  pb_ExportCsvKey : option string; pb_ExportedAt : option Z; pb_ExportStatus : string }.

Record ProtoCrawlTask := {
  pb_TId : string; pb_TJobId : string; pb_Job : option ProtoCrawlJob; pb_Url : string;
  pb_TStatus : string; pb_EnqueuedAt : Z; pb_Depth : Z; pb_MinioObjectKey : string;
  pb_FinalUrl : option string; pb_ResultObjectKey : option string;
  pb_ErrorMessage : option string }.

(** ** To protobuf *)

Definition ToProtoAuthOptions (auth : AuthOptions) : ProtoAuthOptions :=
  {| pb_Cookie := Cookie auth; pb_BasicUser := BasicUser auth;
     pb_BasicPassword := BasicPassword auth; pb_BearerToken := BearerToken auth |}.

Definition ToProtoRateLimitPolicy (rateLimit : RateLimitPolicy) : ProtoRateLimitPolicy :=
  {| pb_Rps := Rps rateLimit |}.

Definition ToProtoRetryPolicy (retry : RetryPolicy) : ProtoRetryPolicy :=
  {| pb_MaxAttempts := MaxAttempts retry; pb_BackoffInitialMs := BackoffInitialMs retry;
     pb_BackoffMultiplier := BackoffMultiplier retry |}.

Definition ToProtoScheduleOptions (schedule : ScheduleOptions) : ProtoScheduleOptions :=
  {| pb_Cron := Cron schedule |}.

Definition ToProtoScopeRules (scope : ScopeRules) : ProtoScopeRules :=
  {| pb_MaxDepth := MaxDepth scope; pb_AllowedDomains := AllowedDomains scope;
     pb_DenyUrlPatterns := DenyUrlPatterns scope;
     pb_AllowedUrlPatterns := AllowedURLPatterns scope |}.

Definition ToProtoSeed (seed : Seed) : ProtoSeed := {| pb_SeedUrl := SeedUrl seed |}.

(** [int32( *spec.Index)] wraps around. *)
Definition ToProtoExtractorSpec (spec : ExtractorSpec) : ProtoExtractorSpec :=
  {| pb_Selector := Selector spec; pb_Attribute := Attribute spec; pb_Multiple := Multiple spec;
     pb_Index := wraps 32 <$> Index spec |}.

Definition ToProtoPaginationSpec (spec : PaginationSpec) : ProtoPaginationSpec :=
  {| pb_PName := PName spec; pb_PSelector := PSelector spec; pb_PAttribute := PAttribute spec;
     pb_PMultiple := PMultiple spec |}.

Definition ToProtoCrawlMode (mode : CrawlMode) : Z :=
  if decide (mode = CrawlModePaginationAndLinks) then CRAWL_MODE_PAGINATION_AND_LINKS
  else if decide (mode = CrawlModePaginationOnly) then CRAWL_MODE_PAGINATION_ONLY
  else if decide (mode = CrawlModeLinksOnly) then CRAWL_MODE_LINKS_ONLY
  else CRAWL_MODE_UNSPECIFIED.

Definition ToProtoJobType (jobType : JobType) : Z :=
  if decide (jobType = JobTypeScheduled) then JOB_TYPE_SCHEDULED else JOB_TYPE_ONCE.

Definition userIDPtr (value : string) : option string :=
  if decide (value = "") then None else Some value.

Section ToProto.
Context `{JsonLib}.

(** The error of [json.Marshal] is dropped: an argument it refuses becomes the empty text. *)
Definition ToProtoTransformSpec (spec : TransformSpec) : ProtoTransformSpec :=
  {| pb_Op := Op spec;
     pb_Arg := match Arg spec with
               | ANil => ""
               | arg => if encodable arg then marshal (json_of_any arg) else ""
               end |}.

Definition ToProtoFieldSpec (field : FieldSpec) : ProtoFieldSpec :=
  {| pb_FName := FName field; pb_FType := FType field; pb_Required := Required field;
     pb_Extractor := Some (ToProtoExtractorSpec (Extractor field));
     pb_Transforms := (fun t => Some (ToProtoTransformSpec t)) <$> Transforms field |}.

Definition ToProtoItemsSpec (spec : option ItemsSpec) : option ProtoItemsSpec :=
  match spec with
  | None => None
  | Some spec =>
      Some {| pb_ContainerSelector := ContainerSelector spec;
              pb_IFields := (fun f => Some (ToProtoFieldSpec f)) <$> IFields spec |}
  end.

Definition ToProtoExtractionSpec (spec : ExtractionSpec) : ProtoExtractionSpec :=
  {| pb_Fields := (fun f => Some (ToProtoFieldSpec f)) <$> Fields spec;
     pb_Pagination := (fun p => Some (ToProtoPaginationSpec p)) <$> Pagination spec;
     pb_Items := ToProtoItemsSpec (Items spec) |}.

Definition ToProtoCrawlJobConfig (config : option CrawlJobConfig) : option ProtoCrawlJobConfig :=
  match config with
  | None => None
  | Some config =>
      Some {| pb_CfgId := value (CfgID config);
              pb_CfgUserId := userIDPtr (value (CfgUserID config)); pb_CfgName := CfgName config;
              pb_ExtractionSpec := Some (ToProtoExtractionSpec (CfgExtractionSpec config));
              pb_Scopes := Some (ToProtoScopeRules (Scopes config));
              pb_Seeds := (fun s => Some (ToProtoSeed s)) <$> Seeds config;
              pb_RateLimit := Some (ToProtoRateLimitPolicy (RateLimit config));
              pb_Retries := Some (ToProtoRetryPolicy (Retries config));
              pb_Auth := Some (ToProtoAuthOptions (Auth config));
              pb_Schedule := Some (ToProtoScheduleOptions (Schedule config));
              pb_JobType := ToProtoJobType (CfgJobType config);
              pb_RespectRobotsTxt := RespectRobotsTxt config;
              pb_CrawlMode := ToProtoCrawlMode (CfgCrawlMode config) |}
  end.

Definition ToProtoCrawlJob (job : option CrawlJob) : option ProtoCrawlJob :=
  match job with
  | None => None
  | Some job =>
      Some {| pb_JId := value (JID job); pb_JobConfigId := value (JobConfigID job);
              pb_JobConfig := ToProtoCrawlJobConfig (JobConfig job);
              pb_JUserId := userIDPtr (value (JUserID job)); pb_JName := JName job;
              pb_JStatus := JStatus job; pb_CreatedAt := CreatedAt job;
              pb_CompletedAt := CompletedAt job; pb_ExportJsonKey := ExportJSONKey job;
              pb_ExportCsvKey := ExportCSVKey job; pb_ExportedAt := ExportedAt job;
              pb_ExportStatus := JExportStatus job |}
  end.

Definition ToProtoCrawlTask (task : option CrawlTask) : option ProtoCrawlTask :=
  match task with
  | None => None
  | Some task =>
      Some {| pb_TId := value (TID task); pb_TJobId := value (JobID task);
              pb_Job := ToProtoCrawlJob (Job task); pb_Url := URL task; pb_TStatus := Status task;
              pb_EnqueuedAt := EnqueuedAt task; pb_Depth := Depth task;
              pb_MinioObjectKey := MinioObjectKey task; pb_FinalUrl := FinalURL task;
              pb_ResultObjectKey := ResultObjectKey task; pb_ErrorMessage := ErrorMessage task |}
  end.

End ToProto.

(** ** From protobuf *)

Definition FromProtoAuthOptions (proto : option ProtoAuthOptions) : AuthOptions :=
  match proto with
  | None => {| Cookie := ""; BasicUser := ""; BasicPassword := ""; BearerToken := "" |}
  | Some p => {| Cookie := pb_Cookie p; BasicUser := pb_BasicUser p;
                 BasicPassword := pb_BasicPassword p; BearerToken := pb_BearerToken p |}
  end.

Definition FromProtoRateLimitPolicy (proto : option ProtoRateLimitPolicy) : RateLimitPolicy :=
  match proto with None => {| Rps := 0%Q |} | Some p => {| Rps := pb_Rps p |} end.

Definition FromProtoRetryPolicy (proto : option ProtoRetryPolicy) : RetryPolicy :=
  match proto with
  | None => {| MaxAttempts := 0; BackoffInitialMs := 0; BackoffMultiplier := 0%Q |}
  | Some p => {| MaxAttempts := pb_MaxAttempts p; BackoffInitialMs := pb_BackoffInitialMs p;
                 BackoffMultiplier := pb_BackoffMultiplier p |}
  end.

Definition FromProtoScheduleOptions (proto : option ProtoScheduleOptions) : ScheduleOptions :=
  match proto with
  | None => {| Cron := ""; LastRunAt := None; NextRunAt := None |}
  | Some p => {| Cron := pb_Cron p; LastRunAt := None; NextRunAt := None |}
  end.

Definition FromProtoScopeRules (proto : option ProtoScopeRules) : ScopeRules :=
  match proto with
  | None => {| MaxDepth := 0; AllowedDomains := []; DenyUrlPatterns := [];
               AllowedURLPatterns := [] |}
  | Some p => {| MaxDepth := pb_MaxDepth p; AllowedDomains := pb_AllowedDomains p;
                 DenyUrlPatterns := pb_DenyUrlPatterns p;
                 AllowedURLPatterns := pb_AllowedUrlPatterns p |}
  end.

Definition FromProtoSeed (proto : option ProtoSeed) : Seed :=
  match proto with None => {| SeedUrl := "" |} | Some p => {| SeedUrl := pb_SeedUrl p |} end.

Definition FromProtoExtractorSpec (proto : option ProtoExtractorSpec) : ExtractorSpec :=
  match proto with
  | None => {| Selector := ""; Attribute := ""; Multiple := false; Index := None |}
  | Some p => {| Selector := pb_Selector p; Attribute := pb_Attribute p;
                 Multiple := pb_Multiple p; Index := pb_Index p |}
  end.

Definition FromProtoPaginationSpec (proto : option ProtoPaginationSpec) : PaginationSpec :=
  match proto with
  | None => {| PName := ""; PSelector := ""; PAttribute := ""; PMultiple := false |}
  | Some p => {| PName := pb_PName p; PSelector := pb_PSelector p; PAttribute := pb_PAttribute p;
                 PMultiple := pb_PMultiple p |}
  end.

Definition FromProtoCrawlMode (mode : Z) : CrawlMode :=
  if mode =? CRAWL_MODE_PAGINATION_AND_LINKS then CrawlModePaginationAndLinks
  else if mode =? CRAWL_MODE_PAGINATION_ONLY then CrawlModePaginationOnly
  else if mode =? CRAWL_MODE_LINKS_ONLY then CrawlModeLinksOnly
  else "".

Definition FromProtoJobType (jobType : Z) : JobType :=
  if jobType =? JOB_TYPE_SCHEDULED then JobTypeScheduled else JobTypeOnce.

Section FromProto.
Context `{JsonLib}.

(** The error of [json.Unmarshal] is dropped: a text that is not JSON leaves the argument nil. *)
Definition FromProtoTransformSpec (proto : option ProtoTransformSpec) : TransformSpec :=
  match proto with
  | None => {| Op := ""; Arg := ANil |}
  | Some p =>
      {| Op := pb_Op p;
         Arg := if decide (pb_Arg p = "") then ANil
                else match unmarshal (pb_Arg p) with Some j => decode_any j | None => ANil end |}
  end.

Definition FromProtoFieldSpec (proto : option ProtoFieldSpec) : FieldSpec :=
  match proto with
  | None => {| FName := ""; FType := ""; Required := false;
               Extractor := FromProtoExtractorSpec None; Transforms := [] |}
  | Some p => {| FName := pb_FName p; FType := pb_FType p; Required := pb_Required p;
                 Extractor := FromProtoExtractorSpec (pb_Extractor p);
                 Transforms := FromProtoTransformSpec <$> pb_Transforms p |}
  end.

Definition FromProtoItemsSpec (proto : option ProtoItemsSpec) : option ItemsSpec :=
  match proto with
  | None => None
  | Some p => Some {| ContainerSelector := pb_ContainerSelector p;
                      IFields := FromProtoFieldSpec <$> pb_IFields p |}
  end.

Definition FromProtoExtractionSpec (proto : option ProtoExtractionSpec) : ExtractionSpec :=
  match proto with
  | None => {| Fields := []; Pagination := []; Items := None |}
  | Some p => {| Fields := FromProtoFieldSpec <$> pb_Fields p;
                 Pagination := FromProtoPaginationSpec <$> pb_Pagination p;
                 Items := FromProtoItemsSpec (pb_Items p) |}
  end.

(** The identifiers and the queue weights are not set. *)
Definition FromProtoCrawlJobConfig (proto : option ProtoCrawlJobConfig) : CrawlJobConfig :=
  match proto with
  | None =>
      {| CfgID := MkID ""; CfgUserID := MkID ""; CfgName := "";
         CfgExtractionSpec := FromProtoExtractionSpec None; Scopes := FromProtoScopeRules None;
         Seeds := []; RateLimit := FromProtoRateLimitPolicy None;
         Retries := FromProtoRetryPolicy None; Auth := FromProtoAuthOptions None;
         Schedule := FromProtoScheduleOptions None; CfgJobType := ""; RespectRobotsTxt := false;
         CfgCrawlMode := ""; QueueWeights := [] |}
  | Some p =>
      {| CfgID := MkID ""; CfgUserID := MkID ""; CfgName := pb_CfgName p;
         CfgExtractionSpec := FromProtoExtractionSpec (pb_ExtractionSpec p);
         Scopes := FromProtoScopeRules (pb_Scopes p); Seeds := FromProtoSeed <$> pb_Seeds p;
         RateLimit := FromProtoRateLimitPolicy (pb_RateLimit p);
         Retries := FromProtoRetryPolicy (pb_Retries p); Auth := FromProtoAuthOptions (pb_Auth p);
         Schedule := FromProtoScheduleOptions (pb_Schedule p);
         CfgJobType := FromProtoJobType (pb_JobType p); RespectRobotsTxt := pb_RespectRobotsTxt p;
         CfgCrawlMode := FromProtoCrawlMode (pb_CrawlMode p); QueueWeights := [] |}
  end.

End FromProto.

(** ** What the API carries *)

(** The maps of a value list their keys in the order of [map_any], each once. *)
Fixpoint any_sorted (a : any) : Prop :=
  match a with
  | AAnys l => foldr (fun a P => any_sorted a /\ P) True l
  | AMap m => map_any (go_map m) = m /\ foldr (fun p P => any_sorted p.2 /\ P) True m
  | _ => True
  end.

Lemma decode_json_of_any : forall a,
  any_ok a = true -> any_sorted a -> decode_any (json_of_any a) = a.
Proof.
  fix IH 1. intros [|s|i|i|f|?|b| |l|l|m]; simpl; try done; intros Ha Hs.
  - destruct (float_ok_token f Ha) as [->|(-> & E & Hn)]; simpl; [done|].
    by rewrite round53s_small, <- E.
  - f_equal. induction l as [|a l IHl]; [done|].
    simpl in Ha, Hs. apply andb_true_iff in Ha as [Ha Hl]. destruct Hs as [Hs Hsl].
    rewrite !fmap_cons, (IH a Ha Hs). f_equal. by apply IHl.
  - destruct Hs as [Hm Hs]. f_equal. rewrite <- Hm at 2. do 2 f_equal.
    clear Hm. induction m as [|[k a] m IHm]; [done|].
    simpl in Ha, Hs. apply andb_true_iff in Ha as [Ha Hl]. destruct Hs as [Hs Hsl].
    rewrite !fmap_cons. cbn [fst snd]. rewrite (IH a Ha Hs). f_equal. by apply IHm.
Qed.

(** What is left of a configuration. *)
Definition carried (c : CrawlJobConfig) : CrawlJobConfig :=
  {| CfgID := MkID ""; CfgUserID := MkID ""; CfgName := CfgName c;
     CfgExtractionSpec := CfgExtractionSpec c; Scopes := Scopes c; Seeds := Seeds c;
     RateLimit := RateLimit c; Retries := Retries c; Auth := Auth c;
     Schedule := {| Cron := Cron (Schedule c); LastRunAt := None; NextRunAt := None |};
     CfgJobType := if decide (CfgJobType c = JobTypeScheduled) then JobTypeScheduled
                   else JobTypeOnce;
     RespectRobotsTxt := RespectRobotsTxt c;
     CfgCrawlMode := if decide (CfgCrawlMode c ∈ [CrawlModePaginationAndLinks;
                                  CrawlModePaginationOnly; CrawlModeLinksOnly])
                     then CfgCrawlMode c else "";
     QueueWeights := [] |}.

Section Carried.
Context `{JsonLib}.

Definition arg_carried (t : TransformSpec) : Prop :=
  any_ok (Arg t) = true /\ json_wf (json_of_any (Arg t)) = true /\ any_sorted (Arg t).
Definition field_carried (f : FieldSpec) : Prop :=
  match Index (Extractor f) with Some i => - 2 ^ 31 <= i < 2 ^ 31 | None => True end
  /\ Forall arg_carried (Transforms f).
Definition spec_carried (s : ExtractionSpec) : Prop :=
  Forall field_carried (Fields s)
  /\ match Items s with Some i => Forall field_carried (IFields i) | None => True end.

Lemma fmap_back {A B C} (P : A -> Prop) (f : A -> B) (g : B -> C) (h : A -> C) l :
  (forall x, P x -> g (f x) = h x) -> Forall P l -> g <$> (f <$> l) = h <$> l.
Proof. intros Hx Hl. induction Hl as [|x l Hp _ IH]; [done|]. rewrite !fmap_cons, IH, Hx; done. Qed.

Lemma fmap_back_id {A B} (P : A -> Prop) (f : A -> B) (g : B -> A) l :
  (forall x, P x -> g (f x) = x) -> Forall P l -> g <$> (f <$> l) = l.
Proof. intros Hx Hl. rewrite (fmap_back P f g id l Hx Hl). apply list_fmap_id. Qed.

Lemma marshal_not_empty j : json_wf j = true -> marshal j <> "".
Proof. intros Hj E. pose proof (unmarshal_marshal j Hj) as U. by rewrite E, unmarshal_empty in U. Qed.

Lemma transform_back t : arg_carried t -> FromProtoTransformSpec (Some (ToProtoTransformSpec t)) = t.
Proof.
  intros (Ho & Hw & Hs). pose proof (any_ok_encodable _ Ho) as He.
  unfold FromProtoTransformSpec, ToProtoTransformSpec. cbn [pb_Op pb_Arg].
  assert (Hm := marshal_not_empty _ Hw). assert (Hu := unmarshal_marshal _ Hw).
  pose proof (decode_json_of_any _ Ho Hs) as Hd. destruct t as [op arg].
  cbn [Op Arg] in *. f_equal. destruct arg; [done|..]; rewrite He, decide_False, Hu by done; exact Hd.
Qed.

Lemma field_back f : field_carried f -> FromProtoFieldSpec (Some (ToProtoFieldSpec f)) = f.
Proof.
  intros [Hi Ht]. unfold FromProtoFieldSpec, ToProtoFieldSpec. simpl.
  rewrite (fmap_back_id _ (fun t => Some (ToProtoTransformSpec t)) _ _ transform_back Ht).
  destruct f as [n ty r [s a m i] ts]. simpl in *. do 2 f_equal.
  destruct i as [i|]; [|done]. simpl. by rewrite wraps_small by lia.
Qed.

Lemma spec_back s : spec_carried s -> FromProtoExtractionSpec (Some (ToProtoExtractionSpec s)) = s.
Proof.
  intros [Hf Hi]. unfold FromProtoExtractionSpec, ToProtoExtractionSpec. simpl.
  rewrite (fmap_back_id _ (fun f => Some (ToProtoFieldSpec f)) _ _ field_back Hf).
  rewrite (fmap_back_id (fun _ => True) (fun p => Some (ToProtoPaginationSpec p)) FromProtoPaginationSpec)
    by (first [by intros []|by apply Forall_true]).
  destruct s as [fs ps [i|]]; [|done]. simpl in *.
  rewrite (fmap_back_id _ (fun f => Some (ToProtoFieldSpec f)) _ _ field_back Hi). by destruct i.
Qed.

Lemma mode_back m :
  FromProtoCrawlMode (ToProtoCrawlMode m)
  = if decide (m ∈ [CrawlModePaginationAndLinks; CrawlModePaginationOnly; CrawlModeLinksOnly])
    then m else "".
Proof.
  unfold ToProtoCrawlMode. repeat case_decide; subst; try done; set_solver.
Qed.

Lemma job_type_back t :
  FromProtoJobType (ToProtoJobType t)
  = if decide (t = JobTypeScheduled) then JobTypeScheduled else JobTypeOnce.
Proof. unfold ToProtoJobType. by case_decide. Qed.

#[local] Arguments FromProtoExtractionSpec : simpl never.
#[local] Arguments ToProtoExtractionSpec : simpl never.
#[local] Arguments FromProtoCrawlMode : simpl never.
#[local] Arguments FromProtoJobType : simpl never.

(** C23: what a client reads of a job's configuration it can send back.  For a configuration whose
    extractor indices are in the int32 range and whose transform arguments are values JSON decodes
    to, decoding the message made of it gives the configuration again except for its identifiers,
    its run times and its queue weights, which the API does not carry; a job type other than the
    two becomes ONCE and an unknown crawl mode the empty one. *)
Theorem config_api_roundtrip c :
  spec_carried (CfgExtractionSpec c) ->
  FromProtoCrawlJobConfig (ToProtoCrawlJobConfig (Some c)) = carried c.
Proof.
  intros Hs. unfold FromProtoCrawlJobConfig, ToProtoCrawlJobConfig, carried. simpl.
  rewrite (spec_back _ Hs), mode_back, job_type_back.
  rewrite (fmap_back_id (fun _ => True) (fun s => Some (ToProtoSeed s)) FromProtoSeed)
    by (first [by intros []|by apply Forall_true]).
  by destruct c as [??? s [] ? [] [] [] ?????].
Qed.

End Carried.

#[local] Existing Instances any_uuid plain_json.

(** A configuration with an index from the end, a map argument and an unknown crawl mode. *)
Definition demo_api_config : CrawlJobConfig :=
  {| CfgID := MkID "c1"; CfgUserID := MkID "u1"; CfgName := "shop";
     CfgExtractionSpec :=
       {| Fields := [{| FName := "price"; FType := "float"; Required := true;
                        Extractor := {| Selector := ".p"; Attribute := ""; Multiple := true;
                                        Index := Some (-1) |};
                        Transforms := [{| Op := "trim"; Arg := ANil |};
                                       {| Op := "limit"; Arg := AFloat 3 |};
                                       {| Op := "map"; Arg := AMap [("a", AStr "x");
                                                                    ("b", ABool true)] |}] |}];
          Pagination := []; Items := None |};
     Scopes := {| MaxDepth := 2; AllowedDomains := ["a.b"]; DenyUrlPatterns := [];
                  AllowedURLPatterns := [] |};
     Seeds := [{| SeedUrl := "http://a.b/" |}]; RateLimit := {| Rps := 1 |};
     Retries := {| MaxAttempts := 3; BackoffInitialMs := 100; BackoffMultiplier := 2 |};
     Auth := {| Cookie := ""; BasicUser := ""; BasicPassword := ""; BearerToken := "" |};
     Schedule := {| Cron := "* * * * *"; LastRunAt := Some 5; NextRunAt := None |};
     CfgJobType := JobTypeScheduled; RespectRobotsTxt := true; CfgCrawlMode := "breadth_first";
     QueueWeights := [{| Queue := "eu"; Weight := 3 |}] |}.

Lemma config_api_roundtrip_witness :
  spec_carried (CfgExtractionSpec demo_api_config)
  /\ FromProtoCrawlJobConfig (ToProtoCrawlJobConfig (Some demo_api_config)) = carried demo_api_config.
Proof.
  assert (Hs : spec_carried (CfgExtractionSpec demo_api_config)).
  { repeat split; repeat constructor; try done; simpl; lia. }
  split; [exact Hs|]. exact (config_api_roundtrip demo_api_config Hs).
Defined.
