(* ===== verification/Validation.v ===== *)
(** * Validation of requests

    [interceptor/validate.go] with the rules that protoc-gen-validate wrote into
    [pkg/v1/models.pb.validate.go]: what a request must satisfy before its handler sees it.  Only
    the requests are modelled, nobody validates responses. *)

From S2P Require Import Prelude GoStrings Domain Json Converters World Sql Repos.
From S2P Require Import GoUrl GoNum FetchWorker Extraction ParserWorker ExportWorker Sha256 GoFloat.
From S2P Require Import Auth Proto.
#[local] Open Scope nat_scope.

(** ** [utf8.RuneCountInString]: a byte that starts no rune counts as one *)

Definition rune_width (l : list ascii) : nat :=
  if utf8_valid (take 1 l) then 1
  else if (2 <=? length l) && utf8_valid (take 2 l) then 2
  else if (3 <=? length l) && utf8_valid (take 3 l) then 3
  else if (4 <=? length l) && utf8_valid (take 4 l) then 4
  else 1.

Fixpoint rune_count (fuel : nat) (l : list ascii) : nat :=
  match l, fuel with
  | [], _ | _, O => 0
  | _, S fuel => S (rune_count fuel (drop (rune_width l) l))
  end.

Definition RuneCountInString (s : string) : nat :=
  rune_count (String.length s) (bytes_of s).

(** ** Errors *)

(** A violation names the message, the field, the reason and what the embedded message or the
    address failed with; [ValidateAll] gives the list of all. *)
Inductive validation_error :=
| Violation (message field reason : string) (cause : option validation_error)
| MultiError (errs : list validation_error)
| Caused (e : gerror).

Fixpoint error_text (e : validation_error) : string :=
  match e with
  | Violation message field reason cause =>
      "invalid " +:+ message +:+ "." +:+ field +:+ ": " +:+ reason
      +:+ match cause with Some c => " | caused by: " +:+ error_text c | None => "" end
  | MultiError errs => String.concat "; " (map error_text errs)
  | Caused e => Error e
  end.

(** A check under [Validate] ([false]) or [ValidateAll] ([true]); a validator is a list of them. *)
Notation check := (bool -> option validation_error) (only parsing).
Definition validator (A : Type) : Type := bool -> A -> option validation_error.

Fixpoint run_checks (all : bool) (errors : list validation_error) (cs : list check)
  : option validation_error :=
  match cs with
  | [] => match errors with [] => None | _ => Some (MultiError errors) end
  | c :: cs =>
      match c all with
      | None => run_checks all errors cs
      | Some e => if all then run_checks all (errors ++ [e]) cs else Some e
      end
  end.

(** [len >= n] in runes, membership, a message that must be there. *)
Definition min_len (message field : string) (n : nat) (v : string) : check := fun _ =>
  if RuneCountInString v <? n
  then Some (Violation message field ("value length must be at least " +:+ pretty n +:+ " runes") None)
  else None.

Definition one_of (message field : string) (vs : list string) (v : string) : check := fun _ =>
  if bool_decide (v ∈ vs) then None
  else Some (Violation message field ("value must be in list [" +:+ String.concat " " vs +:+ "]") None).

Definition required_rule {A} (message field : string) (v : option A) : check := fun _ =>
  match v with Some _ => None | None => Some (Violation message field "value is required" None) end.

(** A message within a message; the method of a nil pointer answers nil. *)
Definition embedded {A} (validate : validator A) (message field : string) (v : option A) : check :=
  fun all =>
    match v with
    | None => None
    | Some m =>
        match validate all m with
        | None => None
        | Some e => Some (Violation message field "embedded message failed validation" (Some e))
        end
    end.

Definition repeated {A} (validate : validator A) (message field : string) (vs : list (option A))
  : list check :=
  imap (fun idx item =>
          embedded validate message (field +:+ "[" +:+ pretty idx +:+ "]") item) vs.

(** ** The configuration of a job *)

Definition AuthOptions_validate : validator ProtoAuthOptions := fun all m => run_checks all [] [].
Definition RateLimitPolicy_validate : validator ProtoRateLimitPolicy := fun all m =>
  run_checks all [] [].
Definition RetryPolicy_validate : validator ProtoRetryPolicy := fun all m => run_checks all [] [].
Definition ScheduleOptions_validate : validator ProtoScheduleOptions := fun all m =>
  run_checks all [] [].
Definition ScopeRules_validate : validator ProtoScopeRules := fun all m => run_checks all [] [].
Definition Seed_validate : validator ProtoSeed := fun all m => run_checks all [] [].
Definition ExtractorSpec_validate : validator ProtoExtractorSpec := fun all m => run_checks all [] [].
Definition TransformSpec_validate : validator ProtoTransformSpec := fun all m => run_checks all [] [].

Definition FieldSpec_validate : validator ProtoFieldSpec := fun all m =>
  run_checks all []
    (embedded ExtractorSpec_validate "FieldSpec" "Extractor" (pb_Extractor m)
     :: repeated TransformSpec_validate "FieldSpec" "Transforms" (pb_Transforms m)).

Definition PaginationSpec_validate : validator ProtoPaginationSpec := fun all m =>
  run_checks all [] [].

Definition ItemsSpec_validate : validator ProtoItemsSpec := fun all m =>
  run_checks all [] (repeated FieldSpec_validate "ItemsSpec" "Fields" (pb_IFields m)).

Definition ExtractionSpec_validate : validator ProtoExtractionSpec := fun all m =>
  run_checks all []
    (repeated FieldSpec_validate "ExtractionSpec" "Fields" (pb_Fields m)
     ++ repeated PaginationSpec_validate "ExtractionSpec" "Pagination" (pb_Pagination m)
     ++ [embedded ItemsSpec_validate "ExtractionSpec" "Items" (pb_Items m)]).

Definition CrawlJobConfig_validate : validator ProtoCrawlJobConfig := fun all m =>
  run_checks all []
    ([embedded ExtractionSpec_validate "CrawlJobConfig" "ExtractionSpec" (pb_ExtractionSpec m);
      embedded ScopeRules_validate "CrawlJobConfig" "Scopes" (pb_Scopes m)]
     ++ repeated Seed_validate "CrawlJobConfig" "Seeds" (pb_Seeds m)
     ++ [embedded RateLimitPolicy_validate "CrawlJobConfig" "RateLimit" (pb_RateLimit m);
         embedded RetryPolicy_validate "CrawlJobConfig" "Retries" (pb_Retries m);
         embedded AuthOptions_validate "CrawlJobConfig" "Auth" (pb_Auth m);
         embedded ScheduleOptions_validate "CrawlJobConfig" "Schedule" (pb_Schedule m)]).

(** ** Addresses *)

(** The [Address] of the parsed address; RFC 5322 gives it a domain. *)
Class MailAddress `{MailLib} := {
  mail_Address : string -> string;
  mail_Address_at s : mail_ParseAddress s = true -> "@"%char ∈ bytes_of (mail_Address s) }.

Definition TrimSuffix1 (s : string) (c : ascii) : string :=
  match rev (bytes_of s) with
  | d :: l => if Ascii.eqb d c then of_bytes (rev l) else s
  | [] => s
  end.

(** A letter of the lowered text, a digit or a hyphen. *)
Definition host_char (c : ascii) : bool :=
  between 97 122 c || between 48 57 c || Ascii.eqb c "-"%char.

(** The character a part must not have is left out of the error. *)
Definition check_part (part : string) : res unit :=
  let l := bytes_of part in
  if bool_decide (l = []) || (63 <? length l) then
    Err (ENew "hostname part must be non-empty and cannot exceed 63 characters")
  else if bool_decide (head l = Some "-"%char) then
    Err (ENew "hostname parts cannot begin with hyphens")
  else if bool_decide (last l = Some "-"%char) then
    Err (ENew "hostname parts cannot end with hyphens")
  else if forallb host_char l then Ok tt
  else Err (ENew "hostname parts can only contain alphanumeric characters or hyphens").

Definition validateHostname (host : string) : res unit :=
  let s := ToLower (TrimSuffix1 host "."%char) in
  if 253 <? String.length host then Err (ENew "hostname cannot exceed 253 characters")
  else _ ← map_res check_part (Split s "."%char); Ok tt.

Section Requests.
Context `{MailAddress}.

Definition validateEmail (addr : string) : res unit :=
  if negb (mail_ParseAddress addr) then Err (ENew "mail: invalid address")
  else
    let addr := mail_Address addr in
    if 254 <? String.length addr then Err (ENew "email addresses cannot exceed 254 characters")
    else
      match SplitN2 addr "@"%char with
      | [name; host] =>
          if 64 <? String.length name
          then Err (ENew "email address local phrase cannot exceed 64 characters")
          else validateHostname host
      | _ => Err (ENew "index out of range [1] with length 1")
      end.

Definition email_rule (message : string) (v : string) : check := fun _ =>
  match validateEmail v with
  | Ok _ => None
  | Err e => Some (Violation message "Email" "value must be a valid email address" (Some (Caused e)))
  end.

(** ** The requests

    The fields without rules are left out; a filter that embeds only timestamps has no rules. *)

Definition CreateJobRequest_validate : validator (option ProtoCrawlJobConfig) := fun all config =>
  run_checks all []
    [required_rule "CreateJobRequest" "Config" config;
     embedded CrawlJobConfig_validate "CreateJobRequest" "Config" config].
Definition DeleteJobRequest_validate : validator string := fun all id =>
  run_checks all [] [min_len "DeleteJobRequest" "Id" 1 id].
Definition CreateTaskRequest_validate : validator (string * string) := fun all m =>
  run_checks all [] [min_len "CreateTaskRequest" "JobId" 1 m.1; min_len "CreateTaskRequest" "Url" 1 m.2].
Definition GetTaskAnalyticsRequest_validate : validator string := fun all job_id =>
  run_checks all [] [min_len "GetTaskAnalyticsRequest" "JobId" 1 job_id].
Definition GetJobExportFileURLRequest_validate : validator (string * string) := fun all m =>
  run_checks all []
    [min_len "GetJobExportFileURLRequest" "JobId" 1 m.1;
     one_of "GetJobExportFileURLRequest" "FileType" ["json"; "csv"] m.2].
Definition GetTaskFileURLRequest_validate : validator (string * string) := fun all m =>
  run_checks all []
    [min_len "GetTaskFileURLRequest" "TaskId" 1 m.1;
     one_of "GetTaskFileURLRequest" "FileType" ["pages"; "result"] m.2].
Definition CreatePreviewRequest_validate : validator string := fun all url =>
  run_checks all [] [min_len "CreatePreviewRequest" "Url" 1 url].
Definition RegisterRequest_validate : validator (string * string) := fun all m =>
  run_checks all []
    [email_rule "RegisterRequest" m.1; min_len "RegisterRequest" "Password" 8 m.2].
Definition LoginRequest_validate : validator (string * string) := fun all m =>
  run_checks all []
    [email_rule "LoginRequest" m.1; min_len "LoginRequest" "Password" 1 m.2].
Definition RefreshRequest_validate : validator string := fun all token =>
  run_checks all [] [min_len "RefreshRequest" "RefreshToken" 1 token].
Definition LogoutRequest_validate : validator string := fun all token =>
  run_checks all [] [min_len "LogoutRequest" "RefreshToken" 1 token].

End Requests.

(** The requests with rules; those of the other methods have none. *)
Inductive api_request :=
| CreateJob (config : option ProtoCrawlJobConfig)
| DeleteJob (id : string)
| CreateTask (job_id url : string)
| GetTaskAnalytics (job_id : string)
| GetJobExportFileURL (job_id file_type : string)
| GetTaskFileURL (task_id file_type : string)
| CreatePreview (url : string)
| RegisterUser (email password : string)
| LoginUser (email password : string)
| RefreshTokens (refresh_token : string)
| LogoutUser (refresh_token : string)
| OtherRequest.

Section Interceptor.
Context `{MailAddress}.

Definition validate (all : bool) (r : api_request) : option validation_error :=
  match r with
  | CreateJob config => CreateJobRequest_validate all config
  | DeleteJob id => DeleteJobRequest_validate all id
  | CreateTask job_id url => CreateTaskRequest_validate all (job_id, url)
  | GetTaskAnalytics job_id => GetTaskAnalyticsRequest_validate all job_id
  | GetJobExportFileURL job_id t => GetJobExportFileURLRequest_validate all (job_id, t)
  | GetTaskFileURL task_id t => GetTaskFileURLRequest_validate all (task_id, t)
  | CreatePreview url => CreatePreviewRequest_validate all url
  | RegisterUser email password => RegisterRequest_validate all (email, password)
  | LoginUser email password => LoginRequest_validate all (email, password)
  | RefreshTokens token => RefreshRequest_validate all token
  | LogoutUser token => LogoutRequest_validate all token
  | OtherRequest => None
  end.

(** The error has no gRPC status. *)
Definition ValidateInterceptor {S A} (r : api_request) (handler : S -> outcome (res A) * S)
  : S -> outcome (res A) * S :=
  match validate false r with
  | Some e => fun s => (Ret (Err (ENew (error_text e))), s)
  | None => handler
  end.

(** ** What a request that passes satisfies *)

(** A host name: labels of letters, digits and inner hyphens. *)
Definition label_ok (part : string) : Prop :=
  let l := bytes_of part in
  1 <= length l <= 63 /\ head l <> Some "-"%char /\ last l <> Some "-"%char
  /\ Forall (fun c => host_char c = true) l.
Definition hostname_ok (host : string) : Prop :=
  String.length host <= 253
  /\ Forall label_ok (Split (ToLower (TrimSuffix1 host "."%char)) "."%char).

Definition email_ok (addr : string) : Prop :=
  mail_ParseAddress addr = true /\ String.length (mail_Address addr) <= 254
  /\ exists name host, SplitN2 (mail_Address addr) "@"%char = [name; host]
       /\ String.length name <= 64 /\ hostname_ok host.

Definition request_ok (r : api_request) : Prop :=
  match r with
  | CreateJob config => is_Some config
  | DeleteJob id => id <> ""
  | CreateTask job_id url => job_id <> "" /\ url <> ""
  | GetTaskAnalytics job_id => job_id <> ""
  | GetJobExportFileURL job_id t => job_id <> "" /\ (t = "json" \/ t = "csv")
  | GetTaskFileURL task_id t => task_id <> "" /\ (t = "pages" \/ t = "result")
  | CreatePreview url => url <> ""
  | RegisterUser email password => email_ok email /\ 8 <= RuneCountInString password
  | LoginUser email password => email_ok email /\ password <> ""
  | RefreshTokens token => token <> ""
  | LogoutUser token => token <> ""
  | OtherRequest => True
  end.

End Interceptor.

(** ** The rules *)

Lemma rune_width_pos l : 1 <= rune_width l.
Proof. unfold rune_width. repeat case_match; lia. Qed.

Lemma rune_count_le n : forall l, rune_count n l <= length l.
Proof.
  induction n as [|n IH]; intros [|c l]; simpl rune_count; try lia.
  specialize (IH (drop (rune_width (c :: l)) (c :: l))). rewrite length_drop in IH.
  pose proof (rune_width_pos (c :: l)). simpl length in *. lia.
Qed.

Lemma length_bytes_of s : length (bytes_of s) = String.length s.
Proof. induction s as [|c s IH]; [done|]. simpl. by rewrite <- IH. Qed.

Lemma RuneCount_le s : RuneCountInString s <= String.length s.
Proof. unfold RuneCountInString. rewrite <- length_bytes_of. apply rune_count_le. Qed.

Lemma RuneCount_nonempty s : 1 <= RuneCountInString s <-> s <> "".
Proof. destruct s as [|c s]; [split; [by inversion 1|done]|]. split; [done|]. intros _. unfold RuneCountInString. simpl. lia. Qed.

Lemma run_checks_nil all errors : run_checks all errors [] = match errors with [] => None | _ => Some (MultiError errors) end.
Proof. done. Qed.

(** The checks that pass, one after the other. *)
Lemma run_checks_pass all cs : Forall (fun c => c all = None) cs -> run_checks all [] cs = None.
Proof. induction 1 as [|c cs Hc _ IH]; [done|]. simpl. by rewrite Hc. Qed.

Lemma run_checks_collect errors cs : run_checks true errors cs =
  match errors ++ omap (fun c => c true) cs with [] => None | l => Some (MultiError l) end.
Proof.
  revert errors. induction cs as [|c cs IH]; intros errors; simpl.
  - rewrite app_nil_r. by destruct errors.
  - destruct (c true) as [e|]; [|apply IH]. by rewrite IH, <- app_assoc.
Qed.

Lemma run_checks_first errors cs : errors = [] -> run_checks false errors cs = head (omap (fun c => c false) cs).
Proof. intros ->. induction cs as [|c cs IH]; simpl; [done|]. by destruct (c false). Qed.

(** A check that does not look at which of the two it is part of. *)
Definition plain_check (c : check) : Prop := c true = c false.

Lemma run_checks_both cs :
  Forall plain_check cs ->
  (run_checks false [] cs = None <-> run_checks true [] cs = None)
  /\ (forall e, run_checks false [] cs = Some e -> exists l, run_checks true [] cs = Some (MultiError (e :: l))).
Proof.
  intros Hc. rewrite run_checks_collect, run_checks_first by done. simpl.
  assert (E : omap (fun c : check => c true) cs = omap (fun c : check => c false) cs).
  { induction Hc as [|c cs Hp _ IH]; [done|]. csimpl. rewrite Hp. destruct (c false); [f_equal|]; exact IH. }
  rewrite E. clear E. destruct (omap _ cs) as [|e l]; (split; [by split|]); [done|]. intros e' [= <-]. by exists l.
Qed.

Lemma min_len_plain message field n v : plain_check (min_len message field n v).
Proof. done. Qed.
Lemma one_of_plain message field vs v : plain_check (one_of message field vs v).
Proof. done. Qed.
Lemma required_plain {A} message field (v : option A) : plain_check (required_rule message field v).
Proof. done. Qed.

(** A message without rules, and a list of them. *)
Definition no_rules {A} (validate : validator A) : Prop := forall all m, validate all m = None.

Lemma embedded_pass {A} (validate : validator A) message field v all :
  no_rules validate -> embedded validate message field v all = None.
Proof. intros Hn. unfold embedded. destruct v as [m|]; [|done]. by rewrite Hn. Qed.

Lemma repeated_pass {A} (validate : validator A) message field vs all :
  no_rules validate -> Forall (fun c : check => c all = None) (repeated validate message field vs).
Proof.
  intros Hn. apply Forall_forall. intros c Hc. apply elem_of_lookup_imap in Hc as (i & v & -> & _).
  by apply embedded_pass.
Qed.

Ltac rules_tac :=
  repeat first [ apply Forall_app_2 | apply Forall_nil_2 | apply Forall_cons_2
               | apply embedded_pass; first [assumption | by intros ? ?]
               | apply repeated_pass; first [assumption | by intros ? ?] ].

Lemma FieldSpec_free : no_rules FieldSpec_validate.
Proof. intros all m. apply run_checks_pass. rules_tac. Qed.
Lemma ItemsSpec_free : no_rules ItemsSpec_validate.
Proof. intros all m. apply run_checks_pass. pose proof FieldSpec_free. rules_tac. Qed.
Lemma ExtractionSpec_free : no_rules ExtractionSpec_validate.
Proof.
  intros all m. apply run_checks_pass. pose proof FieldSpec_free. pose proof ItemsSpec_free. rules_tac.
Qed.

(** Nothing in the configuration of a job is checked. *)
Lemma CrawlJobConfig_free : no_rules CrawlJobConfig_validate.
Proof. intros all m. apply run_checks_pass. pose proof ExtractionSpec_free. rules_tac. Qed.

Section Rules.
Context `{MailAddress}.

Lemma check_part_iff part : check_part part = Ok tt <-> label_ok part.
Proof.
  unfold check_part, label_ok. set (l := bytes_of part). clearbody l.
  destruct l as [|c l]; [split; [done|intros [? _]; simpl in *; lia]|].
  rewrite bool_decide_false by done. cbn [orb].
  destruct (Nat.ltb_spec 63 (length (c :: l))); [split; [done|intros [? _]; lia]|].
  case_bool_decide as Hh; [split; [done|by intros (_ & ? & _)]|].
  case_bool_decide as Hl; [split; [done|by intros (_ & _ & ? & _)]|].
  destruct (forallb host_char (c :: l)) eqn:Ef.
  - split; [|done]. intros _. split; [simpl in *; lia|]. split; [done|]. split; [done|].
    by apply forallb_Forall_true.
  - split; [done|]. intros (_ & _ & _ & Hf). apply forallb_Forall_true in Hf. congruence.
Qed.

Lemma map_res_check l : is_ok (map_res check_part l) = true <-> Forall label_ok l.
Proof.
  induction l as [|x l IH]; [done|]. rewrite Forall_cons, <- IH, <- check_part_iff. simpl.
  destruct (check_part x) as [[]|e]; simpl; [|by split; [|intros []]].
  destruct (map_res check_part l); simpl; [by split|by split; [|intros []]].
Qed.

Lemma validateHostname_iff host : is_ok (validateHostname host) = true <-> hostname_ok host.
Proof.
  unfold validateHostname, hostname_ok. rewrite <- map_res_check.
  destruct (Nat.ltb_spec 253 (String.length host)); [split; [done|intros [? _]; lia]|].
  destruct (map_res check_part _); simpl; split; try done; by intros [].
Qed.

Lemma validateEmail_iff addr : is_ok (validateEmail addr) = true <-> email_ok addr.
Proof.
  unfold validateEmail, email_ok. destruct (mail_ParseAddress addr); simpl; [|by split; [|intros []]].
  destruct (Nat.ltb_spec 254 (String.length (mail_Address addr))); [split; [done|intros (_ & ? & _); lia]|].
  split.
  - destruct (SplitN2 _ _) as [|name [|host [|]]]; try done. intros E. split; [done|]. split; [done|].
    exists name, host. split; [done|].
    destruct (Nat.ltb_spec 64 (String.length name)); [done|]. split; [done|]. by apply validateHostname_iff.
  - intros (_ & _ & name & host & -> & Hn & Hh).
    destruct (Nat.ltb_spec 64 (String.length name)); [lia|]. by apply validateHostname_iff.
Qed.

Lemma email_rule_plain message v : plain_check (email_rule message v).
Proof. done. Qed.
Lemma email_rule_iff message v all : email_rule message v all = None <-> email_ok v.
Proof. rewrite <- validateEmail_iff. unfold email_rule. by destruct (validateEmail v). Qed.

Lemma min_len_iff message field n v all :
  min_len message field n v all = None <-> n <= RuneCountInString v.
Proof. unfold min_len. destruct (Nat.ltb_spec (RuneCountInString v) n); split; try done; lia. Qed.

Lemma one_of_iff message field vs v all : one_of message field vs v all = None <-> v ∈ vs.
Proof. unfold one_of. by case_bool_decide. Qed.

Lemma required_iff {A} message field (v : option A) all :
  required_rule message field v all = None <-> is_Some v.
Proof. by destruct v; simpl; split; try done; intros [? ?]. Qed.

Lemma run_checks_one c : run_checks false [] [c] = None <-> c false = None.
Proof. simpl. by destruct (c false). Qed.
Lemma run_checks_two c d : run_checks false [] [c; d] = None <-> c false = None /\ d false = None.
Proof. simpl. destruct (c false); simpl; [by split; [|intros []]|]. destruct (d false); by split; [|intros []]. Qed.

Lemma validate_iff r : validate false r = None <-> request_ok r.
Proof.
  destruct r; cbn [validate request_ok]; unfold CreateJobRequest_validate, DeleteJobRequest_validate,
    CreateTaskRequest_validate, GetTaskAnalyticsRequest_validate, GetJobExportFileURLRequest_validate,
    GetTaskFileURLRequest_validate, CreatePreviewRequest_validate, RegisterRequest_validate,
    LoginRequest_validate, RefreshRequest_validate, LogoutRequest_validate;
    rewrite ?run_checks_one, ?run_checks_two, ?min_len_iff, ?email_rule_iff, ?one_of_iff, ?required_iff,
      ?RuneCount_nonempty; simpl; try done; try (by rewrite !elem_of_cons, elem_of_nil; tauto).
  pose proof (embedded_pass _ "CreateJobRequest" "Config" config false CrawlJobConfig_free). tauto.
Qed.

(** C26: Requests are validated as their rules say.  The interceptor lets a request through exactly when
    it satisfies the rules of its message, addresses and host names included; [ValidateAll] finds
    something exactly when [Validate] does, and its first error is the one [Validate] answers. *)
Theorem requests_validated r :
  (validate false r = None <-> request_ok r)
  /\ (validate false r = None <-> validate true r = None)
  /\ (forall e, validate false r = Some e -> exists l, validate true r = Some (MultiError (e :: l))).
Proof.
  split; [apply validate_iff|]. destruct r; try (apply run_checks_both; by repeat constructor); [|done].
  apply run_checks_both. repeat constructor. unfold plain_check.
  by rewrite !(embedded_pass _ _ _ _ _ CrawlJobConfig_free).
Qed.

End Rules.

(** ** What the handlers can rely on *)

(** [Register] of the service refuses neither the address nor the password of a request that was
    let through: eight runes are at least eight bytes. *)
Lemma validated_register `{MailAddress} email password :
  validate false (RegisterUser email password) = None ->
  mail_ParseAddress email = true /\ (String.length password <? 8) = false.
Proof.
  intros E. apply validate_iff in E as [(Hm & _) Hp]. split; [done|].
  apply Nat.ltb_ge. pose proof (RuneCount_le password). lia.
Qed.

(** Eight bytes that are not eight runes: the interceptor is stricter than the service. *)
Example password_in_runes : RuneCountInString "пароль1" = 7 /\ (String.length "пароль1" <? 8) = false.
Proof. split; vm_compute; reflexivity. Qed.
