(* ===== verification/JobListing.v ===== *)
(** * The listing of jobs

    [ListJobs] of the gRPC API ([api/crawl_job/list_jobs.go]), of the service
    ([service/crawl_job/list_crawl_jobs_query.go]) and [ListWithCursor] of the job repository.  The
    rows are jobs joined with their configuration and with the e-mail address of their user; the
    default order is by creation, newest first. *)

From S2P Require Import Prelude GoStrings Domain Json Converters World Sql Repos Base64 Keyset Pages Pagination Proto.

(** ** application/service/crawl_job_service.go *)

Definition JobSortByCreatedAt : string := "created_at".
Definition JobSortByName : string := "name".
Definition JobSortByStatus : string := "status".

Record ListCrawlJobsFilter := {
  JFName : option string; JFUserEmail : option string; JFStatus : option string;
  JFCreatedFrom : option Z; JFCreatedTo : option Z }.

Record ListCrawlJobsCursor := {
  JCSortField : string; JCSortAsc : bool; JCCreatedAt : Z; JCName : string; JCStatus : string;
  JCID : string }.

Record ListCrawlJobsQuery := {
  JQCursor : option ListCrawlJobsCursor; JQLimit : Z; JQFilter : ListCrawlJobsFilter;
  JQSortField : string; JQSortAsc : bool }.

Record ListCrawlJobsResult := {
  JRJobs : list CrawlJob; JRNextCursor : option ListCrawlJobsCursor; JRHasMore : bool }.

(** ** The rows: jobs with their configuration and the e-mail address of their user *)

Definition job_email (d : database) (j : CrawlJobSnapshot) : option string :=
  match js_UserID j with
  | None => None
  | Some u => us_Email <$> head (bfilter (fun r => bool_decide (us_ID r = u)) (users d))
  end.

Record job_row := {
  jr_job : CrawlJobSnapshot; jr_config : option CrawlJobConfigSnapshot; jr_email : option string }.

Definition joined_job (d : database) (j : CrawlJobSnapshot) : job_row :=
  {| jr_job := j; jr_config := job_config_row d j; jr_email := job_email d j |}.

Definition jr_id (r : job_row) : string := js_ID (jr_job r).

(** A condition on a column that is NULL does not hold. *)
Definition on_value {A} (p : A -> bool) (o : option A) : bool :=
  match o with Some x => p x | None => false end.

Section JobListing.
Context `{Env, JsonLib}.

(** ** persistence/postgres/repos/crawl_job_repo.go: ListWithCursor *)

Definition job_where (f : ListCrawlJobsFilter) (r : job_row) : bool :=
  given (JFStatus f) (fun s => bool_decide (js_Status (jr_job r) = s))
  && given (JFUserEmail f) (fun s => on_value (ilike_contains s) (jr_email r))
  && given (JFName f) (fun s => on_value (fun c => ilike_contains s (cs_Name c)) (jr_config r))
  && bounded (JFCreatedFrom f) (fun t => t <=? js_CreatedAt (jr_job r))
  && bounded (JFCreatedTo f) (fun t => js_CreatedAt (jr_job r) <=? t).

Definition job_sort (q : ListCrawlJobsQuery) : string :=
  if bool_decide (JQSortField q = "") then JobSortByCreatedAt else JQSortField q.

Definition job_position (field : string) (r : job_row) : position :=
  if bool_decide (field = JobSortByName) then
    (match jr_config r with Some c => KText (cs_Name c) | None => KNull end, jr_id r)
  else if bool_decide (field = JobSortByStatus) then (KText (js_Status (jr_job r)), jr_id r)
  else (KNum (js_CreatedAt (jr_job r)), jr_id r).

Definition job_cursor_position (field : string) (c : ListCrawlJobsCursor) : position :=
  if bool_decide (field = JobSortByName) then (KText (JCName c), JCID c)
  else if bool_decide (field = JobSortByStatus) then (KText (JCStatus c), JCID c)
  else (KNum (JCCreatedAt c), JCID c).

Definition job_page (q : ListCrawlJobsQuery) (fetchLimit : Z) (d : database)
  : res (list job_row) :=
  limit ← limit_param fetchLimit;
  Ok (limit_rows limit
        (keyset (job_position (job_sort q)) (JQSortAsc q)
           (job_cursor_position (job_sort q) <$> JQCursor q)
           (bfilter (job_where (JQFilter q)) (joined_job d <$> jobs d)))).

Definition next_job_cursor (q : ListCrawlJobsQuery) (j : CrawlJob) : ListCrawlJobsCursor :=
  {| JCSortField := job_sort q; JCSortAsc := JQSortAsc q; JCCreatedAt := CreatedAt j;
     JCName := match JobConfig j with Some c => CfgName c | None => "" end;
     JCStatus := JStatus j; JCID := value (JID j) |}.

Definition Job_ListWithCursor (q : ListCrawlJobsQuery) : M (res ListCrawlJobsResult) :=
  let limit := JQLimit q in
  try rows <- stmt (fun _ d => rows ← job_page q (limit + 1) d; Ok (rows, d));
  if limit + 1 <? 0 then panic "runtime error: makeslice: cap out of range" else
  try jobs <- lift_res (scanJobsWithQueueEndpoints ((fun r => (jr_job r, jr_config r)) <$> rows));
  let hasMore := limit <? Z.of_nat (length jobs) in
  if hasMore && (limit <? 0) then panic "runtime error: slice bounds out of range" else
  let jobs := if hasMore then take (Z.to_nat limit) jobs else jobs in
  ret_ok {| JRJobs := jobs;
            JRNextCursor := if hasMore then next_job_cursor q <$> last jobs else None;
            JRHasMore := hasMore |}.

(** ** application/service/crawl_job/list_crawl_jobs_query.go *)

Definition job_filter_check (f : ListCrawlJobsFilter) : res unit :=
  _ ← match JFStatus f with
      | Some s => guard_ (bool_decide (s = "") || TaskStatus_IsValid s)
                    (ENew ("invalid status: " +:+ s))
      | None => Ok tt
      end;
  match JFCreatedFrom f, JFCreatedTo f with
  | Some a, Some b => guard_ (negb (After a b)) (ENew "created_from cannot be after created_to")
  | _, _ => Ok tt
  end.

Definition with_job_limit (limit : Z) (q : ListCrawlJobsQuery) : ListCrawlJobsQuery :=
  {| JQCursor := JQCursor q; JQLimit := limit; JQFilter := JQFilter q;
     JQSortField := JQSortField q; JQSortAsc := JQSortAsc q |}.

Definition ListCrawlJobs (q : ListCrawlJobsQuery) : M (res ListCrawlJobsResult) :=
  let q := with_job_limit (default_limit (JQLimit q)) q in
  try _ <- lift_res (job_filter_check (JQFilter q));
  try result <- Job_ListWithCursor q else e => ret_err (Errorf "failed to list crawl jobs" e);
  ret_ok result.

(** ** api/crawl_job/list_jobs.go *)

Inductive JobSortField :=
| JOB_SORT_FIELD_UNSPECIFIED | JOB_SORT_FIELD_CREATED_AT | JOB_SORT_FIELD_NAME
| JOB_SORT_FIELD_STATUS.

Record ListJobsRequest := {
  LJCursor : option string; LJLimit : Z; LJFilter : ListCrawlJobsFilter;
  LJSortField : JobSortField; LJSortOrder : SortOrder }.

Record ListJobsResponse := {
  LJJobs : list (option ProtoCrawlJob); LJNextCursor : string; LJHasMore : bool }.

Definition is_asc (o : SortOrder) : bool :=
  match o with SORT_ORDER_ASC => true | _ => false end.

Definition request_job_sort (f : JobSortField) (o : SortOrder) : string * bool :=
  match f with
  | JOB_SORT_FIELD_NAME => (JobSortByName, negb (is_desc o))
  | JOB_SORT_FIELD_STATUS => (JobSortByStatus, negb (is_desc o))
  | _ => (JobSortByCreatedAt, is_asc o)
  end.

Definition json_of_job_cursor (c : ListCrawlJobsCursor) : json :=
  JObj (omit_str "sf" (JCSortField c)
        ++ [("sa", JBool (JCSortAsc c)); ("c", JStr (time_text (JCCreatedAt c)))]
        ++ omit_str "n" (JCName c) ++ omit_str "st" (JCStatus c)
        ++ [("i", JStr (JCID c))]).

Definition job_cursor_of_json (j : json) : res ListCrawlJobsCursor :=
  fs ← as_object j;
  sf ← get_string "sf" fs; sa ← get_bool "sa" fs; c ← get_time "c" fs;
  n ← get_string "n" fs; st ← get_string "st" fs; i ← get_string "i" fs;
  Ok {| JCSortField := sf; JCSortAsc := sa; JCCreatedAt := c; JCName := n; JCStatus := st;
        JCID := i |}.

Definition encodeCursor (c : ListCrawlJobsCursor) : res string :=
  if time_ok (JCCreatedAt c) then Ok (EncodeToString (marshal (json_of_job_cursor c)))
  else Err (ENew "Time.MarshalJSON: year outside of range [0,9999]").

Definition decodeCursor (encoded : string) : res ListCrawlJobsCursor :=
  data ← DecodeString encoded; Unmarshal job_cursor_of_json data.

Definition job_query (req : ListJobsRequest) (cursor : option ListCrawlJobsCursor)
  : ListCrawlJobsQuery :=
  let '(field, asc) := request_job_sort (LJSortField req) (LJSortOrder req) in
  {| JQCursor := cursor; JQLimit := LJLimit req; JQFilter := LJFilter req;
     JQSortField := match cursor with Some c => JCSortField c | None => field end;
     JQSortAsc := match cursor with Some c => JCSortAsc c | None => asc end |}.

Definition job_request_cursor (req : ListJobsRequest) : res (option ListCrawlJobsCursor) :=
  match LJCursor req with
  | None => Ok None
  | Some s =>
      if bool_decide (s = "") then Ok None
      else match decodeCursor s with
           | Ok c => Ok (Some c)
           | Err e => Err (Errorf "rpc error: code = InvalidArgument desc = invalid cursor" e)
           end
  end.

Definition API_ListJobs (req : ListJobsRequest) : M (res ListJobsResponse) :=
  try cursor <- lift_res (job_request_cursor req);
  try result <- ListCrawlJobs (job_query req cursor);
  try next <- lift_res (match JRNextCursor result with
                        | None => Ok ""
                        | Some c => encodeCursor c
                        end)
    else e => ret_err (Errorf "rpc error: code = Internal desc = failed to encode cursor" e);
  ret_ok {| LJJobs := (fun j => ToProtoCrawlJob (Some j)) <$> JRJobs result;
            LJNextCursor := next; LJHasMore := JRHasMore result |}.

(** A client that reads page after page. *)
Definition with_job_cursor (c : string) (req : ListJobsRequest) : ListJobsRequest :=
  {| LJCursor := Some c; LJLimit := LJLimit req; LJFilter := LJFilter req;
     LJSortField := LJSortField req; LJSortOrder := LJSortOrder req |}.

Definition read_jobs : nat -> ListJobsRequest -> M (res (list (option ProtoCrawlJob))) :=
  read_pages API_ListJobs LJJobs LJHasMore (fun resp => with_job_cursor (LJNextCursor resp)).

End JobListing.

(** ** The cursor of the API reads back *)

Section JobCursors.
Context `{JsonLib}.

Definition job_cursor_ok (c : ListCrawlJobsCursor) : bool :=
  utf8_valid (bytes_of (JCSortField c)) && utf8_valid (bytes_of (JCName c))
  && utf8_valid (bytes_of (JCStatus c)) && utf8_valid (bytes_of (JCID c))
  && time_ok (JCCreatedAt c).

Lemma job_cursor_wf c : job_cursor_ok c = true -> json_wf (json_of_job_cursor c) = true.
Proof.
  unfold job_cursor_ok. rewrite !andb_true_iff. intros [[[[? ?] ?] ?] ?].
  unfold json_of_job_cursor, omit_str.
  destruct c as [sf sa e n st i]; simpl in *;
    destruct (bool_decide (sf = _)), (bool_decide (n = _)), (bool_decide (st = _)); simpl;
    rewrite ?andb_true_iff, ?time_text_utf8; simpl; repeat split; done.
Qed.

Lemma job_cursor_of_json_of c :
  job_cursor_ok c = true -> job_cursor_of_json (json_of_job_cursor c) = Ok c.
Proof.
  unfold job_cursor_ok. rewrite !andb_true_iff. intros [[[[? ?] ?] ?] Ht].
  unfold job_cursor_of_json, json_of_job_cursor, omit_str, get_string, get_bool, get_time.
  destruct c as [sf sa e n st i]; simpl in *; repeat case_bool_decide; subst; simpl;
    rewrite !time_parse_text by done; done.
Qed.

Lemma decodeCursor_encode c :
  job_cursor_ok c = true -> exists s, encodeCursor c = Ok s /\ decodeCursor s = Ok c /\ s <> "".
Proof.
  intros Hc. assert (Ht : time_ok (JCCreatedAt c) = true)
    by (unfold job_cursor_ok in Hc; rewrite !andb_true_iff in Hc; tauto).
  unfold encodeCursor, decodeCursor. rewrite Ht. eexists; split; [done|].
  assert (E : (data ← DecodeString (EncodeToString (marshal (json_of_job_cursor c)));
               Unmarshal job_cursor_of_json data) = Ok c).
  { rewrite DecodeString_EncodeToString. simpl.
    rewrite Unmarshal_marshal by (by apply job_cursor_wf). by apply job_cursor_of_json_of. }
  split; [exact E|]. intros E0. rewrite E0 in E. unfold Unmarshal in E. simpl in E.
  replace (of_bytes []) with "" in E by done. by rewrite unmarshal_empty in E.
Qed.

End JobCursors.

(** ** Reading every page of the jobs *)

Section RestoreRow.
Context `{Env, JsonLib}.

Definition restore_job_row (r : job_row) : res CrawlJob :=
  s ← scanCrawlJobWithConfig (jr_job r, jr_config r); RestoreCrawlJobFromSnapshot s.

(** What the listing needs of a stored job: an identifier, a configuration, text and a
    time that JSON carries. *)
Definition job_row_ok (r : job_row) : bool :=
  is_ok (restore_job_row r) && utf8_valid (bytes_of (jr_id r))
  && utf8_valid (bytes_of (js_Status (jr_job r))) && time_ok (js_CreatedAt (jr_job r))
  && on_value (fun c => negb (bool_decide (cs_ID c = "")) && utf8_valid (bytes_of (cs_Name c))) (jr_config r).

Lemma scan_jobs_rows rows js :
  map_res restore_job_row rows = Ok js ->
  scanJobsWithQueueEndpoints ((fun r => (jr_job r, jr_config r)) <$> rows) = Ok js.
Proof.
  unfold scanJobsWithQueueEndpoints. revert js. induction rows as [|r rows IH]; intros js E; [done|].
  simpl in E. apply res_bind_Ok in E as (j & Ej & E). apply res_bind_Ok in E as (js' & E & [= <-]).
  apply res_bind_Ok in Ej as (s & Es & Ej). specialize (IH _ E).
  apply res_bind_Ok in IH as (ss & Ess & IH).
  rewrite fmap_cons. set (rs := _ <$> rows) in *. simpl. rewrite Es. simpl. rewrite Ess. simpl.
  rewrite Ej. simpl. by rewrite IH.
Qed.

(** The cursor made of a row's job stands at the row, and can be sent. *)
Lemma job_cursor_of_row q r j field :
  job_row_ok r = true -> restore_job_row r = Ok j ->
  job_cursor_position field (next_job_cursor q j) = job_position field r
  /\ (utf8_valid (bytes_of (job_sort q)) = true -> job_cursor_ok (next_job_cursor q j) = true).
Proof.
  unfold job_row_ok. rewrite !andb_true_iff. intros [[[[_ Hi] Hs] Ht] Hc] Ej.
  destruct r as [s [c|] e]; [|done]. simpl in *. apply andb_true_iff in Hc as [Hne Hn].
  unfold restore_job_row, scanCrawlJobWithConfig in Ej. simpl in Ej.
  apply negb_true_iff in Hne. rewrite Hne in Ej.
  unfold RestoreCrawlJobFromSnapshot in Ej. simpl in Ej.
  apply res_bind_Ok in Ej as (i & Ei & Ej). apply res_bind_Ok in Ej as (ci & _ & Ej).
  apply res_bind_Ok in Ej as (u & _ & Ej). apply res_bind_Ok in Ej as (k & Ek & [= <-]).
  apply res_bind_Ok in Ek as (cfg & Ecfg & [= <-]).
  assert (En : CfgName cfg = cs_Name c).
  { unfold RestoreCrawlJobConfigFromSnapshot in Ecfg.
    repeat (apply res_bind_Ok in Ecfg as (? & _ & Ecfg)). by injection Ecfg as <-. }
  assert (Eid : value i = js_ID s).
  { apply res_bind_Ok in Ei as (b & Eb & [= <-]). by apply NewID_ok in Eb as (-> & _). }
  unfold job_cursor_position, job_position, next_job_cursor, job_cursor_ok, jr_id in *. simpl in *.
  rewrite Eid, En. split; [done|]. intros Hf. by rewrite Hf, Hn, Hs, Hi, Ht.
Qed.

Lemma job_position_id f r : (job_position f r).2 = jr_id r.
Proof. unfold job_position. by repeat case_bool_decide. Qed.

Lemma job_position_not_null f r : job_row_ok r = true -> (job_position f r).1 <> KNull.
Proof.
  unfold job_row_ok. rewrite !andb_true_iff. intros [_ Hc].
  unfold job_position. destruct (jr_config r); [|done]. by repeat case_bool_decide.
Qed.

End RestoreRow.

Section ReadJobs.
Context `{Env, JsonLib}.
Hypothesis calm : forall n, verdict_at n = Succeeds.
Context (filter_ : ListCrawlJobsFilter) (limit : Z) (field : string) (asc : bool) (d : database).

Definition wanted_jobs : list job_row := bfilter (job_where filter_) (joined_job d <$> jobs d).
Notation beyond_jobs c := (keyset (job_position field) asc c wanted_jobs).
Notation n := (Z.to_nat (default_limit limit)).

Hypothesis limit_ok : 0 <= limit.
Hypothesis filter_ok : job_filter_check filter_ = Ok tt.
Hypothesis rows_ok : forallb job_row_ok (joined_job d <$> jobs d) = true.
Hypothesis field_cases :
  field = JobSortByCreatedAt \/ field = JobSortByName \/ field = JobSortByStatus.
Hypothesis ids_distinct : NoDup (js_ID <$> jobs d).

Definition asks_jobs (req : ListJobsRequest) (cur : option ListCrawlJobsCursor) : Prop :=
  LJFilter req = filter_ /\ LJLimit req = limit /\ job_request_cursor req = Ok cur
  /\ JQSortField (job_query req cur) = field /\ JQSortAsc (job_query req cur) = asc.

Lemma wanted_row_ok r : r ∈ wanted_jobs -> job_row_ok r = true.
Proof.
  intros [_ Hr]%list_elem_of_filter. pose proof rows_ok as Ho.
  apply forallb_Forall_true in Ho. rewrite Forall_forall in Ho. by apply Ho.
Qed.

Lemma job_field_sort q : JQSortField q = field -> job_sort q = field.
Proof.
  intros E. unfold job_sort. rewrite E, bool_decide_eq_false_2; [done|].
  by destruct field_cases as [->|[->| ->]].
Qed.

(** One page of the service: the first rows beyond the cursor. *)
Lemma job_service_page req cur a js :
  asks_jobs req cur -> tx a = None -> db a = d ->
  map_res restore_job_row (beyond_jobs (job_cursor_position field <$> cur)) = Ok js ->
  let hasMore := bool_decide (n < length js)%nat in
  ListCrawlJobs (job_query req cur) a
  = (Ret (Ok {| JRJobs := take n js;
                JRNextCursor := if hasMore
                                then next_job_cursor (job_query req cur) <$> last (take n js)
                                else None;
                JRHasMore := hasMore |}), set_db d (tick a)).
Proof.
  intros (Ef & El & Ec & Es & Ea) Ht Hd Er hasMore.
  pose proof (default_limit_range _ limit_ok) as Hn.
  assert (Eq : JQFilter (job_query req cur) = filter_ /\ JQLimit (job_query req cur) = limit
               /\ JQCursor (job_query req cur) = cur)
    by (unfold job_query; destruct (request_job_sort _ _); done).
  destruct Eq as (Eqf & Eql & Eqc). set (q := job_query req cur) in *.
  unfold ListCrawlJobs, try_bind. rewrite Eql. set (q' := with_job_limit _ q).
  change (JQFilter q') with (JQFilter q). rewrite Eqf.
  erewrite (bind_ret _ _ a); [|by rewrite filter_ok]. cbv beta iota.
  set (rows := beyond_jobs (job_cursor_position field <$> cur)) in *.
  pose proof (map_res_take _ (Z.to_nat (default_limit limit + 1)) _ _ Er) as Etake.
  pose proof (map_res_length _ _ _ Er) as Hlen.
  assert (Epage : job_page q' (default_limit limit + 1) d
                  = Ok (take (Z.to_nat (default_limit limit + 1)) rows)).
  { unfold job_page. change (JQCursor q') with (JQCursor q). rewrite Eqc.
    rewrite limit_param_id by lia. simpl. rewrite limit_rows_take by lia.
    change (job_sort q') with (job_sort q). rewrite (job_field_sort q Es).
    change (JQSortAsc q') with (JQSortAsc q). rewrite Ea.
    change (JQFilter q') with (JQFilter q). by rewrite Eqf. }
  assert (Erepo : Job_ListWithCursor q' a = (Ret (Ok {| JRJobs := take n js;
      JRNextCursor := if hasMore then next_job_cursor q <$> last (take n js) else None;
      JRHasMore := hasMore |}), set_db d (tick a))).
  { unfold Job_ListWithCursor, try_bind.
    change (JQLimit q') with (default_limit limit).
    erewrite bind_ret; [|apply (stmt_calm calm _ a (take (Z.to_nat (default_limit limit + 1)) rows) d Ht);
                         by rewrite Hd, Epage].
    cbv beta iota zeta.
    destruct (default_limit limit + 1 <? 0) eqn:E0; [lia|].
    erewrite (bind_ret _ _ (set_db d (tick a))); [|by rewrite (scan_jobs_rows _ _ Etake)].
    cbv beta iota. destruct (default_limit limit <? 0) eqn:E1; [lia|]. rewrite andb_false_r.
    assert (Eh : (default_limit limit
                  <? Z.of_nat (length (take (Z.to_nat (default_limit limit + 1)) js))) = hasMore).
    { unfold hasMore. rewrite length_take. apply eq_bool_prop_intro.
      rewrite !Is_true_true, Z.ltb_lt, bool_decide_eq_true. lia. }
    rewrite Eh, take_take. rewrite Nat.min_l by lia. unfold hasMore.
    case_bool_decide as Hm; [done|]. do 2 f_equal. f_equal.
    by rewrite !take_ge by lia. }
  by rewrite (bind_ret _ _ _ _ _ Erepo).
Qed.

Definition shown_row (r : job_row) : res (option ProtoCrawlJob) :=
  j ← restore_job_row r; Ok (ToProtoCrawlJob (Some j)).

Lemma shown_rows rows ts :
  map_res shown_row rows = Ok ts ->
  exists js, map_res restore_job_row rows = Ok js
             /\ ts = (fun j => ToProtoCrawlJob (Some j)) <$> js.
Proof.
  revert ts. induction rows as [|r rows IH]; intros ts E; simpl in E.
  { injection E as <-. by exists []. }
  apply res_bind_Ok in E as (t & Et & E). apply res_bind_Ok in E as (ts' & E & [= <-]).
  apply res_bind_Ok in Et as (j & Ej & [= <-]). destruct (IH _ E) as (js & Ejs & ->).
  exists (j :: js). simpl. by rewrite Ej, Ejs.
Qed.

(** One page of the API, with a cursor that stands at its last row when more rows follow. *)
Lemma job_api_page req cur a ts :
  asks_jobs req cur -> tx a = None -> db a = d ->
  map_res shown_row (beyond_jobs (job_cursor_position field <$> cur)) = Ok ts ->
  exists resp,
    API_ListJobs req a = (Ret (Ok resp), set_db d (tick a))
    /\ LJJobs resp = take n ts /\ LJHasMore resp = bool_decide (n < length ts)%nat
    /\ forall r, (n < length ts)%nat ->
         last (take n (beyond_jobs (job_cursor_position field <$> cur))) = Some r ->
         exists c, asks_jobs (with_job_cursor (LJNextCursor resp) req) (Some c)
                   /\ job_cursor_position field c = job_position field r.
Proof.
  intros Hask Ht Hd Er. destruct (shown_rows _ _ Er) as (js & Ejs & ->).
  pose proof (job_service_page req cur a js Hask Ht Hd Ejs) as E. simpl in E.
  destruct Hask as (Ef & El & Ec & Es & Ea).
  unfold API_ListJobs, try_bind.
  erewrite (bind_ret _ _ a); [|by rewrite Ec]. cbv beta iota.
  erewrite (bind_ret _ _ a); [|exact E]. cbv beta iota. cbn [JRNextCursor JRJobs JRHasMore].
  rewrite length_fmap, <-fmap_take. clear E.
  case_bool_decide as Hlen; [|by eexists].
  pose proof (default_limit_range _ limit_ok) as Hn.
  set (rows := beyond_jobs (job_cursor_position field <$> cur)) in *.
  pose proof (map_res_take _ n _ _ Ejs) as Etake.
  destruct (last (take n rows)) as [r|] eqn:Er1.
  2: { apply last_None in Er1. apply (f_equal length) in Er1. rewrite length_take in Er1.
       pose proof (map_res_length _ _ _ Ejs). simpl in Er1. lia. }
  destruct (map_res_last _ _ _ _ Etake Er1) as (j & Ej & ->). cbn [fmap option_fmap option_map].
  assert (Hr : r ∈ wanted_jobs).
  { eapply keyset_perm_sub, (subseteq_take n). by eapply last_Some_elem_of. }
  destruct (job_cursor_of_row (job_query req cur) r j field (wanted_row_ok r Hr) Ej) as [Hp Hok].
  rewrite (job_field_sort _ Es) in Hok.
  destruct (decodeCursor_encode _ (Hok ltac:(by destruct field_cases as [->|[->| ->]])))
    as (s & Ee & Edec & Hne).
  rewrite Ee. eexists. split; [done|]. split; [done|]. split; [done|].
  intros r' _ [= <-].
  assert (Hsf : JCSortField (next_job_cursor (job_query req cur) j) = field) by by apply job_field_sort.
  assert (Hsa : JCSortAsc (next_job_cursor (job_query req cur) j) = asc) by done.
  set (c := next_job_cursor (job_query req cur) j) in *. clearbody c. exists c. split; [|done].
  unfold asks_jobs, job_request_cursor, with_job_cursor, job_query. simpl.
  rewrite bool_decide_eq_false_2, Edec by done. by destruct (request_job_sort _ _).
Qed.

Lemma read_all_jobs fuel req a ts :
  asks_jobs req None -> map_res shown_row (beyond_jobs None) = Ok ts ->
  (length wanted_jobs < fuel)%nat -> tx a = None -> db a = d ->
  exists b, read_jobs fuel req a = (Ret (Ok ts), b) /\ db b = d.
Proof.
  intros Hask. pose proof (default_limit_range _ limit_ok) as Hn.
  apply (read_pages_all _ _ _ _ (job_position field) asc _ shown_row n d
           (fun rq p => exists cur, asks_jobs rq cur /\ p = job_cursor_position field <$> cur)).
  - lia.
  - erewrite list_fmap_ext; [|intros; apply job_position_id].
    eapply sublist_NoDup; [exact ids_distinct|].
    replace (js_ID <$> jobs d) with (jr_id <$> (joined_job d <$> jobs d))
      by (rewrite <-list_fmap_compose; done).
    apply fmap_sublist, sublist_filter.
  - apply Forall_forall. intros r Hr. by apply job_position_not_null, wanted_row_ok.
  - clear ts a. intros rq p a ts (cur & Hc & ->) Ht Hd Er.
    destruct (job_api_page _ _ _ _ Hc Ht Hd Er) as (resp & E & Eitems & Emore & Hnext).
    exists resp. split; [done|]. split; [done|]. split; [done|]. intros r Hlt Hr.
    destruct (Hnext r Hlt Hr) as (c & Hc' & Hp). exists (Some c). simpl. by rewrite Hp.
  - by exists None.
Qed.

End ReadJobs.

(** ** Properties *)

Section JobProperties.
Context `{Env, JsonLib}.

(** A first request with arguments the API accepts. *)
Definition first_job_request (req : ListJobsRequest) : bool :=
  match LJCursor req with None => true | Some s => bool_decide (s = "") end
  && (0 <=? LJLimit req) && is_ok (job_filter_check (LJFilter req)).

(** C8: the pages of jobs are complete.  While the database does not change and answers, a client
    that asks for jobs and follows [next_cursor] through the API, its base64 and its JSON, ends
    after at most as many requests as there are jobs plus one; it has then every job that passes the
    filter on status, name, e-mail of the user and creation, each exactly once, as the API shows it,
    in the requested order (by default the newest first), for every limit that is not negative.  The
    rows of the table must be ones that can be restored and written into a cursor ([job_row_ok]), and
    the request a first one, with a filter that is valid ([first_job_request]). *)
Theorem list_jobs_complete req a :
  (forall n, verdict_at n = Succeeds) ->
  tx a = None -> NoDup (js_ID <$> jobs (db a)) ->
  forallb job_row_ok (joined_job (db a) <$> jobs (db a)) = true -> first_job_request req = true ->
  let '(field, asc) := request_job_sort (LJSortField req) (LJSortOrder req) in
  exists rows ts b,
    read_jobs (S (length (jobs (db a)))) req a = (Ret (Ok ts), b) /\ db b = db a
    /\ map_res shown_row rows = Ok ts
    /\ rows ≡ₚ filter (fun r => job_where (LJFilter req) r = true) (joined_job (db a) <$> jobs (db a))
    /\ StronglySorted
         (fun r s => directed asc pos_leb (job_position field r) (job_position field s) = true) rows.
Proof.
  intros Hcalm Ht Hnd Hrows Hreq. destruct (request_job_sort _ _) as [field asc] eqn:Esort.
  unfold first_job_request in Hreq. rewrite !andb_true_iff in Hreq.
  destruct Hreq as [[Hc Hl] Hf]. apply Z.leb_le in Hl. apply is_ok_unit in Hf.
  set (l := wanted_jobs (LJFilter req) (db a)).
  set (rows := keyset (job_position field) asc None l).
  assert (Hp : rows ≡ₚ l) by apply keyset_all_perm.
  destruct (map_res_total shown_row rows) as (ts & Ets & _).
  { intros r Hr. rewrite Hp in Hr. apply (wanted_row_ok _ _ Hrows) in Hr.
    unfold job_row_ok in Hr. rewrite !andb_true_iff in Hr. destruct Hr as [[[[Hr _] _] _] _].
    unfold shown_row. by destruct (restore_job_row r). }
  assert (Hfield : field = JobSortByCreatedAt \/ field = JobSortByName \/ field = JobSortByStatus).
  { unfold request_job_sort in Esort. destruct (LJSortField req); injection Esort as <- _; tauto. }
  assert (Hlen : (length l < S (length (jobs (db a))))%nat).
  { unfold l, wanted_jobs, bfilter.
    pose proof (length_filter (fun r => job_where (LJFilter req) r = true)
                  (joined_job (db a) <$> jobs (db a))) as Hle. rewrite length_fmap in Hle. lia. }
  assert (Hask : asks_jobs (LJFilter req) (LJLimit req) field asc req None).
  { unfold asks_jobs, job_request_cursor, job_query. rewrite Esort.
    destruct (LJCursor req) as [s|]; [rewrite Hc|]; done. }
  destruct (read_all_jobs Hcalm (LJFilter req) (LJLimit req) field asc (db a) Hl Hf Hrows Hfield Hnd
    _ req a ts Hask Ets Hlen Ht eq_refl) as (b & E & Hb).
  exists rows, ts, b. split; [exact E|]. split; [done|]. split; [done|]. split; [exact Hp|].
  apply (order_by_sorted (job_position field) asc).
Qed.

End JobProperties.

(** ** A concrete listing *)

#[local] Existing Instances any_uuid plain_env plain_json.

Definition demo_jobs : world :=
  world_of {| configs := configs demo_db; tasks := []; outbox := []; users := users demo_db;
              tokens := []; previews := [];
    jobs := (fun p => {| js_ID := p.1; js_JobConfigID := Some "c1"; js_UserID := Some "u1";
                         js_Name := None; js_Status := TaskStatusInProgress; js_CreatedAt := p.2;
                         js_CompletedAt := None; js_JobConfig := None; js_ExportJSONKey := None;
                         js_ExportCSVKey := None; js_ExportedAt := None;
                         js_ExportStatus := Some ExportStatusNotStarted |})
            <$> [("j1", 5); ("j2", 9); ("j3", 7); ("j4", 7)] |}.

Definition demo_job_request : ListJobsRequest :=
  {| LJCursor := None; LJLimit := 2;
     LJFilter := {| JFName := None; JFUserEmail := Some "A.B"; JFStatus := Some TaskStatusInProgress;
                    JFCreatedFrom := Some 5; JFCreatedTo := None |};
     LJSortField := JOB_SORT_FIELD_UNSPECIFIED; LJSortOrder := SORT_ORDER_UNSPECIFIED |}.

Example demo_job_pages :
  match (read_jobs 5 demo_job_request demo_jobs).1 with
  | Ret (Ok ts) => map (option_map pb_JId) ts
  | _ => []
  end = [Some "j2"; Some "j4"; Some "j3"; Some "j1"].
Proof. vm_compute. reflexivity. Qed.

Lemma list_jobs_complete_witness :
  exists ts b, read_jobs 5 demo_job_request demo_jobs = (Ret (Ok ts), b).
Proof.
  destruct (list_jobs_complete demo_job_request demo_jobs) as (rows & ts & b & E & _).
  - intros n. reflexivity.
  - reflexivity.
  - apply (bool_decide_unpack _). vm_compute. exact I.
  - vm_compute. reflexivity.
  - vm_compute. reflexivity.
  - exists ts, b. exact E.
Defined.
