(* ===== verification/Api.v ===== *)
(** * The handlers of the job API

    [api/crawl_job] (the gRPC handlers over jobs and tasks, except the listings of [Pagination]),
    the reading operations of [service/crawl_task], [MinIOStore.PresignGetURL], and the HTTP routes
    that are registered outside of the gRPC server ([app/crawl_queues_handler.go],
    [app/delete_job_handler.go]), with their own check of the token.  The clock a token is checked
    with is the argument [now]. *)

From S2P Require Import Prelude GoStrings Domain Json Converters World Sql Repos Routing.
From S2P Require Import GoUrl Scope FetchWorker GoNum Sha256 Extraction ParserWorker ExportWorker.
From S2P Require Import JobService GoFloat Auth Proto.

(** [minio-go]: the presigned URL of an object of a bucket, for a duration. *)
Class PresignLib := { PresignedGetObject : nat -> string -> string -> Z -> res string }.

(** [json.NewDecoder(r).Decode] reads the first value of a text; [protojson] reads and prints a
    message. *)
Class HttpLib `{JsonLib} := {
  json_Decode : string -> res json;
  protojson_Unmarshal : json -> res ProtoCrawlJobConfig;
  protojson_Marshal : option ProtoCrawlJob -> res json;
  json_Decode_value s j : unmarshal s = Some j -> json_Decode s = Ok j }.

Definition FileTypePages : string := "pages".
Definition FileTypeResult : string := "result".
Definition FileTypeExportJSON : string := "json".
Definition FileTypeExportCSV : string := "csv".
Definition URLExpirationMinutes : Z := 10.

Definition not_found (msg : string) : gerror := status_Error "NotFound" msg.

(** The [switch] on the type of file of a task, with the errors of its caller. *)
Definition task_object_key (missing bad : string -> gerror) (fileType : string) (task : CrawlTask)
  : res string :=
  if decide (fileType = FileTypePages) then
    if decide (MinioObjectKey task = "")
    then Err (missing "HTML page file not available for this task")
    else Ok (MinioObjectKey task)
  else if decide (fileType = FileTypeResult) then
    match ResultObjectKey task with
    | Some key => if decide (key = "") then Err (missing "result file not available for this task")
                  else Ok key
    | None => Err (missing "result file not available for this task")
    end
  else Err (bad fileType).

Definition job_object_key (fileType : string) (job : CrawlJob) : res string :=
  let available key what :=
    match key with
    | Some key => if decide (key = "")
                  then Err (not_found (what +:+ " export not available for this job")) else Ok key
    | None => Err (not_found (what +:+ " export not available for this job"))
    end in
  if decide (fileType = FileTypeExportJSON) then available (ExportJSONKey job) "JSON"
  else if decide (fileType = FileTypeExportCSV) then available (ExportCSVKey job) "CSV"
  else Err (status_Error "InvalidArgument"
              ("invalid file_type: " +:+ fileType +:+ " (must be 'json' or 'csv')")).

Record FileURLResponse := { fu_url : string; fu_expires_in_seconds : Z }.

(** [CrawlJobImplementation]: the queues it was built with, and the bucket of its URLs. *)
Record CrawlJobImplementation := { availableQueues : list string; bucketName : string }.

Section Api.
Context `{Env, JsonLib, PresignLib}.
Context (i : CrawlJobImplementation).

(** ** contentstore/minio_store.go *)

Definition PresignGetURL (key : string) (ttlMinutes : Z) : M (res string) :=
  try url <- observe (fun n => PresignedGetObject n (bucketName i) key (wraps 64 (ttlMinutes * Minute)))
    else e => ret_err (Errorf ("failed to generate presigned URL for " +:+ key) e);
  ret_ok url.

(** ** service/crawl_task *)

Definition GetTask (id : string) : M (res CrawlTask) :=
  try taskID <- lift_res (NewID id) else e => ret_err (Errorf "invalid task ID" e);
  try task <- Task_Get taskID else e => ret_err (Errorf "failed to get crawl task" e);
  ret_ok task.

Definition GetTaskAnalytics (jobID : string) : M (res TaskAnalytics) :=
  try jobID <- lift_res (NewCrawlJobID jobID) else e => ret_err (Errorf "invalid job ID" e);
  try analytics <- Task_GetAnalyticsByJob jobID
    else e => ret_err (Errorf "failed to get task analytics" e);
  ret_ok analytics.

(** ** api/crawl_job *)

Definition API_CreateJob (ctx : call_context) (config : option ProtoCrawlJobConfig)
  : M (res string) :=
  match user_id ctx with
  | None => ret_err (status_Error "Unauthenticated" "missing user id in context")
  | Some userID =>
      if decide (userID = "")
      then ret_err (status_Error "Unauthenticated" "missing user id in context")
      else
        try id <- CreateCrawlJob {| CmdUserID := userID; CmdConfig := FromProtoCrawlJobConfig config;
                                    AvailableQueues := availableQueues i |};
        ret_ok (value id)
  end.

Definition API_GetJob (id : string) : M (res (option ProtoCrawlJob)) :=
  try crawlJob <- GetCrawlJob id
    else e => (if errors_Is e "sql.ErrNoRows" then ret_err (not_found "job not found")
               else ret_err e);
  ret_ok (ToProtoCrawlJob (Some crawlJob)).

Definition API_GetTask (id : string) : M (res (option ProtoCrawlTask)) :=
  try task <- GetTask id; ret_ok (ToProtoCrawlTask (Some task)).

Definition API_GetTaskAnalytics (jobID : string) : M (res TaskAnalytics) :=
  try analytics <- GetTaskAnalytics jobID;
  ret_ok {| StatusCounts := StatusCounts analytics; DepthCounts := DepthCounts analytics;
            TotalCount := TotalCount analytics |}.

(** The URL of an object, or the status the handlers answer. *)
Definition file_url (objectKey : string) : M (res FileURLResponse) :=
  try url <- PresignGetURL objectKey URLExpirationMinutes
    else e => ret_err (status_Error "Internal" ("failed to generate presigned URL: " +:+ Error e));
  ret_ok {| fu_url := url; fu_expires_in_seconds := wraps 32 (URLExpirationMinutes * 60) |}.

Definition API_GetTaskFileURL (taskID fileType : string) : M (res FileURLResponse) :=
  try task <- GetTask taskID else e => ret_err (not_found ("task not found: " +:+ Error e));
  try objectKey <- lift_res (task_object_key not_found
    (fun t => status_Error "InvalidArgument"
                ("invalid file_type: " +:+ t +:+ " (must be 'pages' or 'result')")) fileType task);
  file_url objectKey.

Definition API_GetTaskFileURLByJobID (jobID : CrawlJobID) (taskID fileType : string)
  : M (res string) :=
  try task <- GetTask taskID else e => ret_err (Errorf "task not found" e);
  if negb (bool_decide (JobID task = jobID))
  then ret_err (ENew ("task " +:+ taskID +:+ " does not belong to job " +:+ value jobID))
  else
    try objectKey <- lift_res (task_object_key ENew (fun t => ENew ("invalid file_type: " +:+ t))
                                 fileType task);
    PresignGetURL objectKey URLExpirationMinutes.

Definition API_GetJobExportFileURL (jobID fileType : string) : M (res FileURLResponse) :=
  try job <- GetCrawlJob jobID else e => ret_err (not_found ("job not found: " +:+ Error e));
  try objectKey <- lift_res (job_object_key fileType job);
  file_url objectKey.

End Api.

(** ** The HTTP routes of [app] *)

Record http_response := { hr_status : Z; hr_body : json }.

Definition StatusOK : Z := 200.
Definition StatusBadRequest : Z := 400.
Definition StatusUnauthorized : Z := 401.
Definition StatusForbidden : Z := 403.
Definition StatusNotFound : Z := 404.
Definition StatusInternalServerError : Z := 500.

Definition writeJSONError (code : Z) (msg : string) : http_response :=
  {| hr_status := code; hr_body := JObj [("error", JStr msg)] |}.

Definition answer (r : http_response) : M http_response := mret r.

(** [json.Unmarshal] into a [QueueWeight], its error ignored: the fields of another type or out of
    range keep their zero values. *)
Definition lenient_weight (j : json) : QueueWeight :=
  match j with
  | JObj fs =>
      {| Queue := match lookup_field "queue" fs with JStr s => s | _ => "" end;
         Weight := match lookup_field "weight" fs with
                   | JInt z => if (0 <=? z) && (z <? 2 ^ 32) then z else 0
                   | _ => 0
                   end |}
  | _ => {| Queue := ""; Weight := 0 |}
  end.

Definition queue_weights_of (config : json) : list QueueWeight :=
  match config with
  | JObj fs => match lookup_field "queue_weights" fs with
               | JArr l => lenient_weight <$> l
               | _ => []
               end
  | _ => []
  end.

Definition has_field (k : string) (fs : list (string * json)) : bool :=
  existsb (fun p => fold_eq k p.1) fs.

Definition with_weights (ws : list QueueWeight) (c : CrawlJobConfig) : CrawlJobConfig :=
  {| CfgID := CfgID c; CfgUserID := CfgUserID c; CfgName := CfgName c;
     CfgExtractionSpec := CfgExtractionSpec c; Scopes := Scopes c; Seeds := Seeds c;
     RateLimit := RateLimit c; Retries := Retries c; Auth := Domain.Auth c;
     Schedule := Schedule c; CfgJobType := CfgJobType c; RespectRobotsTxt := RespectRobotsTxt c;
     CfgCrawlMode := CfgCrawlMode c; QueueWeights := ws |}.

(** [m[k]] of a decoded object, and [m[k] = v]. *)
Definition member (k : string) (j : json) : option json :=
  match j with
  | JObj fs => match list_find (fun p => p.1 = k) fs with
               | Some (_, p) => Some p.2
               | None => None
               end
  | _ => None
  end.

Definition set_member (k : string) (v j : json) : json :=
  match j with
  | JObj fs => JObj (filter (fun p => p.1 <> k) fs ++ [(k, v)])
  | _ => j
  end.

Definition is_map (j : json) : bool := match j with JObj _ => true | _ => false end.

(** The injection of the weights into [job.job_config], when both are there. *)
Definition inject_weights (job : CrawlJob) (resp : json) : json :=
  match JobConfig job with
  | Some config =>
      if bool_decide (QueueWeights config = []) then resp
      else
        match member "job" resp with
        | Some jobMap =>
            match member "job_config" jobMap with
            | Some configMap =>
                if is_map jobMap && is_map configMap then
                  set_member "job" (set_member "job_config"
                    (set_member "queue_weights" (JArr (json_of_weight <$> QueueWeights config))
                       configMap) jobMap) resp
                else resp
            | None => resp
            end
        | None => resp
        end
  | None => resp
  end.

Section Http.
Context `{Env, HttpLib, JwtLib}.
Context (s : JWTService) (now : Z) (queues : list string).

(** The claims, or the error that was written. *)
Definition verifyAuth (authHeader : string) (minRole : Role) : http_response + Claims :=
  match SplitN2 authHeader " "%char with
  | [scheme; token] =>
      if decide (ToLower scheme = "bearer") then
        match VerifyToken s now token with
        | Err _ => inl (writeJSONError StatusUnauthorized "invalid or expired token")
        | Ok claims =>
            match ParseRole (cl_Role claims) with
            | Err _ => inl (writeJSONError StatusForbidden "access denied")
            | Ok role =>
                if Level role <? Level minRole
                then inl (writeJSONError StatusForbidden "access denied")
                else inr claims
            end
        end
      else inl (writeJSONError StatusUnauthorized "missing or invalid authorization header")
  | _ => inl (writeJSONError StatusUnauthorized "missing or invalid authorization header")
  end.

Definition deleteJobHandler (authHeader id : string) : M http_response :=
  match verifyAuth authHeader RoleReadWrite with
  | inl w => answer w
  | inr _ =>
      if decide (id = "") then answer (writeJSONError StatusBadRequest "missing job id")
      else
        r ← DeleteCrawlJob id;
        answer (match r with
                | Err e => writeJSONError StatusInternalServerError (Error e)
                | Ok _ => {| hr_status := StatusOK; hr_body := JObj [] |}
                end)
  end.

Definition crawlQueuesHandler (authHeader : string) : http_response :=
  match verifyAuth authHeader RoleRead with
  | inl w => w
  | inr _ => {| hr_status := StatusOK; hr_body := JObj [("queues", JArr (JStr <$> queues))] |}
  end.

(** [envelope.Config], when the body has it. *)
Definition read_envelope (body : string) : http_response + json :=
  match (j ← json_Decode body; as_object j) with
  | Err e => inl (writeJSONError StatusBadRequest ("invalid request body: " +:+ Error e))
  | Ok fs => if has_field "config" fs then inr (lookup_field "config" fs)
             else inl (writeJSONError StatusBadRequest "missing config field")
  end.

(** The weights count only where there is a choice of queues. *)
Definition posted_config (raw : json) (protoConfig : ProtoCrawlJobConfig) : CrawlJobConfig :=
  let config := FromProtoCrawlJobConfig (Some protoConfig) in
  if (1 <? length queues)%nat then with_weights (queue_weights_of raw) config else config.

Definition createJobHandler (authHeader body : string) : M http_response :=
  match verifyAuth authHeader RoleReadWrite with
  | inl w => answer w
  | inr claims =>
      match read_envelope body with
      | inl w => answer w
      | inr raw =>
          match protojson_Unmarshal raw with
          | Err e => answer (writeJSONError StatusBadRequest ("invalid config: " +:+ Error e))
          | Ok protoConfig =>
              r ← CreateCrawlJob {| CmdUserID := cl_UserID claims;
                                    CmdConfig := posted_config raw protoConfig;
                                    AvailableQueues := queues |};
              answer (match r with
                      | Err e => writeJSONError StatusInternalServerError (Error e)
                      | Ok id => {| hr_status := StatusOK; hr_body := JObj [("id", JStr (value id))] |}
                      end)
          end
      end
  end.

Definition getJobHandler (authHeader id : string) : M http_response :=
  match verifyAuth authHeader RoleRead with
  | inl w => answer w
  | inr _ =>
      if decide (id = "") then answer (writeJSONError StatusBadRequest "missing job id")
      else
        r ← GetCrawlJob id;
        answer (match r with
        | Err e => writeJSONError StatusNotFound (Error e)
        | Ok job =>
            match protojson_Marshal (ToProtoCrawlJob (Some job)) with
            | Err e => writeJSONError StatusInternalServerError
                         ("failed to marshal response: " +:+ Error e)
            | Ok j =>
                match through_any j with
                | JObj fs => {| hr_status := StatusOK; hr_body := inject_weights job (JObj fs) |}
                | _ => writeJSONError StatusInternalServerError "failed to process response"
                end
            end
        end)
  end.

End Http.

(** ** The HTTP routes decide as the interceptors do *)

Definition bearer_md (authHeader : string) : option (gmap string (list string)) :=
  Some {[ "authorization" := [authHeader] ]}.

Definition as_caller (c : Claims) : call_context :=
  {| user_id := Some (cl_UserID c); user_role := Some (cl_Role c) |}.

(** The status of a route and the code of a call for the same refusal. *)
Definition same_refusal (w : http_response) (e : gerror) : Prop :=
  (hr_status w = StatusUnauthorized /\ exists m, e = Unauthenticated m)
  \/ (hr_status w = StatusForbidden /\ exists m, e = PermissionDenied m).

Section Routes.
Context `{Env, HttpLib, JwtLib}.

(** A method that needs a role is not public. *)
Lemma required_not_public method role :
  requiredRoleForMethod method = Some role -> isPublicEndpoint method = false.
Proof.
  intros Hr. unfold isPublicEndpoint. apply not_true_iff_false. intros Hp.
  apply existsb_exists in Hp as (m & Hm & E). apply bool_decide_eq_true in E. subst m.
  unfold publicEndpoints in Hm. simpl in Hm.
  decompose [or] Hm; subst; done.
Qed.

Lemma SplitN2_cases s c : (exists x y, SplitN2 s c = [x; y]) \/ SplitN2 s c = [s].
Proof. unfold SplitN2. destruct (cut_at c [] (bytes_of s)) as [[a b]|]; [left|right]; eauto. Qed.

#[local] Arguments isPublicEndpoint : simpl never.

Lemma verifyAuth_serves s now header role method :
  requiredRoleForMethod method = Some role ->
  match verifyAuth s now header role, serve_call s now (bearer_md header) method with
  | inr claims, Ok ctx => ctx = as_caller claims
  | inl w, Err e => same_refusal w e
  | _, _ => False
  end.
Proof.
  intros Hr. pose proof (required_not_public _ _ Hr) as Hp.
  unfold verifyAuth, serve_call, JWTAuthInterceptor, RBACInterceptor, bearer_md,
    extractTokenFromMetadata. rewrite !Hp, lookup_singleton_eq. simpl.
  assert (Hu : same_refusal (writeJSONError StatusUnauthorized "missing or invalid authorization header")
                 (Unauthenticated "missing or invalid authorization header"))
    by (left; split; [done|by eexists]).
  destruct (SplitN2_cases header " "%char) as [(x & y & ->)| ->]; [|exact Hu].
  case_decide; [|exact Hu].
  destruct (VerifyToken s now y) as [claims|e]; simpl; [|left; split; [done|by eexists]].
  destruct (ParseRole (cl_Role claims)) as [r|e]; simpl; [|right; split; [done|by eexists]].
  rewrite Hr. destruct (Level r <? Level role); [right; split; [done|by eexists]|done].
Qed.

Lemma answer_state (r : http_response) a o b : answer r a = (o, b) -> b = a.
Proof. by intros [= _ <-]. Qed.

(** The routes outside of the gRPC server are guarded as its methods are.  For a method that
    needs a role, the check of the routes accepts an Authorization header exactly when the chain of
    interceptors serves a call of the method with this header, for the same user and role, and
    refuses with 401 where the chain says Unauthenticated and 403 where it says PermissionDenied;
    a request to create or delete a job that changes anything is one that CreateJob would have been
    served for. *)
Theorem routes_guarded s now queues header :
  (forall method role, requiredRoleForMethod method = Some role ->
     match verifyAuth s now header role, serve_call s now (bearer_md header) method with
     | inr claims, Ok ctx => ctx = as_caller claims
     | inl w, Err e => same_refusal w e
     | _, _ => False
     end)
  /\ (forall arg a o b,
        createJobHandler s now queues header arg a = (o, b)
        \/ deleteJobHandler s now header arg a = (o, b) ->
        b = a \/ exists claims,
          serve_call s now (bearer_md header) "/crawler.v1.CrawlerService/CreateJob"
          = Ok (as_caller claims)).
Proof.
  split; [intros; by apply verifyAuth_serves|]. intros arg a o b E.
  pose proof (verifyAuth_serves s now header RoleReadWrite
                "/crawler.v1.CrawlerService/CreateJob" eq_refl) as Hv.
  destruct (verifyAuth s now header RoleReadWrite) as [w|claims] eqn:Ev.
  - left. unfold createJobHandler, deleteJobHandler in E. rewrite Ev in E.
    destruct E as [E|E]; by apply answer_state in E.
  - right. exists claims. destruct (serve_call _ _ _ _) as [ctx|e]; [by f_equal|done].
Qed.

End Routes.

(** ** Presigned URLs *)

Section Urls.
Context `{Env, JsonLib, PresignLib}.
Context (i : CrawlJobImplementation).

(** [url] is a link of ten minutes to the object [key]. *)
Definition link_to (key url : string) : Prop :=
  key <> "" /\ exists n, PresignedGetObject n (bucketName i) key (10 * Minute) = Ok url.

Definition task_file (r : CrawlTaskSnapshot) (fileType : string) : option string :=
  if decide (fileType = FileTypePages) then Some (ts_MinioObjectKey r)
  else if decide (fileType = FileTypeResult) then ts_ResultObjectKey r else None.

Definition job_file (r : CrawlJobSnapshot) (fileType : string) : option string :=
  if decide (fileType = FileTypeExportJSON) then js_ExportJSONKey r
  else if decide (fileType = FileTypeExportCSV) then js_ExportCSVKey r else None.

Lemma same_store_trans a b c : same_store a b -> same_store b c -> same_store a c.
Proof. intros (?&?&?&?) (?&?&?&?). repeat split; congruence. Qed.

Lemma PresignGetURL_ok key a url b :
  key <> "" -> PresignGetURL i key URLExpirationMinutes a = (Ret (Ok url), b) ->
  same_store a b /\ link_to key url.
Proof.
  intros Hk. unfold PresignGetURL, try_bind.
  rewrite (bind_ret _ _ _ _ _ (observe_ret _ _)).
  destruct (PresignedGetObject _ _ _ _) as [u|e] eqn:E; [|done]. intros [= <- <-].
  split; [done|]. split; [done|]. by eexists.
Qed.

Lemma file_url_ok key a resp b :
  key <> "" -> file_url i key a = (Ret (Ok resp), b) ->
  same_store a b /\ link_to key (fu_url resp) /\ fu_expires_in_seconds resp = 600.
Proof.
  intros Hk E. unfold file_url in E. apply try_ok in E as (u & a1 & E1 & [= <- <-]).
  destruct (PresignGetURL_ok _ _ _ _ Hk E1) as [Hs Hl]. done.
Qed.

Lemma GetTask_ok id t a b :
  GetTask id a = (Ret (Ok t), b) -> tx a = None ->
  same_store a b /\ exists r, r ∈ tasks (db a) /\ ts_ID r = id /\ r = SaveCrawlTaskToSnapshot t.
Proof.
  intros E Ht. unfold GetTask in E. apply try_ok in E as (tid & a1 & E1 & E).
  injection E1 as Ei <-. apply try_ok in E as (t' & a2 & E2 & E). injection E as -> <-.
  destruct (Task_Get_id _ _ _ _ E2 Ht) as (Hid & _ & Hin). destruct (NewID_ok _ _ Ei) as (-> & _).
  split; [|exists (SaveCrawlTaskToSnapshot t); split; [done|split; [simpl; by rewrite Hid|done]]].
  destruct (Task_Get_runs (MkID id) a Ht) as (r & b' & E' & Hs & _).
  rewrite E2 in E'. by injection E' as _ <-.
Qed.

Lemma GetCrawlJob_ok id j a b :
  GetCrawlJob id a = (Ret (Ok j), b) -> tx a = None ->
  same_store a b /\ exists r, r ∈ jobs (db a) /\ js_ID r = id
    /\ ExportJSONKey j = js_ExportJSONKey r /\ ExportCSVKey j = js_ExportCSVKey r.
Proof.
  intros E Ht. unfold GetCrawlJob in E. apply try_ok' in E as (jid & a1 & E1 & E).
  injection E1 as Ei <-. unfold NewCrawlJobID in Ei. apply res_bind_Ok in Ei as (i' & Ei & [= <-]).
  destruct (NewID_ok _ _ Ei) as (-> & _). unfold Job_Get, query_job in E.
  match type of E with scan_one ?f ?g _ = _ =>
    destruct (scan_one_out f g a Ht) as (r & b' & E' & Hs & Hr) end.
  rewrite E in E'. injection E' as <- <-. split; [done|].
  destruct (Hr j eq_refl) as (row & Hh & Er). apply head_Some_elem_of in Hh.
  apply list_elem_of_fmap in Hh as (x & -> & Hx). apply elem_of_limit_rows in Hx.
  apply elem_of_bfilter in Hx as [Hid Hx]. unfold is_job in Hid. apply bool_decide_eq_true in Hid.
  exists x. split; [done|]. split; [done|].
  apply res_bind_Ok in Er as (snap & Es & Er). unfold scanCrawlJobWithConfig, join_config in Es.
  simpl in Es. destruct (job_config_row (db a) x); [|done]. injection Es as <-.
  unfold RestoreCrawlJobFromSnapshot in Er.
  apply res_bind_Ok in Er as (? & _ & Er). apply res_bind_Ok in Er as (? & _ & Er).
  apply res_bind_Ok in Er as (? & _ & Er). apply res_bind_Ok in Er as (? & _ & [= <-]). done.
Qed.

Lemma task_object_key_ok missing bad fileType t key :
  task_object_key missing bad fileType t = Ok key ->
  key <> "" /\ task_file (SaveCrawlTaskToSnapshot t) fileType = Some key.
Proof.
  unfold task_object_key, task_file, SaveCrawlTaskToSnapshot. simpl.
  destruct (ResultObjectKey t); repeat case_decide; intros E; simplify_eq; done.
Qed.

Lemma job_object_key_ok fileType j key :
  job_object_key fileType j = Ok key ->
  key <> "" /\ (if decide (fileType = FileTypeExportJSON) then ExportJSONKey j
                else if decide (fileType = FileTypeExportCSV) then ExportCSVKey j else None)
               = Some key.
Proof.
  unfold job_object_key. destruct (ExportJSONKey j), (ExportCSVKey j); repeat case_decide;
    intros E; simplify_eq; done.
Qed.

(** C21: a download link leads to a file of the row it was asked for.  When one of the three
    handlers answers with a URL, the store, the tables and the messages are as before, there is a row
    with the given identifier (of the given job, where the handler is told one), and the URL is the
    presigned link, valid for the ten minutes the answer says, to the non-empty object key that row
    has for the type of file asked for. *)
Theorem links_lead_to_row_files a :
  tx a = None ->
  (forall id ty resp b, API_GetTaskFileURL i id ty a = (Ret (Ok resp), b) ->
     same_store a b /\ fu_expires_in_seconds resp = 600
     /\ exists r key, r ∈ tasks (db a) /\ ts_ID r = id /\ task_file r ty = Some key
                      /\ link_to key (fu_url resp))
  /\ (forall job id ty url b, API_GetTaskFileURLByJobID i job id ty a = (Ret (Ok url), b) ->
     same_store a b
     /\ exists r key, r ∈ tasks (db a) /\ ts_ID r = id /\ ts_JobID r = value job
                      /\ task_file r ty = Some key /\ link_to key url)
  /\ (forall id ty resp b, API_GetJobExportFileURL i id ty a = (Ret (Ok resp), b) ->
     same_store a b /\ fu_expires_in_seconds resp = 600
     /\ exists r key, r ∈ jobs (db a) /\ js_ID r = id /\ job_file r ty = Some key
                      /\ link_to key (fu_url resp)).
Proof.
  intros Ht. split; [|split].
  - intros id ty resp b E. unfold API_GetTaskFileURL in E.
    apply try_ok in E as (t & a1 & E1 & E). apply try_ok' in E as (key & a2 & E2 & E).
    injection E2 as E2 <-. destruct (GetTask_ok _ _ _ _ E1 Ht) as (Hs & r & Hr & Hid & ->).
    destruct (task_object_key_ok _ _ _ _ _ E2) as [Hk Hf].
    destruct (file_url_ok _ _ _ _ Hk E) as (Hs' & Hl & Hx).
    split; [by eapply same_store_trans|]. split; [done|]. by eexists _, key.
  - intros job id ty url b E. unfold API_GetTaskFileURLByJobID in E.
    apply try_ok in E as (t & a1 & E1 & E). case_bool_decide as Hj; [|done]. simpl in E.
    apply try_ok' in E as (key & a2 & E2 & E).
    injection E2 as E2 <-. destruct (GetTask_ok _ _ _ _ E1 Ht) as (Hs & r & Hr & Hid & ->).
    destruct (task_object_key_ok _ _ _ _ _ E2) as [Hk Hf].
    destruct (PresignGetURL_ok _ _ _ _ Hk E) as (Hs' & Hl).
    split; [by eapply same_store_trans|]. eexists _, key.
    split; [done|]. split; [done|]. split; [by rewrite <- Hj|]. by split.
  - intros id ty resp b E. unfold API_GetJobExportFileURL in E.
    apply try_ok in E as (j & a1 & E1 & E). apply try_ok' in E as (key & a2 & E2 & E).
    injection E2 as E2 <-. destruct (GetCrawlJob_ok _ _ _ _ E1 Ht) as (Hs & r & Hr & Hid & Ej & Ec).
    destruct (job_object_key_ok _ _ _ E2) as [Hk Hf]. rewrite Ej, Ec in Hf.
    destruct (file_url_ok _ _ _ _ Hk E) as (Hs' & Hl & Hx).
    split; [by eapply same_store_trans|]. split; [done|]. by eexists r, key.
Qed.

End Urls.

(** ** Concrete runs *)

#[local] Existing Instances any_uuid plain_env plain_json.
#[local] Instance demo_presign : PresignLib :=
  {| PresignedGetObject _ bucket key _ := Ok ("http://s3/" +:+ bucket +:+ "/" +:+ key) |}.

Definition demo_impl : CrawlJobImplementation :=
  {| availableQueues := ["crawl"]; bucketName := "pages" |}.

(** The demonstration job with its seed task fetched. *)
Definition demo_fetched : world :=
  {| db := upd_tasks (fun _ => [SaveCrawlTaskToSnapshot
             (MarkAsFetched "http://a.b/" "raw/t1.html" (demo_task TaskStatusInProgress))]) demo_db;
     tx := None; objects := ∅; published := []; ticks := 0 |}.

Lemma links_lead_to_row_files_witness :
  exists resp b,
    API_GetTaskFileURL demo_impl "t1" "pages" demo_fetched = (Ret (Ok resp), b)
    /\ fu_url resp = "http://s3/pages/raw/t1.html"
    /\ exists r key, r ∈ tasks (db demo_fetched) /\ ts_ID r = "t1"
                     /\ task_file r "pages" = Some key /\ link_to demo_impl key (fu_url resp).
Proof.
  destruct (links_lead_to_row_files demo_impl demo_fetched eq_refl) as [Hw _].
  assert (E : exists b, API_GetTaskFileURL demo_impl "t1" "pages" demo_fetched
    = (Ret (Ok {| fu_url := "http://s3/pages/raw/t1.html"; fu_expires_in_seconds := 600 |}), b))
    by (eexists; vm_compute; reflexivity).
  destruct E as [b E]. destruct (Hw _ _ _ _ E) as (_ & _ & Hx).
  eexists _, b. split; [exact E|]. split; [reflexivity|]. exact Hx.
Defined.

(** A job that is not there: the handler looks for the error of [database/sql], which the client of
    the database does not return, so the call ends with code Unknown. *)
Example unknown_job_is_not_NotFound :
  fst (API_GetJob "zz" demo_fetched) = Ret (Err ErrNoRows).
Proof. vm_compute. reflexivity. Qed.

#[local] Instance demo_http : HttpLib.
Proof.
  refine {| json_Decode s := match unmarshal s with Some j => Ok j | None => Err (ENew "EOF") end;
            protojson_Unmarshal _ := Err (ENew "proto: syntax error");
            protojson_Marshal _ := Ok (JObj []) |}.
  by intros s j ->.
Defined.

Definition demo_bearer : string := "Bearer " +:+ AccessToken demo_tokens.

Lemma routes_guarded_witness :
  exists claims, verifyAuth (jwtService demo_auth) 0 demo_bearer RoleReadWrite = inr claims
    /\ serve_call (jwtService demo_auth) 0 (bearer_md demo_bearer)
         "/crawler.v1.CrawlerService/CreateJob" = Ok (as_caller claims).
Proof.
  destruct (routes_guarded (jwtService demo_auth) 0 ["crawl"] demo_bearer) as [Hg _].
  specialize (Hg "/crawler.v1.CrawlerService/CreateJob" RoleReadWrite eq_refl).
  assert (E : exists claims, verifyAuth (jwtService demo_auth) 0 demo_bearer RoleReadWrite = inr claims)
    by (eexists; vm_compute; reflexivity).
  destruct E as [claims E]. exists claims. split; [exact E|]. rewrite E in Hg.
  destruct (serve_call _ _ _ _) as [ctx|e]; [|destruct Hg]. by rewrite Hg.
Defined.
