(* ===== verification/Preview.v ===== *)
(** * Previews

    [service/preview] and [api/preview]: a page is fetched, sanitized and stored under a fresh key;
    its row keeps a presigned link that is made once, at creation.  The sanitizer (bluemonday with
    the policy of [infra/services/sanitizer]) is a parameter; the fetcher is that of
    [FetchServices]. *)

From S2P Require Import Prelude GoStrings Domain Json Converters World Sql Repos FetchWorker Proto Api.

(** [policy.SanitizeBytes]. *)
Class Sanitizer := { SanitizeBytes : string -> string }.

Record CreatePreviewCommand := { PcURL : string; PcAuth : AuthOptions }.

Definition UrlTTL : Z := 60.
Definition html_type : string := "text/html; charset=utf-8".
Definition preview_key (id : string) : string := "previews/" +:+ id +:+ ".html".

Record ProtoPreview := {
  pb_PvId : string; pb_SourceUrl : string; pb_PvFinalUrl : option string; pb_MinioKey : string;
  pb_PvContentType : string; pb_DownloadUrl : string; pb_PvCreatedAt : Z;
  pb_ExpiresAt : option Z }.

Section Preview.
Context `{FetchServices, JsonLib, PresignLib, Sanitizer}.
Context (i : CrawlJobImplementation) (retryPolicy : RetryPolicy).

(** ** service/preview/create_preview.go *)

Definition new_preview (id : ID) (cmd : CreatePreviewCommand) (fetchResult : FetchResult)
    (minioKey downloadURL : string) (now : Z) : Preview :=
  {| PvID := id; SourceURL := PcURL cmd;
     PvFinalURL := if bool_decide (ResFinalURL fetchResult = PcURL cmd) then None
                   else Some (ResFinalURL fetchResult);
     MinioKey := minioKey; PvContentType := html_type; DownloadURL := downloadURL;
     PvCreatedAt := now; ExpiresAt := None |}.

Definition with_preview_id (id : ID) (p : Preview) : Preview :=
  {| PvID := id; SourceURL := SourceURL p; PvFinalURL := PvFinalURL p; MinioKey := MinioKey p;
     PvContentType := PvContentType p; DownloadURL := DownloadURL p; PvCreatedAt := PvCreatedAt p;
     ExpiresAt := ExpiresAt p |}.

Definition preview_body (cmd : CreatePreviewCommand) (fetchResult : FetchResult)
    (previewID : string) : M (res Preview) :=
  let minioKey := preview_key previewID in
  try _ <- Store minioKey (SanitizeBytes (Body fetchResult))
    else e => ret_err (Errorf "failed to store HTML in MinIO" e);
  try downloadURL <- PresignGetURL i minioKey UrlTTL
    else e => ret_err (Errorf "failed to generate presigned URL" e);
  now ← time_Now;
  let preview := new_preview (MkID previewID) cmd fetchResult minioKey downloadURL now in
  try createdID <- Preview_Create preview
    else e => ret_err (Errorf "failed to create preview" e);
  ret_ok (with_preview_id createdID preview).

Definition CreatePreview (cmd : CreatePreviewCommand) : M (res Preview) :=
  try fetchResult <- fetcher_Fetch (PcAuth cmd) retryPolicy (PcURL cmd)
    else e => ret_err (Errorf ("failed to fetch URL " +:+ PcURL cmd) e);
  previewID ← uuid_New;
  ReadCommitted (preview_body cmd fetchResult previewID).

(** ** service/preview/get_preview.go *)

Definition GetPreview (id : string) : M (res Preview) :=
  try previewID <- lift_res (NewID id) else e => ret_err (Errorf "invalid preview_id" e);
  try preview <- Preview_Get previewID else e => ret_err (Errorf "failed to get preview" e);
  ret_ok preview.

(** ** api/preview *)

(** [cookies] are the values of [x-preview-cookie] in the metadata of the call. *)
Definition API_CreatePreview (cookies : list string) (url : string) : M (res string) :=
  let cookie := match cookies with c :: _ => TrimSpace c | [] => "" end in
  try preview <- CreatePreview
    {| PcURL := url;
       PcAuth := {| Cookie := cookie; BasicUser := ""; BasicPassword := ""; BearerToken := "" |} |};
  ret_ok (value (PvID preview)).

Definition ToProtoPreview (preview : Preview) : ProtoPreview :=
  {| pb_PvId := value (PvID preview); pb_SourceUrl := SourceURL preview;
     pb_PvFinalUrl := PvFinalURL preview; pb_MinioKey := MinioKey preview;
     pb_PvContentType := PvContentType preview; pb_DownloadUrl := DownloadURL preview;
     pb_PvCreatedAt := PvCreatedAt preview; pb_ExpiresAt := ExpiresAt preview |}.

Definition API_GetPreview (id : string) : M (res ProtoPreview) :=
  try preview <- GetPreview id; ret_ok (ToProtoPreview preview).

(** ** Lemmas *)

(** What the creation of [p] for [cmd] stores, when the page fetched is [fr]. *)
Definition preview_of (cmd : CreatePreviewCommand) (fr : FetchResult) (p : Preview) : Prop :=
  uuid_Parse (value (PvID p)) = true /\ value (PvID p) <> ""
  /\ MinioKey p = preview_key (value (PvID p)) /\ SourceURL p = PcURL cmd
  /\ PvFinalURL p = (if bool_decide (ResFinalURL fr = PcURL cmd) then None
                     else Some (ResFinalURL fr))
  /\ PvContentType p = html_type /\ ExpiresAt p = None
  /\ exists n, PresignedGetObject n (bucketName i) (MinioKey p) (60 * Minute) = Ok (DownloadURL p).

Definition row_added (p : Preview) (d d' : database) : Prop :=
  d' = upd_previews (fun l => l ++ [SavePreviewToSnapshot p]) d
  /\ Forall (fun r => ps_ID r <> value (PvID p)) (previews d).

Lemma Preview_Create_ok p a id b :
  uuid_Parse (value (PvID p)) = true -> value (PvID p) <> "" ->
  Preview_Create p a = (Ret (Ok id), b) ->
  id = PvID p /\ row_added p (db a) (db b) /\ objects b = objects a.
Proof.
  intros Hu Hn E. unfold Preview_Create in E. apply try_ok' in E as (s & a1 & E1 & E2).
  apply stmt_ok in E1 as (_ & d & E1 & ->). apply res_bind_Ok in E1 as ([] & Eg & [= <- <-]).
  unfold lift_res, mret, M_ret in E2. injection E2 as E2 <-.
  change (ps_ID (SavePreviewToSnapshot p)) with (value (PvID p)) in *.
  rewrite NewID_value in E2 by done. injection E2 as <-.
  split; [done|]. split; [|done]. split; [done|].
  unfold guard_ in Eg. destruct (negb _) eqn:Ex; [|done].
  apply Forall_forall. intros r Hr Er. pose proof (proj1 (not_existsb _ _) Ex r Hr) as Hx.
  by rewrite bool_decide_eq_false in Hx.
Qed.

Lemma preview_body_ok cmd fr u a p b :
  uuid_Parse u = true -> u <> "" ->
  preview_body cmd fr u a = (Ret (Ok p), b) ->
  preview_of cmd fr p /\ row_added p (db a) (db b)
  /\ objects b = <[MinioKey p := SanitizeBytes (Body fr)]> (objects a).
Proof.
  intros Hu Hn E. unfold preview_body in E.
  apply try_ok in E as ([] & a1 & E1 & E). apply call_ok in E1. injection E1 as ->.
  apply try_ok in E as (link & a2 & E2 & E).
  unfold PresignGetURL, try_bind in E2. rewrite (bind_ret _ _ _ _ _ (observe_ret _ _)) in E2.
  destruct (PresignedGetObject _ _ _ _) as [l|] eqn:El; [|done]. injection E2 as <- <-.
  unfold time_Now in E. rewrite (bind_ret _ _ _ _ _ (observe_ret _ _)) in E.
  apply try_ok in E as (id & a3 & E3 & E). apply Preview_Create_ok in E3 as (-> & Hrow & Ho); [|done..].
  injection E as <- <-. split; [|split; [exact Hrow|exact Ho]].
  repeat (split; [done|]). eexists. exact El.
Qed.

(** The objects a run of the body can leave. *)
Lemma preview_body_objects cmd fr u a :
  let b := (preview_body cmd fr u a).2 in
  published b = published a
  /\ (objects b = objects a
      \/ objects b = <[preview_key u := SanitizeBytes (Body fr)]> (objects a)).
Proof.
  destruct (call_out (fun w => (tt, put_object (preview_key u) (SanitizeBytes (Body fr)) w)) a)
    as (r & a1 & E1 & Ha1 & _).
  assert (Hrun : exists m : M (res Preview), keeps quiet m /\ preview_body cmd fr u a = m a1).
  { eexists. split; [|unfold preview_body, try_bind; by rewrite (bind_ret _ _ _ _ _ E1)].
    destruct r as [[]|e]; [|by apply keeps_ret; exact _].
    unfold PresignGetURL, Preview_Create, time_Now.
    keeps_steps (first [apply quiet_stmt|apply quiet_observe]). }
  destruct Hrun as (m & Hm & ->). destruct (Hm a1) as [Ho Hp]. cbv zeta. rewrite Ho, Hp.
  destruct Ha1 as [[_ ->]| ->]; split; auto.
Qed.

(** C22: Creating a preview, whatever fails: nothing but one row of the previews and one object under
    a fresh key can change.  On success both are there, the object is the sanitized page, the row
    holds a link of an hour to it and no expiry, and reading the preview answers the row.  On an
    error the database is as before (and at most the object is there), unless the error is that of
    the commit, whose answer was lost after it took effect: then both are there. *)
Theorem create_preview_outcome cmd a r b :
  tx a = None -> CreatePreview cmd a = (Ret r, b) ->
  tx b = None /\ published b = published a /\
  match r with
  | Ok p =>
      exists fr a1, fetcher_Fetch (PcAuth cmd) retryPolicy (PcURL cmd) a = (Ret (Ok fr), a1)
      /\ preview_of cmd fr p /\ row_added p (db a) (db b)
      /\ objects b = <[MinioKey p := SanitizeBytes (Body fr)]> (objects a)
      /\ (verdict_at (ticks b) = Succeeds ->
          GetPreview (value (PvID p)) b = (Ret (Ok p), set_db (db b) (tick b)))
  | Err e =>
      (db b = db a
       /\ (objects b = objects a
           \/ exists u s, objects b = <[preview_key u := SanitizeBytes s]> (objects a)))
      \/ (commit_lost b e /\ exists fr p, preview_of cmd fr p /\ row_added p (db a) (db b)
           /\ objects b = <[MinioKey p := SanitizeBytes (Body fr)]> (objects a))
  end.
Proof.
  intros Ht E. unfold CreatePreview in E.
  destruct (try_inv _ _ _ _ _ _ E) as [(fr & a1 & Ef & E1)|(e & a1 & Ef & E1)]; clear E.
  2: { injection E1 as <- <-. pose proof (service_run _ _ _ _ (fetcher_keeps _ _ _) Ef) as (Hd&Hx&Ho&Hp).
       split; [congruence|]. split; [done|]. left. auto. }
  pose proof (service_run _ _ _ _ (fetcher_keeps _ _ _) Ef) as (Hd & Hx & Ho & Hp).
  unfold uuid_New in E1. rewrite (bind_ret _ _ _ _ _ (observe_ret _ _)) in E1.
  destruct (uuid_at_ok (ticks a1)) as [Hne Hu]. set (u := uuid_at (ticks a1)) in *.
  destruct (ReadCommitted_cases (preview_body cmd fr u) (tick a1)) as (r' & b' & E2 & Htx & Hc);
    [simpl; congruence|].
  rewrite E1 in E2. injection E2 as <- <-. split; [done|].
  destruct Hc as [[Hr ->]|(o & w1 & Eb & Hp1 & Ho1 & Hc)].
  { destruct r as [p|e]; [done|]. simpl. split; [done|]. left. auto. }
  pose proof (preview_body_objects cmd fr u (set_tx (Some false) (tick (tick a1)))) as [Hpb Hob].
  rewrite Eb in Hpb, Hob. simpl in Hpb, Hob.
  split; [congruence|].
  destruct r as [p|e].
  - destruct Hc as [[? _]|(p' & -> & Hr & _ & Hdb)]; [done|]. injection (Hr eq_refl) as <-.
    apply preview_body_ok in Eb as (Hpv & Hrow & Hobj); [|done..]. simpl in Hrow, Hobj.
    exists fr, a1. split; [done|]. split; [done|].
    assert (Hrow' : row_added p (db a) (db b)) by by rewrite Hdb, <-Hd.
    split; [exact Hrow'|]. split; [congruence|]. intros Hv.
    destruct Hrow' as [Erow Hnew]. destruct Hpv as (Hpu & Hpn & _).
    unfold GetPreview. unfold try_bind.
    erewrite (bind_ret _ _ b); [|by rewrite NewID_value]. cbv beta iota.
    assert (Eq : bfilter (fun q => bool_decide (ps_ID q = value (PvID p))) (previews (db b))
                 = [SavePreviewToSnapshot p]).
    { rewrite Erow. unfold bfilter. simpl. rewrite filter_app.
      replace (filter _ (previews (db a))) with (@nil PreviewSnapshot).
      - rewrite filter_cons, decide_True by (by apply bool_decide_eq_true). done.
      - symmetry. apply elem_of_nil_inv. intros x [Hx1 Hx2]%list_elem_of_filter.
        rewrite Forall_forall in Hnew. apply bool_decide_eq_true in Hx1. by apply (Hnew x). }
    assert (Eget : Preview_Get (PvID p) b = (Ret (Ok p), set_db (db b) (tick b))).
    { unfold Preview_Get, scan_one, try_bind, query.
      erewrite bind_ret; [|unfold stmt; simpl; rewrite Htx, Hv; reflexivity].
      cbv beta. rewrite Eq. simpl. unfold lift_res, mret, M_ret, RestorePreviewFromSnapshot. simpl.
      rewrite NewID_value by done. simpl. by destruct p. }
    by rewrite (bind_ret _ _ _ _ _ Eget).
  - destruct (ReadCommitted_err _ (tick a1) _ _ ltac:(simpl; congruence) E1)
      as [Hdb|(Hl & p & w2 & Eb2 & Hdb & _)].
    + left. split; [by rewrite Hdb|].
      rewrite Ho1. destruct Hob as [->| ->]; [by left|]. right. rewrite Ho. eauto.
    + right. split; [done|]. rewrite Eb in Eb2. injection Eb2 as -> ->.
      apply preview_body_ok in Eb as (Hpv & Hrow & Hobj); [|done..]. simpl in Hrow, Hobj.
      exists fr, p. split; [done|]. split; [by rewrite Hdb, <- Hd|congruence].
Qed.

End Preview.

(** ** A concrete preview *)

#[local] Existing Instances any_uuid plain_env plain_json plain_robots plain_services.
#[local] Instance demo_links : PresignLib :=
  {| PresignedGetObject n bucket key ttl := Ok ("http://store/" +:+ bucket +:+ "/" +:+ key) |}.
#[local] Instance no_scripts : Sanitizer := {| SanitizeBytes html := "<p>" +:+ html +:+ "</p>" |}.

Definition demo_implementation : CrawlJobImplementation :=
  {| availableQueues := []; bucketName := "pages" |}.
Definition demo_preview_command : CreatePreviewCommand :=
  {| PcURL := "http://a.b/";
     PcAuth := {| Cookie := ""; BasicUser := ""; BasicPassword := ""; BearerToken := "" |} |}.
Definition demo_policy : RetryPolicy :=
  {| MaxAttempts := 1; BackoffInitialMs := 0; BackoffMultiplier := 1 |}.

Lemma create_preview_outcome_witness :
  exists p b, CreatePreview demo_implementation demo_policy demo_preview_command (world_of demo_db)
              = (Ret (Ok p), b)
    /\ objects b !! MinioKey p = Some "<p><html></p>"
    /\ GetPreview (value (PvID p)) b = (Ret (Ok p), set_db (db b) (tick b)).
Proof.
  destruct (CreatePreview demo_implementation demo_policy demo_preview_command (world_of demo_db))
    as [[[p|e]|m] b] eqn:E; [|vm_compute in E; discriminate..].
  destruct (create_preview_outcome demo_implementation demo_policy demo_preview_command
              (world_of demo_db) (Ok p) b eq_refl E)
    as (_ & _ & fr & a1 & Ef & _ & _ & Ho & Hget).
  exists p, b. split; [done|]. split; [|apply Hget; reflexivity].
  injection Ef as <- _. rewrite Ho. apply lookup_insert_eq.
Defined.
