(* ===== verification/Fetcher.v ===== *)
(** * The HTTP fetcher

    [infra/services/fetcher/http_fetcher.go]: one GET with the options of the configuration, repeated
    with a growing back-off while its errors can be retried.  [net/http]'s client, what [errors.As]
    finds in its errors and the cancellation of the context are the class [HttpClient]; the rest is
    written out.  The fetcher and a rate limiter make the class [FetchServices] of the fetch
    worker. *)

From S2P Require Import Prelude GoStrings Domain Json Converters World Sql Repos GoUrl Scope.
From S2P Require Import FetchWorker GoNum Base64 GoFloat.
From stdpp Require Import pretty.
#[local] Open Scope Z_scope.

(** ** net/http *)

Record http_client := { Timeout : Z; max_redirects : Z }.

(** [Header.Set] keeps one value under the canonical name. *)
Record http_request := { rq_url : url; rq_headers : gmap string string }.

(** [hp_body] is what [io.ReadAll] of the body gives, through an [io.LimitReader] when a limit is
    given; [hp_url] is the URL after the redirects. *)
Record http_reply := {
  hp_body : option Z -> res string; hp_status : Z; hp_content_type : string; hp_url : string }.

(** [as_DNSError] and [as_urlError] are [errors.As] for [*net.DNSError] and [*url.Error] (the text
    of the latter); both look through [%w].  [ctx_done n d] says whether the context is done before
    a timer of [d]. *)
Class HttpClient := {
  http_Do : http_client -> nat -> http_request -> res http_reply;
  as_DNSError : gerror -> bool;
  as_urlError : gerror -> option string;
  ctx_done : nat -> Z -> bool;
  ctx_Err : nat -> gerror;
  as_DNSError_wrap p e q : as_DNSError (EWrap p e q) = as_DNSError e;
  as_urlError_wrap p e q : as_urlError (EWrap p e q) = as_urlError e;
  ctx_Err_cases n : Error (ctx_Err n) = "context canceled"
                    \/ Error (ctx_Err n) = "context deadline exceeded" }.

(** [base64.StdEncoding]: the digits 62 and 63 are [+] and [/]. *)
Definition StdEncodeToString (data : string) : string :=
  of_bytes ((fun c => if Ascii.eqb c "-" then "+"%char else if Ascii.eqb c "_" then "/"%char else c)
            <$> bytes_of (EncodeToString data)).

(** ** http_fetcher.go *)

Record HTTPFetcher := {
  httpClient : http_client; authOptions : AuthOptions; retryPolicy : RetryPolicy }.

Definition NewHTTPFetcher (auth : AuthOptions) (retry : RetryPolicy) : HTTPFetcher :=
  {| httpClient := {| Timeout := 60 * Second; max_redirects := 10 |}; authOptions := auth;
     retryPolicy := {| MaxAttempts := if MaxAttempts retry =? 0 then 1 else MaxAttempts retry;
                       BackoffInitialMs := BackoffInitialMs retry;
                       BackoffMultiplier := BackoffMultiplier retry |} |}.

Definition set_if (b : bool) (k v : string) (h : gmap string string) : gmap string string :=
  if b then <[k := v]> h else h.

(** The headers, in the order they are set: a bearer token replaces basic credentials. *)
Definition request_headers (a : AuthOptions) : gmap string string :=
  let given s := negb (bool_decide (s = "")) in
  set_if (given (BearerToken a)) "Authorization" ("Bearer " +:+ BearerToken a)
  (set_if (given (BasicUser a)) "Authorization"
     ("Basic " +:+ StdEncodeToString (BasicUser a +:+ ":" +:+ BasicPassword a))
  (set_if (given (Cookie a)) "Cookie" (Cookie a)
  {[ "User-Agent" := userAgent;
     "Accept" := "text/html,application/xhtml+xml,application/xml;q=0.9,*/*;q=0.8";
     "Accept-Language" := "ru-RU,ru;q=0.9,en-US;q=0.8,en;q=0.7" ]})).

Section Fetcher.
Context `{Env, HttpClient}.

Definition isRetryableError (err : gerror) : bool :=
  if as_DNSError err then false
  else if match as_urlError err with
          | Some text => Contains text "no such host" || Contains text "unsupported protocol scheme"
          | None => false
          end then false
  else negb (Contains (Error err) "connection refused").

(** [doFetch] at the [n]-th call. *)
Definition doFetch (f : HTTPFetcher) (rawURL : string) (n : nat) : res FetchResult :=
  match url_Parse rawURL with
  | Err e => Err (Errorf "failed to create request" e)
  | Ok u =>
      match http_Do (httpClient f) n {| rq_url := u; rq_headers := request_headers (authOptions f) |} with
      | Err e => Err (Errorf "failed to execute request" e)
      | Ok resp =>
          match hp_body resp None with
          | Err e => Err (Errorf "failed to read response body" e)
          | Ok body =>
              Ok {| Body := body; ResFinalURL := hp_url resp; StatusCode := hp_status resp;
                    ContentType := if bool_decide (hp_content_type resp = "") then "text/html"
                                   else hp_content_type resp |}
          end
      end
  end.

(** [time.Duration(float64(backoff) * multiplier)]. *)
Definition next_backoff (multiplier : float64) (backoff : Z) : Z :=
  match fmul (fl (inject_Z backoff)) (Some multiplier) with
  | Some q => int_of_float q
  | None => int64_min
  end.

Definition permanent_error (err : gerror) : gerror :=
  Errorf "permanent error (not retryable)" err.
Definition exhausted_error (attempts : Z) (err : gerror) : gerror :=
  Errorf ("failed after " +:+ pretty attempts +:+ " attempts") err.
Definition cancelled_error (err : gerror) : gerror := Errorf "context cancelled during retry" err.

(** The loop with [todo] attempts to go. *)
Fixpoint fetch_loop (f : HTTPFetcher) (rawURL : string) (todo : nat) (backoff : Z) (lastErr : gerror)
  : M (res FetchResult) :=
  match todo with
  | O => ret_err (exhausted_error (MaxAttempts (retryPolicy f)) lastErr)
  | S todo =>
      r ← observe (doFetch f rawURL);
      match r with
      | Ok result => ret_ok result
      | Err err =>
          if negb (isRetryableError err) then ret_err (permanent_error err)
          else if (todo =? 0)%nat then fetch_loop f rawURL todo backoff err
          else
            stop ← observe (fun n => if ctx_done n backoff then Some (ctx_Err n) else None);
            match stop with
            | Some e => ret_err (cancelled_error e)
            | None => fetch_loop f rawURL todo
                        (next_backoff (BackoffMultiplier (retryPolicy f)) backoff) err
            end
      end
  end.

(** [lastErr] is nil at first; it is read only after an attempt. *)
Definition Fetch (f : HTTPFetcher) (rawURL : string) : M (res FetchResult) :=
  fetch_loop f rawURL (Z.to_nat (MaxAttempts (retryPolicy f)))
    (wraps 64 (wraps 64 (BackoffInitialMs (retryPolicy f)) * Millisecond)) (ENew "").

End Fetcher.

(** ** What a fetch does *)

Section Outcome.
Context `{Env, HttpClient}.
Context (f : HTTPFetcher) (rawURL : string).

(** The back-off before the [i]-th retry. *)
Fixpoint backoff_at (b0 : Z) (i : nat) : Z :=
  match i with
  | O => b0
  | S i => next_backoff (BackoffMultiplier (retryPolicy f)) (backoff_at b0 i)
  end.

(** From the call [n] with back-off [b], the attempt [k] was reached: those before it failed with
    errors that can be retried, and the waits after them ended. *)
Definition reached (n : nat) (b : Z) (k : nat) : Prop :=
  forall i, (i < k)%nat ->
    (exists e, doFetch f rawURL (n + 2 * i) = Err e /\ isRetryableError e = true)
    /\ ctx_done (n + 2 * i + 1) (backoff_at b i) = false.

(** The attempt [k] of [todo] decides. *)
Definition decides (n : nat) (b : Z) (todo k : nat) (r : res FetchResult) : Prop :=
  match doFetch f rawURL (n + 2 * k) with
  | Ok x => r = Ok x
  | Err e =>
      if isRetryableError e then
        if (S k =? todo)%nat then r = Err (exhausted_error (MaxAttempts (retryPolicy f)) e)
        else ctx_done (n + 2 * k + 1) (backoff_at b k) = true
             /\ r = Err (cancelled_error (ctx_Err (n + 2 * k + 1)))
      else r = Err (permanent_error e)
  end.

Lemma backoff_at_shift b i :
  backoff_at (next_backoff (BackoffMultiplier (retryPolicy f)) b) i = backoff_at b (S i).
Proof. induction i as [|i IH]; [done|]. simpl. by rewrite IH. Qed.

(** One more attempt before those of a loop. *)
Lemma reached_S n b k :
  (exists e, doFetch f rawURL n = Err e /\ isRetryableError e = true) -> ctx_done (S n) b = false ->
  reached (S (S n)) (next_backoff (BackoffMultiplier (retryPolicy f)) b) k -> reached n b (S k).
Proof.
  intros He Hc Hr [|i] Hi.
  - rewrite Nat.mul_0_r, Nat.add_0_r, Nat.add_1_r. done.
  - destruct (Hr i ltac:(lia)) as [He' Hd]. rewrite backoff_at_shift in Hd.
    replace (n + 2 * S i)%nat with (S (S n) + 2 * i)%nat by lia. done.
Qed.

Lemma decides_S n b todo k r :
  decides (S (S n)) (next_backoff (BackoffMultiplier (retryPolicy f)) b) todo k r ->
  decides n b (S todo) (S k) r.
Proof.
  unfold decides. rewrite backoff_at_shift.
  replace (n + 2 * S k)%nat with (S (S n) + 2 * k)%nat by lia. done.
Qed.

Lemma fetch_loop_outcome todo : forall b lastErr w,
  (0 < todo)%nat ->
  exists k r w', (k < todo)%nat /\ fetch_loop f rawURL todo b lastErr w = (Ret r, w')
    /\ same_store w w' /\ reached (ticks w) b k /\ decides (ticks w) b todo k r.
Proof.
  induction todo as [|todo IH]; intros b lastErr w Hl; [lia|]. cbn [fetch_loop].
  rewrite (bind_ret _ _ _ _ _ (observe_ret _ w)).
  assert (Hz : reached (ticks w) b 0) by (intros i Hi; lia).
  destruct (doFetch f rawURL (ticks w)) as [x|err] eqn:Ed.
  { exists 0%nat, (Ok x), (tick w). do 3 (split; [try done; lia|]). split; [done|].
    unfold decides. rewrite Nat.add_0_r, Ed. done. }
  destruct (isRetryableError err) eqn:Er; simpl.
  2: { exists 0%nat, (Err (permanent_error err)), (tick w). split; [lia|]. do 3 (split; [done|]).
       unfold decides. rewrite Nat.add_0_r, Ed, Er. done. }
  destruct todo as [|todo]; simpl.
  { exists 0%nat, (Err (exhausted_error (MaxAttempts (retryPolicy f)) err)), (tick w).
    split; [lia|]. do 3 (split; [done|]). unfold decides. rewrite Nat.add_0_r, Ed, Er. done. }
  rewrite (bind_ret _ _ _ _ _ (observe_ret _ (tick w))). cbv beta.
  change (ticks (tick w)) with (S (ticks w)).
  destruct (ctx_done (S (ticks w)) b) eqn:Ec; simpl.
  { exists 0%nat, (Err (cancelled_error (ctx_Err (S (ticks w))))), (tick (tick w)).
    split; [lia|]. do 3 (split; [done|]). unfold decides.
    rewrite Nat.mul_0_r, Nat.add_0_r, Nat.add_1_r, Ed, Er. simpl. by rewrite Ec. }
  destruct (IH (next_backoff (BackoffMultiplier (retryPolicy f)) b) err (tick (tick w)))
    as (k & r & w' & Hk & E & Hs & Hreach & Hdec); [lia|].
  exists (S k), r, w'. split; [lia|]. split; [exact E|]. split; [exact Hs|].
  split; [apply reached_S; [by exists err|done|exact Hreach]|by apply decides_S].
Qed.

End Outcome.

Section Classified.
Context `{Env, HttpClient}.

Lemma errorf_contains pre e sub : Contains pre sub = true -> Contains (Error (Errorf pre e)) sub = true.
Proof. intros Hc. simpl. auto with crawler. Qed.

Lemma permanent_is_permanent e : isPermanent (permanent_error e) = true.
Proof. by apply errorf_contains. Qed.

Lemma exhausted_is_exhausted n e : retriesExhausted (exhausted_error n e) = true.
Proof.
  unfold retriesExhausted. apply andb_true_iff.
  split; apply errorf_contains; [by apply Contains_app_l|by apply Contains_app_r, Contains_app_r].
Qed.

Lemma cancelled_is_neither n :
  isPermanent (cancelled_error (ctx_Err n)) || retriesExhausted (cancelled_error (ctx_Err n)) = false.
Proof.
  unfold isPermanent, retriesExhausted, cancelled_error, Errorf. cbn [Error].
  by destruct (ctx_Err_cases n) as [-> | ->].
Qed.

Lemma NewHTTPFetcher_attempts auth retry :
  0 <= MaxAttempts retry ->
  (0 < Z.to_nat (MaxAttempts (retryPolicy (NewHTTPFetcher auth retry))))%nat.
Proof. intros Hm. simpl. destruct (MaxAttempts retry =? 0) eqn:E; lia. Qed.

(** C29: what the HTTP fetcher does with a page.  It always ends, leaving the stores alone, after at
    most the attempts of the policy (one when the policy has none): all before the last failed with
    errors that can be retried, each followed by a wait of the back-off, which is multiplied each
    time by the multiplier of the policy, whatever it is (the API accepts 0: [no_backoff]); the last succeeded, failed for good, was the last the policy allows, or was followed by
    the end of the context.  The fetch worker reads the outcome off the text of the error: it gives
    the task up exactly when the context was not what ended the fetch. *)
Theorem http_fetch_outcome auth retry rawURL a :
  0 <= MaxAttempts retry ->
  let f := NewHTTPFetcher auth retry in
  let b0 := wraps 64 (wraps 64 (BackoffInitialMs retry) * Millisecond) in
  exists k r b, Z.of_nat k < Z.max 1 (MaxAttempts retry)
    /\ Fetch f rawURL a = (Ret r, b) /\ same_store a b
    /\ reached f rawURL (ticks a) b0 k
    /\ decides f rawURL (ticks a) b0 (Z.to_nat (Z.max 1 (MaxAttempts retry))) k r
    /\ forall e, r = Err e ->
         isPermanent e || retriesExhausted e
         = negb (bool_decide (e = cancelled_error (ctx_Err (ticks a + 2 * k + 1)))).
Proof.
  intros Hm f b0.
  assert (En : MaxAttempts (retryPolicy f) = Z.max 1 (MaxAttempts retry))
    by (simpl; destruct (MaxAttempts retry =? 0) eqn:E; lia).
  destruct (fetch_loop_outcome f rawURL (Z.to_nat (MaxAttempts (retryPolicy f))) b0 (ENew "") a)
    as (k & r & b & Hk & E & Hs & Hr & Hd); [by apply NewHTTPFetcher_attempts|].
  exists k, r, b. rewrite En in Hk, Hd. split; [lia|]. split; [exact E|]. split; [exact Hs|].
  split; [exact Hr|]. split; [exact Hd|]. intros e ->. unfold decides in Hd.
  destruct (doFetch f rawURL (ticks a + 2 * k)) as [x|err]; [done|].
  pose proof (cancelled_is_neither (ticks a + 2 * k + 1)) as Hc.
  case_bool_decide as Ec; [by rewrite Ec|]. simpl.
  destruct (isRetryableError err); [|injection Hd as ->; by rewrite permanent_is_permanent].
  destruct (S k =? _)%nat; [|destruct Hd as [_ [= ->]]; done].
  injection Hd as ->. by rewrite exhausted_is_exhausted, orb_true_r.
Qed.

Lemma Fetch_keeps f rawURL : keeps same_store (Fetch f rawURL).
Proof.
  intros a. unfold Fetch. destruct (Z.to_nat _) as [|todo]; [done|].
  destruct (fetch_loop_outcome f rawURL (S todo)
    (wraps 64 (wraps 64 (BackoffInitialMs (retryPolicy f)) * Millisecond)) (ENew "") a)
    as (k & r & b & _ & E & Hs & _); [lia|]. by rewrite E.
Qed.

End Classified.

(** ** The services of the fetch worker *)

Section Services.
Context `{RobotsTxtService, HttpClient, RegexpLib, JsonLib}.
Context (limiter : CrawlJobConfig -> string -> string -> M (res (bool * Z))).
Hypothesis limiter_keeps : forall c k h, keeps same_store (limiter c k h).

(** [HTTPFetcherFactory.CreateFetcher] with a limiter. *)
Definition http_services : FetchServices := {|
  ratelimit_Allow := limiter;
  fetcher_Fetch auth retry rawURL := Fetch (NewHTTPFetcher auth retry) rawURL;
  ratelimit_keeps := limiter_keeps;
  fetcher_keeps auth retry rawURL := Fetch_keeps (NewHTTPFetcher auth retry) rawURL |}.

(** A page that cannot be fetched fails its task unless the context ended. *)
Lemma unfetched_page_fails_task w msg task config a e b :
  0 <= MaxAttempts (Retries config) ->
  Fetch (NewHTTPFetcher (Auth config) (Retries config)) (URL task) a = (Ret (Err e), b) ->
  (forall n, e <> cancelled_error (ctx_Err n)) ->
  @fetch_page _ _ _ http_services w msg task config a
  = fail_task task ("fetch failed: " +:+ Error e) b.
Proof.
  intros Hm E Hc.
  destruct (fetch_loop_outcome (NewHTTPFetcher (Auth config) (Retries config)) (URL task)
    (Z.to_nat (MaxAttempts (retryPolicy (NewHTTPFetcher (Auth config) (Retries config)))))
    (wraps 64 (wraps 64 (BackoffInitialMs (Retries config)) * Millisecond)) (ENew "") a)
    as (k & r & b' & _ & E' & _ & _ & Hd); [by apply NewHTTPFetcher_attempts|].
  unfold Fetch in E. cbn [retryPolicy NewHTTPFetcher BackoffInitialMs] in *.
  rewrite E in E'. injection E' as <- <-.
  assert (Hx : isPermanent e || retriesExhausted e = true).
  { unfold decides in Hd. destruct (doFetch _ _ _); [done|].
    destruct (isRetryableError _); [|injection Hd as ->; by rewrite permanent_is_permanent].
    destruct (S k =? _)%nat; [injection Hd as ->; by rewrite exhausted_is_exhausted, orb_true_r|].
    destruct Hd as [_ [= ->]]. by destruct (Hc (ticks a + 2 * k + 1)%nat). }
  unfold fetch_page. rewrite (try_run _ _ _ _ _ _ E). by rewrite Hx.
Qed.

End Services.

(** ** A concrete run: two timeouts, then a page *)

#[local] Existing Instances any_uuid plain_env.

Definition flaky_client : HttpClient.
Proof.
  refine {| http_Do _ n _ := if (n <? 4)%nat then Err (ENew "timeout awaiting response headers")
                             else Ok {| hp_body _ := Ok "<html>"; hp_status := 200;
                                        hp_content_type := ""; hp_url := "http://a.b/" |};
            as_DNSError _ := false; as_urlError _ := None; ctx_done _ _ := false;
            ctx_Err _ := ENew "context canceled" |}; intros; by try left.
Defined.
#[local] Existing Instance flaky_client.

Definition demo_auth_options : AuthOptions :=
  {| Cookie := ""; BasicUser := "u"; BasicPassword := "p"; BearerToken := "t" |}.
Definition demo_retry : RetryPolicy :=
  {| MaxAttempts := 3; BackoffInitialMs := 100; BackoffMultiplier := 2 |}.

Example bearer_replaces_basic :
  request_headers demo_auth_options !! "Authorization" = Some "Bearer t".
Proof. reflexivity. Qed.

Example basic_credentials :
  request_headers {| Cookie := ""; BasicUser := "Aladdin"; BasicPassword := "open sesame";
                     BearerToken := "" |} !! "Authorization"
  = Some "Basic QWxhZGRpbjpvcGVuIHNlc2FtZQ==".
Proof. vm_compute. reflexivity. Qed.

(** A policy without a multiplier, which no rule of the API refuses: only the first wait is left. *)
Example no_backoff : next_backoff 0 (100 * Millisecond) = 0.
Proof. vm_compute. reflexivity. Qed.

Example backoff_doubles : next_backoff 2 (100 * Millisecond) = 200 * Millisecond.
Proof. vm_compute. reflexivity. Qed.

Lemma http_fetch_outcome_witness :
  exists b, Fetch (NewHTTPFetcher demo_auth_options demo_retry) "http://a.b/" (world_of empty_db)
    = (Ret (Ok {| Body := "<html>"; ContentType := "text/html"; StatusCode := 200;
                  ResFinalURL := "http://a.b/" |}), b)
    /\ same_store (world_of empty_db) b.
Proof.
  destruct (http_fetch_outcome demo_auth_options demo_retry "http://a.b/" (world_of empty_db)
              ltac:(discriminate)) as (k & r & b & _ & E & Hs & _ & _).
  assert (Er : fst (Fetch (NewHTTPFetcher demo_auth_options demo_retry) "http://a.b/"
                      (world_of empty_db))
    = Ret (Ok {| Body := "<html>"; ContentType := "text/html"; StatusCode := 200;
                 ResFinalURL := "http://a.b/" |})) by (vm_compute; reflexivity).
  exists b. rewrite E in Er. simpl in Er. injection Er as ->. split; [exact E|exact Hs].
Defined.
