(* ===== verification/RobotsTxt.v ===== *)
(** * robots.txt

    [infra/cache/robots_txt_service.go]: whether robots.txt of a URL's host allows the URL, with the
    file cached in Redis.  Redis and the parser of robots.txt are third-party code; the HTTP client
    is that of [Fetcher].  The service is an instance of [RobotsTxtService], the class the workers
    use. *)

From S2P Require Import Prelude GoStrings Domain Json Converters World Sql Repos GoUrl Scope.
From S2P Require Import FetchWorker GoNum Base64 GoFloat Fetcher.
#[local] Open Scope Z_scope.

(** [go-redis]: GET ([None] is [redis.Nil]) and SET with an expiration, at the [n]-th call. *)
Class RedisLib := {
  redis_Get : nat -> string -> res (option string);
  redis_Set : nat -> string -> string -> Z -> option gerror }.

(** [temoto/robotstxt]: an empty file allows everything. *)
Class RobotsLib := {
  robots_data : Type;
  robots_group : Type;
  FromBytes : string -> res robots_data;
  FindGroup : robots_data -> string -> option robots_group;
  Test : robots_group -> string -> bool;
  empty_allows r agent g path :
    FromBytes "" = Ok r -> FindGroup r agent = Some g -> Test g path = true }.

Record CachedRobotsTxtService := { rb_ttl : Z }.

Definition NewCachedRobotsTxtService (ttl : Z) : CachedRobotsTxtService :=
  {| rb_ttl := if ttl =? 0 then 24 * Hour else ttl |}.

(** [http.Client{Timeout: 10 * time.Second}] follows ten redirects. *)
Definition robots_client : http_client := {| Timeout := 10 * Second; max_redirects := 10 |}.
Definition robots_limit : Z := 512 * 1024.

Definition robots_url (u : url) : string :=
  of_bytes (Scheme u) +:+ "://" +:+ of_bytes (Host u) +:+ "/robots.txt".
Definition robots_key (u : url) : string := "robots:" +:+ of_bytes (Host u).

Definition robots_path (u : url) : string :=
  let path := if bool_decide (Path u = []) then "/" else of_bytes (Path u) in
  if bool_decide (RawQuery u = []) then path else path +:+ "?" +:+ of_bytes (RawQuery u).

Section Robots.
Context `{Env, HttpClient, RedisLib, RobotsLib}.

(** [fetchRobotsTxt] at the [n]-th call. *)
Definition fetchRobotsTxt (robotsURL : string) (n : nat) : res string :=
  match url_Parse robotsURL with
  | Err e => Err (Errorf "failed to create request" e)
  | Ok u =>
      match http_Do robots_client n
              {| rq_url := u; rq_headers := {[ "User-Agent" := "DistributedCrawler/1.0" ]} |} with
      | Err e => Err (Errorf "failed to fetch robots.txt" e)
      | Ok resp =>
          if negb (hp_status resp =? 200) then Ok ""
          else match hp_body resp (Some robots_limit) with
               | Err e => Err (Errorf "failed to read robots.txt body" e)
               | Ok body => Ok body
               end
      end
  end.

(** Whether the rules in the text allow the path; a text that does not parse allows it. *)
Definition rules_allow (data path agent : string) : bool :=
  match FromBytes data with
  | Err _ => true
  | Ok robots => match FindGroup robots agent with None => true | Some group => Test group path end
  end.

Definition IsAllowed (s : CachedRobotsTxtService) (urlStr agent : string) : M (res bool) :=
  match url_Parse urlStr with
  | Err e => ret_err (Errorf "failed to parse URL" e)
  | Ok parsedURL =>
      cached ← observe (fun n => redis_Get n (robots_key parsedURL));
      let robotsData := match cached with Ok (Some d) => d | _ => "" end in
      if bool_decide (robotsData = "") then
        fetched ← observe (fetchRobotsTxt (robots_url parsedURL));
        match fetched with
        | Err _ => ret_ok true
        | Ok robotsData =>
            _ ← observe (fun n => redis_Set n (robots_key parsedURL) robotsData (rb_ttl s));
            ret_ok (rules_allow robotsData (robots_path parsedURL) agent)
        end
      else ret_ok (rules_allow robotsData (robots_path parsedURL) agent)
  end.

(** The text a check at the call [n] decides on: the cached one, or the one just fetched. *)
Definition current_rules (u : url) (n : nat) (data : string) : Prop :=
  redis_Get n (robots_key u) = Ok (Some data)
  \/ ((redis_Get n (robots_key u) = Ok None \/ redis_Get n (robots_key u) = Ok (Some "")
       \/ exists e, redis_Get n (robots_key u) = Err e)
      /\ fetchRobotsTxt (robots_url u) (S n) = Ok data).

Lemma rules_allow_false data path agent :
  rules_allow data path agent = false <->
  data <> "" /\ exists robots group, FromBytes data = Ok robots
    /\ FindGroup robots agent = Some group /\ Test group path = false.
Proof.
  unfold rules_allow. split.
  - destruct (FromBytes data) as [r|] eqn:Er; [|done].
    destruct (FindGroup r agent) as [g|] eqn:Eg; [|done]. intros Et.
    split; [|by exists r, g]. intros ->. by rewrite (empty_allows r agent g path) in Et.
  - by intros (_ & r & g & -> & -> & ->).
Qed.

(** C31: what robots.txt decides.  A check always ends without touching the stores; it is an error
    exactly when the URL does not parse; and it refuses a URL exactly when there is a non-empty
    robots.txt of its host, in the cache or, when the cache has none, just fetched with status 200
    and cut at 512 KB, that parses and whose group for the agent refuses the path.  Everything else,
    an unreachable host or cache too, allows the URL. *)
Theorem robots_decision s urlStr agent a :
  exists r b, IsAllowed s urlStr agent a = (Ret r, b) /\ same_store a b
    /\ (is_ok r = false <-> is_ok (url_Parse urlStr) = false)
    /\ (r = Ok false <->
        exists u data robots group, url_Parse urlStr = Ok u
          /\ current_rules u (ticks a) data /\ data <> "" /\ FromBytes data = Ok robots
          /\ FindGroup robots agent = Some group /\ Test group (robots_path u) = false).
Proof.
  unfold IsAllowed. destruct (url_Parse urlStr) as [u|e] eqn:Eu.
  2: { exists (Err (Errorf "failed to parse URL" e)), a.
       do 3 (split; [done|]). split; [done|]. by intros (? & ? & ? & ? & ? & _). }
  assert (Hx : forall data, current_rules u (ticks a) data ->
    (forall data', data' <> "" -> current_rules u (ticks a) data' -> data' = data) ->
    (Ok (rules_allow data (robots_path u) agent) = Ok false <->
     exists u' d robots group, Ok u = Ok u' /\ current_rules u' (ticks a) d /\ d <> ""
       /\ FromBytes d = Ok robots /\ FindGroup robots agent = Some group
       /\ Test group (robots_path u') = false)).
  { intros data Hc Hu. split.
    - intros [= (Hn & r & g & Hg)%rules_allow_false]. by exists u, data, r, g.
    - intros (u' & d & r & g & [= <-] & Hd & Hn & Hg). assert (d = data) as -> by (by apply Hu). f_equal.
      apply rules_allow_false. split; [done|by exists r, g]. }
  rewrite (bind_ret _ _ _ _ _ (observe_ret _ a)). cbv beta zeta.
  set (c := redis_Get (ticks a) (robots_key u)) in *.
  case_bool_decide as Hd.
  2: { destruct c as [[d|]|e] eqn:Ec; try done. eexists _, _. split; [done|]. split; [done|].
       split; [done|]. apply Hx; unfold current_rules; fold c; rewrite Ec; [by left|].
       intros d' _ [[= ->]|([?|[[= ->]|[? ?]]] & _)]; done. }
  assert (Hc : c = Ok None \/ c = Ok (Some "") \/ exists e, c = Err e).
  { destruct c as [[d|]|e]; [subst; by right; left|by left|right; right; by eexists]. }
  assert (Hf : forall d, d <> "" -> current_rules u (ticks a) d ->
                 fetchRobotsTxt (robots_url u) (S (ticks a)) = Ok d).
  { intros d Hn [Ed|[_ ?]]; [|done]. fold c in Ed. rewrite Ed in Hd. done. }
  rewrite (bind_ret _ _ _ _ _ (observe_ret _ (tick a))). cbv beta.
  change (ticks (tick a)) with (S (ticks a)).
  destruct (fetchRobotsTxt (robots_url u) (S (ticks a))) as [d|e] eqn:Ef.
  - rewrite (bind_ret _ _ _ _ _ (observe_ret _ (tick (tick a)))).
    eexists _, _. split; [done|]. split; [done|]. split; [done|]. apply Hx; [by right|].
    intros d' Hn Hd'. specialize (Hf d' Hn Hd'). by injection Hf.
  - eexists _, _. split; [done|]. split; [done|]. split; [done|]. split; [done|].
    intros (u' & d & r & g & [= <-] & Hc' & Hn & _). by specialize (Hf d Hn Hc').
Qed.

Lemma IsAllowed_keeps s u agent : keeps same_store (IsAllowed s u agent).
Proof.
  intros a. unfold IsAllowed. destruct (url_Parse u) as [p|e]; [|done].
  rewrite (bind_ret _ _ _ _ _ (observe_ret _ a)). cbv beta zeta. case_bool_decide; [|done].
  rewrite (bind_ret _ _ _ _ _ (observe_ret _ (tick a))). cbv beta.
  destruct (fetchRobotsTxt _ _); [|done].
  by rewrite (bind_ret _ _ _ _ _ (observe_ret _ (tick (tick a)))).
Qed.

(** The service the workers use. *)
Definition cached_robots (s : CachedRobotsTxtService) : RobotsTxtService :=
  {| robots_IsAllowed := IsAllowed s; robots_keeps := IsAllowed_keeps s |}.

(** An absent robots.txt is stored as an empty text, which the next check fetches again. *)
Lemma empty_rules_not_cached s urlStr agent a u :
  url_Parse urlStr = Ok u -> redis_Get (ticks a) (robots_key u) = Ok (Some "") ->
  IsAllowed s urlStr agent a
  = match fetchRobotsTxt (robots_url u) (S (ticks a)) with
    | Err _ => (Ret (Ok true), tick (tick a))
    | Ok d => (Ret (Ok (rules_allow d (robots_path u) agent)), tick (tick (tick a)))
    end.
Proof.
  intros Eu Ec. unfold IsAllowed. rewrite Eu, (bind_ret _ _ _ _ _ (observe_ret _ a)). cbv beta.
  rewrite Ec. simpl. rewrite (bind_ret _ _ _ _ _ (observe_ret _ (tick a))). cbv beta.
  change (ticks (tick a)) with (S (ticks a)). by destruct (fetchRobotsTxt _ _).
Qed.

End Robots.

(** ** A concrete check: a file that names the one path it disallows *)

#[local] Existing Instances any_uuid plain_env flaky_client.

Definition path_rules : RobotsLib.
Proof.
  refine {| robots_data := string; robots_group := string; FromBytes d := Ok d;
            FindGroup d _ := if decide (d = "") then None else Some d;
            Test g path := negb (bool_decide (g = path)) |}.
  intros r agent g path [= <-]. done.
Defined.
Definition one_file : RedisLib := {|
  redis_Get _ key := if decide (key = "robots:a.b") then Ok (Some "/x?q=1") else Ok None;
  redis_Set _ _ _ _ := None |}.
#[local] Existing Instances path_rules one_file.

Lemma robots_decision_witness :
  exists b, IsAllowed (NewCachedRobotsTxtService 0) "http://a.b/x?q=1" userAgent (world_of empty_db)
    = (Ret (Ok false), b) /\ same_store (world_of empty_db) b.
Proof.
  destruct (robots_decision (NewCachedRobotsTxtService 0) "http://a.b/x?q=1" userAgent
              (world_of empty_db)) as (r & b & E & Hs & _ & _).
  assert (Er : fst (IsAllowed (NewCachedRobotsTxtService 0) "http://a.b/x?q=1" userAgent
                      (world_of empty_db)) = Ret (Ok false)) by (vm_compute; reflexivity).
  exists b. rewrite E in Er. simpl in Er. injection Er as ->. split; [exact E|exact Hs].
Defined.
