(* ===== verification/Messaging.v ===== *)
(** * The clients of RabbitMQ and Kafka

    [infra/messaging/client.go], [rabbitmq/client.go] and [kafka/client.go]: publication with
    retries, and what becomes of a message after its handler.  The client libraries and the brokers
    are classes; a reconnection that fails is an error of the call that needs it. *)

From S2P Require Import Prelude GoStrings Domain Json Converters World Sql Repos GoUrl Scope.
From S2P Require Import FetchWorker.
#[local] Open Scope nat_scope.

(** ** messaging/client.go *)

(** [errors.As(err, *NonRetryableError)]. *)
Fixpoint IsNonRetryable (err : gerror) : bool :=
  match err with
  | ENew _ | ESentinel _ _ => false
  | EWrap _ e _ => IsNonRetryable e
  | ENonRetryable _ => true
  end.

Definition NewNonRetryableError (err : gerror) : gerror := ENonRetryable err.

(** ** rabbitmq/client.go: Publish *)

(** [amqp091-go] at the [n]-th call.  [amqp_Publish] says whether the message was written to the
    connection, and the error; without an error it was. *)
Class AmqpLib := {
  amqp_IsClosed : nat -> bool;
  amqp_Dial : nat -> option gerror;
  amqp_Channel : nat -> option gerror;
  amqp_QueueDeclare : nat -> string -> option gerror;
  amqp_Publish : nat -> string -> message -> bool * option gerror;
  amqp_ctx : nat -> option gerror;          (* [ctx.Err()] when it is done before the timer *)
  amqp_Publish_written n q m : (amqp_Publish n q m).2 = None -> (amqp_Publish n q m).1 = true }.

Definition maxRetries : nat := 3.

(** [json.Marshal(message)] fails on a time out of the years 0 to 9999. *)
Definition message_marshals (m : message) : bool :=
  match m with
  | MsgCrawl m => time_ok (MEnqueuedAt m)
  | MsgParsing m => time_ok (PEnqueuedAt m)
  end.

Section Rabbit.
Context `{Env, AmqpLib}.

Definition of_error (e : option gerror) : res unit :=
  match e with Some e => Err e | None => Ok tt end.

(** The connection of the client is never nil. *)
Definition ensureConnection : M (res unit) :=
  closed ← observe amqp_IsClosed;
  if (closed : bool) then
    try _ <- observe (fun n => of_error (amqp_Dial n))
      else e => ret_err (Errorf "failed to reconnect to RabbitMQ" e);
    ret_ok tt
  else ret_ok tt.

Definition PublishWithContext (queueName : string) (m : message) : M (res unit) := fun w =>
  let '(written, err) := amqp_Publish (ticks w) queueName m in
  (Ret (of_error err), if written then add_message queueName m (tick w) else tick w).

(** One attempt, with the error it gives when it is the last. *)
Definition publish_attempt (queueName : string) (m : message) : M (res unit) :=
  try _ <- ensureConnection
    else e => ret_err (Errorf "failed to ensure connection after 3 attempts" e);
  try _ <- observe (fun n => of_error (amqp_Channel n))
    else e => ret_err (Errorf "failed to open channel after 3 attempts" e);
  try _ <- observe (fun n => of_error (amqp_QueueDeclare n queueName))
    else e => ret_err (Errorf "failed to declare queue after 3 attempts" e);
  try _ <- PublishWithContext queueName m
    else e => ret_err (Errorf "failed to publish message after 3 attempts" e);
  ret_ok tt.

(** The attempts to come; a wait between two of them ends with the timer or with the context. *)
Fixpoint publish_attempts (n : nat) (queueName : string) (m : message) : M (res unit) :=
  match n with
  | O => ret_err (ENew "failed to publish after 3 attempts")
  | S n =>
      try _ <- publish_attempt queueName m
        else e => (if n =? 0 then ret_err e
                   else
                     stop ← observe amqp_ctx;
                     match stop with
                     | Some ce => ret_err ce
                     | None => publish_attempts n queueName m
                     end);
      ret_ok tt
  end.

Definition Rabbit_Publish (queueName : string) (m : message) : M (res unit) :=
  if negb (message_marshals m)
  then ret_err (Errorf "failed to marshal message"
                  (ENew "Time.MarshalJSON: year outside of range [0,9999]"))
  else publish_attempts maxRetries queueName m.

(** [w'] is [w] after [k] writes of the message. *)
Definition wrote (q : string) (m : message) (k : nat) (w w' : world) : Prop :=
  db w' = db w /\ tx w' = tx w /\ objects w' = objects w
  /\ published w' = published w ++ replicate k (q, m).

Lemma wrote_trans q m i j a b c : wrote q m i a b -> wrote q m j b c -> wrote q m (i + j) a c.
Proof.
  intros (?&?&?&Hp) (?&?&?&Hq). repeat split; try congruence.
  by rewrite Hq, Hp, <- app_assoc, replicate_add.
Qed.

Lemma wrote_ticks q m a b :
  db b = db a -> tx b = tx a -> objects b = objects a -> published b = published a -> wrote q m 0 a b.
Proof. intros. repeat split; try done. simpl. by rewrite app_nil_r. Qed.

Lemma ensureConnection_out q m a :
  exists r b, ensureConnection a = (Ret r, b) /\ wrote q m 0 a b.
Proof.
  unfold ensureConnection, try_bind. rewrite (bind_ret _ _ _ _ _ (observe_ret _ _)).
  destruct (amqp_IsClosed (ticks a)).
  - rewrite (bind_ret _ _ _ _ _ (observe_ret _ _)). destruct (of_error _);
      eexists _, _; (split; [done|by apply wrote_ticks]).
  - eexists _, _. split; [done|by apply wrote_ticks].
Qed.

Lemma publish_attempt_out q m a :
  exists r b k, publish_attempt q m a = (Ret r, b) /\ wrote q m k a b /\ k <= 1
    /\ (r = Ok tt -> k = 1).
Proof.
  unfold publish_attempt.
  destruct (ensureConnection_out q m a) as (r1 & a1 & E1 & Hw1).
  rewrite (try_run _ _ _ _ _ _ E1). destruct r1 as [[]|e1]; [|by eexists _, a1, 0; split_and!; [| |lia|]].
  unfold try_bind at 1. rewrite (bind_ret _ _ _ _ _ (observe_ret _ _)).
  destruct (of_error (amqp_Channel _)) as [[]|e2];
    [|eexists _, _, 0; split_and!; [done|by destruct Hw1 as (?&?&?&?); repeat split|lia|done]].
  unfold try_bind at 1. rewrite (bind_ret _ _ _ _ _ (observe_ret _ _)).
  destruct (of_error (amqp_QueueDeclare _ _)) as [[]|e3];
    [|eexists _, _, 0; split_and!; [done|by destruct Hw1 as (?&?&?&?); repeat split|lia|done]].
  set (a3 := tick (tick a1)). assert (Hw3 : wrote q m 0 a a3) by (destruct Hw1 as (?&?&?&?); by repeat split).
  pose proof (amqp_Publish_written (ticks a3) q m) as Hw. unfold PublishWithContext.
  destruct (amqp_Publish (ticks a3) q m) as [written err] eqn:Ep. simpl in Hw.
  assert (Hk : wrote q m (if written then 1 else 0) a
                 (if written then add_message q m (tick a3) else tick a3)).
  { destruct written.
    - apply (wrote_trans q m 0 1 a a3); [done|]. by repeat split.
    - destruct Hw3 as (?&?&?&?). by repeat split. }
  erewrite try_run; [|unfold PublishWithContext; by rewrite Ep].
  destruct err as [e|]; simpl.
  - eexists _, _, _. split; [done|]. split; [exact Hk|]. split; [destruct written; lia|done].
  - rewrite (Hw eq_refl) in *. eexists _, _, 1. by split_and!.
Qed.

Lemma publish_attempts_out n : forall q m a,
  exists r b k, publish_attempts n q m a = (Ret r, b) /\ wrote q m k a b /\ k <= n
    /\ (r = Ok tt -> 1 <= k).
Proof.
  induction n as [|n IH]; intros q m a; cbn [publish_attempts].
  - eexists _, a, 0. split; [done|]. split; [by apply wrote_ticks|done].
  - destruct (publish_attempt_out q m a) as (r1 & a1 & k1 & E1 & Hw1 & Hk1 & Hr1).
    rewrite (try_run _ _ _ _ _ _ E1). destruct r1 as [[]|e1].
    { eexists _, a1, k1. split; [done|]. split; [done|]. split; [lia|]. intros _. by rewrite Hr1. }
    destruct (n =? 0); [eexists _, a1, k1; split_and!; [done|done|lia|done]|].
    rewrite (bind_ret _ _ _ _ _ (observe_ret _ _)).
    assert (Hw2 : wrote q m k1 a (tick a1)) by (destruct Hw1 as (?&?&?&?); by repeat split).
    destruct (amqp_ctx (ticks a1)) as [ce|]; [eexists _, _, k1; split_and!; [done|done|lia|done]|].
    destruct (IH q m (tick a1)) as (r & b & k & E & Hw3 & Hk & Hr).
    eexists r, b, (k1 + k). split; [exact E|]. split; [by eapply wrote_trans|]. split; [lia|].
    intros Hok. specialize (Hr Hok). lia.
Qed.

End Rabbit.

Section RabbitPublish.
Context `{Env, AmqpLib}.

(** Nothing goes wrong with the publication. *)
Definition amqp_calm (q : string) (m : message) : Prop :=
  forall n, amqp_IsClosed n = false /\ amqp_Channel n = None
            /\ amqp_QueueDeclare n q = None /\ (amqp_Publish n q m).2 = None.

Lemma publish_attempt_calm q m a :
  amqp_calm q m -> exists b, publish_attempt q m a = (Ret (Ok tt), b).
Proof.
  intros Hc. unfold publish_attempt.
  assert (E1 : ensureConnection a = (Ret (Ok tt), tick a)).
  { unfold ensureConnection. rewrite (bind_ret _ _ _ _ _ (observe_ret _ _)).
    by destruct (Hc (ticks a)) as (-> & _). }
  rewrite (try_run _ _ _ _ _ _ E1), (try_run _ _ _ _ _ _ (observe_ret _ _)).
  destruct (Hc (ticks (tick a))) as (_ & -> & _). simpl of_error. cbv iota beta.
  rewrite (try_run _ _ _ _ _ _ (observe_ret _ _)).
  destruct (Hc (ticks (tick (tick a)))) as (_ & _ & -> & _). simpl of_error. cbv iota beta.
  set (a3 := tick _). destruct (Hc (ticks a3)) as (_ & _ & _ & He).
  destruct (amqp_Publish (ticks a3) q m) as [written err] eqn:Ep. simpl in He. subst err.
  erewrite try_run; [|unfold PublishWithContext; by rewrite Ep]. by eexists.
Qed.

(** A broker that opens no channel. *)
Lemma publish_attempts_refused n : forall q m a,
  (forall n, amqp_Channel n <> None) ->
  exists e b, publish_attempts n q m a = (Ret (Err e), b) /\ wrote q m 0 a b.
Proof.
  induction n as [|n IH]; intros q m a Hc; cbn [publish_attempts].
  { eexists _, a. split; [done|by apply wrote_ticks]. }
  assert (Ea : exists e b, publish_attempt q m a = (Ret (Err e), b) /\ wrote q m 0 a b).
  { unfold publish_attempt. destruct (ensureConnection_out q m a) as (r1 & a1 & E1 & Hw1).
    rewrite (try_run _ _ _ _ _ _ E1). destruct r1 as [[]|e1]; [|by eexists _, a1].
    rewrite (try_run _ _ _ _ _ _ (observe_ret _ _)). specialize (Hc (ticks a1)).
    destruct (amqp_Channel (ticks a1)) as [e|]; [|done]. eexists _, _. split; [done|].
    destruct Hw1 as (?&?&?&?). by repeat split. }
  destruct Ea as (e & b & E & Hw). rewrite (try_run _ _ _ _ _ _ E).
  destruct (n =? 0); [by eexists _, b|]. rewrite (bind_ret _ _ _ _ _ (observe_ret _ _)).
  assert (Hw' : wrote q m 0 a (tick b)) by (destruct Hw as (?&?&?&?); by repeat split).
  destruct (amqp_ctx (ticks b)) as [ce|]; [by eexists _, _|].
  destruct (IH q m (tick b) Hc) as (e' & b' & E' & Hw2). rewrite E'. simpl. eexists _, b'.
  split; [done|]. by apply (wrote_trans q m 0 0 a (tick b)).
Qed.

(** C24: publication to RabbitMQ.  It always returns, with the tables and the store as before; the
    message was written to its queue at most three times and nothing else was, and at least once
    when there is no error.  When the connection stands and the broker refuses nothing it is written
    exactly once; when no channel can be opened it is never written and there is an error. *)
Theorem rabbit_publish_outcome q m a :
  exists r b k, Rabbit_Publish q m a = (Ret r, b) /\ wrote q m k a b /\ k <= 3
    /\ (r = Ok tt -> 1 <= k)
    /\ (amqp_calm q m -> message_marshals m = true -> r = Ok tt /\ k = 1)
    /\ ((forall n, amqp_Channel n <> None) -> is_ok r = false /\ published b = published a).
Proof.
  unfold Rabbit_Publish. destruct (message_marshals m) eqn:Em; simpl.
  2: { eexists _, a, 0. split; [done|]. split; [by apply wrote_ticks|]. split; [lia|]. done. }
  destruct (publish_attempts_out maxRetries q m a) as (r & b & k & E & Hw & Hk & Hr).
  exists r, b, k. split; [exact E|]. split; [exact Hw|]. split; [exact Hk|]. split; [exact Hr|].
  split.
  - intros Hc _. cbn [publish_attempts maxRetries] in E.
    destruct (publish_attempt_calm q m a Hc) as [b1 E1].
    rewrite (try_run _ _ _ _ _ _ E1) in E. injection E as <- <-. split; [done|].
    destruct (publish_attempt_out q m a) as (r1 & b1' & k1 & E1' & Hw1 & _ & Hr1).
    rewrite E1 in E1'. injection E1' as <- <-. specialize (Hr1 eq_refl). subst k1.
    destruct Hw as (_ & _ & _ & Hp), Hw1 as (_ & _ & _ & Hp1).
    rewrite Hp1 in Hp. apply app_inv_head, (f_equal length) in Hp. by rewrite !length_replicate in Hp.
  - intros Hc. destruct (publish_attempts_refused maxRetries q m a Hc) as (e & b' & E' & Hw').
    rewrite E in E'. injection E' as -> <-. split; [done|].
    destruct Hw' as (_ & _ & _ & ->). by rewrite app_nil_r.
Qed.

End RabbitPublish.

(** ** rabbitmq/client.go: Consume *)

(** What the loop does with a delivery: [msg.Ack], [msg.Nack(false, requeue)]. *)
Inductive settlement := Acked | Nacked (requeue : bool).

Definition settle (r : res unit) : settlement :=
  match r with
  | Err err => Nacked (negb (IsNonRetryable err))
  | Ok _ => Acked
  end.

(** A queue of the broker as its only consumer sees it, with a prefetch count of 1: deliveries come
    from the front, an acknowledged or discarded message is gone, a requeued one is back in its
    place. *)
Class AmqpQueue := {
  amqp_queue : Type;
  messages : amqp_queue -> list string;
  Deliver : amqp_queue -> option (string * amqp_queue);
  Settle : settlement -> amqp_queue -> amqp_queue;
  Deliver_empty q : Deliver q = None <-> messages q = [];
  Deliver_front q body q' : Deliver q = Some (body, q') -> exists rest,
    messages q = body :: rest /\ messages (Settle Acked q') = rest
    /\ messages (Settle (Nacked false) q') = rest
    /\ messages (Settle (Nacked true) q') = body :: rest }.

Section RabbitConsume.
Context `{AmqpQueue} (handler : string -> M (res unit)).

(** One turn of the loop over the deliveries. *)
Definition consume_message (q : amqp_queue) : M amqp_queue :=
  match Deliver q with
  | None => mret q
  | Some (body, q') => r ← handler body; mret (Settle (settle r) q')
  end.

Fixpoint consume_messages (n : nat) (q : amqp_queue) : M amqp_queue :=
  match n with
  | O => mret q
  | S n => q' ← consume_message q; consume_messages n q'
  end.

(** A message leaves the queue only when its handler succeeded or called it not retryable. *)
Lemma consume_message_leaves q a q' b :
  consume_message q a = (Ret q', b) ->
  messages q' = messages q
  \/ exists body r, messages q = body :: messages q' /\ handler body a = (Ret r, b)
       /\ match r with Ok _ => True | Err e => IsNonRetryable e = true end.
Proof.
  unfold consume_message. destruct (Deliver q) as [[body q1]|] eqn:Ed; [|intros [= <- <-]; by left].
  destruct (Deliver_front _ _ _ Ed) as (rest & Em & Ha & Hd & Hr). unfold mbind, M_bind.
  destruct (handler body a) as [[r|s] a1] eqn:Eh; [|done]. intros [= <- <-].
  destruct r as [u|e]; simpl; [right; exists body, (Ok u); by rewrite Ha|].
  destruct (IsNonRetryable e) eqn:En; simpl; [right; exists body, (Err e); by rewrite Hd|].
  left. by rewrite Hr, Em.
Qed.

(** A message that is always refused stays in front for good. *)
Lemma consume_messages_stuck n : forall q a body rest,
  messages q = body :: rest ->
  (forall a, exists e b, handler body a = (Ret (Err e), b) /\ IsNonRetryable e = false /\ db b = db a) ->
  exists q' b, consume_messages n q a = (Ret q', b) /\ messages q' = body :: rest /\ db b = db a.
Proof.
  induction n as [|n IH]; intros q a body rest Em Hh; simpl; [by exists q, a|].
  assert (E : exists q1 b1, consume_message q a = (Ret q1, b1)
              /\ messages q1 = body :: rest /\ db b1 = db a).
  { unfold consume_message. destruct (Deliver q) as [[body' q1]|] eqn:Ed.
    2: { apply Deliver_empty in Ed. by rewrite Em in Ed. }
    destruct (Deliver_front _ _ _ Ed) as (rest' & Em' & _ & _ & Hr).
    rewrite Em in Em'. injection Em' as <- <-. destruct (Hh a) as (e & b & Eh & He & Hd).
    rewrite (bind_ret _ _ _ _ _ Eh). simpl. rewrite He. simpl. by eexists _, b. }
  destruct E as (q1 & b1 & E & Em1 & Hd1). rewrite (bind_ret _ _ _ _ _ E).
  destruct (IH q1 b1 body rest Em1 Hh) as (q2 & b2 & E2 & Em2 & Hd2).
  exists q2, b2. split; [exact E2|]. split; [exact Em2|congruence].
Qed.

End RabbitConsume.

(** A message that is not JSON stops a fetch worker.  No error of the workers is marked as not
    retryable, so the client of RabbitMQ gives the message back to the front of its queue every
    time: however often the queue is served the message stays in front, nothing behind it is
    delivered, and the tables do not change. *)
Theorem bad_message_blocks_queue `{FetchServices, RegexpLib, JsonLib, AmqpQueue} w n q a body rest :
  messages q = body :: rest -> unmarshal body = None ->
  exists q' b, consume_messages (FetchWorker.handleMessage w) n q a = (Ret q', b)
    /\ messages q' = body :: rest /\ db b = db a.
Proof.
  intros Em Eu. apply consume_messages_stuck; [exact Em|]. intros c.
  unfold FetchWorker.handleMessage, lift_res, Unmarshal. rewrite Eu.
  by exists (Errorf "failed to unmarshal task" (ENew "invalid JSON")), c.
Qed.

(** ** kafka/client.go *)

(** [kafka-go]'s reader of one partition for a consumer group: it starts at the committed offset and
    fetches message after message; committing a message commits the offset after it. *)
Class KafkaLib := {
  kafka_group : Type;
  partition : kafka_group -> list string;
  committed : kafka_group -> nat;
  CommitMessages : nat -> nat -> kafka_group -> kafka_group * option gerror;
  CommitMessages_partition n off g : partition (CommitMessages n off g).1 = partition g;
  CommitMessages_ok n off g :
    (CommitMessages n off g).2 = None -> committed (CommitMessages n off g).1 = S off;
  CommitMessages_err n off g :
    committed (CommitMessages n off g).1 = committed g
    \/ committed (CommitMessages n off g).1 = S off }.

Section Kafka.
Context `{Env, KafkaLib} (handler : string -> M (res unit)).

(** The reader commits a message that was handled or is given up; the error of a commit is logged. *)
Definition commit_message (off : nat) (g : kafka_group) : M kafka_group :=
  gc ← observe (fun n => CommitMessages n off g); mret gc.1.

Definition settle_message (off : nat) (r : res unit) (g : kafka_group) : M kafka_group :=
  match r with
  | Err err => if IsNonRetryable err then commit_message off g else mret g
  | Ok _ => commit_message off g
  end.

(** [consumeLoop] over at most [n] messages from the offset [pos], with what became of each. *)
Fixpoint consumeLoop (n pos : nat) (g : kafka_group) : M (kafka_group * list (nat * res unit)) :=
  match n with
  | O => mret (g, [])
  | S n =>
      match partition g !! pos with
      | None => mret (g, [])
      | Some body =>
          r ← handler body;
          g ← settle_message pos r g;
          gl ← consumeLoop n (S pos) g;
          mret (gl.1, (pos, r) :: gl.2)
      end
  end.

(** Sessions of a consumer, each with a reader of its own. *)
Fixpoint consume_sessions (ns : list nat) (g : kafka_group)
  : M (kafka_group * list (nat * res unit)) :=
  match ns with
  | [] => mret (g, [])
  | n :: ns =>
      gl ← consumeLoop n (committed g) g;
      gl' ← consume_sessions ns gl.1;
      mret (gl'.1, gl.2 ++ gl'.2)
  end.

Lemma settle_message_out off r g a g' b :
  settle_message off r g a = (Ret g', b) -> committed g <= off ->
  committed g <= committed g' <= S off.
Proof.
  intros E Hc. assert (Hm : forall c, commit_message off g a = (Ret c, b) -> committed g <= committed c <= S off).
  { intros c Ec. unfold commit_message in Ec. rewrite (bind_ret _ _ _ _ _ (observe_ret _ _)) in Ec.
    injection Ec as <- <-. destruct (CommitMessages_err (ticks a) off g) as [->| ->]; lia. }
  unfold settle_message in E. destruct r as [u|e]; [by apply Hm|].
  destruct (IsNonRetryable e); [by apply Hm|]. injection E as <- <-. lia.
Qed.

(** A session handles offsets from its position on, and the committed offset never goes back. *)
Lemma consumeLoop_out n : forall pos g a g' l b,
  consumeLoop n pos g a = (Ret (g', l), b) -> committed g <= pos ->
  committed g <= committed g' /\ forall o r, (o, r) ∈ l -> pos <= o.
Proof.
  induction n as [|n IH]; intros pos g a g' l b E Hc; simpl in E.
  { injection E as <- <- <-. split; [done|]. intros o r Hin. by inversion Hin. }
  destruct (partition g !! pos) as [body|]; [|injection E as <- <- <-; split; [done|];
    intros o r Hin; by inversion Hin].
  unfold mbind, M_bind in E. destruct (handler body a) as [[r|s] a1] eqn:Eh; [|done].
  destruct (settle_message pos r g a1) as [[g1|s] a2] eqn:Es; [|done].
  destruct (consumeLoop n (S pos) g1 a2) as [[[g2 l2]|s] a3] eqn:El; [|done].
  injection E as <- <- <-. pose proof (settle_message_out _ _ _ _ _ _ Es Hc) as Hs.
  destruct (IH _ _ _ _ _ _ El ltac:(lia)) as [Hc2 Hl2]. simpl. split; [lia|].
  intros o r' [[= -> ->]|Hin]%elem_of_cons; [done|]. specialize (Hl2 _ _ Hin). lia.
Qed.

Lemma consume_sessions_out ns : forall g a g' l b,
  consume_sessions ns g a = (Ret (g', l), b) ->
  committed g <= committed g' /\ forall o r, (o, r) ∈ l -> committed g <= o.
Proof.
  induction ns as [|n ns IH]; intros g a g' l b E; simpl in E.
  { injection E as <- <- <-. split; [done|]. intros o r Hin. by inversion Hin. }
  unfold mbind, M_bind in E.
  destruct (consumeLoop n (committed g) g a) as [[[g1 l1]|s] a1] eqn:E1; [|done]. simpl in E.
  destruct (consume_sessions ns g1 a1) as [[[g2 l2]|s] a2] eqn:E2; [|done].
  injection E as <- <- <-. simpl. destruct (consumeLoop_out _ _ _ _ _ _ _ E1 ltac:(done)) as [Hc1 Hl1].
  destruct (IH _ _ _ _ _ E2) as [Hc2 Hl2]. split; [lia|].
  intros o r [Hin|Hin]%elem_of_app; [by eapply Hl1|]. specialize (Hl2 _ _ Hin). lia.
Qed.

(** The commit of a later message of a session commits past the earlier ones. *)
Lemma consumeLoop_commits n : forall pos g a g' l b j,
  (forall n off g, (CommitMessages n off g).2 = None) ->
  consumeLoop n pos g a = (Ret (g', l), b) -> committed g <= pos -> (j, Ok tt) ∈ l ->
  S j <= committed g'.
Proof.
  induction n as [|n IH]; intros pos g a g' l b j Hok E Hc Hj; simpl in E.
  { injection E as <- <- <-. by inversion Hj. }
  destruct (partition g !! pos) as [body|]; [|injection E as <- <- <-; by inversion Hj].
  unfold mbind, M_bind in E. destruct (handler body a) as [[r|s] a1] eqn:Eh; [|done].
  destruct (settle_message pos r g a1) as [[g1|s] a2] eqn:Es; [|done].
  destruct (consumeLoop n (S pos) g1 a2) as [[[g2 l2]|s] a3] eqn:El; [|done].
  injection E as <- <- <-. pose proof (settle_message_out _ _ _ _ _ _ Es Hc) as Hs.
  apply elem_of_cons in Hj as [[= <- <-]|Hj]; [|by eapply (IH _ _ _ _ _ _ _ Hok El); [lia|]].
  simpl. destruct (consumeLoop_out _ _ _ _ _ _ _ El ltac:(lia)) as [Hc2 _].
  unfold settle_message, commit_message in Es. rewrite (bind_ret _ _ _ _ _ (observe_ret _ _)) in Es.
  injection Es as <- _. by rewrite (CommitMessages_ok _ _ _ (Hok _ _ _)) in Hc2.
Qed.

End Kafka.

Section KafkaLoss.
Context `{Env, KafkaLib}.

(** With Kafka a message whose handler failed is lost when a later one succeeds.  The client does
    not commit a message that should be tried again and goes on; the commit of a later message of
    the session commits past it, so no later session of the group, after any number of restarts,
    ever gets it again. *)
Theorem kafka_failed_message_lost handler n g a g1 l1 a1 i e j ns g2 l2 a2 :
  (forall n off g, (CommitMessages n off g).2 = None) ->
  consume_sessions handler [n] g a = (Ret (g1, l1), a1) ->
  (i, Err e) ∈ l1 -> IsNonRetryable e = false -> (j, Ok tt) ∈ l1 -> i < j ->
  consume_sessions handler ns g1 a1 = (Ret (g2, l2), a2) ->
  forall r, (i, r) ∉ l2.
Proof.
  intros Hok E1 _ _ Hj Hij E2 r Hin.
  assert (El : consumeLoop handler n (committed g) g a = (Ret (g1, l1), a1)).
  { simpl in E1. unfold mbind, M_bind in E1.
    destruct (consumeLoop handler n (committed g) g a) as [[[g' l']|s] a']; [|done].
    simpl in E1. by rewrite app_nil_r in E1. }
  pose proof (consumeLoop_commits _ _ _ _ _ _ _ _ _ Hok El ltac:(done) Hj) as Hc.
  destruct (consume_sessions_out _ _ _ _ _ _ _ E2) as [_ Hl]. specialize (Hl _ _ Hin). lia.
Qed.

End KafkaLoss.

(** ** Concrete runs *)

#[local] Existing Instances any_uuid plain_env plain_json no_regexp plain_robots plain_services.

#[local] Instance list_queue : AmqpQueue.
Proof.
  refine {| amqp_queue := list string; messages q := q;
            Deliver q := match q with [] => None | body :: _ => Some (body, q) end;
            Settle s q := match s with Nacked true => q | _ => tail q end |}.
  - by intros [|].
  - intros [|x q] body q' [= <- <-]. by exists q.
Defined.

Lemma bad_message_blocks_queue_witness :
  exists q' b, consume_messages (FetchWorker.handleMessage demo_worker) 3 [""; demo_message]
                 (world_of demo_db) = (Ret q', b)
    /\ messages q' = [""; demo_message] /\ db b = demo_db.
Proof.
  exact (bad_message_blocks_queue demo_worker 3 [""; demo_message] (world_of demo_db) ""
           [demo_message] eq_refl unmarshal_empty).
Defined.

#[local] Instance list_partition : KafkaLib.
Proof.
  refine {| kafka_group := list string * nat; partition g := g.1; committed g := g.2;
            CommitMessages _ off g := ((g.1, S off), None) |}; [done|done|by right].
Defined.

(** A handler that fails on one message. *)
Definition picky (body : string) : M (res unit) :=
  if decide (body = "bad") then ret_err (ENew "try again") else ret_ok tt.

Lemma kafka_failed_message_lost_witness :
  exists g1 l1 a1, consume_sessions picky [2] (["bad"; "good"], 0) (world_of empty_db)
                   = (Ret (g1, l1), a1)
    /\ (0, Err (ENew "try again")) ∈ l1
    /\ forall ns g2 l2 a2 r, consume_sessions picky ns g1 a1 = (Ret (g2, l2), a2) -> (0, r) ∉ l2.
Proof.
  set (l := [(0, Err (ENew "try again")); (1, Ok tt)]).
  assert (E : exists a1, consume_sessions picky [2] (["bad"; "good"], 0) (world_of empty_db)
    = (Ret ((["bad"; "good"], 2), l), a1)) by (eexists; vm_compute; reflexivity).
  destruct E as [a1 E]. exists (["bad"; "good"], 2), l, a1. split; [exact E|].
  split; [left|]. intros ns g2 l2 a2 r E2.
  eapply (kafka_failed_message_lost picky 2 _ _ _ l _ 0 (ENew "try again") 1 ns g2 l2 a2
            ltac:(done) E ltac:(left) ltac:(done) ltac:(right; left) ltac:(lia) E2).
Defined.

#[local] Instance steady_amqp : AmqpLib := {|
  amqp_IsClosed _ := false; amqp_Dial _ := None; amqp_Channel _ := None;
  amqp_QueueDeclare _ _ := None; amqp_Publish _ _ _ := (true, None); amqp_ctx _ := None;
  amqp_Publish_written _ _ _ _ := eq_refl |}.

Definition demo_crawl : message :=
  MsgCrawl {| MTaskID := "t1"; MJobID := "j1"; MURL := "http://a.b/"; MEnqueuedAt := 7;
              MTraceContext := ∅ |}.

Lemma rabbit_publish_outcome_witness :
  exists b, Rabbit_Publish "crawl" demo_crawl (world_of empty_db) = (Ret (Ok tt), b)
    /\ published b = [("crawl", demo_crawl)].
Proof.
  destruct (rabbit_publish_outcome "crawl" demo_crawl (world_of empty_db))
    as (r & b & k & E & (_ & _ & _ & Hp) & _ & _ & Hcalm & _).
  destruct (Hcalm ltac:(done) eq_refl) as [-> ->]. exists b. split; [exact E|exact Hp].
Defined.
