(* ===== verification/MemoryBroker.v ===== *)
(** * The memory broker

    [infra/messaging/memory/broker]: the server that keeps the queues in buffered channels and the
    client of the workers.  The handlers of the server run concurrently; every use of a channel is
    one step, so a run is a list of steps in any order.  [server_act] is the server; a subscriber is
    a call of [Subscribe], with the payload it took from its queue and has not sent yet. *)

From S2P Require Import Prelude GoStrings Domain Json Converters World Sql Repos GoUrl Scope FetchWorker Messaging.
#[local] Open Scope nat_scope.

(** ** server.go *)

Definition defaultCapacity : Z := 1000.

(** [requeued] and [dropped] are the payloads whose sending failed, [taken] and [entered] everything
    that was ever read from and written to the queues: a history beside the state. *)
Record BrokerServer := {
  queues : gmap string (list string);
  queueCap : nat;
  subscribers : gmap nat (string * option string);
  sent : list (string * string);
  dropped : list (string * string);
  taken : list (string * string);
  entered : list (string * string) }.

Definition NewBrokerServer (capacity : Z) : BrokerServer :=
  {| queues := ∅;
     queueCap := Z.to_nat (if (capacity <=? 0)%Z then defaultCapacity else capacity);
     subscribers := ∅; sent := []; dropped := []; taken := []; entered := [] |}.

(** The channel of a name; [s.queue] makes it when it is not there. *)
Definition queue (name : string) (s : BrokerServer) : list string := default [] (queues s !! name).

Definition set_queues (f : gmap string (list string) -> gmap string (list string))
    (s : BrokerServer) : BrokerServer :=
  {| queues := f (queues s); queueCap := queueCap s; subscribers := subscribers s; sent := sent s;
     dropped := dropped s; taken := taken s; entered := entered s |}.
Definition set_subscriber (i : nat) (o : option (string * option string)) (s : BrokerServer)
  : BrokerServer :=
  {| queues := queues s; queueCap := queueCap s;
     subscribers := match o with Some x => <[i := x]> (subscribers s) | None => delete i (subscribers s) end;
     sent := sent s; dropped := dropped s; taken := taken s; entered := entered s |}.

(** [select { case q <- payload: default: }]: whether there was room. *)
Definition try_send (name payload : string) (s : BrokerServer) : bool * BrokerServer :=
  if length (queue name s) <? queueCap s then
    (true, {| queues := <[name := queue name s ++ [payload]]> (queues s); queueCap := queueCap s;
              subscribers := subscribers s; sent := sent s; dropped := dropped s; taken := taken s;
              entered := entered s ++ [(name, payload)] |})
  else (false, set_queues (<[name := queue name s]>) s).

Inductive code := OK | InvalidArgument | ResourceExhausted.

Definition Push (name payload : string) (s : BrokerServer) : code * BrokerServer :=
  if decide (name = "") then (InvalidArgument, s)
  else let '(ok, s) := try_send name payload s in (if ok then OK else ResourceExhausted, s).

(** [Subscribe] of the subscriber [i] up to its loop. *)
Definition subscribe (i : nat) (name : string) (s : BrokerServer) : code * BrokerServer :=
  if decide (name = "") then (InvalidArgument, s)
  else (OK, set_subscriber i (Some (name, None)) (set_queues (<[name := queue name s]>) s)).

(** [case payload := <-q]. *)
Definition receive (i : nat) (s : BrokerServer) : BrokerServer :=
  match subscribers s !! i with
  | Some (name, None) =>
      match queue name s with
      | payload :: rest =>
          set_subscriber i (Some (name, Some payload))
            {| queues := <[name := rest]> (queues s); queueCap := queueCap s;
               subscribers := subscribers s; sent := sent s; dropped := dropped s;
               taken := taken s ++ [(name, payload)]; entered := entered s |}
      | [] => s
      end
  | _ => s
  end.

(** [stream.Send] without and with an error, which ends the call. *)
Definition send_ok (i : nat) (s : BrokerServer) : BrokerServer :=
  match subscribers s !! i with
  | Some (name, Some payload) =>
      set_subscriber i (Some (name, None))
        {| queues := queues s; queueCap := queueCap s; subscribers := subscribers s;
           sent := sent s ++ [(name, payload)]; dropped := dropped s; taken := taken s;
           entered := entered s |}
  | _ => s
  end.

Definition send_fails (i : nat) (s : BrokerServer) : BrokerServer :=
  match subscribers s !! i with
  | Some (name, Some payload) =>
      let '(ok, s) := try_send name payload (set_subscriber i None s) in
      if ok then s
      else {| queues := queues s; queueCap := queueCap s; subscribers := subscribers s;
              sent := sent s; dropped := dropped s ++ [(name, payload)]; taken := taken s;
              entered := entered s |}
  | _ => s
  end.

(** The context of the stream ends the call between two payloads. *)
Definition cancel (i : nat) (s : BrokerServer) : BrokerServer :=
  match subscribers s !! i with
  | Some (_, None) => set_subscriber i None s
  | _ => s
  end.

Inductive server_step :=
| SPush (name payload : string)
| SSubscribe (i : nat) (name : string)
| SReceive (i : nat)
| SSendOk (i : nat)
| SSendFails (i : nat)
| SCancel (i : nat).

(** A subscriber is subscribed once. *)
Definition server_act (x : server_step) (s : BrokerServer) : BrokerServer :=
  match x with
  | SPush name payload => (Push name payload s).2
  | SSubscribe i name =>
      match subscribers s !! i with None => (subscribe i name s).2 | Some _ => s end
  | SReceive i => receive i s
  | SSendOk i => send_ok i s
  | SSendFails i => send_fails i s
  | SCancel i => cancel i s
  end.

Definition server_run (l : list server_step) (s : BrokerServer) : BrokerServer :=
  fold_left (fun s x => server_act x s) l s.

(** The payloads pushed with the answer OK, in order. *)
Fixpoint accepted (l : list server_step) (s : BrokerServer) : list (string * string) :=
  match l with
  | [] => []
  | x :: l =>
      match x with
      | SPush name payload =>
          match (Push name payload s).1 with OK => [(name, payload)] | _ => [] end
      | _ => []
      end ++ accepted l (server_act x s)
  end.

(** ** Where the payloads are *)

Definition queued_in (m : gmap string (list string)) : list (string * string) :=
  map_to_list m ≫= fun x => pair x.1 <$> x.2.
Definition held_in (m : gmap nat (string * option string)) : list (string * string) :=
  omap (fun x : nat * (string * option string) => pair x.2.1 <$> x.2.2) (map_to_list m).

Definition everywhere (s : BrokerServer) : list (string * string) :=
  queued_in (queues s) ++ held_in (subscribers s) ++ sent s ++ dropped s.

(** The payloads of one queue. *)
Definition of_queue (name : string) (l : list (string * string)) : list string :=
  snd <$> filter (fun p => p.1 = name) l.

Lemma queued_delete m name :
  queued_in m ≡ₚ (pair name <$> default [] (m !! name)) ++ queued_in (delete name m).
Proof.
  destruct (m !! name) as [l|] eqn:E; simpl.
  - unfold queued_in. rewrite <- (map_to_list_delete m name l E). simpl. done.
  - by rewrite delete_id.
Qed.

Lemma queued_insert m name l :
  queued_in (<[name := l]> m) ≡ₚ (pair name <$> l) ++ queued_in (delete name m).
Proof.
  rewrite (queued_delete (<[name := l]> m) name), lookup_insert_eq. simpl.
  by rewrite delete_insert_eq.
Qed.

Lemma held_delete m i x :
  m !! i = Some x ->
  held_in m ≡ₚ match x.2 with Some p => [(x.1, p)] | None => [] end ++ held_in (delete i m).
Proof.
  intros E. unfold held_in. rewrite <- (map_to_list_delete m i x E). simpl.
  by destruct (x.2).
Qed.

Lemma held_insert m i x :
  held_in (<[i := x]> m)
  ≡ₚ match x.2 with Some p => [(x.1, p)] | None => [] end ++ held_in (delete i m).
Proof.
  rewrite (held_delete _ i x) by apply lookup_insert_eq. by rewrite delete_insert_eq.
Qed.

Lemma held_idle m i name : m !! i = Some (name, None) -> held_in (delete i m) ≡ₚ held_in m.
Proof. intros E. by rewrite (held_delete m i _ E). Qed.

Lemma queued_touch m name : queued_in (<[name := default [] (m !! name)]> m) ≡ₚ queued_in m.
Proof. by rewrite queued_insert, <- queued_delete. Qed.

(** A send to a channel with room enters the payload; otherwise nothing moves. *)
Lemma try_send_everywhere name payload s ok s' :
  try_send name payload s = (ok, s') ->
  everywhere s' ≡ₚ everywhere s ++ (if ok then [(name, payload)] else [])
  /\ subscribers s' = subscribers s /\ queueCap s' = queueCap s /\ dropped s' = dropped s
  /\ sent s' = sent s /\ taken s' = taken s
  /\ entered s' = entered s ++ (if ok then [(name, payload)] else [])
  /\ ok = (length (queue name s) <? queueCap s)
  /\ forall n, queue n s' = queue n s ++ (if ok then of_queue n [(name, payload)] else []).
Proof.
  unfold try_send. destruct (length (queue name s) <? queueCap s) eqn:El; intros [= <- <-];
    unfold everywhere; simpl.
  - split; [|repeat (split; [done|])].
    + rewrite queued_insert, (queued_delete (queues s) name). fold (queue name s).
      rewrite fmap_app. simpl. rewrite <- !app_assoc. solve_Permutation.
    + intros n. unfold queue at 1. simpl. unfold of_queue. rewrite filter_cons. simpl.
      destruct (decide (n = name)) as [->|Hn].
      * rewrite lookup_insert_eq, decide_True by done. done.
      * rewrite lookup_insert_ne, decide_False by done. simpl. by rewrite app_nil_r.
  - rewrite !app_nil_r. split; [|repeat (split; [done|])].
    + unfold queue. by rewrite queued_touch.
    + intros n. rewrite app_nil_r. unfold queue at 1. simpl.
      destruct (decide (n = name)) as [->|Hn]; [by rewrite lookup_insert_eq|by rewrite lookup_insert_ne].
Qed.

Lemma of_queue_app n l k : of_queue n (l ++ k) = of_queue n l ++ of_queue n k.
Proof. unfold of_queue. by rewrite filter_app, fmap_app. Qed.

Lemma of_queue_one n name p : of_queue n [(name, p)] = if decide (name = n) then [p] else [].
Proof. unfold of_queue. rewrite filter_cons. simpl. by case_decide. Qed.

Definition accepted_by (x : server_step) (s : BrokerServer) : list (string * string) :=
  match x with
  | SPush name payload => match (Push name payload s).1 with OK => [(name, payload)] | _ => [] end
  | _ => []
  end.

(** What holds of a server that accepted [acc]. *)
Record server_ok (acc : list (string * string)) (s : BrokerServer) : Prop := {
  ok_places : everywhere s ≡ₚ acc;
  ok_room : forall n, length (queue n s) <= queueCap s;
  ok_fifo : forall n, of_queue n (taken s) ++ queue n s = of_queue n (entered s) }.

Lemma try_send_ok acc name payload s ok s' :
  try_send name payload s = (ok, s') -> server_ok acc s ->
  server_ok (acc ++ if ok then [(name, payload)] else []) s'.
Proof.
  intros E [Hp Hr Hf].
  destruct (try_send_everywhere _ _ _ _ _ E) as (Hp' & _ & Hc & _ & _ & Ht & He & Hok & Hq).
  split.
  - by rewrite Hp', Hp.
  - intros n. rewrite Hq, Hc, length_app. specialize (Hr n). destruct ok; simpl; [|lia].
    symmetry in Hok. apply Nat.ltb_lt in Hok. rewrite of_queue_one.
    case_decide as Hn; simpl; [subst n; lia|lia].
  - intros n. rewrite Hq, Ht, He, of_queue_app, app_assoc, Hf. by destruct ok.
Qed.

(** Changing the subscribers of a server without moving a payload. *)
Lemma set_subscriber_ok acc i o s :
  server_ok acc s -> held_in (subscribers (set_subscriber i o s)) ≡ₚ held_in (subscribers s) ->
  server_ok acc (set_subscriber i o s).
Proof.
  intros [Hp Hr Hf] Hh. split; [|done|done]. rewrite <- Hp. unfold everywhere.
  by rewrite Hh.
Qed.

Lemma subscribe_ok acc i name s :
  subscribers s !! i = None -> server_ok acc s -> server_ok acc (subscribe i name s).2.
Proof.
  intros Hi Hs. unfold subscribe. case_decide; [done|]. simpl.
  assert (Hq : forall n, queue n (set_queues (<[name:=queue name s]>) s) = queue n s).
  { intros n. unfold queue, set_queues. simpl.
    destruct (decide (n = name)) as [->|Hn]; [by rewrite lookup_insert_eq|by rewrite lookup_insert_ne]. }
  apply set_subscriber_ok.
  - destruct Hs as [Hp Hr Hf]. split.
    + rewrite <- Hp. unfold everywhere, set_queues, queue. simpl. by rewrite queued_touch.
    + intros n. by rewrite Hq.
    + intros n. by rewrite Hq.
  - simpl. rewrite held_insert. simpl. by rewrite delete_id.
Qed.

Lemma receive_ok acc i s : server_ok acc s -> server_ok acc (receive i s).
Proof.
  intros Hs. unfold receive. destruct (subscribers s !! i) as [[name [p|]]|] eqn:Ei; [done| |done].
  destruct (queue name s) as [|payload rest] eqn:Eq; [done|]. destruct Hs as [Hp Hr Hf].
  assert (Hq : forall n, queue n (set_subscriber i (Some (name, Some payload))
     {| queues := <[name := rest]> (queues s); queueCap := queueCap s; subscribers := subscribers s;
        sent := sent s; dropped := dropped s; taken := taken s ++ [(name, payload)];
        entered := entered s |}) = if decide (n = name) then rest else queue n s).
  { intros n. unfold queue. simpl. case_decide as Hn; [subst; by rewrite lookup_insert_eq|].
    by rewrite lookup_insert_ne. }
  split.
  - rewrite <- Hp. unfold everywhere. simpl. rewrite queued_insert, held_insert. simpl.
    rewrite (held_idle _ _ _ Ei), (queued_delete (queues s) name). fold (queue name s).
    rewrite Eq. simpl. solve_Permutation.
  - intros n. rewrite Hq. simpl. case_decide as Hn; [|done]. subst n.
    specialize (Hr name). rewrite Eq in Hr. simpl in Hr. lia.
  - intros n. rewrite Hq. simpl. rewrite of_queue_app, <- Hf, of_queue_one.
    destruct (decide (name = n)) as [->|Hn].
    + rewrite decide_True, Eq by done. simpl. by rewrite <- app_assoc.
    + rewrite decide_False by done. simpl. by rewrite app_nil_r.
Qed.

Lemma send_ok_ok acc i s : server_ok acc s -> server_ok acc (send_ok i s).
Proof.
  intros Hs. unfold send_ok. destruct (subscribers s !! i) as [[name [p|]]|] eqn:Ei; [|done|done].
  destruct Hs as [Hp Hr Hf]. split; [|done|done]. rewrite <- Hp. unfold everywhere. simpl.
  rewrite held_insert, (held_delete _ _ _ Ei). simpl. solve_Permutation.
Qed.

Lemma send_fails_ok acc i s : server_ok acc s -> server_ok acc (send_fails i s).
Proof.
  intros Hs. unfold send_fails. destruct (subscribers s !! i) as [[name [p|]]|] eqn:Ei; [|done|done].
  destruct (try_send name p (set_subscriber i None s)) as [ok s'] eqn:E.
  destruct (try_send_everywhere _ _ _ _ _ E) as (Hp' & Hsub & Hc & Hd & Hsent & Ht & He & Hok & Hq).
  destruct Hs as [Hp Hr Hf].
  assert (Hw : everywhere s ≡ₚ (name, p) :: everywhere (set_subscriber i None s)).
  { unfold everywhere. simpl. rewrite (held_delete _ _ _ Ei). simpl. solve_Permutation. }
  change (queueCap (set_subscriber i None s)) with (queueCap s) in *.
  change (queue name (set_subscriber i None s)) with (queue name s) in *.
  assert (Hlen : forall n, length (queue n s') <= queueCap s').
  { intros n. rewrite Hq, Hc, length_app. specialize (Hr n). change (queue n (set_subscriber i None s)) with (queue n s).
    destruct ok; simpl; [|lia]. symmetry in Hok. apply Nat.ltb_lt in Hok.
    rewrite of_queue_one. case_decide as Hn; simpl; [|lia]. subst n. lia. }
  assert (Hfifo : forall n, of_queue n (taken s') ++ queue n s' = of_queue n (entered s')).
  { intros n. rewrite Hq, Ht, He, of_queue_app, app_assoc.
    change (queue n (set_subscriber i None s)) with (queue n s). simpl. rewrite Hf. by destruct ok. }
  destruct ok.
  - split; [|exact Hlen|exact Hfifo]. rewrite Hp', <- Hp, Hw. solve_Permutation.
  - split; [|exact Hlen|exact Hfifo]. rewrite <- Hp, Hw.
    assert (Hx : everywhere s' ≡ₚ everywhere (set_subscriber i None s)) by (by rewrite Hp', app_nil_r).
    rewrite <- Hx. unfold everywhere. simpl. solve_Permutation.
Qed.

Lemma cancel_ok acc i s : server_ok acc s -> server_ok acc (cancel i s).
Proof.
  intros Hs. unfold cancel. destruct (subscribers s !! i) as [[name [p|]]|] eqn:Ei; [done| |done].
  apply set_subscriber_ok; [done|]. simpl. by apply (held_idle _ _ name).
Qed.

Lemma server_act_ok acc x s :
  server_ok acc s -> server_ok (acc ++ accepted_by x s) (server_act x s).
Proof.
  intros Hs. destruct x as [name payload|i name|i|i|i|i]; simpl; rewrite ?app_nil_r.
  - unfold Push. case_decide; simpl; [by rewrite app_nil_r|].
    destruct (try_send name payload s) as [ok s'] eqn:E.
    pose proof (try_send_ok _ _ _ _ _ _ E Hs) as Hs'. by destruct ok.
  - destruct (subscribers s !! i) eqn:Ei; [done|by apply subscribe_ok].
  - by apply receive_ok.
  - by apply send_ok_ok.
  - by apply send_fails_ok.
  - by apply cancel_ok.
Qed.

Lemma accepted_cons x l s : accepted (x :: l) s = accepted_by x s ++ accepted l (server_act x s).
Proof. done. Qed.

Lemma server_run_ok l : forall acc s, server_ok acc s -> server_ok (acc ++ accepted l s) (server_run l s).
Proof.
  induction l as [|x l IH]; intros acc s Hs; [by rewrite app_nil_r|].
  rewrite accepted_cons, app_assoc. apply IH. by apply server_act_ok.
Qed.

(** A payload is dropped only by a failed send whose queue is full. *)
Lemma dropped_when_full x s :
  dropped (server_act x s) = dropped s
  \/ exists i name p, x = SSendFails i /\ subscribers s !! i = Some (name, Some p)
       /\ queueCap s <= length (queue name s) /\ dropped (server_act x s) = dropped s ++ [(name, p)].
Proof.
  destruct x as [name payload|i name|i|i|i|i]; simpl.
  - left. unfold Push. case_decide; [done|]. destruct (try_send name payload s) as [ok s'] eqn:E.
    by destruct (try_send_everywhere _ _ _ _ _ E) as (_ & _ & _ & Hd & _).
  - left. destruct (subscribers s !! i); [done|]. unfold subscribe. by case_decide.
  - left. unfold receive. destruct (subscribers s !! i) as [[name [p|]]|]; [done| |done].
    by destruct (queue name s).
  - left. unfold send_ok. by destruct (subscribers s !! i) as [[name [p|]]|].
  - unfold send_fails. destruct (subscribers s !! i) as [[name [p|]]|] eqn:Ei; [|by left|by left].
    destruct (try_send name p (set_subscriber i None s)) as [ok s'] eqn:E.
    destruct (try_send_everywhere _ _ _ _ _ E) as (_ & _ & _ & Hd & _ & _ & _ & Hok & _).
    destruct ok; [by left|]. right. exists i, name, p. split; [done|]. split; [done|]. split.
    + symmetry in Hok. by apply Nat.ltb_ge in Hok.
    + simpl. by rewrite Hd.
  - left. unfold cancel. by destruct (subscribers s !! i) as [[name [p|]]|].
Qed.

(** Without failed sends only pushes enter the queues. *)
Lemma entered_accepted l : forall s,
  (forall i, SSendFails i ∉ l) -> entered (server_run l s) = entered s ++ accepted l s.
Proof.
  induction l as [|x l IH]; intros s Hl; [by rewrite app_nil_r|].
  rewrite accepted_cons. change (server_run (x :: l) s) with (server_run l (server_act x s)).
  rewrite IH by (intros i Hi; apply (Hl i); by right). rewrite app_assoc. f_equal.
  destruct x as [name payload|i name|i|i|i|i]; simpl; rewrite ?app_nil_r.
  - unfold Push. case_decide; simpl; [by rewrite app_nil_r|].
    destruct (try_send name payload s) as [ok s'] eqn:E.
    destruct (try_send_everywhere _ _ _ _ _ E) as (_ & _ & _ & _ & _ & _ & He & _).
    by destruct ok.
  - destruct (subscribers s !! i); [done|]. unfold subscribe. by case_decide.
  - unfold receive. destruct (subscribers s !! i) as [[name [p|]]|]; [done| |done].
    by destruct (queue name s).
  - unfold send_ok. by destruct (subscribers s !! i) as [[name [p|]]|].
  - by destruct (Hl i); left.
  - unfold cancel. by destruct (subscribers s !! i) as [[name [p|]]|].
Qed.

Lemma dropped_none l : forall s,
  (forall i, SSendFails i ∉ l) -> dropped (server_run l s) = dropped s.
Proof.
  induction l as [|x l IH]; intros s Hl; [done|].
  change (server_run (x :: l) s) with (server_run l (server_act x s)).
  rewrite IH by (intros i Hi; apply (Hl i); by right).
  destruct (dropped_when_full x s) as [?|(i & ? & ? & -> & _)]; [done|]. by destruct (Hl i); left.
Qed.

(** C28: the memory broker loses nothing on its own.  After any interleaving of pushes, subscribers
    and sends, the payloads that were accepted are, each exactly once, in a queue, in the hands of a
    subscriber, sent, or dropped; a queue never holds more than its capacity and is served in the
    order in which payloads entered it; and a payload is dropped only when a send failed and its
    queue was full meanwhile.  Without failed sends nothing is dropped and every queue is delivered in
    the order of the pushes. *)
Theorem memory_broker_sound capacity l :
  let s0 := NewBrokerServer capacity in
  let s := server_run l s0 in
  everywhere s ≡ₚ accepted l s0
  /\ (forall n, length (queue n s) <= queueCap s)
  /\ (forall n, of_queue n (taken s) ++ queue n s = of_queue n (entered s))
  /\ ((forall i, SSendFails i ∉ l) ->
      dropped s = []
      /\ forall n, of_queue n (taken s) ++ queue n s = of_queue n (accepted l s0))
  /\ (forall x, dropped (server_act x s) = dropped s
      \/ exists i name p, x = SSendFails i /\ subscribers s !! i = Some (name, Some p)
           /\ length (queue name s) = queueCap s
           /\ dropped (server_act x s) = dropped s ++ [(name, p)]).
Proof.
  intros s0 s. assert (Hs : server_ok ([] ++ accepted l s0) s).
  { apply server_run_ok. assert (Hq : forall n, queue n s0 = []) by (intros n; unfold queue; simpl; by rewrite lookup_empty).
    split; [done|intros n; rewrite Hq; simpl; lia|intros n; by rewrite Hq]. }
  destruct Hs as [Hp Hr Hf]. split; [exact Hp|]. split; [exact Hr|]. split; [exact Hf|]. split.
  - intros Hl. split; [by apply (dropped_none l s0)|]. intros n. rewrite Hf.
    unfold s. rewrite (entered_accepted l s0 Hl). done.
  - intros x. destruct (dropped_when_full x s) as [?|(i & name & p & Hx & Hi & Hc & Hd)]; [by left|].
    right. exists i, name, p. do 2 (split; [done|]). split; [|done]. by apply Nat.le_antisymm.
Qed.

(** ** grpc_client.go *)

(** What the client does with a payload after its handler: only one that should be tried again is
    pushed to the queue, behind the others; the error of the push is logged. *)
Definition client_settle (name payload : string) (r : res unit) (s : BrokerServer) : BrokerServer :=
  match r with
  | Ok _ => s
  | Err err => if IsNonRetryable err then s else (Push name payload s).2
  end.

(** A payload that should be tried again is lost when its queue is full. *)
Lemma retry_lost_when_full name payload err s :
  IsNonRetryable err = false -> length (queue name s) = queueCap s ->
  everywhere (client_settle name payload (Err err) s) ≡ₚ everywhere s.
Proof.
  intros He Hf. unfold client_settle. rewrite He. unfold Push. case_decide; [done|].
  destruct (try_send name payload s) as [ok s'] eqn:E.
  destruct (try_send_everywhere _ _ _ _ _ E) as (Hp & _ & _ & _ & _ & _ & _ & Hok & _).
  rewrite Hf, Nat.ltb_irrefl in Hok. subst ok. simpl. by rewrite Hp, app_nil_r.
Qed.

(** ** A run: a full queue, a failed send that finds room again, and one that does not *)

Example demo_run :
  let s := server_run [SPush "q" "a"; SPush "q" "b"; SPush "q" "c"; SSubscribe 0 "q"; SReceive 0;
                       SSendFails 0; SSubscribe 1 "q"; SReceive 1; SPush "q" "d"; SSendFails 1]
                      (NewBrokerServer 2) in
  queue "q" s = ["a"; "d"] /\ dropped s = [("q", "b")] /\ sent s = [].
Proof. vm_compute. done. Qed.
