(* ===== verification/Consumers.v ===== *)
(** * The loops around the consumers, and Kafka's writers

    [rabbitmq/client.go], [kafka/client.go] and [memory/broker/grpc_client.go]: [Consume] connects, reads messages until its session
    breaks, waits and connects again, until its context is done.  A consumer is a machine: a step is
    an attempt to connect, a wait, one event of an open session, or for Kafka a session.  What
    happens in each step is answered by the classes. *)

From S2P Require Import Prelude GoStrings Domain Json Converters World Sql Repos GoUrl Scope.
From S2P Require Import FetchWorker Messaging MemoryBroker.

(** What the select of an open session takes; a closed notification channel answers [nil]. *)
Inductive amqp_event :=
| EvCtxDone
| EvChannelClosed (err : option gerror)
| EvMsgsClosed
| EvArrived.

(** More of [amqp091-go]: quality of service, consumption, what the select takes and whether an
    acknowledgement reaches the broker. *)
Class AmqpConsumerLib `{AmqpLib} := {
  amqp_Qos : nat -> option gerror;
  amqp_Consume : nat -> string -> option gerror;
  amqp_Select : nat -> amqp_event;
  amqp_Settled : nat -> bool }.

(** Where a call of [Consume] stands; [Sleeping wait next] waits and goes on with the back-off
    [next]. *)
Inductive consumer_phase :=
| Connecting (backoff : Z)
| Sleeping (wait next : Z)
| Listening
| Returned (err : gerror).

Definition maxConsumeBackoff : Z := 30 * Second.

(** [select { case <-time.After(backoff): backoff = min(backoff*2, maxBackoff); ... }] *)
Definition retry_later (backoff : Z) : consumer_phase :=
  Sleeping backoff (Z.min (backoff * 2) maxConsumeBackoff).

Section RabbitConsumer.
Context `{Env, AmqpConsumerLib, AmqpQueue} (handler : string -> M (res unit)) (queueName : string).

(** A channel that delivers from the queue. *)
Definition open_session : M (res unit) :=
  try _ <- observe (fun n => of_error (amqp_Channel n)) else e => ret_err e;
  try _ <- observe (fun n => of_error (amqp_QueueDeclare n queueName)) else e => ret_err e;
  try _ <- observe (fun n => of_error (amqp_Qos n)) else e => ret_err e;
  try _ <- observe (fun n => of_error (amqp_Consume n queueName)) else e => ret_err e;
  ret_ok tt.

(** The connection resets the back-off before the channel is opened. *)
Definition connect_step (backoff : Z) : M consumer_phase :=
  stop ← observe amqp_ctx;
  match stop with
  | Some e => mret (Returned e)
  | None =>
      conn ← ensureConnection;
      match conn with
      | Err _ => mret (retry_later backoff)
      | Ok _ =>
          let backoff := Second in
          session ← open_session;
          match session with
          | Err _ => mret (retry_later backoff)
          | Ok _ => mret Listening
          end
      end
  end.

Definition sleep_step (next : Z) : M consumer_phase :=
  stop ← observe amqp_ctx;
  mret (match stop with Some e => Returned e | None => Connecting next end).

(** A message whose acknowledgement is lost comes again. *)
Definition deliver (q : amqp_queue) : M amqp_queue :=
  match Deliver q with
  | None => mret q
  | Some (body, q') =>
      r ← handler body;
      settled ← observe amqp_Settled;
      mret (Settle (if (settled : bool) then settle r else Nacked true) q')
  end.

(** After a session the loop waits for a second. *)
Definition listen_step (q : amqp_queue) : M (consumer_phase * amqp_queue) :=
  ev ← observe amqp_Select;
  match ev with
  | EvCtxDone | EvChannelClosed (Some _) | EvMsgsClosed => mret (Sleeping Second Second, q)
  | EvChannelClosed None => mret (Listening, q)
  | EvArrived => q' ← deliver q; mret (Listening, q')
  end.

Definition consumer_step (s : consumer_phase * amqp_queue) : M (consumer_phase * amqp_queue) :=
  match s.1 with
  | Connecting backoff => ph ← connect_step backoff; mret (ph, s.2)
  | Sleeping _ next => ph ← sleep_step next; mret (ph, s.2)
  | Listening => listen_step s.2
  | Returned _ => mret s
  end.

Fixpoint consumer_run (n : nat) (s : consumer_phase * amqp_queue)
  : M (consumer_phase * amqp_queue) :=
  match n with
  | O => mret s
  | S n => s' ← consumer_step s; consumer_run n s'
  end.

(** [Consume] after [n] steps. *)
Definition Rabbit_Consume (n : nat) (q : amqp_queue) : M (consumer_phase * amqp_queue) :=
  consumer_run n (Connecting Second, q).

End RabbitConsumer.

(** ** kafka/client.go *)

(** The writer of a topic; its other settings are constants. *)
Record kafka_writer := { kw_brokers : list string; kw_topic : string; kw_MaxAttempts : nat }.
Record kafka_client := {
  kc_brokers : list string; kc_consumerGroup : string; kc_writers : gmap string kafka_writer }.

(** [kafka-go] at the [n]-th call: how often [WriteMessages] wrote the message and its error, how
    many messages a session reads before it ends and the error of its last fetch, and [ctx.Err()]. *)
Class KafkaClientLib := {
  kafka_Write : nat -> kafka_writer -> message -> nat * option gerror;
  kafka_session : nat -> nat * option gerror;
  kafka_ctx : nat -> option gerror;
  kafka_Write_ok n w m : (kafka_Write n w m).2 = None -> (1 <= (kafka_Write n w m).1)%nat;
  kafka_Write_le n w m : ((kafka_Write n w m).1 <= kw_MaxAttempts w)%nat }.

Definition kafka_NewClient (brokers : list string) (consumerGroup : string) : kafka_client :=
  {| kc_brokers := brokers; kc_consumerGroup := consumerGroup; kc_writers := ∅ |}.

Definition getWriter (c : kafka_client) (topic : string) : kafka_writer * kafka_client :=
  match kc_writers c !! topic with
  | Some w => (w, c)
  | None =>
      let w := {| kw_brokers := kc_brokers c; kw_topic := topic; kw_MaxAttempts := 3 |} in
      (w, {| kc_brokers := kc_brokers c; kc_consumerGroup := kc_consumerGroup c;
             kc_writers := <[topic := w]> (kc_writers c) |})
  end.

Fixpoint add_messages (n : nat) (q : string) (m : message) (w : world) : world :=
  match n with O => w | S n => add_messages n q m (add_message q m w) end.

Section KafkaClient.
Context `{Env, KafkaClientLib}.

Definition WriteMessages (wr : kafka_writer) (m : message) : M (res unit) := fun w =>
  let '(k, err) := kafka_Write (ticks w) wr m in
  (Ret (of_error err), add_messages k (kw_topic wr) m (tick w)).

Definition Kafka_Publish (c : kafka_client) (topic : string) (m : message)
  : M (kafka_client * res unit) :=
  if negb (message_marshals m)
  then mret (c, Err (Errorf "failed to marshal message"
                       (ENew "Time.MarshalJSON: year outside of range [0,9999]")))
  else
    let '(wr, c) := getWriter c topic in
    r ← WriteMessages wr m;
    mret (c, match r with
             | Err e => Err (Errorf ("failed to publish to kafka topic " +:+ topic) e)
             | Ok _ => Ok tt
             end).

(** Publications of one client, to any topics. *)
Fixpoint kafka_publishes (c : kafka_client) (ms : list (string * message))
  : M (kafka_client * list (res unit)) :=
  match ms with
  | [] => mret (c, [])
  | (topic, m) :: ms =>
      cr ← Kafka_Publish c topic m;
      crs ← kafka_publishes cr.1 ms;
      mret (crs.1, cr.2 :: crs.2)
  end.

End KafkaClient.

Section KafkaConsumer.
Context `{Env, KafkaLib, KafkaClientLib} (handler : string -> M (res unit)).

(** One round of [Consume]: a reader, its session, and a wait when it ended with an error.  The
    back-off is not reset by a session that went well. *)
Definition kafka_connect (backoff : Z) (g : kafka_group)
  : M (consumer_phase * (kafka_group * list (nat * res unit))) :=
  stop ← observe kafka_ctx;
  match stop with
  | Some e => mret (Returned e, (g, []))
  | None =>
      s ← observe kafka_session;
      gl ← consumeLoop handler s.1 (committed g) g;
      stop ← observe kafka_ctx;
      mret (match stop, s.2 with
            | Some e, _ => Returned e
            | None, Some _ => retry_later backoff
            | None, None => Connecting backoff
            end, gl)
  end.

Definition kafka_sleep (next : Z) : M consumer_phase :=
  stop ← observe kafka_ctx;
  mret (match stop with Some e => Returned e | None => Connecting next end).

(** [Consume] after [n] steps from a phase: the group and what became of the messages. *)
Fixpoint kafka_run (n : nat) (ph : consumer_phase) (g : kafka_group)
  : M (consumer_phase * (kafka_group * list (nat * res unit))) :=
  match n with
  | O => mret (ph, (g, []))
  | S n =>
      match ph with
      | Connecting backoff =>
          s ← kafka_connect backoff g;
          s' ← kafka_run n s.1 s.2.1;
          mret (s'.1, (s'.2.1, s.2.2 ++ s'.2.2))
      | Sleeping _ next => ph ← kafka_sleep next; kafka_run n ph g
      | _ => mret (ph, (g, []))
      end
  end.

Definition Kafka_Consume (n : nat) (g : kafka_group)
  : M (consumer_phase * (kafka_group * list (nat * res unit))) :=
  kafka_run n (Connecting Second) g.

End KafkaConsumer.

(** ** memory/broker/grpc_client.go *)

(** The gRPC stream at the [n]-th call: [ctx.Err()], the errors of [Subscribe] and of [Push], and
    what [Recv] answers. *)
Class MemoryClientLib := {
  mem_ctx : nat -> option gerror;
  mem_Subscribe : nat -> option gerror;
  mem_Recv : nat -> res string;
  mem_Push : nat -> string -> string -> option gerror }.

Section MemoryClient.
Context `{Env, MemoryClientLib} (handler : string -> M (res unit)) (queueName : string).

Definition mem_Publish (m : message) : M (res unit) :=
  if negb (message_marshals m)
  then ret_err (Errorf "failed to marshal message"
                  (ENew "Time.MarshalJSON: year outside of range [0,9999]"))
  else
    try _ <- Publish queueName m else e => ret_err (Errorf ("failed to push to queue " +:+ queueName) e);
    ret_ok tt.

(** A payload whose handler failed is pushed again; the error of the push is only logged. *)
Definition requeue (payload : string) (r : res unit) : M bool :=
  match r with
  | Err err =>
      if IsNonRetryable err then mret false
      else _ ← observe (fun n => mem_Push n queueName payload); mret true
  | Ok _ => mret false
  end.

(** At most [n] payloads of a stream, each with its result and whether it was pushed again; the
    error that ended the stream. *)
Fixpoint mem_receive (n : nat) : M (option gerror * list (string * res unit * bool)) :=
  match n with
  | O => mret (None, [])
  | S n =>
      msg ← observe mem_Recv;
      match msg with
      | Err e => mret (Some (Errorf "stream error" e), [])
      | Ok payload =>
          r ← handler payload;
          again ← requeue payload r;
          el ← mem_receive n;
          mret (el.1, (payload, r, again) :: el.2)
      end
  end.

Definition mem_consumeLoop (n : nat) : M (option gerror * list (string * res unit * bool)) :=
  sub ← observe mem_Subscribe;
  match sub with
  | Some e => mret (Some (Errorf "subscribe failed" e), [])
  | None => mem_receive n
  end.

(** [Consume] for sessions of at most so many payloads; [Listening] while one is open.  A session
    only ends with an error, so that the back-off is never reset. *)
Fixpoint mem_Consume (backoff : Z) (ns : list nat)
  : M (consumer_phase * list (string * res unit * bool)) :=
  match ns with
  | [] => mret (Connecting backoff, [])
  | n :: ns =>
      stop ← observe mem_ctx;
      match stop with
      | Some e => mret (Returned e, [])
      | None =>
          el ← mem_consumeLoop n;
          match el.1 with
          | None => mret (Listening, el.2)
          | Some _ =>
              stop ← observe mem_ctx;
              match stop with
              | Some e => mret (Returned e, el.2)
              | None =>
                  stop ← observe mem_ctx;
                  match stop with
                  | Some e => mret (Returned e, el.2)
                  | None =>
                      pl ← mem_Consume (Z.min (backoff * 2) maxConsumeBackoff) ns;
                      mret (pl.1, el.2 ++ pl.2)
                  end
              end
          end
      end
  end.

End MemoryClient.

(** ** RabbitMQ: what a consumer does *)

(** A back-off between a second and half a minute; a call returns with the error of its context. *)
Definition phase_ok (ctx : nat -> option gerror) (ph : consumer_phase) : Prop :=
  let bounded b := Second <= b <= maxConsumeBackoff in
  match ph with
  | Connecting b => bounded b
  | Sleeping w n => bounded w /\ bounded n
  | Listening => True
  | Returned e => exists n, ctx n = Some e
  end.

Lemma retry_later_ok ctx b : Second <= b <= maxConsumeBackoff -> phase_ok ctx (retry_later b).
Proof.
  unfold phase_ok, retry_later, maxConsumeBackoff. intros Hb. split; [done|].
  assert (0 < Second) by (unfold Second, Millisecond; lia). lia.
Qed.

Lemma second_bounded : Second <= Second <= maxConsumeBackoff.
Proof. unfold maxConsumeBackoff, Second, Millisecond. lia. Qed.
#[local] Hint Resolve retry_later_ok second_bounded : core.

(** The handler was done with the message: it succeeded or gave an error that is not retried. *)
Definition accepted (handler : string -> M (res unit)) (body : string) : Prop :=
  exists a r b, handler body a = (Ret r, b)
    /\ match r with Ok _ => True | Err e => IsNonRetryable e = true end.

Section RabbitConsumerOk.
Context `{Env, AmqpConsumerLib, AmqpQueue} (handler : string -> M (res unit)) (queueName : string).

Lemma connect_step_ok backoff a ph b :
  Second <= backoff <= maxConsumeBackoff -> connect_step queueName backoff a = (Ret ph, b) ->
  phase_ok amqp_ctx ph.
Proof.
  intros Hb. unfold connect_step. rewrite (bind_ret _ _ _ _ _ (observe_ret _ _)).
  destruct (amqp_ctx (ticks a)) as [e|] eqn:Ec; [intros [= <- <-]; simpl; eauto|].
  unfold mbind, M_bind. destruct (ensureConnection (tick a)) as [[[u|e]|s] a1]; [|intros [= <- <-]; auto|done].
  destruct (open_session queueName a1) as [[[u'|e]|s] a2]; [| |done]; intros [= <- <-]; [done|auto].
Qed.

Lemma deliver_out q a q' b :
  deliver handler q a = (Ret q', b) ->
  exists taken, messages q = taken ++ messages q' /\ Forall (accepted handler) taken.
Proof.
  unfold deliver. destruct (Deliver q) as [[body q1]|] eqn:Ed; [|intros [= <- <-]; by exists []].
  destruct (Deliver_front _ _ _ Ed) as (rest & Em & Ha & Hd & Hr). unfold mbind, M_bind.
  destruct (handler body a) as [[r|s] a1] eqn:Eh; [|done]. unfold observe. simpl.
  intros [= <- <-].
  assert (Hback : exists taken, messages q = taken ++ messages (Settle (Nacked true) q1)
                    /\ Forall (accepted handler) taken) by (exists []; by rewrite Hr).
  destruct (amqp_Settled (ticks a1)); [|done].
  destruct r as [u|e]; simpl.
  - exists [body]. rewrite Ha. split; [done|]. repeat constructor. exists a, (Ok u), a1. done.
  - destruct (IsNonRetryable e) eqn:En; [|done]. simpl. exists [body]. rewrite Hd.
    split; [done|]. repeat constructor. exists a, (Err e), a1. done.
Qed.

Lemma consumer_step_ok ph q a ph' q' b :
  phase_ok amqp_ctx ph -> consumer_step handler queueName (ph, q) a = (Ret (ph', q'), b) ->
  phase_ok amqp_ctx ph'
  /\ exists taken, messages q = taken ++ messages q' /\ Forall (accepted handler) taken.
Proof.
  intros Hph. unfold consumer_step. destruct ph as [backoff|w n| |e]; simpl.
  - unfold mbind, M_bind. destruct (connect_step queueName backoff a) as [[ph|s] a1] eqn:E; [|done].
    intros [= <- <- <-]. split; [by eapply connect_step_ok|by exists []].
  - unfold sleep_step, mbind, M_bind, observe. simpl. intros [= <- <- <-]. split; [|by exists []].
    destruct Hph as [_ Hn]. destruct (amqp_ctx (ticks a)) eqn:Ec; simpl; eauto.
  - unfold listen_step. rewrite (bind_ret _ _ _ _ _ (observe_ret _ _)).
    destruct (amqp_Select (ticks a)) as [|[e|]| |];
      try (intros [= <- <- <-]; simpl; split; [by auto|by exists []]).
    unfold mbind, M_bind. destruct (deliver handler q (tick a)) as [[q1|s] a1] eqn:E; [|done].
    intros [= <- <- <-]. split; [done|]. by eapply deliver_out.
  - intros [= <- <- <-]. split; [done|by exists []].
Qed.

Lemma consumer_run_ok n : forall ph q a ph' q' b,
  phase_ok amqp_ctx ph -> consumer_run handler queueName n (ph, q) a = (Ret (ph', q'), b) ->
  phase_ok amqp_ctx ph'
  /\ exists taken, messages q = taken ++ messages q' /\ Forall (accepted handler) taken.
Proof.
  induction n as [|n IH]; intros ph q a ph' q' b Hph E; simpl in E.
  { injection E as <- <- <-. split; [done|by exists []]. }
  unfold mbind, M_bind in E.
  destruct (consumer_step handler queueName (ph, q) a) as [[[ph1 q1]|s] a1] eqn:E1; [|done].
  destruct (consumer_step_ok _ _ _ _ _ _ Hph E1) as (Hph1 & t1 & Em1 & Ht1).
  destruct (IH _ _ _ _ _ _ Hph1 E) as (Hph2 & t2 & Em2 & Ht2). split; [done|].
  exists (t1 ++ t2). split; [by rewrite Em1, Em2, <- app_assoc|by apply Forall_app].
Qed.

(** Nothing goes wrong with the connection, and the select takes a message whenever there is one. *)
Definition amqp_steady : Prop :=
  forall n, amqp_ctx n = None /\ amqp_IsClosed n = false /\ amqp_Channel n = None
    /\ amqp_QueueDeclare n queueName = None /\ amqp_Qos n = None /\ amqp_Consume n queueName = None
    /\ amqp_Select n = EvArrived /\ amqp_Settled n = true.

Lemma connect_steady backoff a :
  amqp_steady -> exists b, connect_step queueName backoff a = (Ret Listening, b).
Proof.
  intros Hs. unfold connect_step. rewrite (bind_ret _ _ _ _ _ (observe_ret _ _)).
  destruct (Hs (ticks a)) as (-> & _). unfold ensureConnection, open_session, try_bind.
  unfold mbind, M_bind, observe. simpl.
  destruct (Hs (ticks (tick a))) as (_ & Hc & _). simpl in Hc. rewrite Hc. simpl.
  destruct (Hs (S (S (ticks a)))) as (_ & _ & Hch & _). rewrite Hch. simpl.
  destruct (Hs (S (S (S (ticks a))))) as (_ & _ & _ & Hq & _). rewrite Hq. simpl.
  destruct (Hs (S (S (S (S (ticks a)))))) as (_ & _ & _ & _ & Hqos & _). rewrite Hqos. simpl.
  destruct (Hs (S (S (S (S (S (ticks a))))))) as (_ & _ & _ & _ & _ & Hcons & _). rewrite Hcons. simpl.
  by eexists.
Qed.

Lemma listen_drains n : forall q a,
  amqp_steady -> length (messages q) = n ->
  (forall body, body ∈ messages q -> forall a, exists r b, handler body a = (Ret r, b)
     /\ match r with Ok _ => True | Err e => IsNonRetryable e = true end) ->
  exists q' b, consumer_run handler queueName n (Listening, q) a = (Ret (Listening, q'), b)
    /\ messages q' = [].
Proof.
  induction n as [|n IH]; intros q a Hs Hn Hh; cbn [consumer_run].
  { exists q, a. split; [done|by apply nil_length_inv]. }
  assert (E : exists q1 b1, consumer_step handler queueName (Listening, q) a = (Ret (Listening, q1), b1)
              /\ exists body, messages q = body :: messages q1).
  { unfold consumer_step, listen_step. cbn [fst snd]. rewrite (bind_ret _ _ _ _ _ (observe_ret _ _)).
    destruct (Hs (ticks a)) as (_ & _ & _ & _ & _ & _ & -> & _). unfold deliver.
    destruct (Deliver q) as [[body q1]|] eqn:Ed; [|apply Deliver_empty in Ed; by rewrite Ed in Hn].
    destruct (Deliver_front _ _ _ Ed) as (rest & Em & Ha & Hd & _).
    destruct (Hh body ltac:(rewrite Em; left) (tick a)) as (r & b & E & Hr).
    unfold mbind, M_bind. rewrite E. unfold observe. simpl.
    destruct (Hs (ticks b)) as (_ & _ & _ & _ & _ & _ & _ & ->).
    eexists _, _. split; [done|]. exists body. rewrite Em. destruct r as [u|e]; simpl; [by rewrite Ha|].
    rewrite Hr. simpl. by rewrite Hd. }
  destruct E as (q1 & b1 & E & body & Em). rewrite (bind_ret _ _ _ _ _ E).
  apply IH; [done| |]; rewrite Em in *; [simpl in Hn; lia|]. intros x Hx. apply Hh. by right.
Qed.

(** The select takes the context, or an end of the session. *)
Definition ends_session (ev : amqp_event) : Prop :=
  match ev with EvCtxDone | EvChannelClosed (Some _) | EvMsgsClosed => True | _ => False end.

Lemma stops_in_two e ph q a :
  (forall n, amqp_ctx n = Some e) -> (ph = Listening -> ends_session (amqp_Select (ticks a))) ->
  (forall x, ph <> Returned x) ->
  exists b, consumer_run handler queueName 2 (ph, q) a = (Ret (Returned e, q), b).
Proof.
  intros Hc Hs Hph. destruct ph as [backoff|w n| |x]; [| | |by destruct (Hph x)];
    unfold consumer_run, consumer_step, connect_step, sleep_step, listen_step, mbind, M_bind, observe; simpl;
    [rewrite ?Hc; simpl; by eexists..|].
  specialize (Hs eq_refl). destruct (amqp_Select (ticks a)) as [|[x|]| |]; try done; simpl;
    rewrite ?Hc; simpl; by eexists.
Qed.

(** C25: A consumer of RabbitMQ.  Whatever the connection does: the call returns only with the error of
    its context, every wait is between a second and half a minute, and a message leaves the queue
    only when its handler succeeded or called its error not retryable, in the order of the queue.
    While the connection stands, the select takes messages and the handler accepts every one of them
    (a message it wants to be retried goes back to the front and holds up the rest,
    [bad_message_blocks_queue]), all messages are handled in one step each.  Once the context is done
    the call returns within two steps, without another message, of the moment it is not in a session
    or its select takes the context; Go's select may take messages that are ready before that. *)
Theorem rabbit_consumer_sound n q a :
  (forall ph q' b, Rabbit_Consume handler queueName n q a = (Ret (ph, q'), b) ->
     phase_ok amqp_ctx ph
     /\ exists taken, messages q = taken ++ messages q' /\ Forall (accepted handler) taken)
  /\ (amqp_steady -> n = S (length (messages q)) ->
      (forall body, body ∈ messages q -> forall a, exists r b, handler body a = (Ret r, b)
         /\ match r with Ok _ => True | Err e => IsNonRetryable e = true end) ->
      exists q' b, Rabbit_Consume handler queueName n q a = (Ret (Listening, q'), b)
        /\ messages q' = [])
  /\ (forall e ph, (forall k, amqp_ctx k = Some e) ->
      (ph = Listening -> ends_session (amqp_Select (ticks a))) -> (forall x, ph <> Returned x) ->
      exists b, consumer_run handler queueName 2 (ph, q) a = (Ret (Returned e, q), b)).
Proof.
  split; [|split].
  - intros ph q' b E. eapply consumer_run_ok; [|exact E]. simpl. auto.
  - intros Hs -> Hh. unfold Rabbit_Consume. cbn [consumer_run].
    destruct (connect_steady Second a Hs) as [b E].
    assert (E1 : consumer_step handler queueName (Connecting Second, q) a = (Ret (Listening, q), b)).
    { unfold consumer_step. cbn [fst snd]. by rewrite (bind_ret _ _ _ _ _ E). }
    rewrite (bind_ret _ _ _ _ _ E1). by apply listen_drains.
  - intros e ph Hc Hs Hph. by apply stops_in_two.
Qed.

End RabbitConsumerOk.

(** ** Kafka: what a consumer does *)

#[local] Open Scope nat_scope.

Section KafkaConsumerOk.
Context `{Env, KafkaLib, KafkaClientLib} (handler : string -> M (res unit)).

Lemma settle_message_partition off r g a g' b :
  settle_message off r g a = (Ret g', b) -> partition g' = partition g.
Proof.
  assert (Hm : forall c, commit_message off g a = (Ret c, b) -> partition c = partition g).
  { intros c Ec. unfold commit_message in Ec. rewrite (bind_ret _ _ _ _ _ (observe_ret _ _)) in Ec.
    injection Ec as <- <-. apply CommitMessages_partition. }
  unfold settle_message. destruct r as [u|e]; [apply Hm|].
  destruct (IsNonRetryable e); [apply Hm|by intros [= <- <-]].
Qed.

(** A session hands over every message between its position and what is committed after it. *)
Lemma consumeLoop_covers n : forall pos g a g' l b,
  consumeLoop handler n pos g a = (Ret (g', l), b) -> committed g <= pos ->
  partition g' = partition g /\ forall o, pos <= o < committed g' -> exists r, (o, r) ∈ l.
Proof.
  induction n as [|n IH]; intros pos g a g' l b E Hc; simpl in E.
  { injection E as <- <- <-. split; [done|lia]. }
  destruct (partition g !! pos) as [body|]; [|injection E as <- <- <-; split; [done|lia]].
  unfold mbind, M_bind in E. destruct (handler body a) as [[r|s] a1] eqn:Eh; [|done].
  destruct (settle_message pos r g a1) as [[g1|s] a2] eqn:Es; [|done].
  destruct (consumeLoop handler n (S pos) g1 a2) as [[[g2 l2]|s] a3] eqn:El; [|done].
  injection E as <- <- <-. pose proof (settle_message_out _ _ _ _ _ _ Es Hc) as Hs.
  destruct (IH _ _ _ _ _ _ El ltac:(lia)) as [Hp Hl]. simpl. split.
  { rewrite Hp. by eapply settle_message_partition. }
  intros o Ho. destruct (decide (o = pos)) as [->|]; [exists r; left|].
  destruct (Hl o ltac:(lia)) as [r' Hr]. exists r'. by right.
Qed.

Lemma kafka_connect_ok backoff g a ph g' l b :
  phase_ok kafka_ctx (Connecting backoff) ->
  kafka_connect handler backoff g a = (Ret (ph, (g', l)), b) ->
  phase_ok kafka_ctx ph /\ partition g' = partition g /\ committed g <= committed g'
  /\ (forall o r, (o, r) ∈ l -> committed g <= o)
  /\ forall o, committed g <= o < committed g' -> exists r, (o, r) ∈ l.
Proof.
  intros Hb. unfold kafka_connect. rewrite (bind_ret _ _ _ _ _ (observe_ret _ _)).
  destruct (kafka_ctx (ticks a)) as [e|] eqn:Ec.
  { intros [= <- <- <- <-]. split; [simpl; eauto|]. split; [done|]. split; [done|].
    split; [intros o r Hin; by inversion Hin|lia]. }
  rewrite (bind_ret _ _ _ _ _ (observe_ret _ _)). unfold mbind, M_bind.
  set (s := kafka_session _). destruct (consumeLoop handler s.1 (committed g) g _) as [[[g1 l1]|?] a1] eqn:El; [|done].
  unfold observe. simpl. intros [= <- <- <- <-].
  destruct (consumeLoop_out _ _ _ _ _ _ _ _ El ltac:(done)) as [Hc Hl].
  destruct (consumeLoop_covers _ _ _ _ _ _ _ El ltac:(done)) as [Hp Hcov].
  split; [|by repeat split].
  destruct (kafka_ctx (ticks a1)) as [e|] eqn:Ec1; [simpl; eauto|]. destruct s.2; [by apply retry_later_ok|done].
Qed.

Lemma kafka_run_ok n : forall ph g a ph' g' l b,
  phase_ok kafka_ctx ph -> kafka_run handler n ph g a = (Ret (ph', (g', l)), b) ->
  phase_ok kafka_ctx ph' /\ partition g' = partition g /\ committed g <= committed g'
  /\ (forall o r, (o, r) ∈ l -> committed g <= o)
  /\ forall o, committed g <= o < committed g' -> exists r, (o, r) ∈ l.
Proof.
  assert (Hnil : forall (g : kafka_group), (forall o r, (o, r) ∈ ([] : list (nat * res unit)) -> committed g <= o)
    /\ forall o, committed g <= o < committed g -> exists r, (o, r) ∈ ([] : list (nat * res unit)))
    by (intros g; split; [intros o r Hin; by inversion Hin|lia]).
  induction n as [|n IH]; intros ph g a ph' g' l b Hph E; simpl in E.
  { injection E as <- <- <- <-. do 3 (split; [done|]). apply Hnil. }
  destruct ph as [backoff|w nx| |e]; try (injection E as <- <- <- <-; do 3 (split; [done|]); apply Hnil).
  - unfold mbind, M_bind in E.
    destruct (kafka_connect handler backoff g a) as [[[ph1 [g1 l1]]|s] a1] eqn:E1; [|done].
    destruct (kafka_connect_ok _ _ _ _ _ _ _ Hph E1) as (Hph1 & Hp1 & Hc1 & Hl1 & Hv1). simpl in E.
    destruct (kafka_run handler n ph1 g1 a1) as [[[ph2 [g2 l2]]|s] a2] eqn:E2; [|done].
    injection E as <- <- <- <-. destruct (IH _ _ _ _ _ _ _ Hph1 E2) as (Hph2 & Hp2 & Hc2 & Hl2 & Hv2).
    split; [done|]. split; [congruence|]. split; [lia|]. split.
    + intros o r [Hin|Hin]%elem_of_app; [by eapply Hl1|]. specialize (Hl2 _ _ Hin). lia.
    + intros o Ho. destruct (decide (o < committed g1)).
      * destruct (Hv1 o ltac:(lia)) as [r Hr]. exists r. apply elem_of_app. by left.
      * destruct (Hv2 o ltac:(lia)) as [r Hr]. exists r. apply elem_of_app. by right.
  - unfold kafka_sleep, mbind, M_bind, observe in E. simpl in E. eapply IH; [|exact E].
    destruct Hph as [_ Hn]. destruct (kafka_ctx (ticks a)) eqn:Ec; simpl; eauto.
Qed.

(** A consumer of Kafka.  Whatever the readers do: the call returns only with the error of its
    context, every wait is between a second and half a minute, the committed offset never goes
    back, no message before it is read again, and every message the group commits past was handed
    to the handler. *)
Theorem kafka_consumer_sound n g a ph g' l b :
  Kafka_Consume handler n g a = (Ret (ph, (g', l)), b) ->
  phase_ok kafka_ctx ph /\ committed g <= committed g'
  /\ (forall o r, (o, r) ∈ l -> committed g <= o)
  /\ forall o, committed g <= o < committed g' -> exists r, (o, r) ∈ l.
Proof.
  intros E. destruct (kafka_run_ok n (Connecting Second) g a ph g' l b) as (Hph & _ & Hc & Hl & Hv);
    [simpl; auto|exact E|done].
Qed.

(** ** Kafka: publication *)

Lemma add_messages_wrote k q m w : wrote q m k w (add_messages k q m w).
Proof.
  revert w. induction k as [|k IH]; intros w; simpl; [by apply wrote_ticks|].
  apply (wrote_trans q m 1 k w (add_message q m w)); [by repeat split|apply IH].
Qed.

(** One writer for a topic. *)
Definition writers_ok (c : kafka_client) : Prop :=
  forall t w, kc_writers c !! t = Some w ->
    w = {| kw_brokers := kc_brokers c; kw_topic := t; kw_MaxAttempts := 3 |}.

Lemma getWriter_ok c topic :
  writers_ok c -> exists c',
    getWriter c topic = ({| kw_brokers := kc_brokers c; kw_topic := topic; kw_MaxAttempts := 3 |}, c')
    /\ writers_ok c' /\ kc_brokers c' = kc_brokers c.
Proof.
  intros Hc. unfold getWriter. destruct (kc_writers c !! topic) as [w|] eqn:Ew.
  - rewrite (Hc _ _ Ew). by exists c.
  - eexists. split; [done|]. split; [|done]. intros t w. simpl. rewrite lookup_insert_Some.
    intros [[<- <-]|[_ Hw]]; [done|by apply Hc].
Qed.

Lemma Kafka_Publish_out c topic m a :
  writers_ok c -> exists c' r b k, Kafka_Publish c topic m a = (Ret (c', r), b)
    /\ writers_ok c' /\ wrote topic m k a b /\ k <= 3 /\ (r = Ok tt -> 1 <= k).
Proof.
  intros Hc. unfold Kafka_Publish. destruct (message_marshals m); simpl.
  2: { eexists _, _, a, 0. split; [done|]. split; [done|]. split; [by apply wrote_ticks|]. split; [lia|done]. }
  destruct (getWriter_ok c topic Hc) as (c' & -> & Hc' & _). set (wr := {| kw_topic := topic |}).
  unfold WriteMessages, mbind, M_bind. pose proof (kafka_Write_ok (ticks a) wr m) as Hok.
  pose proof (kafka_Write_le (ticks a) wr m) as Hle. destruct (kafka_Write (ticks a) wr m) as [k err].
  eexists _, _, _, k. split; [done|]. split; [done|].
  split; [apply (wrote_trans topic m 0 k a (tick a)); [by apply wrote_ticks|apply add_messages_wrote]|].
  split; [exact Hle|]. simpl in Hok. destruct err; [done|]. intros _. by apply Hok.
Qed.

(** Publication to Kafka: whatever is published to whatever topics, every message goes to its own
    topic only, at most three times and at least once when there is no error, in the order of the
    calls. *)
Theorem kafka_publishes_outcome ms : forall c a,
  writers_ok c -> exists c' rs b ks, kafka_publishes c ms a = (Ret (c', rs), b)
    /\ writers_ok c' /\ length ks = length ms /\ length rs = length ms
    /\ db b = db a /\ tx b = tx a /\ objects b = objects a
    /\ published b = published a ++ mjoin (zip_with (fun k p => replicate k p) ks ms)
    /\ Forall2 (fun k r => k <= 3 /\ (r = Ok tt -> 1 <= k)) ks rs.
Proof.
  induction ms as [|[topic m] ms IH]; intros c a Hc; cbn [kafka_publishes].
  { eexists _, [], a, []. rewrite app_nil_r. by repeat split. }
  destruct (Kafka_Publish_out c topic m a Hc) as (c1 & r & b & k & E & Hc1 & (Hd & Ht & Ho & Hp) & Hk & Hr).
  rewrite (bind_ret _ _ _ _ _ E). destruct (IH c1 b Hc1) as (c2 & rs & b' & ks & E2 & Hc2 & Hl1 & Hl2 & Hd2 & Ht2 & Ho2 & Hp2 & Hf).
  cbn [fst snd]. rewrite (bind_ret _ _ _ _ _ E2). eexists _, (r :: rs), b', (k :: ks).
  split; [done|]. split; [done|]. simpl. split; [by rewrite Hl1|]. split; [by rewrite Hl2|].
  split; [congruence|]. split; [congruence|]. split; [congruence|].
  split; [by rewrite Hp2, Hp, <- app_assoc|]. by constructor.
Qed.

End KafkaConsumerOk.

(** ** The memory broker's client *)

Section MemoryClientOk.
Context `{Env, MemoryClientLib} (handler : string -> M (res unit)) (queueName : string).

(** A payload was pushed again exactly when its handler failed with an error to be tried again. *)
Definition pushed_again (x : string * res unit * bool) : Prop :=
  x.2 = match x.1.2 with Ok _ => false | Err e => negb (IsNonRetryable e) end.

Lemma requeue_out payload r a :
  exists b, requeue queueName payload r a
            = (Ret match r with Ok _ => false | Err e => negb (IsNonRetryable e) end, b).
Proof.
  unfold requeue. destruct r as [u|e]; [by eexists|]. destruct (IsNonRetryable e); by eexists.
Qed.

Lemma mem_receive_out n : forall a x l b,
  mem_receive handler queueName n a = (Ret (x, l), b) -> Forall pushed_again l.
Proof.
  induction n as [|n IH]; intros a x l b E; cbn [mem_receive] in E; [by injection E as _ <- _|].
  rewrite (bind_ret _ _ _ _ _ (observe_ret _ _)) in E.
  destruct (mem_Recv (ticks a)) as [payload|e]; [|by injection E as _ <- _].
  unfold mbind, M_bind in E. destruct (handler payload (tick a)) as [[r|s] a1]; [|done].
  destruct (requeue_out payload r a1) as [b1 E1]. rewrite E1 in E.
  destruct (mem_receive handler queueName n b1) as [[[x' l']|s] b2] eqn:E2; [|done].
  injection E as _ <- _. constructor; [done|by eapply IH].
Qed.

(** A consumer of the memory broker returns only with the error of its context, waits between a
    second and half a minute, and pushes back exactly the payloads whose handler failed with an
    error that is tried again. *)
Lemma mem_consumer_sound ns : forall backoff a ph l b,
  (Second <= backoff <= maxConsumeBackoff)%Z ->
  mem_Consume handler queueName backoff ns a = (Ret (ph, l), b) ->
  phase_ok mem_ctx ph /\ Forall pushed_again l.
Proof.
  induction ns as [|n ns IH]; intros backoff a ph l b Hb E; cbn [mem_Consume] in E.
  { by injection E as <- <- _. }
  rewrite (bind_ret _ _ _ _ _ (observe_ret _ _)) in E.
  destruct (mem_ctx (ticks a)) as [e|] eqn:Ec; [injection E as <- <- _; simpl; eauto|].
  unfold mbind, M_bind in E.
  destruct (mem_consumeLoop handler queueName n (tick a)) as [[[x l1]|s] a1] eqn:E1; [|done].
  assert (Hl : Forall pushed_again l1).
  { unfold mem_consumeLoop in E1. rewrite (bind_ret _ _ _ _ _ (observe_ret _ _)) in E1.
    destruct (mem_Subscribe _); [by injection E1 as _ <- _|by eapply mem_receive_out]. }
  cbn [fst snd] in E. destruct x as [err|]; [|by injection E as <- <- _]. unfold observe in E.
  destruct (mem_ctx (ticks a1)) as [e|] eqn:Ec1; [injection E as <- <- _; simpl; eauto|].
  destruct (mem_ctx (ticks (tick a1))) as [e|] eqn:Ec2; [injection E as <- <- _; simpl; eauto|].
  destruct (mem_Consume handler queueName _ ns _) as [[[ph2 l2]|s] a2] eqn:E2; [|done].
  injection E as <- <- _. apply IH in E2 as [Hph Hl2].
  - split; [done|]. by apply Forall_app.
  - pose proof second_bounded as Hs. revert Hb Hs. generalize maxConsumeBackoff.
    assert (0 < Second)%Z by (unfold Second, Millisecond; lia). intros. lia.
Qed.

End MemoryClientOk.

(** ** A concrete run: two messages, the second is refused for good *)

#[local] Existing Instances any_uuid plain_env plain_json list_queue steady_amqp.

#[local] Instance steady_consumer : AmqpConsumerLib := {
  amqp_Qos _ := None; amqp_Consume _ _ := None; amqp_Select _ := EvArrived; amqp_Settled _ := true }.

Definition final (body : string) : M (res unit) :=
  if decide (body = "bad") then ret_err (NewNonRetryableError (ENew "bad")) else ret_ok tt.

Definition two_messages : @amqp_queue list_queue := ["good"; "bad"].

Lemma rabbit_consumer_sound_witness :
  exists q' b, Rabbit_Consume final "crawl" 3 two_messages (world_of empty_db) = (Ret (Listening, q'), b)
    /\ messages q' = [].
Proof.
  destruct (rabbit_consumer_sound final "crawl" 3 two_messages (world_of empty_db)) as (_ & Hd & _).
  apply Hd; [by repeat split|reflexivity|].
  intros body Hin a. exists (if decide (body = "bad") then Err (NewNonRetryableError (ENew "bad")) else Ok tt), a.
  unfold final. destruct (decide (body = "bad")); split; reflexivity.
Defined.
