(* ===== verification/GrpcServer.v ===== *)
(** * The gRPC server of the API

    [pkg/v1/service_grpc.pb.go]: the names of the methods, the client stubs, the handlers the server
    finds by name, and the methods nobody implements; with the chain of interceptors that
    [APIApp.initGRPCServer] installs.  grpc-go itself (finding a handler by the name of its method)
    is the class [GrpcLib].  The server keeps the world and the registry of the workers; the shard
    key that [interceptor/shard_key.go] puts in the context is the subject of [Sharding]. *)

From S2P Require Import Prelude GoStrings Domain Json Converters World Sql Repos FetchWorker Auth.
From S2P Require Import Proto.
From S2P Require Import Api Pagination JobListing Preview Validation Registry WorkerStream.

(** ** Messages *)

(** The requests of the unary methods, with the fields the handlers read. *)
Inductive grpc_request :=
| ListJobsReq (req : ListJobsRequest)
| CreateJobReq (config : option ProtoCrawlJobConfig)
| GetJobReq (id : string)
| GetJobExportFileURLReq (job_id file_type : string)
| DeleteJobReq (id : string)
| GetTaskReq (id : string)
| ListTasksByJobReq (req : ListTasksByJobRequest)
| GetTaskAnalyticsReq (job_id : string)
| GetTaskFileURLReq (task_id file_type : string)
| CreatePreviewReq (url : string)
| GetPreviewReq (id : string)
| RegisterReq (email password : string)
| LoginReq (email password : string)
| RefreshReq (refresh_token : string)
| LogoutReq (refresh_token : string)
| ListUsersReq
| UpdateUserRoleReq (id : string) (role : Z)
| ListWorkersReq
| DrainWorkerReq (worker_id reason : string)
| ForceKillWorkerReq (worker_id reason : string).

Inductive grpc_response :=
| ListJobsResp (r : ListJobsResponse)
| CreateJobResp (id : string)
| GetJobResp (job : option ProtoCrawlJob)
| GetJobExportFileURLResp (r : FileURLResponse)
| GetTaskResp (task : option ProtoCrawlTask)
| ListTasksByJobResp (r : ListTasksByJobResponse)
| GetTaskAnalyticsResp (r : TaskAnalytics)
| GetTaskFileURLResp (r : FileURLResponse)
| CreatePreviewResp (id : string)
| GetPreviewResp (preview : ProtoPreview)
| RegisterResp (r : TokensResponse)
| LoginResp (r : TokensResponse)
| RefreshResp (r : TokensResponse)
| LogoutResp
| ListUsersResp (users : list ProtoUser)
| UpdateUserRoleResp (updated : bool)
| ListWorkersResp (workers : list WorkerInfo)
| DrainWorkerResp (r : CommandResponse)
| ForceKillWorkerResp (r : CommandResponse).

(** What [Validate] of the request looks at. *)
Definition rules_of (m : grpc_request) : api_request :=
  match m with
  | CreateJobReq config => CreateJob config
  | DeleteJobReq id => DeleteJob id
  | GetTaskAnalyticsReq job_id => GetTaskAnalytics job_id
  | GetJobExportFileURLReq job_id t => GetJobExportFileURL job_id t
  | GetTaskFileURLReq task_id t => GetTaskFileURL task_id t
  | CreatePreviewReq url => CreatePreview url
  | RegisterReq email password => RegisterUser email password
  | LoginReq email password => LoginUser email password
  | RefreshReq token => RefreshTokens token
  | LogoutReq token => LogoutUser token
  | _ => OtherRequest
  end.

(** ** The state of the server and its methods *)

Record server := { sv_world : world; sv_registry : Registry }.

Definition SM (A : Type) : Type := server -> outcome A * server.

Definition on_world {A} (m : M A) : SM A := fun st =>
  let '(o, w) := m (sv_world st) in (o, {| sv_world := w; sv_registry := sv_registry st |}).

Definition on_registry {A} (f : Registry -> outcome (A * Registry)) : SM A := fun st =>
  match f (sv_registry st) with
  | Ret (a, r) => (Ret a, {| sv_world := sv_world st; sv_registry := r |})
  | Panic msg => (Panic msg, st)
  end.

Definition fail {A} (e : gerror) : SM (res A) := fun st => (Ret (Err e), st).

#[export] Instance SM_ret : MRet SM := fun A a st => (Ret a, st).
#[export] Instance SM_bind : MBind SM := fun A B f m st =>
  match m st with
  | (Ret a, st') => f a st'
  | (Panic e, st') => (Panic e, st')
  end.

(** The response of a method, or its error. *)
Definition respond {A} (f : A -> grpc_response) (m : SM (res A)) : SM (res grpc_response) :=
  r ← m; mret (match r with Ok a => Ok (f a) | Err e => Err e end).

(** grpc-go finds the handler of a method by its full name among the services registered; the name of
    the method is what follows the last slash. *)
Definition full_name (service method : string) : string := "/" +:+ service +:+ "/" +:+ method.
Definition no_slash (s : string) : Prop := "/"%char ∉ bytes_of s.

Class GrpcLib := {
  grpc_find : forall {H : Type}, list (string * list (string * H)) -> string -> option H;
  grpc_decode_error : gerror;
  grpc_find_sound H (services : list (string * list (string * H))) name h :
    grpc_find services name = Some h ->
    exists service methods method,
      (service, methods) ∈ services /\ (method, h) ∈ methods /\ name = full_name service method;
  grpc_find_complete H (services : list (string * list (string * H))) service methods method h :
    NoDup services.*1 -> (service, methods) ∈ services ->
    NoDup methods.*1 -> (method, h) ∈ methods -> no_slash method ->
    grpc_find services (full_name service method) = Some h }.

(** The objects behind the services. *)
Record implementations := {
  im_jobs : CrawlJobImplementation; im_retries : RetryPolicy; im_auth : authService;
  im_range : map_range }.

(** ** The names of the methods *)

Definition CrawlerService_ListJobs_FullMethodName : string := "/crawler.v1.CrawlerService/ListJobs".
Definition CrawlerService_CreateJob_FullMethodName : string :=
  "/crawler.v1.CrawlerService/CreateJob".
Definition CrawlerService_GetJob_FullMethodName : string := "/crawler.v1.CrawlerService/GetJob".
Definition CrawlerService_GetJobExportFileURL_FullMethodName : string :=
  "/crawler.v1.CrawlerService/GetJobExportFileURL".
Definition CrawlerService_DeleteJob_FullMethodName : string :=
  "/crawler.v1.CrawlerService/DeleteJob".
Definition CrawlerService_GetTask_FullMethodName : string := "/crawler.v1.CrawlerService/GetTask".
Definition CrawlerService_ListTasksByJob_FullMethodName : string :=
  "/crawler.v1.CrawlerService/ListTasksByJob".
Definition CrawlerService_GetTaskAnalytics_FullMethodName : string :=
  "/crawler.v1.CrawlerService/GetTaskAnalytics".
Definition CrawlerService_GetTaskFileURL_FullMethodName : string :=
  "/crawler.v1.CrawlerService/GetTaskFileURL".
Definition PreviewService_CreatePreview_FullMethodName : string :=
  "/crawler.v1.PreviewService/CreatePreview".
Definition PreviewService_GetPreview_FullMethodName : string :=
  "/crawler.v1.PreviewService/GetPreview".
Definition AuthService_Register_FullMethodName : string := "/crawler.v1.AuthService/Register".
Definition AuthService_Login_FullMethodName : string := "/crawler.v1.AuthService/Login".
Definition AuthService_Refresh_FullMethodName : string := "/crawler.v1.AuthService/Refresh".
Definition AuthService_Logout_FullMethodName : string := "/crawler.v1.AuthService/Logout".
Definition UserService_ListUsers_FullMethodName : string := "/crawler.v1.UserService/ListUsers".
Definition UserService_UpdateUserRole_FullMethodName : string :=
  "/crawler.v1.UserService/UpdateUserRole".
Definition WorkerService_ListWorkers_FullMethodName : string :=
  "/crawler.v1.WorkerService/ListWorkers".
Definition WorkerService_DrainWorker_FullMethodName : string :=
  "/crawler.v1.WorkerService/DrainWorker".
Definition WorkerService_ForceKillWorker_FullMethodName : string :=
  "/crawler.v1.WorkerService/ForceKillWorker".

Section GrpcServer.
Context `{FetchServices, JsonLib, PresignLib, Sanitizer, JwtLib, PasswordLib, RandLib}.
Context `{MailAddress, GrpcLib}.
Context (im : implementations).

(** ** The methods of the workers' service, and the one nobody implements *)

Definition srv_ListWorkers : SM (res (list WorkerInfo)) :=
  clock ← on_world time_Now;
  l ← on_registry (ListWorkers (im_range im) clock);
  mret (Ok l).

Definition srv_DrainWorker (workerID reason : string) : SM (res CommandResponse) :=
  issued ← on_world time_Now; clock ← on_world time_Now;
  on_registry (DrainWorker workerID reason issued clock).

Definition srv_ForceKillWorker (workerID reason : string) : SM (res CommandResponse) :=
  issued ← on_world time_Now; clock ← on_world time_Now;
  on_registry (ForceKillWorker workerID reason issued clock).

(** [UnimplementedCrawlerServiceServer.DeleteJob]: [CrawlJobImplementation] has no method of that
    name of its own. *)
Definition Unimplemented_DeleteJob : SM (res grpc_response) :=
  fail (status_Error "Unimplemented" "method DeleteJob not implemented").

(** [md.Get("x-preview-cookie")]. *)
Definition cookies (md : option metadata) : list string :=
  match md with Some md => default [] (md !! "x-preview-cookie") | None => [] end.

(** ** The chain of interceptors

    The logging interceptor only logs.  [now] is the clock a token is checked with. *)
Definition intercept (now : Z) (md : option metadata) (fullMethod : string) (m : grpc_request)
    (handler : call_context -> SM (res grpc_response)) : SM (res grpc_response) :=
  ValidateInterceptor (rules_of m)
    (match serve_call (jwtService (im_auth im)) now md fullMethod with
     | Err e => fail e
     | Ok ctx => handler ctx
     end).

(** ** The handlers: the request is decoded, then goes through the interceptors to the method *)

Definition grpc_handler : Type := Z -> option metadata -> grpc_request -> SM (res grpc_response).

Definition CrawlerService_ListJobs_Handler : grpc_handler := fun now md m =>
  match m with
  | ListJobsReq req =>
      intercept now md CrawlerService_ListJobs_FullMethodName m (fun _ =>
        respond ListJobsResp (on_world (API_ListJobs req)))
  | _ => fail grpc_decode_error
  end.

Definition CrawlerService_CreateJob_Handler : grpc_handler := fun now md m =>
  match m with
  | CreateJobReq config =>
      intercept now md CrawlerService_CreateJob_FullMethodName m (fun ctx =>
        respond CreateJobResp (on_world (API_CreateJob (im_jobs im) ctx config)))
  | _ => fail grpc_decode_error
  end.

Definition CrawlerService_GetJob_Handler : grpc_handler := fun now md m =>
  match m with
  | GetJobReq id =>
      intercept now md CrawlerService_GetJob_FullMethodName m (fun _ =>
        respond GetJobResp (on_world (API_GetJob id)))
  | _ => fail grpc_decode_error
  end.

Definition CrawlerService_GetJobExportFileURL_Handler : grpc_handler := fun now md m =>
  match m with
  | GetJobExportFileURLReq job_id t =>
      intercept now md CrawlerService_GetJobExportFileURL_FullMethodName m (fun _ =>
        respond GetJobExportFileURLResp
          (on_world (API_GetJobExportFileURL (im_jobs im) job_id t)))
  | _ => fail grpc_decode_error
  end.

Definition CrawlerService_DeleteJob_Handler : grpc_handler := fun now md m =>
  match m with
  | DeleteJobReq id =>
      intercept now md CrawlerService_DeleteJob_FullMethodName m (fun _ =>
        Unimplemented_DeleteJob)
  | _ => fail grpc_decode_error
  end.

Definition CrawlerService_GetTask_Handler : grpc_handler := fun now md m =>
  match m with
  | GetTaskReq id =>
      intercept now md CrawlerService_GetTask_FullMethodName m (fun _ =>
        respond GetTaskResp (on_world (API_GetTask id)))
  | _ => fail grpc_decode_error
  end.

Definition CrawlerService_ListTasksByJob_Handler : grpc_handler := fun now md m =>
  match m with
  | ListTasksByJobReq req =>
      intercept now md CrawlerService_ListTasksByJob_FullMethodName m (fun _ =>
        respond ListTasksByJobResp (on_world (API_ListTasksByJob req)))
  | _ => fail grpc_decode_error
  end.

Definition CrawlerService_GetTaskAnalytics_Handler : grpc_handler := fun now md m =>
  match m with
  | GetTaskAnalyticsReq job_id =>
      intercept now md CrawlerService_GetTaskAnalytics_FullMethodName m (fun _ =>
        respond GetTaskAnalyticsResp (on_world (API_GetTaskAnalytics job_id)))
  | _ => fail grpc_decode_error
  end.

Definition CrawlerService_GetTaskFileURL_Handler : grpc_handler := fun now md m =>
  match m with
  | GetTaskFileURLReq task_id t =>
      intercept now md CrawlerService_GetTaskFileURL_FullMethodName m (fun _ =>
        respond GetTaskFileURLResp (on_world (API_GetTaskFileURL (im_jobs im) task_id t)))
  | _ => fail grpc_decode_error
  end.

Definition PreviewService_CreatePreview_Handler : grpc_handler := fun now md m =>
  match m with
  | CreatePreviewReq url =>
      intercept now md PreviewService_CreatePreview_FullMethodName m (fun _ =>
        respond CreatePreviewResp
          (on_world (API_CreatePreview (im_jobs im) (im_retries im) (cookies md) url)))
  | _ => fail grpc_decode_error
  end.

Definition PreviewService_GetPreview_Handler : grpc_handler := fun now md m =>
  match m with
  | GetPreviewReq id =>
      intercept now md PreviewService_GetPreview_FullMethodName m (fun _ =>
        respond GetPreviewResp (on_world (API_GetPreview id)))
  | _ => fail grpc_decode_error
  end.

Definition AuthService_Register_Handler : grpc_handler := fun now md m =>
  match m with
  | RegisterReq email password =>
      intercept now md AuthService_Register_FullMethodName m (fun _ =>
        respond RegisterResp (on_world (API_Register (im_auth im) email password)))
  | _ => fail grpc_decode_error
  end.

Definition AuthService_Login_Handler : grpc_handler := fun now md m =>
  match m with
  | LoginReq email password =>
      intercept now md AuthService_Login_FullMethodName m (fun _ =>
        respond LoginResp (on_world (API_Login (im_auth im) email password)))
  | _ => fail grpc_decode_error
  end.

Definition AuthService_Refresh_Handler : grpc_handler := fun now md m =>
  match m with
  | RefreshReq token =>
      intercept now md AuthService_Refresh_FullMethodName m (fun _ =>
        respond RefreshResp (on_world (API_Refresh (im_auth im) token)))
  | _ => fail grpc_decode_error
  end.

Definition AuthService_Logout_Handler : grpc_handler := fun now md m =>
  match m with
  | LogoutReq token =>
      intercept now md AuthService_Logout_FullMethodName m (fun _ =>
        respond (fun _ => LogoutResp) (on_world (API_Logout token)))
  | _ => fail grpc_decode_error
  end.

Definition UserService_ListUsers_Handler : grpc_handler := fun now md m =>
  match m with
  | ListUsersReq =>
      intercept now md UserService_ListUsers_FullMethodName m (fun _ =>
        respond ListUsersResp (on_world API_ListUsers))
  | _ => fail grpc_decode_error
  end.

Definition UserService_UpdateUserRole_Handler : grpc_handler := fun now md m =>
  match m with
  | UpdateUserRoleReq id role =>
      intercept now md UserService_UpdateUserRole_FullMethodName m (fun _ =>
        respond UpdateUserRoleResp (on_world (API_UpdateUserRole id role)))
  | _ => fail grpc_decode_error
  end.

Definition WorkerService_ListWorkers_Handler : grpc_handler := fun now md m =>
  match m with
  | ListWorkersReq =>
      intercept now md WorkerService_ListWorkers_FullMethodName m (fun _ =>
        respond ListWorkersResp srv_ListWorkers)
  | _ => fail grpc_decode_error
  end.

Definition WorkerService_DrainWorker_Handler : grpc_handler := fun now md m =>
  match m with
  | DrainWorkerReq worker_id reason =>
      intercept now md WorkerService_DrainWorker_FullMethodName m (fun _ =>
        respond DrainWorkerResp (srv_DrainWorker worker_id reason))
  | _ => fail grpc_decode_error
  end.

Definition WorkerService_ForceKillWorker_Handler : grpc_handler := fun now md m =>
  match m with
  | ForceKillWorkerReq worker_id reason =>
      intercept now md WorkerService_ForceKillWorker_FullMethodName m (fun _ =>
        respond ForceKillWorkerResp (srv_ForceKillWorker worker_id reason))
  | _ => fail grpc_decode_error
  end.

(** ** The services and their methods *)

Definition CrawlerService_ServiceDesc : string * list (string * grpc_handler) :=
  ("crawler.v1.CrawlerService",
   [("ListJobs", CrawlerService_ListJobs_Handler);
    ("CreateJob", CrawlerService_CreateJob_Handler);
    ("GetJob", CrawlerService_GetJob_Handler);
    ("GetJobExportFileURL", CrawlerService_GetJobExportFileURL_Handler);
    ("DeleteJob", CrawlerService_DeleteJob_Handler);
    ("GetTask", CrawlerService_GetTask_Handler);
    ("ListTasksByJob", CrawlerService_ListTasksByJob_Handler);
    ("GetTaskAnalytics", CrawlerService_GetTaskAnalytics_Handler);
    ("GetTaskFileURL", CrawlerService_GetTaskFileURL_Handler)]).
Definition PreviewService_ServiceDesc : string * list (string * grpc_handler) :=
  ("crawler.v1.PreviewService",
   [("CreatePreview", PreviewService_CreatePreview_Handler);
    ("GetPreview", PreviewService_GetPreview_Handler)]).
Definition AuthService_ServiceDesc : string * list (string * grpc_handler) :=
  ("crawler.v1.AuthService",
   [("Register", AuthService_Register_Handler);
    ("Login", AuthService_Login_Handler);
    ("Refresh", AuthService_Refresh_Handler);
    ("Logout", AuthService_Logout_Handler)]).
Definition UserService_ServiceDesc : string * list (string * grpc_handler) :=
  ("crawler.v1.UserService",
   [("ListUsers", UserService_ListUsers_Handler);
    ("UpdateUserRole", UserService_UpdateUserRole_Handler)]).
Definition WorkerService_ServiceDesc : string * list (string * grpc_handler) :=
  ("crawler.v1.WorkerService",
   [("ListWorkers", WorkerService_ListWorkers_Handler);
    ("DrainWorker", WorkerService_DrainWorker_Handler);
    ("ForceKillWorker", WorkerService_ForceKillWorker_Handler)]).

(** What [initGRPCServer] registers. *)
Definition grpc_services : list (string * list (string * grpc_handler)) :=
  [CrawlerService_ServiceDesc;
   PreviewService_ServiceDesc;
   AuthService_ServiceDesc;
   UserService_ServiceDesc;
   WorkerService_ServiceDesc].

(** A call that arrives at the server. *)
Definition grpc_serve (now : Z) (fullMethod : string) (md : option metadata) (m : grpc_request)
  : SM (res grpc_response) :=
  match grpc_find grpc_services fullMethod with
  | Some handler => handler now md m
  | None => fail (status_Error "Unimplemented" ("unknown method " +:+ fullMethod))
  end.

(** ** The clients

    [ClientConn.Invoke]: the call may fail before it reaches the server, or its response be lost. *)
Definition Invoke (now : Z) (fullMethod : string) (md : option metadata) (m : grpc_request)
  : SM (res grpc_response) :=
  v ← on_world (observe verdict_at);
  match v with
  | FailsBefore e => fail e
  | FailsAfter e => _ ← grpc_serve now fullMethod md m; fail e
  | Succeeds => grpc_serve now fullMethod md m
  end.

Definition crawlerServiceClient_ListJobs (now : Z) (md : option metadata) (req : ListJobsRequest)
  : SM (res grpc_response) :=
  Invoke now CrawlerService_ListJobs_FullMethodName md (ListJobsReq req).
Definition crawlerServiceClient_CreateJob (now : Z) (md : option metadata)
    (config : option ProtoCrawlJobConfig)
  : SM (res grpc_response) :=
  Invoke now CrawlerService_CreateJob_FullMethodName md (CreateJobReq config).
Definition crawlerServiceClient_GetJob (now : Z) (md : option metadata) (id : string)
  : SM (res grpc_response) :=
  Invoke now CrawlerService_GetJob_FullMethodName md (GetJobReq id).
Definition crawlerServiceClient_GetJobExportFileURL (now : Z) (md : option metadata)
    (job_id t : string)
  : SM (res grpc_response) :=
  Invoke now CrawlerService_GetJobExportFileURL_FullMethodName md (GetJobExportFileURLReq job_id t).
Definition crawlerServiceClient_DeleteJob (now : Z) (md : option metadata) (id : string)
  : SM (res grpc_response) :=
  Invoke now CrawlerService_DeleteJob_FullMethodName md (DeleteJobReq id).
Definition crawlerServiceClient_GetTask (now : Z) (md : option metadata) (id : string)
  : SM (res grpc_response) :=
  Invoke now CrawlerService_GetTask_FullMethodName md (GetTaskReq id).
Definition crawlerServiceClient_ListTasksByJob (now : Z) (md : option metadata)
    (req : ListTasksByJobRequest)
  : SM (res grpc_response) :=
  Invoke now CrawlerService_ListTasksByJob_FullMethodName md (ListTasksByJobReq req).
Definition crawlerServiceClient_GetTaskAnalytics (now : Z) (md : option metadata)
    (job_id : string)
  : SM (res grpc_response) :=
  Invoke now CrawlerService_GetTaskAnalytics_FullMethodName md (GetTaskAnalyticsReq job_id).
Definition crawlerServiceClient_GetTaskFileURL (now : Z) (md : option metadata)
    (task_id t : string)
  : SM (res grpc_response) :=
  Invoke now CrawlerService_GetTaskFileURL_FullMethodName md (GetTaskFileURLReq task_id t).
Definition previewServiceClient_CreatePreview (now : Z) (md : option metadata) (url : string)
  : SM (res grpc_response) :=
  Invoke now PreviewService_CreatePreview_FullMethodName md (CreatePreviewReq url).
Definition previewServiceClient_GetPreview (now : Z) (md : option metadata) (id : string)
  : SM (res grpc_response) :=
  Invoke now PreviewService_GetPreview_FullMethodName md (GetPreviewReq id).
Definition authServiceClient_Register (now : Z) (md : option metadata) (email password : string)
  : SM (res grpc_response) :=
  Invoke now AuthService_Register_FullMethodName md (RegisterReq email password).
Definition authServiceClient_Login (now : Z) (md : option metadata) (email password : string)
  : SM (res grpc_response) :=
  Invoke now AuthService_Login_FullMethodName md (LoginReq email password).
Definition authServiceClient_Refresh (now : Z) (md : option metadata) (token : string)
  : SM (res grpc_response) :=
  Invoke now AuthService_Refresh_FullMethodName md (RefreshReq token).
Definition authServiceClient_Logout (now : Z) (md : option metadata) (token : string)
  : SM (res grpc_response) :=
  Invoke now AuthService_Logout_FullMethodName md (LogoutReq token).
Definition userServiceClient_ListUsers (now : Z) (md : option metadata)
  : SM (res grpc_response) :=
  Invoke now UserService_ListUsers_FullMethodName md ListUsersReq.
Definition userServiceClient_UpdateUserRole (now : Z) (md : option metadata)
    (id : string) (role : Z)
  : SM (res grpc_response) :=
  Invoke now UserService_UpdateUserRole_FullMethodName md (UpdateUserRoleReq id role).
Definition workerServiceClient_ListWorkers (now : Z) (md : option metadata)
  : SM (res grpc_response) :=
  Invoke now WorkerService_ListWorkers_FullMethodName md ListWorkersReq.
Definition workerServiceClient_DrainWorker (now : Z) (md : option metadata)
    (worker_id reason : string)
  : SM (res grpc_response) :=
  Invoke now WorkerService_DrainWorker_FullMethodName md (DrainWorkerReq worker_id reason).
Definition workerServiceClient_ForceKillWorker (now : Z) (md : option metadata)
    (worker_id reason : string)
  : SM (res grpc_response) :=
  Invoke now WorkerService_ForceKillWorker_FullMethodName md (ForceKillWorkerReq worker_id reason).

(** ** What the server promises

    [method_of m] is the method a request belongs to, [run md ctx m] what it does once it is let
    through. *)
Definition method_of (m : grpc_request) : string :=
  match m with
  | ListJobsReq _ => CrawlerService_ListJobs_FullMethodName
  | CreateJobReq _ => CrawlerService_CreateJob_FullMethodName
  | GetJobReq _ => CrawlerService_GetJob_FullMethodName
  | GetJobExportFileURLReq _ _ => CrawlerService_GetJobExportFileURL_FullMethodName
  | DeleteJobReq _ => CrawlerService_DeleteJob_FullMethodName
  | GetTaskReq _ => CrawlerService_GetTask_FullMethodName
  | ListTasksByJobReq _ => CrawlerService_ListTasksByJob_FullMethodName
  | GetTaskAnalyticsReq _ => CrawlerService_GetTaskAnalytics_FullMethodName
  | GetTaskFileURLReq _ _ => CrawlerService_GetTaskFileURL_FullMethodName
  | CreatePreviewReq _ => PreviewService_CreatePreview_FullMethodName
  | GetPreviewReq _ => PreviewService_GetPreview_FullMethodName
  | RegisterReq _ _ => AuthService_Register_FullMethodName
  | LoginReq _ _ => AuthService_Login_FullMethodName
  | RefreshReq _ => AuthService_Refresh_FullMethodName
  | LogoutReq _ => AuthService_Logout_FullMethodName
  | ListUsersReq => UserService_ListUsers_FullMethodName
  | UpdateUserRoleReq _ _ => UserService_UpdateUserRole_FullMethodName
  | ListWorkersReq => WorkerService_ListWorkers_FullMethodName
  | DrainWorkerReq _ _ => WorkerService_DrainWorker_FullMethodName
  | ForceKillWorkerReq _ _ => WorkerService_ForceKillWorker_FullMethodName
  end.

Definition run (md : option metadata) (ctx : call_context) (m : grpc_request)
  : SM (res grpc_response) :=
  match m with
  | ListJobsReq req =>
      respond ListJobsResp (on_world (API_ListJobs req))
  | CreateJobReq config =>
      respond CreateJobResp (on_world (API_CreateJob (im_jobs im) ctx config))
  | GetJobReq id =>
      respond GetJobResp (on_world (API_GetJob id))
  | GetJobExportFileURLReq job_id t =>
      respond GetJobExportFileURLResp (on_world (API_GetJobExportFileURL (im_jobs im) job_id t))
  | DeleteJobReq id =>
      Unimplemented_DeleteJob
  | GetTaskReq id =>
      respond GetTaskResp (on_world (API_GetTask id))
  | ListTasksByJobReq req =>
      respond ListTasksByJobResp (on_world (API_ListTasksByJob req))
  | GetTaskAnalyticsReq job_id =>
      respond GetTaskAnalyticsResp (on_world (API_GetTaskAnalytics job_id))
  | GetTaskFileURLReq task_id t =>
      respond GetTaskFileURLResp (on_world (API_GetTaskFileURL (im_jobs im) task_id t))
  | CreatePreviewReq url =>
      respond CreatePreviewResp
        (on_world (API_CreatePreview (im_jobs im) (im_retries im) (cookies md) url))
  | GetPreviewReq id =>
      respond GetPreviewResp (on_world (API_GetPreview id))
  | RegisterReq email password =>
      respond RegisterResp (on_world (API_Register (im_auth im) email password))
  | LoginReq email password =>
      respond LoginResp (on_world (API_Login (im_auth im) email password))
  | RefreshReq token =>
      respond RefreshResp (on_world (API_Refresh (im_auth im) token))
  | LogoutReq token =>
      respond (fun _ => LogoutResp) (on_world (API_Logout token))
  | ListUsersReq =>
      respond ListUsersResp (on_world API_ListUsers)
  | UpdateUserRoleReq id role =>
      respond UpdateUserRoleResp (on_world (API_UpdateUserRole id role))
  | ListWorkersReq =>
      respond ListWorkersResp srv_ListWorkers
  | DrainWorkerReq worker_id reason =>
      respond DrainWorkerResp (srv_DrainWorker worker_id reason)
  | ForceKillWorkerReq worker_id reason =>
      respond ForceKillWorkerResp (srv_ForceKillWorker worker_id reason)
  end.
(** ** The server finds the right handler, and every handler is guarded *)

Definition guarded (now : Z) (md : option metadata) (m : grpc_request) : SM (res grpc_response) :=
  intercept now md (method_of m) m (fun ctx => run md ctx m).

(** A handler serves the requests of its method, guarded, and no others. *)
Definition serves_only (name : string) (h : grpc_handler) : Prop :=
  forall now md m,
    h now md m = if decide (name = method_of m) then guarded now md m else fail grpc_decode_error.

#[local] Arguments intercept : simpl never.

Lemma services_distinct : NoDup grpc_services.*1.
Proof. apply (bool_decide_unpack _). vm_compute. exact I. Qed.

Lemma methods_distinct :
  Forall (fun s => NoDup s.2.*1 /\ Forall no_slash s.2.*1) grpc_services.
Proof.
  repeat apply List.Forall_cons; [..|apply List.Forall_nil];
    apply (bool_decide_unpack _); vm_compute; exact I.
Qed.

Ltac serve_cases :=
  intros now md m; destruct (decide _) as [E|E]; destruct m; try discriminate E;
  try reflexivity; destruct E; reflexivity.

Lemma handlers_guarded :
  Forall (fun s => Forall (fun mh => serves_only (full_name s.1 mh.1) mh.2) s.2) grpc_services.
Proof.
  repeat apply List.Forall_cons; [..|apply List.Forall_nil]; simpl;
    repeat apply List.Forall_cons; try apply List.Forall_nil; serve_cases.
Qed.

(** Every request has its handler. *)
Lemma method_registered m :
  exists s mh, s ∈ grpc_services /\ mh ∈ s.2 /\ full_name s.1 mh.1 = method_of m.
Proof.
  assert (H' : existsb (fun s => existsb (fun mh => bool_decide (full_name s.1 mh.1 = method_of m))
    s.2)
                 grpc_services = true) by (destruct m; vm_compute; reflexivity).
  apply existsb_exists in H' as (s & Hs & Hm). apply existsb_exists in Hm as (mh & Hm & E).
  apply bool_decide_eq_true in E. exists s, mh. by rewrite !list_elem_of_In.
Qed.

Lemma grpc_serve_guarded now md m : grpc_serve now (method_of m) md m = guarded now md m.
Proof.
  destruct (method_registered m) as ([service methods] & [method h] & Hs & Hm & E). simpl in *.
  pose proof (proj1 (Forall_forall _ _) methods_distinct _ Hs) as [Hn Hl].
  pose proof (proj1 (Forall_forall _ _) handlers_guarded _ Hs) as Hh. simpl in *.
  pose proof (proj1 (Forall_forall _ _) Hh _ Hm) as Hg. simpl in Hg.
  assert (Hf : no_slash method)
    by (apply (proj1 (Forall_forall _ _) Hl), list_elem_of_fmap; by exists (method, h)).
  unfold grpc_serve. rewrite <- E at 1.
  rewrite (grpc_find_complete _ _ _ _ _ _ services_distinct Hs Hn Hm Hf), Hg.
  by rewrite decide_True.
Qed.

(** A call is refused, or it is a guarded call of the method of its request. *)
Lemma grpc_serve_cases now full md m :
  (exists e, grpc_serve now full md m = fail e)
  \/ full = method_of m /\ grpc_serve now full md m = guarded now md m.
Proof.
  destruct (decide (full = method_of m)) as [->|Hne]; [right; by rewrite grpc_serve_guarded|left].
  unfold grpc_serve. destruct (grpc_find grpc_services full) as [h|] eqn:E; [|by eexists].
  destruct (grpc_find_sound _ _ _ _ E) as (service & methods & method & Hs & Hm & ->).
  pose proof (proj1 (Forall_forall _ _) handlers_guarded _ Hs) as Hh. simpl in Hh.
  pose proof (proj1 (Forall_forall _ _) Hh _ Hm) as Hg. simpl in Hg.
  exists grpc_decode_error. rewrite Hg. by rewrite decide_False.
Qed.

End GrpcServer.

(** ** An instance of the library *)

Lemma app_last_inj {A} (c : A) l1 m1 l2 m2 :
  c ∉ m1 -> c ∉ m2 -> l1 ++ c :: m1 = l2 ++ c :: m2 -> l1 = l2 /\ m1 = m2.
Proof.
  intros H1 H2 E. apply List.app_eq_app in E as ([|x l] & [[-> E]|[-> E]]); simplify_list_eq;
    try done.
  all: set_solver.
Qed.

Lemma full_name_inj s m s' m' :
  no_slash m -> no_slash m' -> full_name s m = full_name s' m' -> s = s' /\ m = m'.
Proof.
  intros H1 H2 E. apply (f_equal bytes_of) in E. unfold full_name in E.
  rewrite !bytes_of_app in E. simpl in E. injection E as E.
  apply app_last_inj in E as [E1 E2]; [|done..].
  split; [rewrite <- (of_bytes_of s), <- (of_bytes_of s'), E1|
          rewrite <- (of_bytes_of m), <- (of_bytes_of m'), E2]; done.
Qed.

Lemma NoDup_fst_inj {K A} (l : list (K * A)) k a b :
  NoDup l.*1 -> (k, a) ∈ l -> (k, b) ∈ l -> a = b.
Proof.
  intros Hn Ha Hb. apply list_elem_of_lookup in Ha as [i Hi], Hb as [j Hj].
  assert (E : i = j) by (eapply (NoDup_lookup l.*1); [done|..]; rewrite list_lookup_fmap, ?Hi, ?Hj;
    done).
  subst j. rewrite Hi in Hj. by injection Hj.
Qed.

Definition named {H} (name : string) (s : string * list (string * H)) (mh : string * H) : bool :=
  bool_decide (no_slash mh.1) && bool_decide (name = full_name s.1 mh.1).

Definition find_handler {H} (services : list (string * list (string * H))) (name : string)
  : option H :=
  head (services ≫= fun s => (bfilter (named name s) s.2).*2).

Lemma find_handler_in {H} (services : list (string * list (string * H))) name h :
  h ∈ services ≫= (fun s => (bfilter (named name s) s.2).*2) <->
  exists service methods method, (service, methods) ∈ services /\ (method, h) ∈ methods
    /\ no_slash method /\ name = full_name service method.
Proof.
  rewrite list_elem_of_bind. split.
  - intros ([service methods] & Hh & Hs). apply list_elem_of_fmap in Hh as ([method h'] & -> & Hm).
    apply elem_of_bfilter in Hm as [Hn Hm]. unfold named in Hn.
    apply andb_true_iff in Hn as [Hn Hf]. apply bool_decide_eq_true in Hn, Hf. by eexists _, _, _.
  - intros (service & methods & method & Hs & Hm & Hn & ->). exists (service, methods).
    split; [|done]. apply list_elem_of_fmap. exists (method, h). split; [done|].
    apply elem_of_bfilter. split; [|done]. unfold named. by rewrite !bool_decide_true.
Qed.

#[export] Instance plain_grpc : GrpcLib.
Proof.
  refine {| grpc_find := @find_handler;
    grpc_decode_error := ENew "grpc: error unmarshalling request" |}.
  - intros H services name h E. apply head_Some_elem_of, find_handler_in in E.
    destruct E as (service & methods & method & ? & ? & _ & ?). by exists service, methods, method.
  - intros H services service methods method h Hd Hs Hd' Hm Hn. unfold find_handler.
    assert (Hin : h ∈ services ≫= (fun s => (bfilter (named (full_name service method) s) s.2).*2))
      by (apply find_handler_in; by exists service, methods, method).
    destruct (services ≫= _) as [|h' l] eqn:E; [by apply elem_of_nil in Hin|]. simpl. f_equal.
    assert (Hin' : h' ∈ services ≫= (fun s => (bfilter (named (full_name service method) s)
      s.2).*2))
      by (rewrite E; left).
    apply find_handler_in in Hin' as (service' & methods' & method' & Hs' & Hm' & Hn' & En).
    destruct (full_name_inj _ _ _ _ Hn Hn' En) as [<- <-].
    pose proof (NoDup_fst_inj services service methods methods' Hd Hs Hs') as <-.
    by apply (NoDup_fst_inj methods method).
Defined.
