(* ===== verification/Gateway.v ===== *)
(** * The HTTP server of the API

    [pkg/v1/service.pb.gw.go] and [APIApp.initHTTPServer]: the routes of the gateway, how a request is
    read from path, query and body and passed on to the gRPC server, and the four routes that are
    registered by hand after them ([app/crawl_queues_handler.go], [app/delete_job_handler.go], whose
    handlers are in [Api]).  grpc-gateway's runtime and the CORS middleware are the class
    [GatewayLib]. *)

From S2P Require Import Prelude GoStrings Domain Json Converters World Sql Repos FetchWorker Auth.
From S2P Require Import Proto.
From S2P Require Import JobService Api Pagination JobListing Preview Validation Registry.
From S2P Require Import WorkerStream.
From S2P Require Import GrpcServer.

(** ** Requests of HTTP

    Headers are under their canonical keys; the path is the list of what its slashes separate. *)

Record http_request := {
  rq_Method : string; rq_Path : list string; rq_Query : string;
  rq_Header : list (string * list string); rq_Body : string }.

Definition assoc {A} (k : string) (l : list (string * A)) : option A :=
  match list_find (fun p => p.1 = k) l with Some (_, p) => Some p.2 | None => None end.

(** [r.Header.Get(key)]. *)
Definition Header_Get (key : string) (rq : http_request) : string :=
  match assoc key (rq_Header rq) with Some (v :: _) => v | _ => "" end.

Definition params : Type := list (string * string).

(** ** Path patterns

    The arguments of [runtime.NewPattern]: operations over a pool of texts, and the verb after a
    colon. *)
Record pattern := { pt_ops : list Z; pt_pool : list string; pt_verb : string }.

(** What the operations of a pattern mean: a literal segment is [OpLitPush i] (2 i), a variable is
    [OpPush], [OpConcatN 1], [OpCapture k] (1 0 4 1 5 k). *)
Inductive segment := Lit (s : string) | Var (name : string).

Fixpoint template_of_ops (pool : list string) (ops : list Z) : option (list segment) :=
  match ops with
  | [] => Some []
  | 2 :: i :: ops =>
      s ← pool !! Z.to_nat i; t ← template_of_ops pool ops; Some (Lit s :: t)
  | 1 :: 0 :: 4 :: 1 :: 5 :: k :: ops =>
      n ← pool !! Z.to_nat k; t ← template_of_ops pool ops; Some (Var n :: t)
  | _ => None
  end.

Definition template_of (p : pattern) : option (list segment * string) :=
  t ← template_of_ops (pt_pool p) (pt_ops p); Some (t, pt_verb p).

Definition segment_text (s : segment) : string :=
  match s with Lit s => "/" +:+ s | Var n => "/{" +:+ n +:+ "}" end.
Definition verb_text (verb : string) : string :=
  if bool_decide (verb = "") then "" else ":" +:+ verb.
(** The text of a template, as the proto file has it. *)
Definition template_text (t : list segment) (verb : string) : string :=
  String.concat "" (segment_text <$> t) +:+ verb_text verb.

(** The path that a template stands for; the verb is a part of its last segment. *)
Definition segment_value (ps : params) (s : segment) : string :=
  match s with Lit s => s | Var n => default "" (assoc n ps) end.
Fixpoint path_of (t : list segment) (verb : string) (ps : params) : list string :=
  match t with
  | [] => []
  | [s] => [segment_value ps s +:+ verb_text verb]
  | s :: t => segment_value ps s :: path_of t verb ps
  end.
Definition variables (t : list segment) : list string :=
  t ≫= fun s => match s with Var n => [n] | Lit _ => [] end.

(** Values that stand in a path as they are. *)
Definition plain_char (c : ascii) : bool :=
  let n := code c in
  (48 <=? n)%nat && (n <=? 57)%nat || (65 <=? n)%nat && (n <=? 90)%nat
  || (97 <=? n)%nat && (n <=? 122)%nat || (n =? 45)%nat || (n =? 95)%nat || (n =? 46)%nat.
Definition plain (s : string) : Prop := s <> "" /\ forallb plain_char (bytes_of s) = true.
Definition plain_template (t : list segment) (verb : string) : Prop :=
  t <> [] /\ Forall (fun s => match s with Lit s => plain s | Var _ => True end) t
  /\ (verb = "" \/ plain verb).

(** Whether a later route may match the path of the template [t] with the values [ps], too. *)
Fixpoint covers (t' t : list segment) (ps : params) : bool :=
  match t', t with
  | [], [] => true
  | Lit s :: t', x :: t => bool_decide (segment_value ps x = s) && covers t' t ps
  | Var _ :: t', _ :: t => covers t' t ps
  | _, _ => false
  end.

Definition may_match (meth : string) (t : list segment) (verb : string) (ps : params)
    (route : string * pattern) : bool :=
  bool_decide (route.1 = meth)
  && match template_of route.2 with
     | Some (t', verb') =>
         covers t' t ps && (bool_decide (verb' = "") || bool_decide (verb = "")
                            || bool_decide (verb' = verb))
     | None => true
     end.

(** ** The bodies and queries the gateway decodes *)

Inductive body_message :=
| BCreateJob | BCreatePreview | BRegister | BLogin | BRefresh | BLogout | BUpdateUserRole
| BDrainWorker | BForceKillWorker.
Definition body_type (m : body_message) : Type :=
  match m with
  | BCreateJob => option ProtoCrawlJobConfig
  | BCreatePreview | BRefresh | BLogout => string
  | BRegister | BLogin | BDrainWorker | BForceKillWorker => string * string
  | BUpdateUserRole => string * Z
  end.

Inductive query_message := QListJobs | QGetJobExportFileURL | QListTasksByJob | QGetTaskFileURL.
Definition query_type (m : query_message) : Type :=
  match m with
  | QListJobs => ListJobsRequest
  | QListTasksByJob => ListTasksByJobRequest
  | QGetJobExportFileURL | QGetTaskFileURL => string * string
  end.

Definition form : Type := list (string * list string).
Record DoubleArray := { Encoding : list (string * Z); Base : list Z; CheckArray : list Z }.
Record cors_Options := {
  AllowedOrigins : list string; AllowedMethods : list string; AllowedHeaders : list string;
  ExposedHeaders : list string; AllowCredentials : bool }.

(** The path patterns that are registered as texts. *)
Definition handled_paths : list (list segment) :=
  [[Lit "api"; Lit "v1"; Lit "jobs"; Var "id"]; [Lit "api"; Lit "v1"; Lit "jobs"];
   [Lit "api"; Lit "v1"; Lit "crawl-queues"]].

(** grpc-gateway: of the routes that match a request the one registered last handles it; a request
    that asks for another method in [X-HTTP-Method-Override] is left out of the law.  Path texts
    compile to what they say.  rs/cors answers preflight requests itself, which are OPTIONS
    requests. *)
Class GatewayLib := {
  mux_dispatch : list (string * pattern) -> http_request -> option (nat * params);
  httprule_Compile : string -> res pattern;
  DefaultHeaderMatcher : string -> option string;
  AnnotateContext : (string -> option string) -> http_request -> string -> string -> res metadata;
  gateway_Decode : forall m : body_message, http_request -> body_type m * option gerror;
  ParseForm : http_request -> res form;
  PopulateQueryParameters :
    forall m : query_message, query_type m -> form -> DoubleArray -> res (query_type m);
  runtime_String : string -> res string;
  cors_preflight : cors_Options -> http_request -> bool;
  mux_dispatch_newest routes rq i pat t verb ps :
    routes !! i = Some (rq_Method rq, pat) -> template_of pat = Some (t, verb) ->
    plain_template t verb -> rq_Path rq = path_of t verb ps ->
    variables t = ps.*1 -> NoDup ps.*1 -> Forall (fun p => plain p.2) ps ->
    Header_Get "X-Http-Method-Override" rq = "" ->
    Forall (fun r => may_match (rq_Method rq) t verb ps r = false) (drop (S i) routes) ->
    mux_dispatch routes rq = Some (i, ps);
  httprule_Compile_text t :
    t ∈ handled_paths ->
    exists p, httprule_Compile (template_text t "") = Ok p /\ template_of p = Some (t, "");
  runtime_String_id s : runtime_String s = Ok s;
  cors_preflight_options o rq : cors_preflight o rq = true -> rq_Method rq = "OPTIONS" }.

(** ** The patterns of the gateway *)

Definition pattern_CrawlerService_ListJobs_0 : pattern :=
  {| pt_ops := [2; 0; 2; 1; 2; 2]; pt_pool := ["api"; "v1"; "jobs"];
     pt_verb := "" |}.
Definition pattern_CrawlerService_CreateJob_0 : pattern :=
  {| pt_ops := [2; 0; 2; 1; 2; 2]; pt_pool := ["api"; "v1"; "jobs"];
     pt_verb := "" |}.
Definition pattern_CrawlerService_GetJob_0 : pattern :=
  {| pt_ops := [2; 0; 2; 1; 2; 2; 1; 0; 4; 1; 5; 3]; pt_pool := ["api"; "v1"; "jobs"; "id"];
     pt_verb := "" |}.
Definition pattern_CrawlerService_GetJobExportFileURL_0 : pattern :=
  {| pt_ops := [2; 0; 2; 1; 2; 2; 1; 0; 4; 1; 5; 3; 2; 4]; pt_pool := ["api"; "v1"; "jobs";
    "job_id"; "export-url"];
     pt_verb := "" |}.
Definition pattern_CrawlerService_DeleteJob_0 : pattern :=
  {| pt_ops := [2; 0; 2; 1; 2; 2; 1; 0; 4; 1; 5; 3]; pt_pool := ["api"; "v1"; "jobs"; "id"];
     pt_verb := "" |}.
Definition pattern_CrawlerService_GetTask_0 : pattern :=
  {| pt_ops := [2; 0; 2; 1; 2; 2; 1; 0; 4; 1; 5; 3]; pt_pool := ["api"; "v1"; "tasks"; "id"];
     pt_verb := "" |}.
Definition pattern_CrawlerService_ListTasksByJob_0 : pattern :=
  {| pt_ops := [2; 0; 2; 1; 2; 2; 1; 0; 4; 1; 5; 3; 2; 4]; pt_pool := ["api"; "v1"; "jobs";
    "job_id"; "tasks"];
     pt_verb := "" |}.
Definition pattern_CrawlerService_GetTaskAnalytics_0 : pattern :=
  {| pt_ops := [2; 0; 2; 1; 2; 2; 1; 0; 4; 1; 5; 3; 2; 4]; pt_pool := ["api"; "v1"; "jobs";
    "job_id"; "analytics"];
     pt_verb := "" |}.
Definition pattern_CrawlerService_GetTaskFileURL_0 : pattern :=
  {| pt_ops := [2; 0; 2; 1; 2; 2; 1; 0; 4; 1; 5; 3; 2; 4]; pt_pool := ["api"; "v1"; "tasks";
    "task_id"; "file-url"];
     pt_verb := "" |}.
Definition pattern_PreviewService_CreatePreview_0 : pattern :=
  {| pt_ops := [2; 0; 2; 1; 2; 2]; pt_pool := ["api"; "v1"; "previews"];
     pt_verb := "" |}.
Definition pattern_PreviewService_GetPreview_0 : pattern :=
  {| pt_ops := [2; 0; 2; 1; 2; 2; 1; 0; 4; 1; 5; 3]; pt_pool := ["api"; "v1"; "previews"; "id"];
     pt_verb := "" |}.
Definition pattern_AuthService_Register_0 : pattern :=
  {| pt_ops := [2; 0; 2; 1; 2; 2; 2; 3]; pt_pool := ["api"; "v1"; "auth"; "register"];
     pt_verb := "" |}.
Definition pattern_AuthService_Login_0 : pattern :=
  {| pt_ops := [2; 0; 2; 1; 2; 2; 2; 3]; pt_pool := ["api"; "v1"; "auth"; "login"];
     pt_verb := "" |}.
Definition pattern_AuthService_Refresh_0 : pattern :=
  {| pt_ops := [2; 0; 2; 1; 2; 2; 2; 3]; pt_pool := ["api"; "v1"; "auth"; "refresh"];
     pt_verb := "" |}.
Definition pattern_AuthService_Logout_0 : pattern :=
  {| pt_ops := [2; 0; 2; 1; 2; 2; 2; 3]; pt_pool := ["api"; "v1"; "auth"; "logout"];
     pt_verb := "" |}.
Definition pattern_UserService_ListUsers_0 : pattern :=
  {| pt_ops := [2; 0; 2; 1; 2; 2]; pt_pool := ["api"; "v1"; "users"];
     pt_verb := "" |}.
Definition pattern_UserService_UpdateUserRole_0 : pattern :=
  {| pt_ops := [2; 0; 2; 1; 2; 2; 1; 0; 4; 1; 5; 3; 2; 4]; pt_pool := ["api"; "v1"; "users"; "id";
    "role"];
     pt_verb := "" |}.
Definition pattern_WorkerService_ListWorkers_0 : pattern :=
  {| pt_ops := [2; 0; 2; 1; 2; 2]; pt_pool := ["api"; "v1"; "workers"];
     pt_verb := "" |}.
Definition pattern_WorkerService_DrainWorker_0 : pattern :=
  {| pt_ops := [2; 0; 2; 1; 2; 2; 1; 0; 4; 1; 5; 3]; pt_pool := ["api"; "v1"; "workers";
    "worker_id"];
     pt_verb := "drain" |}.
Definition pattern_WorkerService_ForceKillWorker_0 : pattern :=
  {| pt_ops := [2; 0; 2; 1; 2; 2; 1; 0; 4; 1; 5; 3]; pt_pool := ["api"; "v1"; "workers";
    "worker_id"];
     pt_verb := "force-kill" |}.

Definition filter_CrawlerService_ListJobs_0 : DoubleArray :=
  {| Encoding := []; Base := []; CheckArray := [] |}.
Definition filter_CrawlerService_GetJobExportFileURL_0 : DoubleArray :=
  {| Encoding := [("job_id", 0)]; Base := [1; 1; 0]; CheckArray := [0; 1; 2] |}.
Definition filter_CrawlerService_ListTasksByJob_0 : DoubleArray :=
  {| Encoding := [("job_id", 0)]; Base := [1; 1; 0]; CheckArray := [0; 1; 2] |}.
Definition filter_CrawlerService_GetTaskFileURL_0 : DoubleArray :=
  {| Encoding := [("task_id", 0)]; Base := [1; 1; 0]; CheckArray := [0; 1; 2] |}.

(** The messages before the query is read. *)
Definition new_ListJobsRequest : ListJobsRequest :=
  {| LJCursor := None; LJLimit := 0;
     LJFilter := {| JFName := None; JFUserEmail := None; JFStatus := None; JFCreatedFrom := None;
                    JFCreatedTo := None |};
     LJSortField := JOB_SORT_FIELD_UNSPECIFIED; LJSortOrder := SORT_ORDER_UNSPECIFIED |}.
Definition new_ListTasksByJobRequest (job_id : string) : ListTasksByJobRequest :=
  {| RqJobId := job_id; RqCursor := None; RqLimit := 0;
     RqFilter := {| FStatus := None; FURL := None; FMinDepth := None; FMaxDepth := None;
                    FEnqueuedFrom := None; FEnqueuedTo := None |};
     RqSortField := TASK_SORT_FIELD_UNSPECIFIED; RqSortOrder := SORT_ORDER_UNSPECIFIED |}.

(** The options of [initHTTPServer], for the origins of the configuration. *)
Definition api_cors (origins : list string) : cors_Options :=
  {| AllowedOrigins := origins;
     AllowedMethods := ["GET"; "POST"; "PUT"; "PATCH"; "DELETE"; "OPTIONS"];
     AllowedHeaders := ["Authorization"; "Content-Type"; "Accept"; "X-Preview-Cookie"];
     ExposedHeaders := ["Grpc-Status"; "Grpc-Message"; "Grpc-Metadata-*"; "Location"];
     AllowCredentials := true |}.

Section Gateway.
Context `{FetchServices, HttpLib, PresignLib, Sanitizer, JwtLib, PasswordLib, RandLib}.
Context `{MailAddress, GrpcLib, GatewayLib}.
Context (im : implementations) (origins : list string) (now : Z).

(** ** Reading a request *)

Definition InvalidArgument (msg : string) : gerror := status_Error "InvalidArgument" msg.

(** The body; a body that is missing leaves the message as it is. *)
Definition decoded_body (m : body_message) (rq : http_request) : res (body_type m) :=
  match gateway_Decode m rq with
  | (msg, None) => Ok msg
  | (msg, Some e) => if errors_Is e "io.EOF" then Ok msg else Err (InvalidArgument (Error e))
  end.

Definition path_param (name : string) (pathParams : params) : res string :=
  match assoc name pathParams with
  | None => Err (InvalidArgument ("missing parameter " +:+ name))
  | Some val =>
      match runtime_String val with
      | Err e => Err (InvalidArgument ("type mismatch, parameter: " +:+ name +:+ ", error: "
                                       +:+ Error e))
      | Ok s => Ok s
      end
  end.

Definition query_of (m : query_message) (msg : query_type m) (filter_ : DoubleArray)
    (rq : http_request) : res (query_type m) :=
  match ParseForm rq with
  | Err e => Err (InvalidArgument (Error e))
  | Ok f => match PopulateQueryParameters m msg f filter_ with
            | Err e => Err (InvalidArgument (Error e))
            | Ok msg => Ok msg
            end
  end.

Definition forward {A} (r : res A) (call : A -> SM (res grpc_response)) : SM (res grpc_response) :=
  match r with Ok msg => call msg | Err e => fail e end.

(** ** The calls of the gateway *)

Definition gateway_call : Type := metadata -> http_request -> params -> SM (res grpc_response).

Definition request_CrawlerService_ListJobs_0 : gateway_call := fun md rq _ =>
  forward (query_of QListJobs new_ListJobsRequest filter_CrawlerService_ListJobs_0 rq)
    (crawlerServiceClient_ListJobs im now (Some md)).
Definition request_CrawlerService_CreateJob_0 : gateway_call := fun md rq _ =>
  forward (decoded_body BCreateJob rq)
    (fun config => crawlerServiceClient_CreateJob im now (Some md) config).
Definition request_CrawlerService_GetJob_0 : gateway_call := fun md _ pathParams =>
  forward (path_param "id" pathParams) (crawlerServiceClient_GetJob im now (Some md)).
Definition request_CrawlerService_GetJobExportFileURL_0 : gateway_call := fun md rq pathParams =>
  forward (id ← path_param "job_id" pathParams;
           query_of QGetJobExportFileURL (id, "") filter_CrawlerService_GetJobExportFileURL_0 rq)
    (fun msg => crawlerServiceClient_GetJobExportFileURL im now (Some md) msg.1 msg.2).
Definition request_CrawlerService_DeleteJob_0 : gateway_call := fun md _ pathParams =>
  forward (path_param "id" pathParams) (crawlerServiceClient_DeleteJob im now (Some md)).
Definition request_CrawlerService_GetTask_0 : gateway_call := fun md _ pathParams =>
  forward (path_param "id" pathParams) (crawlerServiceClient_GetTask im now (Some md)).
Definition request_CrawlerService_ListTasksByJob_0 : gateway_call := fun md rq pathParams =>
  forward (id ← path_param "job_id" pathParams;
           query_of QListTasksByJob (new_ListTasksByJobRequest id)
             filter_CrawlerService_ListTasksByJob_0 rq)
    (crawlerServiceClient_ListTasksByJob im now (Some md)).
Definition request_CrawlerService_GetTaskAnalytics_0 : gateway_call := fun md _ pathParams =>
  forward (path_param "job_id" pathParams) (crawlerServiceClient_GetTaskAnalytics im now (Some md)).
Definition request_CrawlerService_GetTaskFileURL_0 : gateway_call := fun md rq pathParams =>
  forward (id ← path_param "task_id" pathParams;
           query_of QGetTaskFileURL (id, "") filter_CrawlerService_GetTaskFileURL_0 rq)
    (fun msg => crawlerServiceClient_GetTaskFileURL im now (Some md) msg.1 msg.2).
Definition request_PreviewService_CreatePreview_0 : gateway_call := fun md rq _ =>
  forward (decoded_body BCreatePreview rq)
    (fun url => previewServiceClient_CreatePreview im now (Some md) url).
Definition request_PreviewService_GetPreview_0 : gateway_call := fun md _ pathParams =>
  forward (path_param "id" pathParams) (previewServiceClient_GetPreview im now (Some md)).
Definition request_AuthService_Register_0 : gateway_call := fun md rq _ =>
  forward (decoded_body BRegister rq) (fun msg => authServiceClient_Register im now (Some md) msg.1
    msg.2).
Definition request_AuthService_Login_0 : gateway_call := fun md rq _ =>
  forward (decoded_body BLogin rq)
    (fun msg => authServiceClient_Login im now (Some md) msg.1 msg.2).
Definition request_AuthService_Refresh_0 : gateway_call := fun md rq _ =>
  forward (decoded_body BRefresh rq)
    (fun token => authServiceClient_Refresh im now (Some md) token).
Definition request_AuthService_Logout_0 : gateway_call := fun md rq _ =>
  forward (decoded_body BLogout rq) (fun token => authServiceClient_Logout im now (Some md) token).
Definition request_UserService_ListUsers_0 : gateway_call := fun md _ _ =>
  userServiceClient_ListUsers im now (Some md).
Definition request_UserService_UpdateUserRole_0 : gateway_call := fun md rq pathParams =>
  forward (msg ← decoded_body BUpdateUserRole rq; id ← path_param "id" pathParams; Ok (id, msg.2))
    (fun msg => userServiceClient_UpdateUserRole im now (Some md) msg.1 msg.2).
Definition request_WorkerService_ListWorkers_0 : gateway_call := fun md _ _ =>
  workerServiceClient_ListWorkers im now (Some md).
Definition request_WorkerService_DrainWorker_0 : gateway_call := fun md rq pathParams =>
  forward (msg ← decoded_body BDrainWorker rq; id ← path_param "worker_id" pathParams;
    Ok (id, msg.2))
    (fun msg => workerServiceClient_DrainWorker im now (Some md) msg.1 msg.2).
Definition request_WorkerService_ForceKillWorker_0 : gateway_call := fun md rq pathParams =>
  forward (msg ← decoded_body BForceKillWorker rq; id ← path_param "worker_id" pathParams;
    Ok (id, msg.2))
    (fun msg => workerServiceClient_ForceKillWorker im now (Some md) msg.1 msg.2).

(** ** The routes *)

Inductive http_result :=
| Preflight
| NotRouted
| Failed (e : gerror)
| Forwarded (r : grpc_response)
| Written (r : http_response).

Definition http_handler : Type := http_request -> params -> SM http_result.
Definition route : Type := (string * pattern) * http_handler.

(** [runtime.WithIncomingHeaderMatcher]. *)
Definition header_matcher (key : string) : option string :=
  if bool_decide (ToLower key = "x-preview-cookie") then Some "x-preview-cookie"
  else DefaultHeaderMatcher key.

(** What the registered function of a method does. *)
Definition gateway_handler (rpcMethodName httpPath : string) (request : gateway_call)
  : http_handler := fun rq pathParams =>
  match AnnotateContext header_matcher rq rpcMethodName httpPath with
  | Err e => mret (Failed e)
  | Ok md => r ← request md rq pathParams;
             mret (match r with Ok resp => Forwarded resp | Err e => Failed e end)
  end.

Definition RegisterCrawlerServiceHandlerClient : list route :=
  [("GET", pattern_CrawlerService_ListJobs_0,
    gateway_handler "/crawler.v1.CrawlerService/ListJobs" "/api/v1/jobs"
      request_CrawlerService_ListJobs_0);
   ("POST", pattern_CrawlerService_CreateJob_0,
    gateway_handler "/crawler.v1.CrawlerService/CreateJob" "/api/v1/jobs"
      request_CrawlerService_CreateJob_0);
   ("GET", pattern_CrawlerService_GetJob_0,
    gateway_handler "/crawler.v1.CrawlerService/GetJob" "/api/v1/jobs/{id}"
      request_CrawlerService_GetJob_0);
   ("GET", pattern_CrawlerService_GetJobExportFileURL_0,
    gateway_handler "/crawler.v1.CrawlerService/GetJobExportFileURL"
      "/api/v1/jobs/{job_id}/export-url"
      request_CrawlerService_GetJobExportFileURL_0);
   ("DELETE", pattern_CrawlerService_DeleteJob_0,
    gateway_handler "/crawler.v1.CrawlerService/DeleteJob" "/api/v1/jobs/{id}"
      request_CrawlerService_DeleteJob_0);
   ("GET", pattern_CrawlerService_GetTask_0,
    gateway_handler "/crawler.v1.CrawlerService/GetTask" "/api/v1/tasks/{id}"
      request_CrawlerService_GetTask_0);
   ("GET", pattern_CrawlerService_ListTasksByJob_0,
    gateway_handler "/crawler.v1.CrawlerService/ListTasksByJob" "/api/v1/jobs/{job_id}/tasks"
      request_CrawlerService_ListTasksByJob_0);
   ("GET", pattern_CrawlerService_GetTaskAnalytics_0,
    gateway_handler "/crawler.v1.CrawlerService/GetTaskAnalytics" "/api/v1/jobs/{job_id}/analytics"
      request_CrawlerService_GetTaskAnalytics_0);
   ("GET", pattern_CrawlerService_GetTaskFileURL_0,
    gateway_handler "/crawler.v1.CrawlerService/GetTaskFileURL" "/api/v1/tasks/{task_id}/file-url"
      request_CrawlerService_GetTaskFileURL_0)].

Definition RegisterPreviewServiceHandlerClient : list route :=
  [("POST", pattern_PreviewService_CreatePreview_0,
    gateway_handler "/crawler.v1.PreviewService/CreatePreview" "/api/v1/previews"
      request_PreviewService_CreatePreview_0);
   ("GET", pattern_PreviewService_GetPreview_0,
    gateway_handler "/crawler.v1.PreviewService/GetPreview" "/api/v1/previews/{id}"
      request_PreviewService_GetPreview_0)].

Definition RegisterAuthServiceHandlerClient : list route :=
  [("POST", pattern_AuthService_Register_0,
    gateway_handler "/crawler.v1.AuthService/Register" "/api/v1/auth/register"
      request_AuthService_Register_0);
   ("POST", pattern_AuthService_Login_0,
    gateway_handler "/crawler.v1.AuthService/Login" "/api/v1/auth/login"
      request_AuthService_Login_0);
   ("POST", pattern_AuthService_Refresh_0,
    gateway_handler "/crawler.v1.AuthService/Refresh" "/api/v1/auth/refresh"
      request_AuthService_Refresh_0);
   ("POST", pattern_AuthService_Logout_0,
    gateway_handler "/crawler.v1.AuthService/Logout" "/api/v1/auth/logout"
      request_AuthService_Logout_0)].

Definition RegisterUserServiceHandlerClient : list route :=
  [("GET", pattern_UserService_ListUsers_0,
    gateway_handler "/crawler.v1.UserService/ListUsers" "/api/v1/users"
      request_UserService_ListUsers_0);
   ("PATCH", pattern_UserService_UpdateUserRole_0,
    gateway_handler "/crawler.v1.UserService/UpdateUserRole" "/api/v1/users/{id}/role"
      request_UserService_UpdateUserRole_0)].

Definition RegisterWorkerServiceHandlerClient : list route :=
  [("GET", pattern_WorkerService_ListWorkers_0,
    gateway_handler "/crawler.v1.WorkerService/ListWorkers" "/api/v1/workers"
      request_WorkerService_ListWorkers_0);
   ("POST", pattern_WorkerService_DrainWorker_0,
    gateway_handler "/crawler.v1.WorkerService/DrainWorker" "/api/v1/workers/{worker_id}:drain"
      request_WorkerService_DrainWorker_0);
   ("POST", pattern_WorkerService_ForceKillWorker_0,
    gateway_handler "/crawler.v1.WorkerService/ForceKillWorker"
      "/api/v1/workers/{worker_id}:force-kill"
      request_WorkerService_ForceKillWorker_0)].

(** ** app/crawl_queues_handler.go and app/delete_job_handler.go *)

Definition written (m : M http_response) : SM http_result := r ← on_world m; mret (Written r).

Definition deleteJobHandlerFunc : http_handler := fun rq pathParams =>
  written (deleteJobHandler (jwtService (im_auth im)) now (Header_Get "Authorization" rq)
             (default "" (assoc "id" pathParams))).
Definition createJobHandlerFunc : http_handler := fun rq _ =>
  written (createJobHandler (jwtService (im_auth im)) now (availableQueues (im_jobs im))
             (Header_Get "Authorization" rq) (rq_Body rq)).
Definition getJobHandlerFunc : http_handler := fun rq pathParams =>
  written (getJobHandler (jwtService (im_auth im)) now (Header_Get "Authorization" rq)
             (default "" (assoc "id" pathParams))).
Definition crawlQueuesHandlerFunc : http_handler := fun rq _ =>
  mret (Written (crawlQueuesHandler (jwtService (im_auth im)) now (availableQueues (im_jobs im))
                   (Header_Get "Authorization" rq))).

(** ** app/api_app.go: initHTTPServer *)

(** [mux.HandlePath]. *)
Definition HandlePath (meth path : string) (h : http_handler) (mux : list route)
  : res (list route) :=
  p ← httprule_Compile path; Ok (mux ++ [(meth, p, h)]).

Definition gateway_routes : list route :=
  RegisterCrawlerServiceHandlerClient ++ RegisterPreviewServiceHandlerClient
  ++ RegisterAuthServiceHandlerClient ++ RegisterUserServiceHandlerClient
  ++ RegisterWorkerServiceHandlerClient.

Definition http_mux : res (list route) :=
  mux ← HandlePath "DELETE" "/api/v1/jobs/{id}" deleteJobHandlerFunc gateway_routes;
  mux ← HandlePath "POST" "/api/v1/jobs" createJobHandlerFunc mux;
  mux ← HandlePath "GET" "/api/v1/jobs/{id}" getJobHandlerFunc mux;
  HandlePath "GET" "/api/v1/crawl-queues" crawlQueuesHandlerFunc mux.

(** A request that arrives: [c.Handler(mux)]. *)
Definition http_serve (mux : list route) (rq : http_request) : SM http_result :=
  if cors_preflight (api_cors origins) rq then mret Preflight
  else
    match mux_dispatch mux.*1 rq with
    | None => mret NotRouted
    | Some (i, pathParams) =>
        match mux !! i with
        | Some (_, h) => h rq pathParams
        | None => mret NotRouted
        end
    end.

End Gateway.
