(* ===== verification/HttpApi.v ===== *)
(** * What one can do over HTTP

    Theorems about the HTTP server of [Gateway] and the gRPC server behind it: over HTTP one gets what
    gRPC answers, and nobody does what his token does not allow; with an instance of the gateway's
    runtime and concrete requests. *)

From S2P Require Import Prelude GoStrings Domain Json Converters World Sql Repos FetchWorker Auth.
From S2P Require Import Proto.
From S2P Require Import JobService Api Pagination JobListing Preview Validation Registry.
From S2P Require Import WorkerStream.
From S2P Require Import GrpcServer Gateway.

Section HttpApi.
Context `{FetchServices, HttpLib, PresignLib, Sanitizer, JwtLib, PasswordLib, RandLib}.
Context `{MailAddress, GrpcLib, GatewayLib}.
Context (im : implementations) (origins : list string) (now : Z).

(** ** What a request may do *)

Definition same_state (st st' : server) : Prop :=
  same_store (sv_world st) (sv_world st') /\ sv_registry st' = sv_registry st.

(** [token] is the bearer token of the request: of the metadata the gateway makes of its headers, or
    of its Authorization header. *)
Definition bearer (rq : http_request) (token : string) : Prop :=
  (exists rpc path md, AnnotateContext header_matcher rq rpc path = Ok md
     /\ extractTokenFromMetadata (Some md) = Ok token)
  \/ exists scheme, SplitN2 (Header_Get "Authorization" rq) " "%char = [scheme; token]
       /\ ToLower scheme = "bearer".

(** The request carries a valid token of the user [u], whose role is at least [need]. *)
Definition entitled (rq : http_request) (need : Role) (u : string) : Prop :=
  exists token claims role,
    bearer rq token /\ VerifyToken (jwtService (im_auth im)) now token = Ok claims
    /\ cl_UserID claims = u /\ ParseRole (cl_Role claims) = Ok role /\ Level need <= Level role.

(** The method of [m] may be called: it is public, or the token is good for it and [ctx] names its
    user. *)
Definition may_call (rq : http_request) (ctx : call_context) (m : grpc_request) : Prop :=
  isPublicEndpoint (method_of m) = true
  \/ exists need u, requiredRoleForMethod (method_of m) = Some need /\ user_id ctx = Some u
       /\ entitled rq need u.

(** A method is run, on a request that passes its rules, for a caller who may call it. *)
Definition called (rq : http_request) (st st' : server) : Prop :=
  exists md ctx m st0 o, same_state st st0 /\ run im (Some md) ctx m st0 = (o, st')
    /\ request_ok (rules_of m) /\ may_call rq ctx m.

(** What the routes that are registered by hand run, for a user entitled to it. *)
Inductive by_hand (rq : http_request) (st st' : server) : Prop :=
| hand_create cmd o :
    on_world (CreateCrawlJob cmd) st = (o, st') -> entitled rq RoleReadWrite (CmdUserID cmd) ->
    by_hand rq st st'
| hand_delete u id o :
    on_world (DeleteCrawlJob id) st = (o, st') -> entitled rq RoleReadWrite u -> by_hand rq st st'
| hand_get u id o :
    on_world (GetCrawlJob id) st = (o, st') -> entitled rq RoleRead u -> by_hand rq st st'.

Definition allowed (rq : http_request) (st st' : server) : Prop :=
  same_state st st' \/ called rq st st' \/ by_hand rq st st'.

Lemma same_state_refl st : same_state st st.
Proof. done. Qed.
#[local] Hint Resolve same_state_refl : core.

Lemma same_state_trans a b c : same_state a b -> same_state b c -> same_state a c.
Proof.
  intros [(?&?&?&?) ?] [(?&?&?&?) ?]. split; [|by etrans]. repeat split; by etrans.
Qed.

(** The state after a handler is the state after what it runs. *)
Lemma written_state {A} (m : M A) (f : A -> http_response) st o st' :
  written (r ← m; answer (f r)) st = (o, st') -> exists o', on_world m st = (o', st').
Proof.
  unfold written, mbind, SM_bind, M_bind, on_world, answer, mret, M_ret, SM_ret.
  destruct (m (sv_world st)) as [[a|e] w]; intros [= _ <-]; by eexists.
Qed.

Lemma written_answer (r : http_response) st o st' : written (answer r) st = (o, st') -> st' = st.
Proof. unfold written, mbind, SM_bind, on_world. simpl. intros [= _ <-]. by destruct st. Qed.

Lemma serve_call_admits md m ctx rq :
  (exists rpc path, AnnotateContext header_matcher rq rpc path = Ok md) ->
  serve_call (jwtService (im_auth im)) now (Some md) (method_of m) = Ok ctx -> may_call rq ctx m.
Proof.
  intros (rpc & path & Ha) E. unfold serve_call in E. apply res_bind_Ok in E as (c & Ej & Er).
  unfold JWTAuthInterceptor in Ej. unfold RBACInterceptor in Er. unfold may_call.
  destruct (isPublicEndpoint (method_of m)); [by left|right].
  destruct (extractTokenFromMetadata (Some md)) as [token|] eqn:Et; [|done].
  destruct (VerifyToken _ _ _) as [claims|] eqn:Ev; [|done]. injection Ej as <-. simpl in Er.
  destruct (ParseRole (cl_Role claims)) as [role|] eqn:Ep; [|done].
  destruct (requiredRoleForMethod (method_of m)) as [need|] eqn:En; [|done].
  destruct (Level role <? Level need) eqn:El; [done|]. injection Er as <-.
  exists need, (cl_UserID claims). split; [done|]. split; [done|].
  exists token, claims, role. split; [left; by exists rpc, path, md|]. repeat split; try done. lia.
Qed.

Lemma verifyAuth_admits rq need claims :
  verifyAuth (jwtService (im_auth im)) now (Header_Get "Authorization" rq) need = inr claims ->
  entitled rq need (cl_UserID claims).
Proof.
  unfold verifyAuth. destruct (SplitN2 _ _) as [|scheme [|token [|? ?]]] eqn:Es; try done.
  case_decide as Hb; [|done].
  destruct (VerifyToken _ _ _) as [c|] eqn:Ev; [|done].
  destruct (ParseRole (cl_Role c)) as [role|] eqn:Ep; [|done].
  destruct (Level role <? Level need) eqn:El; [done|]. intros [= <-].
  exists token, c, role. split; [right; by exists scheme|]. repeat split; try done. lia.
Qed.

(** A call of the server on behalf of a request. *)
Lemma serve_called rq md full m st o st' :
  (exists rpc path, AnnotateContext header_matcher rq rpc path = Ok md) ->
  grpc_serve im now full (Some md) m st = (o, st') -> same_state st st' \/ called rq st st'.
Proof.
  intros Ha E. destruct (grpc_serve_cases im now full (Some md) m) as [(e & Ee)|(_ & Eg)];
    [rewrite Ee in E; injection E as _ <-; by left|rewrite Eg in E].
  unfold guarded, intercept, ValidateInterceptor in E.
  destruct (validate false (rules_of m)) as [e|] eqn:Ev; [injection E as _ <-; by left|].
  destruct (serve_call _ _ _ _) as [ctx|e] eqn:Es; [|injection E as _ <-; by left].
  right. exists md, ctx, m, st, o. split; [done|]. split; [done|].
  split; [by apply validate_iff|by apply (serve_call_admits md)].
Qed.

Lemma called_after rq st st1 st' :
  same_state st st1 -> same_state st1 st' \/ called rq st1 st' ->
  same_state st st' \/ called rq st st'.
Proof.
  intros Hs [Hs2|(md & ctx & m & st0 & o & Hs2 & Hr)]; [left; by eapply same_state_trans|right].
  exists md, ctx, m, st0, o. split; [by eapply same_state_trans|done].
Qed.

Lemma Invoke_called rq md full m st o st' :
  (exists rpc path, AnnotateContext header_matcher rq rpc path = Ok md) ->
  Invoke im now full (Some md) m st = (o, st') -> same_state st st' \/ called rq st st'.
Proof.
  intros Ha E. unfold Invoke, mbind, SM_bind, on_world in E. simpl in E.
  set (st1 := {| sv_world := tick (sv_world st); sv_registry := sv_registry st |}) in E.
  assert (Hs : same_state st st1) by done.
  destruct (verdict_at _).
  - eapply called_after; [exact Hs|by eapply serve_called].
  - injection E as _ <-. by left.
  - destruct (grpc_serve im now full (Some md) m st1) as [[r|e'] st2] eqn:Eg; injection E as _ <-;
      (eapply called_after; [exact Hs|by eapply serve_called]).
Qed.

(** ** The routes *)

(** A call of the gateway is refused while the request is read, or is a call of the server. *)
Definition invokes (call : gateway_call) : Prop := forall md rq ps,
  (exists e, call md rq ps = fail e)
  \/ exists full m, call md rq ps = Invoke im now full (Some md) m.

Lemma forward_invokes {A} (r : res A) (call : A -> SM (res grpc_response)) md :
  (forall a, exists full m, call a = Invoke im now full (Some md) m) ->
  (exists e, forward r call = fail e) \/ exists full m, forward r call
    = Invoke im now full (Some md) m.
Proof. intros Hc. destruct r as [a|e]; [right; apply Hc|left; by exists e]. Qed.

Definition route_ok (r : route) : Prop := forall rq ps st o st',
  r.2 rq ps st = (o, st') -> allowed rq st st'.

Lemma gateway_ok meth pat rpc path call :
  invokes call -> route_ok (meth, pat, gateway_handler rpc path call).
Proof.
  intros Hc rq ps st o st' E. simpl in E. unfold gateway_handler in E.
  destruct (AnnotateContext _ _ _ _) as [md|e] eqn:Ea; [|injection E as _ <-; by left].
  unfold mbind, SM_bind in E.
  destruct (call md rq ps st) as [[r|e] st1] eqn:Ec; injection E as _ <-.
  all: destruct (Hc md rq ps) as [[e' Ee]|(full & m & Ei)];
    [rewrite Ee in Ec; injection Ec as _ <-; by left|rewrite Ei in Ec].
  all: destruct (Invoke_called rq md full m st _ _ (ex_intro _ rpc (ex_intro _ path Ea)) Ec);
    [by left|by right; left].
Qed.

Lemma gateway_routes_ok : Forall route_ok (gateway_routes im now).
Proof.
  repeat apply List.Forall_cons; try apply List.Forall_nil; apply gateway_ok; intros md rq ps;
    try (apply forward_invokes; intros a); try right; by eexists _, _.
Qed.

Lemma delete_ok meth pat : route_ok (meth, pat, (deleteJobHandlerFunc im now)).
Proof.
  intros rq ps st o st' E. simpl in E. unfold deleteJobHandlerFunc, deleteJobHandler in E.
  destruct (verifyAuth _ _ _ _) as [w|claims] eqn:Ev;
    [apply written_answer in E as ->; by left|apply verifyAuth_admits in Ev].
  case_decide; [apply written_answer in E as ->; by left|].
  apply written_state in E as [o' E]. right; right. by eapply hand_delete.
Qed.

Lemma get_ok meth pat : route_ok (meth, pat, (getJobHandlerFunc im now)).
Proof.
  intros rq ps st o st' E. simpl in E. unfold getJobHandlerFunc, getJobHandler in E.
  destruct (verifyAuth _ _ _ _) as [w|claims] eqn:Ev;
    [apply written_answer in E as ->; by left|apply verifyAuth_admits in Ev].
  case_decide; [apply written_answer in E as ->; by left|].
  apply written_state in E as [o' E]. right; right. by eapply hand_get.
Qed.

Lemma create_ok meth pat : route_ok (meth, pat, (createJobHandlerFunc im now)).
Proof.
  intros rq ps st o st' E. simpl in E. unfold createJobHandlerFunc, createJobHandler in E.
  destruct (verifyAuth _ _ _ _) as [w|claims] eqn:Ev;
    [apply written_answer in E as ->; by left|apply verifyAuth_admits in Ev].
  destruct (read_envelope _) as [w|raw]; [apply written_answer in E as ->; by left|].
  destruct (protojson_Unmarshal raw) as [config|e]; [|apply written_answer in E as ->; by left].
  apply written_state in E as [o' E]. right; right. by eapply hand_create.
Qed.

Lemma queues_ok meth pat : route_ok (meth, pat, (crawlQueuesHandlerFunc im now)).
Proof. intros rq ps st o st' E. injection E as _ <-. by left. Qed.

(** The mux that is served: the routes of the gateway and the four after them. *)
Lemma http_mux_routes mux :
  (http_mux im now) = Ok mux ->
  exists p1 p2 p3 p4, mux = (gateway_routes im now) ++
    [("DELETE", p1, (deleteJobHandlerFunc im now)); ("POST", p2, (createJobHandlerFunc im now));
     ("GET", p3, (getJobHandlerFunc im now)); ("GET", p4, (crawlQueuesHandlerFunc im now))]
    /\ httprule_Compile "/api/v1/jobs/{id}" = Ok p1 /\ httprule_Compile "/api/v1/jobs" = Ok p2
    /\ httprule_Compile "/api/v1/jobs/{id}" = Ok p3
    /\ httprule_Compile "/api/v1/crawl-queues" = Ok p4.
Proof.
  unfold http_mux, HandlePath. intros E.
  apply res_bind_Ok in E as (m1 & E1 & E). apply res_bind_Ok in E1 as (p1 & P1 & [= <-]).
  apply res_bind_Ok in E as (m2 & E2 & E). apply res_bind_Ok in E2 as (p2 & P2 & [= <-]).
  apply res_bind_Ok in E as (m3 & E3 & E). apply res_bind_Ok in E3 as (p3 & P3 & [= <-]).
  apply res_bind_Ok in E as (p4 & P4 & [= <-]).
  exists p1, p2, p3, p4. split; [|done]. reflexivity.
Qed.

(** C6: Nobody does over HTTP what the token does not allow.  Whatever request arrives at the HTTP
    server, with any headers, path, query and body, and whatever the gateway makes of it: the tables,
    the objects, the messages and the workers' registry stay as they are, or one method of the gRPC
    server ran, on a request that satisfies its rules, which is public or for which the request
    carried a valid token of sufficient role, and on behalf of the user of that token; or one of the
    routes registered by hand created or deleted a job for a user whose token allows to write, or read
    one for a user whose token allows to read, and the created job belongs to that user. *)
Theorem http_access_controlled mux rq st out st' :
  (http_mux im now) = Ok mux -> http_serve origins mux rq st = (out, st') -> allowed rq st st'.
Proof.
  intros Em E. apply http_mux_routes in Em as (p1 & p2 & p3 & p4 & -> & _).
  unfold http_serve in E. destruct (cors_preflight _ _); [injection E as _ <-; by left|].
  destruct (mux_dispatch _ _) as [[i ps]|]; [|injection E as _ <-; by left].
  destruct (_ !! i) as [[mp h]|] eqn:Ei; [|injection E as _ <-; by left].
  assert (Hr : route_ok (mp, h)).
  { apply list_elem_of_lookup_2 in Ei. revert Ei. generalize (mp, h). apply Forall_forall.
    apply Forall_app. split; [apply gateway_routes_ok|]. repeat apply List.Forall_cons; [..|done].
    - apply delete_ok.
    - apply create_ok.
    - apply get_ok.
    - apply queues_ok. }
  exact (Hr rq ps st out st' E).
Qed.

(** ** The HTTP server is the gRPC server

    The HTTP call of a request, as [service.proto] annotates its method. *)
Record binding := {
  b_method : string; b_template : list segment; b_verb : string; b_params : params }.

Definition http_binding (m : grpc_request) : binding :=
  match m with
  | ListJobsReq _ =>
      {| b_method := "GET"; b_verb := ""; b_params := [];
         b_template := [Lit "api"; Lit "v1"; Lit "jobs"] |}
  | CreateJobReq _ =>
      {| b_method := "POST"; b_verb := ""; b_params := [];
         b_template := [Lit "api"; Lit "v1"; Lit "jobs"] |}
  | GetJobReq id =>
      {| b_method := "GET"; b_verb := ""; b_params := [("id", id)];
         b_template := [Lit "api"; Lit "v1"; Lit "jobs"; Var "id"] |}
  | GetJobExportFileURLReq job_id _ =>
      {| b_method := "GET"; b_verb := ""; b_params := [("job_id", job_id)];
         b_template := [Lit "api"; Lit "v1"; Lit "jobs"; Var "job_id"; Lit "export-url"] |}
  | DeleteJobReq id =>
      {| b_method := "DELETE"; b_verb := ""; b_params := [("id", id)];
         b_template := [Lit "api"; Lit "v1"; Lit "jobs"; Var "id"] |}
  | GetTaskReq id =>
      {| b_method := "GET"; b_verb := ""; b_params := [("id", id)];
         b_template := [Lit "api"; Lit "v1"; Lit "tasks"; Var "id"] |}
  | ListTasksByJobReq req =>
      {| b_method := "GET"; b_verb := ""; b_params := [("job_id", RqJobId req)];
         b_template := [Lit "api"; Lit "v1"; Lit "jobs"; Var "job_id"; Lit "tasks"] |}
  | GetTaskAnalyticsReq job_id =>
      {| b_method := "GET"; b_verb := ""; b_params := [("job_id", job_id)];
         b_template := [Lit "api"; Lit "v1"; Lit "jobs"; Var "job_id"; Lit "analytics"] |}
  | GetTaskFileURLReq task_id _ =>
      {| b_method := "GET"; b_verb := ""; b_params := [("task_id", task_id)];
         b_template := [Lit "api"; Lit "v1"; Lit "tasks"; Var "task_id"; Lit "file-url"] |}
  | CreatePreviewReq _ =>
      {| b_method := "POST"; b_verb := ""; b_params := [];
         b_template := [Lit "api"; Lit "v1"; Lit "previews"] |}
  | GetPreviewReq id =>
      {| b_method := "GET"; b_verb := ""; b_params := [("id", id)];
         b_template := [Lit "api"; Lit "v1"; Lit "previews"; Var "id"] |}
  | RegisterReq _ _ =>
      {| b_method := "POST"; b_verb := ""; b_params := [];
         b_template := [Lit "api"; Lit "v1"; Lit "auth"; Lit "register"] |}
  | LoginReq _ _ =>
      {| b_method := "POST"; b_verb := ""; b_params := [];
         b_template := [Lit "api"; Lit "v1"; Lit "auth"; Lit "login"] |}
  | RefreshReq _ =>
      {| b_method := "POST"; b_verb := ""; b_params := [];
         b_template := [Lit "api"; Lit "v1"; Lit "auth"; Lit "refresh"] |}
  | LogoutReq _ =>
      {| b_method := "POST"; b_verb := ""; b_params := [];
         b_template := [Lit "api"; Lit "v1"; Lit "auth"; Lit "logout"] |}
  | ListUsersReq =>
      {| b_method := "GET"; b_verb := ""; b_params := [];
         b_template := [Lit "api"; Lit "v1"; Lit "users"] |}
  | UpdateUserRoleReq id _ =>
      {| b_method := "PATCH"; b_verb := ""; b_params := [("id", id)];
         b_template := [Lit "api"; Lit "v1"; Lit "users"; Var "id"; Lit "role"] |}
  | ListWorkersReq =>
      {| b_method := "GET"; b_verb := ""; b_params := [];
         b_template := [Lit "api"; Lit "v1"; Lit "workers"] |}
  | DrainWorkerReq worker_id _ =>
      {| b_method := "POST"; b_verb := "drain"; b_params := [("worker_id", worker_id)];
         b_template := [Lit "api"; Lit "v1"; Lit "workers"; Var "worker_id"] |}
  | ForceKillWorkerReq worker_id _ =>
      {| b_method := "POST"; b_verb := "force-kill"; b_params := [("worker_id", worker_id)];
         b_template := [Lit "api"; Lit "v1"; Lit "workers"; Var "worker_id"] |}
  end.

(** What is left of [m] is in the body or the query of the request. *)
Definition body_is (k : body_message) (rq : http_request) (ok : body_type k -> Prop) : Prop :=
  exists msg, decoded_body k rq = Ok msg /\ ok msg.
Definition carries (rq : http_request) (m : grpc_request) : Prop :=
  match m with
  | ListJobsReq req =>
      query_of QListJobs new_ListJobsRequest filter_CrawlerService_ListJobs_0 rq = Ok req
  | ListTasksByJobReq req =>
      query_of QListTasksByJob (new_ListTasksByJobRequest (RqJobId req))
        filter_CrawlerService_ListTasksByJob_0 rq = Ok req
  | GetJobExportFileURLReq job_id t =>
      query_of QGetJobExportFileURL (job_id, "") filter_CrawlerService_GetJobExportFileURL_0 rq
      = Ok (job_id, t)
  | GetTaskFileURLReq task_id t =>
      query_of QGetTaskFileURL (task_id, "") filter_CrawlerService_GetTaskFileURL_0 rq
      = Ok (task_id, t)
  | CreatePreviewReq url => body_is BCreatePreview rq (fun msg => msg = url)
  | RegisterReq email password => body_is BRegister rq (fun msg => msg = (email, password))
  | LoginReq email password => body_is BLogin rq (fun msg => msg = (email, password))
  | RefreshReq token => body_is BRefresh rq (fun msg => msg = token)
  | LogoutReq token => body_is BLogout rq (fun msg => msg = token)
  | UpdateUserRoleReq _ role => body_is BUpdateUserRole rq (fun msg => msg.2 = role)
  | DrainWorkerReq _ reason => body_is BDrainWorker rq (fun msg => msg.2 = reason)
  | ForceKillWorkerReq _ reason => body_is BForceKillWorker rq (fun msg => msg.2 = reason)
  | _ => True
  end.

(** [rq] is the HTTP call of [m]. *)
Record asks (rq : http_request) (m : grpc_request) : Prop := {
  asks_method : rq_Method rq = b_method (http_binding m);
  asks_path : rq_Path rq
    = path_of (b_template (http_binding m)) (b_verb (http_binding m)) (b_params (http_binding m));
  asks_plain : Forall (fun p => plain p.2) (b_params (http_binding m));
  asks_no_override : Header_Get "X-Http-Method-Override" rq = "";
  asks_rest : carries rq m }.

(** The methods whose route is registered a second time, by hand. *)
Definition handled_by_hand (m : grpc_request) : option http_handler :=
  match m with
  | CreateJobReq _ => Some (createJobHandlerFunc im now)
  | GetJobReq _ => Some (getJobHandlerFunc im now)
  | DeleteJobReq _ => Some (deleteJobHandlerFunc im now)
  | _ => None
  end.

(** The gateway's side of a call of the gRPC server. *)
Definition through_gateway (md : metadata) (m : grpc_request) : SM http_result :=
  r ← Invoke im now (method_of m) (Some md) m;
  mret (match r with Ok resp => Forwarded resp | Err e => Failed e end).

Definition expected (m : grpc_request) (md : metadata) (rq : http_request) : SM http_result :=
  match handled_by_hand m with
  | Some h => h rq (b_params (http_binding m))
  | None => through_gateway md m
  end.

(** The position of the route of [m] among the routes. *)
Definition route_index (m : grpc_request) : nat :=
  match m with
  | ListJobsReq _ => 0
  | CreateJobReq _ => 21
  | GetJobReq _ => 22
  | GetJobExportFileURLReq _ _ => 3
  | DeleteJobReq _ => 20
  | GetTaskReq _ => 5
  | ListTasksByJobReq _ => 6
  | GetTaskAnalyticsReq _ => 7
  | GetTaskFileURLReq _ _ => 8
  | CreatePreviewReq _ => 9
  | GetPreviewReq _ => 10
  | RegisterReq _ _ => 11
  | LoginReq _ _ => 12
  | RefreshReq _ => 13
  | LogoutReq _ => 14
  | ListUsersReq => 15
  | UpdateUserRoleReq _ _ => 16
  | ListWorkersReq => 17
  | DrainWorkerReq _ _ => 18
  | ForceKillWorkerReq _ _ => 19
  end%nat.

Lemma compiled t p :
  t ∈ handled_paths -> httprule_Compile (template_text t "") = Ok p -> template_of p = Some (t, "").
Proof.
  intros Ht E. destruct (httprule_Compile_text t Ht) as (p' & E' & Ep).
  rewrite E in E'. injection E' as <-. exact Ep.
Qed.

Lemma plain_binding m : plain_template (b_template (http_binding m)) (b_verb (http_binding m)).
Proof.
  split; [by destruct m|].
  split; [destruct m; simpl; repeat apply List.Forall_cons; try apply List.Forall_nil;
          try exact I; (split; [discriminate|reflexivity])|].
  destruct m; simpl; first [by left|right; (split; [discriminate|reflexivity])].
Qed.

(** No later route takes the path of [m]. *)
Lemma dispatch_binding rq m p1 p2 p3 p4 :
  asks rq m ->
  template_of p1 = Some ([Lit "api"; Lit "v1"; Lit "jobs"; Var "id"], "") ->
  template_of p2 = Some ([Lit "api"; Lit "v1"; Lit "jobs"], "") ->
  template_of p3 = Some ([Lit "api"; Lit "v1"; Lit "jobs"; Var "id"], "") ->
  template_of p4 = Some ([Lit "api"; Lit "v1"; Lit "crawl-queues"], "") ->
  mux_dispatch ((gateway_routes im now).*1 ++ [("DELETE", p1); ("POST", p2); ("GET", p3);
    ("GET", p4)]) rq
  = Some (route_index m, b_params (http_binding m)).
Proof.
  intros [Hm Hp Hv Ho _] T1 T2 T3 T4.
  pose proof (plain_binding m) as Hpl.
  destruct m; (eapply mux_dispatch_newest;
    [rewrite Hm; reflexivity
    |first [exact T1|exact T2|exact T3|reflexivity]
    |exact Hpl|exact Hp|reflexivity|by repeat constructor; set_solver|exact Hv|exact Ho|]).
  all: rewrite Hm; simpl; repeat apply List.Forall_cons; try apply List.Forall_nil;
    unfold may_match; cbn [fst snd]; rewrite ?T1, ?T2, ?T3, ?T4; reflexivity.
Qed.

Lemma path_param_binding name v : path_param name [(name, v)] = Ok v.
Proof.
  unfold path_param, assoc. simpl. rewrite decide_True by done. simpl. by rewrite runtime_String_id.
Qed.

Lemma gateway_through rpc path call rq ps md m st :
  AnnotateContext header_matcher rq rpc path = Ok md ->
  call md rq ps = Invoke im now (method_of m) (Some md) m ->
  gateway_handler rpc path call rq ps st = through_gateway md m st.
Proof. intros Ha Hc. unfold gateway_handler. by rewrite Ha, Hc. Qed.

(** The gateway reads the request of the method from its HTTP call. *)
Ltac head_of t := lazymatch t with ?f _ => head_of f | _ => t end.
Ltac read_request Hc :=
  lazymatch goal with |- ?call = _ => let f := head_of call in unfold f end;
  try (destruct Hc as (msg & Eb & Hmsg); rewrite Eb);
  rewrite ?path_param_binding; unfold mbind, res_bind; simpl;
  try (rewrite Hc); simpl; subst; reflexivity.

(** C20: Over HTTP one gets what gRPC answers.  A request with the method and the path that the proto
    file binds to a method of the API, with plain values in the path and the other fields in its query
    or body, is served by the call of that method with these fields and the metadata the gateway makes
    of the headers, and by nothing else: no route takes the requests of another.  Only creating,
    reading and deleting a job go to the handlers that were registered by hand after the gateway. *)
Theorem http_is_grpc mux rq m md st :
  (http_mux im now) = Ok mux -> asks rq m ->
  AnnotateContext header_matcher rq (method_of m)
    (template_text (b_template (http_binding m)) (b_verb (http_binding m))) = Ok md ->
  http_serve origins mux rq st = expected m md rq st.
Proof.
  intros Em Ha Hmd. apply http_mux_routes in Em as (p1 & p2 & p3 & p4 & -> & P1 & P2 & P3 & P4).
  unfold http_serve. destruct (cors_preflight _ _) eqn:Ec.
  { apply cors_preflight_options in Ec. destruct Ha as [Hm _ _ _ _]. rewrite Hm in Ec.
    destruct m; discriminate Ec. }
  pose proof (dispatch_binding rq m p1 p2 p3 p4 Ha) as Hd.
  rewrite fmap_app. cbn [fmap list_fmap fst] in Hd |- *.
  rewrite Hd by (eapply compiled; [|eassumption]; set_solver). clear Hd.
  destruct Ha as [_ _ _ _ Hc].
  destruct m; unfold expected; simpl in Hc |- *; try reflexivity;
    (apply gateway_through; [exact Hmd|]); read_request Hc.
Qed.

End HttpApi.

(** ** An instance of the library *)

Definition plain_seg (s : segment) : bool :=
  match s with Lit s => forallb plain_char (bytes_of s) | Var _ => true end.
Definition plain_verb (verb : string) : bool := forallb plain_char (bytes_of verb).

(** The last segment less the verb. *)
Definition strip_verb (verb c : string) : option string :=
  let l := bytes_of c in
  let v := bytes_of (verb_text verb) in
  let n := (length l - length v)%nat in
  if bool_decide (drop n l = v) then Some (of_bytes (take n l)) else None.

Definition match_segment (s : segment) (c : string) : option params :=
  match s with Lit s => if bool_decide (c = s) then Some [] else None | Var n => Some [(n, c)] end.

Fixpoint match_path (t : list segment) (verb : string) (path : list string) : option params :=
  match t, path with
  | [s], [c] => c ← strip_verb verb c; match_segment s c
  | s :: t, c :: path => l ← match_segment s c; ps ← match_path t verb path; Some (l ++ ps)
  | _, _ => None
  end.

Definition match_route (rq : http_request) (r : string * pattern) : option params :=
  match template_of r.2 with
  | Some (t, verb) =>
      if bool_decide (r.1 = rq_Method rq) && forallb plain_seg t && plain_verb verb
      then match_path t verb (rq_Path rq) else None
  | None => None
  end.

(** The last route that matches. *)
Fixpoint last_match (rq : http_request) (i : nat) (routes : list (string * pattern))
  : option (nat * params) :=
  match routes with
  | [] => None
  | r :: routes =>
      match last_match rq (S i) routes with
      | Some x => Some x
      | None => ps ← match_route rq r; Some (i, ps)
      end
  end.

Lemma bytes_inj s t : bytes_of s = bytes_of t -> s = t.
Proof. intros E. by rewrite <- (of_bytes_of s), <- (of_bytes_of t), E. Qed.

Lemma strip_verb_app verb c : strip_verb verb (c +:+ verb_text verb) = Some c.
Proof.
  unfold strip_verb. rewrite bytes_of_app, length_app.
  replace (_ + _ - _)%nat with (length (bytes_of c)) by lia.
  rewrite drop_app_length, take_app_length, bool_decide_true by done. by rewrite of_bytes_of.
Qed.

Lemma strip_verb_inv verb c x : strip_verb verb c = Some x -> c = x +:+ verb_text verb.
Proof.
  unfold strip_verb. case_bool_decide as E; [|done]. intros [= <-].
  apply bytes_inj. rewrite bytes_of_app, bytes_of_bytes. etrans; [symmetry; apply take_drop|].
  by rewrite E.
Qed.

Lemma no_colon s : forallb plain_char (bytes_of s) = true -> ":"%char ∉ bytes_of s.
Proof.
  intros H Hin. apply list_elem_of_In in Hin.
  pose proof (proj1 (forallb_forall _ _) H _ Hin) as E. discriminate E.
Qed.

(** Where plain values and verbs end in a text is clear. *)
Lemma verb_split x v y w :
  plain_verb v = true -> plain_verb w = true -> x +:+ verb_text v = y +:+ verb_text w ->
  (v = "" \/ w = "" \/ v = w)
  /\ (forallb plain_char (bytes_of x) = true -> forallb plain_char (bytes_of y) = true -> x = y).
Proof.
  intros Hv Hw E. apply no_colon in Hv, Hw.
  apply (f_equal bytes_of) in E. rewrite !bytes_of_app in E.
  unfold verb_text in E. case_bool_decide as Ev; case_bool_decide as Ew; simpl in E.
  - rewrite !app_nil_r in E. apply bytes_inj in E. by split; [left|].
  - rewrite app_nil_r in E. split; [by left|]. intros Hx _. apply no_colon in Hx.
    rewrite E in Hx. set_solver.
  - rewrite app_nil_r in E. split; [by right; left|]. intros _ Hy. apply no_colon in Hy.
    rewrite <- E in Hy. set_solver.
  - apply app_last_inj in E as [E1 E2]; [|done..].
    split; [by right; right; apply bytes_inj|intros; by apply bytes_inj].
Qed.

Lemma assoc_plain n ps :
  Forall (fun p => plain p.2) ps -> forallb plain_char (bytes_of (default "" (assoc n ps))) = true.
Proof.
  intros Hp. unfold assoc. destruct (list_find _ ps) as [[i p]|] eqn:E; [|done]. simpl.
  apply list_find_Some in E as (Hi & _ & _). apply (Forall_lookup_1 _ _ _ _ Hp Hi).
Qed.

Lemma value_plain s ps :
  plain_seg s = true -> Forall (fun p => plain p.2) ps ->
  forallb plain_char (bytes_of (segment_value ps s)) = true.
Proof. destruct s as [s|n]; intros Hs Hp; [done|by apply assoc_plain]. Qed.

(** A template matches its own paths, *)
Lemma match_path_of t verb ps :
  t <> [] ->
  match_path t verb (path_of t verb ps)
  = Some ((fun n => (n, default "" (assoc n ps))) <$> variables t).
Proof.
  induction t as [|s [|s' t] IH]; intros Ht; [done|..].
  - simpl. rewrite strip_verb_app. simpl. destruct s as [s|n]; simpl; [|done].
    by rewrite bool_decide_true.
  - specialize (IH ltac:(done)). change (path_of (s :: s' :: t) verb ps)
      with (segment_value ps s :: path_of (s' :: t) verb ps).
    change (match_path (s :: s' :: t) verb (segment_value ps s :: path_of (s' :: t) verb ps))
      with (l ← match_segment s (segment_value ps s);
            qs ← match_path (s' :: t) verb (path_of (s' :: t) verb ps); Some (l ++ qs)).
    rewrite IH. destruct s as [s|n]; simpl; [by rewrite bool_decide_true|done].
Qed.

(** and no others than those it covers. *)
Lemma match_path_covers t' verb' t verb ps qs :
  forallb plain_seg t' = true -> plain_verb verb' = true ->
  forallb plain_seg t = true -> plain_verb verb = true -> Forall (fun p => plain p.2) ps ->
  match_path t' verb' (path_of t verb ps) = Some qs ->
  covers t' t ps = true /\ (verb' = "" \/ verb = "" \/ verb' = verb).
Proof.
  intros Ht' Hv' Ht Hv Hp. revert t' qs Ht'.
  induction t as [|s t IH]; intros t' qs Ht' E; [by destruct t' as [|? [|? ?]]|].
  simpl in Ht. apply andb_true_iff in Ht as [Hs Ht]. specialize (IH Ht).
  pose proof (value_plain s ps Hs Hp) as Hval.
  destruct t' as [|s' t']; [by destruct t|]. simpl in Ht'. apply andb_true_iff in Ht' as [Hs' Ht'].
  destruct t as [|s2 t].
  - destruct t' as [|s2' t'].
    + simpl in E. destruct (strip_verb verb' _) as [x|] eqn:Ex; [|done]. simpl in E.
      apply strip_verb_inv in Ex. destruct (verb_split _ _ _ _ Hv Hv' Ex) as [Hvv Hxx].
      split; [|by destruct Hvv as [?|[?|?]]; auto].
      destruct s' as [l|n]; simpl in E |- *; [|done].
      case_bool_decide as El; [|done]. subst x. rewrite (Hxx Hval Hs'). by rewrite bool_decide_true.
    + simpl in E. destruct (match_segment s' _); [|done]. by destruct t'.
  - change (path_of (s :: s2 :: t) verb ps)
      with (segment_value ps s :: path_of (s2 :: t) verb ps) in E.
    assert (E' : exists l qs', match_segment s' (segment_value ps s) = Some l
                   /\ match_path t' verb' (path_of (s2 :: t) verb ps) = Some qs').
    { assert (Hn : path_of (s2 :: t) verb ps <> []) by (by destruct t).
      destruct (path_of (s2 :: t) verb ps) as [|c path]; [done|].
      assert (E2 : (l ← match_segment s' (segment_value ps s);
                    rs ← match_path t' verb' (c :: path); Some (l ++ rs)) = Some qs)
        by (destruct t'; exact E).
      destruct (match_segment s' _) as [l|]; [|done].
      unfold mbind, option_bind in E2.
      destruct (match_path t' verb' (c :: path)) as [rs|]; [|done]. by exists l, rs. }
    destruct E' as (l & qs' & El & Eq). destruct (IH t' qs' Ht' Eq) as [Hc Hvv].
    split; [|done]. destruct s' as [l'|n]; simpl in El |- *; [|exact Hc].
    case_bool_decide as Ev; [|done]. by rewrite ?bool_decide_true.
Qed.

Lemma seg_plain s : match s with Lit s => plain s | Var _ => True end -> plain_seg s = true.
Proof. destruct s; [by intros []|done]. Qed.

Lemma template_plain t verb :
  plain_template t verb -> t <> [] /\ forallb plain_seg t = true /\ plain_verb verb = true.
Proof.
  intros (Hn & Ht & Hv). split; [done|]. split; [|by destruct Hv as [->|[]]].
  apply forallb_forall. intros s Hs. apply seg_plain.
  apply list_elem_of_In in Hs. exact (proj1 (Forall_forall _ _) Ht _ Hs).
Qed.

Lemma assoc_in (ps : params) k v : NoDup ps.*1 -> (k, v) ∈ ps -> assoc k ps = Some v.
Proof.
  intros Hn Hin. unfold assoc.
  destruct (list_find_elem_of (fun p : string * string => p.1 = k) ps (k,
    v) Hin eq_refl) as [[i p] E].
  rewrite E. apply list_find_Some in E as (Hi & Ek & _). apply list_elem_of_lookup_2 in Hi.
  destruct p as [k' v']. simpl in *. subst k'. f_equal. by apply (NoDup_fst_inj ps k).
Qed.

Lemma assoc_fst (ps : params) :
  NoDup ps.*1 -> (fun n => (n, default "" (assoc n ps))) <$> ps.*1 = ps.
Proof.
  intros Hn. rewrite <- list_fmap_compose. etrans; [|apply list_fmap_id].
  apply Forall_fmap_ext_1, Forall_forall. intros [k v] Hin. simpl.
  by rewrite (assoc_in ps k v).
Qed.

Lemma may_match_none rq t verb ps r :
  plain_template t verb -> rq_Path rq = path_of t verb ps -> Forall (fun p => plain p.2) ps ->
  may_match (rq_Method rq) t verb ps r = false -> match_route rq r = None.
Proof.
  intros Ht Hp Hps E. apply template_plain in Ht as (_ & Ht & Hv).
  unfold match_route, may_match in *.
  destruct (template_of r.2) as [[t' verb']|]; [|done].
  case_bool_decide as Em; [|done]. simpl in E |- *.
  destruct (forallb plain_seg t') eqn:Hs'; [|done]. destruct (plain_verb verb') eqn:Hv'; [|done].
  simpl.
  rewrite Hp. destruct (match_path t' verb' _) as [qs|] eqn:Eq; [exfalso|done].
  destruct (match_path_covers _ _ _ _ _ _ Hs' Hv' Ht Hv Hps Eq) as [Hc Hvv]. rewrite Hc in E.
  simpl in E. apply orb_false_iff in E as [E E3]. apply orb_false_iff in E as [E1 E2].
  apply bool_decide_eq_false in E1, E2, E3. by destruct Hvv as [?|[?|?]].
Qed.

Lemma last_match_at rq routes i k r ps :
  routes !! i = Some r -> match_route rq r = Some ps ->
  Forall (fun r => match_route rq r = None) (drop (S i) routes) ->
  last_match rq k routes = Some ((k + i)%nat, ps).
Proof.
  intros Hi Hr Hl. revert i k Hi Hl. induction routes as [|r' routes IH]; intros i k Hi Hl; [done|].
  destruct i as [|i].
  - injection Hi as ->. simpl in Hl |- *. rewrite drop_0 in Hl.
    assert (E : forall j, last_match rq j routes = None).
    { clear -Hl. induction Hl as [|r' l Hr Hl IH]; intros j; [done|]. simpl. by rewrite IH, Hr. }
    rewrite E, Hr. simpl. by rewrite Nat.add_0_r.
  - simpl in Hi, Hl |- *. rewrite (IH i (S k) Hi Hl). do 2 f_equal. lia.
Qed.

(** The pattern of a text of [handled_paths]. *)
Definition compile_literals (t : list segment) : pattern :=
  {| pt_ops := zip (Z.of_nat <$> seq 0 (length t)) t ≫= fun x =>
                 match x with (i, Lit _) => [2; i] | (i, Var _) => [1; 0; 4; 1; 5; i] end;
     pt_pool := (fun s => match s with Lit s => s | Var n => n end) <$> t; pt_verb := "" |}.

Definition compile_text (path : string) : res pattern :=
  match list_find (fun t => template_text t "" = path) handled_paths with
  | Some (_, t) => Ok (compile_literals t)
  | None => Err (ENew "invalid path")
  end.

(** The headers in the metadata, by their lower-case names; no body or query is decoded. *)
#[export] Instance plain_gateway : GatewayLib.
Proof.
  refine {|
    mux_dispatch routes rq := last_match rq 0 routes;
    httprule_Compile := compile_text;
    DefaultHeaderMatcher _ := None;
    AnnotateContext _ rq _ _ := Ok (list_to_map ((fun h => (ToLower h.1, h.2)) <$> rq_Header rq));
    gateway_Decode m _ :=
      (match m as m return body_type m with
       | BCreateJob => None
       | BCreatePreview | BRefresh | BLogout => ""
       | BRegister | BLogin | BDrainWorker | BForceKillWorker => ("", "")
       | BUpdateUserRole => ("", 0)
       end, Some (ESentinel "io.EOF" "EOF"));
    ParseForm _ := Ok [];
    PopulateQueryParameters _ msg _ _ := Ok msg;
    runtime_String := Ok;
    cors_preflight _ rq := bool_decide (rq_Method rq = "OPTIONS") |}.
  - intros routes rq i pat t verb ps Hi Ht Hpl Hpath Hvars Hn Hps _ Hl.
    apply (last_match_at rq routes i 0 _ ps Hi).
    + destruct (template_plain _ _ Hpl) as (Hne & Hs & Hv). unfold match_route. simpl.
      rewrite Ht, bool_decide_true, Hs, Hv, Hpath by done. simpl.
      rewrite match_path_of, Hvars by done. by rewrite assoc_fst.
    + eapply Forall_impl; [exact Hl|]. intros r. by apply may_match_none.
  - intros t Ht. unfold handled_paths in Ht.
    repeat (apply elem_of_cons in Ht as [->|Ht]; [eexists; split; vm_compute; reflexivity|]).
    by apply elem_of_nil in Ht.
  - done.
  - intros _ rq E. by apply bool_decide_eq_true in E.
Defined.

(** ** Concrete requests *)

#[local] Existing Instances any_uuid plain_env plain_json plain_robots plain_services.
#[local] Instance http_links : PresignLib :=
  {| PresignedGetObject _ bucket key _ := Ok ("http://s3/" +:+ bucket +:+ "/" +:+ key) |}.
#[local] Instance no_markup : Sanitizer := {| SanitizeBytes html := html |}.
#[local] Instance local_address : MailAddress.
Proof.
  refine {| mail_Address a := if decide ("@"%char ∈ bytes_of a) then a else a +:+ "@localhost" |}.
  intros a _. destruct (decide _) as [Ha|]; [done|]. rewrite bytes_of_app. simpl. set_solver.
Defined.
#[local] Instance http_json : HttpLib.
Proof.
  refine {| json_Decode s := match unmarshal s with Some j => Ok j | None => Err (ENew "EOF") end;
            protojson_Unmarshal _ := Err (ENew "proto: syntax error");
            protojson_Marshal _ := Ok (JObj []) |}.
  by intros s j ->.
Defined.

Definition demo_im : implementations :=
  {| im_jobs := demo_impl; im_retries := demo_policy; im_auth := demo_auth;
     im_range := fun m => (map_to_list m).*1 |}.
Definition demo_origins : list string := ["http://localhost:4200"].
Definition demo_server : server :=
  {| sv_world := demo_fetched; sv_registry := NewRegistry 30 60 |}.
Definition demo_mux : list route :=
  match http_mux demo_im 0 with Ok mux => mux | Err _ => [] end.
Definition demo_rq (meth : string) (path : list string) : http_request :=
  {| rq_Method := meth; rq_Path := path; rq_Query := "";
     rq_Header := [("Authorization", [demo_bearer])]; rq_Body := "" |}.
Definition demo_get : http_request := demo_rq "GET" ["api"; "v1"; "tasks"; "t1"].

Lemma demo_mux_ok : http_mux demo_im 0 = Ok demo_mux.
Proof.
  assert (E1 : is_ok (httprule_Compile "/api/v1/jobs/{id}") = true) by (vm_compute; reflexivity).
  assert (E2 : is_ok (httprule_Compile "/api/v1/jobs") = true) by (vm_compute; reflexivity).
  assert (E3 : is_ok (httprule_Compile "/api/v1/crawl-queues") = true) by (vm_compute; reflexivity).
  unfold demo_mux, http_mux, HandlePath.
  destruct (httprule_Compile "/api/v1/jobs/{id}"), (httprule_Compile "/api/v1/jobs"),
    (httprule_Compile "/api/v1/crawl-queues"); done.
Qed.

Lemma demo_asks : asks demo_get (GetTaskReq "t1").
Proof. split; try reflexivity. repeat constructor. discriminate. Qed.

Lemma http_is_grpc_witness :
  http_serve demo_origins demo_mux demo_get demo_server
  = through_gateway demo_im 0 {[ "authorization" := [demo_bearer] ]} (GetTaskReq "t1") demo_server.
Proof.
  apply (http_is_grpc demo_im demo_origins 0 demo_mux demo_get (GetTaskReq "t1")
           {[ "authorization" := [demo_bearer] ]} demo_server demo_mux_ok demo_asks).
  reflexivity.
Defined.

(** A job is deleted over HTTP with a token that may write. *)
Definition demo_delete : http_request := demo_rq "DELETE" ["api"; "v1"; "jobs"; "j1"].
Definition after_delete : outcome http_result * server :=
  http_serve demo_origins demo_mux demo_delete demo_server.

Lemma http_access_controlled_witness :
  after_delete.1 = Ret (Written {| hr_status := StatusOK; hr_body := JObj [] |})
  /\ allowed demo_im 0 demo_delete demo_server after_delete.2.
Proof.
  split; [vm_compute; reflexivity|].
  apply (http_access_controlled demo_im demo_origins 0 demo_mux demo_delete demo_server
           after_delete.1 after_delete.2 demo_mux_ok).
  apply surjective_pairing.
Defined.
