(* ===== verification/Sharding.v ===== *)
(** * Sharding of the database

    [persistence/shard.go], [pg/sharded_client.go], [pg/merged_rows.go], [pg/pgdb.go],
    [transaction/sharded_transaction.go], [interceptor/shard_key.go] and the sharding part of
    [config/env/pg.go].

    A [cluster] is one database per shard and the transaction of the call chain, which lives on the
    connection of one shard.  [DB] is the interface [persistence.DB]: [pgDb i] is the client of one
    pool, [shardedDB n] routes its calls over [n] of them.  A repository method is a [prog], the
    calls it makes on whichever [DB] it is given; [run_plain] is its meaning on the single database
    of [World] that the other components are verified against. *)

From S2P Require Import Prelude GoStrings Domain Json Converters World Sql Repos.

(** ** persistence/shard.go *)

(** [hash/fnv]: 32-bit FNV-1a. *)
Definition fnv_offset32 : Z := 2166136261.
Definition fnv_prime32 : Z := 16777619.
Definition fnv_step (h : Z) (b : ascii) : Z :=
  wrapu 32 (Z.lxor h (Z.of_nat (code b)) * fnv_prime32).
Definition fnv32a (s : string) : Z := foldl fnv_step fnv_offset32 (bytes_of s).

(** [int(h.Sum32() % uint32(numShards))]. *)
Definition ShardIndex (key : string) (numShards : nat) : nat :=
  if (numShards <=? 1)%nat then 0%nat
  else Z.to_nat (fnv32a key mod wrapu 32 (Z.of_nat numShards)).

(** The value of the context under [ctxShardKey]. *)
Definition shard_ctx : Type := option string.
Definition WithShardKey (_ : shard_ctx) (key : string) : shard_ctx := Some key.
Definition ShardKeyFromContext (ctx : shard_ctx) : option string :=
  match ctx with
  | Some v => if bool_decide (v = "") then None else Some v
  | None => None
  end.

(** ** interceptor/shard_key.go *)

Definition isJobEndpoint (method : string) : bool :=
  bool_decide (method = "/crawler.v1.CrawlerService/GetJob")
  || bool_decide (method = "/crawler.v1.CrawlerService/DeleteJob").

(** [job_id] and [id] are what [GetJobId] and [GetId] answer, for a request that has them. *)
Definition ShardKeyInterceptor (shardingEnabled : bool) (method : string)
    (job_id id : option string) (ctx : shard_ctx) : shard_ctx :=
  if negb shardingEnabled then ctx
  else
    let jobID := default "" job_id in
    let jobID :=
      if bool_decide (jobID = "") then
        match id with
        | Some i => if isJobEndpoint method then i else jobID
        | None => jobID
        end
      else jobID in
    if bool_decide (jobID = "") then ctx else WithShardKey ctx jobID.

(** ** config/env/pg.go *)

Record pgConfig := { pg_dsn : string; pg_shardingEnabled : bool; pg_shardDSNs : list string }.

Definition nonempty (s : string) : bool := negb (bool_decide (s = "")).

Definition NewPGConfig (dsn sharding shard_dsns : string) : res pgConfig :=
  if bool_decide (dsn = "") then Err (ENew "PG_DSN environment variable is required")
  else
    let shardingEnabled := bool_decide (ToLower sharding = "true") in
    if shardingEnabled then
      if bool_decide (shard_dsns = "") then
        Err (ENew "PG_SHARD_DSNS is required when sharding is enabled")
      else
        let shardDSNs :=
          filter (fun s => nonempty s = true) (TrimSpace <$> Split shard_dsns ","%char) in
        if (length shardDSNs <? 2)%nat then
          Err (ENew "PG_SHARD_DSNS must contain at least 2 DSNs")
        else Ok {| pg_dsn := dsn; pg_shardingEnabled := true; pg_shardDSNs := shardDSNs |}
    else Ok {| pg_dsn := dsn; pg_shardingEnabled := false; pg_shardDSNs := [] |}.

(** ** Opening the pools: [NewSharded]

    [connect] is [pgxpool.Connect]; the pools that are open are those of [open_pools], by index. *)

Definition close_pools (l : list nat) (open_pools : gset nat) : gset nat :=
  open_pools ∖ list_to_set l.

Fixpoint connect_shards (connect : nat -> string -> res unit) (i : nat) (dsns : list string)
    (open_pools : gset nat) : res nat * gset nat :=
  match dsns with
  | [] => (Ok i, open_pools)
  | dsn :: dsns =>
      match connect i dsn with
      | Err e =>
          (Err (Errorf ("failed to connect to shard " +:+ pretty i) e),
           close_pools (seq 0 i) open_pools)
      | Ok _ => connect_shards connect (S i) dsns ({[ i ]} ∪ open_pools)
      end
  end.

(** The number of shards of the new client. *)
Definition NewSharded (connect : nat -> string -> res unit) (dsns : list string)
  : res nat * gset nat :=
  match dsns with
  | [] => (Err (ENew "at least one shard DSN is required"), ∅)
  | _ => connect_shards connect 0 dsns ∅
  end.

(** [Ping] asks one shard after the other. *)
Fixpoint Ping_from (ping : nat -> res unit) (i n : nat) : res unit :=
  match n with
  | O => Ok tt
  | S n =>
      match ping i with
      | Err e => Err (Errorf ("shard " +:+ pretty i +:+ " ping failed") e)
      | Ok _ => Ping_from ping (S i) n
      end
  end.
Definition Ping (ping : nat -> res unit) (n : nat) : res unit := Ping_from ping 0 n.

(** ** pg/merged_rows.go *)

(** A result set of pgx: the row read last, the rows not read yet, and the error [Err] reports. *)
Record result_set R := { row : option R; unread : list R; rs_err : option gerror }.
Arguments row {R}.
Arguments unread {R}.
Arguments rs_err {R}.

Definition set_Next {R} (s : result_set R) : bool * result_set R :=
  match unread s with
  | x :: l => (true, {| row := Some x; unread := l; rs_err := rs_err s |})
  | [] => (false, {| row := None; unread := []; rs_err := rs_err s |})
  end.
Definition set_Scan {R} (s : result_set R) : res R :=
  match row s with Some x => Ok x | None => Err (ENew "no row") end.

Record mergedRows R := { sets : list (result_set R); current : nat }.
Arguments sets {R}.
Arguments current {R}.

(** The loop of [Next]; [n] sets are left. *)
Fixpoint advance {R} (n : nat) (m : mergedRows R) : bool * mergedRows R :=
  match n with
  | O => (false, m)
  | S n =>
      match sets m !! current m with
      | None => (false, m)
      | Some s =>
          let '(b, s') := set_Next s in
          let m' := {| sets := <[current m := s']> (sets m); current := current m |} in
          if b then (true, m')
          else advance n {| sets := sets m'; current := S (current m) |}
      end
  end.
Definition merged_Next {R} (m : mergedRows R) : bool * mergedRows R :=
  advance (length (sets m) - current m) m.
Definition merged_Scan {R} (m : mergedRows R) : outcome (res R) :=
  match sets m !! current m with
  | Some s => Ret (set_Scan s)
  | None => Panic "index out of range"
  end.
Fixpoint first_error {R} (l : list (result_set R)) : option gerror :=
  match l with
  | [] => None
  | s :: l => match rs_err s with Some e => Some e | None => first_error l end
  end.
Definition merged_Err {R} (m : mergedRows R) : option gerror := first_error (sets m).

(** [pgx.Rows] as this code implements it: a result set of one connection, or merged ones. *)
Inductive Rows R :=
| PgRows (s : result_set R)
| MergedRows (m : mergedRows R).
Arguments PgRows {R}.
Arguments MergedRows {R}.

Definition Rows_Next {R} (r : Rows R) : bool * Rows R :=
  match r with
  | PgRows s => let '(b, s') := set_Next s in (b, PgRows s')
  | MergedRows m => let '(b, m') := merged_Next m in (b, MergedRows m')
  end.
Definition Rows_Scan {R} (r : Rows R) : outcome (res R) :=
  match r with PgRows s => Ret (set_Scan s) | MergedRows m => merged_Scan m end.
Definition Rows_Err {R} (r : Rows R) : option gerror :=
  match r with PgRows s => rs_err s | MergedRows m => merged_Err m end.

(** [for rows.Next() { rows.Scan(...) }; rows.Err()], as the repositories write it and as
    [pgxscan.ScanAll] does. *)
Fixpoint read_loop {R} (fuel : nat) (r : Rows R) (acc : list R) : outcome (res (list R)) :=
  match fuel with
  | O => Ret (Err (ENew "out of fuel"))
  | S fuel =>
      let '(more, r) := Rows_Next r in
      if more : bool then
        match Rows_Scan r with
        | Ret (Ok x) => read_loop fuel r (acc ++ [x])
        | Ret (Err e) => Ret (Err e)
        | Panic m => Panic m
        end
      else Ret match Rows_Err r with Some e => Err e | None => Ok acc end
  end.
Definition rows_left {R} (r : Rows R) : list R :=
  match r with
  | PgRows s => unread s
  | MergedRows m => concat (unread <$> drop (current m) (sets m))
  end.
Definition read_rows {R} (r : Rows R) : outcome (res (list R)) :=
  read_loop (S (length (rows_left r))) r [].

(** ** The cluster *)

Record connection := { on_shard : nat; aborted : bool; saved : database }.

Record cluster := { shard_dbs : list database; tx_conn : option connection; cluster_ticks : nat }.

Definition C (A : Type) : Type := cluster -> outcome A * cluster.

#[export] Instance C_ret : MRet C := fun A a c => (Ret a, c).
#[export] Instance C_bind : MBind C := fun A B f m c =>
  match m c with
  | (Ret a, c') => f a c'
  | (Panic e, c') => (Panic e, c')
  end.

Definition set_aborted (b : bool) (t : connection) : connection :=
  {| on_shard := on_shard t; aborted := b; saved := saved t |}.

(** The database a connection of pool [i] reaches: within a transaction it is the connection of
    the context ([ctx.Value(TxKey)]), whatever the pool. *)
Definition target (i : nat) (c : cluster) : nat :=
  match tx_conn c with Some t => on_shard t | None => i end.

Definition view (k : nat) (c : cluster) : world :=
  {| db := default empty_db (shard_dbs c !! k); tx := aborted <$> tx_conn c;
     objects := ∅; published := []; ticks := cluster_ticks c |}.
Definition store (k : nat) (w : world) (c : cluster) : cluster :=
  {| shard_dbs := <[k := db w]> (shard_dbs c);
     tx_conn := match tx_conn c, tx w with
                | Some t, Some b => Some (set_aborted b t)
                | _, _ => None
                end;
     cluster_ticks := ticks w |}.

(** A computation on the database of one pool. *)
Definition run_on {A} (i : nat) (m : M A) : C A := fun c =>
  let k := target i c in let '(o, w) := m (view k c) in (o, store k w c).

Definition statement (A : Type) : Type := nat -> database -> res (A * database).

(** [persistence.DB], the queries given by their effect: [Exec], [QueryRow] and [ScanOne] answer
    one value, [Query] rows, [ScanAll] all of them. *)
Record DB := {
  BeginTx : shard_ctx -> C (res unit);
  ExecContext : forall A, shard_ctx -> statement A -> C (res A);
  QueryContext : forall R, shard_ctx -> statement (list R) -> C (res (Rows R));
  QueryRowContext : forall A, shard_ctx -> statement A -> C (res A);
  ScanOneContext : forall A, shard_ctx -> statement A -> C (res A);
  ScanAllContext : forall R, shard_ctx -> statement (list R) -> C (res (list R)) }.

(** What pgx leaves open: whether the error of a query is reported by the query or by the rows,
    and in which order the goroutines of a fan-out reach their connections. *)
Class PgLib := {
  deferred_at : nat -> bool;
  arrival_at : nat -> nat -> list nat;
  arrival_perm t n : arrival_at t n ≡ₚ seq 0 n }.

Definition ErrConnBusy : gerror := ENew "conn busy".

Section Sharding.
Context `{Env, PgLib}.

(** ** pg/pgdb.go *)

Definition pg_BeginTx (i : nat) (_ : shard_ctx) : C (res unit) := fun c =>
  let c' t := {| shard_dbs := shard_dbs c; tx_conn := t; cluster_ticks := S (cluster_ticks c) |} in
  match verdict_at (cluster_ticks c) with
  | FailsBefore e | FailsAfter e => (Ret (Err e), c' (tx_conn c))
  | Succeeds =>
      (Ret (Ok tt), c' (Some {| on_shard := i; aborted := false;
                                saved := default empty_db (shard_dbs c !! i) |}))
  end.

Definition pg_Exec (i : nat) {A} (_ : shard_ctx) (f : statement A) : C (res A) :=
  run_on i (stmt f).

Definition result_of {R} (t : nat) (r : res (list R)) : res (Rows R) :=
  match r with
  | Ok l => Ok (PgRows {| row := None; unread := l; rs_err := None |})
  | Err e =>
      if deferred_at t then Ok (PgRows {| row := None; unread := []; rs_err := Some e |})
      else Err e
  end.
Definition pg_Query (i : nat) {R} (_ : shard_ctx) (f : statement (list R)) : C (res (Rows R)) :=
  fun c => (run_on i (stmt f) ≫= fun r => mret (result_of (cluster_ticks c) r)) c.

(** [QueryContext], and [pgxscan.ScanAll] of the rows. *)
Definition scan_rows {R} (q : C (res (Rows R))) : C (res (list R)) :=
  q ≫= fun r =>
    match r return C (res (list R)) with
    | Err e => mret (Err e)
    | Ok rows => fun c => (read_rows rows, c)
    end.
Definition pg_ScanAll (i : nat) {R} (ctx : shard_ctx) (f : statement (list R))
  : C (res (list R)) := scan_rows (pg_Query i ctx f).

Definition pgDb (i : nat) : DB := {|
  BeginTx := pg_BeginTx i;
  ExecContext := @pg_Exec i;
  QueryContext := @pg_Query i;
  QueryRowContext := @pg_Exec i;
  ScanOneContext := @pg_Exec i;
  ScanAllContext := @pg_ScanAll i |}.

(** ** pg/sharded_client.go *)

Definition resolve (n : nat) (ctx : shard_ctx) : nat :=
  match ShardKeyFromContext ctx with
  | None => 0%nat
  | Some key => ShardIndex key n
  end.

(** The goroutines of a fan-out, in the order in which they reach their connections.  [open] says
    that a query of the fan-out has rows that nobody has read: within a transaction all of them use
    its one connection, which pgx refuses while it is busy. *)
Fixpoint fan_out {R} (ctx : shard_ctx) (f : statement (list R)) (order : list nat) (open : bool)
    (results : list (res (Rows R))) : C (list (res (Rows R))) :=
  match order with
  | [] => mret results
  | idx :: order => fun c =>
      (r ← (match tx_conn c with
            | Some _ => if open then mret (Err ErrConnBusy) else pg_Query idx ctx f
            | None => pg_Query idx ctx f
            end);
       fan_out ctx f order (open || is_ok r) (<[idx := r]> results)) c
  end.

(** [make([]result, len(s.shards))]: every entry is written before it is read. *)
Definition zero_result {R} : res (Rows R) :=
  Ok (PgRows {| row := None; unread := []; rs_err := None |}).

Definition the_set {R} (r : Rows R) : list (result_set R) :=
  match r with PgRows s => [s] | MergedRows m => sets m end.

Definition fanoutQuery (n : nat) {R} (ctx : shard_ctx) (f : statement (list R))
  : C (res (Rows R)) := fun c =>
  (results ← fan_out ctx f (arrival_at (cluster_ticks c) n) false (replicate n zero_result);
   mret (allRows ← map_res id results;
         Ok (MergedRows {| sets := allRows ≫= the_set; current := 0 |}))) c.

Definition fanoutScanAll (n : nat) {R} (ctx : shard_ctx) (f : statement (list R))
  : C (res (list R)) := scan_rows (fanoutQuery n ctx f).

Definition one_shard (n : nat) (ctx : shard_ctx) : bool :=
  match ShardKeyFromContext ctx with Some _ => true | None => (n =? 1)%nat end.

Definition shardedDB (n : nat) : DB := {|
  BeginTx ctx := pg_BeginTx (resolve n ctx) ctx;
  ExecContext A ctx f := pg_Exec (resolve n ctx) ctx f;
  QueryContext R ctx f :=
    if one_shard n ctx then pg_Query (resolve n ctx) ctx f else fanoutQuery n ctx f;
  QueryRowContext A ctx f := pg_Exec (resolve n ctx) ctx f;
  ScanOneContext A ctx f := pg_Exec (resolve n ctx) ctx f;
  ScanAllContext R ctx f :=
    if one_shard n ctx then pg_ScanAll (resolve n ctx) ctx f else fanoutScanAll n ctx f |}.

(** ** transaction/transaction.go over a [DB], and transaction/sharded_transaction.go *)

Definition end_tx (k : nat) (d : database) (c : cluster) : cluster :=
  {| shard_dbs := <[k := d]> (shard_dbs c); tx_conn := None;
     cluster_ticks := S (cluster_ticks c) |}.

Definition tx_Rollback {A} (t : connection) (e : gerror) : C (res A) := fun c =>
  let c' := end_tx (on_shard t) (saved t) c in
  match verdict_at (cluster_ticks c) with
  | Succeeds => (Ret (Err e), c')
  | FailsBefore er | FailsAfter er => (Ret (Err (rollback_error e er)), c')
  end.

Definition tx_Commit {A} (t : connection) (a : A) : C (res A) := fun c =>
  let k := on_shard t in
  let fail e := (Ret (Err (Errorf "tx commit failed" e)), end_tx k (saved t) c) in
  let kept := end_tx k (default empty_db (shard_dbs c !! k)) c in
  match tx_conn c with
  | Some {| aborted := true |} => fail ErrTxCommitRollback
  | _ =>
      match verdict_at (cluster_ticks c) with
      | Succeeds => (Ret (Ok a), kept)
      | FailsBefore e => fail e
      | FailsAfter e => (Ret (Err (Errorf "tx commit failed" e)), kept)
      end
  end.

Definition manager_ReadCommitted {A} (D : DB) (ctx : shard_ctx) (fn : C (res A)) : C (res A) :=
  fun c =>
  match tx_conn c with
  | Some _ => fn c
  | None =>
      match BeginTx D ctx c with
      | (Panic m, c1) => (Panic m, c1)
      | (Ret (Err e), c1) => (Ret (Err (Errorf "cant begin transaction" e)), c1)
      | (Ret (Ok _), c1) =>
          match tx_conn c1 with
          | None => (Panic "no transaction", c1)
          | Some t =>
              match fn c1 with
              | (Panic m, c2) => tx_Rollback t (ENew ("panic recovered: " +:+ m)) c2
              | (Ret (Err e), c2) =>
                  tx_Rollback t (Errorf "failed executing code inside transaction" e) c2
              | (Ret (Ok a), c2) => tx_Commit t a c2
              end
          end
      end
  end.

(** [shardedManager.ReadCommitted], its managers those of the pools. *)
Definition shardedManager_ReadCommitted {A} (n : nat) (ctx : shard_ctx) (fn : C (res A))
  : C (res A) :=
  match ShardKeyFromContext ctx with
  | None => manager_ReadCommitted (pgDb 0) ctx fn
  | Some key =>
      let idx := ShardIndex key n in
      if (n <=? idx)%nat then mret (Err (ENew "shard index out of range"))
      else manager_ReadCommitted (pgDb idx) ctx fn
  end.

(** ** Programs of the repositories *)

Inductive prog : Type -> Type :=
| PRet {A} (a : A) : prog A
| PPanic {A} (m : string) : prog A
| PBind {A B} (p : prog A) (k : A -> prog B) : prog B
| PExec {A} (f : statement A) : prog (res A)
| PQueryRow {A} (f : statement A) : prog (res A)
| PScanOne {A} (f : statement A) : prog (res A)
| PQuery {R} (f : statement (list R)) : prog (res (list R))
| PScanAll {R} (f : statement (list R)) : prog (res (list R))
| PTx {A} (p : prog (res A)) : prog (res A).

Fixpoint run_db {A} (D : DB) (ctx : shard_ctx) (p : prog A) : C A :=
  match p with
  | PRet a => mret a
  | PPanic m => fun c => (Panic m, c)
  | PBind p k => run_db D ctx p ≫= fun x => run_db D ctx (k x)
  | PExec f => ExecContext D _ ctx f
  | PQueryRow f => QueryRowContext D _ ctx f
  | PScanOne f => ScanOneContext D _ ctx f
  | PQuery f => scan_rows (QueryContext D _ ctx f)
  | PScanAll f => ScanAllContext D _ ctx f
  | PTx p => manager_ReadCommitted D ctx (run_db D ctx p)
  end.

Fixpoint run_plain {A} (p : prog A) : M A :=
  match p with
  | PRet a => mret a
  | PPanic m => panic m
  | PBind p k => x ← run_plain p; run_plain (k x)
  | PExec f | PQueryRow f | PScanOne f => stmt f
  | PQuery f | PScanAll f => stmt f
  | PTx p => ReadCommitted (run_plain p)
  end.

(** [crawlTaskRepository.BulkCreate] as the calls it makes: [QueryContext] and the loop on its
    rows. *)
Definition insert_rows (entities : list CrawlTask) : statement (list string) :=
  fun _ d => insert_tasks (SaveCrawlTaskToSnapshot <$> entities) d.
Definition bulk_create (entities : list CrawlTask) : prog (res (list CrawlTaskID)) :=
  match entities with
  | [] => PRet (Ok [])
  | _ => PBind (PQuery (insert_rows entities)) (fun r => PRet (ids ← r; map_res NewID ids))
  end.

(** ** A program on one pool *)

Definition same_frame (w w' : world) : Prop :=
  objects w' = objects w /\ published w' = published w /\ (tx w' = None <-> tx w = None).

Lemma same_frame_trans w1 w2 w3 : same_frame w1 w2 -> same_frame w2 w3 -> same_frame w1 w3.
Proof. unfold same_frame. intuition congruence. Qed.

Lemma stmt_frame {A} (f : statement A) w : same_frame w (stmt f w).2.
Proof.
  unfold same_frame, stmt. simpl.
  destruct (tx w) as [[]|] eqn:E; [|destruct (verdict_at (ticks w))..]; simpl;
    try destruct (f (ticks w) (db w)) as [[??]|]; simpl; rewrite ?E; naive_solver.
Qed.

Lemma plain_frame {A} (p : prog A) : forall w, same_frame w (run_plain p w).2.
Proof.
  induction p as [A a|A m|A B p IHp k IHk|A f|A f|A f|R f|R f|A p IHp]; intros w; simpl;
    try apply stmt_frame; try (by split; [done|]).
  - unfold mbind, M_bind. specialize (IHp w). destruct (run_plain p w) as [[a|m] w1]; simpl in *;
      [|done]. by eapply same_frame_trans, IHk.
  - unfold ReadCommitted. destruct (tx w) as [b|] eqn:Et; [apply IHp|].
    destruct (verdict_at (ticks w)); [|unfold same_frame; simpl; naive_solver..].
    specialize (IHp (set_tx (Some false) (tick w))).
    destruct (run_plain p _) as [[[a|e]|m] w1]; destruct IHp as (Ho & Hp & Ht); simpl in *;
      unfold Commit, Rollback, same_frame; rewrite <-Ho, <-Hp, Et;
      destruct (tx w1) as [[]|]; try destruct (verdict_at (ticks w1)); naive_solver.
Qed.

Lemma view_store k w c :
  (k < length (shard_dbs c))%nat -> same_frame (view k c) w -> view k (store k w c) = w.
Proof.
  intros Hk (Ho & Hp & Ht). unfold view, store in *. simpl in *.
  rewrite list_lookup_insert_eq by done. destruct w as [d t o m n]; simpl in *. subst o m.
  f_equal. destruct (tx_conn c), t; simpl in *; try done; naive_solver.
Qed.

Lemma store_store k w w' c :
  same_frame (view k c) w -> store k w' (store k w c) = store k w' c.
Proof.
  intros (_ & _ & Ht). unfold store, view in *. simpl in *. f_equal.
  - apply list_insert_insert_eq.
  - destruct (tx_conn c), (tx w), (tx w'); simpl in *; try done; naive_solver.
Qed.

Lemma store_length k w c : length (shard_dbs (store k w c)) = length (shard_dbs c).
Proof. apply length_insert. Qed.

Lemma store_target i k w c :
  same_frame (view k c) w -> target i (store k w c) = target i c.
Proof.
  intros (_ & _ & Ht). unfold target, store, view in *. simpl in *.
  destruct (tx_conn c), (tx w); simpl in *; try done; naive_solver.
Qed.

Lemma run_on_bind {A B} i (m : M A) (f : A -> M B) c :
  (target i c < length (shard_dbs c))%nat ->
  same_frame (view (target i c) c) (m (view (target i c) c)).2 ->
  (run_on i m ≫= fun a => run_on i (f a)) c = run_on i (m ≫= f) c.
Proof.
  intros Hk. unfold run_on, mbind, C_bind, M_bind. simpl.
  destruct (m (view (target i c) c)) as [[a|e] w1]; simpl; intros Hf; [|done].
  rewrite store_target, view_store by done.
  destruct (f a w1) as [o w2]. by rewrite store_store.
Qed.

Lemma read_loop_set {R} (s : result_set R) : forall fuel acc,
  (length (unread s) < fuel)%nat ->
  read_loop fuel (PgRows s) acc
  = Ret match rs_err s with Some e => Err e | None => Ok (acc ++ unread s) end.
Proof.
  destruct s as [x0 l e]. revert x0. induction l as [|x l IH]; intros x0 fuel acc Hf;
    (destruct fuel as [|fuel]; [simpl in Hf; lia|]); simpl.
  - by rewrite app_nil_r.
  - simpl in *. rewrite IH by lia. by rewrite <-app_assoc.
Qed.

Lemma read_rows_set {R} (s : result_set R) :
  read_rows (PgRows s) = Ret match rs_err s with Some e => Err e | None => Ok (unread s) end.
Proof. unfold read_rows. rewrite read_loop_set by (simpl; lia). done. Qed.

(** Reading the rows of a query on a pool gives the answer of the statement, whenever the error
    of a query is reported. *)
Lemma scan_pg_Query {R} i ctx (f : statement (list R)) c :
  scan_rows (pg_Query i ctx f) c = run_on i (stmt f) c.
Proof.
  unfold scan_rows, pg_Query, run_on, mbind, C_bind. simpl.
  destruct (stmt_any f (view (target i c) c)) as (r & w & -> & _). simpl.
  unfold result_of. destruct r as [l|e]; simpl; [by rewrite read_rows_set|].
  destruct (deferred_at _); simpl; [by rewrite read_rows_set|done].
Qed.

Lemma the_db c i :
  (i < length (shard_dbs c))%nat -> shard_dbs c !! i = Some (default empty_db (shard_dbs c !! i)).
Proof. intros [d Hd]%lookup_lt_is_Some_2. by rewrite Hd. Qed.

Lemma run_tx {A} i (D : DB) ctx (p : prog (res A)) (fn : C (res A)) c :
  (forall c', (target i c' < length (shard_dbs c'))%nat -> fn c' = run_on i (run_plain p) c') ->
  BeginTx D ctx c = pg_BeginTx i ctx c ->
  (target i c < length (shard_dbs c))%nat ->
  manager_ReadCommitted D ctx fn c = run_on i (ReadCommitted (run_plain p)) c.
Proof.
  intros Hfn HB Hk. unfold manager_ReadCommitted.
  destruct (tx_conn c) as [t|] eqn:Et.
  { rewrite (Hfn c) by done. unfold run_on, ReadCommitted. simpl. by rewrite Et. }
  assert (Hi : target i c = i) by (unfold target; by rewrite Et).
  rewrite HB. unfold pg_BeginTx, run_on, ReadCommitted. rewrite Hi in Hk |- *. simpl. rewrite Et.
  destruct (verdict_at (cluster_ticks c));
    [|by (unfold store; simpl; rewrite Et, list_insert_id by (by apply the_db))..].
  set (c1 := {| shard_dbs := _; tx_conn := Some _; cluster_ticks := _ |}).
  rewrite (Hfn c1) by done. simpl.
  change (set_tx (Some false) (tick (view i c))) with (view i c1).
  pose proof (plain_frame p (view i c1)) as (_ & _ & Ht).
  unfold run_on. change (target i c1) with i.
  destruct (run_plain p (view i c1)) as [o w1]. simpl in Ht.
  destruct (tx w1) as [b|] eqn:Ew; [|naive_solver].
  destruct o as [[a|e]|m]; simpl;
    unfold tx_Commit, tx_Rollback, Commit, Rollback, end_tx, store; simpl; rewrite ?Ew; simpl;
    rewrite ?list_lookup_insert_eq, ?list_insert_insert_eq by done;
    destruct b; simpl; try destruct (verdict_at (ticks w1)); simpl; by rewrite ?Et.
Qed.

Lemma run_pg {A} (i : nat) ctx (p : prog A) : forall c,
  (target i c < length (shard_dbs c))%nat ->
  run_db (pgDb i) ctx p c = run_on i (run_plain p) c.
Proof.
  induction p as [A a|A m|A B p IHp k IHk|A f|A f|A f|R f|R f|A p IHp]; intros c Hc; simpl;
    try done; try apply scan_pg_Query.
  - unfold run_on. simpl. f_equal. unfold store. simpl.
    rewrite list_insert_id by by apply the_db. destruct c as [d [[? ? ?]|] n]; done.
  - unfold run_on. simpl. f_equal. unfold store. simpl.
    rewrite list_insert_id by by apply the_db. destruct c as [d [[? ? ?]|] n]; done.
  - rewrite <-run_on_bind by (try done; apply plain_frame).
    unfold mbind, C_bind. rewrite IHp by done.
    pose proof (plain_frame p (view (target i c) c)) as Hf.
    unfold run_on in *. destruct (run_plain p _) as [[a|m] w1]; [|done].
    rewrite IHk; [done|]. by rewrite store_target, store_length.
  - by eapply run_tx.
Qed.

(** A call chain that one shard serves: its context has a key, or there is one shard. *)
Lemma run_sharded {A} n ctx (p : prog A) : one_shard n ctx = true -> forall c,
  run_db (shardedDB n) ctx p c = run_db (pgDb (resolve n ctx)) ctx p c.
Proof.
  intros Hone. induction p as [A a|A m|A B p IHp k IHk|A f|A f|A f|R f|R f|A p IHp]; intros c;
    simpl; rewrite ?Hone; try done.
  - unfold mbind, C_bind. rewrite IHp. by destruct (run_db _ ctx p c) as [[a|m] c1].
  - unfold manager_ReadCommitted. simpl.
    destruct (tx_conn c); [apply IHp|].
    destruct (pg_BeginTx _ ctx c) as [[[?|?]|?] c1]; try done.
    destruct (tx_conn c1); [|done]. by rewrite IHp.
Qed.

Lemma ShardIndex_lt key n : (0 < n)%nat -> Z.of_nat n < 2 ^ 32 -> (ShardIndex key n < n)%nat.
Proof.
  intros Hn Hb. unfold ShardIndex. destruct (n <=? 1)%nat eqn:E; [lia|].
  apply Nat.leb_gt in E. unfold wrapu. rewrite (Z.mod_small (Z.of_nat n)) by lia.
  pose proof (Z.mod_pos_bound (fnv32a key) (Z.of_nat n) ltac:(lia)). lia.
Qed.

Lemma resolve_lt n ctx : (0 < n)%nat -> Z.of_nat n < 2 ^ 32 -> (resolve n ctx < n)%nat.
Proof.
  intros Hn Hb. unfold resolve. destruct (ShardKeyFromContext ctx); [by apply ShardIndex_lt|done].
Qed.

(** C27: With a shard key in the context, or with one shard, every program of repository calls and
    transactions on the sharded client gives exactly what it gives on a single database, the shard
    of the key, and leaves every other shard as it was.  (Fewer than 2^32 shards; not inside a
    transaction that was begun on another shard.) *)
Theorem keyed_refines {A} n ctx (p : prog A) c :
  one_shard n ctx = true -> (0 < n)%nat -> Z.of_nat n < 2 ^ 32 ->
  length (shard_dbs c) = n -> target (resolve n ctx) c = resolve n ctx ->
  let i := resolve n ctx in
  let '(o, c') := run_db (shardedDB n) ctx p c in
  let '(o1, w) := run_plain p (view i c) in
  o = o1 /\ view i c' = w /\ (forall j, j <> i -> shard_dbs c' !! j = shard_dbs c !! j).
Proof.
  intros Hone Hn Hb Hl Ht. simpl. rewrite run_sharded by done.
  pose proof (resolve_lt n ctx Hn Hb) as Hi.
  rewrite run_pg by (rewrite Ht; lia). unfold run_on. rewrite Ht.
  pose proof (plain_frame p (view (resolve n ctx) c)) as Hf.
  destruct (run_plain p _) as [o w]. split; [done|]. split; [apply view_store; [lia|done]|].
  intros j Hj. by apply list_lookup_insert_ne.
Qed.

(** ** Merged rows *)

Lemma first_error_ext {R} (l l' : list (result_set R)) :
  rs_err <$> l = rs_err <$> l' -> first_error l = first_error l'.
Proof.
  revert l'. induction l as [|s l IH]; intros [|s' l'] E; simpl in *; try done.
  injection E as E1 E2. by rewrite E1, (IH l').
Qed.

Lemma rs_err_insert {R} (l : list (result_set R)) i s s' :
  l !! i = Some s -> rs_err s' = rs_err s -> rs_err <$> <[i := s']> l = rs_err <$> l.
Proof. intros Hi E. rewrite list_fmap_insert, E. apply list_insert_id. by rewrite list_lookup_fmap, Hi. Qed.

Lemma set_Next_err {R} (s : result_set R) : rs_err (set_Next s).2 = rs_err s.
Proof. by destruct s as [? [|] ?]. Qed.

Lemma drop_insert_same {A} i (x : A) l : (i < length l)%nat -> drop i (<[i := x]> l) = x :: drop (S i) l.
Proof.
  intros Hi. rewrite (drop_S _ x) by by apply list_lookup_insert_eq.
  by rewrite drop_insert_lt by lia.
Qed.

Lemma advance_spec {R} n : forall m : mergedRows R,
  (n + current m = length (sets m))%nat ->
  let '(more, m') := advance n m in
  rs_err <$> sets m' = rs_err <$> sets m /\
  match rows_left (MergedRows m) with
  | [] => more = false
  | x :: l => more = true /\ merged_Scan m' = Ret (Ok x) /\ rows_left (MergedRows m') = l
              /\ (current m' <= length (sets m'))%nat
  end.
Proof.
  induction n as [|n IH]; intros m Hn; simpl.
  { rewrite drop_ge by lia. done. }
  destruct (sets m !! current m) as [s|] eqn:Es; [|apply lookup_ge_None in Es; lia].
  assert (Hlt : (current m < length (sets m))%nat) by by eapply lookup_lt_Some.
  rewrite (drop_S _ _ _ Es), fmap_cons. cbn [concat].
  destruct s as [x0 l e]; unfold set_Next; simpl. destruct l as [|x l]; simpl.
  - set (m1 := {| sets := _; current := S (current m) |}). specialize (IH m1).
    destruct (advance n m1) as [more m'].
    assert (E : rows_left (MergedRows m1) = concat (unread <$> drop (S (current m)) (sets m)))
      by (simpl; by rewrite drop_insert_lt by lia).
    rewrite <-E. destruct IH as [Hr Hm]; [simpl; rewrite length_insert; lia|].
    split; [|exact Hm]. rewrite Hr. simpl. by eapply rs_err_insert.
  - split; [by eapply rs_err_insert|]. split; [done|]. unfold merged_Scan. simpl.
    rewrite list_lookup_insert_eq by done. split; [done|].
    rewrite drop_insert_same by done. split; [done|]. rewrite length_insert. lia.
Qed.

Lemma read_loop_merged {R} fuel : forall (m : mergedRows R) acc,
  (current m <= length (sets m))%nat -> (length (rows_left (MergedRows m)) < fuel)%nat ->
  read_loop fuel (MergedRows m) acc
  = Ret match merged_Err m with Some e => Err e | None => Ok (acc ++ rows_left (MergedRows m)) end.
Proof.
  induction fuel as [|fuel IH]; intros m acc Hc Hf; [lia|]. cbn [read_loop Rows_Next].
  pose proof (advance_spec (length (sets m) - current m) m ltac:(lia)) as Ha.
  unfold merged_Next. destruct (advance _ m) as [more m'] eqn:Ea. destruct Ha as [Hr Ha].
  assert (He : merged_Err m' = merged_Err m) by by apply first_error_ext.
  destruct (rows_left (MergedRows m)) as [|x l]; cbn [length] in Hf.
  - subst more. simpl. rewrite He. by rewrite app_nil_r.
  - destruct Ha as (-> & Hs & Hl & Hm). cbn [Rows_Scan]. rewrite Hs, IH, He, Hl; [|done|].
    + by rewrite <-app_assoc.
    + rewrite Hl. lia.
Qed.

(** Reading merged rows gives the rows of all sets, in their order, or the first of their
    errors. *)
Lemma read_rows_merged {R} (l : list (result_set R)) :
  read_rows (MergedRows {| sets := l; current := 0 |})
  = Ret match first_error l with Some e => Err e | None => Ok (concat (unread <$> l)) end.
Proof. unfold read_rows. rewrite read_loop_merged; [done|simpl; lia|lia]. Qed.

(** ** A query sent to every shard *)

Lemma cbind_ret {A B} (m : C A) (f : A -> C B) c a c' :
  m c = (Ret a, c') -> (m ≫= f) c = f a c'.
Proof. intros E. unfold mbind, C_bind. by rewrite E. Qed.

Definition reading {R} (g : database -> list R) : statement (list R) := fun _ d => Ok (g d, d).

Definition set_ok {R} (l : list R) : result_set R := {| row := None; unread := l; rs_err := None |}.
Definition set_failed {R} (e : gerror) : result_set R :=
  {| row := None; unread := []; rs_err := Some e |}.

(** What one shard answers: its rows, or an error now or when they are read. *)
Definition answers {R} (calm : Prop) (l : list R) (r : res (Rows R)) : Prop :=
  r = Ok (PgRows (set_ok l))
  \/ (~ calm /\ exists e, r = Err e \/ r = Ok (PgRows (set_failed e))).

Definition calm_run : Prop := forall t, verdict_at t = Succeeds.

Lemma pg_Query_reads {R} i ctx (g : database -> list R) c :
  tx_conn c = None -> (i < length (shard_dbs c))%nat ->
  exists r c', pg_Query i ctx (reading g) c = (Ret r, c') /\ tx_conn c' = None
    /\ shard_dbs c' = shard_dbs c
    /\ answers calm_run (g (default empty_db (shard_dbs c !! i))) r.
Proof.
  intros Ht Hi. unfold pg_Query, run_on, mbind, C_bind, target. rewrite Ht. simpl.
  unfold stmt, reading. simpl. rewrite Ht. simpl.
  destruct (verdict_at (cluster_ticks c)) as [|e|e] eqn:Ev; simpl;
    (eexists _, _; split; [done|]; split; [simpl; by rewrite Ht|];
     split; [simpl; by rewrite list_insert_id by by apply the_db|]).
  - by left.
  - right. split; [intros Hc; specialize (Hc (cluster_ticks c)); congruence|]. exists e.
    unfold result_of. destruct (deferred_at _); auto.
  - right. split; [intros Hc; specialize (Hc (cluster_ticks c)); congruence|]. exists e.
    unfold result_of. destruct (deferred_at _); auto.
Qed.

Lemma fan_out_reads {R} ctx (g : database -> list R) order : forall open results c,
  tx_conn c = None -> NoDup order ->
  (forall i, i ∈ order -> (i < length (shard_dbs c))%nat /\ (i < length results)%nat) ->
  exists results' c', fan_out ctx (reading g) order open results c = (Ret results', c')
    /\ tx_conn c' = None /\ shard_dbs c' = shard_dbs c /\ length results' = length results
    /\ forall i, if bool_decide (i ∈ order)
         then exists r, results' !! i = Some r
                        /\ answers calm_run (g (default empty_db (shard_dbs c !! i))) r
         else results' !! i = results !! i.
Proof.
  induction order as [|idx order IH]; intros open results c Ht Hnd Hin; simpl.
  { eexists _, _. repeat (split; [done|]). intros i. done. }
  apply NoDup_cons in Hnd as [Hnew Hnd].
  destruct (Hin idx ltac:(left)) as [Hi Hr].
  rewrite Ht. destruct (pg_Query_reads idx ctx g c Ht Hi) as (r & c1 & E & Ht1 & Hd1 & Hans).
  unfold mbind, C_bind. rewrite E.
  destruct (IH (open || is_ok r) (<[idx := r]> results) c1 Ht1 Hnd) as (res' & c2 & E2 & Ht2 & Hd2 & Hl & Hres).
  { intros i Hio. rewrite Hd1, length_insert. apply Hin. by right. }
  rewrite E2. eexists _, _. split; [done|]. split; [done|]. split; [congruence|].
  rewrite length_insert in Hl. split; [done|]. intros i. specialize (Hres i).
  rewrite Hd1 in Hres. case_bool_decide as Hio.
  - by rewrite bool_decide_true by by right.
  - destruct (decide (i = idx)) as [->|Hne].
    + rewrite bool_decide_true by left. rewrite Hres, list_lookup_insert_eq by done. eauto.
    + rewrite bool_decide_false by (rewrite elem_of_cons; naive_solver).
      rewrite Hres. by apply list_lookup_insert_ne.
Qed.

Lemma collect_reads {R} (g : database -> list R) : forall dbs results,
  Forall2 (fun d r => answers calm_run (g d) r) dbs results ->
  (exists rows, map_res id results = Ok rows
     /\ (first_error (rows ≫= the_set) = None /\ concat (unread <$> (rows ≫= the_set)) = concat (g <$> dbs)
         \/ ~ calm_run /\ is_Some (first_error (rows ≫= the_set))))
  \/ ~ calm_run /\ exists e, map_res id results = Err e.
Proof.
  induction 1 as [|d r dbs results [->|(Hc & e & [->| ->])] _ IH]; simpl.
  - left. exists []. split; [done|]. by left.
  - destruct IH as [(rows & -> & Hr)|(Hn & e & ->)]; [|right; eauto].
    left. eexists. split; [done|]. rewrite bind_cons.
    destruct Hr as [[Hf Hu]|[Hn Hf]]; [left|by right].
    split; [exact Hf|]. exact (f_equal (app (g d)) Hu).
  - right. eauto.
  - destruct IH as [(rows & -> & Hr)|(Hn & e' & ->)]; [|right; eauto].
    left. eexists. split; [done|]. simpl. right. eauto.
Qed.

(** Outside a transaction and without a shard key, a query that reads is sent to every shard:
    whatever the order in which the shards are reached, it answers the rows of all shards, one
    shard after the other, or an error, and no shard changes.  Without faults it answers the
    rows. *)
Theorem fanout_concatenates {R} n ctx (g : database -> list R) c :
  ShardKeyFromContext ctx = None -> tx_conn c = None -> length (shard_dbs c) = n ->
  exists r c', ScanAllContext (shardedDB n) R ctx (reading g) c = (Ret r, c')
    /\ shard_dbs c' = shard_dbs c /\ tx_conn c' = None
    /\ (r = Ok (concat (g <$> shard_dbs c)) \/ is_ok r = false /\ ~ calm_run).
Proof.
  intros Hk Ht Hl. simpl. unfold one_shard, resolve. rewrite Hk.
  destruct (n =? 1)%nat eqn:En.
  - apply Nat.eqb_eq in En. destruct (shard_dbs c) as [|d [|]] eqn:Ed; simpl in Hl; try lia.
    unfold pg_ScanAll. rewrite scan_pg_Query.
    unfold run_on, target, stmt, reading. simpl. rewrite Ht, Ed. simpl.
    destruct (verdict_at (cluster_ticks c)) as [|e|e] eqn:Ev; simpl;
      (eexists _, _; split; [done|]; split; [simpl; by rewrite Ed|]; split; [simpl; by rewrite Ht|]).
    + left. by rewrite app_nil_r.
    + right. split; [done|]. intros Hc. specialize (Hc (cluster_ticks c)). congruence.
    + right. split; [done|]. intros Hc. specialize (Hc (cluster_ticks c)). congruence.
  - unfold fanoutScanAll, scan_rows.
    pose proof (arrival_perm (cluster_ticks c) n) as Hp.
    destruct (fan_out_reads ctx g (arrival_at (cluster_ticks c) n) false (replicate n zero_result) c Ht)
      as (results & c' & E & Ht' & Hd & Hlen & Hres).
    { rewrite Hp. apply NoDup_seq. }
    { intros i Hi. rewrite Hp, elem_of_seq in Hi. rewrite length_replicate. lia. }
    rewrite length_replicate in Hlen.
    assert (HF : Forall2 (fun d r => answers calm_run (g d) r) (shard_dbs c) results).
    { apply Forall2_same_length_lookup. split; [congruence|]. intros i d r Hid Hir.
      specialize (Hres i). apply lookup_lt_Some in Hid as Hlt.
      rewrite bool_decide_true in Hres by (rewrite Hp, elem_of_seq; lia).
      destruct Hres as (r' & Hr' & Ha). rewrite Hid in Ha. simpl in Ha. congruence. }
    assert (Eq : fanoutQuery n ctx (reading g) c = (Ret (allRows ← map_res id results;
              Ok (MergedRows {| sets := allRows ≫= the_set; current := 0 |})), c'))
      by (unfold fanoutQuery; by rewrite (cbind_ret _ _ _ _ _ E)).
    rewrite (cbind_ret _ _ _ _ _ Eq).
    destruct (collect_reads g _ _ HF) as [(rows & -> & Hr)|(Hn & e & ->)].
    + eexists _, _. split; [exact (f_equal (fun o => (o, c')) (read_rows_merged _))|]. split; [done|]. split; [done|].
      destruct Hr as [[-> ->]|[Hn [e ->]]]; [by left|by right].
    + eexists _, _. split; [done|]. split; [done|]. split; [done|]. by right.
Qed.

(** ** Inside a transaction *)

(** Steps of a transaction: they stay in it and touch only the shard of its connection. *)
Definition within (c c' : cluster) : Prop :=
  forall t, tx_conn c = Some t ->
    (exists b, tx_conn c' = Some (set_aborted b t))
    /\ (forall j, j <> on_shard t -> shard_dbs c' !! j = shard_dbs c !! j)
    /\ length (shard_dbs c') = length (shard_dbs c).

#[local] Instance within_preorder : PreOrder within.
Proof.
  split.
  - intros c t Ht. split; [exists (aborted t); by rewrite Ht; destruct t|done].
  - intros c1 c2 c3 H12 H23 t Ht. destruct (H12 t Ht) as ([b Hb] & Hd & Hl).
    destruct (H23 _ Hb) as ([b' Hb'] & Hd' & Hl'). split; [by exists b'|]. split; [|congruence].
    intros j Hj. by rewrite Hd', Hd.
Qed.

Definition stays {A} (m : C A) : Prop := forall c, within c (m c).2.

Lemma stays_run_on {A} i (m : M A) : (forall w, same_frame w (m w).2) -> stays (run_on i m).
Proof.
  intros Hm c t Ht. unfold run_on. specialize (Hm (view (target i c) c)).
  destruct (m _) as [o w]. destruct Hm as (_ & _ & Hx). unfold view, target in *. simpl in *.
  rewrite Ht in *. simpl in *. split.
  - destruct (tx w) as [b|]; [by exists b|]. naive_solver.
  - split; [|apply length_insert]. intros j Hj. by apply list_lookup_insert_ne.
Qed.

Lemma stays_bind {A B} (m : C A) (f : A -> C B) :
  stays m -> (forall a, stays (f a)) -> stays (m ≫= f).
Proof.
  intros Hm Hf c. unfold mbind, C_bind. specialize (Hm c). destruct (m c) as [[a|e] c1]; [|done].
  etrans; [exact Hm|apply Hf].
Qed.

Lemma stays_ret {A} (a : A) : stays (mret a).
Proof. intros c. simpl. reflexivity. Qed.

Lemma stays_here {A} (o : outcome A) : stays (fun c => (o, c)).
Proof. intros c. simpl. reflexivity. Qed.

Lemma stays_Query {R} i ctx (f : statement (list R)) : stays (pg_Query i ctx f).
Proof.
  intros c. unfold pg_Query. apply stays_bind; [apply stays_run_on, stmt_frame|].
  intros a. apply stays_ret.
Qed.

Lemma stays_scan {R} (q : C (res (Rows R))) : stays q -> stays (scan_rows q).
Proof. intros Hq. apply stays_bind; [done|]. intros [r|e]; [apply stays_here|apply stays_ret]. Qed.

Lemma stays_fan_out {R} ctx (f : statement (list R)) order : forall open results,
  stays (fan_out ctx f order open results).
Proof.
  induction order as [|i order IH]; intros open results; [apply stays_ret|].
  intros c. simpl. apply stays_bind; [|intros r; apply IH].
  destruct (tx_conn c), open; first [apply stays_Query|apply stays_ret].
Qed.

Lemma stays_fanoutQuery {R} n ctx (f : statement (list R)) : stays (fanoutQuery n ctx f).
Proof.
  intros c. unfold fanoutQuery. apply stays_bind; [apply stays_fan_out|]. intros a. apply stays_ret.
Qed.

Lemma stays_prog {A} n ctx (p : prog A) : stays (run_db (shardedDB n) ctx p).
Proof.
  induction p as [A a|A m|A B p IHp k IHk|A f|A f|A f|R f|R f|A p IHp]; simpl;
    try (by apply stays_run_on, stmt_frame).
  - apply stays_ret.
  - apply stays_here.
  - by apply stays_bind.
  - destruct (one_shard n ctx); [apply stays_scan, stays_Query|apply stays_scan, stays_fanoutQuery].
  - destruct (one_shard n ctx); [apply stays_scan, stays_Query|apply stays_scan, stays_fanoutQuery].
  - intros c t Ht. unfold manager_ReadCommitted. rewrite Ht. by apply IHp.
Qed.

(** In a fan-out on the connection of a transaction at most one query gets it. *)
Lemma fan_out_busy {R} ctx (f : statement (list R)) order : forall open results c t,
  tx_conn c = Some t -> NoDup order -> (forall i, i ∈ order -> (i < length results)%nat) ->
  exists results' c', fan_out ctx f order open results c = (Ret results', c')
    /\ length results' = length results
    /\ (forall i, i ∉ order -> results' !! i = results !! i)
    /\ (open = true -> forall i, i ∈ order -> exists e, results' !! i = Some (Err e))
    /\ (forall i j, i ∈ order -> j ∈ order -> i <> j ->
          (exists e, results' !! i = Some (Err e)) \/ (exists e, results' !! j = Some (Err e))).
Proof.
  induction order as [|idx order IH]; intros open results c t Ht Hnd Hin.
  { eexists _, _. split; [done|]. split; [done|]. split; [done|].
    split; [intros _ i Hi|intros i j Hi]; by apply elem_of_nil in Hi. }
  apply NoDup_cons in Hnd as [Hnew Hnd]. simpl. rewrite Ht.
  set (call := if open then mret (Err ErrConnBusy) else pg_Query idx ctx f).
  assert (Hcall : exists r c1 t1, call c = (Ret r, c1) /\ tx_conn c1 = Some t1
                                  /\ (open = true -> is_ok r = false)).
  { unfold call. destruct open; [by eexists _, _, _|].
    pose proof (stays_Query idx ctx f c t Ht) as ([b Hb] & _).
    unfold pg_Query, run_on, mbind, C_bind in *.
    destruct (stmt_any f (view (target idx c) c)) as (r & w & E & _). rewrite E in *. simpl in *.
    by eexists _, _, _. }
  destruct Hcall as (r & c1 & t1 & E & Ht1 & Hr). rewrite (cbind_ret _ _ _ _ _ E).
  destruct (IH (open || is_ok r) (<[idx := r]> results) c1 t1 Ht1 Hnd)
    as (res' & c2 & -> & Hl & Hout & Hopen & Htwo).
  { intros i Hi. rewrite length_insert. apply Hin. by right. }
  assert (Hidx : res' !! idx = Some r)
    by (rewrite Hout by done; apply list_lookup_insert_eq, Hin; left).
  eexists _, _. split; [done|]. split; [by rewrite Hl, length_insert|]. split; [|split].
  - intros i [Hne Ho]%not_elem_of_cons. rewrite Hout by done. by apply list_lookup_insert_ne.
  - intros -> i [->|Hi]%elem_of_cons; [|by apply Hopen].
    rewrite Hidx. destruct r; [by specialize (Hr eq_refl)|eauto].
  - assert (Hone : forall j, j ∈ order ->
        (exists e, res' !! idx = Some (Err e)) \/ (exists e, res' !! j = Some (Err e))).
    { intros j Hj. destruct r as [x|e]; [|left; rewrite Hidx; eauto].
      right. apply Hopen; [by rewrite orb_true_r|done]. }
    intros i j [->|Hi]%elem_of_cons [->|Hj]%elem_of_cons Hne; [done|by apply Hone| |by apply Htwo].
    destruct (Hone i Hi); auto.
Qed.

Lemma map_res_id_err {A} (l : list (res A)) i e :
  l !! i = Some (Err e) -> exists e', map_res id l = Err e'.
Proof.
  revert i. induction l as [|r l IH]; intros [|i]; simpl; [done..| |].
  - intros [= ->]. simpl. eauto.
  - intros Hi. destruct r as [x|e']; simpl; [|eauto]. destruct (IH i Hi) as [e' ->]. simpl. eauto.
Qed.

(** A query without a shard key fails in a transaction when there are several shards. *)
Lemma fanout_in_tx {R} n ctx (f : statement (list R)) c t :
  (1 < n)%nat -> tx_conn c = Some t ->
  exists e c', fanoutQuery n ctx f c = (Ret (Err e), c').
Proof.
  intros Hn Ht. pose proof (arrival_perm (cluster_ticks c) n) as Hp.
  assert (Hin : forall i, (i < n)%nat -> i ∈ arrival_at (cluster_ticks c) n)
    by (intros i Hi; rewrite Hp, elem_of_seq; lia).
  destruct (fan_out_busy ctx f (arrival_at (cluster_ticks c) n) false (replicate n zero_result) c t Ht)
    as (results & c' & E & _ & _ & _ & Htwo).
  { rewrite Hp. apply NoDup_seq. }
  { intros i Hi. rewrite Hp, elem_of_seq in Hi. rewrite length_replicate. lia. }
  assert (Herr : exists e, map_res id results = Err e).
  { destruct (Htwo 0%nat 1%nat (Hin 0%nat ltac:(lia)) (Hin 1%nat ltac:(lia)) ltac:(lia)) as [[e He]|[e He]];
      by eapply map_res_id_err. }
  destruct Herr as [e He]. exists e, c'. unfold fanoutQuery.
  rewrite (cbind_ret _ _ _ _ _ E), He. done.
Qed.

(** A transaction body that creates tasks in bulk: [before] decides which, [after] continues.  The
    bodies of [CreateCrawlJob], of a scheduled run and of the parser are of this form. *)
Definition with_bulk_create {A B} (before : prog (res B)) (entities : B -> list CrawlTask)
    (after : B -> list CrawlTaskID -> prog (res A)) : prog (res A) :=
  PBind before (fun r =>
    match r with
    | Err e => PRet (Err e)
    | Ok b =>
        PBind (bulk_create (entities b)) (fun r =>
          match r with
          | Err e => PRet (Err e)
          | Ok ids => after b ids
          end)
    end).

Lemma bulk_create_plain entities w : run_plain (bulk_create entities) w = Task_BulkCreate entities w.
Proof.
  destruct entities as [|t ts]; [done|]. cbn [bulk_create run_plain Task_BulkCreate].
  unfold try_bind, mbind, M_bind, insert_rows.
  destruct (stmt _ w) as [[[ids|e]|m] w1]; done.
Qed.

Lemma bulk_create_in_tx n ctx entities c t :
  (1 < n)%nat -> ShardKeyFromContext ctx = None -> entities <> [] -> tx_conn c = Some t ->
  exists e c', run_db (shardedDB n) ctx (bulk_create entities) c = (Ret (Err e), c').
Proof.
  intros Hn Hk He Ht. destruct entities as [|x l]; [done|]. cbn [bulk_create run_db].
  unfold shardedDB, one_shard. cbn [QueryContext]. rewrite Hk.
  replace (n =? 1)%nat with false by (symmetry; apply Nat.eqb_neq; lia).
  destruct (fanout_in_tx n ctx (insert_rows (x :: l)) c t Hn Ht) as (e & c' & E).
  exists e, c'. unfold scan_rows.
  assert (E2 : (fanoutQuery n ctx (insert_rows (x :: l)) ≫= fun r =>
      match r return C (res (list string)) with
      | Err e => mret (Err e) | Ok rows => fun c => (read_rows rows, c) end) c = (Ret (Err e), c'))
    by by rewrite (cbind_ret _ _ _ _ _ E).
  by rewrite (cbind_ret _ _ _ _ _ E2).
Qed.

(** With several shards, a transaction without a shard key that creates tasks in bulk never
    succeeds: pgx refuses all but one of the queries that the fan-out sends over the one
    connection of the transaction.  The transaction is rolled back and no shard changes. *)
Theorem sharded_bulk_create_fails {A B} n ctx (before : prog (res B)) entities
    (after : B -> list CrawlTaskID -> prog (res A)) c :
  (1 < n)%nat -> ShardKeyFromContext ctx = None -> (forall b, entities b <> []) ->
  tx_conn c = None -> length (shard_dbs c) = n ->
  exists e c', run_db (shardedDB n) ctx (PTx (with_bulk_create before entities after)) c
               = (Ret (Err e), c')
    /\ shard_dbs c' = shard_dbs c /\ tx_conn c' = None.
Proof.
  intros Hn Hk He Ht Hl. cbn [run_db]. unfold manager_ReadCommitted. rewrite Ht.
  unfold shardedDB at 1. cbn [BeginTx]. unfold pg_BeginTx.
  destruct (verdict_at (cluster_ticks c)); [|by eexists _, _..].
  set (k := resolve n ctx). set (t := {| on_shard := k |}). set (c1 := {| tx_conn := Some t |}).
  assert (Hk0 : (k < length (shard_dbs c))%nat) by (unfold k, resolve; rewrite Hk; lia).
  pose proof (stays_prog n ctx (with_bulk_create before entities after) c1 t eq_refl)
    as (_ & Hd & Hlen).
  assert (Hno : forall a c2, run_db (shardedDB n) ctx (with_bulk_create before entities after) c1
                             <> (Ret (Ok a), c2)).
  { intros a c2. unfold with_bulk_create. cbn [run_db]. unfold mbind at 1, C_bind at 1.
    pose proof (stays_prog n ctx before c1 t eq_refl) as ([b Hb] & _).
    destruct (run_db _ ctx before c1) as [[[x|e]|m] c3]; try done. cbn [run_db].
    destruct (bulk_create_in_tx n ctx (entities x) c3 _ Hn Hk (He x) Hb) as (e & c4 & E).
    by rewrite (cbind_ret _ _ _ _ _ E). }
  change (tx_conn c1) with (Some t). cbv iota.
  assert (Hback : forall c2, length (shard_dbs c2) = length (shard_dbs c) ->
            (forall j, j <> k -> shard_dbs c2 !! j = shard_dbs c !! j) ->
            <[k := default empty_db (shard_dbs c !! k)]> (shard_dbs c2) = shard_dbs c).
  { intros c2 Hl2 Hd2. apply list_eq. intros j. destruct (decide (j = k)) as [->|Hj].
    - rewrite list_lookup_insert_eq by lia. symmetry. by apply the_db.
    - by rewrite list_lookup_insert_ne, Hd2. }
  destruct (run_db _ ctx _ c1) as [[[a|e]|m] c2]; [by destruct (Hno a c2)| |];
    unfold tx_Rollback, end_tx; cbn [on_shard saved t]; rewrite (Hback c2) by done;
    destruct (verdict_at (cluster_ticks c2)); by eexists _, _.
Qed.

(** The manager over one manager per shard does what the manager over the sharded client does. *)
Lemma shardedManager_equiv {A} n ctx (fn : C (res A)) c :
  (0 < n)%nat -> Z.of_nat n < 2 ^ 32 ->
  shardedManager_ReadCommitted n ctx fn c = manager_ReadCommitted (shardedDB n) ctx fn c.
Proof.
  intros Hn Hb. unfold shardedManager_ReadCommitted, manager_ReadCommitted, shardedDB, resolve.
  cbn [BeginTx]. destruct (ShardKeyFromContext ctx) as [key|] eqn:Ek; cbn [pgDb BeginTx].
  - pose proof (ShardIndex_lt key n Hn Hb) as Hi.
    replace (n <=? ShardIndex key n)%nat with false by (symmetry; apply Nat.leb_gt; lia).
    done.
  - done.
Qed.

(** ** Rows written without a key and read with one *)

Definition job_rows (id : string) : statement (list CrawlJobSnapshot) :=
  reading (fun d => bfilter (is_job id) (jobs d)).

(** A job that is created without a shard key, as [CreateJob] is, is stored on shard 0; a call
    for that job is routed by its identifier, so that it is not found whenever the identifier
    hashes to another shard. *)
Theorem unkeyed_job_unreachable n j c id c1 rows c2 :
  (1 < n)%nat -> Z.of_nat n < 2 ^ 32 -> length (shard_dbs c) = n -> tx_conn c = None ->
  (forall d, shard_dbs c !! ShardIndex (js_ID j) n = Some d ->
             bfilter (is_job (js_ID j)) (jobs d) = []) ->
  ShardIndex (js_ID j) n <> 0%nat -> js_ID j <> "" ->
  run_db (shardedDB n) None (PQueryRow (fun _ d => insert_job j d)) c = (Ret (Ok id), c1) ->
  run_db (shardedDB n) (Some (js_ID j)) (PScanAll (job_rows (js_ID j))) c1 = (Ret (Ok rows), c2) ->
  rows = [].
Proof.
  intros Hn Hb Hl Ht Habs Hne Hid E1 E2.
  assert (Hs : resolve n (Some (js_ID j)) = ShardIndex (js_ID j) n)
    by (unfold resolve; simpl; by rewrite bool_decide_false).
  pose proof (ShardIndex_lt (js_ID j) n ltac:(lia) Hb) as Hi.
  change (run_on 0 (stmt (fun _ d => insert_job j d)) c = (Ret (Ok id), c1)) in E1.
  unfold run_on in E1. assert (Ht0 : target 0 c = 0%nat) by (unfold target; by rewrite Ht).
  rewrite Ht0 in E1. pose proof (stmt_frame (fun _ d => insert_job j d) (view 0 c)) as Hf.
  destruct (stmt _ (view 0 c)) as [o w]. injection E1 as _ <-.
  rewrite run_sharded in E2 by (unfold one_shard; simpl; by rewrite bool_decide_false).
  rewrite Hs in E2.
  assert (Ht1 : target (ShardIndex (js_ID j) n) (store 0 w c) = ShardIndex (js_ID j) n)
    by (rewrite <-Ht0, store_target by (by rewrite Ht0); unfold target; by rewrite Ht).
  rewrite run_pg in E2 by (rewrite Ht1, store_length; lia).
  unfold run_on in E2. rewrite Ht1 in E2. simpl in E2.
  destruct (stmt _ _) as [o2 w2] eqn:E3. injection E2 as -> _.
  apply stmt_ok in E3 as (_ & d & [= <- _] & _). simpl.
  rewrite list_lookup_insert_ne by done. apply Habs.
  by apply the_db; rewrite Hl.
Qed.

(** ** The configuration *)

Lemma NewPGConfig_shards dsn sharding raw cfg :
  NewPGConfig dsn sharding raw = Ok cfg ->
  pg_dsn cfg <> "" /\
  (if pg_shardingEnabled cfg
   then (2 <= length (pg_shardDSNs cfg))%nat /\ Forall (fun s => s <> "") (pg_shardDSNs cfg)
   else pg_shardDSNs cfg = []).
Proof.
  unfold NewPGConfig. case_bool_decide as Hd; [done|].
  case_bool_decide; [|by intros [= <-]]. case_bool_decide; [done|].
  destruct (length _ <? 2)%nat eqn:El; [done|]. apply Nat.ltb_ge in El.
  intros [= <-]. split; [done|]. split; [done|]. simpl.
  apply Forall_forall. intros s [Hs _]%list_elem_of_filter Hs0. by rewrite Hs0 in Hs.
Qed.

Lemma connect_shards_spec connect : forall dsns i,
  match connect_shards connect i dsns (list_to_set (seq 0 i)) with
  | (Ok n, s) => n = (i + length dsns)%nat /\ s = list_to_set (seq 0 n)
  | (Err _, s) => s = ∅
  end.
Proof.
  induction dsns as [|dsn dsns IH]; intros i; simpl; [by rewrite Nat.add_0_r|].
  destruct (connect i dsn) as [?|e]; [|unfold close_pools; set_solver].
  assert (E : {[ i ]} ∪ list_to_set (seq 0 i) =@{gset nat} list_to_set (seq 0 (S i)))
    by (rewrite seq_S, list_to_set_app_L; simpl; set_solver).
  rewrite E. specialize (IH (S i)). destruct (connect_shards _ _ _ _) as [[n|e] s]; [|done].
  by rewrite Nat.add_succ_r.
Qed.

(** [NewSharded] opens every pool or leaves none open. *)
Lemma NewSharded_opens connect dsns :
  (NewSharded connect dsns = (Ok (length dsns), list_to_set (seq 0 (length dsns))) /\ dsns <> [])
  \/ exists e, NewSharded connect dsns = (Err e, ∅).
Proof.
  unfold NewSharded. destruct dsns as [|d l]; [eauto|].
  pose proof (connect_shards_spec connect (d :: l) 0) as Hs.
  change (list_to_set (seq 0 0)) with (∅ : gset nat) in Hs.
  destruct (connect_shards connect 0 (d :: l) ∅) as [[n|e] s]; [|subst; eauto].
  destruct Hs as [-> ->]. by left.
Qed.

(** Which calls are routed: those whose request carries the identifier of a job. *)
Lemma interceptor_key method job_id id :
  ShardKeyFromContext (ShardKeyInterceptor true method job_id id None)
  = match job_id with
    | Some (String a s) => Some (String a s)
    | _ => if isJobEndpoint method then (if bool_decide (default "" id = "") then None else id) else None
    end.
Proof.
  unfold ShardKeyInterceptor. cbv zeta. cbn [negb].
  destruct job_id as [[|a s]|], id as [[|b s']|]; simpl; try done; by destruct (isJobEndpoint method).
Qed.

End Sharding.

(** ** Examples *)

Example fnv_empty : fnv32a "" = 2166136261. Proof. reflexivity. Qed.
Example fnv_a : fnv32a "a" = 3826002220. Proof. reflexivity. Qed.
Example fnv_foobar : fnv32a "foobar" = 3214735720. Proof. reflexivity. Qed.

Definition in_order_pg : PgLib := {|
  deferred_at := fun _ => false; arrival_at := fun _ n => seq 0 n;
  arrival_perm := fun _ _ => reflexivity _ |}.

Definition demo_cluster : cluster := {|
  shard_dbs := [demo_db; empty_db]; tx_conn := None; cluster_ticks := 0 |}.

#[local] Existing Instances any_uuid plain_env plain_json in_order_pg.

Lemma keyed_refines_witness :
  let p := PTx (PExec (fun _ d => Ok (tt, upd_tasks (fun _ => []) d))) in
  let '(o, c') := run_db (shardedDB 2) (Some "job") p demo_cluster in
  let '(o1, w) := run_plain p (view (resolve 2 (Some "job")) demo_cluster) in
  o = o1 /\ view (resolve 2 (Some "job")) c' = w
  /\ (forall j, j <> resolve 2 (Some "job") -> shard_dbs c' !! j = shard_dbs demo_cluster !! j).
Proof. apply keyed_refines; [reflexivity|lia|lia|reflexivity|reflexivity]. Defined.

Lemma fanout_concatenates_witness :
  exists r c', ScanAllContext (shardedDB 2) _ None (reading users) demo_cluster = (Ret r, c')
    /\ shard_dbs c' = shard_dbs demo_cluster /\ tx_conn c' = None
    /\ (r = Ok (concat (users <$> shard_dbs demo_cluster)) \/ is_ok r = false /\ ~ calm_run).
Proof. apply fanout_concatenates; reflexivity. Defined.

Lemma sharded_bulk_create_fails_witness :
  exists e c', run_db (shardedDB 2) None
      (PTx (with_bulk_create (PRet (Ok tt)) (fun _ => [demo_task TaskStatusInProgress])
              (fun _ ids => PRet (Ok ids)))) demo_cluster = (Ret (Err e), c')
    /\ shard_dbs c' = shard_dbs demo_cluster /\ tx_conn c' = None.
Proof. apply sharded_bulk_create_fails; [lia|done..]. Defined.

Definition lone_job : CrawlJobSnapshot := SaveCrawlJobToSnapshot {|
  JID := MkID "j2"; JobConfigID := JobConfigID demo_job; JobConfig := None;
  JUserID := JUserID demo_job; JName := None; JStatus := TaskStatusInProgress; CreatedAt := 1;
  CompletedAt := None; ExportJSONKey := None; ExportCSVKey := None; ExportedAt := None;
  JExportStatus := ExportStatusNotStarted |}.

Definition before_job : cluster := {|
  shard_dbs := [upd_tasks (fun _ => []) (upd_jobs (fun _ => []) demo_db); empty_db];
  tx_conn := None; cluster_ticks := 0 |}.

Lemma unkeyed_job_unreachable_witness :
  exists id c1 rows c2,
    run_db (shardedDB 2) None (PQueryRow (fun _ d => insert_job lone_job d)) before_job
      = (Ret (Ok id), c1)
    /\ run_db (shardedDB 2) (Some (js_ID lone_job)) (PScanAll (job_rows (js_ID lone_job))) c1
       = (Ret (Ok rows), c2)
    /\ rows = [].
Proof.
  eexists _, _, _, _. split; [vm_compute; reflexivity|]. split; [vm_compute; reflexivity|].
  eapply (unkeyed_job_unreachable 2 lone_job before_job);
    [lia|lia|reflexivity|reflexivity| | |discriminate|vm_compute; reflexivity|vm_compute; reflexivity].
  - intros d. vm_compute. by intros [= <-].
  - vm_compute. discriminate.
Defined.
