(* ===== verification/Logger.v ===== *)
(** * The OpenSearch core of the logger

    [infra/logger/opensearch_core.go]: log records are appended to a buffer under a mutex and sent in
    batches by a writer that fills the buffer, by the ticker, or at the end.  Buffers are Go slices,
    so that they are modelled as such: a [slice] is a window on an array of the heap, and what a
    batch sends is read from its array after the lock is released.  An action is one critical
    section or one request; any interleaving of writers, of the ticker and of [Stop] is a list of
    actions. *)

From S2P Require Import Prelude GoStrings Domain Json.

(** ** Slices *)

Record slice := { s_arr : nat; s_len : nat; s_cap : nat }.

(** [make([]T, 0, cap)], [append(s, x)] and the elements of [s], over a heap of arrays, given by the
    cells that were written. *)
Record heap D := { arrays : gmap nat (list D); next_array : nat }.
Arguments arrays {D}.
Arguments next_array {D}.

(** The capacity of an array that [append] allocates. *)
Class GoRuntime := { grow_cap : nat -> nat; grow_more n : (n < grow_cap n)%nat }.

Section Slices.
Context {D : Type} `{GoRuntime}.

Definition cells (h : heap D) (s : slice) : list D :=
  take (s_len s) (default [] (arrays h !! s_arr s)).

Definition make_slice (cap : nat) (h : heap D) : slice * heap D :=
  ({| s_arr := next_array h; s_len := 0; s_cap := cap |},
   {| arrays := <[next_array h := []]> (arrays h); next_array := S (next_array h) |}).

Definition append (s : slice) (x : D) (h : heap D) : slice * heap D :=
  if (s_len s <? s_cap s)%nat then
    ({| s_arr := s_arr s; s_len := S (s_len s); s_cap := s_cap s |},
     {| arrays := <[s_arr s := cells h s ++ [x]
                               ++ drop (S (s_len s)) (default [] (arrays h !! s_arr s))]> (arrays h);
        next_array := next_array h |})
  else
    ({| s_arr := next_array h; s_len := S (s_len s); s_cap := grow_cap (s_len s) |},
     {| arrays := <[next_array h := cells h s ++ [x]]> (arrays h); next_array := S (next_array h) |}).

End Slices.

(** ** Records *)

Definition doc : Type := gmap string json.

Record log_entry := {
  le_time : Z; le_level : string; le_message : string; le_logger : string;
  le_caller : option string; le_stack : string }.

(** A zap field of a simple type: its key and value. *)
Definition zap_field : Type := string * json.

Definition set_opt (k : string) (v : option string) (d : doc) : doc :=
  match v with Some s => <[k := JStr s]> d | None => d end.

(** The fields of the core and then those of the call replace what is there. *)
Definition make_doc `{JsonLib} (e : log_entry) (core_fields fields : list zap_field) : doc :=
  let base : doc :=
    set_opt "stacktrace" (if bool_decide (le_stack e = "") then None else Some (le_stack e))
      (set_opt "caller" (le_caller e)
        (<["logger" := JStr (le_logger e)]> (<["message" := JStr (le_message e)]>
          (<["level" := JStr (le_level e)]>
            {[ "@timestamp" := JStr (time_text (le_time e)) ]})))) in
  foldl (fun d f => <[f.1 := f.2]> d) base (core_fields ++ fields).

(** ** Cores *)

Record opensearchCore := { buf : slice; c_fields : list zap_field }.

(** [in_flight] are the batches that [flush] took and [sendBulk] has not sent, [bulks] the requests,
    both by the order of the take; [written] is the records of all calls of [Write]. *)
Record log_state := {
  log_heap : heap doc; cores : gmap nat opensearchCore; in_flight : gmap nat slice;
  bulks : gmap nat (list doc); taken : nat; written : list doc }.

Inductive log_action :=
| LWith (c new : nat) (fields : list zap_field)
| LWrite (c : nat) (e : log_entry) (fields : list zap_field)
| LTake (c : nat)
| LSend (k : nat).

Section Core.
Context `{GoRuntime, JsonLib} (batchSize : nat).

Definition NewOpenSearchCore : log_state :=
  let '(s, h) := make_slice batchSize {| arrays := ∅; next_array := 0 |} in
  {| log_heap := h; cores := {[ 0%nat := {| buf := s; c_fields := [] |} ]}; in_flight := ∅;
     bulks := ∅; taken := 0; written := [] |}.

(** [With] copies the header of the slice: the clone has the array of its origin. *)
Definition core_With (c new : nat) (fields : list zap_field) (st : log_state) : log_state :=
  match cores st !! c with
  | None => st
  | Some k =>
      {| log_heap := log_heap st;
         cores := <[new := {| buf := buf k; c_fields := c_fields k ++ fields |}]> (cores st);
         in_flight := in_flight st; bulks := bulks st; taken := taken st; written := written st |}
  end.

(** The critical section of [Write]; the answer is [shouldFlush]. *)
Definition core_Write (c : nat) (e : log_entry) (fields : list zap_field) (st : log_state)
  : bool * log_state :=
  match cores st !! c with
  | None => (false, st)
  | Some k =>
      let d := make_doc e (c_fields k) fields in
      let '(s, h) := append (buf k) d (log_heap st) in
      ((batchSize <=? s_len s)%nat,
       {| log_heap := h; cores := <[c := {| buf := s; c_fields := c_fields k |}]> (cores st);
          in_flight := in_flight st; bulks := bulks st; taken := taken st;
          written := written st ++ [d] |})
  end.

(** The critical section of [flush]. *)
Definition flush_take (c : nat) (st : log_state) : log_state :=
  match cores st !! c with
  | None => st
  | Some k =>
      if (s_len (buf k) =? 0)%nat then st
      else
        let '(s, h) := make_slice batchSize (log_heap st) in
        {| log_heap := h; cores := <[c := {| buf := s; c_fields := c_fields k |}]> (cores st);
           in_flight := <[taken st := buf k]> (in_flight st); bulks := bulks st;
           taken := S (taken st); written := written st |}
  end.

(** [sendBulk]: one document after the other; whatever happens to the request, the batch is gone. *)
Definition sendBulk (k : nat) (st : log_state) : log_state :=
  match in_flight st !! k with
  | None => st
  | Some s =>
      {| log_heap := log_heap st; cores := cores st; in_flight := delete k (in_flight st);
         bulks := <[k := cells (log_heap st) s]> (bulks st); taken := taken st;
         written := written st |}
  end.

Definition log_step (a : log_action) (st : log_state) : log_state :=
  match a with
  | LWith c new fields => core_With c new fields st
  | LWrite c e fields => (core_Write c e fields st).2
  | LTake c => flush_take c st
  | LSend k => sendBulk k st
  end.

Definition log_run (l : list log_action) (st : log_state) : log_state :=
  foldl (fun st a => log_step a st) st l.

(** [Sync], and [Stop] once the ticker has stopped. *)
Definition core_Sync (c : nat) (st : log_state) : log_state :=
  let st' := flush_take c st in if (taken st' =? taken st)%nat then st' else sendBulk (taken st) st'.

(** One call of [Write] that nothing interrupts. *)
Definition Write (c : nat) (e : log_entry) (fields : list zap_field) (st : log_state) : log_state :=
  let '(shouldFlush, st) := core_Write c e fields st in
  if shouldFlush : bool then core_Sync c st else st.

(** ** The one core of the program: every record is sent or waits, exactly once *)

Definition batch (st : log_state) (k : nat) : list doc :=
  match bulks st !! k with
  | Some l => l
  | None => match in_flight st !! k with Some s => cells (log_heap st) s | None => [] end
  end.

Definition waiting (st : log_state) : list doc :=
  match cores st !! 0%nat with Some k => cells (log_heap st) (buf k) | None => [] end.

(** A slice whose array holds all its elements, with room as its capacity says. *)
Definition slice_ok (h : heap doc) (s : slice) : Prop :=
  (s_arr s < next_array h)%nat
  /\ exists l, arrays h !! s_arr s = Some l /\ (s_len s <= length l)%nat.

Record one_core (st : log_state) (k : opensearchCore) : Prop := {
  oc_cores : cores st = {[ 0%nat := k ]};
  oc_buf : slice_ok (log_heap st) (buf k);
  oc_flight j s : in_flight st !! j = Some s ->
    slice_ok (log_heap st) s /\ s_arr s <> s_arr (buf k) /\ (j < taken st)%nat /\ bulks st !! j = None;
  oc_bulks j l : bulks st !! j = Some l -> (j < taken st)%nat;
  oc_all j : (j < taken st)%nat -> is_Some (bulks st !! j) \/ is_Some (in_flight st !! j);
  oc_written : written st = concat (batch st <$> seq 0 (taken st)) ++ waiting st }.


Lemma cells_insert_other h s a l :
  s_arr s <> a -> cells {| arrays := <[a := l]> (arrays h); next_array := S (next_array h) |} s = cells (D:=doc) h s.
Proof. intros Hne. unfold cells. simpl. by rewrite lookup_insert_ne. Qed.

(** What [append] gives: the elements and the new one, in the same array or in a fresh one. *)
Lemma append_spec (s : slice) (d : doc) (h : heap doc) :
  slice_ok h s ->
  let '(s', h') := append s d h in
  slice_ok h' s' /\ cells h' s' = cells h s ++ [d] /\ s_len s' = S (s_len s)
  /\ (s_arr s' = s_arr s \/ s_arr s' = next_array h)
  /\ (next_array h <= next_array h')%nat
  /\ (forall a, a <> s_arr s -> a <> next_array h -> arrays h' !! a = arrays h !! a).
Proof.
  intros (Hn & l & Hl & Hlen). unfold append, cells, slice_ok. rewrite Hl. simpl.
  destruct (s_len s <? s_cap s)%nat eqn:E; simpl; rewrite lookup_insert_eq; simpl.
  - assert (Hlt : length (take (s_len s) l) = s_len s) by (rewrite length_take; lia).
    split; [split; [done|]; eexists; split; [done|]|].
    { rewrite !length_app, Hlt. simpl. lia. }
    split; [|split; [done|split; [by left|split; [done|]]]].
    + rewrite cons_middle, app_assoc, take_app_length' by (rewrite length_app, Hlt; simpl; lia). done.
    + intros a Ha _. by apply lookup_insert_ne.
  - assert (Hlt : length (take (s_len s) l) = s_len s) by (rewrite length_take; lia).
    split; [split; [lia|]; eexists; split; [done|]|].
    { rewrite length_app, Hlt. simpl. lia. }
    split; [|split; [done|split; [by right|split; [lia|]]]].
    + rewrite take_ge by (rewrite length_app, Hlt; simpl; lia). done.
    + intros a _ Ha. by apply lookup_insert_ne.
Qed.

Lemma cells_same (h h' : heap doc) s : arrays h' !! s_arr s = arrays h !! s_arr s -> cells h' s = cells h s.
Proof. intros E. unfold cells. by rewrite E. Qed.

Lemma batch_ext st st' k :
  bulks st' !! k = bulks st !! k -> in_flight st' !! k = in_flight st !! k ->
  (forall s, in_flight st !! k = Some s -> cells (log_heap st') s = cells (log_heap st) s) ->
  batch st' k = batch st k.
Proof.
  intros Hb Hf Hc. unfold batch. rewrite Hb, Hf. destruct (bulks st !! k); [done|].
  destruct (in_flight st !! k) eqn:E; [by apply Hc|done].
Qed.

Lemma batches_ext st st' n :
  (forall k, (k < n)%nat -> batch st' k = batch st k) ->
  batch st' <$> seq 0 n = batch st <$> seq 0 n.
Proof. intros Hb. apply list_fmap_ext. intros i k [-> Hk]%lookup_seq. apply Hb. lia. Qed.

Lemma one_core_init : exists k, one_core NewOpenSearchCore k.
Proof.
  unfold NewOpenSearchCore, make_slice. eexists. split; simpl.
  - done.
  - split; simpl; [lia|]. exists []. done.
  - intros j s. by rewrite lookup_empty.
  - intros j l. by rewrite lookup_empty.
  - intros j Hj. lia.
  - done.
Qed.

Lemma one_core_write c e fields st k :
  one_core st k -> exists k', one_core (core_Write c e fields st).2 k'.
Proof.
  intros [Hc Hb Hf Hbk Hall Hw]. unfold core_Write. rewrite Hc.
  destruct (decide (c = 0%nat)) as [->|Hne]; [|rewrite lookup_singleton_ne by done; by exists k; split].
  rewrite lookup_singleton_eq. pose proof (append_spec (buf k) (make_doc e (c_fields k) fields) _ Hb) as Ha.
  destruct (append _ _ _) as [s h]. destruct Ha as (Hs & Hcells & _ & Harr & Hnext & Hold).
  simpl. eexists. split; simpl.
  - apply insert_singleton_eq.
  - exact Hs.
  - intros j s' Hj. destruct (Hf j s' Hj) as ((Hn & l & Hl & Hlen) & Hne & Hlt & Hno).
    assert (Hfresh : s_arr s' <> next_array (log_heap st)) by lia.
    split; [split; [lia|]; exists l; split; [by rewrite Hold|done]|].
    split; [|done]. simpl. destruct Harr; congruence.
  - exact Hbk.
  - exact Hall.
  - unfold waiting in *. simpl. rewrite insert_singleton_eq, lookup_singleton_eq.
    rewrite Hc, lookup_singleton_eq in Hw. simpl. rewrite Hcells, app_assoc, Hw.
    f_equal. f_equal. f_equal. symmetry. apply batches_ext. intros j Hj. apply batch_ext; [done..|].
    intros s' Hs'. apply cells_same. simpl. destruct (Hf j s' Hs') as ((Hn & _) & Hne & _).
    apply Hold; [done|lia].
Qed.

Lemma one_core_take c st k : one_core st k -> exists k', one_core (flush_take c st) k'.
Proof.
  intros [Hc Hb Hf Hbk Hall Hw]. unfold flush_take. rewrite Hc.
  destruct (decide (c = 0%nat)) as [->|Hne]; [|rewrite lookup_singleton_ne by done; by exists k; split].
  rewrite lookup_singleton_eq. destruct (s_len (buf k) =? 0)%nat eqn:E0; [by exists k; split|].
  destruct Hb as (Hn & l & Hl & Hlen).
  assert (Hcell : forall s', (s_arr s' < next_array (log_heap st))%nat ->
            cells {| arrays := <[next_array (log_heap st) := []]> (arrays (log_heap st));
                     next_array := S (next_array (log_heap st)) |} s' = cells (log_heap st) s').
  { intros s' Hs'. apply cells_same. simpl. apply lookup_insert_ne. lia. }
  assert (Hnew : forall P, bulks st !! taken st = P -> P = None).
  { intros [l'|] E; [apply Hbk in E; lia|done]. }
  unfold make_slice. eexists. split; cbn [cores log_heap buf in_flight bulks taken written].
  - apply insert_singleton_eq.
  - split; simpl; [lia|]. exists []. by rewrite lookup_insert_eq.
  - intros j s' Hj. apply lookup_insert_Some in Hj as [[<- <-]|[Hne Hj]].
    + split; [split; simpl; [lia|]; exists l; by rewrite lookup_insert_ne by lia|].
      split; [simpl; lia|]. split; [lia|]. by eapply Hnew.
    + destruct (Hf j s' Hj) as ((Hn' & l' & Hl' & Hlen') & _ & Hlt & Hno).
      split; [split; simpl; [lia|]; exists l'; by rewrite lookup_insert_ne by lia|].
      split; [simpl; lia|]. split; [lia|done].
  - intros j l' Hj. apply Hbk in Hj. lia.
  - intros j Hj. destruct (decide (j = taken st)) as [->|Hne].
    + right. rewrite lookup_insert_eq. by eexists.
    + rewrite lookup_insert_ne by done. apply Hall. lia.
  - set (st' := {| log_heap := _ |}). change (taken st') with (S (taken st)).
    rewrite Hw, seq_S, fmap_app, concat_app, <-app_assoc. f_equal.
    + f_equal. symmetry. apply batches_ext. intros j Hj. apply batch_ext; simpl; [done| |].
      * by rewrite lookup_insert_ne by lia.
      * intros s' Hs'. apply Hcell. destruct (Hf j s' Hs') as ((Hn' & _) & _). done.
    + assert (Eb : batch st' (taken st) = cells (log_heap st) (buf k)).
      { unfold batch, st'. simpl. rewrite lookup_insert_eq, (Hnew _ eq_refl). by apply Hcell. }
      assert (Ew : waiting st' = []).
      { unfold waiting, st'. simpl. by rewrite insert_singleton_eq, lookup_singleton_eq. }
      simpl. rewrite Eb, Ew. unfold waiting. rewrite Hc, lookup_singleton_eq. by rewrite !app_nil_r.
Qed.

Lemma one_core_send j st k : one_core st k -> exists k', one_core (sendBulk j st) k'.
Proof.
  intros Hone. pose proof Hone as [Hc Hb Hf Hbk Hall Hw]. unfold sendBulk.
  destruct (in_flight st !! j) as [s|] eqn:Ej; [|by exists k].
  destruct (Hf j s Ej) as (_ & _ & Hlt & Hno). exists k. split; simpl.
  - done.
  - done.
  - intros i s' [Hne Hi]%lookup_delete_Some. destruct (Hf i s' Hi) as (? & ? & ? & ?).
    repeat (split; [done|]). by rewrite lookup_insert_ne.
  - intros i l [[<- _]|[_ Hi]]%lookup_insert_Some; [done|by eapply Hbk].
  - intros i Hi. destruct (decide (i = j)) as [->|Hne].
    + left. rewrite lookup_insert_eq. by eexists.
    + rewrite lookup_insert_ne, lookup_delete_ne by done. by apply Hall.
  - rewrite Hw. f_equal. f_equal. symmetry. apply batches_ext. intros i Hi.
    unfold batch. simpl. destruct (decide (i = j)) as [->|Hne].
    + by rewrite lookup_insert_eq, Hno, Ej.
    + by rewrite lookup_insert_ne, lookup_delete_ne by done.
Qed.

Definition is_With (a : log_action) : bool := match a with LWith _ _ _ => true | _ => false end.

Lemma log_run_one_core l : forall st k,
  forallb (fun a => negb (is_With a)) l = true -> one_core st k ->
  exists k', one_core (log_run l st) k'.
Proof.
  induction l as [|a l IH]; intros st k Hl Hone; [by exists k|].
  simpl in Hl. apply andb_true_iff in Hl as [Ha Hl]. simpl.
  assert (Hstep : exists k1, one_core (log_step a st) k1).
  { destruct a; simpl in *; [done| | |].
    - by eapply one_core_write.
    - by eapply one_core_take.
    - by eapply one_core_send. }
  destruct Hstep as [k1 Hk1]. by apply (IH _ k1).
Qed.

(** The core without clones, which is how the program uses it: in any interleaving of writers,
    ticker and requests the records are, in the order they were written, the batches taken so far
    and then the buffer; every batch is sent once or waits to be sent with its own records, and what
    a request carried never changes.  A [Sync] when no batch is waiting leaves every record sent. *)
Theorem log_records_exact l :
  forallb (fun a => negb (is_With a)) l = true ->
  let st := log_run l NewOpenSearchCore in
  written st = concat (batch st <$> seq 0 (taken st)) ++ waiting st
  /\ (forall k, (k < taken st)%nat -> is_Some (bulks st !! k) \/ is_Some (in_flight st !! k))
  /\ (forall k, is_Some (bulks st !! k) -> in_flight st !! k = None)
  /\ (in_flight st = ∅ ->
      let st' := core_Sync 0 st in
      written st' = written st /\ in_flight st' = ∅
      /\ written st = concat ((fun k => default [] (bulks st' !! k)) <$> seq 0 (taken st'))).
Proof.
  intros Hl. cbv zeta. destruct one_core_init as [k0 H0'].
  destruct (log_run_one_core l _ _ Hl H0') as [k Hone].
  set (st := log_run l NewOpenSearchCore) in *. clearbody st.
  pose proof Hone as [Hc Hb Hf Hbk Hall Hw].
  split; [done|]. split; [done|]. split.
  { intros j [x Hj]. destruct (in_flight st !! j) as [s|] eqn:E; [|done].
    destruct (Hf j s E) as (_ & _ & _ & ?). congruence. }
  intros Hempty. unfold core_Sync.
  destruct (one_core_take 0 st k Hone) as [k' Htake].
  assert (Hdone : forall st', written st' = concat (batch st' <$> seq 0 (taken st')) ++ waiting st' ->
            waiting st' = [] -> in_flight st' = ∅ ->
            written st' = concat ((fun k => default [] (bulks st' !! k)) <$> seq 0 (taken st'))).
  { intros st' Hw' Hwait He. rewrite Hw', Hwait, app_nil_r. f_equal. apply list_fmap_ext.
    intros i j _. unfold batch. rewrite He, lookup_empty. by destruct (bulks st' !! j). }
  destruct (one_core_send (taken st) _ _ Htake) as [k2 Hsend].
  unfold flush_take in *. rewrite Hc, lookup_singleton_eq in *.
  destruct (s_len (buf k) =? 0)%nat eqn:E0.
  - rewrite Nat.eqb_refl. split; [done|]. split; [done|]. apply Hdone; [done| |done].
    unfold waiting. rewrite Hc, lookup_singleton_eq. unfold cells.
    apply Nat.eqb_eq in E0. by rewrite E0.
  - unfold make_slice in *. cbn [taken] in *.
    replace (S (taken st) =? taken st)%nat with false by (symmetry; apply Nat.eqb_neq; lia).
    unfold sendBulk in *. cbn [in_flight written taken bulks] in *. rewrite lookup_insert_eq in *.
    cbn [in_flight written taken bulks] in *.
    assert (He : delete (taken st) (<[taken st := buf k]> (in_flight st)) = ∅)
      by (rewrite Hempty, insert_empty, delete_singleton_eq; done).
    split; [done|]. split; [done|].
    destruct Hsend as [_ _ _ _ _ Hw']. apply Hdone in Hw'; [exact Hw'| |exact He].
    unfold waiting. cbn [cores]. by rewrite insert_singleton_eq, lookup_singleton_eq.
Qed.

End Core.

(** ** Clones share the array of their origin *)

#[local] Existing Instance plain_json.
Lemma doubling_more n : (n < S (2 * n))%nat.
Proof. lia. Qed.
#[local] Instance doubling : GoRuntime :=
  {| grow_cap n := S (2 * n); grow_more := doubling_more |}.

Definition demo_entry (m : string) : log_entry :=
  {| le_time := 0; le_level := "info"; le_message := m; le_logger := ""; le_caller := None;
     le_stack := "" |}.

Definition message_of (d : doc) : option json := d !! "message".

(** A core and its clone each write one record into the same cell: the request of the first carries
    the record of the second, and its own is lost. *)
Lemma clone_overwrites_record :
  let st := log_run 2 [LWith 0 1 [("component", JStr "api")]; LWrite 0 (demo_entry "first") [];
                     LWrite 1 (demo_entry "second") []; LTake 0; LSend 0] (NewOpenSearchCore 2) in
  map message_of (default [] (bulks st !! 0%nat)) = [Some (JStr "second")]
  /\ map message_of (written st) = [Some (JStr "first"); Some (JStr "second")].
Proof. vm_compute. done. Qed.

Lemma log_records_exact_witness :
  let l := [LWrite 0 (demo_entry "a") []; LWrite 0 (demo_entry "b") []; LTake 0;
            LWrite 0 (demo_entry "c") []; LSend 0] in
  let st := log_run 2 l (NewOpenSearchCore 2) in
  map message_of (written st) = [Some (JStr "a"); Some (JStr "b"); Some (JStr "c")]
  /\ let st' := core_Sync 2 0 st in
     written st = concat ((fun k => default [] (bulks st' !! k)) <$> seq 0 (taken st')).
Proof.
  cbv zeta. split; [vm_compute; reflexivity|].
  pose proof (log_records_exact 2
    [LWrite 0 (demo_entry "a") []; LWrite 0 (demo_entry "b") []; LTake 0;
     LWrite 0 (demo_entry "c") []; LSend 0] eq_refl) as Hall.
  destruct Hall as (_ & _ & _ & Hall). apply Hall. apply map_eq. intros k. vm_compute. by destruct k.
Defined.
