(* ===== verification/Config.v ===== *)
(** * Configuration from the environment

    [config/config.go] and [config/env]: what every process reads from its environment variables
    when it starts.  The PostgreSQL part is [Sharding.NewPGConfig].  godotenv's [Load] is the
    parameter of [Load]. *)

From S2P Require Import Prelude GoStrings Domain Json Converters Sql GoUrl GoNum Sharding.

(** The variables of the process; [os.Getenv] answers "" for one that is not set. *)
Definition environ : Type := gmap string string.
Definition Getenv (env : environ) (key : string) : string := default "" (env !! key).

Definition required (key : string) : gerror := ENew (key +:+ " environment variable is required").

(** [v := os.Getenv(key); if v == "" { return nil, error }]. *)
Definition need (env : environ) (key : string) : res string :=
  let v := Getenv env key in
  if bool_decide (v = "") then Err (required key) else Ok v.

(** [v := os.Getenv(key); if v == "" { v = fallback }]. *)
Definition getEnvString (env : environ) (key defaultValue : string) : string :=
  let v := Getenv env key in if bool_decide (v = "") then defaultValue else v.

Section Optional.
Context {A : Type} (parse : string -> res A) (env : environ) (key : string) (defaultValue : A).

(** A variable that is set and parses replaces the default. *)
Definition getEnvParsed : A :=
  let v := Getenv env key in
  if bool_decide (v = "") then defaultValue
  else match parse v with Ok a => a | Err _ => defaultValue end.

End Optional.

Definition getEnvBool : environ -> string -> bool -> bool := getEnvParsed ParseBool.
Definition getEnvFloat64 : environ -> string -> float_result -> float_result :=
  getEnvParsed ParseFloat.
Definition getEnvInt : environ -> string -> Z -> Z := getEnvParsed ParseInt.

(** [net.JoinHostPort]. *)
Definition JoinHostPort (host port : string) : string :=
  if Contains host ":" then "[" +:+ host +:+ "]:" +:+ port else host +:+ ":" +:+ port.

(** ** config/config.go *)

Definition CrawlQueueKey : string := "crawl_queue".
Definition ParsingQueueKey : string := "parsing_queue".

(** [godotenv_Load path env]: the environment after [godotenv.Load(path)]. *)
Definition Load (godotenv_Load : string -> environ -> res environ) (path : string) (env : environ)
  : res environ :=
  if bool_decide (Getenv env "CONFIG_SOURCE" = "env") then Ok env else godotenv_Load path env.

(** ** Kinds of broker, fetcher and limiter *)

Definition BrokerRabbitMQ : string := "rabbitmq".
Definition BrokerKafka : string := "kafka".
Definition BrokerGRPCMemory : string := "grpc_memory".

Definition GetBrokerType (env : environ) : string :=
  let t := ToLower (Getenv env "MESSAGING_BROKER") in
  if bool_decide (t = BrokerKafka) then BrokerKafka
  else if bool_decide (t = BrokerGRPCMemory) then BrokerGRPCMemory
  else BrokerRabbitMQ.

Definition FetcherTypeHTTP : string := "http".
Definition FetcherTypeBrowser : string := "browser".
Definition FetcherTypeSelenium : string := "selenium".

Definition GetFetcherType (env : environ) : string :=
  let t := ToLower (TrimSpace (Getenv env "FETCHER_TYPE")) in
  if bool_decide (t = FetcherTypeBrowser) then FetcherTypeBrowser
  else if bool_decide (t = FetcherTypeSelenium) then FetcherTypeSelenium
  else FetcherTypeHTTP.

Definition GetChromeRemoteURL (env : environ) : string := TrimSpace (Getenv env "CHROME_REMOTE_URL").
Definition GetSeleniumRemoteURL (env : environ) : string :=
  TrimSpace (Getenv env "SELENIUM_REMOTE_URL").

Definition LimiterRedis : string := "redis".
Definition LimiterInMemory : string := "inmemory".

Definition GetLimiterType (env : environ) : string :=
  let t := ToLower (TrimSpace (Getenv env "LIMITER_TYPE")) in
  if bool_decide (t ∈ [LimiterInMemory; "in-memory"; "in_memory"; "memory"]) then LimiterInMemory
  else LimiterRedis.

(** ** Addresses *)

Record hostPort := { hp_host : string; hp_port : string }.
Definition Address (cfg : hostPort) : string := JoinHostPort (hp_host cfg) (hp_port cfg).

Definition NewGrpcConfig (env : environ) : res hostPort :=
  host ← need env "GRPC_HOST";
  port ← need env "GRPC_PORT";
  Ok {| hp_host := host; hp_port := port |}.

Definition NewHTTPConfig (env : environ) : res hostPort :=
  host ← need env "HTTP_HOST";
  port ← need env "HTTP_PORT";
  Ok {| hp_host := host; hp_port := port |}.

Definition NewCORSConfig (env : environ) : list string :=
  TrimSpace <$> Split (getEnvString env "HTTP_CORS_ALLOWED_ORIGINS" "http://localhost:4200") ","%char.

(** ** PostgreSQL *)

Definition PGConfig (env : environ) : res pgConfig :=
  NewPGConfig (Getenv env "PG_DSN") (Getenv env "PG_SHARDING_ENABLED") (Getenv env "PG_SHARD_DSNS").

(** ** Brokers *)

Definition splitTrimComma (s : string) : list string :=
  bfilter nonempty (TrimSpace <$> Split s ","%char).

(** The names of the queues of all regions, or the one queue when there are none. *)
Definition all_crawl_queues (namesRaw crawlQueue : string) : list string :=
  let names := if bool_decide (namesRaw = "") then [] else splitTrimComma namesRaw in
  match names with [] => [crawlQueue] | _ => names end.

Record rabbitmqConfig := {
  rmq_url : string; rmq_queueNames : gmap string string; rmq_allCrawlQueues : list string }.

Definition NewRabbitMQConfig (env : environ) : res rabbitmqConfig :=
  url ← need env "RABBITMQ_URL";
  crawlQueue ← need env "RABBITMQ_CRAWL_QUEUE_NAME";
  parsingQueue ← need env "RABBITMQ_PARSING_QUEUE_NAME";
  Ok {| rmq_url := url;
        rmq_queueNames := <[ParsingQueueKey := parsingQueue]> {[CrawlQueueKey := crawlQueue]};
        rmq_allCrawlQueues :=
          all_crawl_queues (Getenv env "RABBITMQ_CRAWL_QUEUE_NAMES") crawlQueue |}.

Definition GetQueueName (c : rabbitmqConfig) (key : string) : string :=
  default key (rmq_queueNames c !! key).
Definition GetAllCrawlQueueNames (c : rabbitmqConfig) : list string := rmq_allCrawlQueues c.

Record kafkaConfig := {
  kafka_brokers : list string; kafka_consumerGroup : string;
  kafka_topicNames : gmap string string; kafka_allCrawlTopics : list string }.

Definition NewKafkaConfig (env : environ) : res kafkaConfig :=
  brokersRaw ← need env "KAFKA_BROKERS";
  consumerGroup ← need env "KAFKA_CONSUMER_GROUP";
  crawlTopic ← need env "KAFKA_CRAWL_TOPIC_NAME";
  parsingTopic ← need env "KAFKA_PARSING_TOPIC_NAME";
  Ok {| kafka_brokers := TrimSpace <$> Split brokersRaw ","%char;
        kafka_consumerGroup := consumerGroup;
        kafka_topicNames := <[ParsingQueueKey := parsingTopic]> {[CrawlQueueKey := crawlTopic]};
        kafka_allCrawlTopics :=
          all_crawl_queues (Getenv env "KAFKA_CRAWL_TOPIC_NAMES") crawlTopic |}.

Definition GetTopicName (c : kafkaConfig) (key : string) : string :=
  default key (kafka_topicNames c !! key).
Definition GetAllCrawlTopicNames (c : kafkaConfig) : list string := kafka_allCrawlTopics c.

Record memoryBrokerConfig := { mb_address : string; mb_capacity : Z }.

Definition memoryBrokerDefaultCapacity : Z := 1000.

(** "%q" of the value is left out of the error. *)
Definition NewMemoryBrokerConfig (env : environ) : res memoryBrokerConfig :=
  addr ← need env "MEMORY_BROKER_ADDR";
  let capStr := Getenv env "MEMORY_BROKER_CAPACITY" in
  if bool_decide (capStr = "") then
    Ok {| mb_address := addr; mb_capacity := memoryBrokerDefaultCapacity |}
  else
    let invalid := ENew "invalid MEMORY_BROKER_CAPACITY value: must be a positive integer" in
    match ParseInt capStr with
    | Err _ => Err invalid
    | Ok n => if n <=? 0 then Err invalid else Ok {| mb_address := addr; mb_capacity := n |}
    end.

(** ** Stores *)

Record redisConfig := { redis_address : string; redis_password : string; redis_db : Z }.

Definition NewRedisConfig (env : environ) : res redisConfig :=
  address ← need env "REDIS_ADDRESS";
  password ← need env "REDIS_PWD";
  let dbStr := Getenv env "REDIS_DB" in
  db ← (if bool_decide (dbStr = "") then Ok 0
        else match ParseInt dbStr with
             | Ok n => Ok n
             | Err e => Err (Errorf "invalid REDIS_DB value" e)
             end);
  Ok {| redis_address := address; redis_password := password; redis_db := db |}.

Record minioConfig := {
  minio_endpoint : string; minio_accessKeyID : string; minio_secretAccessKey : string;
  minio_useSSL : bool; minio_bucketName : string; minio_publicBaseURL : string }.

Definition NewMinIOConfig (env : environ) : res minioConfig :=
  endpoint ← need env "MINIO_ENDPOINT";
  accessKeyID ← need env "MINIO_USER";
  secretAccessKey ← need env "MINIO_PWD";
  let useSSLStr := Getenv env "MINIO_USE_SSL" in
  useSSL ← (if bool_decide (useSSLStr = "") then Ok false
            else match ParseBool useSSLStr with
                 | Ok b => Ok b
                 | Err _ => Err (ENew "MINIO_USE_SSL must be a valid boolean (true/false)")
                 end);
  bucketName ← need env "MINIO_BUCKET_NAME";
  Ok {| minio_endpoint := endpoint; minio_accessKeyID := accessKeyID;
        minio_secretAccessKey := secretAccessKey; minio_useSSL := useSSL;
        minio_bucketName := bucketName; minio_publicBaseURL := Getenv env "MINIO_PUBLIC_BASE_URL" |}.

(** ** Users and logs *)

Record authConfig := {
  auth_jwtSecret : string; auth_accessTokenTTL : string; auth_refreshTokenTTL : string;
  auth_issuer : string; auth_audience : string;
  auth_defaultEmail : string; auth_defaultPassword : string }.

Definition NewAuthConfig (env : environ) : res authConfig :=
  jwtSecret ← need env "JWT_SECRET";
  defaultEmail ← need env "DEFAULT_USER_EMAIL";
  defaultPassword ← need env "DEFAULT_USER_PWD";
  Ok {| auth_jwtSecret := jwtSecret;
        auth_accessTokenTTL := getEnvString env "ACCESS_TOKEN_TTL" "15m";
        auth_refreshTokenTTL := getEnvString env "REFRESH_TOKEN_TTL" "720h";
        auth_issuer := getEnvString env "JWT_ISSUER" "distributed-crawler";
        auth_audience := getEnvString env "JWT_AUDIENCE" "api";
        auth_defaultEmail := defaultEmail; auth_defaultPassword := defaultPassword |}.

Record loggerConfig := { logger_level : string; logger_env : string }.

Definition EnvProduction : string := "production".
Definition EnvDevelopment : string := "development".

Definition NewLoggerConfig (env : environ) : res loggerConfig :=
  let level := getEnvString env "LOG_LEVEL" "info" in
  let e := getEnvString env "LOG_ENV" EnvDevelopment in
  if bool_decide (e ∈ [EnvProduction; EnvDevelopment]) then
    Ok {| logger_level := level; logger_env := e |}
  else Err (ENew "LOG_ENV must be 'production' or 'development'").

Record opensearchConfig := {
  os_enabled : bool; os_endpoint : string; os_index : string;
  os_flushInterval : Z; os_batchSize : Z }.

Definition NewOpenSearchConfig (env : environ) : opensearchConfig :=
  {| os_enabled := getEnvBool env "OPENSEARCH_ENABLED" false;
     os_endpoint := getEnvString env "OPENSEARCH_ENDPOINT" "http://localhost:9200";
     os_index := getEnvString env "OPENSEARCH_INDEX" "app-logs";
     os_flushInterval := getEnvInt env "OPENSEARCH_FLUSH_INTERVAL_SECONDS" 5;
     os_batchSize := getEnvInt env "OPENSEARCH_BATCH_SIZE" 100 |}.

Record otelConfig := {
  otel_enabled : bool; otel_serviceName : string; otel_serviceVersion : string;
  otel_environment : string; otel_otlpEndpoint : string; otel_otlpInsecure : bool;
  otel_traceSampleRate : float_result; otel_metricsIntervalSeconds : Z }.

Definition NewOTelConfig (env : environ) : otelConfig :=
  {| otel_enabled := getEnvBool env "OTEL_ENABLED" false;
     otel_serviceName := getEnvString env "OTEL_SERVICE_NAME" "distributed-crawler";
     otel_serviceVersion := getEnvString env "OTEL_SERVICE_VERSION" "1.0.0";
     otel_environment := getEnvString env "OTEL_ENVIRONMENT" "development";
     otel_otlpEndpoint := getEnvString env "OTEL_EXPORTER_OTLP_ENDPOINT" "localhost:4317";
     otel_otlpInsecure := getEnvBool env "OTEL_EXPORTER_OTLP_INSECURE" true;
     otel_traceSampleRate := getEnvFloat64 env "OTEL_TRACE_SAMPLE_RATE" (FFinite 1%Q);
     otel_metricsIntervalSeconds := getEnvInt env "OTEL_METRICS_INTERVAL_SECONDS" 15 |}.

Definition WithServiceName (base : otelConfig) (name : string) : otelConfig :=
  {| otel_enabled := otel_enabled base; otel_serviceName := name;
     otel_serviceVersion := otel_serviceVersion base; otel_environment := otel_environment base;
     otel_otlpEndpoint := otel_otlpEndpoint base; otel_otlpInsecure := otel_otlpInsecure base;
     otel_traceSampleRate := otel_traceSampleRate base;
     otel_metricsIntervalSeconds := otel_metricsIntervalSeconds base |}.
