(* ===== verification/Telemetry.v ===== *)
(** * Telemetry

    [internal/telemetry]: the sampler of new spans, the passage of trace contexts through messages,
    and the provider with the functions it runs at shutdown.  The OpenTelemetry SDK is the class
    [Otel]; spans, instruments and exporters themselves are not modelled. *)

From S2P Require Import Prelude GoStrings Domain Json GoNum GoFloat Config.

(** What the code calls of the SDK. *)
Class Otel := {
  context : Type; attribute_value : Type;
  AsString : attribute_value -> string;
  AsBool : attribute_value -> bool;
  TraceID_IsValid : list Z -> bool;
  IsSampled : context -> bool;                       (* of the context's span *)
  TraceState : context -> string;
  propagator_Inject : context -> list (string * string);  (* the calls of [Set], in order *)
  propagator_Extract : context -> (string -> string) -> context }.

Section Sampler.
Context `{Otel}.

Record SamplingParameters := {
  ParentContext : context; TraceID : list Z;          (* 16 bytes *)
  Attributes : list (string * attribute_value) }.

Inductive SamplingDecision := Drop | RecordAndSample.
Record SamplingResult := { Decision : SamplingDecision; Tracestate : string }.

(** [v < q] and [q < v] on float64; a NaN is in no order. *)
Definition float_lt (a b : float_result) : bool :=
  match a, b with
  | FFinite x, FFinite y => negb (Qle_bool y x)
  | FFinite _, FSpecial t => bool_decide (t = "+Inf")
  | FSpecial t, FFinite _ => bool_decide (t = "-Inf")
  | FSpecial t, FSpecial u => bool_decide (t = "-Inf") && bool_decide (u = "+Inf")
  end.

Record adaptiveSampler := { successRate : float_result }.

Definition NewAdaptiveSampler (rate : float_result) : adaptiveSampler :=
  let rate := if float_lt rate (FFinite 0%Q) then FFinite 0%Q else rate in
  let rate := if float_lt (FFinite 1%Q) rate then FFinite 1%Q else rate in
  {| successRate := rate |}.

Definition error_attribute (attr : string * attribute_value) : bool :=
  bool_decide (attr.1 ∈ ["error"; "error.type"; "otel.status_code"])
  && (bool_decide (AsString attr.2 = "ERROR") || AsBool attr.2).

(** [float64(p.TraceID[0]) / 255.0]. *)
Definition first_byte_share (id : list Z) : float_result :=
  match fl (nth 0 id 0 # 255) with Some q => FFinite q | None => FSpecial "+Inf" end.

Definition ShouldSample (s : adaptiveSampler) (p : SamplingParameters) : SamplingResult :=
  let answer d := {| Decision := d; Tracestate := TraceState (ParentContext p) |} in
  if existsb error_attribute (Attributes p) then answer RecordAndSample
  else if IsSampled (ParentContext p) then answer RecordAndSample
  else if TraceID_IsValid (TraceID p)
          && float_lt (first_byte_share (TraceID p)) (successRate s)
       then answer RecordAndSample
  else answer Drop.

(** ** Trace contexts in messages *)

Definition MapCarrier := gmap string string.
Definition carrier_Get (c : MapCarrier) (key : string) : string := default "" (c !! key).
Definition carrier_Set (c : MapCarrier) (kv : string * string) : MapCarrier := <[kv.1 := kv.2]> c.

Definition InjectTraceContext (ctx : context) : MapCarrier :=
  fold_left carrier_Set (propagator_Inject ctx) ∅.

Definition ExtractTraceContext (ctx : context) (traceCtx : MapCarrier) : context :=
  if bool_decide (traceCtx = ∅) then ctx else propagator_Extract ctx (carrier_Get traceCtx).

End Sampler.

(** ** The provider *)

(** What the provider starts and shuts down. *)
Inductive telemetry_part := TraceExporter | TracerProvider | MetricExporter | MeterProvider.

#[export] Instance telemetry_part_eq_dec : EqDecision telemetry_part.
Proof. solve_decision. Defined.

Record TelemetryProvider := { shutdownFuncs : list telemetry_part }.

Section Provider.
(* the exporters' constructors, and the shutdown of a part *)
Context (otlptracegrpc_New otlpmetricgrpc_New : string -> bool -> res unit).

Definition NewTelemetryProvider (cfg : option otelConfig) : res (option TelemetryProvider) :=
  match cfg with
  | None => Ok None
  | Some cfg =>
      if negb (otel_enabled cfg) then Ok None
      else
        match otlptracegrpc_New (otel_otlpEndpoint cfg) (otel_otlpInsecure cfg) with
        | Err e => Err (Errorf "failed to create trace exporter" e)
        | Ok _ =>
            match otlpmetricgrpc_New (otel_otlpEndpoint cfg) (otel_otlpInsecure cfg) with
            | Err e => Err (Errorf "failed to create metric exporter" e)
            | Ok _ => Ok (Some {| shutdownFuncs :=
                        [TraceExporter; TracerProvider; MetricExporter; MeterProvider] |})
            end
        end
  end.

(** [Shutdown]: every function is called, in order, whatever the others answer. *)
Definition Shutdown {St} (shut : telemetry_part -> St -> res unit * St) (tp : TelemetryProvider) (s : St)
  : res unit * St :=
  let '(errs, s) := fold_left (fun '(errs, s) fn =>
      let '(r, s) := shut fn s in
      ((match r with Ok _ => errs | Err e => errs ++ [Error e] end), s)) (shutdownFuncs tp) ([], s) in
  (match errs with
   | [] => Ok tt
   | _ => Err (ENew ("telemetry shutdown errors: [" +:+ String.concat " " errs +:+ "]"))
   end, s).

End Provider.

(** ** Properties *)

Section Properties.
Context `{Otel}.

(** The share of a byte is below a rate of one for every byte but the last. *)
Lemma byte_shares b :
  0 <= b < 256 ->
  float_lt (match fl (b # 255) with Some q => FFinite q | None => FSpecial "+Inf" end) (FFinite 1%Q)
  = negb (b =? 255).
Proof.
  intros Hb. assert (Hall : forallb (fun n => let b := Z.of_nat n in
      Bool.eqb (float_lt (match fl (b # 255) with Some q => FFinite q | None => FSpecial "+Inf" end)
                  (FFinite 1%Q)) (negb (b =? 255))) (seq 0 256) = true) by (vm_compute; reflexivity).
  rewrite forallb_forall in Hall. specialize (Hall (Z.to_nat b)). cbv zeta in Hall.
  rewrite Z2Nat.id in Hall by lia. apply eqb_prop, Hall, in_seq. lia.
Qed.

(** Even at a rate of one or more a new trace whose identifier starts with the byte 255 is dropped, unless
    an attribute of the start of the span says error; every other one is sampled. *)
Theorem sampler_at_rate_one rate p :
  match rate with FFinite q => (1 <= q)%Q | FSpecial s => s = "+Inf" end ->
  TraceID_IsValid (TraceID p) = true -> 0 <= nth 0 (TraceID p) 0 < 256 ->
  Decision (ShouldSample (NewAdaptiveSampler rate) p) = Drop
  <-> nth 0 (TraceID p) 0 = 255 /\ IsSampled (ParentContext p) = false
      /\ existsb error_attribute (Attributes p) = false.
Proof.
  intros Hge Hid Hb.
  assert (Hr : float_lt (first_byte_share (TraceID p)) (successRate (NewAdaptiveSampler rate))
               = negb (nth 0 (TraceID p) 0 =? 255)).
  { rewrite <- (byte_shares _ Hb). unfold first_byte_share, NewAdaptiveSampler. cbn [successRate].
    destruct rate as [q|s].
    - assert (E0 : float_lt (FFinite q) (FFinite 0%Q) = false).
      { simpl. apply negb_false_iff, Qle_bool_iff. eapply Qle_trans; [|exact Hge]. by vm_compute. }
      rewrite E0. cbv beta iota. destruct (float_lt (FFinite 1%Q) (FFinite q)) eqn:E1; cbv beta iota; [done|].
      simpl in E1. apply negb_false_iff, Qle_bool_iff in E1. assert (Eq : (q == 1)%Q) by (by apply Qle_antisym).
      destruct (fl _) as [x|]; simpl; [|done]. f_equal.
      destruct (Qle_bool q x) eqn:E2, (Qle_bool 1 x) eqn:E3; try done.
      + apply Qle_bool_iff in E2. rewrite Eq in E2. apply Qle_bool_iff in E2. congruence.
      + apply Qle_bool_iff in E3. rewrite <- Eq in E3. apply Qle_bool_iff in E3. congruence.
    - by rewrite Hge. }
  unfold ShouldSample. rewrite Hid, Hr. simpl.
  destruct (existsb _ _); simpl; [split; [done|intros (_ & _ & ?); done]|].
  destruct (IsSampled _); simpl; [split; [done|by intros (_ & ? & _)]|].
  destruct (Z.eqb_spec (nth 0 (TraceID p) 0) 255); simpl; (split; [done|by intros (? & _)] || tauto).
Qed.

(** A trace context survives its message: what the consumer extracts is what the propagator
    extracts from the values the producer injected. *)
Theorem trace_survives_message `{JsonLib} base ctx m :
  MTraceContext m = InjectTraceContext ctx -> crawl_msg_ok m = true ->
  exists m', Unmarshal crawl_msg_of_json (marshal (json_of_crawl_msg m)) = Ok m'
    /\ ExtractTraceContext base (MTraceContext m')
       = match propagator_Inject ctx with
         | [] => base
         | _ => propagator_Extract base (carrier_Get (InjectTraceContext ctx))
         end.
Proof.
  intros Hm Hok. exists m. split; [by apply Unmarshal_crawl_msg|]. rewrite Hm. unfold ExtractTraceContext.
  assert (Hne : forall l (c : MapCarrier), c <> ∅ -> fold_left carrier_Set l c <> ∅).
  { induction l as [|kv l IH]; intros c Hc; [done|]. simpl. apply IH. apply insert_non_empty. }
  unfold InjectTraceContext. destruct (propagator_Inject ctx) as [|kv l] eqn:E; [by rewrite bool_decide_eq_true_2|].
  rewrite bool_decide_eq_false_2; [done|]. simpl. apply Hne, insert_non_empty.
Qed.

(** The provider shuts its exporters down before the providers that still send through them. *)
Theorem exporters_stop_first tnew mnew cfg tp :
  NewTelemetryProvider tnew mnew cfg = Ok (Some tp) ->
  forall {St} (shut : telemetry_part -> St -> res unit * St) s,
    let stop s fn := (shut fn s).2 in
    (Shutdown shut tp s).2
      = stop (stop (stop (stop s TraceExporter) TracerProvider) MetricExporter) MeterProvider.
Proof.
  unfold NewTelemetryProvider. destruct cfg as [cfg|]; [|done]. destruct (negb _); [done|].
  destruct (tnew _ _); [|done]. destruct (mnew _ _); [|done]. intros [= <-] St shut s. unfold Shutdown. simpl.
  destruct (shut TraceExporter s) as [r1 s1]. simpl. destruct (shut TracerProvider s1) as [r2 s2]. simpl.
  destruct (shut MetricExporter s2) as [r3 s3]. simpl. by destruct (shut MeterProvider s3) as [r4 s4].
Qed.

End Properties.
