(* ===== verification/Wiring.v ===== *)
(** * How a worker process is put together

    [app/worker_app.go]: what a worker reads from its environment, what it connects to and which
    worker it builds, with the queues each one reads and writes; the constructors of the stores'
    clients.  Whether the servers answer is the class [Servers].  [log.Fatal] ends the process: it is
    the [Err] of the definitions.  Telemetry never stops a process and is left out. *)

From S2P Require Import Prelude GoStrings Domain Json Converters World Sql Outbox GoUrl Scope.
From S2P Require Import FetchWorker Extraction ParserWorker Scheduler WorkerStream Monitor Sharding Config.

(** What the servers and libraries answer while the process starts. *)
Class Servers := {
  godotenv_Load : string -> environ -> res environ;
  zap_New : string -> res unit;
  pg_Connect : nat -> string -> res unit;
  pg_Ping : nat -> res unit;
  amqp_DialURL : string -> res unit;
  grpc_NewClient : string -> res unit;
  redis_Ping : redisConfig -> res unit;
  minio_New : string -> bool -> res unit;
  minio_BucketExists : string -> res bool;
  minio_MakeBucket : string -> res unit;
  os_Hostname : res string;
  rand_hex : res string }.

(** [if err != nil { Fatal(msg, err) }]. *)
Definition fatal {A} (msg : string) (r : res A) : res A :=
  match r with Ok a => Ok a | Err e => Err (Errorf msg e) end.

Section Clients.
Context `{Servers}.

(** ** The clients of the stores *)

(** The number of pools; [pg.New] opens one. *)
Definition pg_New (dsn : string) : res nat :=
  match pg_Connect 0 dsn with
  | Err e => Err (Errorf "failed to connect to db" e)
  | Ok _ => Ok 1%nat
  end.

Definition open_pg (cfg : pgConfig) : res nat :=
  if pg_shardingEnabled cfg then (NewSharded pg_Connect (pg_shardDSNs cfg)).1
  else pg_New (pg_dsn cfg).

Definition ping_pg (cfg : pgConfig) (pools : nat) : res unit :=
  if pg_shardingEnabled cfg then Ping pg_Ping pools else pg_Ping 0.

Definition NewRedisClient (cfg : redisConfig) : res unit :=
  match redis_Ping cfg with
  | Err e => Err (Errorf "failed to connect to Redis" e)
  | Ok _ => Ok tt
  end.

Definition ensureBucket (bucketName : string) : res unit :=
  match minio_BucketExists bucketName with
  | Err e => Err (Errorf "failed to check bucket existence" e)
  | Ok true => Ok tt
  | Ok false =>
      match minio_MakeBucket bucketName with
      | Err e => Err (Errorf "failed to create bucket" e)
      | Ok _ => Ok tt
      end
  end.

(** The host presigned links name, and whether they are https. *)
Record MinIOStore := { ms_bucketName : string; ms_presignHost : string; ms_presignSecure : bool }.

Definition NewMinIOStore (cfg : minioConfig) : res MinIOStore :=
  _ ← fatal "failed to create MinIO client" (minio_New (minio_endpoint cfg) (minio_useSSL cfg));
  '(host, secure) ←
    (if bool_decide (minio_publicBaseURL cfg = "") then Ok (minio_endpoint cfg, minio_useSSL cfg)
     else
       parsed ← fatal "failed to parse public MinIO base URL" (url_Parse (minio_publicBaseURL cfg));
       let secure := bool_decide (of_bytes (GoUrl.Scheme parsed) = "https") in
       _ ← fatal "failed to create public MinIO presign client"
             (minio_New (of_bytes (Host parsed)) secure);
       Ok (of_bytes (Host parsed), secure));
  _ ← fatal "failed to ensure bucket exists" (ensureBucket (minio_bucketName cfg));
  Ok {| ms_bucketName := minio_bucketName cfg; ms_presignHost := host; ms_presignSecure := secure |}.

End Clients.

(** ** app/worker_app.go *)

Definition type_name (t : app_type) : string :=
  match t with
  | FetchWorkerType => "fetch"
  | ParserWorkerType => "parser"
  | ExportWorkerType => "export"
  | SchedulerWorkerType => "scheduler"
  end.

(** [brokerType], [kafkaConfig] and [rmqConfig] of the process. *)
Record messaging_setup := {
  brokerType : string; kafka : option kafkaConfig; rmq : option rabbitmqConfig }.

(** The implementations the environment chooses from. *)
Inductive fetcher_factory :=
| HTTPFetcherFactory
| BrowserFetcherFactory (chromeURL : string)
| SeleniumFetcherFactory (seleniumURL : string).

Inductive limiter := RedisRateLimiter (ttl : Z) | InMemoryRateLimiter (ttl : Z).

(** The worker of the process, with the goroutine that goes with it. *)
Inductive the_worker :=
| AFetchWorker (w : FetchWorker) (f : fetcher_factory) (l : limiter)
| AParserWorker (w : ParserWorker) (r : StuckTaskRecovery)
| AnExportWorker (pollInterval batchSize : Z)
| AScheduleWorker (w : ScheduleWorker).

Record WorkerApp := {
  wa_workerType : app_type; wa_grpcConfig : hostPort; wa_pools : nat;
  wa_messaging : messaging_setup; wa_worker : the_worker }.

Section WorkerApp.
Context `{Servers} (env : environ).

Definition initGRPCConfig : res hostPort := fatal "failed to get grpc config" (NewGrpcConfig env).

Definition initLogger : res unit :=
  cfg ← fatal "failed to get logger config" (NewLoggerConfig env);
  fatal "failed to create logger" (zap_New (logger_env cfg)).

Definition initPostgreSQL : res nat :=
  pgCfg ← fatal "Failed to create PG config" (PGConfig env);
  pools ← fatal "Failed to connect to PostgreSQL" (open_pg pgCfg);
  _ ← fatal "Failed to ping PostgreSQL" (ping_pg pgCfg pools);
  Ok pools.

(** Kafka's client connects when it is used. *)
Definition initMessaging : res messaging_setup :=
  let brokerType := GetBrokerType env in
  if bool_decide (brokerType = BrokerKafka) then
    kafkaCfg ← fatal "Failed to create Kafka config" (NewKafkaConfig env);
    Ok {| brokerType := brokerType; kafka := Some kafkaCfg; rmq := None |}
  else if bool_decide (brokerType = BrokerGRPCMemory) then
    mbCfg ← fatal "Failed to create memory broker config" (NewMemoryBrokerConfig env);
    _ ← fatal "Failed to connect to gRPC memory broker"
          (fatal "failed to connect to memory broker" (grpc_NewClient (mb_address mbCfg)));
    Ok {| brokerType := brokerType; kafka := None; rmq := None |}
  else
    rmqCfg ← fatal "Failed to create RabbitMQ config" (NewRabbitMQConfig env);
    _ ← fatal "Failed to create RabbitMQ client"
          (fatal "failed to connect to RabbitMQ" (amqp_DialURL (rmq_url rmqCfg)));
    Ok {| brokerType := brokerType; kafka := None; rmq := Some rmqCfg |}.

(** [a.brokerType == env.BrokerKafka && a.kafkaConfig != nil]. *)
Definition kafka_topics (a : messaging_setup) : option kafkaConfig :=
  if bool_decide (brokerType a = BrokerKafka) then kafka a else None.

Definition getQueueName (a : messaging_setup) (key : string) : string :=
  match kafka_topics a, rmq a with
  | Some c, _ => GetTopicName c key
  | None, Some c => GetQueueName c key
  | None, None => key
  end.

Definition getAllCrawlQueueNames (a : messaging_setup) : list string :=
  match kafka_topics a, rmq a with
  | Some c, _ => GetAllCrawlTopicNames c
  | None, Some c => GetAllCrawlQueueNames c
  | None, None => [getQueueName a CrawlQueueKey]
  end.

Definition initRedis : res unit :=
  redisCfg ← fatal "Failed to create Redis config" (NewRedisConfig env);
  fatal "Failed to create Redis client" (NewRedisClient redisCfg).

Definition initMinIO : res MinIOStore :=
  minioCfg ← fatal "Failed to create MinIO config" (NewMinIOConfig env);
  fatal "Failed to create MinIO store" (NewMinIOStore minioCfg).

Definition choose_fetcher : fetcher_factory :=
  let t := GetFetcherType env in
  if bool_decide (t = FetcherTypeBrowser) then BrowserFetcherFactory (GetChromeRemoteURL env)
  else if bool_decide (t = FetcherTypeSelenium)
  then SeleniumFetcherFactory (GetSeleniumRemoteURL env)
  else HTTPFetcherFactory.

Definition choose_limiter : limiter :=
  if bool_decide (GetLimiterType env = LimiterInMemory) then InMemoryRateLimiter (5 * Minute)
  else RedisRateLimiter (5 * Minute).

(** The queue all workers read, and the one of the worker's region. *)
Definition crawl_queues (defaultCrawlQueue : string) : list string :=
  let region := Getenv env "WORKER_REGION" in
  if bool_decide (region = "") then [defaultCrawlQueue]
  else [defaultCrawlQueue; defaultCrawlQueue +:+ "_" +:+ region].

Definition initFetchWorker (a : messaging_setup) : res the_worker :=
  _ ← initMinIO;
  Ok (AFetchWorker {| fw_crawlQueues := crawl_queues (getQueueName a CrawlQueueKey);
                      fw_parsingQueue := getQueueName a ParsingQueueKey |}
                   choose_fetcher choose_limiter).

Definition initParserWorker (a : messaging_setup) : res the_worker :=
  _ ← initMinIO;
  Ok (AParserWorker {| pw_parsingQueue := getQueueName a ParsingQueueKey;
                       pw_availableQueues := getAllCrawlQueueNames a |}
                    (NewStuckTaskRecovery (getAllCrawlQueueNames a))).

Definition initExportWorker : res the_worker :=
  _ ← initMinIO; Ok (AnExportWorker (5 * Second) 10).

Definition initScheduleWorker (a : messaging_setup) : res the_worker :=
  Ok (AScheduleWorker (NewScheduleWorker (getAllCrawlQueueNames a))).

Definition initWorker (t : app_type) (a : messaging_setup) : res the_worker :=
  match t with
  | FetchWorkerType => initFetchWorker a
  | ParserWorkerType => initParserWorker a
  | ExportWorkerType => initExportWorker
  | SchedulerWorkerType => initScheduleWorker a
  end.

(** [initDeps] after [initConfig]. *)
Definition initDeps (t : app_type) : res WorkerApp :=
  grpc ← initGRPCConfig;
  _ ← initLogger;
  pools ← initPostgreSQL;
  m ← initMessaging;
  _ ← initRedis;
  w ← initWorker t m;
  Ok {| wa_workerType := t; wa_grpcConfig := grpc; wa_pools := pools; wa_messaging := m;
        wa_worker := w |}.

(** The identifier under which the process reports. *)
Definition worker_id (t : app_type) : string :=
  let id := Getenv env "WORKER_ID" in
  if bool_decide (id = "") then
    match NewWorkerID os_Hostname rand_hex (type_name t) with
    | Ok id => if bool_decide (id = "") then type_name t else id
    | Err _ => type_name t
    end
  else id.

Definition initMonitor (a : WorkerApp) (startedAt : Z) : WorkerMonitor :=
  NewWorkerMonitor (worker_id (wa_workerType a)) (type_name (wa_workerType a)) startedAt.

End WorkerApp.

(** The environment is completed from the file of [worker-config-path] first. *)
Definition NewWorkerApp `{Servers} (path : string) (t : app_type) (env : environ) : res WorkerApp :=
  env ← fatal "failed to load config" (Load godotenv_Load path env);
  initDeps env t.

(** ** The queues of a process, as its environment says *)

(** The variables of the names of the crawl queue, the parsing queue and all crawl queues. *)
Definition broker_prefix (env : environ) : option (string * string) :=
  let t := GetBrokerType env in
  if bool_decide (t = BrokerKafka) then Some ("KAFKA_", "_TOPIC_NAME")
  else if bool_decide (t = BrokerGRPCMemory) then None
  else Some ("RABBITMQ_", "_QUEUE_NAME").

Definition queue_name (env : environ) (key : string) : string :=
  match broker_prefix env with
  | None => key
  | Some (p, s) =>
      if bool_decide (key = CrawlQueueKey) then Getenv env (p +:+ "CRAWL" +:+ s)
      else if bool_decide (key = ParsingQueueKey) then Getenv env (p +:+ "PARSING" +:+ s)
      else key
  end.

Definition crawl_queue_names (env : environ) : list string :=
  match broker_prefix env with
  | None => [CrawlQueueKey]
  | Some (p, s) =>
      all_crawl_queues (Getenv env (p +:+ "CRAWL" +:+ s +:+ "S")) (queue_name env CrawlQueueKey)
  end.

Lemma need_Ok env key v : need env key = Ok v -> v = Getenv env key /\ v <> "".
Proof. unfold need. case_bool_decide; [done|]. by intros [= <-]. Qed.

Lemma fatal_Ok {A} msg (r : res A) a : fatal msg r = Ok a -> r = Ok a.
Proof. by destruct r. Qed.

Ltac res_steps :=
  repeat match goal with
    | E : mbind _ _ = Ok _ |- _ => apply res_bind_Ok in E as (? & ? & ?)
    | E : fatal _ _ = Ok _ |- _ => apply fatal_Ok in E
    | E : need _ _ = Ok _ |- _ => apply need_Ok in E as [-> ?]
    | E : Ok _ = Ok _ |- _ => injection E as <-
    end.

(** The two names a configuration holds. *)
Lemma names_lookup (crawl parsing key : string) :
  default key (<[ParsingQueueKey := parsing]> ({[CrawlQueueKey := crawl]} : gmap string string) !! key)
  = if bool_decide (key = CrawlQueueKey) then crawl
    else if bool_decide (key = ParsingQueueKey) then parsing else key.
Proof.
  case_bool_decide as H1; [subst; by rewrite lookup_insert_ne, lookup_singleton_eq|].
  case_bool_decide as H2; [subst; by rewrite lookup_insert_eq|].
  by rewrite lookup_insert_ne, lookup_singleton_ne.
Qed.

Lemma rabbit_names env c :
  NewRabbitMQConfig env = Ok c -> broker_prefix env = Some ("RABBITMQ_", "_QUEUE_NAME") ->
  (forall key, GetQueueName c key = queue_name env key)
  /\ GetAllCrawlQueueNames c = crawl_queue_names env.
Proof.
  intros E Hp. unfold NewRabbitMQConfig in E. res_steps. unfold queue_name, crawl_queue_names. rewrite Hp.
  split; [intros key; apply names_lookup|]. unfold queue_name. by rewrite Hp.
Qed.

Lemma kafka_names env c :
  NewKafkaConfig env = Ok c -> broker_prefix env = Some ("KAFKA_", "_TOPIC_NAME") ->
  (forall key, GetTopicName c key = queue_name env key)
  /\ GetAllCrawlTopicNames c = crawl_queue_names env.
Proof.
  intros E Hp. unfold NewKafkaConfig in E. res_steps. unfold queue_name, crawl_queue_names. rewrite Hp.
  split; [intros key; apply names_lookup|]. unfold queue_name. by rewrite Hp.
Qed.

(** A worker uses these names. *)
Lemma worker_names `{Servers} env m :
  initMessaging env = Ok m ->
  (forall key, getQueueName m key = queue_name env key)
  /\ getAllCrawlQueueNames m = crawl_queue_names env.
Proof.
  unfold initMessaging. intros E.
  case_bool_decide as Hk; [|case_bool_decide as Hm]; res_steps;
    unfold getQueueName, getAllCrawlQueueNames, kafka_topics; cbn [brokerType kafka rmq].
  - rewrite !bool_decide_true by done. eapply kafka_names; [done|].
    unfold broker_prefix. by rewrite bool_decide_true.
  - rewrite Hm.
    assert (Hp : broker_prefix env = None)
      by (unfold broker_prefix; by rewrite Hm).
    unfold queue_name, crawl_queue_names. by rewrite Hp.
  - rewrite !(bool_decide_false _ Hk). eapply rabbit_names; [done|].
    unfold broker_prefix. by rewrite !bool_decide_false.
Qed.

(** There is always a queue to send a task to. *)
Lemma crawl_queue_names_nonempty env : crawl_queue_names env <> [].
Proof.
  unfold crawl_queue_names. destruct (broker_prefix env) as [[p s]|]; [|done].
  unfold all_crawl_queues. by destruct (if bool_decide _ then _ else _).
Qed.

(** The variables the names of the queues depend on. *)
Definition broker_variables : list string :=
  ["MESSAGING_BROKER"; "RABBITMQ_CRAWL_QUEUE_NAME"; "RABBITMQ_PARSING_QUEUE_NAME";
   "RABBITMQ_CRAWL_QUEUE_NAMES"; "KAFKA_CRAWL_TOPIC_NAME"; "KAFKA_PARSING_TOPIC_NAME";
   "KAFKA_CRAWL_TOPIC_NAMES"].

(** Two processes configured for the same broker. *)
Definition same_broker (env env' : environ) : Prop :=
  Forall (fun k => Getenv env k = Getenv env' k) broker_variables.

Lemma same_broker_names env env' :
  same_broker env env' ->
  (forall key, queue_name env key = queue_name env' key)
  /\ crawl_queue_names env = crawl_queue_names env'.
Proof.
  intros Hs. unfold same_broker, broker_variables in Hs. rewrite !Forall_cons in Hs.
  destruct Hs as (Ht & Hr1 & Hr2 & Hr3 & Hk1 & Hk2 & Hk3 & _).
  assert (Hp : broker_prefix env = broker_prefix env')
    by (unfold broker_prefix, GetBrokerType; by rewrite Ht).
  assert (Hq : forall key, queue_name env key = queue_name env' key).
  { intros key. unfold queue_name. rewrite Hp. unfold broker_prefix.
    destruct (bool_decide _); [|destruct (bool_decide _)]; repeat case_bool_decide;
      (assumption || reflexivity). }
  split; [exact Hq|]. unfold crawl_queue_names. rewrite Hp, Hq. unfold broker_prefix.
  destruct (bool_decide _); [|destruct (bool_decide _)]; (reflexivity || f_equal; assumption).
Qed.
