(* ===== verification/ServiceProvider.v ===== *)
(** * How the API process is put together

    [app/service_provider.go] and [app/api_app.go]: the components of the API process, each built
    when it is first asked for and kept in a field of the service provider, in the order in which
    [NewAPIApp] and the goroutines of [Run] ask for them.

    [os.Getenv] answers the same as long as the process lives, so a configuration that is kept is
    the one its constructor gives again.  [log.Fatal] is the [Err] of the definitions. *)

From S2P Require Import Prelude GoStrings Domain Json Converters World Sql Outbox GoUrl Scope.
From S2P Require Import FetchWorker Extraction ParserWorker Scheduler WorkerStream Monitor Sharding.
From S2P Require Import GoNum GoFloat GoDuration Config Wiring.

(** The fields of [serviceProvider]. *)
Inductive field :=
| f_pgConfig | f_grpcConfig | f_httpConfig | f_rabbitmqConfig | f_kafkaConfig | f_minioConfig
| f_authConfig | f_otelConfig | f_telemetryProvider | f_metrics
| f_dbClient | f_txManager | f_crawlJobRepo | f_crawlJobConfigRepo | f_crawlTaskRepo | f_outboxRepo
| f_previewRepo | f_userRepo | f_refreshTokenRepo | f_msgClient
| f_previewFetcherFactory | f_contentStore | f_htmlSanitizer | f_jwtService
| f_crawlJobService | f_crawlTaskService | f_previewService | f_authService | f_userService
| f_crawlerServiceImpl | f_previewServiceImpl | f_authServiceImpl | f_userServiceImpl
| f_workerServiceImpl | f_outboxPublisher | f_scheduleWorker | f_workerRegistry | f_logger.

#[export] Instance field_eq_dec : EqDecision field.
Proof. solve_decision. Defined.

(** An object by its place in the heap; a built object is its field and the components its
    constructor was given. *)
Definition object : Type := nat.
Record serviceProvider := { fields : list (field * object); heap : list (field * list object) }.

Definition newServiceProvider : serviceProvider := {| fields := []; heap := [] |}.

Fixpoint field_of (f : field) (l : list (field * object)) : option object :=
  match l with
  | [] => None
  | (g, o) :: l => if decide (g = f) then Some o else field_of f l
  end.

(** Code of the provider. *)
Definition SP (A : Type) : Type := serviceProvider -> res (A * serviceProvider).
#[export] Instance SP_ret : MRet SP := fun A a p => Ok (a, p).
#[export] Instance SP_bind : MBind SP := fun A B k m p =>
  match m p with Ok (a, p) => k a p | Err e => Err e end.
Definition lift {A} (r : res A) : SP A := fun p => a ← r; Ok (a, p).

(** [if s.f == nil { s.f = New(args) }; return s.f]. *)
Definition lazily (f : field) (args : SP (list object)) : SP object := fun p =>
  match field_of f (fields p) with
  | Some o => Ok (o, p)
  | None =>
      '(args, p) ← args p;
      let o := length (heap p) in
      Ok (o, {| fields := (f, o) :: fields p; heap := heap p ++ [(f, args)] |})
  end.

(** A configuration that is kept in a field. *)
Definition config {A} (f : field) (msg : string) (cfg : res A) : SP A :=
  c ← lift (fatal msg cfg); _ ← lazily f (mret []); mret c.

(** What the telemetry libraries answer. *)
Class TelemetryLib := {
  otel_NewProvider : otelConfig -> res unit;
  otel_NewMetrics : string -> res unit }.

Section Getters.
Context `{Servers, TelemetryLib} (env : environ).

(** ** Configurations *)

Definition getPGConfig : SP pgConfig := config f_pgConfig "failed to get pg config" (PGConfig env).
Definition getGRPCConfig : SP hostPort :=
  config f_grpcConfig "failed to get grpc config" (NewGrpcConfig env).
Definition getHTTPConfig : SP hostPort :=
  config f_httpConfig "failed to get http config" (NewHTTPConfig env).
Definition getRabbitMQConfig : SP rabbitmqConfig :=
  config f_rabbitmqConfig "failed to get rabbitmq config" (NewRabbitMQConfig env).
Definition getKafkaConfig : SP kafkaConfig :=
  config f_kafkaConfig "failed to get kafka config" (NewKafkaConfig env).
Definition getMinIOConfig : SP minioConfig :=
  config f_minioConfig "failed to get minio config" (NewMinIOConfig env).
Definition getAuthConfig : SP authConfig :=
  config f_authConfig "failed to get auth config" (NewAuthConfig env).
Definition getOTelConfig : SP otelConfig :=
  config f_otelConfig "failed to get otel config" (Ok (NewOTelConfig env)).

(** ** Logs and telemetry: a telemetry provider or metrics that cannot be made are nil *)

Definition Logger : SP object :=
  lazily f_logger (_ ← lift (fatal "failed to create logger" (zap_New EnvProduction)); mret []).

Definition field_now (f : field) : SP (option object) := fun p => Ok (field_of f (fields p), p).

Definition TelemetryProvider : SP (option object) :=
  tp ← field_now f_telemetryProvider;
  match tp with
  | Some o => mret (Some o)
  | None =>
      cfg ← getOTelConfig;
      if negb (otel_enabled cfg) then mret None
      else match otel_NewProvider cfg with
           | Err _ => mret None
           | Ok _ => o ← lazily f_telemetryProvider (mret []); mret (Some o)
           end
  end.

Definition Metrics : SP (option object) :=
  m ← field_now f_metrics;
  match m with
  | Some o => mret (Some o)
  | None =>
      tp ← TelemetryProvider;
      match tp with
      | None => mret None
      | Some tp =>
          match otel_NewMetrics "distributed-crawler" with
          | Err _ => mret None
          | Ok _ => o ← lazily f_metrics (mret [tp]); mret (Some o)
          end
      end
  end.

(** ** The database *)

Definition DBClient : SP object :=
  lazily f_dbClient
    (cfg ← getPGConfig;
     pools ← lift (fatal "failed to create db client" (open_pg cfg));
     _ ← lift (fatal "ping error" (ping_pg cfg pools));
     mret []).

Definition TxManager : SP object := lazily f_txManager (d ← DBClient; mret [d]).
Definition CrawlJobRepository : SP object := lazily f_crawlJobRepo (d ← DBClient; mret [d]).
Definition CrawlJobConfigRepository : SP object :=
  lazily f_crawlJobConfigRepo (d ← DBClient; mret [d]).
Definition CrawlTaskRepository : SP object := lazily f_crawlTaskRepo (d ← DBClient; mret [d]).
Definition OutboxRepository : SP object := lazily f_outboxRepo (d ← DBClient; mret [d]).
Definition PreviewRepository : SP object := lazily f_previewRepo (d ← DBClient; mret [d]).
Definition UserRepository : SP object := lazily f_userRepo (d ← DBClient; mret [d]).
Definition RefreshTokenRepository : SP object := lazily f_refreshTokenRepo (d ← DBClient; mret [d]).

(** ** The broker *)

Definition MessagingClient : SP object :=
  lazily f_msgClient
    (let t := GetBrokerType env in
     if bool_decide (t = BrokerKafka) then _ ← getKafkaConfig; mret []
     else if bool_decide (t = BrokerGRPCMemory) then
       mbCfg ← lift (fatal "failed to get memory broker config" (NewMemoryBrokerConfig env));
       _ ← lift (fatal "failed to connect to gRPC memory broker"
                   (fatal "failed to connect to memory broker" (grpc_NewClient (mb_address mbCfg))));
       mret []
     else
       cfg ← getRabbitMQConfig;
       _ ← lift (fatal "failed to create rabbitmq client"
                   (fatal "failed to connect to RabbitMQ" (amqp_DialURL (rmq_url cfg))));
       mret []).

Definition api_getQueueName (key : string) : SP string :=
  let t := GetBrokerType env in
  if bool_decide (t = BrokerKafka) then cfg ← getKafkaConfig; mret (GetTopicName cfg key)
  else if bool_decide (t = BrokerGRPCMemory) then mret key
  else cfg ← getRabbitMQConfig; mret (GetQueueName cfg key).

Definition AvailableQueues : SP (list string) :=
  let t := GetBrokerType env in
  if bool_decide (t = BrokerKafka) then cfg ← getKafkaConfig; mret (GetAllCrawlTopicNames cfg)
  else if bool_decide (t = BrokerGRPCMemory) then mret [CrawlQueueKey]
  else cfg ← getRabbitMQConfig; mret (GetAllCrawlQueueNames cfg).

(** ** Stores and fetchers *)

Definition ContentStore : SP object :=
  lazily f_contentStore
    (cfg ← getMinIOConfig;
     l ← Logger;
     _ ← lift (fatal "failed to create minio store" (NewMinIOStore cfg));
     mret [l]).
Definition PreviewFetcherFactory : SP object := lazily f_previewFetcherFactory (mret []).
Definition HTMLSanitizer : SP object := lazily f_htmlSanitizer (mret []).

(** ** Services *)

Definition CrawlJobService : SP object :=
  lazily f_crawlJobService
    (a ← CrawlJobRepository; b ← CrawlJobConfigRepository; c ← CrawlTaskRepository;
     d ← OutboxRepository; e ← TxManager; m ← Metrics;
     mret ([a; b; c; d; e] ++ option_list m)).

Definition CrawlTaskService : SP object :=
  lazily f_crawlTaskService (a ← CrawlTaskRepository; mret [a]).

Definition PreviewService : SP object :=
  lazily f_previewService
    (a ← ContentStore; b ← PreviewRepository; c ← PreviewFetcherFactory; _ ← ContentStore;
     d ← HTMLSanitizer; e ← TxManager; mret [b; c; a; d; a; e]).

(** The signing secret is left out. *)
Definition getJWTService : SP object :=
  lazily f_jwtService (_ ← getAuthConfig; mret []).

Definition AuthService : SP object :=
  lazily f_authService
    (cfg ← getAuthConfig;
     _ ← lift (fatal "failed to parse access token TTL" (ParseDuration (auth_accessTokenTTL cfg)));
     _ ← lift (fatal "failed to parse refresh token TTL" (ParseDuration (auth_refreshTokenTTL cfg)));
     a ← UserRepository; b ← RefreshTokenRepository; c ← TxManager; d ← getJWTService;
     mret [a; b; c; d]).

Definition UserService : SP object :=
  lazily f_userService (a ← UserRepository; b ← TxManager; mret [a; b]).

(** ** What the gRPC server registers *)

Definition CrawlerServiceImpl : SP object :=
  lazily f_crawlerServiceImpl
    (s ← ContentStore; a ← CrawlJobService; b ← CrawlTaskService; _ ← AvailableQueues;
     mret [a; b; s]).
Definition PreviewServiceImpl : SP object :=
  lazily f_previewServiceImpl (a ← PreviewService; mret [a]).
Definition AuthServiceImpl : SP object := lazily f_authServiceImpl (a ← AuthService; mret [a]).
Definition UserServiceImpl : SP object := lazily f_userServiceImpl (a ← UserService; mret [a]).
Definition WorkerRegistry : SP object := lazily f_workerRegistry (mret []).
Definition WorkerServiceImpl : SP object :=
  lazily f_workerServiceImpl (a ← WorkerRegistry; b ← Logger; mret [a; b]).

(** ** The workers of the API process *)

Definition getOutboxPublisher : SP object :=
  lazily f_outboxPublisher
    (_ ← TelemetryProvider; a ← OutboxRepository; b ← TxManager; c ← MessagingClient;
     _ ← api_getQueueName CrawlQueueKey; l ← Logger; mret [a; b; c; l]).

Definition getScheduleWorker : SP object :=
  lazily f_scheduleWorker
    (a ← CrawlJobRepository; b ← CrawlJobConfigRepository; c ← CrawlTaskRepository;
     d ← OutboxRepository; e ← TxManager; l ← Logger; m ← Metrics; _ ← AvailableQueues;
     mret ([a; b; c; d; e; l] ++ option_list m)).

End Getters.

(** Asking the provider for what is in a field. *)
Definition ask `{Servers, TelemetryLib} (env : environ) (f : field) : SP unit :=
  match f with
  | f_pgConfig => _ ← getPGConfig env; mret tt
  | f_grpcConfig => _ ← getGRPCConfig env; mret tt
  | f_httpConfig => _ ← getHTTPConfig env; mret tt
  | f_rabbitmqConfig => _ ← getRabbitMQConfig env; mret tt
  | f_kafkaConfig => _ ← getKafkaConfig env; mret tt
  | f_minioConfig => _ ← getMinIOConfig env; mret tt
  | f_authConfig => _ ← getAuthConfig env; mret tt
  | f_otelConfig => _ ← getOTelConfig env; mret tt
  | f_telemetryProvider => _ ← TelemetryProvider env; mret tt
  | f_metrics => _ ← Metrics env; mret tt
  | f_dbClient => _ ← DBClient env; mret tt
  | f_txManager => _ ← TxManager env; mret tt
  | f_crawlJobRepo => _ ← CrawlJobRepository env; mret tt
  | f_crawlJobConfigRepo => _ ← CrawlJobConfigRepository env; mret tt
  | f_crawlTaskRepo => _ ← CrawlTaskRepository env; mret tt
  | f_outboxRepo => _ ← OutboxRepository env; mret tt
  | f_previewRepo => _ ← PreviewRepository env; mret tt
  | f_userRepo => _ ← UserRepository env; mret tt
  | f_refreshTokenRepo => _ ← RefreshTokenRepository env; mret tt
  | f_msgClient => _ ← MessagingClient env; mret tt
  | f_previewFetcherFactory => _ ← PreviewFetcherFactory; mret tt
  | f_contentStore => _ ← ContentStore env; mret tt
  | f_htmlSanitizer => _ ← HTMLSanitizer; mret tt
  | f_jwtService => _ ← getJWTService env; mret tt
  | f_crawlJobService => _ ← CrawlJobService env; mret tt
  | f_crawlTaskService => _ ← CrawlTaskService env; mret tt
  | f_previewService => _ ← PreviewService env; mret tt
  | f_authService => _ ← AuthService env; mret tt
  | f_userService => _ ← UserService env; mret tt
  | f_crawlerServiceImpl => _ ← CrawlerServiceImpl env; mret tt
  | f_previewServiceImpl => _ ← PreviewServiceImpl env; mret tt
  | f_authServiceImpl => _ ← AuthServiceImpl env; mret tt
  | f_userServiceImpl => _ ← UserServiceImpl env; mret tt
  | f_workerServiceImpl => _ ← WorkerServiceImpl; mret tt
  | f_outboxPublisher => _ ← getOutboxPublisher env; mret tt
  | f_scheduleWorker => _ ← getScheduleWorker env; mret tt
  | f_workerRegistry => _ ← WorkerRegistry; mret tt
  | f_logger => _ ← Logger; mret tt
  end.

(** ** app/api_app.go *)

Section APIApp.
Context `{Servers, TelemetryLib} (env : environ).

(** The loggers of the process. *)
Definition api_initLogger : SP unit :=
  cfg ← lift (fatal "failed to get logger config" (NewLoggerConfig env));
  lift (fatal "failed to init logger" (zap_New (logger_env cfg))).

(** [admin]: what [EnsureDefaultAdmin] answers. *)
Definition initDefaultAdmin (admin : res unit) : SP unit :=
  _ ← getAuthConfig env; _ ← UserRepository env;
  lift (fatal "failed to ensure default admin" admin).

Definition initGRPCServer : SP unit :=
  _ ← getPGConfig env; _ ← getJWTService env;
  _ ← CrawlerServiceImpl env; _ ← PreviewServiceImpl env; _ ← AuthServiceImpl env;
  _ ← UserServiceImpl env; _ ← WorkerServiceImpl; mret tt.

(** The address the gateway dials and the one it listens on. *)
Definition initHTTPServer : SP (string * string) :=
  g ← getGRPCConfig env; h ← getHTTPConfig env; mret (Address g, Address h).

(** [initDeps] after [initConfig]. *)
Definition api_initDeps (admin : res unit) : SP unit :=
  _ ← api_initLogger;
  _ ← TelemetryProvider env;
  _ ← initDefaultAdmin admin;
  _ ← initGRPCServer;
  _ ← initHTTPServer;
  mret tt.

End APIApp.

Definition NewAPIApp `{Servers, TelemetryLib} (path : string) (admin : res unit) (env : environ)
  : res serviceProvider :=
  env ← fatal "failed to load config" (Load godotenv_Load path env);
  '(_, p) ← api_initDeps env admin newServiceProvider;
  Ok p.

(** ** Every component is built once *)

(** The components the constructor of a field is given; the metrics come last and may be nil. *)
Definition parts (f : field) : list field :=
  match f with
  | f_metrics => [f_telemetryProvider]
  | f_txManager | f_crawlJobRepo | f_crawlJobConfigRepo | f_crawlTaskRepo | f_outboxRepo
  | f_previewRepo | f_userRepo | f_refreshTokenRepo => [f_dbClient]
  | f_contentStore => [f_logger]
  | f_crawlJobService =>
      [f_crawlJobRepo; f_crawlJobConfigRepo; f_crawlTaskRepo; f_outboxRepo; f_txManager; f_metrics]
  | f_crawlTaskService => [f_crawlTaskRepo]
  | f_previewService =>
      [f_previewRepo; f_previewFetcherFactory; f_contentStore; f_htmlSanitizer; f_contentStore;
       f_txManager]
  | f_authService => [f_userRepo; f_refreshTokenRepo; f_txManager; f_jwtService]
  | f_userService => [f_userRepo; f_txManager]
  | f_crawlerServiceImpl => [f_crawlJobService; f_crawlTaskService; f_contentStore]
  | f_previewServiceImpl => [f_previewService]
  | f_authServiceImpl => [f_authService]
  | f_userServiceImpl => [f_userService]
  | f_workerServiceImpl => [f_workerRegistry; f_logger]
  | f_outboxPublisher => [f_outboxRepo; f_txManager; f_msgClient; f_logger]
  | f_scheduleWorker =>
      [f_crawlJobRepo; f_crawlJobConfigRepo; f_crawlTaskRepo; f_outboxRepo; f_txManager; f_logger;
       f_metrics]
  | _ => []
  end.

(** A field is built from fields of lower rank. *)
Definition rank (f : field) : nat :=
  match f with
  | f_telemetryProvider | f_dbClient | f_msgClient | f_contentStore | f_jwtService => 1
  | f_metrics | f_txManager | f_crawlJobRepo | f_crawlJobConfigRepo | f_crawlTaskRepo
  | f_outboxRepo | f_previewRepo | f_userRepo | f_refreshTokenRepo => 2
  | f_crawlJobService | f_crawlTaskService | f_previewService | f_authService | f_userService => 3
  | f_crawlerServiceImpl | f_previewServiceImpl | f_authServiceImpl | f_userServiceImpl
  | f_workerServiceImpl | f_outboxPublisher | f_scheduleWorker => 4
  | _ => 0
  end%nat.

Definition held (p : serviceProvider) (f : field) (o : object) : Prop := field_of f (fields p) = Some o.

(** The arguments are the objects of the fields, the metrics being there or not. *)
Definition composed (p : serviceProvider) (f : field) (args : list object) : Prop :=
  exists gs, (gs = parts f \/ gs ++ [f_metrics] = parts f) /\ Forall2 (held p) gs args.

Record provider_ok (p : serviceProvider) : Prop := {
  held_once f o : held p f o <-> exists args, heap p !! o = Some (f, args);
  all_composed o f args : heap p !! o = Some (f, args) -> composed p f args }.

Definition knows (p : serviceProvider) (K : list (field * object)) : Prop :=
  Forall (fun x => held p x.1 x.2) K.

(** From a provider that holds what [K] says, [m] keeps it well-formed and what it holds, fills only
    fields of rank below [n], and answers what [Q] says. *)
Definition builds {A} (n : nat) (K : list (field * object)) (m : SP A)
    (Q : serviceProvider -> A -> Prop) : Prop :=
  forall p a p', provider_ok p -> knows p K -> m p = Ok (a, p') ->
    provider_ok p' /\ (forall f o, held p f o -> held p' f o)
    /\ (forall f o, held p' f o -> held p f o \/ (rank f < n)%nat)
    /\ Q p' a.

(** What a getter answers is in its field. *)
Definition gives (n : nat) (m : SP object) (f : field) : Prop :=
  forall K, builds n K m (fun p o => held p f o).
Definition may_give (n : nat) (m : SP (option object)) (f : field) : Prop :=
  forall K, builds n K m (fun p o => match o with Some o => held p f o | None => True end).

Section BuildRules.
Context {A B : Type} (n : nat) (K : list (field * object)).

Lemma builds_weaken m (m' : SP A) Q : (m <= n)%nat -> builds m K m' Q -> builds n K m' Q.
Proof.
  intros Hn Hm p a p' Hp HK E. destruct (Hm p a p' Hp HK E) as (H1 & H2 & H3 & H4).
  split_and!; try done. intros f o Ho. destruct (H3 f o Ho); [by left|right; lia].
Qed.

Lemma builds_ret (a : A) (Q : serviceProvider -> A -> Prop) :
  (forall p, knows p K -> Q p a) -> builds n K (mret a) Q.
Proof. intros Hq p b p' Hp HK [= <- <-]. split_and!; auto. Qed.

Lemma builds_lift (r : res A) : builds n K (lift r) (fun _ _ => True).
Proof. intros p b p' Hp HK E. unfold lift in E. destruct r; [|done]. injection E as <- <-. by auto. Qed.

Lemma builds_bind (m : SP A) (k : A -> SP B) Q R L :
  (forall p, forall a, Q p a -> knows p (L a)) ->
  builds n K m Q -> (forall a, builds n (L a ++ K) (k a) R) -> builds n K (m ≫= k) R.
Proof.
  intros HL Hm Hk p b p' Hp HK E. unfold mbind, SP_bind in E.
  destruct (m p) as [[a p1]|e] eqn:Em; [|done].
  destruct (Hm p a p1 Hp HK Em) as (H1 & H2 & H3 & H4).
  assert (HK1 : knows p1 (L a ++ K)).
  { apply Forall_app. split; [by apply HL|]. eapply Forall_impl; [exact HK|]. intros x. apply H2. }
  destruct (Hk a p1 b p' H1 HK1 E) as (H5 & H6 & H7 & H8). split_and!; auto.
  intros f o Ho. destruct (H7 f o Ho) as [Ho'|]; [|by right]. by apply H3.
Qed.

End BuildRules.

(** An answer that is not kept. *)
Lemma builds_any {A B} n K (m : SP A) (k : A -> SP B) Q R :
  builds n K m Q -> (forall a, builds n K (k a) R) -> builds n K (m ≫= k) R.
Proof.
  intros Hm Hk. apply (builds_bind n K m k Q R (fun _ => [])); [intros; constructor|done|exact Hk].
Qed.

(** The object of a field. *)
Lemma builds_object {B} n i K (m : SP object) f (k : object -> SP B) R :
  gives i m f -> (i <= n)%nat -> (forall o, builds n ((f, o) :: K) (k o) R) -> builds n K (m ≫= k) R.
Proof.
  intros Hm Hi Hk. apply (builds_bind n K m k (fun p o => held p f o) R (fun o => [(f, o)])); [|
    by eapply builds_weaken|exact Hk].
  intros p o Ho. by repeat constructor.
Qed.

Lemma builds_maybe {B} n i K (m : SP (option object)) f (k : option object -> SP B) R :
  may_give i m f -> (i <= n)%nat -> (forall o, builds n ((f, o) :: K) (k (Some o)) R) ->
  builds n K (k None) R -> builds n K (m ≫= k) R.
Proof.
  intros Hm Hi Hs Hn. eapply (builds_bind n K m k _ R (fun o => match o with Some o => [(f, o)] | None => [] end));
    [|eapply builds_weaken; [exact Hi|apply Hm]|intros [o|]; [apply Hs|exact Hn]].
  intros p [o|] Ho; by repeat constructor.
Qed.

(** A field is filled at most once. *)
Lemma builds_lazily f K args :
  builds (rank f) K args (fun p l => composed p f l) ->
  builds (S (rank f)) K (lazily f args) (fun p o => held p f o).
Proof.
  intros Ha p o p' Hp HK E. unfold lazily in E. destruct (field_of f (fields p)) as [o1|] eqn:Ef.
  { injection E as <- <-. by split_and!; auto. }
  apply res_bind_Ok in E as ([l p1] & El & E). injection E as <- <-.
  destruct (Ha p l p1 Hp HK El) as (H1 & H2 & H3 & H4).
  assert (Hf : field_of f (fields p1) = None).
  { destruct (field_of f (fields p1)) as [o|] eqn:E1; [|done]. destruct (H3 f o E1) as [Ho|]; [|lia].
    unfold held in Ho. congruence. }
  set (p' := {| fields := _; heap := _ |}).
  assert (Hheld : forall g o, held p' g o <-> (g = f /\ o = length (heap p1)) \/ held p1 g o).
  { intros g o. unfold held. simpl. destruct (decide (f = g)) as [->|].
    - rewrite Hf. split; [intros [= <-]; by left|]. by intros [[_ ->]|].
    - split; [by right|]. intros [[-> _]|]; done. }
  assert (Hgrow : forall g o, held p1 g o -> held p' g o) by (intros g o Ho; apply Hheld; by right).
  split_and!.
  - split.
    + intros g o. rewrite Hheld. simpl. destruct (decide (o < length (heap p1))%nat) as [Ho|Ho].
      * rewrite lookup_app_l by done. rewrite <- (held_once p1 H1). split; [|by right].
        intros [[_ ->]|]; [lia|done].
      * rewrite lookup_app_r by lia. split.
        -- intros [[-> ->]|Hg]; [exists l; by rewrite Nat.sub_diag|].
           apply (held_once p1 H1) in Hg as [? Hg]. apply lookup_lt_Some in Hg. lia.
        -- intros [args' Hg]. apply list_lookup_singleton_Some in Hg as [Hg [= <- <-]]. left. split; [done|lia].
    + intros o g args' Hg. simpl in Hg. apply lookup_app_Some in Hg as [Hg|[_ Hg]].
      * destruct (all_composed p1 H1 _ _ _ Hg) as (gs & Hgs & Hf2). exists gs. split; [done|].
        eapply Forall2_impl; [exact Hf2|]. apply Hgrow.
      * apply list_lookup_singleton_Some in Hg as [_ [= <- <-]]. destruct H4 as (gs & Hgs & Hf2).
        exists gs. split; [done|]. eapply Forall2_impl; [exact Hf2|]. apply Hgrow.
  - intros g o Ho. by apply Hgrow, H2.
  - intros g o Ho. apply Hheld in Ho as [[-> _]|Ho]; [right; lia|].
    destruct (H3 g o Ho); [by left|right; lia].
  - apply Hheld. by left.
Qed.

Create HintDb provider.

(** Configurations are made from nothing. *)
Lemma builds_config {A} n K f msg (cfg : res A) :
  rank f = 0%nat -> parts f = [] -> (1 <= n)%nat -> builds n K (config f msg cfg) (fun _ _ => True).
Proof.
  intros Hr Hp Hn. eapply builds_any; [apply builds_lift|intros c].
  assert (Hg : gives (S (rank f)) (lazily f (mret [])) f).
  { intros K'. apply builds_lazily, builds_ret. intros p _. exists [].
    rewrite Hp. split; [by left|constructor]. }
  eapply builds_object; [exact Hg|lia|]. intros o. by apply builds_ret.
Qed.

Lemma field_now_builds n K f :
  builds n K (field_now f) (fun p o => match o with Some o => held p f o | None => True end).
Proof. intros p a p' Hp HK [= <- <-]. split_and!; auto. by destruct (field_of f (fields p)) eqn:E. Qed.

(** The arguments, from what is known of the fields. *)
Ltac composed_tac :=
  let q := fresh "q" in let HK := fresh "HK" in
  intros q HK; unfold knows in HK; rewrite ?Forall_cons in HK; destruct_and? HK; simpl in *;
  match goal with
  | |- composed _ ?f _ =>
      first [ exists (parts f); split; [left; reflexivity|solve [repeat (constructor; [eassumption|]); constructor]]
            | exists (removelast (parts f));
              split; [right; reflexivity|solve [repeat (constructor; [eassumption|]); constructor]] ]
  end.

(** One step through the code of a getter. *)
Ltac build_step :=
  match goal with
  | |- builds _ _ (lift _ ≫= _) _ => eapply builds_any; [apply builds_lift|intros ?]
  | |- builds _ _ (mret _) _ => first [apply builds_ret; composed_tac | apply builds_ret; intros; exact I]
  | |- builds _ _ (match ?o with Some _ => _ | None => _ end) _ => destruct o
  | |- builds _ _ (if ?b then _ else _) _ => destruct b
  | |- builds _ _ (let _ := _ in _) _ => cbv zeta
  | |- builds _ _ (_ ≫= _) _ =>
      first [ eapply builds_object; [solve [eauto with provider]|simpl; lia|intros ?]
            | eapply builds_maybe; [solve [eauto with provider]|simpl; lia|intros ?|]
            | eapply builds_any; [solve [eauto with provider]|intros ?] ]
  end.
Ltac build_tac := let K := fresh "K" in intros K; apply builds_lazily; simpl rank; repeat build_step.

Section GettersOk.
Context `{Servers, TelemetryLib} (env : environ).

Lemma config_ok {A} n f msg (cfg : res A) K :
  bool_decide (rank f = 0%nat /\ parts f = [] /\ (1 <= n)%nat) = true ->
  builds n K (config f msg cfg) (fun _ _ => True).
Proof. intros Hb%bool_decide_eq_true. destruct Hb as (? & ? & ?). by apply builds_config. Qed.
#[local] Hint Extern 2 (builds _ _ (?getConfig _) _) =>
  unfold getConfig; apply config_ok; reflexivity : provider.

Lemma Logger_ok : gives 1 Logger f_logger.
Proof. build_tac. Qed.
#[local] Hint Resolve Logger_ok : provider.

Lemma DBClient_ok : gives 2 (DBClient env) f_dbClient.
Proof. build_tac. Qed.
#[local] Hint Resolve DBClient_ok : provider.

Lemma TxManager_ok : gives 3 (TxManager env) f_txManager.
Proof. build_tac. Qed.
Lemma CrawlJobRepository_ok : gives 3 (CrawlJobRepository env) f_crawlJobRepo.
Proof. build_tac. Qed.
Lemma CrawlJobConfigRepository_ok : gives 3 (CrawlJobConfigRepository env) f_crawlJobConfigRepo.
Proof. build_tac. Qed.
Lemma CrawlTaskRepository_ok : gives 3 (CrawlTaskRepository env) f_crawlTaskRepo.
Proof. build_tac. Qed.
Lemma OutboxRepository_ok : gives 3 (OutboxRepository env) f_outboxRepo.
Proof. build_tac. Qed.
Lemma PreviewRepository_ok : gives 3 (PreviewRepository env) f_previewRepo.
Proof. build_tac. Qed.
Lemma UserRepository_ok : gives 3 (UserRepository env) f_userRepo.
Proof. build_tac. Qed.
Lemma RefreshTokenRepository_ok : gives 3 (RefreshTokenRepository env) f_refreshTokenRepo.
Proof. build_tac. Qed.
#[local] Hint Resolve TxManager_ok CrawlJobRepository_ok CrawlJobConfigRepository_ok CrawlTaskRepository_ok OutboxRepository_ok PreviewRepository_ok UserRepository_ok RefreshTokenRepository_ok : provider.

Lemma TelemetryProvider_ok : may_give 2 (TelemetryProvider env) f_telemetryProvider.
Proof.
  intros K. unfold TelemetryProvider. eapply builds_maybe; [intros ?; apply field_now_builds|exact (le_n 2)| |].
  - intros o. apply builds_ret. intros p Hk. by inversion Hk.
  - eapply builds_any; [eauto with provider|intros cfg]. destruct (negb (otel_enabled cfg)); [by apply builds_ret|].
    destruct (otel_NewProvider cfg); [|by apply builds_ret].
    eapply (builds_object _ 2); [intros K'; apply (builds_lazily f_telemetryProvider), builds_ret; composed_tac|done|].
    intros o. apply builds_ret. intros p Hk. by inversion Hk.
Qed.
#[local] Hint Resolve TelemetryProvider_ok : provider.

Lemma Metrics_ok : may_give 3 (Metrics env) f_metrics.
Proof.
  intros K. unfold Metrics. eapply builds_maybe; [intros ?; apply field_now_builds|exact (le_n 3)| |].
  - intros o. apply builds_ret. intros p Hk. by inversion Hk.
  - eapply builds_maybe; [apply TelemetryProvider_ok|lia| |by apply builds_ret]. intros tp.
    destruct (otel_NewMetrics _); [|by apply builds_ret].
    apply (builds_bind _ _ _ _ (fun p o => held p f_metrics o) _ (fun o => [(f_metrics, o)])).
    + intros p o Ho. by repeat constructor.
    + apply (builds_lazily f_metrics), builds_ret. composed_tac.
    + intros o. apply builds_ret. intros p Hk. by inversion Hk.
Qed.
#[local] Hint Resolve Metrics_ok : provider.

Lemma MessagingClient_ok : gives 2 (MessagingClient env) f_msgClient.
Proof. build_tac. Qed.
Lemma ContentStore_ok : gives 2 (ContentStore env) f_contentStore.
Proof. build_tac. Qed.
Lemma PreviewFetcherFactory_ok : gives 1 PreviewFetcherFactory f_previewFetcherFactory.
Proof. build_tac. Qed.
Lemma HTMLSanitizer_ok : gives 1 HTMLSanitizer f_htmlSanitizer.
Proof. build_tac. Qed.
Lemma JWTService_ok : gives 2 (getJWTService env) f_jwtService.
Proof. build_tac. Qed.
Lemma WorkerRegistry_ok : gives 1 WorkerRegistry f_workerRegistry.
Proof. build_tac. Qed.
#[local] Hint Resolve MessagingClient_ok ContentStore_ok PreviewFetcherFactory_ok HTMLSanitizer_ok
  JWTService_ok WorkerRegistry_ok : provider.

Lemma CrawlJobService_ok : gives 4 (CrawlJobService env) f_crawlJobService.
Proof. build_tac. Qed.
Lemma CrawlTaskService_ok : gives 4 (CrawlTaskService env) f_crawlTaskService.
Proof. build_tac. Qed.
Lemma PreviewService_ok : gives 4 (PreviewService env) f_previewService.
Proof. build_tac. Qed.
Lemma AuthService_ok : gives 4 (AuthService env) f_authService.
Proof. build_tac. Qed.
Lemma UserService_ok : gives 4 (UserService env) f_userService.
Proof. build_tac. Qed.
#[local] Hint Resolve CrawlJobService_ok CrawlTaskService_ok PreviewService_ok AuthService_ok
  UserService_ok : provider.

Lemma AvailableQueues_ok n K : (1 <= n)%nat -> builds n K (AvailableQueues env) (fun _ _ => True).
Proof.
  intros Hn. unfold AvailableQueues. destruct n; [lia|].
  repeat build_step.
Qed.
Lemma getQueueName_ok n K key :
  (1 <= n)%nat -> builds n K (api_getQueueName env key) (fun _ _ => True).
Proof.
  intros Hn. unfold api_getQueueName. destruct n; [lia|].
  repeat build_step.
Qed.
#[local] Hint Extern 1 (builds _ _ (AvailableQueues _) _) => apply AvailableQueues_ok; lia : provider.
#[local] Hint Extern 1 (builds _ _ (api_getQueueName _ _) _) => apply getQueueName_ok; lia : provider.

Lemma CrawlerServiceImpl_ok : gives 5 (CrawlerServiceImpl env) f_crawlerServiceImpl.
Proof. build_tac. Qed.
Lemma PreviewServiceImpl_ok : gives 5 (PreviewServiceImpl env) f_previewServiceImpl.
Proof. build_tac. Qed.
Lemma AuthServiceImpl_ok : gives 5 (AuthServiceImpl env) f_authServiceImpl.
Proof. build_tac. Qed.
Lemma UserServiceImpl_ok : gives 5 (UserServiceImpl env) f_userServiceImpl.
Proof. build_tac. Qed.
Lemma WorkerServiceImpl_ok : gives 5 WorkerServiceImpl f_workerServiceImpl.
Proof. build_tac. Qed.
Lemma OutboxPublisher_ok : gives 5 (getOutboxPublisher env) f_outboxPublisher.
Proof. build_tac. Qed.
Lemma ScheduleWorker_ok : gives 5 (getScheduleWorker env) f_scheduleWorker.
Proof. build_tac. Qed.
#[local] Hint Resolve CrawlerServiceImpl_ok PreviewServiceImpl_ok AuthServiceImpl_ok
  UserServiceImpl_ok WorkerServiceImpl_ok OutboxPublisher_ok ScheduleWorker_ok : provider.

Lemma ask_ok f K : builds 5 K (ask env f) (fun _ _ => True).
Proof. destruct f; unfold ask; repeat build_step. Qed.

End GettersOk.

(** ** What the API process is *)

(** Requests for fields, one after the other. *)
Fixpoint asks `{Servers, TelemetryLib} (env : environ) (fs : list field) : SP unit :=
  match fs with
  | [] => mret tt
  | f :: fs => _ ← ask env f; asks env fs
  end.

Section Provider.
Context `{Servers, TelemetryLib} (env : environ).

Lemma asks_ok fs K : builds 5 K (asks env fs) (fun _ _ => True).
Proof.
  induction fs as [|f fs IH]; [by apply builds_ret|]. simpl. eapply builds_any; [apply ask_ok|by intros _].
Qed.

Lemma new_provider_ok : provider_ok newServiceProvider.
Proof. split; [|done]. intros f o. split; [done|]. by intros [args Hl]. Qed.

(** Every component of the API process is built once and shared.  However the provider's getters
    are called, each field is filled at most once, with the only object ever built for it, and
    every component was given the very objects that are in the fields of its parts: services,
    publisher and scheduler use one transaction manager, one client of the database and one of the
    broker. *)
Theorem provider_builds_once fs p :
  asks env fs newServiceProvider = Ok (tt, p) ->
  (forall o o' f args args', heap p !! o = Some (f, args) -> heap p !! o' = Some (f, args') -> o = o')
  /\ (forall f o, held p f o <-> exists args, heap p !! o = Some (f, args))
  /\ (forall o f args, heap p !! o = Some (f, args) -> composed p f args).
Proof.
  intros E. destruct (asks_ok fs [] _ _ _ new_provider_ok ltac:(constructor) E) as ([Hh Hc] & _).
  split; [|by split]. intros o o' f args args' Ho Ho'.
  assert (H1 : held p f o) by (apply Hh; eauto). assert (H2 : held p f o') by (apply Hh; eauto).
  unfold held in *. congruence.
Qed.

(** The names the API uses are those its environment says. *)
Lemma config_value {A} f msg (cfg : res A) p a p' : config f msg cfg p = Ok (a, p') -> cfg = Ok a.
Proof.
  unfold config, mbind, SP_bind, lift. destruct cfg as [c|e]; [|done]. simpl.
  destruct (lazily f _ p) as [[o p1]|e]; [|done]. by intros [= <- <-].
Qed.

Lemma api_names p q p' key qs p1 p1' :
  api_getQueueName env key p = Ok (q, p') -> AvailableQueues env p1 = Ok (qs, p1') ->
  q = queue_name env key /\ qs = crawl_queue_names env.
Proof.
  unfold api_getQueueName, AvailableQueues, mbind, SP_bind. intros Eq Ea.
  case_bool_decide as Hk; [|case_bool_decide as Hm].
  - destruct (getKafkaConfig env p) as [[c p2]|] eqn:Ec; [|done].
    destruct (getKafkaConfig env p1) as [[c1 p3]|] eqn:Ec1; [|done].
    injection Eq as <- _. injection Ea as <- _.
    apply config_value in Ec, Ec1. rewrite Ec in Ec1. injection Ec1 as <-.
    destruct (kafka_names env c Ec) as [Hn Hall]; [unfold broker_prefix; by rewrite Hk|by split].
  - injection Eq as <- _. injection Ea as <- _.
    assert (Hp : broker_prefix env = None) by (unfold broker_prefix; by rewrite Hm).
    unfold queue_name, crawl_queue_names. by rewrite Hp.
  - destruct (getRabbitMQConfig env p) as [[c p2]|] eqn:Ec; [|done].
    destruct (getRabbitMQConfig env p1) as [[c1 p3]|] eqn:Ec1; [|done].
    injection Eq as <- _. injection Ea as <- _.
    apply config_value in Ec, Ec1. rewrite Ec in Ec1. injection Ec1 as <-.
    destruct (rabbit_names env c Ec) as [Hn Hall]; [|by split].
    unfold broker_prefix. by rewrite !bool_decide_false.
Qed.

End Provider.
