(* ===== verification/Integrity.v ===== *)
(** * What no operation breaks

    Relations between the worlds before and after a computation, established once per statement
    and lifted through every operation of the crawl: references between rows stay valid, objects
    stay in the store, and only the handlers of messages mark a task as fetched or parsed.
    [System] builds the invariant of the whole program on them. *)

From S2P Require Import Prelude GoStrings Domain Json Converters World Sql Repos Routing Outbox.
From S2P Require Import GoUrl Scope FetchWorker Extraction ParserWorker ExportWorker JobService Scheduler.

(** ** Relations *)

Definition jobs_have_configs (d : database) : Prop :=
  forall j, j ∈ jobs d -> exists c, c ∈ configs d /\ js_JobConfigID j = Some (cs_ID c).

(** The unique keys of tasks: the identifier, and the job with the URL. *)
Definition rows_unique (l : list CrawlTaskSnapshot) : Prop :=
  NoDup (ts_ID <$> l) /\ NoDup (job_url <$> l).

(** The foreign keys of jobs and tasks, and the unique keys of tasks. *)
Definition refs_ok (d : database) : Prop :=
  tasks_have_jobs d /\ jobs_have_configs d /\ rows_unique (tasks d).

Lemma unique_sublist l l' : l' `sublist_of` l -> rows_unique l -> rows_unique l'.
Proof. intros Hs [Hi Hu]. split; (eapply sublist_NoDup; [eassumption|by apply fmap_sublist]). Qed.

Lemma unique_snoc l t :
  rows_unique l -> (forall x, x ∈ l -> ts_ID x <> ts_ID t /\ job_url x <> job_url t) ->
  rows_unique (l ++ [t]).
Proof.
  intros [Hi Hu] Ht. split; rewrite fmap_app; apply NoDup_app;
    (split; [done|]; split; [|apply NoDup_singleton]);
    intros k (x & -> & Hx)%list_elem_of_fmap E%list_elem_of_singleton; by destruct (Ht x Hx).
Qed.

(** The update of a task's row keeps the keys when the database lets it pass. *)
Lemma unique_update e d :
  rows_unique (tasks d) -> task_update_ok e d = true ->
  rows_unique (update_where (is_task (ts_ID e)) (set_task e) (tasks d)).
Proof.
  intros [Hi Hu] Hok. unfold update_where. split.
  { rewrite <- list_fmap_compose. erewrite list_fmap_ext; [exact Hi|].
    intros i r _. simpl. by destruct (is_task _ r). }
  set (g := fun r => if is_task (ts_ID e) r then set_task e r else r).
  assert (Hno : forall x y, x ∈ tasks d -> y ∈ tasks d -> is_task (ts_ID e) x = true ->
                  is_task (ts_ID e) y = false -> job_url (set_task e x) <> job_url y).
  { intros x y Hx Hy Ex Ey [= Ej Eu]. unfold task_update_ok in Hok. rewrite forallb_forall in Hok.
    specialize (Hok x (proj1 (list_elem_of_In _ _) Hx)). rewrite Ex in Hok. simpl in Hok.
    rewrite not_existsb in Hok. specialize (Hok y Hy).
    rewrite Ey, !bool_decide_eq_true_2 in Hok by congruence. done. }
  rewrite <- list_fmap_compose. apply NoDup_fmap_2_strong; [|by eapply NoDup_fmap_1].
  intros x y Hx Hy E. change (job_url (g x) = job_url (g y)) in E. unfold g in E.
  destruct (is_task (ts_ID e) x) eqn:Ex, (is_task (ts_ID e) y) eqn:Ey.
  - apply bool_decide_eq_true in Ex, Ey. eapply row_unique; [exact Hi|done..|congruence].
  - by destruct (Hno x y Hx Hy Ex Ey).
  - by destruct (Hno y x Hy Hx Ey Ex).
  - by eapply row_unique; [exact Hu|..].
Qed.

(** A task whose page was stored. *)
Definition has_page (r : CrawlTaskSnapshot) : Prop :=
  ts_Status r = TaskStatusFetched \/ ts_Status r = TaskStatusParsed.

Definition refs_kept (d d' : database) : Prop := refs_ok d -> refs_ok d'.

(** No row becomes fetched or parsed. *)
Definition no_new_page (d d' : database) : Prop :=
  refs_kept d d' /\ forall r, r ∈ tasks d' -> has_page r -> r ∈ tasks d.

#[export] Instance refs_kept_preorder : PreOrder refs_kept.
Proof. split; [intros d Hd; exact Hd|]. intros a b c Hab Hbc Ha. apply Hbc, Hab, Ha. Qed.

#[export] Instance no_new_page_preorder : PreOrder no_new_page.
Proof.
  split; [intros d; split; [reflexivity|done]|]. intros a b c [Hab Hp] [Hbc Hq]. split; [by etrans|].
  intros r Hr Hs. apply Hp; [|done]. by apply Hq.
Qed.

(** [R] between the tables, and no object is gone. *)
Definition lifted (R : database -> database -> Prop) (a b : world) : Prop :=
  R (db a) (db b) /\ forall k, is_Some (objects a !! k) -> is_Some (objects b !! k).

#[export] Instance lifted_preorder R `{!PreOrder R} : PreOrder (lifted R).
Proof.
  split; [intros a; split; [reflexivity|done]|]. intros a b c [Hab Ho] [Hbc Hp]. split; [by etrans|].
  intros k Hk. by apply Hp, Ho.
Qed.

Section Lifted.
Context `{Env} (R : database -> database -> Prop) `{!PreOrder R}.

Lemma lifted_stmt {A} (f : nat -> database -> res (A * database)) :
  (forall n d x d', f n d = Ok (x, d') -> R d d') -> keeps (lifted R) (stmt f).
Proof.
  intros Hf w. split; [by apply (keeps_db_stmt R f)|].
  destruct (quiet_stmt f w) as [Ho _]. by rewrite Ho.
Qed.

Lemma lifted_query {A} (f : nat -> database -> A) : keeps (lifted R) (query f).
Proof. apply lifted_stmt. by intros n d x d' [= _ <-]. Qed.

Lemma lifted_exec f : (forall d, R d (f d)) -> keeps (lifted R) (exec f).
Proof. intros Hf. apply lifted_stmt. intros n d x d' [= _ <-]. apply Hf. Qed.

Lemma lifted_observe {A} (f : nat -> A) : keeps (lifted R) (observe f).
Proof. by intros w. Qed.

Lemma lifted_panic {A} s : keeps (lifted R) (panic s : M A).
Proof. by intros w. Qed.

Lemma lifted_lift {A} (r : res A) : keeps (lifted R) (lift_res r).
Proof. by intros w. Qed.

Lemma lifted_call {A} (f : world -> A * world) :
  (forall w, lifted R w (f w).2) -> keeps (lifted R) (call f).
Proof.
  intros Hf w. destruct (call_out f w) as (r & w' & E & [[_ ->]| ->] & _); rewrite E; simpl; [done|].
  etrans; [|apply Hf]. done.
Qed.

Lemma lifted_Publish q m : keeps (lifted R) (Publish q m).
Proof. apply lifted_call. by intros w. Qed.

Lemma lifted_Store k v : keeps (lifted R) (Store k v).
Proof.
  apply lifted_call. intros w. split; [done|]. intros k' [x Hk']. simpl.
  destruct (decide (k = k')) as [->|]; [by rewrite lookup_insert_eq|].
  rewrite lookup_insert_ne by done. by rewrite Hk'.
Qed.

Lemma lifted_Retrieve k : keeps (lifted R) (Retrieve k).
Proof.
  unfold Retrieve. apply keeps_try; [exact _|apply lifted_call; by intros w| |].
  - intros e. apply keeps_ret. exact _.
  - intros [c|]; apply keeps_ret; exact _.
Qed.

Lemma lifted_same {A} (m : M A) : keeps same_store m -> keeps (lifted R) m.
Proof. intros Hm w. destruct (Hm w) as (Hd & _ & Ho & _). split; [by rewrite Hd|by rewrite Ho]. Qed.

(** A transaction leaves the rows as they were or as its body left them. *)
Lemma lifted_ReadCommitted {A} (fn : M (res A)) : keeps (lifted R) fn -> keeps (lifted R) (ReadCommitted fn).
Proof.
  intros Hf w. destruct (tx w) as [b|] eqn:Et; [unfold ReadCommitted; rewrite Et; apply Hf|].
  destruct (ReadCommitted_cases fn w Et) as (r & w' & E & _ & Hc). rewrite E. simpl.
  destruct Hc as [[_ ->]|(o & w1 & Ef & _ & Ho & Hc)]; [done|].
  destruct (Hf (set_tx (Some false) (tick w))) as [Hd Hob]. rewrite Ef in Hd, Hob. simpl in *.
  split; [|by rewrite Ho]. destruct Hc as [[_ ->]|(x & _ & _ & _ & ->)]; done.
Qed.

Lemma lifted_scan_one {A B} (f : nat -> database -> list A) (g : A -> res B) :
  keeps (lifted R) (scan_one f g).
Proof.
  apply keeps_try; [exact _|apply lifted_query|intros; by apply keeps_ret; exact _|].
  intros [|r l]; apply keeps_ret; exact _.
Qed.

Lemma lifted_scan_all {A B} (f : nat -> database -> list A) (g : A -> res B) :
  keeps (lifted R) (scan_all f g).
Proof.
  apply keeps_try; [exact _|apply lifted_query|intros; by apply keeps_ret; exact _|].
  intros l. apply keeps_ret; exact _.
Qed.

Lemma lifted_query_jobs `{JsonLib} f : keeps (lifted R) (query_jobs f).
Proof.
  apply keeps_try; [exact _|apply lifted_query|intros; by apply keeps_ret; exact _|].
  intros l. apply keeps_ret; exact _.
Qed.

End Lifted.

(** ** Statements *)

Lemma lifted_weaken `{Env} {A} (m : M A) : keeps (lifted no_new_page) m -> keeps (lifted refs_kept) m.
Proof. intros Hm w. destruct (Hm w) as [[Hr _] Ho]. by split. Qed.

Lemma same_rows_no_new_page d d' :
  configs d' = configs d -> jobs d' = jobs d -> tasks d' = tasks d -> no_new_page d d'.
Proof.
  intros Hc Hj Ht. split; [intros (Hf & Hg & Hn); split_and!; [| |by unfold rows_unique; rewrite Ht]|by rewrite Ht].
  - intros t. rewrite Ht, Hj. apply Hf.
  - intros j. rewrite Hj, Hc. apply Hg.
Qed.

(** Rows of jobs change, but not their identifiers; their configurations exist. *)
Lemma upd_jobs_no_new_page f d :
  (forall j, j ∈ jobs d -> exists j', j' ∈ f (jobs d) /\ js_ID j' = js_ID j) ->
  (forall j, j ∈ f (jobs d) -> j ∈ jobs d \/ (exists j0, j0 ∈ jobs d /\ js_JobConfigID j = js_JobConfigID j0)
             \/ exists c, c ∈ configs d /\ js_JobConfigID j = Some (cs_ID c)) ->
  no_new_page d (upd_jobs f d).
Proof.
  intros Hid Hcf. split; [intros (Hf & Hg & Hn); split_and!; [| |exact Hn]|by intros r].
  - intros t Ht. destruct (Hf t Ht) as (j & Hj & E). destruct (Hid j Hj) as (j' & ? & ?).
    exists j'. split; [done|congruence].
  - intros j Hj. destruct (Hcf j Hj) as [?|[(j0 & Hj0 & ->)|?]]; [by apply Hg|by apply Hg|done].
Qed.

Lemma update_jobs_no_new_page p g d :
  (forall j, js_ID (g j) = js_ID j) ->
  (forall j, j ∈ jobs d -> js_JobConfigID (g j) = js_JobConfigID j
             \/ exists c, c ∈ configs d /\ js_JobConfigID (g j) = Some (cs_ID c)) ->
  no_new_page d (upd_jobs (update_where p g) d).
Proof.
  intros Hid Hcf. apply upd_jobs_no_new_page.
  - intros j Hj. exists (if p j then g j else j). split; [|by destruct (p j)].
    apply list_elem_of_fmap. by exists j.
  - intros j (j0 & -> & Hj0)%list_elem_of_fmap. destruct (p j0); [right|by left].
    destruct (Hcf j0 Hj0) as [?|?]; [left; by exists j0|by right].
Qed.

Lemma upd_configs_no_new_page f d :
  (forall c, c ∈ configs d -> exists c', c' ∈ f (configs d) /\ cs_ID c' = cs_ID c) ->
  no_new_page d (upd_configs f d).
Proof.
  intros Hf. split; [intros (Ht & Hg & Hn); split_and!; [exact Ht| |exact Hn]|by intros r].
  intros j Hj. destruct (Hg j Hj) as (c & Hc & E). destruct (Hf c Hc) as (c' & ? & Ei).
  exists c'. split; [done|congruence].
Qed.

Lemma delete_config_no_new_page id d :
  no_new_page d
    (upd_configs (bfilter (fun c => negb (bool_decide (cs_ID c = id))))
      (delete_jobs (fun j => bool_decide (js_JobConfigID j = Some id)
                             && existsb (fun c => bool_decide (cs_ID c = id)) (configs d)) d)).
Proof.
  set (p := fun j : CrawlJobSnapshot => _). split.
  - intros (Hf & Hg & Hn). split_and!.
    + intros t Ht. simpl in Ht. apply elem_of_bfilter in Ht as [Hk Ht].
      rewrite not_existsb in Hk. destruct (Hf t Ht) as (j & Hj & E). exists j. split; [|done].
      simpl. apply elem_of_bfilter. split; [|done]. destruct (p j) eqn:Ep; [|done].
      specialize (Hk j). rewrite bool_decide_eq_false in Hk.
      destruct Hk; [by apply elem_of_bfilter|done].
    + intros j Hj. simpl in Hj. apply elem_of_bfilter in Hj as [Hk Hj].
      destruct (Hg j Hj) as (c & Hc & E). exists c. split; [|done].
      simpl. apply elem_of_bfilter. split; [|done]. case_bool_decide as Hid; [|done].
      subst p. cbv beta in Hk. rewrite E, Hid, bool_decide_eq_true_2 in Hk by done.
      assert (Hex : existsb (fun c => bool_decide (cs_ID c = id)) (configs d) = true).
      { apply existsb_exists. exists c. split; [by apply list_elem_of_In|by apply bool_decide_eq_true]. }
      by rewrite Hex in Hk.
    + eapply unique_sublist; [|exact Hn]. apply sublist_filter.
  - intros r Hr _. simpl in Hr. by apply elem_of_bfilter in Hr as [_ Hr].
Qed.

(** Task rows that are added belong to a job; the condition on pages is that of the new rows. *)
Lemma insert_tasks_refs rows d ids d' : insert_tasks rows d = Ok (ids, d') -> refs_kept d d'.
Proof.
  revert d ids. induction rows as [|t rows IH]; intros d ids E; simpl in E; [injection E as <- <-; reflexivity|].
  destruct (task_url_ok t d); [|by eapply IH].
  apply res_bind_Ok in E as ([id d1] & E1 & E). apply res_bind_Ok in E as ([ids1 d2] & E2 & E).
  injection E as _ <-. etrans; [|by eapply IH].
  destruct (insert_task_out _ _ _ _ E1) as (_ & -> & Hfresh). intros (Hf & Hg & Hn).
  split_and!; [|exact Hg|by apply unique_snoc].
  unfold insert_task in E1. apply res_bind_Ok in E1 as ([] & _ & E1).
  apply res_bind_Ok in E1 as ([] & _ & E1). apply res_bind_Ok in E1 as ([] & Ef & E1).
  intros x Hx. simpl in Hx. apply elem_of_app in Hx as [Hx| ->%list_elem_of_singleton]; [by apply Hf|].
  unfold guard_ in Ef. destruct (task_fk_ok t d) eqn:Ek; [|done]. unfold task_fk_ok in Ek.
  apply existsb_exists in Ek as (j & Hj & Ek). apply bool_decide_eq_true in Ek.
  exists j. split; [by apply list_elem_of_In|done].
Qed.

Lemma insert_tasks_no_new_page rows d ids d' :
  insert_tasks rows d = Ok (ids, d') -> Forall (fun r => ~ has_page r) rows -> no_new_page d d'.
Proof.
  intros E Hn. split; [by eapply insert_tasks_refs|].
  destruct (insert_tasks_out _ _ _ _ E) as (new & -> & Hs & _). intros r Hr Hp.
  simpl in Hr. apply elem_of_app in Hr as [Hr|Hr]; [done|]. rewrite Forall_forall in Hn.
  destruct (Hn r); [by eapply elem_of_sublist|done].
Qed.

Section Statements.
Context `{Env, JsonLib}.

Lemma insert_job_no_new_page j d id d' : insert_job j d = Ok (id, d') -> no_new_page d d'.
Proof.
  unfold insert_job. intros E. apply res_bind_Ok in E as ([] & _ & E).
  apply res_bind_Ok in E as ([] & Er & E). injection E as _ <-. apply upd_jobs_no_new_page.
  - intros x Hx. exists x. split; [|done]. apply elem_of_app. by left.
  - intros x [Hx| ->%list_elem_of_singleton]%elem_of_app; [by left|]. do 2 right. simpl.
    unfold job_refs_ok in Er. destruct (js_JobConfigID j) as [c|]; [|done].
    apply res_bind_Ok in Er as ([] & Eg & _). unfold guard_ in Eg.
    destruct (existsb _ (configs d)) eqn:Ex; [|done].
    apply existsb_exists in Ex as (r & Hr & Er). apply bool_decide_eq_true in Er.
    exists r. split; [by apply list_elem_of_In|congruence].
Qed.

Lemma update_job_no_new_page e d d' :
  (if existsb (is_job (js_ID e)) (jobs d) then
     _ ← job_refs_ok e d; Ok (tt, upd_jobs (update_where (is_job (js_ID e)) (set_job e)) d)
   else Ok (tt, d)) = Ok (tt, d') -> no_new_page d d'.
Proof.
  destruct (existsb _ _); [|intros [= <-]; reflexivity].
  intros E. apply res_bind_Ok in E as ([] & Er & E). injection E as <-.
  apply update_jobs_no_new_page; [done|]. intros j _. right. simpl.
  unfold job_refs_ok in Er. destruct (js_JobConfigID e) as [c|]; [|done].
  apply res_bind_Ok in Er as ([] & Eg & _). unfold guard_ in Eg.
  destruct (existsb _ (configs d)) eqn:Ex; [|done].
  apply existsb_exists in Ex as (r & Hr & Er). apply bool_decide_eq_true in Er.
  exists r. split; [by apply list_elem_of_In|congruence].
Qed.

Lemma nn_Config_Create c : keeps (lifted no_new_page) (Config_Create c).
Proof.
  apply keeps_try; [exact _|apply lifted_lift; exact _|intros; apply keeps_ret; exact _|]. intros s.
  apply keeps_try; [exact _| |intros; apply keeps_ret; exact _|intros; apply lifted_lift; exact _].
  apply lifted_stmt; [exact _|]. intros n d x d' E. unfold insert_config in E.
  repeat (apply res_bind_Ok in E as ([] & _ & E)). injection E as _ <-.
  apply upd_configs_no_new_page. intros k Hk. exists k. split; [|done]. apply elem_of_app. by left.
Qed.

Lemma nn_Config_Update c : keeps (lifted no_new_page) (Config_Update c).
Proof.
  apply keeps_try; [exact _|apply lifted_lift; exact _|intros; apply keeps_ret; exact _|]. intros s.
  apply lifted_stmt; [exact _|]. intros n d x d' E.
  repeat (apply res_bind_Ok in E as ([] & _ & E)). injection E as _ <-.
  apply upd_configs_no_new_page. intros k Hk.
  exists (if bool_decide (cs_ID k = cs_ID s) then set_config s k else k).
  split; [apply list_elem_of_fmap; by exists k|]. by case_bool_decide.
Qed.

Lemma nn_Config_Delete id : keeps (lifted no_new_page) (Config_Delete id).
Proof. apply lifted_exec; [exact _|]. intros d. apply delete_config_no_new_page. Qed.

Lemma nn_Job_Create j : keeps (lifted no_new_page) (Job_Create j).
Proof.
  apply keeps_try; [exact _| |intros; apply keeps_ret; exact _|intros; apply lifted_lift; exact _].
  apply lifted_stmt; [exact _|]. intros n d x d'. apply insert_job_no_new_page.
Qed.

Lemma nn_Job_Update j : keeps (lifted no_new_page) (Job_Update j).
Proof. apply lifted_stmt; [exact _|]. intros n d [] d'. apply update_job_no_new_page. Qed.

Lemma nn_Job_FailExport id : keeps (lifted no_new_page) (Job_FailExport id).
Proof.
  apply lifted_exec; [exact _|]. intros d. apply update_jobs_no_new_page; [done|].
  intros j _. by left.
Qed.

Lemma outbox_no_new_page f d : no_new_page d (upd_outbox f d).
Proof. by apply same_rows_no_new_page. Qed.

Lemma nn_Outbox_Create e : keeps (lifted no_new_page) (Outbox_Create e).
Proof.
  apply lifted_stmt; [exact _|]. intros n d x d' E. apply res_bind_Ok in E as (d1 & E & [= _ <-]).
  unfold insert_event in E. apply res_bind_Ok in E as ([] & _ & [= <-]). apply outbox_no_new_page.
Qed.

Lemma nn_Outbox_BulkCreate es : keeps (lifted no_new_page) (Outbox_BulkCreate es).
Proof.
  unfold Outbox_BulkCreate. destruct es; [apply keeps_ret; exact _|].
  apply lifted_stmt; [exact _|]. intros n d x d' E. apply res_bind_Ok in E as (d1 & E & [= _ <-]).
  apply insert_events_ok in E as ->. apply outbox_no_new_page.
Qed.

Lemma nn_Outbox_MarkAsProcessed id : keeps (lifted no_new_page) (Outbox_MarkAsProcessed id).
Proof.
  apply lifted_stmt; [exact _|]. intros n d x d' [= _ <-]. apply outbox_no_new_page.
Qed.

Lemma nn_Task_BulkCreate ts :
  Forall (fun t => Status t = TaskStatusInProgress) ts -> keeps (lifted no_new_page) (Task_BulkCreate ts).
Proof.
  intros Hs. unfold Task_BulkCreate. destruct ts as [|t ts]; [apply keeps_ret; exact _|].
  apply keeps_try; [exact _| |intros; apply keeps_ret; exact _|intros; apply lifted_lift; exact _].
  apply lifted_stmt; [exact _|]. intros n d x d' E. eapply insert_tasks_no_new_page; [exact E|].
  apply Forall_fmap. eapply Forall_impl; [exact Hs|]. intros y Hy [Hp|Hp]; simpl in Hp; by rewrite Hy in Hp.
Qed.

(** What the handlers of messages do to references. *)
Lemma rk_Task_BulkCreate ts : keeps (lifted refs_kept) (Task_BulkCreate ts).
Proof.
  unfold Task_BulkCreate. destruct ts as [|t ts]; [apply keeps_ret; exact _|].
  apply keeps_try; [exact _| |intros; apply keeps_ret; exact _|intros; apply lifted_lift; exact _].
  apply lifted_stmt; [exact _|]. intros n d x d' E. by eapply insert_tasks_refs.
Qed.

Lemma rk_Task_Update t : keeps (lifted refs_kept) (Task_Update t).
Proof.
  apply lifted_stmt; [exact _|]. intros n d x d' E. apply res_bind_Ok in E as ([] & Eg & [= _ <-]).
  intros (Hf & Hg & Hn). split_and!; [|exact Hg|].
  2:{ apply (unique_update (SaveCrawlTaskToSnapshot t)); [done|]. unfold guard_ in Eg. by destruct (task_update_ok _ d). }
  intros r (r0 & -> & Hr0)%list_elem_of_fmap.
  destruct (Hf r0 Hr0) as (j & Hj & E). exists j. split; [done|]. by destruct (is_task _ r0).
Qed.

End Statements.

Create HintDb integrity.

#[export] Hint Resolve nn_Config_Create nn_Config_Update nn_Config_Delete nn_Job_Create nn_Job_Update
  nn_Job_FailExport nn_Outbox_Create nn_Outbox_BulkCreate nn_Outbox_MarkAsProcessed
  rk_Task_BulkCreate rk_Task_Update : integrity.

(** One step of a [keeps (lifted _)] proof. *)
Ltac lifted_tac :=
  first
    [ solve [eauto with integrity nocore]
    | apply lifted_scan_one; exact _ | apply lifted_scan_all; exact _
    | apply lifted_query_jobs; exact _ | apply lifted_query; exact _
    | apply lifted_observe; exact _ | apply lifted_lift; exact _
    | apply lifted_Publish; exact _ | apply lifted_Store; exact _
    | apply lifted_Retrieve; exact _ | apply lifted_panic; exact _
    | apply lifted_ReadCommitted; [exact _|]
    | apply keeps_for_each; [exact _|exact _|intros ?]
    | apply keeps_for_all; [exact _|exact _|intros ?] ].

(** As [keeps_steps], with a plain bind before a [try]. *)
Tactic Notation "lifted_steps" tactic3(t) :=
  repeat first
    [ t
    | apply keeps_ret; exact _
    | progress cbv beta iota
    | apply keeps_bind; [exact _| |intros ?]
    | case_match ].

(** ** Operations *)

Section Operations.
Context `{Env, JsonLib}.

Lemma keeps_try_yields {A B} R `{!Transitive R} (P : A -> Prop) (m : M (res A)) (h : gerror -> M (res B)) k :
  keeps R m -> yields (fun r => forall a, r = Ok a -> P a) m ->
  (forall e, keeps R (h e)) -> (forall a, P a -> keeps R (k a)) -> keeps R (try_bind m h k).
Proof.
  intros Hm Hy Hh Hk w. unfold try_bind, mbind, M_bind. specialize (Hm w).
  destruct (m w) as [[[a|e]|s] w1] eqn:E; simpl in *; [| |done].
  - etrans; [exact Hm|]. apply Hk. by eapply Hy.
  - etrans; [exact Hm|apply Hh].
Qed.

Lemma lifted_SelectCrawlQueue R `{!PreOrder R} av ws : keeps (lifted R) (SelectCrawlQueue av ws).
Proof. unfold SelectCrawlQueue, pick_available, rand_Intn. lifted_steps lifted_tac. Qed.

Lemma lifted_new_seed R `{!PreOrder R} j q ws now s : keeps (lifted R) (new_seed j q ws now s).
Proof.
  unfold new_seed, uuid_New, time_Now.
  lifted_steps (first [apply lifted_SelectCrawlQueue; exact _|lifted_tac]).
Qed.

Definition in_progress (ts : list CrawlTask) : Prop := Forall (fun t => Status t = TaskStatusInProgress) ts.

Lemma new_seed_in_progress j q ws now s : yields (fun te => Status te.1 = TaskStatusInProgress) (new_seed j q ws now s).
Proof.
  intros a te b E. destruct (new_seed_out _ _ _ _ _ _ _ _ E) as [_ Hte].
  by destruct (Hte te eq_refl) as (? & ? & ? & ? & ->).
Qed.

Lemma seeds_in_progress jobID now seeds ts :
  Forall2 (fun seed t => exists id, t = seed_task (MkID id) jobID (SeedUrl seed) now) seeds ts ->
  in_progress ts.
Proof. induction 1 as [|s t ss ts (id & ->) _ IH]; by constructor. Qed.

Lemma nn_create_seeds j q ws now seeds : keeps (lifted no_new_page) (create_seeds j q ws now seeds).
Proof.
  induction seeds as [|s seeds IH]; cbn [create_seeds]; [apply keeps_ret; exact _|].
  apply keeps_bind; [exact _|by apply lifted_new_seed; exact _|]. intros te.
  unfold InjectTraceContext, uuid_New, time_Now. lifted_steps (first [exact IH|lifted_tac]).
Qed.

Lemma nn_create_job cmd cfg user : keeps (lifted no_new_page) (create_job cmd cfg user).
Proof.
  unfold create_job, uuid_New, time_Now.
  repeat (apply keeps_bind; [exact _|apply lifted_observe; exact _|intros ?]).
  apply keeps_try; [exact _|lifted_tac|intros; apply keeps_ret; exact _|intros ?].
  apply keeps_bind; [exact _|apply lifted_observe; exact _|intros ?].
  apply keeps_try; [exact _|lifted_tac|intros; apply keeps_ret; exact _|intros ?].
  apply keeps_bind; [exact _|apply lifted_observe; exact _|intros now].
  eapply (keeps_try_yields _ in_progress); [apply nn_create_seeds| |intros; apply keeps_ret; exact _|].
  - intros w0 r w1 E ts ->. destruct (create_seeds_ok _ _ _ _ _ _ _ _ E) as (_ & _ & _ & Hs & _).
    by eapply seeds_in_progress.
  - intros ts Hts. apply keeps_try; [exact _|by apply nn_Task_BulkCreate|intros; apply keeps_ret; exact _|].
    intros ?. apply keeps_ret; exact _.
Qed.

Lemma nn_CreateCrawlJob cmd : keeps (lifted no_new_page) (CreateCrawlJob cmd).
Proof.
  unfold CreateCrawlJob. lifted_steps (first [apply nn_create_job|lifted_tac]).
Qed.

Lemma nn_DeleteCrawlJob id : keeps (lifted no_new_page) (DeleteCrawlJob id).
Proof. unfold DeleteCrawlJob, Job_Get. lifted_steps lifted_tac. Qed.

Lemma nn_processOutboxEvents w : keeps (lifted no_new_page) (processOutboxEvents w).
Proof.
  unfold processOutboxEvents, process_batch, Outbox_FetchUnprocessedEvents, processEvent,
    publishTaskEnqueuedEvent, InjectTraceContext.
  lifted_steps lifted_tac.
Qed.

Lemma nn_recover r : keeps (lifted no_new_page) (recover r).
Proof.
  unfold recover, time_Now, InjectTraceContext, Task_ListStaleInProgress, republish.
  lifted_steps (first [apply lifted_SelectCrawlQueue; exact _|lifted_tac]).
Qed.

Lemma lifted_loadTaskResults R `{!PreOrder R} ts : keeps (lifted R) (loadTaskResults ts).
Proof.
  apply lifted_same; [exact _|]. intros w. by destruct (loadTaskResults_out ts w) as (rs & w' & -> & Hs & _).
Qed.

Lemma nn_processEligibleJobs n : keeps (lifted no_new_page) (processEligibleJobs n).
Proof.
  unfold processEligibleJobs, export_batch, Job_ListEligibleForExport, processJob, Task_ListByJob,
    generateJSONReport, generateCSVReport, failExport, time_Now.
  lifted_steps (first [apply lifted_loadTaskResults; exact _|lifted_tac]).
Qed.

End Operations.

Section Schedules.
Context `{Env, JsonLib, CronLib}.

Lemma lifted_collect_seeds R `{!PreOrder R} j q ws now seeds :
  keeps (lifted R) (collect_seeds j q ws now seeds).
Proof.
  apply lifted_same; [exact _|]. intros w. destruct (collect_seeds j q ws now seeds w) as [o b] eqn:E.
  by destruct (collect_seeds_out _ _ _ _ _ _ _ _ E) as [Hs _].
Qed.

Lemma nn_scheduled_body w c s now : keeps (lifted no_new_page) (scheduled_body w c s now).
Proof.
  unfold scheduled_body, uuid_New.
  apply keeps_try; [exact _|lifted_tac|intros; apply keeps_ret; exact _|intros ?].
  apply keeps_bind; [exact _|apply lifted_observe; exact _|intros ?].
  apply keeps_try; [exact _|lifted_tac|intros; apply keeps_ret; exact _|intros ?].
  eapply (keeps_try_yields _ (fun tes => in_progress tes.*1));
    [apply lifted_collect_seeds; exact _| |intros; apply keeps_ret; exact _|].
  - intros w0 r w1 E tes ->. destruct (collect_seeds_out _ _ _ _ _ _ _ _ E) as [_ Hr].
    destruct (Hr tes eq_refl) as [Hs _]. by eapply seeds_in_progress.
  - intros tes Hts.
    apply keeps_try; [exact _|by apply nn_Task_BulkCreate|intros; apply keeps_ret; exact _|intros ?].
    apply keeps_try; [exact _|lifted_tac|intros; apply keeps_ret; exact _|intros ?].
    apply keeps_ret; exact _.
Qed.

Lemma nn_processConfig w c : keeps (lifted no_new_page) (processConfig w c).
Proof.
  unfold processConfig, first_activation, createScheduledJob, Job_GetLatestByConfigID, query_job, time_Now.
  lifted_steps (first [apply nn_scheduled_body|lifted_tac]).
Qed.

Lemma nn_schedule_pages fuel w : forall offset, keeps (lifted no_new_page) (schedule_pages fuel w offset).
Proof.
  induction fuel as [|fuel IH]; intros offset; cbn [schedule_pages]; [apply keeps_ret; exact _|].
  unfold Config_ListAllScheduled.
  lifted_steps (first [apply nn_processConfig|apply IH|lifted_tac]).
Qed.

Lemma nn_processSchedules w : keeps (lifted no_new_page) (processSchedules w).
Proof. intros a. apply nn_schedule_pages. Qed.

End Schedules.

(** ** Handlers of messages *)

Section Handlers.
Context `{FetchServices, RegexpLib, JsonLib}.

Lemma rk_fail_task t reason : keeps (lifted refs_kept) (fail_task t reason).
Proof. unfold fail_task. lifted_steps lifted_tac. Qed.

Lemma rk_store_and_publish w m t f : keeps (lifted refs_kept) (store_and_publish w m t f).
Proof. unfold store_and_publish, time_Now, InjectTraceContext. lifted_steps lifted_tac. Qed.

Lemma rk_fetch_page w m t c : keeps (lifted refs_kept) (fetch_page w m t c).
Proof.
  unfold fetch_page. apply keeps_try; [exact _|apply lifted_same; [exact _|apply fetcher_keeps]| |].
  - intros e. destruct (isPermanent e || retriesExhausted e); [apply rk_fail_task|apply keeps_ret; exact _].
  - intros r. apply rk_store_and_publish.
Qed.

Lemma rk_process_task w m t c : keeps (lifted refs_kept) (process_task w m t c).
Proof.
  unfold process_task. destruct (Validate _ _ _) as [[]|e]; [|apply rk_fail_task].
  apply keeps_bind; [exact _|apply lifted_same; [exact _|apply robots_ok_keeps]|]. intros ok.
  destruct (negb ok); [apply rk_fail_task|].
  apply keeps_try; [exact _|apply lifted_lift; exact _|intros; apply keeps_ret; exact _|]. intros h.
  apply keeps_try; [exact _|apply lifted_same; [exact _|apply wait_rate_keeps]| |];
    [intros; apply keeps_ret; exact _|intros ?; apply rk_fetch_page].
Qed.

Lemma rk_fetch_message w body : keeps (lifted refs_kept) (FetchWorker.handleMessage w body).
Proof.
  unfold FetchWorker.handleMessage, Task_Get, Config_Get.
  lifted_steps (first [apply rk_process_task|lifted_tac]).
Qed.

End Handlers.

Section ParsingHandler.
Context `{RobotsTxtService, RegexpLib, JsonLib, HtmlLib, MapOrder}.

Lemma rk_publish_inserted w c all ids : keeps (lifted refs_kept) (publish_inserted w c all ids).
Proof.
  unfold publish_inserted, InjectTraceContext.
  lifted_steps (first [apply lifted_SelectCrawlQueue; exact _|lifted_tac]).
Qed.

Lemma rk_persist t k n all : keeps (lifted refs_kept) (persist t k n all).
Proof. unfold persist, time_Now. lifted_steps lifted_tac. Qed.

Lemma rk_upload id url res : keeps (lifted refs_kept) (uploadResultToS3 id url res).
Proof. unfold uploadResultToS3, InjectTraceContext. lifted_steps lifted_tac. Qed.

Lemma rk_parse_page w id t c html : keeps (lifted refs_kept) (parse_page w id t c html).
Proof.
  unfold parse_page. destruct (extractData _ _ _) as [res|e]; [|apply rk_fail_task].
  apply keeps_try; [exact _|apply rk_upload|intros; apply rk_fail_task|]. intros stored.
  apply keeps_bind; [exact _|apply lifted_same; [exact _|apply prepare_links_keeps]|]. intros all.
  apply keeps_try; [exact _|apply rk_persist|intros; apply rk_fail_task|]. intros ids.
  apply keeps_bind; [exact _|apply rk_publish_inserted|]. intros ?. apply keeps_ret; exact _.
Qed.

Lemma rk_parsing_message w body : keeps (lifted refs_kept) (ParserWorker.handleMessage w body).
Proof.
  unfold ParserWorker.handleMessage, Task_Get, Job_Get, query_job, Config_Get.
  lifted_steps (first [apply rk_parse_page|lifted_tac]).
Qed.

End ParsingHandler.

(** ** Reads of rows that are there *)

(** An error that is not "no rows". *)
Definition plain {A} (r : res A) : Prop := forall e, r = Err e -> errors_Is e "pgx.ErrNoRows" = false.

Lemma plain_ok {A} (a : A) : plain (Ok a).
Proof. by intros e ?. Qed.

Lemma plain_new {A} s : plain (Err (ENew s) : res A).
Proof. by intros e [= <-]. Qed.

Lemma plain_bind {A B} (r : res A) (f : A -> res B) : plain r -> (forall a, plain (f a)) -> plain (r ≫= f).
Proof. intros Hr Hf. destruct r as [a|e]; [apply Hf|]. intros e' [= <-]. by apply Hr. Qed.

Lemma plain_map_res {A B} (f : A -> res B) l : (forall x, plain (f x)) -> plain (map_res f l).
Proof.
  intros Hf. induction l as [|x l IH]; [apply plain_ok|]. apply plain_bind; [apply Hf|]. intros y.
  apply plain_bind; [exact IH|]. intros ys. apply plain_ok.
Qed.

#[export] Hint Resolve plain_ok plain_new plain_map_res : integrity.

(** Descends through a decoder to its errors. *)
Ltac plain_tac :=
  repeat first
    [ solve [eauto with integrity nocore]
    | progress cbv beta iota
    | apply plain_bind; [|intros ?]
    | apply plain_map_res; intros ?
    | case_match ].

Section Decoders.
Context `{UuidLib, JsonLib}.

Lemma plain_list {A} (f : json -> res A) j : (forall x, plain (f x)) -> plain (list_of_json f j).
Proof. intros Hf. unfold list_of_json, type_error. plain_tac. Qed.

Lemma plain_field j : plain (field_of_json j).
Proof.
  unfold field_of_json, extractor_of_json, as_object, get_string, get_bool, type_error.
  plain_tac. all: apply plain_list; intros x; unfold transform_of_json, as_object, get_string, type_error; plain_tac.
Qed.

Lemma plain_spec j : plain (spec_of_json j).
Proof.
  unfold spec_of_json, as_object, type_error.
  plain_tac; try (apply plain_list; intros x; try apply plain_field).
  all: unfold pagination_of_json, items_of_json, as_object, get_string, get_bool, type_error; plain_tac.
  all: apply plain_list; intros ?; apply plain_field.
Qed.

Lemma plain_scopes j : plain (scopes_of_json j).
Proof.
  unfold scopes_of_json, as_object, get_uint, type_error. plain_tac.
  all: apply plain_list; intros x; unfold string_of_json, type_error; plain_tac.
Qed.

Lemma plain_restore_part {A} n (dec : json -> res A) c : (forall j, plain (dec j)) -> plain (restore_part n dec c).
Proof.
  intros Hd. unfold restore_part. destruct (dec (of_column c)) as [a|e] eqn:E; [apply plain_ok|].
  intros e' [= <-]. simpl. by apply (Hd (of_column c)).
Qed.

Lemma plain_NewID s : plain (NewID s).
Proof. unfold NewID. repeat case_match; [by intros e [= <-]..|apply plain_ok]. Qed.

Lemma plain_parse_id w s : plain (parse_id w s).
Proof.
  unfold parse_id. destruct (NewID s) as [i|e] eqn:E; [apply plain_ok|].
  intros e' [= <-]. simpl. by apply (plain_NewID s).
Qed.

Ltac decoder := unfold rate_of_json, retry_of_json, auth_of_json, schedule_of_json, seed_of_json,
  weight_of_json, time_ptr_of_json, get_float, get_uint, get_string, as_object, type_error; plain_tac.

Lemma plain_seed j : plain (seed_of_json j).
Proof. decoder. Qed.
Lemma plain_rate j : plain (rate_of_json j).
Proof. decoder. Qed.
Lemma plain_retry j : plain (retry_of_json j).
Proof. decoder. Qed.
Lemma plain_auth j : plain (auth_of_json j).
Proof. decoder. Qed.
Lemma plain_schedule j : plain (schedule_of_json j).
Proof. decoder. Qed.
Lemma plain_weight j : plain (weight_of_json j).
Proof. decoder. Qed.

Lemma plain_weights c : plain (restore_weights c).
Proof.
  unfold restore_weights. repeat case_match; try apply plain_ok.
  all: apply plain_restore_part; intros k; apply plain_list; intros x; apply plain_weight.
Qed.

Lemma plain_config s : plain (RestoreCrawlJobConfigFromSnapshot s).
Proof.
  unfold RestoreCrawlJobConfigFromSnapshot.
  apply plain_bind; [apply plain_parse_id|intros ?].
  apply plain_bind; [destruct (cs_UserID s); [apply plain_parse_id|apply plain_ok]|intros ?].
  apply plain_bind; [apply plain_restore_part, plain_spec|intros ?].
  apply plain_bind; [apply plain_restore_part, plain_scopes|intros ?].
  apply plain_bind; [apply plain_restore_part; intros j; apply plain_list, plain_seed|intros ?].
  apply plain_bind; [apply plain_restore_part, plain_rate|intros ?].
  apply plain_bind; [apply plain_restore_part, plain_retry|intros ?].
  apply plain_bind; [apply plain_restore_part, plain_auth|intros ?].
  apply plain_bind; [apply plain_restore_part, plain_schedule|intros ?].
  apply plain_bind; [apply plain_weights|intros ?]. apply plain_ok.
Qed.

Lemma plain_crawl_id s : plain (NewCrawlJobID s).
Proof. apply plain_bind; [apply plain_NewID|intros ?; apply plain_ok]. Qed.

Lemma plain_job s : plain (RestoreCrawlJobFromSnapshot s).
Proof.
  unfold RestoreCrawlJobFromSnapshot.
  apply plain_bind; [apply plain_crawl_id|intros ?].
  apply plain_bind; [destruct (js_JobConfigID s); [apply plain_NewID|apply plain_ok]|intros ?].
  apply plain_bind; [destruct (js_UserID s); [apply plain_crawl_id|apply plain_ok]|intros ?].
  apply plain_bind; [|intros ?; apply plain_ok].
  destruct (js_JobConfig s); [|apply plain_ok].
  apply plain_bind; [apply plain_config|intros ?; apply plain_ok].
Qed.

Lemma plain_task s : plain (RestoreCrawlTaskWithJobFromSnapshot s).
Proof.
  unfold RestoreCrawlTaskWithJobFromSnapshot.
  apply plain_bind; [apply plain_NewID|intros ?].
  apply plain_bind; [apply plain_crawl_id|intros ?].
  apply plain_bind; [|intros ?; apply plain_ok].
  destruct (tj_Job s); [|apply plain_ok]. apply plain_bind; [apply plain_job|intros ?; apply plain_ok].
Qed.

End Decoders.

(** The database does not report "no rows" for a failure of its own. *)
Definition faults_plain `{Env} : Prop :=
  forall n, match verdict_at n with
            | Succeeds => True
            | FailsBefore e | FailsAfter e => errors_Is e "pgx.ErrNoRows" = false
            end.

Section Found.
Context `{Env, JsonLib} (Hplain : faults_plain).

Lemma query_plain {A} (f : nat -> database -> A) w e w' :
  query f w = (Ret (Err e), w') -> errors_Is e "pgx.ErrNoRows" = false.
Proof.
  unfold query, stmt. simpl. generalize (Hplain (ticks w)).
  destruct (tx w) as [[]|]; [|destruct (verdict_at (ticks w))..]; intros Hp E; by simplify_eq/=.
Qed.

Lemma limit_one_nil {A} (l : list A) : limit_rows 1 l = [] -> l = [].
Proof. by destruct l. Qed.

(** A row that is there is found, or the error is another one. *)
Lemma scan_one_found {A B} (f : nat -> database -> list A) (g : A -> res B) w e w' :
  (forall x, plain (g x)) -> f (ticks w) (db w) <> [] ->
  scan_one f g w = (Ret (Err e), w') -> errors_Is e "pgx.ErrNoRows" = false.
Proof.
  intros Hg Hf E. unfold scan_one in E. destruct (try_inv _ _ _ _ _ _ E) as [(rows & w1 & E1 & E2)|(e1 & w1 & E1 & E2)].
  - apply query_ok in E1 as (_ & -> & _). destruct (f (ticks w) (db w)) as [|x l]; [done|].
    injection E2 as E2 _. by apply (Hg x).
  - injection E2 as <- <-. by eapply query_plain.
Qed.

Lemma Task_Get_found id r a e b :
  refs_ok (db a) -> r ∈ tasks (db a) -> ts_ID r = value id ->
  Task_Get id a = (Ret (Err e), b) -> errors_Is e "pgx.ErrNoRows" = false.
Proof.
  intros (Hf & _) Hr Hid. apply scan_one_found; [intros x; apply plain_task|].
  destruct (Hf r Hr) as (j & Hj & Ej). intros E.
  assert (Hin : scanCrawlTaskWithJob r j ∈
    (t ← bfilter (fun t => bool_decide (ts_ID t = value id)) (tasks (db a));
     scanCrawlTaskWithJob t <$> bfilter (fun j => bool_decide (js_ID j = ts_JobID t)) (jobs (db a)))).
  { apply list_elem_of_bind. exists r. split.
    - apply list_elem_of_fmap. exists j. split; [done|]. apply elem_of_bfilter.
      split; [by apply bool_decide_eq_true|done].
    - apply elem_of_bfilter. split; [by apply bool_decide_eq_true|done]. }
  unfold tasks_with_job in E. rewrite (limit_one_nil _ E) in Hin. by inversion Hin.
Qed.

Lemma Job_Get_found id j a e b :
  j ∈ jobs (db a) -> js_ID j = value id ->
  Job_Get id a = (Ret (Err e), b) -> errors_Is e "pgx.ErrNoRows" = false.
Proof.
  intros Hj Hid. apply scan_one_found.
  - intros x. apply plain_bind; [|intros ?; apply plain_job].
    unfold scanCrawlJobWithConfig. destruct x.2; [apply plain_ok|apply plain_new].
  - intros E. apply fmap_nil_inv, limit_one_nil in E.
    assert (Hin : j ∈ bfilter (is_job (value id)) (jobs (db a))).
    { apply elem_of_bfilter. split; [by apply bool_decide_eq_true|done]. }
    rewrite E in Hin. by inversion Hin.
Qed.

Lemma Config_Get_found id c a e b :
  c ∈ configs (db a) -> cs_ID c = value id ->
  Config_Get id a = (Ret (Err e), b) -> errors_Is e "pgx.ErrNoRows" = false.
Proof.
  intros Hc Hid. apply scan_one_found; [intros x; apply plain_config|]. intros E.
  apply limit_one_nil in E.
  assert (Hin : c ∈ bfilter (fun c => bool_decide (cs_ID c = value id)) (configs (db a))).
  { apply elem_of_bfilter. split; [by apply bool_decide_eq_true|done]. }
  rewrite E in Hin. by inversion Hin.
Qed.

(** The configuration of a job that was read. *)
Lemma restored_job_config s j c :
  RestoreCrawlJobFromSnapshot s = Ok j -> js_JobConfigID s = Some c -> value (JobConfigID j) = c.
Proof.
  unfold RestoreCrawlJobFromSnapshot. intros E Hc. rewrite Hc in E.
  apply res_bind_Ok in E as (i & _ & E). apply res_bind_Ok in E as (ci & Ei & E).
  repeat (apply res_bind_Ok in E as (? & _ & E)). injection E as <-. simpl.
  by destruct (NewID_ok _ _ Ei) as (-> & _).
Qed.

Lemma Task_Get_config id t j a b :
  tx a = None -> refs_ok (db a) -> Task_Get id a = (Ret (Ok t), b) -> Job t = Some j ->
  same_store a b /\ exists c, c ∈ configs (db a) /\ cs_ID c = value (JobConfigID j).
Proof.
  intros Ht (_ & Hg & _) E Hj. unfold Task_Get in E.
  destruct (scan_one_out (fun _ d => tasks_with_job (value id) d)
              RestoreCrawlTaskWithJobFromSnapshot a Ht) as (r & b' & E' & Hs & Hr).
  rewrite E in E'. injection E' as <- <-. split; [done|].
  destruct (Hr t eq_refl) as (row & Hh & Er).
  unfold tasks_with_job in Hh. apply head_Some_elem_of, elem_of_limit_rows in Hh.
  apply list_elem_of_bind in Hh as (r & Hrow & _). apply list_elem_of_fmap in Hrow as (jr & -> & Hjr).
  apply elem_of_bfilter in Hjr as [_ Hjr]. destruct (Hg jr Hjr) as (c & Hc & Ec).
  exists c. split; [done|]. unfold RestoreCrawlTaskWithJobFromSnapshot in Er. simpl in Er.
  apply res_bind_Ok in Er as (i & _ & Er). apply res_bind_Ok in Er as (ji & _ & Er).
  apply res_bind_Ok in Er as (k & Ek & Er). injection Er as <-. simpl in Hj. subst k.
  apply res_bind_Ok in Ek as (k & Ek & [= ->]). symmetry. by eapply restored_job_config.
Qed.

Lemma Job_Get_config id j a b :
  tx a = None -> refs_ok (db a) -> Job_Get id a = (Ret (Ok j), b) ->
  same_store a b /\ exists c, c ∈ configs (db a) /\ cs_ID c = value (JobConfigID j).
Proof.
  intros Ht (_ & Hg & _) E. unfold Job_Get, query_job in E.
  match type of E with scan_one ?f ?g _ = _ => destruct (scan_one_out f g a Ht) as (r & b' & E' & Hs & Hr) end.
  rewrite E in E'. injection E' as <- <-. split; [done|].
  destruct (Hr j eq_refl) as (row & Hh & Er).
  apply head_Some_elem_of, list_elem_of_fmap in Hh as (jr & -> & Hjr).
  apply elem_of_limit_rows, elem_of_bfilter in Hjr as [_ Hjr]. destruct (Hg jr Hjr) as (c & Hc & Ec).
  exists c. split; [done|]. apply res_bind_Ok in Er as (s & Es & Er).
  unfold scanCrawlJobWithConfig, join_config in Es. simpl in Es.
  destruct (job_config_row (db a) jr); [|done]. injection Es as <-.
  symmetry. by eapply restored_job_config.
Qed.

(** What is referred to is not missing. *)
Lemma row_not_gone id r a e :
  tx a = None -> refs_ok (db a) -> r ∈ tasks (db a) -> ts_ID r = id -> ~ task_gone id a e.
Proof.
  intros Ht Hr Hin Hid (He & a1 & Hs & Hg). pose proof (tx_same _ _ Hs Ht) as Ht1.
  destruct Hs as (Hd & _). rewrite <- Hd in Hr, Hin.
  destruct Hg as [(a2 & E)|(t & j & a2 & a3 & E & Hj & E2)].
  - by rewrite (Task_Get_found (MkID id) r _ _ _ Hr Hin Hid E) in He.
  - destruct (Task_Get_config _ _ _ _ _ Ht1 Hr E Hj) as [(Hd2 & _) (c & Hc & Hi)].
    rewrite <- Hd2 in Hc. by rewrite (Config_Get_found _ _ _ _ _ Hc Hi E2) in He.
Qed.

Lemma page_not_gone id r a e :
  tx a = None -> refs_ok (db a) -> r ∈ tasks (db a) -> ts_ID r = id -> ~ page_gone id a e.
Proof.
  intros Ht Hr Hin Hid (He & a1 & Hs & Hg). pose proof (tx_same _ _ Hs Ht) as Ht1.
  destruct Hs as (Hd & _). rewrite <- Hd in Hr, Hin.
  destruct Hg as [(a2 & E)|(t & a2 & E & Hg)].
  { by rewrite (Task_Get_found (MkID id) r _ _ _ Hr Hin Hid E) in He. }
  destruct (Task_Get_id _ _ _ _ E Ht1) as (_ & _ & Hrow). unfold is_row in Hrow.
  assert (Hs2 : same_store a1 a2).
  { destruct (Task_Get_runs (MkID id) a1 Ht1) as (x & b' & E' & Hs2 & _). rewrite E in E'.
    by injection E' as _ <-. }
  pose proof (tx_same _ _ Hs2 Ht1) as Ht2. destruct Hs2 as (Hd2 & _). rewrite <- Hd2 in Hr, Hrow.
  destruct Hg as [(a3 & E2)|(j & a3 & a4 & E2 & E3)].
  - destruct Hr as (Hf & _). destruct (Hf _ Hrow) as (jr & Hjr & Hji). simpl in Hji.
    by rewrite (Job_Get_found _ _ _ _ _ Hjr Hji E2) in He.
  - destruct (Job_Get_config _ _ _ _ Ht2 Hr E2) as [(Hd3 & _) (c & Hc & Hi)].
    rewrite <- Hd3 in Hc. by rewrite (Config_Get_found _ _ _ _ _ Hc Hi E3) in He.
Qed.

End Found.
