(* ===== verification/Relational.v ===== *)
(** * SQL statements over untyped tables

    What the statements of the repositories mean to PostgreSQL, column by column: data, the tables
    the migrations build, conditions in three-valued logic with correlated subqueries, joins,
    sorting, constraints and cascades.  [Schema] instantiates it with the migrations, [Statements]
    writes the statements of the repositories in it and relates them to [Repos].  Lengths of
    VARCHAR columns and the precision of timestamps are not modelled. *)

From S2P Require Import Prelude GoStrings Domain Json Converters World Sql.

(** ** Data *)

Inductive datum :=
| DNull
| DText (s : string)
| DInt (z : Z)
| DTime (t : Z)
| DBool (b : bool)
| DJson (j : json)
| DBytes (s : string).

(** A row names its data; a database names its tables. *)
Notation row := (list (string * datum)) (only parsing).
Notation tables := (list (string * list (list (string * datum)))) (only parsing).

Fixpoint named {A} (k : string) (l : list (string * A)) : option A :=
  match l with
  | [] => None
  | (k', a) :: l => if String.eqb k k' then Some a else named k l
  end.

Fixpoint set_named {A} (k : string) (a : A) (l : list (string * A)) : list (string * A) :=
  match l with
  | [] => []
  | (k', b) :: l => if String.eqb k k' then (k', a) :: l else (k', b) :: set_named k a l
  end.

Definition col (r : row) (c : string) : datum := default DNull (named c r).
Definition rows (d : tables) (t : string) : list row := default [] (named t d).

(** ** Tables *)

Inductive column_type := VARCHAR | BIGINT | TIMESTAMP | BOOLEAN | JSONB | BYTEA.

(** [Computed]: a default the server computes; every INSERT gives these columns. *)
Inductive column_default := NoDefault | Constant (v : datum) | Computed.

Record column := {
  c_name : string; c_type : column_type; c_null : bool; c_default : column_default }.

Inductive on_delete := Cascade | SetNull.

Record foreign_key := {
  fk_name : string; fk_column : string; fk_table : string; fk_references : string;
  fk_delete : on_delete }.

(** [t_checks]: the values a column may have. *)
Record table := {
  t_columns : list column; t_unique : list (string * list string);
  t_foreign : list foreign_key; t_checks : list (string * string * list string) }.

Notation schema := (list (string * table)) (only parsing).

Definition set_columns (f : list column -> list column) (t : table) : table :=
  {| t_columns := f (t_columns t); t_unique := t_unique t; t_foreign := t_foreign t;
     t_checks := t_checks t |}.
Definition set_unique (f : list (string * list string) -> list (string * list string)) (t : table)
  : table :=
  {| t_columns := t_columns t; t_unique := f (t_unique t); t_foreign := t_foreign t;
     t_checks := t_checks t |}.
Definition set_foreign (f : list foreign_key -> list foreign_key) (t : table) : table :=
  {| t_columns := t_columns t; t_unique := t_unique t; t_foreign := f (t_foreign t);
     t_checks := t_checks t |}.
Definition set_checks (f : list (string * string * list string) ->
  list (string * string * list string))
    (t : table) : table :=
  {| t_columns := t_columns t; t_unique := t_unique t; t_foreign := t_foreign t;
     t_checks := f (t_checks t) |}.

(** A migration is a list of these; an index that is not unique changes nothing. *)
Inductive ddl :=
| CREATE_TABLE (t : string) (tab : table)
| ADD_COLUMN (t : string) (c : column)
| DROP_COLUMN (t : string) (c : string)
| ADD_UNIQUE (t : string) (name : string) (cs : list string)
| DROP_INDEX (name : string)
| ADD_FOREIGN_KEY (t : string) (fk : foreign_key)
| ADD_CHECK (t : string) (name c : string) (vs : list string).

Definition on_table (t : string) (f : table -> table) (s : schema) : schema :=
  (fun p => if String.eqb t p.1 then (p.1, f p.2) else p) <$> s.

Definition apply_ddl (s : schema) (x : ddl) : schema :=
  match x with
  | CREATE_TABLE t tab => s ++ [(t, tab)]
  | ADD_COLUMN t c => on_table t (set_columns (fun l => l ++ [c])) s
  | DROP_COLUMN t c => on_table t (set_columns (bfilter (fun x => negb (String.eqb c (c_name x)))))
    s
  | ADD_UNIQUE t name cs => on_table t (set_unique (fun l => l ++ [(name, cs)])) s
  | DROP_INDEX name =>
      (fun p => (p.1, set_unique (bfilter (fun x => negb (String.eqb name x.1))) p.2)) <$> s
  | ADD_FOREIGN_KEY t fk => on_table t (set_foreign (fun l => l ++ [fk])) s
  | ADD_CHECK t name c vs => on_table t (set_checks (fun l => l ++ [(name, c, vs)])) s
  end.

(** ** Three-valued logic *)

Definition not3 (a : option bool) : option bool := negb <$> a.
Definition and3 (a b : option bool) : option bool :=
  match a, b with
  | Some false, _ | _, Some false => Some false
  | Some true, Some true => Some true
  | _, _ => None
  end.
Definition or3 (a b : option bool) : option bool := not3 (and3 (not3 a) (not3 b)).

(** A row is kept where the condition is true, not where it is unknown. *)
Definition is_true (a : option bool) : bool := match a with Some b => b | None => false end.

Definition eq3 (a b : datum) : option bool :=
  match a, b with
  | DText x, DText y => Some (bool_decide (x = y))
  | DInt x, DInt y | DTime x, DTime y => Some (x =? y)
  | DBool x, DBool y => Some (Bool.eqb x y)
  | DBytes x, DBytes y => Some (bool_decide (x = y))
  | _, _ => None
  end.
Definition lt3 (a b : datum) : option bool :=
  match a, b with
  | DText x, DText y => Some (text_lt x y)
  | DInt x, DInt y | DTime x, DTime y => Some (x <? y)
  | _, _ => None
  end.

Inductive comparator := EQ | NE | LT | LE | GT | GE.

Definition compare3 (op : comparator) (a b : datum) : option bool :=
  match op with
  | EQ => eq3 a b
  | NE => not3 (eq3 a b)
  | LT => lt3 a b
  | LE => not3 (lt3 b a)
  | GT => lt3 b a
  | GE => not3 (lt3 a b)
  end.

(** [(a, b) op (c, d)] for [<] and [>]. *)
Definition pair3 (op : comparator) (a b c d : datum) : option bool :=
  or3 (compare3 op a c) (and3 (eq3 a c) (compare3 op b d)).

(** ** Statements *)

(** The alias is empty when there is none; [c1 = c2] is the condition of a join. *)
Inductive source :=
| From (t alias : string)
| InnerJoin (s : source) (t alias c1 c2 : string)
| LeftJoin (s : source) (t alias c1 c2 : string).

Inductive condition :=
| Compare (op : comparator) (c : string) (v : datum)
| CompareColumns (op : comparator) (c c' : string)
| ComparePair (op : comparator) (c c' : string) (v v' : datum)
| IS_NULL (c : string)
| IS_NOT_NULL (c : string)
| IN_LIST (c : string) (vs : list datum)
| NOT_IN (c : string) (vs : list datum)
| ILIKE (c pattern : string)
| OR (a b : condition)
| AND (l : list condition)
| EXISTS (s : source) (w : condition)
| NOT_EXISTS (s : source) (w : condition).

(** squirrel's [sq.Eq] and [sq.NotEq] with a nil argument. *)
Definition sq_Eq (c : string) (v : datum) : condition :=
  match v with DNull => IS_NULL c | _ => Compare EQ c v end.
Definition sq_NotEq (c : string) (v : datum) : condition :=
  match v with DNull => IS_NOT_NULL c | _ => Compare NE c v end.

(** Each column with the name it has in the result; [sel_lock] is the column that identifies the rows
    of FOR UPDATE SKIP LOCKED. *)
Record select_stmt := {
  sel_columns : list (string * string); sel_from : source; sel_where : condition;
  sel_order : list (string * bool); sel_limit : option Z; sel_offset : option Z;
  sel_lock : option string }.

(** [ins_conflict]: ON CONFLICT (columns) DO NOTHING. *)
Record insert_stmt := {
  ins_into : string; ins_columns : list string; ins_values : list (list datum);
  ins_conflict : option (list string) }.

(** [NOW]: the expression of SQL. *)
Inductive assigned := Arg (v : datum) | NOW.

Record update_stmt := {
  upd_table : string; upd_set : list (string * assigned); upd_where : condition }.

Record delete_stmt := { del_from : string; del_where : condition }.

(** ** Rows of a source *)

Definition qualify (alias : string) (r : row) : row :=
  if String.eqb alias "" then r else (fun p => (alias +:+ "." +:+ p.1, p.2)) <$> r.

Definition table_of (sch : schema) (t : string) : table :=
  default {| t_columns := []; t_unique := []; t_foreign := []; t_checks := [] |} (named t sch).
Definition null_row (tab : table) : row := (fun c => (c_name c, DNull)) <$> t_columns tab.

Definition join_on (c1 c2 : string) (r : row) : bool := is_true (eq3 (col r c1) (col r c2)).
Definition inner_rows (c1 c2 : string) (l : list row) (r : row) : list row :=
  bfilter (join_on c1 c2) (app r <$> l).

Fixpoint rows_of (sch : schema) (d : tables) (s : source) : list row :=
  match s with
  | From t a => qualify a <$> rows d t
  | InnerJoin s t a c1 c2 =>
      r ← rows_of sch d s; inner_rows c1 c2 (qualify a <$> rows d t) r
  | LeftJoin s t a c1 c2 =>
      r ← rows_of sch d s;
      match inner_rows c1 c2 (qualify a <$> rows d t) r with
      | [] => [r ++ qualify a (null_row (table_of sch t))]
      | l => l
      end
  end.

Definition in3 (v : datum) (vs : list datum) : option bool :=
  foldr (fun x => or3 (eq3 v x)) (Some false) vs.

(** The row of a subquery comes before that of the query around it. *)
Fixpoint holds (sch : schema) (d : tables) (env : row) (c : condition) : option bool :=
  match c with
  | Compare op c v => compare3 op (col env c) v
  | CompareColumns op c c' => compare3 op (col env c) (col env c')
  | ComparePair op c c' v v' => pair3 op (col env c) (col env c') v v'
  | IS_NULL c => Some match col env c with DNull => true | _ => false end
  | IS_NOT_NULL c => Some match col env c with DNull => false | _ => true end
  | IN_LIST c vs => in3 (col env c) vs
  | NOT_IN c vs => not3 (in3 (col env c) vs)
  | ILIKE c p => match col env c with DText s => Some (ilike p s) | _ => None end
  | OR a b => or3 (holds sch d env a) (holds sch d env b)
  | AND l => foldr (fun c => and3 (holds sch d env c)) (Some true) l
  | EXISTS s w => Some (existsb (fun r => is_true (holds sch d (r ++ env) w)) (rows_of sch d s))
  | NOT_EXISTS s w =>
      Some (negb (existsb (fun r => is_true (holds sch d (r ++ env) w)) (rows_of sch d s)))
  end.

(** ** Columns that exist *)

Definition qualified (alias c : string) : string :=
  if String.eqb alias "" then c else alias +:+ "." +:+ c.

Definition mem (c : string) (l : list string) : bool := existsb (String.eqb c) l.

Fixpoint source_columns (sch : schema) (s : source) : list string :=
  match s with
  | From t a => (fun c => qualified a (c_name c)) <$> t_columns (table_of sch t)
  | InnerJoin s t a _ _ | LeftJoin s t a _ _ =>
      source_columns sch s ++ ((fun c => qualified a (c_name c)) <$> t_columns (table_of sch t))
  end.

Fixpoint source_ok (sch : schema) (s : source) : bool :=
  match s with
  | From t a => mem t sch.*1
  | InnerJoin s' t a c1 c2 | LeftJoin s' t a c1 c2 =>
      source_ok sch s' && mem t sch.*1
      && mem c1 (source_columns sch s) && mem c2 (source_columns sch s)
  end.

Fixpoint condition_ok (sch : schema) (cs : list string) (c : condition) : bool :=
  match c with
  | Compare _ c _ | IS_NULL c | IS_NOT_NULL c | IN_LIST c _ | NOT_IN c _ | ILIKE c _ => mem c cs
  | CompareColumns _ c c' | ComparePair _ c c' _ _ => mem c cs && mem c' cs
  | OR a b => condition_ok sch cs a && condition_ok sch cs b
  | AND l => forallb (condition_ok sch cs) l
  | EXISTS s w | NOT_EXISTS s w =>
      source_ok sch s && condition_ok sch (source_columns sch s ++ cs) w
  end.

Definition select_ok (sch : schema) (s : select_stmt) : bool :=
  let cs := source_columns sch (sel_from s) in
  source_ok sch (sel_from s) && forallb (fun c => mem c.1 cs) (sel_columns s)
  && condition_ok sch cs (sel_where s) && forallb (fun k => mem k.1 cs) (sel_order s)
  && match sel_lock s with None => true | Some c => mem c cs end.

Definition undefined : gerror := ENew "ERROR: column or relation does not exist (SQLSTATE 42703)".

(** ** SELECT *)

(** NULL comes last, and first in a descending order. *)
Definition datum_le (a b : datum) : bool :=
  match a, b with
  | _, DNull => true
  | DNull, _ => false
  | DText x, DText y => text_le x y
  | DInt x, DInt y | DTime x, DTime y => x <=? y
  | _, _ => true
  end.

Fixpoint order_le (ks : list (string * bool)) (a b : row) : bool :=
  match ks with
  | [] => true
  | (c, asc) :: ks =>
      let '(x, y) := if asc : bool then (col a c, col b c) else (col b c, col a c) in
      if datum_le x y then (if datum_le y x then order_le ks a b else true) else false
  end.

Definition sort_rows (ks : list (string * bool)) (l : list row) : list row :=
  match ks with [] => l | _ => order_by (order_le ks) l end.

Definition unlocked (lock : option string) (locked : string -> bool) (r : row) : bool :=
  match lock with
  | None => true
  | Some c => match col r c with DText i => negb (locked i) | _ => true end
  end.

Definition cut {A} (n : option Z) (f : Z -> list A -> list A) (l : list A) : list A :=
  match n with None => l | Some n => f n l end.

Definition selected (sch : schema) (locked : string -> bool) (d : tables) (s : select_stmt)
  : list row :=
  cut (sel_limit s) limit_rows (cut (sel_offset s) offset_rows (sort_rows (sel_order s)
    (bfilter (fun r => is_true (holds sch d r (sel_where s)) && unlocked (sel_lock s) locked r)
       (rows_of sch d (sel_from s))))).

Definition project (cs : list (string * string)) (r : row) : row :=
  (fun c => (c.2, col r c.1)) <$> cs.

Definition run_select (sch : schema) (locked : string -> bool) (d : tables) (s : select_stmt)
  : res (list row) :=
  if select_ok sch s then Ok (project (sel_columns s) <$> selected sch locked d s)
  else Err undefined.

(** ** SELECT column, COUNT( * ) ... GROUP BY column *)

(** [grp_order]: ORDER BY the column. *)
Record group_stmt := {
  grp_column : string; grp_from : source; grp_where : condition; grp_order : bool }.

Definition same_group (a b : datum) : bool :=
  match a, b with DNull, DNull => true | _, _ => is_true (eq3 a b) end.

Fixpoint count_in (v : datum) (gs : list (datum * Z)) : list (datum * Z) :=
  match gs with
  | [] => [(v, 1)]
  | (k, n) :: gs => if same_group k v then (k, n + 1) :: gs else (k, n) :: count_in v gs
  end.

Definition run_group (sch : schema) (d : tables) (s : group_stmt) : res (list (datum * Z)) :=
  let cs := source_columns sch (grp_from s) in
  if source_ok sch (grp_from s) && mem (grp_column s) cs && condition_ok sch cs (grp_where s) then
    let gs := foldr count_in []
      ((fun r => col r (grp_column s))
         <$> bfilter (fun r => is_true (holds sch d r (grp_where s))) (rows_of sch d (grp_from s)))
           in
    Ok (if grp_order s then order_by (fun a b => datum_le a.1 b.1) gs else gs)
  else Err undefined.

(** ** Constraints *)

(** An argument for a column: NULL fits every type, a text bound to a timestamp is read as one. *)
Definition coerce (now : Z) (c : column) (v : datum) : res datum :=
  match v with
  | DNull => if c_null c then Ok DNull else Err (null_violation (c_name c))
  | _ =>
      match c_type c, v with
      | VARCHAR, DText _ | TIMESTAMP, DTime _ | BOOLEAN, DBool _ | JSONB, DJson _ | BYTEA,
        DBytes _ =>
          Ok v
      | BIGINT, DInt z =>
          if (- 2 ^ 63 <=? z) && (z <? 2 ^ 63) then Ok v
          else Err (ENew "ERROR: bigint out of range (SQLSTATE 22003)")
      | TIMESTAMP, DText s =>
          if String.eqb s "NOW()" then Ok (DTime now)
          else Err (ENew "ERROR: invalid input syntax for type timestamp (SQLSTATE 22007)")
      | _, _ => Err (ENew "ERROR: the argument does not have the type of the column")
      end
  end.

(** Rows with equal keys; a NULL in a key equals nothing. *)
Definition same_key (cs : list string) (a b : row) : bool :=
  forallb (fun c => is_true (eq3 (col a c) (col b c))) cs.

Definition check_ok (tab : table) (r : row) : res unit :=
  match List.find (fun k => match col r k.1.2 with DText s => negb (mem s k.2) | _ => false end)
          (t_checks tab) with
  | Some k => Err (check_violation k.1.1)
  | None => Ok tt
  end.

(** Does a row with the key of [r] exist in [l]? *)
Definition unique_ok (tab : table) (l : list row) (r : row) : res unit :=
  match List.find (fun u => existsb (same_key u.2 r) l) (t_unique tab) with
  | Some u => Err (unique_violation u.1)
  | None => Ok tt
  end.

Definition foreign_ok (d : tables) (r : row) (k : foreign_key) : bool :=
  match col r (fk_column k) with
  | DNull => true
  | v => existsb (fun g => is_true (eq3 (col g (fk_references k)) v)) (rows d (fk_table k))
  end.
Definition foreigns_ok (ks : list foreign_key) (d : tables) (r : row) : res unit :=
  match List.find (fun k => negb (foreign_ok d r k)) ks with
  | Some k => Err (fk_violation (fk_name k))
  | None => Ok tt
  end.

(** ** INSERT *)

Definition new_row (now : Z) (tab : table) (cs : list string) (vs : list datum) : res row :=
  map_res (fun c =>
      v ← match named (c_name c) (zip cs vs), c_default c with
          | Some v, _ => coerce now c v
          | None, NoDefault => coerce now c DNull
          | None, Constant v => Ok v
          | None, Computed => Err (ENew "the default of the column is computed by the server")
          end;
      Ok (c_name c, v)) (t_columns tab).

Definition conflicts (target : option (list string)) (l : list row) (r : row) : bool :=
  match target with None => false | Some cs => existsb (same_key cs r) l end.

(** Row after row; foreign keys are checked at the end. *)
Fixpoint insert_rows (now : Z) (tab : table) (cs : list string) (target : option (list string))
    (vss : list (list datum)) (l : list row) : res (list row * list row) :=
  match vss with
  | [] => Ok ([], l)
  | vs :: vss =>
      r ← new_row now tab cs vs;
      _ ← check_ok tab r;
      if conflicts target l r then insert_rows now tab cs target vss l
      else
        _ ← unique_ok tab l r;
        p ← insert_rows now tab cs target vss (l ++ [r]);
        Ok (r :: p.1, p.2)
  end.

Definition insert_ok (sch : schema) (s : insert_stmt) : bool :=
  let cs := c_name <$> t_columns (table_of sch (ins_into s)) in
  mem (ins_into s) sch.*1 && forallb (fun c => mem c cs) (ins_columns s)
  && forallb (fun vs => (length vs =? length (ins_columns s))%nat) (ins_values s)
  && match ins_conflict s with
     | None => true
     | Some k => existsb (fun u => bool_decide (u.2 = k)) (t_unique (table_of sch (ins_into s)))
     end.

(** The rows that were inserted. *)
Definition run_insert (sch : schema) (now : Z) (d : tables) (s : insert_stmt)
  : res (list row * tables) :=
  if insert_ok sch s then
    let tab := table_of sch (ins_into s) in
    p ← insert_rows now tab (ins_columns s) (ins_conflict s) (ins_values s) (rows d (ins_into s));
    let d' := set_named (ins_into s) p.2 d in
    _ ← map_res (foreigns_ok (t_foreign tab) d') p.1;
    Ok (p.1, d')
  else Err undefined.

(** ** UPDATE *)

Definition set_row (now : Z) (tab : table) (sets : list (string * assigned)) (r : row) : res row :=
  map_res (fun c =>
      v ← match named (c_name c) sets with
          | None => Ok (col r (c_name c))
          | Some NOW => coerce now c (DTime now)
          | Some (Arg v) => coerce now c v
          end;
      Ok (c_name c, v)) (t_columns tab).

(** The rows of the table, each with whether it was updated. *)
Definition updated_rows (sch : schema) (now : Z) (d : tables) (s : update_stmt)
  : res (list (bool * row)) :=
  let tab := table_of sch (upd_table s) in
  map_res (fun r =>
      if is_true (holds sch d r (upd_where s)) then
        r' ← set_row now tab (upd_set s) r;
        _ ← check_ok tab r';
        Ok (true, r')
      else Ok (false, r)) (rows d (upd_table s)).

(** The keys a statement changes are checked on the table it leaves; the statements that change a key
    update at most one row. *)
Definition key_violated (l : list row) (changed : list row) (u : string * list string) : bool :=
  existsb (fun r => (1 <? length (bfilter (same_key u.2 r) l))%nat) changed.

Definition update_ok (sch : schema) (s : update_stmt) : bool :=
  let cs := c_name <$> t_columns (table_of sch (upd_table s)) in
  mem (upd_table s) sch.*1 && forallb (fun a => mem a.1 cs) (upd_set s)
  && condition_ok sch cs (upd_where s).

(** The number of rows that were updated. *)
Definition run_update (sch : schema) (now : Z) (d : tables) (s : update_stmt)
  : res (nat * tables) :=
  if update_ok sch s then
    let tab := table_of sch (upd_table s) in
    l ← updated_rows sch now d s;
    let changed := (bfilter fst l).*2 in
    let sets c := mem c (upd_set s).*1 in
    match List.find (key_violated l.*2 changed) (bfilter (fun u => existsb sets u.2) (t_unique tab))
      with
    | Some u => Err (unique_violation u.1)
    | None =>
        let d' := set_named (upd_table s) l.*2 d in
        _ ← map_res (foreigns_ok (bfilter (fun k => sets (fk_column k)) (t_foreign tab)) d')
          changed;
        Ok (length changed, d')
    end
  else Err undefined.

(** ** DELETE *)

Definition refers (gone : list row) (k : foreign_key) (r : row) : bool :=
  existsb (fun g => is_true (eq3 (col g (fk_references k)) (col r (fk_column k)))) gone.

(** The fuel is the number of tables; only a key that is set to NULL refers to its own table. *)
Fixpoint delete_rows (fuel : nat) (sch : schema) (t : string) (p : row -> bool) (d : tables) :
  tables :=
  match fuel with
  | O => d
  | S fuel =>
      let gone := bfilter p (rows d t) in
      let d := set_named t (bfilter (fun r => negb (p r)) (rows d t)) d in
      foldl (fun d tk =>
        match fk_delete tk.2 with
        | Cascade => delete_rows fuel sch tk.1 (refers gone tk.2) d
        | SetNull =>
            set_named tk.1 ((fun r => if refers gone tk.2 r then set_named (fk_column tk.2) DNull r
              else r)
                              <$> rows d tk.1) d
        end) d
        (tab ← sch; (fun k => (tab.1, k)) <$> bfilter (fun k => String.eqb t (fk_table k))
          (t_foreign tab.2))
  end.

Definition run_delete (sch : schema) (d : tables) (s : delete_stmt) : res (unit * tables) :=
  if mem (del_from s) sch.*1
     && condition_ok sch (c_name <$> t_columns (table_of sch (del_from s))) (del_where s)
  then Ok (tt, delete_rows (length sch) sch (del_from s)
                 (fun r => is_true (holds sch d r (del_where s))) d)
  else Err undefined.

(** ** Scanning

    The destinations of [Scan], and the fields of a structure by their tags: every column needs a
    field, a field without a column keeps its zero value. *)
Definition scan_type (v : datum) : gerror :=
  ENew match v with DNull => "cannot scan NULL into *string" | _ =>
    "cannot scan into the destination" end.

Definition scan_string (v : datum) : res string :=
  match v with DText s => Ok s | _ => Err (scan_type v) end.
Definition scan_NullString (v : datum) : res (option string) :=
  match v with DNull => Ok None | DText s => Ok (Some s) | _ => Err (scan_type v) end.
Definition scan_Time (v : datum) : res Z :=
  match v with DTime t => Ok t | _ => Err (scan_type v) end.
Definition scan_NullTime (v : datum) : res (option Z) :=
  match v with DNull => Ok None | DTime t => Ok (Some t) | _ => Err (scan_type v) end.
Definition scan_uint64 (v : datum) : res Z :=
  match v with DInt z => if 0 <=? z then Ok z else Err (scan_type v) | _ => Err (scan_type v) end.
Definition scan_NullInt64 (v : datum) : res (option Z) :=
  match v with DNull => Ok None | DInt z => Ok (Some z) | _ => Err (scan_type v) end.
Definition scan_bool (v : datum) : res bool :=
  match v with DBool b => Ok b | _ => Err (scan_type v) end.
Definition scan_JSONB (v : datum) : res (option json) :=
  match v with DNull => Ok None | DJson j => Ok (Some j) | _ => Err (scan_type v) end.
Definition scan_bytes (v : datum) : res string :=
  match v with DBytes s => Ok s | DNull => Ok "" | _ => Err (scan_type v) end.

Definition field {A} (r : row) (tag : string) (scan : datum -> res A) (zero : A) : res A :=
  match named tag r with None => Ok zero | Some v => scan v end.

Definition tags_ok (tags : list string) (r : row) : res unit :=
  guard_ (forallb (fun p => mem p.1 tags) r) (ENew "scany: column has no corresponding field").

(** NULL where Go has an invalid value. *)
Definition null_text (o : option string) : datum :=
  match o with Some s => DText s | None => DNull end.
Definition null_time (o : option Z) : datum := match o with Some t => DTime t | None => DNull end.
Definition null_int (o : option Z) : datum := match o with Some z => DInt z | None => DNull end.
Definition null_json (o : option json) : datum :=
  match o with Some j => DJson j | None => DNull end.

(** ** Lemmas *)

Lemma bfilter_fmap {A B} (f : A -> B) (p : B -> bool) l :
  bfilter p (f <$> l) = f <$> bfilter (fun a => p (f a)) l.
Proof.
  unfold bfilter. induction l as [|a l IH]; [done|]. rewrite fmap_cons, !filter_cons.
  destruct (decide (p (f a) = true)); by rewrite IH.
Qed.

Lemma limit_fmap {A B} (f : A -> B) n l : limit_rows n (f <$> l) = f <$> limit_rows n l.
Proof. unfold limit_rows. destruct (n <? 0); [done|]. by rewrite fmap_take. Qed.
Lemma offset_fmap {A B} (f : A -> B) n l : offset_rows n (f <$> l) = f <$> offset_rows n l.
Proof. unfold offset_rows. destruct (n <? 0); [done|]. by rewrite fmap_drop. Qed.
Lemma cut_fmap {A B} (f : A -> B) n (g : forall X, Z -> list X -> list X) l :
  (forall n l, g B n (f <$> l) = f <$> g A n l) -> cut n (g B) (f <$> l) = f <$> cut n (g A) l.
Proof. intros H. by destruct n; simpl. Qed.

(** Sorting commutes with a map that keeps the order. *)
Section Sorting.
Context {A B : Type} (f : A -> B) (le : A -> A -> bool) (le' : B -> B -> bool).
Hypothesis kept : forall a b, le' (f a) (f b) = le a b.

Lemma merge_fmap l1 l2 :
  list_merge (bool_rel le') (f <$> l1) (f <$> l2) = f <$> list_merge (bool_rel le) l1 l2.
Proof.
  revert l2. induction l1 as [|x l1 IH1]; intros l2; [by destruct l2|].
  induction l2 as [|y l2 IH2]; [done|]. rewrite !fmap_cons, !list_merge_cons.
  assert (Hk : bool_rel le' (f x) (f y) <-> bool_rel le x y) by (unfold bool_rel; by rewrite kept).
  destruct (decide (bool_rel le' (f x) (f y))), (decide (bool_rel le x y)); try tauto;
    rewrite fmap_cons; f_equal; [exact (IH1 (y :: l2))|exact IH2].
Qed.

Definition fmap_stack (st : list (option (list A))) : list (option (list B)) :=
  map (option_map (map f)) st.

Lemma stack_fmap st l :
  merge_list_to_stack (bool_rel le') (fmap_stack st) (f <$> l)
  = fmap_stack (merge_list_to_stack (bool_rel le) st l).
Proof.
  revert l. induction st as [|[l'|] st IH]; intros l; [done| |done]. simpl.
  change (map f l') with (f <$> l'). by rewrite merge_fmap, IH.
Qed.

Lemma merge_stack_fmap st :
  merge_stack (bool_rel le') (fmap_stack st) = f <$> merge_stack (bool_rel le) st.
Proof. induction st as [|[l|] st IH]; [done| |exact IH]. simpl. rewrite IH. apply merge_fmap. Qed.

Lemma order_by_fmap l : order_by le' (f <$> l) = f <$> order_by le l.
Proof.
  unfold order_by, merge_sort. change (@nil (option (list B))) with (fmap_stack []).
  generalize (@nil (option (list A))).
  induction l as [|x l IH]; intros st; [apply merge_stack_fmap|].
  rewrite fmap_cons. cbn [merge_sort_aux]. rewrite <- IH. f_equal. apply (stack_fmap st [x]).
Qed.

End Sorting.

(** How the rows of a statement are sorted, on what they encode. *)
Definition sorts {A} (ks : list (string * bool)) (f : A -> row) (sort : list A -> list A) : Prop :=
  forall l, sort_rows ks (f <$> l) = f <$> sort l.

Lemma sorts_none {A} (f : A -> row) : sorts [] f (fun l => l).
Proof. done. Qed.
Lemma sorts_by {A} ks (f : A -> row) le :
  ks <> [] -> (forall a b, order_le ks (f a) (f b) = le a b) -> sorts ks f (order_by le).
Proof. intros Hk He l. destruct ks; [done|]. by apply order_by_fmap. Qed.

Lemma order_one c (asc : bool) a b :
  order_le [(c, asc)] a b
  = if asc then datum_le (col a c) (col b c) else datum_le (col b c) (col a c).
Proof. cbn [order_le]. destruct asc; by repeat destruct (datum_le _ _). Qed.

(** What a statement selects, on what the rows encode. *)
Lemma selected_spec {A} sch locked d s (f : A -> row) (l : list A) p sort :
  rows_of sch d (sel_from s) = f <$> l ->
  (forall a, a ∈ l ->
     is_true (holds sch d (f a) (sel_where s)) && unlocked (sel_lock s) locked (f a) = p a) ->
  sorts (sel_order s) f sort ->
  selected sch locked d s
  = f <$> cut (sel_limit s) limit_rows (cut (sel_offset s) offset_rows (sort (bfilter p l))).
Proof.
  intros Hr Hp Hs. unfold selected. rewrite Hr, bfilter_fmap, (bfilter_ext _ p) by done.
  rewrite Hs, (cut_fmap f _ (@offset_rows)), (cut_fmap f _ (@limit_rows)); [done| |];
    intros; first [apply limit_fmap | apply offset_fmap].
Qed.

Lemma is_true_and a b : is_true (and3 a b) = is_true a && is_true b.
Proof. by destruct a as [[]|], b as [[]|]. Qed.
Lemma is_true_or a b : is_true (or3 a b) = is_true a || is_true b.
Proof. by destruct a as [[]|], b as [[]|]. Qed.
(** Keys that are all different. *)
Lemma existsb_fmap {A B} (f : A -> B) p l : existsb p (f <$> l) = existsb (fun a => p (f a)) l.
Proof. induction l as [|a l IH]; [done|]. rewrite fmap_cons. cbn [existsb]. by rewrite IH. Qed.

Lemma existsb_bfilter {A} (p q : A -> bool) l : existsb q (bfilter p l)
  = existsb (fun a => p a && q a) l.
Proof.
  unfold bfilter. induction l as [|a l IH]; [done|]. rewrite filter_cons. simpl.
  destruct (decide (p a = true)) as [E|E]; [by rewrite E; simpl; rewrite IH|].
  apply not_true_is_false in E. by rewrite E.
Qed.

Lemma existsb_ext_in {A} (p q : A -> bool) l :
  (forall x, x ∈ l -> p x = q x) -> existsb p l = existsb q l.
Proof.
  induction l as [|x l IH]; intros H; [done|]. simpl. rewrite (H x) by left.
  by rewrite IH by (intros; apply H; by right).
Qed.
