(* ===== verification/Schema.v ===== *)
(** * The tables of the migrations

    [persistence/postgres/migrations] as a list of schema changes, the tables they leave, and how the
    rows of [World.database] lie in them.  The previews are left out: their identifier is a UUID
    column, which reads several texts as one value. *)

From S2P Require Import Prelude GoStrings Domain Json Converters World Sql Repos Relational.

(** ** Migrations *)

Definition required (ty : column_type) (n : string) : column :=
  {| c_name := n; c_type := ty; c_null := false; c_default := NoDefault |}.
Definition nullable (ty : column_type) (n : string) : column :=
  {| c_name := n; c_type := ty; c_null := true; c_default := NoDefault |}.
Definition defaulting (d : column_default) (c : column) : column :=
  {| c_name := c_name c; c_type := c_type c; c_null := c_null c; c_default := d |}.

Definition foreign (name c t k : string) (del : on_delete) : foreign_key :=
  {| fk_name := name; fk_column := c; fk_table := t; fk_references := k; fk_delete := del |}.

Definition initial_configs : table := {|
  t_columns :=
    [required VARCHAR "id"; required VARCHAR "name"; nullable JSONB "extraction_spec";
     nullable JSONB "scopes"; nullable JSONB "seeds"; nullable JSONB "rate_limit";
     nullable JSONB "retries"; nullable JSONB "auth"; nullable JSONB "schedule"];
  t_unique := [("crawl_job_configs_pkey", ["id"])]; t_foreign := []; t_checks := [] |}.

Definition initial_jobs : table := {|
  t_columns :=
    [required VARCHAR "id"; required VARCHAR "job_config_id"; required VARCHAR "status";
     defaulting Computed (required TIMESTAMP "created_at"); nullable TIMESTAMP "completed_at";
     nullable JSONB "error"];
  t_unique := [("crawl_jobs_pkey", ["id"])];
  t_foreign := [foreign "fk_crawl_jobs_job_config" "job_config_id" "crawl_job_configs" "id"
    Cascade];
  t_checks := [] |}.

Definition initial_tasks : table := {|
  t_columns :=
    [required VARCHAR "id"; required VARCHAR "job_id"; required VARCHAR "url";
     nullable VARCHAR "final_url"; required VARCHAR "status";
     defaulting Computed (required TIMESTAMP "enqueued_at");
     defaulting (Constant (DInt 1)) (required BIGINT "depth"); nullable VARCHAR "body_hash";
     nullable VARCHAR "minio_object_key"];
  t_unique := [("crawl_tasks_pkey", ["id"])];
  t_foreign := [foreign "fk_crawl_tasks_job" "job_id" "crawl_jobs" "id" Cascade];
  t_checks := [] |}.

Definition initial_outbox : table := {|
  t_columns :=
    [required VARCHAR "id"; required VARCHAR "event_type"; required VARCHAR "aggregate_id";
     required BYTEA "payload"; required TIMESTAMP "occurred_at"; nullable TIMESTAMP "processed_at";
     defaulting Computed (required TIMESTAMP "created_at")];
  t_unique := [("crawl_task_outbox_pkey", ["id"])]; t_foreign := []; t_checks := [] |}.

(** 20260109213743 *)
Definition initial : list ddl :=
  [CREATE_TABLE "crawl_job_configs" initial_configs; CREATE_TABLE "crawl_jobs" initial_jobs;
   CREATE_TABLE "crawl_tasks" initial_tasks; CREATE_TABLE "crawl_task_outbox" initial_outbox].

Definition users_table : table := {|
  t_columns :=
    [required VARCHAR "id"; required VARCHAR "email"; required VARCHAR "password_hash";
     defaulting Computed (required TIMESTAMP "created_at");
     defaulting Computed (required TIMESTAMP "updated_at")];
  t_unique := [("users_pkey", ["id"]); ("users_email_key", ["email"])];
  t_foreign := []; t_checks := [] |}.

Definition refresh_tokens_table : table := {|
  t_columns :=
    [required VARCHAR "id"; required VARCHAR "user_id"; required VARCHAR "token_hash";
     required TIMESTAMP "expires_at"; nullable TIMESTAMP "revoked_at";
     defaulting Computed (required TIMESTAMP "created_at");
     nullable VARCHAR "replaced_by_token_id"];
  t_unique := [("refresh_tokens_pkey", ["id"]); ("refresh_tokens_token_hash_key", ["token_hash"])];
  t_foreign :=
    [foreign "fk_refresh_tokens_user_id" "user_id" "users" "id" Cascade;
     foreign "fk_refresh_tokens_replaced_by" "replaced_by_token_id" "refresh_tokens" "id" SetNull];
  t_checks := [] |}.

(** 20260110203852 *)
Definition security_tables : list ddl :=
  [CREATE_TABLE "users" users_table; CREATE_TABLE "refresh_tokens" refresh_tokens_table].

(** 20260110221821 *)
Definition add_task_result_fields : list ddl :=
  [ADD_COLUMN "crawl_tasks" (nullable VARCHAR "result_object_key");
   ADD_COLUMN "crawl_tasks"
     (defaulting (Constant (DText "application/json")) (nullable VARCHAR "result_content_type"));
   ADD_COLUMN "crawl_tasks" (nullable BIGINT "result_size_bytes");
   ADD_COLUMN "crawl_tasks" (nullable TIMESTAMP "result_created_at")].

(** 20260110222240 *)
Definition add_job_export_fields : list ddl :=
  [ADD_COLUMN "crawl_jobs" (nullable VARCHAR "export_json_key");
   ADD_COLUMN "crawl_jobs" (nullable VARCHAR "export_csv_key");
   ADD_COLUMN "crawl_jobs" (nullable TIMESTAMP "exported_at");
   ADD_COLUMN "crawl_jobs"
     (defaulting (Constant (DText "NOT_STARTED")) (nullable VARCHAR "export_status"))].

(** 20260111120425 *)
Definition add_dedup_unique_index : list ddl :=
  [ADD_UNIQUE "crawl_tasks" "uq_crawl_tasks_job_id_body_hash" ["job_id"; "body_hash"]].

(** 20260115100000 *)
Definition add_respect_robots_txt : list ddl :=
  [ADD_COLUMN "crawl_job_configs"
     (defaulting (Constant (DBool false)) (required BOOLEAN "respect_robots_txt"))].

(** 20260116120000 *)
Definition add_user_role : list ddl :=
  [ADD_COLUMN "users" (defaulting (Constant (DText "READ")) (required VARCHAR "role"));
   ADD_CHECK "users" "users_role_check" "role" ["READ"; "READ_WRITE"; "ADMINISTRATOR"]].

(** 20260124100000 *)
Definition add_task_error_message : list ddl :=
  [ADD_COLUMN "crawl_tasks" (nullable VARCHAR "error_message")].

(** 20260125100000 *)
Definition add_job_type : list ddl :=
  [ADD_COLUMN "crawl_job_configs" (defaulting (Constant (DText "ONCE")) (required VARCHAR
    "job_type"))].

(** 20260215100000 *)
Definition switch_dedup_to_url : list ddl :=
  [DROP_INDEX "uq_crawl_tasks_job_id_body_hash"; DROP_COLUMN "crawl_tasks" "body_hash";
   ADD_UNIQUE "crawl_tasks" "uq_crawl_tasks_job_id_url" ["job_id"; "url"]].

(** 20260219100000 *)
Definition add_crawl_mode : list ddl :=
  [ADD_COLUMN "crawl_job_configs" (defaulting (Constant (DText "")) (required VARCHAR
    "crawl_mode"))].

(** 20260228120000 *)
Definition add_job_name_unique_scheduled : list ddl :=
  [ADD_UNIQUE "crawl_job_configs" "uq_crawl_job_configs_name" ["name"];
   ADD_COLUMN "crawl_jobs" (nullable VARCHAR "name")].

(** 20260321120000 *)
Definition add_user_id_to_crawl_jobs_and_configs : list ddl :=
  [ADD_COLUMN "crawl_job_configs" (nullable VARCHAR "user_id");
   ADD_FOREIGN_KEY "crawl_job_configs"
     (foreign "fk_crawl_job_configs_user_id" "user_id" "users" "id" SetNull);
   ADD_COLUMN "crawl_jobs" (nullable VARCHAR "user_id");
   ADD_FOREIGN_KEY "crawl_jobs" (foreign "fk_crawl_jobs_user_id" "user_id" "users" "id" SetNull)].

(** 20260329100000 *)
Definition add_queue_weights : list ddl :=
  [ADD_COLUMN "crawl_job_configs"
     (defaulting (Constant (DJson (JArr []))) (required JSONB "queue_weights"))].

(** In the order of their names; those that only add an index or the previews are left out. *)
Definition migrations : list (list ddl) :=
  [initial; security_tables; add_task_result_fields; add_job_export_fields; add_dedup_unique_index;
   add_respect_robots_txt; add_user_role; add_task_error_message; add_job_type; switch_dedup_to_url;
   add_crawl_mode; add_job_name_unique_scheduled; add_user_id_to_crawl_jobs_and_configs;
   add_queue_weights].

Definition db_schema : list (string * table) := foldl (foldl apply_ddl) [] migrations.

(** ** Rows *)

Definition enc_config (c : CrawlJobConfigSnapshot) : list (string * datum) :=
  [("id", DText (cs_ID c)); ("name", DText (cs_Name c));
   ("extraction_spec", null_json (cs_ExtractionSpec c)); ("scopes", null_json (cs_Scopes c));
   ("seeds", null_json (cs_Seeds c)); ("rate_limit", null_json (cs_RateLimit c));
   ("retries", null_json (cs_Retries c)); ("auth", null_json (cs_Auth c));
   ("schedule", null_json (cs_Schedule c)); ("respect_robots_txt", DBool (cs_RespectRobotsTxt c));
   ("job_type", DText (cs_JobType c)); ("crawl_mode", DText (cs_CrawlMode c));
   ("user_id", null_text (cs_UserID c)); ("queue_weights", null_json (cs_QueueWeights c))].

Definition enc_job (j : CrawlJobSnapshot) : list (string * datum) :=
  [("id", DText (js_ID j)); ("job_config_id", null_text (js_JobConfigID j));
   ("status", DText (js_Status j)); ("created_at", DTime (js_CreatedAt j));
   ("completed_at", null_time (js_CompletedAt j)); ("error", DNull);
   ("export_json_key", null_text (js_ExportJSONKey j));
   ("export_csv_key", null_text (js_ExportCSVKey j));
   ("exported_at", null_time (js_ExportedAt j)); ("export_status", null_text (js_ExportStatus j));
   ("name", null_text (js_Name j)); ("user_id", null_text (js_UserID j))].

Definition enc_task (t : CrawlTaskSnapshot) : list (string * datum) :=
  [("id", DText (ts_ID t)); ("job_id", DText (ts_JobID t)); ("url", DText (ts_URL t));
   ("final_url", null_text (ts_FinalURL t)); ("status", DText (ts_Status t));
   ("enqueued_at", DTime (ts_EnqueuedAt t)); ("depth", DInt (ts_Depth t));
   ("minio_object_key", DText (ts_MinioObjectKey t));
   ("result_object_key", null_text (ts_ResultObjectKey t));
   ("result_content_type", null_text (ts_ResultContentType t));
   ("result_size_bytes", null_int (ts_ResultSizeBytes t));
   ("result_created_at", null_time (ts_ResultCreatedAt t));
   ("error_message", null_text (ts_ErrorMessage t))].

Definition enc_event (e : OutboxEventSnapshot) : list (string * datum) :=
  [("id", DText (os_ID e)); ("event_type", DText (os_EventType e));
   ("aggregate_id", DText (os_AggregateID e)); ("payload", DBytes (os_Payload e));
   ("occurred_at", DTime (os_OccurredAt e)); ("processed_at", null_time (os_ProcessedAt e));
   ("created_at", DTime (os_CreatedAt e))].

Definition enc_user (u : UserSnapshot) : list (string * datum) :=
  [("id", DText (us_ID u)); ("email", DText (us_Email u));
   ("password_hash", DText (us_PasswordHash u)); ("created_at", DTime (us_CreatedAt u));
   ("updated_at", DTime (us_UpdatedAt u)); ("role", DText (us_Role u))].

Definition enc_token (t : RefreshTokenSnapshot) : list (string * datum) :=
  [("id", DText (rs_ID t)); ("user_id", DText (rs_UserID t));
    ("token_hash", DText (rs_TokenHash t));
   ("expires_at", DTime (rs_ExpiresAt t)); ("revoked_at", null_time (rs_RevokedAt t));
   ("created_at", DTime (rs_CreatedAt t));
   ("replaced_by_token_id", null_text (rs_ReplacedByTokenID t))].

Definition encode (d : database) : list (string * list (list (string * datum))) :=
  [("crawl_job_configs", enc_config <$> configs d); ("crawl_jobs", enc_job <$> jobs d);
   ("crawl_tasks", enc_task <$> tasks d); ("crawl_task_outbox", enc_event <$> outbox d);
   ("users", enc_user <$> users d); ("refresh_tokens", enc_token <$> tokens d)].

(** ** The structures of [persistence/postgres/snapshots], read by their tags *)

Definition scan_task (r : list (string * datum)) : res CrawlTaskSnapshot :=
  _ ← tags_ok ["id"; "job_id"; "url"; "final_url"; "status"; "enqueued_at"; "depth";
               "minio_object_key"; "result_object_key"; "result_content_type"; "result_size_bytes";
               "result_created_at"; "error_message"] r;
  id ← field r "id" scan_string "";
  job_id ← field r "job_id" scan_string "";
  url ← field r "url" scan_string "";
  final_url ← field r "final_url" scan_NullString None;
  status ← field r "status" scan_string "";
  enqueued_at ← field r "enqueued_at" scan_Time 0;
  depth ← field r "depth" scan_uint64 0;
  minio_object_key ← field r "minio_object_key" scan_string "";
  result_object_key ← field r "result_object_key" scan_NullString None;
  result_content_type ← field r "result_content_type" scan_NullString None;
  result_size_bytes ← field r "result_size_bytes" scan_NullInt64 None;
  result_created_at ← field r "result_created_at" scan_NullTime None;
  error_message ← field r "error_message" scan_NullString None;
  Ok {| ts_ID := id; ts_JobID := job_id; ts_URL := url; ts_FinalURL := final_url;
        ts_Status := status; ts_EnqueuedAt := enqueued_at; ts_Depth := depth;
        ts_MinioObjectKey := minio_object_key; ts_ResultObjectKey := result_object_key;
        ts_ResultContentType := result_content_type; ts_ResultSizeBytes := result_size_bytes;
        ts_ResultCreatedAt := result_created_at; ts_ErrorMessage := error_message |}.

Definition scan_event (r : list (string * datum)) : res OutboxEventSnapshot :=
  _ ← tags_ok ["id"; "event_type"; "aggregate_id"; "payload"; "occurred_at"; "processed_at";
               "created_at"] r;
  id ← field r "id" scan_string "";
  event_type ← field r "event_type" scan_string "";
  aggregate_id ← field r "aggregate_id" scan_string "";
  payload ← field r "payload" scan_bytes "";
  occurred_at ← field r "occurred_at" scan_Time 0;
  processed_at ← field r "processed_at" scan_NullTime None;
  created_at ← field r "created_at" scan_Time 0;
  Ok {| os_ID := id; os_EventType := event_type; os_AggregateID := aggregate_id;
        os_Payload := payload; os_OccurredAt := occurred_at; os_ProcessedAt := processed_at;
        os_CreatedAt := created_at |}.

Definition scan_user (r : list (string * datum)) : res UserSnapshot :=
  _ ← tags_ok ["id"; "email"; "password_hash"; "role"; "created_at"; "updated_at"] r;
  id ← field r "id" scan_string "";
  email ← field r "email" scan_string "";
  password_hash ← field r "password_hash" scan_string "";
  role ← field r "role" scan_string "";
  created_at ← field r "created_at" scan_Time 0;
  updated_at ← field r "updated_at" scan_Time 0;
  Ok {| us_ID := id; us_Email := email; us_PasswordHash := password_hash; us_Role := role;
        us_CreatedAt := created_at; us_UpdatedAt := updated_at |}.

Definition scan_token (r : list (string * datum)) : res RefreshTokenSnapshot :=
  _ ← tags_ok ["id"; "user_id"; "token_hash"; "expires_at"; "revoked_at"; "created_at";
               "replaced_by_token_id"] r;
  id ← field r "id" scan_string "";
  user_id ← field r "user_id" scan_string "";
  token_hash ← field r "token_hash" scan_string "";
  expires_at ← field r "expires_at" scan_Time 0;
  revoked_at ← field r "revoked_at" scan_NullTime None;
  created_at ← field r "created_at" scan_Time 0;
  replaced_by_token_id ← field r "replaced_by_token_id" scan_NullString None;
  Ok {| rs_ID := id; rs_UserID := user_id; rs_TokenHash := token_hash; rs_ExpiresAt := expires_at;
        rs_RevokedAt := revoked_at; rs_CreatedAt := created_at;
        rs_ReplacedByTokenID := replaced_by_token_id |}.

Definition scan_config (r : list (string * datum)) : res CrawlJobConfigSnapshot :=
  _ ← tags_ok ["id"; "user_id"; "name"; "extraction_spec"; "scopes"; "seeds"; "rate_limit";
               "retries"; "auth"; "schedule"; "job_type"; "respect_robots_txt"; "crawl_mode";
               "queue_weights"] r;
  id ← field r "id" scan_string "";
  user_id ← field r "user_id" scan_NullString None;
  name ← field r "name" scan_string "";
  extraction_spec ← field r "extraction_spec" scan_JSONB None;
  scopes ← field r "scopes" scan_JSONB None;
  seeds ← field r "seeds" scan_JSONB None;
  rate_limit ← field r "rate_limit" scan_JSONB None;
  retries ← field r "retries" scan_JSONB None;
  auth ← field r "auth" scan_JSONB None;
  schedule ← field r "schedule" scan_JSONB None;
  job_type ← field r "job_type" scan_string "";
  respect_robots_txt ← field r "respect_robots_txt" scan_bool false;
  crawl_mode ← field r "crawl_mode" scan_string "";
  queue_weights ← field r "queue_weights" scan_JSONB None;
  Ok {| cs_ID := id; cs_UserID := user_id; cs_Name := name; cs_ExtractionSpec := extraction_spec;
        cs_Scopes := scopes; cs_Seeds := seeds; cs_RateLimit := rate_limit; cs_Retries := retries;
        cs_Auth := auth; cs_Schedule := schedule; cs_JobType := job_type;
        cs_RespectRobotsTxt := respect_robots_txt; cs_CrawlMode := crawl_mode;
        cs_QueueWeights := queue_weights |}.

(** The fields of a job that have a column of their own. *)
Definition scan_job (r : list (string * datum)) : res CrawlJobSnapshot :=
  id ← field r "id" scan_string "";
  job_config_id ← field r "job_config_id" scan_NullString None;
  user_id ← field r "user_id" scan_NullString None;
  name ← field r "name" scan_NullString None;
  status ← field r "status" scan_string "";
  created_at ← field r "created_at" scan_Time 0;
  completed_at ← field r "completed_at" scan_NullTime None;
  export_json_key ← field r "export_json_key" scan_NullString None;
  export_csv_key ← field r "export_csv_key" scan_NullString None;
  exported_at ← field r "exported_at" scan_NullTime None;
  export_status ← field r "export_status" scan_NullString None;
  Ok {| js_ID := id; js_JobConfigID := job_config_id; js_UserID := user_id; js_Name := name;
        js_Status := status; js_CreatedAt := created_at; js_CompletedAt := completed_at;
        js_JobConfig := None; js_ExportJSONKey := export_json_key;
        js_ExportCSVKey := export_csv_key; js_ExportedAt := exported_at;
        js_ExportStatus := export_status |}.

(** The database a statement leaves; the previews are those of before. *)
Definition dec_rows {A} (scan : list (string * datum) -> res A) (l : list (list (string * datum)))
  : list A := omap (fun r => match scan r with Ok a => Some a | Err _ => None end) l.

Definition decode (d : database) (t : list (string * list (list (string * datum)))) : database :=
  {| configs := dec_rows scan_config (rows t "crawl_job_configs");
     jobs := dec_rows scan_job (rows t "crawl_jobs");
     tasks := dec_rows scan_task (rows t "crawl_tasks");
     outbox := dec_rows scan_event (rows t "crawl_task_outbox");
     users := dec_rows scan_user (rows t "users");
     tokens := dec_rows scan_token (rows t "refresh_tokens"); previews := previews d |}.

(** ** What a database satisfies *)

Definition bigint (z : Z) : bool := (- 2 ^ 63 <=? z) && (z <? 2 ^ 63).

(** The numbers of a task fit their columns. *)
Definition task_fits (t : CrawlTaskSnapshot) : bool :=
  (0 <=? ts_Depth t) && (ts_Depth t <? 2 ^ 63)
  && match ts_ResultSizeBytes t with Some z => bigint z | None => true end.

Record db_wf (d : database) : Prop := {
  wf_configs : NoDup (cs_ID <$> configs d);
  wf_jobs : NoDup (js_ID <$> jobs d);
  wf_joined : Forall (fun j => js_JobConfig j = None) (jobs d);
  wf_tasks : NoDup (ts_ID <$> tasks d);
  wf_fits : Forall (fun t => task_fits t = true) (tasks d);
  wf_users : NoDup (us_ID <$> users d) }.

(** ** Encoding is undone by scanning *)

Lemma field_null_text r tag o :
  named tag r = Some (null_text o) -> field r tag scan_NullString None = Ok o.
Proof. unfold field. intros ->. by destruct o. Qed.
Lemma field_null_time r tag o :
  named tag r = Some (null_time o) -> field r tag scan_NullTime None = Ok o.
Proof. unfold field. intros ->. by destruct o. Qed.
Lemma field_null_int r tag o :
  named tag r = Some (null_int o) -> field r tag scan_NullInt64 None = Ok o.
Proof. unfold field. intros ->. by destruct o. Qed.
Lemma field_null_json r tag o :
  named tag r = Some (null_json o) -> field r tag scan_JSONB None = Ok o.
Proof. unfold field. intros ->. by destruct o. Qed.
Lemma field_text r tag s z : named tag r = Some (DText s) -> field r tag scan_string z = Ok s.
Proof. unfold field. by intros ->. Qed.
Lemma field_time r tag t z : named tag r = Some (DTime t) -> field r tag scan_Time z = Ok t.
Proof. unfold field. by intros ->. Qed.
Lemma field_bytes r tag t z : named tag r = Some (DBytes t) -> field r tag scan_bytes z = Ok t.
Proof. unfold field. by intros ->. Qed.
Lemma field_bool r tag b z : named tag r = Some (DBool b) -> field r tag scan_bool z = Ok b.
Proof. unfold field. by intros ->. Qed.
Lemma field_uint64 r tag n z :
  0 <= n -> named tag r = Some (DInt n) -> field r tag scan_uint64 z = Ok n.
Proof. unfold field, scan_uint64. intros Hn ->. by apply Z.leb_le in Hn as ->. Qed.

Ltac field_step :=
  first [ erewrite field_text by reflexivity | erewrite field_null_text by reflexivity
        | erewrite field_time by reflexivity | erewrite field_null_time by reflexivity
        | erewrite field_null_int by reflexivity | erewrite field_null_json by reflexivity
        | erewrite field_bytes by reflexivity | erewrite field_bool by reflexivity
        | erewrite field_uint64 by first [eassumption | reflexivity] ];
  cbn [mbind res_bind].

Ltac scan_tac :=
  try match goal with |- context [tags_ok ?l ?r] => change (tags_ok l r) with (Ok tt) end;
  cbn [mbind res_bind]; repeat field_step.

Lemma scan_enc_task t : 0 <= ts_Depth t -> scan_task (enc_task t) = Ok t.
Proof. intros Hd. unfold scan_task. scan_tac. by destruct t. Qed.
Lemma scan_enc_event e : scan_event (enc_event e) = Ok e.
Proof. unfold scan_event. scan_tac. by destruct e. Qed.
Lemma scan_enc_user u : scan_user (enc_user u) = Ok u.
Proof. unfold scan_user. scan_tac. by destruct u. Qed.
Lemma scan_enc_token t : scan_token (enc_token t) = Ok t.
Proof. unfold scan_token. scan_tac. by destruct t. Qed.
Lemma scan_enc_config c : scan_config (enc_config c) = Ok c.
Proof. unfold scan_config. scan_tac. by destruct c. Qed.
Lemma scan_enc_job j : js_JobConfig j = None -> scan_job (enc_job j) = Ok j.
Proof. intros Hj. unfold scan_job. scan_tac. destruct j; simpl in *. by subst. Qed.

(** The tables are those the repositories name. *)
Example columns_of_tasks :
  c_name <$> t_columns (table_of db_schema "crawl_tasks")
  = ["id"; "job_id"; "url"; "final_url"; "status"; "enqueued_at"; "depth"; "minio_object_key";
     "result_object_key"; "result_content_type"; "result_size_bytes"; "result_created_at";
     "error_message"].
Proof. reflexivity. Qed.

Lemma dec_enc {A} (scan : list (string * datum) -> res A) enc l :
  (forall a, a ∈ l -> scan (enc a) = Ok a) -> dec_rows scan (enc <$> l) = l.
Proof.
  induction l as [|a l IH]; intros H; [done|]. unfold dec_rows in *. rewrite fmap_cons. csimpl.
  rewrite (H a) by left. f_equal. apply IH. intros b Hb. apply H. by right.
Qed.

(** What decoding needs. *)
Definition decodes (d : database) : Prop :=
  Forall (fun j => js_JobConfig j = None) (jobs d) /\ Forall (fun t => 0 <= ts_Depth t) (tasks d).

Lemma db_wf_decodes d : db_wf d -> decodes d.
Proof.
  intros H. split; [apply H|]. eapply Forall_impl; [apply (wf_fits _ H)|].
  intros t Ht. unfold task_fits in Ht. apply andb_true_iff in Ht as [Ht _].
  apply andb_true_iff in Ht as [Ht _]. by apply Z.leb_le.
Qed.

Lemma decode_encode d d' : previews d' = previews d -> decodes d -> decode d' (encode d) = d.
Proof.
  intros Hp [Hj Ht]. unfold decode, encode. destruct d as [cs js ts os us rs ps]. simpl in *.
  cbn [rows named String.eqb Ascii.eqb Bool.eqb default]. f_equal; [| | | | | |done];
    apply dec_enc; intros a Ha;
    auto using scan_enc_config, scan_enc_event, scan_enc_user, scan_enc_token.
  - apply scan_enc_job. rewrite Forall_forall in Hj. by apply Hj.
  - apply scan_enc_task. rewrite Forall_forall in Ht. by apply Ht.
Qed.
