(* ===== verification/Statements.v ===== *)
(** * The statements of the repositories

    Every method of [persistence/postgres/repos] as its source builds it: table, columns in their
    order, arguments, conditions, order, limit and lock of the statement, run on the tables of
    [Schema], and the scan of what comes back.  The listings with cursors and the analytics are in
    [SqlListings]; the two methods of the previews are left out.  [Repos] has the same methods on
    rows; [SqlRefines], [SqlWrites] and [SqlRepos] show that the two do the same, so that no column is
    swapped, missing or of another type. *)

From S2P Require Import Prelude GoStrings Domain Json Converters World Sql Repos Relational Schema.

Section Statements.
Context `{Env, JsonLib}.

(** ** Running a statement *)

Definition sql_query (s : select_stmt) : M (res (list (list (string * datum)))) :=
  stmt (fun n d => l ← run_select db_schema (locked_at n) (encode d) s; Ok (l, d)).
Definition sql_insert (s : insert_stmt) : M (res (list (list (string * datum)))) :=
  stmt (fun n d => p ← run_insert db_schema (clock_at n) (encode d) s; Ok (p.1, decode d p.2)).
Definition sql_update (s : update_stmt) : M (res nat) :=
  stmt (fun n d => p ← run_update db_schema (clock_at n) (encode d) s; Ok (p.1, decode d p.2)).
Definition sql_delete (s : delete_stmt) : M (res unit) :=
  stmt (fun _ d => p ← run_delete db_schema (encode d) s; Ok (p.1, decode d p.2)).

(** [ExecContext]: the count is dropped. *)
Definition sql_exec (s : update_stmt) : M (res unit) := try _ <- sql_update s; ret_ok tt.

(** [ScanAllContext] and the loop that restores, [QueryRowContext] and [ScanOneContext]. *)
Definition sql_scan_all {A B} (s : select_stmt) (scan : list (string * datum) -> res A)
    (restore : A -> res B) : M (res (list B)) :=
  try l <- sql_query s; lift_res (snaps ← map_res scan l; map_res restore snaps).
Definition sql_scan_one {A B} (s : select_stmt) (scan : list (string * datum) -> res A)
    (restore : A -> res B) : M (res B) :=
  try l <- sql_query s;
  match l with
  | [] => ret_err ErrNoRows
  | r :: _ => lift_res (snap ← scan r; restore snap)
  end.

(** [QueryRow(...).Scan(&id)] after RETURNING id. *)
Definition returned_id {A} (new : string -> res A) (l : list (list (string * datum))) : res A :=
  match l with
  | [] => Err ErrNoRows
  | r :: _ => id ← scan_string (col r "id"); new id
  end.

Definition plain_columns (cs : list string) : list (string * string) := (fun c => (c, c)) <$> cs.

(** ** crawl_task_repo.go *)

Definition crawlTaskColumns : list string :=
  ["id"; "job_id"; "url"; "final_url"; "status"; "enqueued_at"; "depth"; "minio_object_key";
   "result_object_key"; "result_content_type"; "result_size_bytes"; "result_created_at";
   "error_message"].
Definition crawlTaskJobColumns : list string :=
  ["id"; "job_config_id"; "status"; "created_at"; "completed_at"].

Definition task_values (e : CrawlTaskSnapshot) : list datum :=
  [DText (ts_ID e); DText (ts_JobID e); DText (ts_URL e); null_text (ts_FinalURL e);
   DText (ts_Status e); DTime (ts_EnqueuedAt e); DInt (ts_Depth e); DText (ts_MinioObjectKey e);
   null_text (ts_ResultObjectKey e); null_text (ts_ResultContentType e);
   null_int (ts_ResultSizeBytes e); null_time (ts_ResultCreatedAt e);
   null_text (ts_ErrorMessage e)].

Definition insert_tasks_stmt (l : list CrawlTaskSnapshot) (conflict : option (list string))
  : insert_stmt :=
  {| ins_into := "crawl_tasks"; ins_columns := crawlTaskColumns; ins_values := task_values <$> l;
     ins_conflict := conflict |}.

Definition sql_Task_Create (entity : CrawlTask) : M (res CrawlTaskID) :=
  let dbEntity := SaveCrawlTaskToSnapshot entity in
  try l <- sql_insert (insert_tasks_stmt [dbEntity] None); lift_res (returned_id NewID l).

Definition sql_Task_BulkCreate (entities : list CrawlTask) : M (res (list CrawlTaskID)) :=
  match entities with
  | [] => ret_ok []
  | _ =>
      try l <- sql_insert (insert_tasks_stmt (SaveCrawlTaskToSnapshot <$> entities)
                             (Some ["job_id"; "url"]));
      lift_res (map_res (fun r => id ← scan_string (col r "id"); NewID id) l)
  end.

Definition qualifiedColumn (alias c : string) : string := alias +:+ "." +:+ c.
Definition qualifiedColumns (alias : string) (cs : list string) : list string :=
  qualifiedColumn alias <$> cs.
Definition crawlTaskWithJobSelectColumns : list string :=
  qualifiedColumns "t" crawlTaskColumns ++ qualifiedColumns "j" crawlTaskJobColumns.

(** [crawl_tasks t INNER JOIN crawl_jobs j ON t.job_id = j.id]. *)
Definition crawlTaskJobJoin : source :=
  InnerJoin (From "crawl_tasks" "t") "crawl_jobs" "j"
    (qualifiedColumn "t" "job_id") (qualifiedColumn "j" "id").

(** By position. *)
Definition sql_scanCrawlTaskWithJob (r : list (string * datum)) : res CrawlTaskWithJobSnapshot :=
  match r.*2 with
  | [v1; v2; v3; v4; v5; v6; v7; v8; v9; v10; v11; v12; v13; w1; w2; w3; w4; w5] =>
      id ← scan_string v1; job_id ← scan_string v2; url ← scan_string v3;
      final_url ← scan_NullString v4; status ← scan_string v5; enqueued_at ← scan_Time v6;
      depth ← scan_uint64 v7; minio_object_key ← scan_string v8;
      result_object_key ← scan_NullString v9; result_content_type ← scan_NullString v10;
      result_size_bytes ← scan_NullInt64 v11; result_created_at ← scan_NullTime v12;
      error_message ← scan_NullString v13;
      j_id ← scan_string w1; j_config ← scan_NullString w2; j_status ← scan_string w3;
      j_created_at ← scan_Time w4; j_completed_at ← scan_NullTime w5;
      Ok {| tj_Task :=
              {| ts_ID := id; ts_JobID := job_id; ts_URL := url; ts_FinalURL := final_url;
                 ts_Status := status; ts_EnqueuedAt := enqueued_at; ts_Depth := depth;
                 ts_MinioObjectKey := minio_object_key; ts_ResultObjectKey := result_object_key;
                 ts_ResultContentType := result_content_type;
                 ts_ResultSizeBytes := result_size_bytes;
                 ts_ResultCreatedAt := result_created_at; ts_ErrorMessage := error_message |};
            tj_Job := Some
              {| js_ID := j_id; js_JobConfigID := j_config; js_UserID := None; js_Name := None;
                 js_Status := j_status; js_CreatedAt := j_created_at;
                 js_CompletedAt := j_completed_at; js_JobConfig := None; js_ExportJSONKey := None;
                 js_ExportCSVKey := None; js_ExportedAt := None; js_ExportStatus := None |} |}
  | _ => Err (ENew "number of field descriptions must equal number of destinations")
  end.

Definition sql_Task_Get (id : CrawlTaskID) : M (res CrawlTask) :=
  sql_scan_one
    {| sel_columns := plain_columns crawlTaskWithJobSelectColumns; sel_from := crawlTaskJobJoin;
       sel_where := sq_Eq (qualifiedColumn "t" "id") (DText (value id)); sel_order := [];
       sel_limit := Some 1; sel_offset := None; sel_lock := None |}
    sql_scanCrawlTaskWithJob RestoreCrawlTaskWithJobFromSnapshot.

Definition sql_Task_Update (entity : CrawlTask) : M (res unit) :=
  let e := SaveCrawlTaskToSnapshot entity in
  sql_exec
    {| upd_table := "crawl_tasks";
       upd_set :=
         [("url", Arg (DText (ts_URL e))); ("final_url", Arg (null_text (ts_FinalURL e)));
          ("status", Arg (DText (ts_Status e))); ("depth", Arg (DInt (ts_Depth e)));
          ("minio_object_key", Arg (DText (ts_MinioObjectKey e)));
          ("result_object_key", Arg (null_text (ts_ResultObjectKey e)));
          ("result_content_type", Arg (null_text (ts_ResultContentType e)));
          ("result_size_bytes", Arg (null_int (ts_ResultSizeBytes e)));
          ("result_created_at", Arg (null_time (ts_ResultCreatedAt e)));
          ("error_message", Arg (null_text (ts_ErrorMessage e)))];
       upd_where := sq_Eq "id" (DText (ts_ID e)) |}.

Definition select_tasks (w : condition) (order : list (string * bool)) (limit : option Z)
  : select_stmt :=
  {| sel_columns := plain_columns crawlTaskColumns; sel_from := From "crawl_tasks" "";
     sel_where := w; sel_order := order; sel_limit := limit; sel_offset := None;
     sel_lock := None |}.

Definition sql_Task_ListByJob (jobID : CrawlJobID) : M (res (list CrawlTask)) :=
  sql_scan_all
    (select_tasks (sq_Eq "job_id" (DText (value jobID))) [("enqueued_at", true)] None)
    scan_task RestoreCrawlTaskFromSnapshot.

Definition sql_Task_ListByStatus (status : TaskStatus) (limit : Z) : M (res (list CrawlTask)) :=
  sql_scan_all
    (select_tasks (sq_Eq "status" (DText status)) [("enqueued_at", true)] (Some limit))
    scan_task RestoreCrawlTaskFromSnapshot.

Definition sql_Task_SetTaskResult (taskID : CrawlTaskID) (objectKey contentType : string)
    (sizeBytes : Z) : M (res unit) :=
  sql_exec
    {| upd_table := "crawl_tasks";
       upd_set :=
         [("result_object_key", Arg (DText objectKey)); ("result_content_type",
           Arg (DText contentType));
          ("result_size_bytes", Arg (DInt sizeBytes)); ("result_created_at", Arg (DText "NOW()"))];
       upd_where := sq_Eq "id" (DText (value taskID)) |}.

(** SELECT 1: the constant is all there is to scan. *)
Definition sql_Task_ExistsByJobIDAndURL (jobID : CrawlJobID) (url : string) : M (res bool) :=
  try _ <- sql_scan_one
      {| sel_columns := []; sel_from := From "crawl_tasks" "";
         sel_where := AND [sq_Eq "job_id" (DText (value jobID)); sq_Eq "url" (DText url);
                           sq_NotEq "status" (DText TaskStatusInProgress)];
         sel_order := []; sel_limit := Some 1; sel_offset := None; sel_lock := None |}
      (fun _ => Ok 1) Ok
    else e => (if bool_decide (Error e = "no rows in result set") then ret_ok false
               else ret_err e);
  ret_ok true.

Definition sql_Task_ListStaleInProgress (olderThan limit : Z) : M (res (list CrawlTask)) :=
  sql_scan_all
    (select_tasks (AND [sq_Eq "status" (DText TaskStatusInProgress);
                        Compare LT "enqueued_at" (DTime olderThan)])
       [("enqueued_at", true)] (Some limit))
    scan_task RestoreCrawlTaskFromSnapshot.

(** ** outbox_repo.go *)

Definition outbox_columns : list string :=
  ["id"; "event_type"; "aggregate_id"; "payload"; "occurred_at"; "processed_at"; "created_at"].
Definition event_values (e : OutboxEventSnapshot) : list datum :=
  [DText (os_ID e); DText (os_EventType e); DText (os_AggregateID e); DBytes (os_Payload e);
   DTime (os_OccurredAt e); null_time (os_ProcessedAt e); DTime (os_CreatedAt e)].
Definition insert_events_stmt (l : list OutboxEventSnapshot) : insert_stmt :=
  {| ins_into := "crawl_task_outbox"; ins_columns := outbox_columns;
    ins_values := event_values <$> l;
     ins_conflict := None |}.

Definition sql_Outbox_Create (event : OutboxEvent string) : M (res unit) :=
  try _ <- sql_insert (insert_events_stmt [SaveOutboxEventToSnapshot event]); ret_ok tt.

Definition sql_Outbox_BulkCreate (events : list (OutboxEvent string)) : M (res unit) :=
  match events with
  | [] => ret_ok tt
  | _ => try _ <- sql_insert (insert_events_stmt (SaveOutboxEventToSnapshot <$> events)); ret_ok tt
  end.

Definition sql_Outbox_FetchUnprocessedEvents (limit : Z) : M (res (list (OutboxEvent string))) :=
  sql_scan_all
    {| sel_columns := plain_columns outbox_columns; sel_from := From "crawl_task_outbox" "";
       sel_where := sq_Eq "processed_at" DNull; sel_order := [("occurred_at", true)];
       sel_limit := Some limit; sel_offset := None; sel_lock := Some "id" |}
    scan_event RestoreOutboxEventFromSnapshot.

Definition sql_Outbox_MarkAsProcessed (id : ID) : M (res unit) :=
  sql_exec
    {| upd_table := "crawl_task_outbox"; upd_set := [("processed_at", NOW)];
       upd_where := sq_Eq "id" (DText (value id)) |}.

(** ** user_repo.go *)

Definition user_columns : list string :=
  ["id"; "email"; "password_hash"; "role"; "created_at"; "updated_at"].

Definition sql_User_Create (entity : User) : M (res UserID) :=
  let e := UserModelToSnapshot entity in
  try l <- sql_insert
    {| ins_into := "users"; ins_columns := user_columns;
       ins_values := [[DText (us_ID e); DText (us_Email e); DText (us_PasswordHash e);
                       DText (us_Role e); DTime (us_CreatedAt e); DTime (us_UpdatedAt e)]];
       ins_conflict := None |};
  lift_res (returned_id NewUserID l).

Definition select_user (c : string) (v : string) : select_stmt :=
  {| sel_columns := plain_columns user_columns; sel_from := From "users" "";
     sel_where := sq_Eq c (DText v); sel_order := []; sel_limit := Some 1; sel_offset := None;
     sel_lock := None |}.

(** A missing row is [nil, nil]. *)
Definition sql_scan_optional {A B} (s : select_stmt) (scan : list (string * datum) -> res A)
    (restore : A -> res B) : M (res (option B)) :=
  try snap <- sql_scan_one s scan Ok
    else e => (if errors_Is e "sql.ErrNoRows" || bool_decide (Error e = "no rows in result set")
               then ret_ok None else ret_err e);
  lift_res (b ← restore snap; Ok (Some b)).

Definition sql_User_GetByID (id : UserID) : M (res (option User)) :=
  sql_scan_optional (select_user "id" (value id)) scan_user UserSnapshotToModel.
Definition sql_User_GetByEmail (email : string) : M (res (option User)) :=
  sql_scan_optional (select_user "email" email) scan_user UserSnapshotToModel.

Definition sql_User_Update (entity : User) : M (res unit) :=
  let e := UserModelToSnapshot entity in
  sql_exec
    {| upd_table := "users";
       upd_set :=
         [("email", Arg (DText (us_Email e))); ("password_hash", Arg (DText (us_PasswordHash e)));
          ("role", Arg (DText (us_Role e))); ("updated_at", Arg (DTime (us_UpdatedAt e)))];
       upd_where := sq_Eq "id" (DText (us_ID e)) |}.

Definition sql_User_List : M (res (list User)) :=
  sql_scan_all
    {| sel_columns := plain_columns user_columns; sel_from := From "users" ""; sel_where := AND [];
       sel_order := [("created_at", false)]; sel_limit := None; sel_offset := None;
       sel_lock := None |}
    scan_user UserSnapshotToModel.

Definition sql_User_UpdateRole (id : UserID) (role : Role) : M (res unit) :=
  now ← time_Now;
  sql_exec
    {| upd_table := "users";
       upd_set := [("role", Arg (DText role)); ("updated_at", Arg (DTime now))];
       upd_where := sq_Eq "id" (DText (value id)) |}.

(** ** refresh_token_repo.go *)

Definition token_columns : list string :=
  ["id"; "user_id"; "token_hash"; "expires_at"; "revoked_at"; "created_at"; "replaced_by_token_id"].

Definition sql_Token_Create (entity : RefreshToken) : M (res RefreshTokenID) :=
  let e := RefreshTokenModelToSnapshot entity in
  try l <- sql_insert
    {| ins_into := "refresh_tokens"; ins_columns := token_columns;
       ins_values := [[DText (rs_ID e); DText (rs_UserID e); DText (rs_TokenHash e);
                       DTime (rs_ExpiresAt e); null_time (rs_RevokedAt e); DTime (rs_CreatedAt e);
                       null_text (rs_ReplacedByTokenID e)]];
       ins_conflict := None |};
  lift_res (returned_id NewID l).

Definition select_token (c : string) (v : string) : select_stmt :=
  {| sel_columns := plain_columns token_columns; sel_from := From "refresh_tokens" "";
     sel_where := sq_Eq c (DText v); sel_order := []; sel_limit := Some 1; sel_offset := None;
     sel_lock := None |}.

Definition sql_Token_GetByTokenHash (tokenHash : string) : M (res (option RefreshToken)) :=
  sql_scan_optional (select_token "token_hash" tokenHash) scan_token RefreshTokenSnapshotToModel.
Definition sql_Token_GetByID (id : RefreshTokenID) : M (res (option RefreshToken)) :=
  sql_scan_optional (select_token "id" (value id)) scan_token RefreshTokenSnapshotToModel.

Definition sql_Token_Update (entity : RefreshToken) : M (res unit) :=
  let e := RefreshTokenModelToSnapshot entity in
  sql_exec
    {| upd_table := "refresh_tokens";
       upd_set := [("revoked_at", Arg (null_time (rs_RevokedAt e)));
                   ("replaced_by_token_id", Arg (null_text (rs_ReplacedByTokenID e)))];
       upd_where := sq_Eq "id" (DText (rs_ID e)) |}.

Definition sql_Token_RevokeByTokenHash (tokenHash : string) : M (res unit) :=
  now ← time_Now;
  sql_exec
    {| upd_table := "refresh_tokens"; upd_set := [("revoked_at", Arg (DTime now))];
       upd_where := sq_Eq "token_hash" (DText tokenHash) |}.

(** Two calls of [Where] are joined by AND. *)
Definition sql_Token_RevokeAllByUserID (userID : UserID) : M (res unit) :=
  now ← time_Now;
  sql_exec
    {| upd_table := "refresh_tokens"; upd_set := [("revoked_at", Arg (DTime now))];
       upd_where := AND [sq_Eq "user_id" (DText (value userID)); sq_Eq "revoked_at" DNull] |}.

(** ** crawl_job_config_repo.go *)

Definition config_columns : list string :=
  ["id"; "user_id"; "name"; "extraction_spec"; "scopes"; "seeds"; "rate_limit"; "retries"; "auth";
   "schedule"; "job_type"; "respect_robots_txt"; "crawl_mode"; "queue_weights"].

Definition sql_Config_Create (entity : CrawlJobConfig) : M (res ID) :=
  try e <- lift_res (SaveCrawlJobConfigToSnapshot entity);
  try l <- sql_insert
    {| ins_into := "crawl_job_configs"; ins_columns := config_columns;
       ins_values :=
         [[DText (cs_ID e); null_text (cs_UserID e); DText (cs_Name e);
           null_json (cs_ExtractionSpec e); null_json (cs_Scopes e); null_json (cs_Seeds e);
           null_json (cs_RateLimit e); null_json (cs_Retries e); null_json (cs_Auth e);
           null_json (cs_Schedule e); DText (cs_JobType e); DBool (cs_RespectRobotsTxt e);
           DText (cs_CrawlMode e); null_json (cs_QueueWeights e)]];
       ins_conflict := None |};
  lift_res (returned_id NewID l).

Definition sql_Config_Get (id : ID) : M (res CrawlJobConfig) :=
  sql_scan_one
    {| sel_columns := plain_columns config_columns; sel_from := From "crawl_job_configs" "";
       sel_where := sq_Eq "id" (DText (value id)); sel_order := []; sel_limit := Some 1;
       sel_offset := None; sel_lock := None |}
    scan_config RestoreCrawlJobConfigFromSnapshot.

Definition sql_Config_Update (entity : CrawlJobConfig) : M (res unit) :=
  try e <- lift_res (SaveCrawlJobConfigToSnapshot entity);
  sql_exec
    {| upd_table := "crawl_job_configs";
       upd_set :=
         [("name", Arg (DText (cs_Name e))); ("user_id", Arg (null_text (cs_UserID e)));
          ("extraction_spec", Arg (null_json (cs_ExtractionSpec e)));
          ("scopes", Arg (null_json (cs_Scopes e))); ("seeds", Arg (null_json (cs_Seeds e)));
          ("rate_limit", Arg (null_json (cs_RateLimit e)));
          ("retries", Arg (null_json (cs_Retries e))); ("auth", Arg (null_json (cs_Auth e)));
          ("schedule", Arg (null_json (cs_Schedule e))); ("job_type", Arg (DText (cs_JobType e)));
          ("respect_robots_txt", Arg (DBool (cs_RespectRobotsTxt e)));
          ("crawl_mode", Arg (DText (cs_CrawlMode e)));
          ("queue_weights", Arg (null_json (cs_QueueWeights e)))];
       upd_where := sq_Eq "id" (DText (cs_ID e)) |}.

Definition sql_Config_Delete (id : ID) : M (res unit) :=
  sql_delete {| del_from := "crawl_job_configs"; del_where := sq_Eq "id" (DText (value id)) |}.

Definition sql_Config_ListAllScheduled (limit offset : Z) : M (res (list CrawlJobConfig)) :=
  sql_scan_all
    {| sel_columns := plain_columns config_columns; sel_from := From "crawl_job_configs" "";
       sel_where := sq_Eq "job_type" (DText JobTypeScheduled); sel_order := [("name", true)];
       sel_limit := Some limit; sel_offset := Some offset; sel_lock := None |}
    scan_config RestoreCrawlJobConfigFromSnapshot.

(** ** crawl_job_repo.go *)

Definition job_columns : list string :=
  ["id"; "job_config_id"; "user_id"; "name"; "status"; "created_at"; "completed_at";
   "export_json_key"; "export_csv_key"; "exported_at"; "export_status"].

Definition sql_Job_Create (entity : CrawlJob) : M (res CrawlJobID) :=
  let e := SaveCrawlJobToSnapshot entity in
  try l <- sql_insert
    {| ins_into := "crawl_jobs"; ins_columns := job_columns;
       ins_values :=
         [[DText (js_ID e); null_text (js_JobConfigID e); null_text (js_UserID e);
           null_text (js_Name e); DText (js_Status e); DTime (js_CreatedAt e);
           null_time (js_CompletedAt e); null_text (js_ExportJSONKey e);
           null_text (js_ExportCSVKey e); null_time (js_ExportedAt e);
           null_text (js_ExportStatus e)]];
       ins_conflict := None |};
  lift_res (returned_id NewCrawlJobID l).

Definition sql_Job_Delete (id : CrawlJobID) : M (res unit) :=
  sql_delete {| del_from := "crawl_jobs"; del_where := sq_Eq "id" (DText (value id)) |}.

(** The columns of a job with its configuration, which the six queries list alike. *)
Definition job_select_columns : list (string * string) :=
  plain_columns
    ["j.id"; "j.job_config_id"; "j.user_id"; "j.name"; "j.status"; "j.created_at"; "j.completed_at";
     "j.export_json_key"; "j.export_csv_key"; "j.exported_at"; "j.export_status"]
  ++ [("c.id", "config_id"); ("c.user_id", "config_user_id"); ("c.name", "config_name");
      ("c.extraction_spec", "config_extraction_spec"); ("c.scopes", "config_scopes");
      ("c.seeds", "config_seeds"); ("c.rate_limit", "config_rate_limit");
      ("c.retries", "config_retries"); ("c.auth", "config_auth"); ("c.schedule", "config_schedule");
      ("c.job_type", "config_job_type"); ("c.respect_robots_txt", "config_respect_robots_txt");
      ("c.crawl_mode", "config_crawl_mode"); ("c.queue_weights", "config_queue_weights")].

Definition job_source : source :=
  LeftJoin (From "crawl_jobs" "j") "crawl_job_configs" "c" "j.job_config_id" "c.id".

Definition select_jobs (w : condition) (order : list (string * bool)) (limit offset : option Z)
    (lock : option string) : select_stmt :=
  {| sel_columns := job_select_columns; sel_from := job_source; sel_where := w; sel_order := order;
     sel_limit := limit; sel_offset := offset; sel_lock := lock |}.

(** By position; a configuration without identifier is not attached. *)
Definition sql_scanCrawlJobWithConfig (r : list (string * datum)) : res CrawlJobSnapshot :=
  match r.*2 with
  | [v1; v2; v3; v4; v5; v6; v7; v8; v9; v10; v11;
     w1; w2; w3; w4; w5; w6; w7; w8; w9; w10; w11; w12; w13; w14] =>
      id ← scan_string v1; job_config_id ← scan_NullString v2; user_id ← scan_NullString v3;
      name ← scan_NullString v4; status ← scan_string v5; created_at ← scan_Time v6;
      completed_at ← scan_NullTime v7; export_json_key ← scan_NullString v8;
      export_csv_key ← scan_NullString v9; exported_at ← scan_NullTime v10;
      export_status ← scan_NullString v11;
      c_id ← scan_string w1; c_user_id ← scan_NullString w2; c_name ← scan_string w3;
      c_spec ← scan_JSONB w4; c_scopes ← scan_JSONB w5; c_seeds ← scan_JSONB w6;
      c_rate ← scan_JSONB w7; c_retries ← scan_JSONB w8; c_auth ← scan_JSONB w9;
      c_schedule ← scan_JSONB w10; c_type ← scan_string w11; c_robots ← scan_bool w12;
      c_mode ← scan_string w13; c_weights ← scan_JSONB w14;
      let config :=
        {| cs_ID := c_id; cs_UserID := c_user_id; cs_Name := c_name; cs_ExtractionSpec := c_spec;
           cs_Scopes := c_scopes; cs_Seeds := c_seeds; cs_RateLimit := c_rate;
           cs_Retries := c_retries; cs_Auth := c_auth; cs_Schedule := c_schedule;
           cs_JobType := c_type; cs_RespectRobotsTxt := c_robots; cs_CrawlMode := c_mode;
           cs_QueueWeights := c_weights |} in
      Ok {| js_ID := id; js_JobConfigID := job_config_id; js_UserID := user_id; js_Name := name;
            js_Status := status; js_CreatedAt := created_at; js_CompletedAt := completed_at;
            js_JobConfig := if bool_decide (c_id = "") then None else Some config;
            js_ExportJSONKey := export_json_key; js_ExportCSVKey := export_csv_key;
            js_ExportedAt := exported_at; js_ExportStatus := export_status |}
  | _ => Err (ENew "number of field descriptions must equal number of destinations")
  end.

Definition sql_Job_Get (id : CrawlJobID) : M (res CrawlJob) :=
  sql_scan_one (select_jobs (sq_Eq "j.id" (DText (value id))) [] (Some 1) None None)
    sql_scanCrawlJobWithConfig RestoreCrawlJobFromSnapshot.

Definition sql_Job_Update (entity : CrawlJob) : M (res unit) :=
  let e := SaveCrawlJobToSnapshot entity in
  sql_exec
    {| upd_table := "crawl_jobs";
       upd_set :=
         [("job_config_id", Arg (null_text (js_JobConfigID e)));
          ("user_id", Arg (null_text (js_UserID e))); ("name", Arg (null_text (js_Name e)));
          ("status", Arg (DText (js_Status e)));
          ("completed_at", Arg (null_time (js_CompletedAt e)));
          ("export_json_key", Arg (null_text (js_ExportJSONKey e)));
          ("export_csv_key", Arg (null_text (js_ExportCSVKey e)));
          ("exported_at", Arg (null_time (js_ExportedAt e)));
          ("export_status", Arg (null_text (js_ExportStatus e)))];
       upd_where := sq_Eq "id" (DText (js_ID e)) |}.

Definition sql_query_jobs (s : select_stmt) : M (res (list CrawlJob)) :=
  sql_scan_all s sql_scanCrawlJobWithConfig RestoreCrawlJobFromSnapshot.

Definition sql_Job_List (status : TaskStatus) (limit offset : Z) : M (res (list CrawlJob)) :=
  sql_query_jobs (select_jobs (sq_Eq "j.status" (DText status)) [("j.created_at", false)]
                    (Some limit) (Some offset) None).

Definition sql_Job_ListAll (limit offset : Z) : M (res (list CrawlJob)) :=
  sql_query_jobs (select_jobs (AND []) [("j.created_at", false)] (Some limit) (Some offset) None).

Definition sql_Job_GetLatestByConfigID (configID : ID) : M (res (option CrawlJob)) :=
  try j <- sql_scan_one
      (select_jobs (sq_Eq "j.job_config_id" (DText (value configID))) [("j.created_at", false)]
         (Some 1) None None)
      sql_scanCrawlJobWithConfig RestoreCrawlJobFromSnapshot
    else e => (if errors_Is e "sql.ErrNoRows" then ret_ok None else ret_err e);
  ret_ok (Some j).

(** The five conditions of an eligible job. *)
Definition eligible_condition : condition :=
  AND
    [sq_NotEq "j.export_status" (DText ExportStatusInProgress);
     NOT_EXISTS (From "crawl_tasks" "t")
       (AND [CompareColumns EQ "t.job_id" "j.id";
             NOT_IN "t.status" [DText TaskStatusParsed; DText TaskStatusCompleted;
                                DText TaskStatusFailed; DText TaskStatusSkipped]]);
     NOT_EXISTS (From "crawl_tasks" "t")
       (AND [CompareColumns EQ "t.job_id" "j.id";
             IN_LIST "t.status" [DText TaskStatusParsed; DText TaskStatusCompleted];
             OR (IS_NULL "t.result_object_key") (Compare EQ "t.result_object_key" (DText ""))]);
     NOT_EXISTS (InnerJoin (From "crawl_task_outbox" "o") "crawl_tasks" "t_out"
                   "t_out.id" "o.aggregate_id")
       (AND [CompareColumns EQ "t_out.job_id" "j.id"; IS_NULL "o.processed_at";
             Compare EQ "o.event_type" (DText EventTypeTaskEnqueued)]);
     OR (IS_NULL "j.exported_at")
       (EXISTS (From "crawl_tasks" "t")
          (AND [CompareColumns EQ "t.job_id" "j.id";
                IN_LIST "t.status" [DText TaskStatusParsed; DText TaskStatusCompleted];
                IS_NOT_NULL "t.result_created_at";
                CompareColumns GT "t.result_created_at" "j.exported_at"]))].

Definition sql_Job_ListEligibleForExport (limit : Z) : M (res (list CrawlJob)) :=
  sql_query_jobs (select_jobs eligible_condition [("j.completed_at", true)] (Some limit) None
                    (Some "j.id")).

Definition sql_Job_TryStartExport (jobID : CrawlJobID) : M (res bool) :=
  try rowsAffected <- sql_update
    {| upd_table := "crawl_jobs";
      upd_set := [("export_status", Arg (DText ExportStatusInProgress))];
       upd_where := AND [sq_Eq "id" (DText (value jobID));
                         sq_Eq "export_status" (DText ExportStatusNotStarted)] |};
  if negb (rowsAffected =? 1)%nat then ret_err (ENew "more than 1 row affected")
  else ret_ok (rowsAffected =? 1)%nat.

Definition sql_Job_FailExport (jobID : CrawlJobID) : M (res unit) :=
  sql_exec
    {| upd_table := "crawl_jobs"; upd_set := [("export_status", Arg (DText ExportStatusFailed))];
       upd_where := sq_Eq "id" (DText (value jobID)) |}.

End Statements.
