(* ===== verification/SqlRefines.v ===== *)
(** * The statements do what the row-level repositories do

    For each method of [Statements] the method of [Repos] with the same effect and the same answer:
    reading methods agree in everything, writing methods up to which of several violated constraints
    the error names. *)

From S2P Require Import Prelude GoStrings Domain Json Converters World Sql Repos Relational Schema.
From S2P Require Import Statements.

#[local] Arguments and3 : simpl never.
#[local] Arguments or3 : simpl never.
#[local] Arguments in3 : simpl never.

(** Equal worlds; equal answers, or an error on both sides. *)
Definition agree {A} (x y : outcome (res A) * world) : Prop :=
  x.2 = y.2
  /\ match x.1, y.1 with
     | Ret (Ok a), Ret (Ok b) => a = b
     | Ret (Err _), Ret (Err _) => True
     | Panic s, Panic s' => s = s'
     | _, _ => False
     end.

Definition refines {A} (m m' : M (res A)) : Prop := forall w, db_wf (db w) -> agree (m w) (m' w).

Infix "⊑" := refines (at level 70).

Lemma agree_refl {A} (x : outcome (res A) * world) : agree x x.
Proof. split; [done|]. by destruct x as [[[]|] ?]. Qed.

Lemma refines_eq {A} (m m' : M (res A)) : (forall w, db_wf (db w) -> m w = m' w) -> m ⊑ m'.
Proof. intros H w Hw. rewrite (H w Hw). apply agree_refl. Qed.

Section Refinement.
Context `{Env, JsonLib}.

(** ** Reading *)

(** The rows of a result, as a function of what they encode. *)
Definition through {A B} (g : A -> B) (x : outcome (res (list A)) * world)
  : outcome (res (list B)) * world :=
  (match x.1 with
   | Ret (Ok l) => Ret (Ok (g <$> l))
   | Ret (Err e) => Ret (Err e)
   | Panic s => Panic s
   end, x.2).

Lemma sql_query_spec {A} s (f : nat -> database -> list A) g w :
  run_select db_schema (locked_at (ticks w)) (encode (db w)) s = Ok (g <$> f (ticks w) (db w)) ->
  sql_query s w = through g (query f w).
Proof.
  intros E. unfold sql_query, query, stmt, through.
  simpl. rewrite E. destruct (tx w) as [[]|]; [done| |]; by destruct (verdict_at (ticks w)).
Qed.

(** What [query] answers is what its function computes. *)
Lemma query_answers {A} (f : nat -> database -> list A) w l w' :
  query f w = (Ret (Ok l), w') -> l = f (ticks w) (db w).
Proof.
  unfold query, stmt. simpl. destruct (tx w) as [[]|], (verdict_at (ticks w)); intros E;
    by simplify_eq.
Qed.

(** The statement of a reading method, on what the rows encode. *)
Definition reads {A B} (s : select_stmt) (scan : list (string * datum) -> res B)
    (f : nat -> database -> list A) (row_of : A -> res B) : Prop :=
  forall n d, db_wf d ->
    exists g, run_select db_schema (locked_at n) (encode d) s = Ok (g <$> f n d)
              /\ forall a, a ∈ f n d -> scan (g a) = row_of a.

Lemma map_res_through {A B C} (g : A -> B) (scan : B -> res C) (row_of : A -> res C) l :
  (forall a, a ∈ l -> scan (g a) = row_of a) -> map_res scan (g <$> l) = map_res row_of l.
Proof.
  induction l as [|a l IH]; intros Hl; [done|]. rewrite fmap_cons. simpl. rewrite (Hl a) by left.
  by rewrite IH by (intros; apply Hl; by right).
Qed.

Lemma reads_all {A B C} s scan (f : nat -> database -> list A) (row_of : A -> res B)
    (restore : B -> res C) :
  reads s scan f row_of ->
  sql_scan_all s scan restore
  ⊑ (try l <- query f; lift_res (snaps ← map_res row_of l; map_res restore snaps)).
Proof.
  intros Hr. apply refines_eq. intros w Hw. destruct (Hr (ticks w) (db w) Hw) as (g & E & Hg).
  unfold sql_scan_all, try_bind, mbind, M_bind. rewrite (sql_query_spec s f g w E).
  destruct (query f w) as [[[l|e]|m] w'] eqn:Eq; [|done..]. simpl.
  apply query_answers in Eq as ->. by rewrite (map_res_through g _ row_of).
Qed.

Lemma reads_one {A B C} s scan (f : nat -> database -> list A) (row_of : A -> res B)
    (restore : B -> res C) w :
  reads s scan f row_of -> db_wf (db w) ->
  sql_scan_one s scan restore w
  = (try l <- query f;
     match l with [] => ret_err ErrNoRows | a :: _ => lift_res (b ← row_of a; restore b) end) w.
Proof.
  intros Hr Hw. destruct (Hr (ticks w) (db w) Hw) as (g & E & Hg).
  unfold sql_scan_one, try_bind, mbind, M_bind. rewrite (sql_query_spec s f g w E).
  destruct (query f w) as [[[l|e]|m] w'] eqn:Eq; [|done..].
  apply query_answers in Eq as El. destruct l as [|a l]; [done|]. simpl. rewrite Hg; [done|].
  rewrite <- El. by left.
Qed.

Lemma map_res_Ok {A} (l : list A) : map_res Ok l = Ok l.
Proof. induction l as [|a l IH]; [done|]. simpl. by rewrite IH. Qed.

(** The common case: scanning gives back the row. *)
Lemma scan_all_refines {A B} s scan (f : nat -> database -> list A) (restore : A -> res B) :
  reads s scan f Ok -> sql_scan_all s scan restore ⊑ scan_all f restore.
Proof.
  intros Hr w Hw. pose proof (reads_all s scan f Ok restore Hr w Hw) as Ha.
  unfold scan_all, try_bind, mbind, M_bind in *. destruct (query f w) as [[[l|e]|m] w'] eqn:Eq;
    [|done..].
  by rewrite map_res_Ok in Ha.
Qed.

Lemma scan_one_refines {A B} s scan (f : nat -> database -> list A) (restore : A -> res B) :
  reads s scan f Ok -> sql_scan_one s scan restore ⊑ scan_one f restore.
Proof. intros Hr. apply refines_eq. intros w Hw. exact (reads_one s scan f Ok restore w Hr Hw). Qed.

Lemma scan_optional_refines {A B} s scan (f : nat -> database -> list A) (restore : A -> res B) :
  reads s scan f Ok -> sql_scan_optional s scan restore ⊑ scan_optional f restore.
Proof.
  intros Hr. apply refines_eq. intros w Hw. pose proof (reads_one s scan f Ok Ok w Hr Hw) as E.
  unfold sql_scan_optional, scan_optional, try_bind, mbind, M_bind in *. rewrite E.
  destruct (query f w) as [[[[|a l]|e]|m] w'] eqn:Eq; try done.
Qed.

(** A statement on one table. *)
Lemma plain_rows sch d t : rows_of sch d (From t "") = rows d t.
Proof. simpl. transitivity (id <$> rows d t); [|by rewrite list_fmap_id]. by apply list_fmap_ext.
Qed.

Lemma reads_table {A} s (enc : A -> list (string * datum)) scan t (l : database -> list A)
    (p : nat -> A -> bool) sort f :
  (forall n d, f n d = cut (sel_limit s) limit_rows
                         (cut (sel_offset s) offset_rows (sort (bfilter (p n) (l d))))) ->
  sel_from s = From t "" -> (forall d, rows (encode d) t = enc <$> l d) -> select_ok db_schema s
    = true ->
  (forall n d a, is_true (holds db_schema (encode d) (enc a) (sel_where s))
                 && unlocked (sel_lock s) (locked_at n) (enc a) = p n a) ->
  sorts (sel_order s) enc sort -> (forall x a, a ∈ sort x -> a ∈ x) ->
  (forall d a, db_wf d -> a ∈ l d -> scan (project (sel_columns s) (enc a)) = Ok a) ->
  reads s scan f Ok.
Proof.
  intros Hfn Hf Hl Hok Hp Hs Hin Hscan n d Hd. exists (fun a => project (sel_columns s) (enc a)).
  rewrite Hfn. split.
  - unfold run_select. rewrite Hok.
    rewrite (selected_spec db_schema (locked_at n) (encode d) s enc (l d) (p n) sort);
      [by rewrite <- list_fmap_compose|by rewrite Hf, plain_rows| |done].
    intros a _. apply Hp.
  - intros a Ha. apply (Hscan d); [done|].
    assert (Ha' : a ∈ sort (bfilter (p n) (l d))).
    { destruct (sel_limit s), (sel_offset s); simpl in Ha;
        repeat first [apply elem_of_limit_rows in Ha | done |
          unfold offset_rows in Ha; destruct (_ <? 0) in Ha; [by apply elem_of_nil in Ha|];
          by eapply subseteq_drop in Ha]. }
    apply Hin in Ha'. by apply elem_of_bfilter in Ha' as [_ ?].
Qed.

(** ** The reading methods *)

Lemma sort_one {A} c (asc : bool) (enc : A -> list (string * datum)) le :
  (forall a b, (if asc then datum_le (col (enc a) c) (col (enc b) c)
                else datum_le (col (enc b) c) (col (enc a) c)) = le a b) ->
  sorts [(c, asc)] enc (order_by le).
Proof. intros E. apply sorts_by; [done|]. intros a b. rewrite order_one. apply E. Qed.

Lemma depth_of d a : db_wf d -> a ∈ tasks d -> 0 <= ts_Depth a.
Proof. intros Hd Ha. destruct (db_wf_decodes d Hd) as [_ Ht]. rewrite Forall_forall in Ht.
by apply Ht. Qed.

(** What a task, an event, a user, a token and a configuration scan to. *)
Lemma scan_project_task t : 0 <= ts_Depth t ->
  scan_task (project (plain_columns crawlTaskColumns) (enc_task t)) = Ok t.
Proof. intros Ht. exact (scan_enc_task t Ht). Qed.
Lemma scan_project_event e : scan_event (project (plain_columns outbox_columns) (enc_event e))
  = Ok e.
Proof. exact (scan_enc_event e). Qed.
Lemma scan_project_user u : scan_user (project (plain_columns user_columns) (enc_user u)) = Ok u.
Proof. unfold scan_user. scan_tac. by destruct u. Qed.
Lemma scan_project_token t : scan_token (project (plain_columns token_columns) (enc_token t))
  = Ok t.
Proof. exact (scan_enc_token t). Qed.
Lemma scan_project_config c : scan_config (project (plain_columns config_columns) (enc_config c))
  = Ok c.
Proof. unfold scan_config. scan_tac. by destruct c. Qed.

(** The side conditions of [reads_table]. *)
Ltac table_read :=
  try done;
  first [ by intros; simpl; rewrite ?andb_true_r | by apply sort_one | by apply sorts_none
        | by intros ? ? ?%elem_of_order_by
        | by intros; eauto using scan_project_task, depth_of, scan_project_event, scan_project_user,
            scan_project_token, scan_project_config ].

Lemma Task_ListByJob_refines jobID : sql_Task_ListByJob jobID ⊑ Task_ListByJob jobID.
Proof.
  apply scan_all_refines.
  apply (reads_table _ enc_task _ "crawl_tasks" tasks (fun _ t => bool_decide (ts_JobID t = value
    jobID))
           (order_by by_enqueued)); table_read.
Qed.

Lemma Task_ListByStatus_refines status limit :
  sql_Task_ListByStatus status limit ⊑ Task_ListByStatus status limit.
Proof.
  apply scan_all_refines.
  apply (reads_table _ enc_task _ "crawl_tasks" tasks (fun _ t => bool_decide
    (ts_Status t = status))
           (order_by by_enqueued)); table_read.
Qed.

Lemma is_stale_holds olderThan d t :
  is_true (holds db_schema (encode d) (enc_task t)
             (AND [sq_Eq "status" (DText TaskStatusInProgress);
                   Compare LT "enqueued_at" (DTime olderThan)])) = is_stale olderThan t.
Proof. unfold is_stale. simpl. by rewrite !is_true_and, andb_true_r. Qed.

Lemma Task_ListStaleInProgress_refines olderThan limit :
  sql_Task_ListStaleInProgress olderThan limit ⊑ Task_ListStaleInProgress olderThan limit.
Proof.
  apply scan_all_refines.
  apply (reads_table _ enc_task _ "crawl_tasks" tasks (fun _ => is_stale olderThan)
           (order_by by_enqueued)); try table_read.
  intros n d a. cbn [sel_lock sel_where unlocked select_tasks].
  by rewrite is_stale_holds, andb_true_r.
Qed.

Lemma Task_ExistsByJobIDAndURL_refines jobID url :
  sql_Task_ExistsByJobIDAndURL jobID url ⊑ Task_ExistsByJobIDAndURL jobID url.
Proof.
  apply refines_eq. intros w Hw. unfold sql_Task_ExistsByJobIDAndURL, Task_ExistsByJobIDAndURL.
  set (f := fun (_ : nat) d => limit_rows 1 _).
  set (s := {| sel_columns := _ |}).
  assert (Hr : reads s (fun _ => Ok 1) f (fun _ => Ok 1)).
  { intros n d Hd. exists (fun a => project [] (enc_task a)). split; [|done]. unfold run_select.
    rewrite (selected_spec db_schema (locked_at n) (encode d) s enc_task (tasks d)
      (fun t => bool_decide (ts_JobID t = value jobID) && bool_decide (ts_URL t = url)
                && negb (bool_decide (ts_Status t = TaskStatusInProgress))) (fun l => l));
      [by rewrite <- list_fmap_compose|apply plain_rows| |done].
    intros a _. simpl. by rewrite !is_true_and, !andb_true_r, andb_assoc. }
  pose proof (reads_one s _ f _ Ok w Hr Hw) as E.
  unfold try_bind, mbind, M_bind in *. rewrite E.
  by destruct (query f w) as [[[[|a l]|e]|m] w'].
Qed.

Lemma Outbox_FetchUnprocessedEvents_refines limit :
  sql_Outbox_FetchUnprocessedEvents limit ⊑ Outbox_FetchUnprocessedEvents limit.
Proof.
  apply scan_all_refines.
  apply (reads_table _ enc_event _ "crawl_task_outbox" outbox
           (fun n e => unprocessed e && negb (locked_at n (os_ID e)))
           (order_by (fun a b => os_OccurredAt a <=? os_OccurredAt b))); try table_read.
  intros n d a. simpl. unfold col. simpl. unfold unprocessed. by destruct (os_ProcessedAt a).
Qed.

Lemma User_GetByID_refines id : sql_User_GetByID id ⊑ User_GetByID id.
Proof.
  apply scan_optional_refines.
  apply (reads_table _ enc_user _ "users" users (fun _ u => bool_decide (us_ID u = value id))
    (fun l => l));
    table_read.
Qed.

Lemma User_GetByEmail_refines email : sql_User_GetByEmail email ⊑ User_GetByEmail email.
Proof.
  apply scan_optional_refines.
  apply (reads_table _ enc_user _ "users" users (fun _ u => bool_decide (us_Email u = email))
    (fun l => l));
    table_read.
Qed.

Lemma bfilter_all {A} (l : list A) : bfilter (fun _ => true) l = l.
Proof. unfold bfilter. induction l as [|a l IH]; [done|]. by rewrite filter_cons, IH. Qed.

Lemma bfilter_none {A} (l : list A) : bfilter (fun _ => false) l = [].
Proof. unfold bfilter. by induction l. Qed.

Lemma User_List_refines : sql_User_List ⊑ User_List.
Proof.
  apply scan_all_refines.
  apply (reads_table _ enc_user _ "users" users (fun _ _ => true)
           (order_by (fun a b => us_CreatedAt b <=? us_CreatedAt a))); try table_read.
  intros n d. simpl. by rewrite bfilter_all.
Qed.

Lemma Token_GetByTokenHash_refines h : sql_Token_GetByTokenHash h ⊑ Token_GetByTokenHash h.
Proof.
  apply scan_optional_refines.
  apply (reads_table _ enc_token _ "refresh_tokens" tokens (fun _ t => bool_decide (rs_TokenHash t =
    h))
           (fun l => l)); table_read.
Qed.

Lemma Token_GetByID_refines id : sql_Token_GetByID id ⊑ Token_GetByID id.
Proof.
  apply scan_optional_refines.
  apply (reads_table _ enc_token _ "refresh_tokens" tokens (fun _ t => bool_decide (rs_ID t = value
    id))
           (fun l => l)); table_read.
Qed.

Lemma Config_Get_refines id : sql_Config_Get id ⊑ Config_Get id.
Proof.
  apply scan_one_refines.
  apply (reads_table _ enc_config _ "crawl_job_configs" configs
           (fun _ c => bool_decide (cs_ID c = value id)) (fun l => l)); table_read.
Qed.

Lemma Config_ListAllScheduled_refines limit offset :
  sql_Config_ListAllScheduled limit offset ⊑ Config_ListAllScheduled limit offset.
Proof.
  apply scan_all_refines.
  apply (reads_table _ enc_config _ "crawl_job_configs" configs
           (fun _ c => bool_decide (cs_JobType c = JobTypeScheduled))
           (order_by (fun a b => text_le (cs_Name a) (cs_Name b)))); table_read.
Qed.

(** ** Joins *)

Lemma bind_fmap {A B C} (f : A -> B) (g : B -> list C) (l : list A) :
  (f <$> l) ≫= g = l ≫= (fun a => g (f a)).
Proof. induction l as [|a l IH]; [done|]. rewrite fmap_cons. csimpl. by rewrite IH. Qed.

Lemma fmap_bind {A B C} (g : B -> C) (f : A -> list B) (l : list A) :
  g <$> (l ≫= f) = l ≫= (fun a => g <$> f a).
Proof. induction l as [|a l IH]; [done|]. csimpl. by rewrite fmap_app, IH. Qed.

Lemma bind_ext_in {A B} (f g : A -> list B) (l : list A) :
  (forall a, a ∈ l -> f a = g a) -> l ≫= f = l ≫= g.
Proof.
  induction l as [|a l IH]; intros E; [done|]. csimpl. rewrite (E a) by left.
  by rewrite IH by (intros; apply E; by right).
Qed.

(** The rows that match a row, on what they encode. *)
Lemma inner_rows_enc {A} c1 c2 alias (enc : A -> list (string * datum)) l r p :
  (forall a, join_on c1 c2 (r ++ qualify alias (enc a)) = p a) ->
  inner_rows c1 c2 (qualify alias <$> (enc <$> l)) r
  = (fun a => r ++ qualify alias (enc a)) <$> bfilter p l.
Proof.
  intros E. unfold inner_rows. rewrite <- !list_fmap_compose, bfilter_fmap.
  apply (f_equal (fmap _)), bfilter_ext. intros a _. apply E.
Qed.

Lemma app_inj_bool (a b : string) : bool_decide (a = b) = bool_decide (b = a).
Proof. by apply bool_decide_ext. Qed.

Definition enc_pair (p : CrawlTaskSnapshot * CrawlJobSnapshot) : list (string * datum) :=
  qualify "t" (enc_task p.1) ++ qualify "j" (enc_job p.2).
Definition task_pairs (d : database) : list (CrawlTaskSnapshot * CrawlJobSnapshot) :=
  t ← tasks d; pair t <$> bfilter (fun j => bool_decide (js_ID j = ts_JobID t)) (jobs d).

Lemma join_rows d : rows_of db_schema (encode d) crawlTaskJobJoin = enc_pair <$> task_pairs d.
Proof.
  cbn [rows_of crawlTaskJobJoin].
  change (rows (encode d) "crawl_tasks") with (enc_task <$> tasks d).
  change (rows (encode d) "crawl_jobs") with (enc_job <$> jobs d).
  rewrite !bind_fmap. unfold task_pairs. rewrite fmap_bind. apply bind_ext_in. intros t _.
  rewrite (inner_rows_enc _ _ "j" enc_job (jobs d) _ (fun j => bool_decide (js_ID j = ts_JobID t)));
    [by rewrite <- list_fmap_compose|]. intros j. apply app_inj_bool.
Qed.

Lemma bfilter_bind {A B} (p : B -> bool) (q : A -> bool) (f : A -> list B) l :
  (forall a b, b ∈ f a -> p b = q a) -> bfilter p (l ≫= f) = bfilter q l ≫= f.
Proof.
  intros E. assert (Happ : forall x y, bfilter p (x ++ y) = bfilter p x ++ bfilter p y)
    by (intros; apply filter_app).
  induction l as [|a l IH]; [done|]. csimpl. rewrite Happ, IH.
  unfold bfilter at 3. rewrite filter_cons.
  destruct (decide (q a = true)) as [Hq|Hq]; csimpl.
  - f_equal. rewrite (bfilter_ext _ (fun _ => true)); [apply bfilter_all|]. intros b Hb.
    by rewrite (E a b Hb).
  - rewrite (bfilter_ext _ (fun _ => false)); [|intros b Hb; rewrite (E a b Hb);
      by apply not_true_is_false].
    by rewrite bfilter_none.
Qed.

Definition row_with_job (x : CrawlTaskWithJobSnapshot) : list (string * datum) :=
  match tj_Job x with
  | Some j => project (plain_columns crawlTaskWithJobSelectColumns) (enc_pair (tj_Task x, j))
  | None => []
  end.

Lemma scan_NullString_text o : scan_NullString (null_text o) = Ok o.
Proof. by destruct o. Qed.
Lemma scan_NullTime_time o : scan_NullTime (null_time o) = Ok o.
Proof. by destruct o. Qed.
Lemma scan_NullInt64_int o : scan_NullInt64 (null_int o) = Ok o.
Proof. by destruct o. Qed.
Lemma scan_JSONB_json o : scan_JSONB (null_json o) = Ok o.
Proof. by destruct o. Qed.

Ltac scan_positions :=
  cbn [scan_string scan_Time scan_bool scan_uint64 mbind res_bind];
  rewrite ?scan_NullString_text; cbn [mbind res_bind];
  rewrite ?scan_NullTime_time; cbn [mbind res_bind];
  rewrite ?scan_NullInt64_int; cbn [mbind res_bind];
  rewrite ?scan_JSONB_json; cbn [mbind res_bind].

Lemma row_with_job_data t j :
  (row_with_job (scanCrawlTaskWithJob t j)).*2
  = task_values t ++ [DText (js_ID j); null_text (js_JobConfigID j); DText (js_Status j);
                      DTime (js_CreatedAt j); null_time (js_CompletedAt j)].
Proof. reflexivity. Qed.

Lemma row_of_pair t j :
  project (plain_columns crawlTaskWithJobSelectColumns) (enc_pair (t, j))
  = row_with_job (scanCrawlTaskWithJob t j).
Proof. vm_compute. reflexivity. Qed.

Lemma scan_with_job t j :
  0 <= ts_Depth t ->
  sql_scanCrawlTaskWithJob (row_with_job (scanCrawlTaskWithJob t j))
    = Ok (scanCrawlTaskWithJob t j).
Proof.
  intros Ht. unfold sql_scanCrawlTaskWithJob. rewrite row_with_job_data. cbn [task_values app].
  repeat scan_positions. apply Z.leb_le in Ht as ->. repeat scan_positions. by destruct t.
Qed.

Lemma Task_Get_refines id : sql_Task_Get id ⊑ Task_Get id.
Proof.
  apply scan_one_refines. set (s := {| sel_columns := _ |}). intros n d Hd. exists row_with_job.
  split.
  - unfold run_select. change (select_ok db_schema s) with true. cbn iota.
    rewrite (selected_spec db_schema (locked_at n) (encode d) s enc_pair (task_pairs d)
      (fun p => bool_decide (ts_ID p.1 = value id)) (fun l => l)); [|apply join_rows| |done].
    + f_equal. unfold tasks_with_job. cbn [sel_limit sel_offset cut s].
      rewrite <- !limit_fmap. f_equal. unfold task_pairs.
      rewrite (bfilter_bind _ (fun t => bool_decide (ts_ID t = value id)));
        [|intros t p Hp; by apply list_elem_of_fmap in Hp as (j & -> & _)].
      rewrite !fmap_bind. apply bind_ext_in. intros t _. rewrite <- !list_fmap_compose.
      apply list_fmap_ext. intros _ j _. apply row_of_pair.
    + intros [t j] _. simpl. by rewrite andb_true_r.
  - intros a Ha. apply elem_of_limit_rows, list_elem_of_bind in Ha as (t & Ha & Ht).
    apply elem_of_bfilter in Ht as [_ Ht]. apply list_elem_of_fmap in Ha as (j & -> & _).
    by eapply scan_with_job, depth_of.
Qed.

(** *** Jobs with their configurations *)

Definition config_part (o : option CrawlJobConfigSnapshot) : list (string * datum) :=
  qualify "c" match o with
              | Some c => enc_config c
              | None => null_row (table_of db_schema "crawl_job_configs")
              end.
Definition enc_joined (p : CrawlJobSnapshot * option CrawlJobConfigSnapshot) :
  list (string * datum) :=
  qualify "j" (enc_job p.1) ++ config_part p.2.

Lemma bfilter_key {A} (key : A -> string) l x :
  NoDup (key <$> l) ->
  bfilter (fun a => bool_decide (key a = x)) l
    = option_list (head (bfilter (fun a => bool_decide (key a = x)) l)).
Proof.
  induction l as [|a l IH]; intros Hn; [done|]. rewrite fmap_cons in Hn.
  apply NoDup_cons in Hn as [Ha Hn].
  unfold bfilter in *. rewrite filter_cons. destruct (decide _) as [E|E]; [|by apply IH].
  apply bool_decide_eq_true in E. simpl. f_equal. apply elem_of_nil_inv. intros b Hb.
  apply list_elem_of_filter in Hb as [Eb Hb]. apply bool_decide_eq_true in Eb. apply Ha.
  rewrite E, <- Eb. by apply list_elem_of_fmap_2.
Qed.

Lemma left_join_rows d :
  NoDup (cs_ID <$> configs d) ->
  rows_of db_schema (encode d) job_source = (fun j => enc_joined (join_config d j)) <$> jobs d.
Proof.
  intros Hn. cbn [rows_of job_source].
  change (rows (encode d) "crawl_jobs") with (enc_job <$> jobs d).
  change (rows (encode d) "crawl_job_configs") with (enc_config <$> configs d).
  rewrite !bind_fmap.
  transitivity (jobs d ≫= (fun j => [enc_joined (join_config d j)]));
    [|induction (jobs d) as [|j l IH]; [done|]; csimpl; by rewrite <- IH].
  apply bind_ext_in. intros j _. unfold enc_joined, join_config, job_config_row. cbn [fst snd].
  destruct (js_JobConfigID j) as [x|] eqn:Ej.
  - rewrite (inner_rows_enc _ _ "c" enc_config (configs d) _ (fun c => bool_decide (cs_ID c = x))).
    + rewrite (bfilter_key cs_ID) by done. by destruct (head _).
    + intros c. unfold join_on. simpl. unfold col. simpl. rewrite Ej. apply app_inj_bool.
  - rewrite (inner_rows_enc _ _ "c" enc_config (configs d) _ (fun _ => false)).
    + by rewrite bfilter_none.
    + intros c. unfold join_on. simpl. unfold col. simpl. by rewrite Ej.
Qed.

Definition job_values (e : CrawlJobSnapshot) : list datum :=
  [DText (js_ID e); null_text (js_JobConfigID e); null_text (js_UserID e); null_text (js_Name e);
   DText (js_Status e); DTime (js_CreatedAt e); null_time (js_CompletedAt e);
   null_text (js_ExportJSONKey e); null_text (js_ExportCSVKey e); null_time (js_ExportedAt e);
   null_text (js_ExportStatus e)].
Definition config_values (e : CrawlJobConfigSnapshot) : list datum :=
  [DText (cs_ID e); null_text (cs_UserID e); DText (cs_Name e); null_json (cs_ExtractionSpec e);
   null_json (cs_Scopes e); null_json (cs_Seeds e); null_json (cs_RateLimit e);
   null_json (cs_Retries e); null_json (cs_Auth e); null_json (cs_Schedule e); DText (cs_JobType e);
   DBool (cs_RespectRobotsTxt e); DText (cs_CrawlMode e); null_json (cs_QueueWeights e)].

Lemma joined_data j o :
  (project job_select_columns (enc_joined (j, o))).*2
  = job_values j ++ match o with Some c => config_values c | None => replicate 14 DNull end.
Proof. by destruct o. Qed.

Lemma scan_joined p :
  sql_scanCrawlJobWithConfig (project job_select_columns (enc_joined p)) = scanCrawlJobWithConfig p.
Proof.
  destruct p as [j o]. unfold sql_scanCrawlJobWithConfig, scanCrawlJobWithConfig.
  rewrite joined_data. destruct o as [c|]; cbn [job_values config_values app replicate fst snd];
    repeat scan_positions; [|done].
  unfold with_config. by destruct c, j.
Qed.

Lemma reads_jobs w order limit offset lock (p : nat -> database -> CrawlJobSnapshot ->
  bool) sort f :
  (forall n d, f n d = cut limit limit_rows (cut offset offset_rows
    (sort (bfilter (p n d) (jobs d))))) ->
  select_ok db_schema (select_jobs w order limit offset lock) = true ->
  (forall n d j, db_wf d ->
     is_true (holds db_schema (encode d) (enc_joined (join_config d j)) w)
     && unlocked lock (locked_at n) (enc_joined (join_config d j)) = p n d j) ->
  (forall d, sorts order (fun j => enc_joined (join_config d j)) sort) ->
  reads (select_jobs w order limit offset lock) sql_scanCrawlJobWithConfig
    (fun n d => join_config d <$> f n d) scanCrawlJobWithConfig.
Proof.
  intros Hf Hok Hp Hs n d Hd. exists (fun a => project job_select_columns (enc_joined a)).
  split; [|intros a _; apply scan_joined]. unfold run_select. rewrite Hok.
  rewrite (selected_spec db_schema (locked_at n) (encode d) (select_jobs w order limit offset lock)
    (fun j => enc_joined (join_config d j)) (jobs d) (p n d) sort);
    [|apply left_join_rows, Hd|intros j _; by apply Hp|apply Hs].
  rewrite Hf. f_equal. by rewrite <- !list_fmap_compose.
Qed.

Lemma query_jobs_refines s f :
  reads s sql_scanCrawlJobWithConfig (fun n d => join_config d <$> f n d) scanCrawlJobWithConfig ->
  sql_query_jobs s ⊑ query_jobs f.
Proof. intros Hr. exact (reads_all _ _ _ _ RestoreCrawlJobFromSnapshot Hr). Qed.

Lemma query_job_eq s f w :
  reads s sql_scanCrawlJobWithConfig (fun n d => join_config d <$> f n d) scanCrawlJobWithConfig ->
  db_wf (db w) ->
  sql_scan_one s sql_scanCrawlJobWithConfig RestoreCrawlJobFromSnapshot w = query_job f w.
Proof. intros Hr Hw. exact (reads_one _ _ _ _ RestoreCrawlJobFromSnapshot w Hr Hw). Qed.

(** The columns of the job in a joined row. *)
Lemma joined_id p : col (enc_joined p) "j.id" = DText (js_ID p.1).
Proof. reflexivity. Qed.
Lemma joined_config_id p : col (enc_joined p) "j.job_config_id" = null_text (js_JobConfigID p.1).
Proof. reflexivity. Qed.
Lemma joined_status p : col (enc_joined p) "j.status" = DText (js_Status p.1).
Proof. reflexivity. Qed.
Lemma joined_created p : col (enc_joined p) "j.created_at" = DTime (js_CreatedAt p.1).
Proof. reflexivity. Qed.
Lemma joined_completed p : col (enc_joined p) "j.completed_at" = null_time (js_CompletedAt p.1).
Proof. reflexivity. Qed.
Lemma joined_exported p : col (enc_joined p) "j.exported_at" = null_time (js_ExportedAt p.1).
Proof. reflexivity. Qed.
Lemma joined_export_status p : col (enc_joined p) "j.export_status"
  = null_text (js_ExportStatus p.1).
Proof. reflexivity. Qed.

Lemma sorts_newest d : sorts [("j.created_at", false)] (fun j => enc_joined (join_config d j))
  (order_by newest_first).
Proof. apply sort_one. intros a b. by rewrite !joined_created. Qed.

Lemma Job_Get_refines id : sql_Job_Get id ⊑ Job_Get id.
Proof.
  apply refines_eq. intros w Hw. apply query_job_eq; [|done].
  apply (reads_jobs _ _ _ _ _ (fun _ _ => is_job (value id)) (fun l => l)); try done.
  intros n d j _. cbn [holds sq_Eq unlocked]. by rewrite joined_id, andb_true_r.
Qed.

Lemma Job_List_refines status limit offset :
  sql_Job_List status limit offset ⊑ Job_List status limit offset.
Proof.
  apply query_jobs_refines.
  apply (reads_jobs _ _ _ _ _ (fun _ _ j => bool_decide (js_Status j = status))
    (order_by newest_first));
    try done; [|apply sorts_newest].
  intros n d j _. cbn [holds sq_Eq unlocked]. by rewrite joined_status, andb_true_r.
Qed.

Lemma Job_ListAll_refines limit offset : sql_Job_ListAll limit offset ⊑ Job_ListAll limit offset.
Proof.
  apply query_jobs_refines.
  apply (reads_jobs _ _ _ _ _ (fun _ _ _ => true) (order_by newest_first)); try done;
    [|apply sorts_newest].
  intros n d. by rewrite bfilter_all.
Qed.

Lemma Job_GetLatestByConfigID_refines configID :
  sql_Job_GetLatestByConfigID configID ⊑ Job_GetLatestByConfigID configID.
Proof.
  apply refines_eq. intros w Hw. unfold sql_Job_GetLatestByConfigID, Job_GetLatestByConfigID.
  unfold try_bind, mbind, M_bind. erewrite query_job_eq; [done| |done].
  apply (reads_jobs _ _ _ _ _ (fun _ _ j => bool_decide (js_JobConfigID j = Some (value configID)))
           (order_by newest_first)); try done; [|apply sorts_newest].
  intros n d j _. cbn [holds sq_Eq unlocked]. rewrite joined_config_id, andb_true_r.
  cbn [fst join_config]. destruct (js_JobConfigID j) as [x|]; [|done]. simpl.
  apply bool_decide_ext. naive_solver.
Qed.

(** *** The jobs to export *)

Lemma in3_text v l : in3 (DText v) (DText <$> l) = Some (existsb (fun x => bool_decide (v = x)) l).
Proof.
  unfold in3. induction l as [|x l IH]; [done|]. rewrite fmap_cons. cbn [foldr existsb]. rewrite IH.
  simpl. unfold or3, and3, not3. by destruct (bool_decide (v = x)), (existsb _ l).
Qed.

(** A task of a subquery, with the row around it. *)
Definition with_task (t : CrawlTaskSnapshot) (env : list (string * datum)) :
  list (string * datum) :=
  qualify "t" (enc_task t) ++ env.

Lemma exists_task env w d (p : CrawlTaskSnapshot -> bool) :
  (forall t, is_true (holds db_schema (encode d) (with_task t env) w) = p t) ->
  existsb (fun r => is_true (holds db_schema (encode d) (r ++ env) w))
          (rows_of db_schema (encode d) (From "crawl_tasks" "t")) = existsb p (tasks d).
Proof.
  intros E. cbn [rows_of]. change (rows (encode d) "crawl_tasks") with (enc_task <$> tasks d).
  rewrite !existsb_fmap. apply existsb_ext_in. intros t _. apply E.
Qed.

Lemma task_job_id t env : col (with_task t env) "t.job_id" = DText (ts_JobID t).
Proof. reflexivity. Qed.
Lemma task_status t env : col (with_task t env) "t.status" = DText (ts_Status t).
Proof. reflexivity. Qed.
Lemma task_result_key t env : col (with_task t env) "t.result_object_key"
  = null_text (ts_ResultObjectKey t).
Proof. reflexivity. Qed.
Lemma task_result_created t env : col (with_task t env) "t.result_created_at"
  = null_time (ts_ResultCreatedAt t).
Proof. reflexivity. Qed.
Lemma task_outer_id t p : col (with_task t (enc_joined p)) "j.id" = DText (js_ID p.1).
Proof. reflexivity. Qed.
Lemma task_outer_exported t p :
  col (with_task t (enc_joined p)) "j.exported_at" = null_time (js_ExportedAt p.1).
Proof. reflexivity. Qed.

Ltac task_holds :=
  cbn [holds foldr]; rewrite ?is_true_and, ?is_true_or;
  rewrite ?task_job_id, ?task_status, ?task_result_key, ?task_result_created, ?task_outer_id,
    ?task_outer_exported.

Lemma unfinished_task p d :
  existsb (fun r => is_true (holds db_schema (encode d) (r ++ enc_joined p)
      (AND [CompareColumns EQ "t.job_id" "j.id";
            NOT_IN "t.status" [DText TaskStatusParsed; DText TaskStatusCompleted;
                               DText TaskStatusFailed; DText TaskStatusSkipped]])))
    (rows_of db_schema (encode d) (From "crawl_tasks" "t"))
  = existsb (fun t => negb (terminal_status (ts_Status t))) (tasks_of p.1 d).
Proof.
  unfold tasks_of. rewrite existsb_bfilter. apply exists_task. intros t. task_holds.
  rewrite (in3_text _ [TaskStatusParsed; TaskStatusCompleted; TaskStatusFailed; TaskStatusSkipped]).
  cbn [compare3 eq3 is_true not3 fmap option_fmap option_map existsb]. unfold terminal_status.
  by rewrite andb_true_r, orb_false_r, !orb_assoc.
Qed.

Lemma task_without_result p d :
  existsb (fun r => is_true (holds db_schema (encode d) (r ++ enc_joined p)
      (AND [CompareColumns EQ "t.job_id" "j.id";
            IN_LIST "t.status" [DText TaskStatusParsed; DText TaskStatusCompleted];
            OR (IS_NULL "t.result_object_key") (Compare EQ "t.result_object_key" (DText ""))])))
    (rows_of db_schema (encode d) (From "crawl_tasks" "t"))
  = existsb (fun t => parsed_status (ts_Status t) && negb (has_result_key t)) (tasks_of p.1 d).
Proof.
  unfold tasks_of. rewrite existsb_bfilter. apply exists_task. intros t. task_holds.
  rewrite (in3_text _ [TaskStatusParsed; TaskStatusCompleted]).
  cbn [compare3 eq3 is_true existsb]. unfold parsed_status, has_result_key.
  rewrite andb_true_r, orb_false_r. f_equal. f_equal.
  destruct (ts_ResultObjectKey t) as [k|]; simpl; [by rewrite negb_involutive|done].
Qed.

Lemma newer_result p d x :
  js_ExportedAt p.1 = Some x ->
  existsb (fun r => is_true (holds db_schema (encode d) (r ++ enc_joined p)
      (AND [CompareColumns EQ "t.job_id" "j.id";
            IN_LIST "t.status" [DText TaskStatusParsed; DText TaskStatusCompleted];
            IS_NOT_NULL "t.result_created_at";
            CompareColumns GT "t.result_created_at" "j.exported_at"])))
    (rows_of db_schema (encode d) (From "crawl_tasks" "t"))
  = existsb (fun t => parsed_status (ts_Status t)
                      && match ts_ResultCreatedAt t with None => false | Some r => x <? r end)
            (tasks_of p.1 d).
Proof.
  intros Ex. unfold tasks_of. rewrite existsb_bfilter. apply exists_task. intros t. task_holds.
  rewrite (in3_text _ [TaskStatusParsed; TaskStatusCompleted]), Ex.
  cbn [compare3 eq3 is_true existsb null_time]. unfold parsed_status. rewrite orb_false_r. f_equal.
  f_equal.
  destruct (ts_ResultCreatedAt t) as [k|]; simpl; [by rewrite andb_true_r|done].
Qed.

Lemma existsb_bind {A B} (q : B -> bool) (f : A -> list B) l :
  existsb q (l ≫= f) = existsb (fun a => existsb q (f a)) l.
Proof. induction l as [|a l IH]; [done|]. csimpl. by rewrite existsb_app, IH. Qed.

Lemma existsb_const {A} (p : A -> bool) c l : existsb (fun a => c && p a) l = c && existsb p l.
Proof. induction l as [|a l IH]; simpl; [by rewrite andb_false_r|]. rewrite IH. by destruct c. Qed.

Definition with_event (o : OutboxEventSnapshot) (t : CrawlTaskSnapshot)
  (env : list (string * datum))
  : list (string * datum) := (qualify "o" (enc_event o) ++ qualify "t_out" (enc_task t)) ++ env.

Lemma event_job_id o t env : col (with_event o t env) "t_out.job_id" = DText (ts_JobID t).
Proof. reflexivity. Qed.
Lemma event_processed o t env : col (with_event o t env) "o.processed_at"
  = null_time (os_ProcessedAt o).
Proof. reflexivity. Qed.
Lemma event_type o t env : col (with_event o t env) "o.event_type" = DText (os_EventType o).
Proof. reflexivity. Qed.
Lemma event_outer_id o t p : col (with_event o t (enc_joined p)) "j.id" = DText (js_ID p.1).
Proof. reflexivity. Qed.

Lemma pending_event p d :
  existsb (fun r => is_true (holds db_schema (encode d) (r ++ enc_joined p)
      (AND [CompareColumns EQ "t_out.job_id" "j.id"; IS_NULL "o.processed_at";
            Compare EQ "o.event_type" (DText EventTypeTaskEnqueued)])))
    (rows_of db_schema (encode d)
       (InnerJoin (From "crawl_task_outbox" "o") "crawl_tasks" "t_out" "t_out.id" "o.aggregate_id"))
  = negb (no_pending_events p.1 d).
Proof.
  unfold no_pending_events. rewrite negb_involutive. cbn [rows_of].
  change (rows (encode d) "crawl_task_outbox") with (enc_event <$> outbox d).
  change (rows (encode d) "crawl_tasks") with (enc_task <$> tasks d).
  rewrite !bind_fmap, existsb_bind. apply existsb_ext_in. intros o _.
  rewrite (inner_rows_enc _ _ "t_out" enc_task (tasks d) _ (fun t => bool_decide
    (ts_ID t = os_AggregateID o)))
    by done.
  rewrite existsb_fmap, existsb_bfilter, <- existsb_const. unfold tasks_of. rewrite existsb_bfilter.
  apply existsb_ext_in. intros t _.
  change ((qualify "o" (enc_event o) ++ qualify "t_out" (enc_task t)) ++ enc_joined p)
    with (with_event o t (enc_joined p)).
  cbn [holds foldr]. rewrite !is_true_and, event_job_id, event_processed, event_type,
    event_outer_id.
  cbn [compare3 eq3 is_true]. unfold unprocessed. rewrite !andb_true_r.
  repeat case_bool_decide; by destruct (os_ProcessedAt o).
Qed.

Lemma holds_NOT_EXISTS sch d env s w :
  is_true (holds sch d env (NOT_EXISTS s w))
  = negb (existsb (fun r => is_true (holds sch d (r ++ env) w)) (rows_of sch d s)).
Proof. done. Qed.
Lemma holds_EXISTS sch d env s w :
  is_true (holds sch d env (EXISTS s w))
  = existsb (fun r => is_true (holds sch d (r ++ env) w)) (rows_of sch d s).
Proof. done. Qed.
Lemma holds_OR sch d env a b :
  is_true (holds sch d env (OR a b)) = is_true (holds sch d env a) || is_true (holds sch d env b).
Proof. apply is_true_or. Qed.
Lemma holds_AND sch d env l :
  is_true (holds sch d env (AND l)) = forallb (fun c => is_true (holds sch d env c)) l.
Proof.
  induction l as [|c l IH]; [done|]. cbn [forallb]. rewrite <- IH. apply is_true_and.
Qed.

Lemma not_running_holds p d :
  is_true (holds db_schema (encode d) (enc_joined p) (sq_NotEq "j.export_status"
    (DText ExportStatusInProgress)))
  = export_not_running p.1.
Proof.
  cbn [holds sq_NotEq]. rewrite joined_export_status. unfold export_not_running.
  by destruct (js_ExportStatus p.1).
Qed.

Lemma never_exported p d :
  is_true (holds db_schema (encode d) (enc_joined p) (IS_NULL "j.exported_at"))
  = match js_ExportedAt p.1 with None => true | Some _ => false end.
Proof. cbn [holds]. rewrite joined_exported. by destruct (js_ExportedAt p.1). Qed.

Lemma eligible_holds d j :
  is_true (holds db_schema (encode d) (enc_joined (join_config d j)) eligible_condition)
  = eligible d j.
Proof.
  unfold eligible_condition. rewrite holds_AND. cbn [forallb].
  rewrite not_running_holds, !holds_NOT_EXISTS, unfinished_task, task_without_result, pending_event.
  rewrite holds_OR, never_exported, holds_EXISTS, negb_involutive, andb_true_r.
  unfold eligible, tasks_finished, export_outdated. cbn [fst join_config]. rewrite !andb_assoc.
  f_equal.
  destruct (js_ExportedAt j) as [x|] eqn:Ex; [|done].
  exact (newer_result (join_config d j) d x Ex).
Qed.

Lemma Job_ListEligibleForExport_refines limit :
  sql_Job_ListEligibleForExport limit ⊑ Job_ListEligibleForExport limit.
Proof.
  apply query_jobs_refines.
  apply (reads_jobs _ _ _ _ _ (fun n d j => eligible d j && negb (locked_at n (js_ID j)))
           (order_by (fun a b => null_last (js_CompletedAt a) (js_CompletedAt b)))); try done.
  - intros n d j _. rewrite eligible_holds. unfold unlocked. by rewrite joined_id.
  - intros d. apply sort_one. intros a b. rewrite !joined_completed. cbn [fst join_config].
    by destruct (js_CompletedAt a), (js_CompletedAt b).
Qed.

End Refinement.

Create HintDb statements.

#[export] Hint Resolve Task_ListByJob_refines Task_ListByStatus_refines
  Task_ListStaleInProgress_refines Task_ExistsByJobIDAndURL_refines
  Outbox_FetchUnprocessedEvents_refines User_GetByID_refines User_GetByEmail_refines
  User_List_refines Token_GetByTokenHash_refines Token_GetByID_refines Config_Get_refines
  Config_ListAllScheduled_refines Task_Get_refines Job_Get_refines Job_List_refines
  Job_ListAll_refines Job_GetLatestByConfigID_refines Job_ListEligibleForExport_refines :
    statements.
