(* ===== verification/SqlWrites.v ===== *)
(** * The writing statements of the repositories

    The second half of [SqlRefines]: insertions, updates and deletions leave the tables that the
    row-level methods of [Repos] leave, and fail when these do. *)

From S2P Require Import Prelude GoStrings Domain Json Converters World Sql Repos Relational Schema.
From S2P Require Import Statements SqlRefines.

Section Writes.
Context `{Env, JsonLib}.

(** ** Writing *)

(** What the statements leave and return: related answers and equal databases, or two errors. *)
Definition same_write {A B} (R : A -> B -> Prop) (x : res (A * database)) (y : res (B * database)) :
  Prop :=
  match x, y with
  | Ok (a, d), Ok (b, d') => R a b /\ d = d'
  | Err _, Err _ => True
  | _, _ => False
  end.

Lemma stmt_refines_with {A B C} (R : A -> B -> Prop) (F : nat -> database -> res (A * database))
    (G : nat -> database -> res (B * database)) (K : A -> M (res C)) (K' : B -> M (res C)) :
  (forall n d, db_wf d -> same_write R (F n d) (G n d)) ->
  (forall a b w, R a b -> agree (K a w) (K' b w)) ->
  (try x <- stmt F; K x) ⊑ (try y <- stmt G; K' y).
Proof.
  intros HF HK w Hw. specialize (HF (ticks w) (db w) Hw).
  unfold try_bind, mbind, M_bind, stmt, tick. cbn [tx db ticks].
  destruct (F (ticks w) (db w)) as [[a d]|e], (G (ticks w) (db w)) as [[b d']|e']; simpl in HF;
    try done;
    [destruct HF as [Hk <-]|];
    destruct (tx w) as [[]|], (verdict_at (ticks w)); simpl; try (by split); by apply HK.
Qed.

Lemma stmt_refines {A B C} (F : nat -> database -> res (A * database)) (G : nat -> database ->
  res (B * database))
    (k : A -> res C) (k' : B -> res C) :
  (forall n d, db_wf d -> same_write (fun a b => k a = k' b) (F n d) (G n d)) ->
  (try x <- stmt F; lift_res (k x)) ⊑ (try y <- stmt G; lift_res (k' y)).
Proof.
  intros HF. apply (stmt_refines_with _ _ _ _ _ HF). intros a b w Hk. rewrite Hk. apply agree_refl.
Qed.

Lemma stmt_refines_exec {A} (F : nat -> database -> res (A * database)) (G : nat -> database ->
  res (unit * database)) :
  (forall n d, db_wf d -> same_write (fun _ _ => True) (F n d) (G n d)) ->
  (try _ <- stmt F; ret_ok tt) ⊑ stmt G.
Proof.
  intros HF w Hw. specialize (HF (ticks w) (db w) Hw). unfold try_bind, mbind, M_bind, stmt, tick.
  cbn [tx db ticks].
  destruct (F (ticks w) (db w)) as [[a d]|e], (G (ticks w) (db w)) as [[[] d']|e']; simpl in HF;
    try done;
    [destruct HF as [Hk <-]|];
    destruct (tx w) as [[]|], (verdict_at (ticks w)); simpl; by split.
Qed.

(** The insertion of one row. *)
Lemma run_insert_one sch now d t cs vs r :
  insert_ok sch {| ins_into := t; ins_columns := cs; ins_values := [vs]; ins_conflict := None |}
    = true ->
  new_row now (table_of sch t) cs vs = Ok r ->
  run_insert sch now d {| ins_into := t; ins_columns := cs; ins_values := [vs];
    ins_conflict := None |}
  = let tab := table_of sch t in
    let d' := set_named t (rows d t ++ [r]) d in
    _ ← check_ok tab r;
    _ ← unique_ok tab (rows d t) r;
    _ ← foreigns_ok (t_foreign tab) d' r;
    Ok ([r], d').
Proof.
  intros Hok Hr. unfold run_insert. rewrite Hok.
  cbn [ins_into ins_columns ins_values ins_conflict insert_rows].
  rewrite Hr. cbn [mbind res_bind conflicts].
  destruct (check_ok _ r); [|done]. cbn [mbind res_bind]. destruct (unique_ok _ _ r); [|done].
  cbn [mbind res_bind fst snd map_res]. by destruct (foreigns_ok _ _ r).
Qed.

(** Arguments that have the type of their column. *)
Lemma coerce_text now n b d s :
  coerce now {| c_name := n; c_type := VARCHAR; c_null := b; c_default := d |} (DText s)
    = Ok (DText s).
Proof. done. Qed.
Lemma coerce_time now n b d s :
  coerce now {| c_name := n; c_type := TIMESTAMP; c_null := b; c_default := d |} (DTime s)
    = Ok (DTime s).
Proof. done. Qed.
Lemma coerce_bool now n b d s :
  coerce now {| c_name := n; c_type := BOOLEAN; c_null := b; c_default := d |} (DBool s)
    = Ok (DBool s).
Proof. done. Qed.
Lemma coerce_bytes now n b d s :
  coerce now {| c_name := n; c_type := BYTEA; c_null := b; c_default := d |} (DBytes s)
    = Ok (DBytes s).
Proof. done. Qed.
Lemma coerce_int now n b d z :
  bigint z = true ->
  coerce now {| c_name := n; c_type := BIGINT; c_null := b; c_default := d |} (DInt z)
    = Ok (DInt z).
Proof. unfold bigint. intros Hz. unfold coerce. cbn [c_type]. by rewrite Hz. Qed.
Lemma coerce_null_text now n d o :
  coerce now {| c_name := n; c_type := VARCHAR; c_null := true; c_default := d |} (null_text o)
    = Ok (null_text o).
Proof. by destruct o. Qed.
Lemma coerce_null_time now n d o :
  coerce now {| c_name := n; c_type := TIMESTAMP; c_null := true; c_default := d |} (null_time o)
    = Ok (null_time o).
Proof. by destruct o. Qed.
Lemma coerce_null_json now n d o :
  coerce now {| c_name := n; c_type := JSONB; c_null := true; c_default := d |} (null_json o)
    = Ok (null_json o).
Proof. by destruct o. Qed.
Lemma coerce_null_int now n d o :
  match o with Some z => bigint z = true | None => True end ->
  coerce now {| c_name := n; c_type := BIGINT; c_null := true; c_default := d |} (null_int o)
    = Ok (null_int o).
Proof. destruct o as [z|]; [apply coerce_int|done]. Qed.

Lemma coerce_NOW now n b d :
  coerce now {| c_name := n; c_type := TIMESTAMP; c_null := b; c_default := d |} (DText "NOW()")
    = Ok (DTime now).
Proof. done. Qed.

(** The tables after all migrations. *)
Definition crawl_tasks_table : table := Eval vm_compute in table_of db_schema "crawl_tasks".
Definition crawl_jobs_table : table := Eval vm_compute in table_of db_schema "crawl_jobs".
Definition crawl_job_configs_table : table := Eval vm_compute in
  table_of db_schema "crawl_job_configs".
Definition crawl_task_outbox_table : table := Eval vm_compute in
  table_of db_schema "crawl_task_outbox".
Definition users_final_table : table := Eval vm_compute in table_of db_schema "users".
Definition refresh_tokens_final_table : table := Eval vm_compute in
  table_of db_schema "refresh_tokens".

Lemma tasks_table : table_of db_schema "crawl_tasks" = crawl_tasks_table.
Proof. vm_compute. reflexivity. Qed.
Lemma jobs_table : table_of db_schema "crawl_jobs" = crawl_jobs_table.
Proof. vm_compute. reflexivity. Qed.
Lemma configs_table : table_of db_schema "crawl_job_configs" = crawl_job_configs_table.
Proof. vm_compute. reflexivity. Qed.
Lemma outbox_table : table_of db_schema "crawl_task_outbox" = crawl_task_outbox_table.
Proof. vm_compute. reflexivity. Qed.
Lemma users_table_eq : table_of db_schema "users" = users_final_table.
Proof. vm_compute. reflexivity. Qed.
Lemma tokens_table : table_of db_schema "refresh_tokens" = refresh_tokens_final_table.
Proof. vm_compute. reflexivity. Qed.

#[local] Opaque coerce.

Ltac coerce_step :=
  first [ rewrite coerce_NOW | rewrite coerce_text | rewrite coerce_time | rewrite coerce_bool |
    rewrite coerce_bytes
        | rewrite coerce_null_text | rewrite coerce_null_time | rewrite coerce_null_json
        | rewrite coerce_int by assumption | rewrite coerce_null_int by assumption ];
  cbn [mbind res_bind].

Ltac new_row_tac :=
  rewrite ?tasks_table, ?jobs_table, ?configs_table, ?outbox_table, ?users_table_eq, ?tokens_table;
  unfold new_row, crawl_tasks_table, crawl_jobs_table, crawl_job_configs_table,
    crawl_task_outbox_table,
    users_final_table, refresh_tokens_final_table;
      cbn -[coerce null_text null_time null_int null_json bigint]; repeat coerce_step.

Lemma fits_depth t : task_fits t = true -> bigint (ts_Depth t) = true.
Proof.
  unfold task_fits, bigint. intros Ht. apply andb_true_iff in Ht as [Ht _].
  apply andb_true_iff in Ht as [Hl Hu]. apply andb_true_iff. split; [|done].
  apply Z.leb_le in Hl. apply Z.leb_le. lia.
Qed.
Lemma fits_size t :
  task_fits t = true -> match ts_ResultSizeBytes t with Some z => bigint z
    = true | None => True end.
Proof. unfold task_fits. intros Ht. apply andb_true_iff in Ht as [_ Ht].
by destruct (ts_ResultSizeBytes t). Qed.

Lemma new_task_row now e :
  task_fits e = true -> new_row now (table_of db_schema "crawl_tasks") crawlTaskColumns
    (task_values e) = Ok (enc_task e).
Proof. intros He. pose proof (fits_depth e He). pose proof (fits_size e He). new_row_tac. done. Qed.

(** *** Keys *)

Lemma key_exists {A} (enc : A -> list (string * datum)) cs r l p :
  (forall a, same_key cs r (enc a) = p a) -> existsb (same_key cs r) (enc <$> l) = existsb p l.
Proof. intros E. rewrite existsb_fmap. apply existsb_ext_in. intros a _. apply E. Qed.

Lemma refers_to {A} (enc : A -> list (string * datum)) c x l p :
  (forall a, is_true (eq3 (col (enc a) c) x) = p a) ->
  existsb (fun g => is_true (eq3 (col g c) x)) (enc <$> l) = existsb p l.
Proof. intros E. rewrite existsb_fmap. apply existsb_ext_in. intros a _. apply E. Qed.

(** Rows with the text [x] in a column that is never NULL. *)
Ltac key_text := intros a; unfold same_key; simpl; rewrite ?andb_true_r; repeat f_equal;
  apply app_inj_bool.

Lemma task_id_key e l :
  existsb (same_key ["id"] (enc_task e)) (enc_task <$> l)
    = existsb (fun r => bool_decide (ts_ID r = ts_ID e)) l.
Proof. apply key_exists. key_text. Qed.
Lemma task_url_key e l :
  existsb (same_key ["job_id"; "url"] (enc_task e)) (enc_task <$> l) = existsb (same_job_url e) l.
Proof. apply key_exists. unfold same_job_url. key_text. Qed.

Lemma unique_task e l :
  unique_ok crawl_tasks_table (enc_task <$> l) (enc_task e)
  = if existsb (fun r => bool_decide (ts_ID r = ts_ID e)) l then Err
    (unique_violation "crawl_tasks_pkey")
    else if existsb (same_job_url e) l then Err (unique_violation "uq_crawl_tasks_job_id_url") else
      Ok tt.
Proof.
  unfold unique_ok. cbn [t_unique crawl_tasks_table List.find snd].
  rewrite task_id_key, task_url_key.
  destruct (existsb _ l); [done|]. by destruct (existsb (same_job_url e) l).
Qed.

Lemma foreign_task e T d :
  foreigns_ok (t_foreign crawl_tasks_table) (set_named "crawl_tasks" T (encode d)) (enc_task e)
  = guard_ (task_fk_ok e d) (fk_violation "fk_crawl_tasks_job").
Proof.
  unfold foreigns_ok, task_fk_ok. cbn [t_foreign crawl_tasks_table List.find]. unfold foreign_ok.
  cbn [fk_column fk_references fk_table].
  change (col (enc_task e) "job_id") with (DText (ts_JobID e)).
  cbv beta iota. change (rows (set_named "crawl_tasks" T (encode d)) "crawl_jobs") with
    (enc_job <$> jobs d).
  rewrite (refers_to enc_job _ _ _ (fun j => bool_decide (js_ID j = ts_JobID e))) by done.
  by destruct (existsb _ (jobs d)).
Qed.

Lemma encode_tasks l d : set_named "crawl_tasks" (enc_task <$> l) (encode d)
  = encode (upd_tasks (fun _ => l) d).
Proof. done. Qed.

(** A database that differs in its tasks. *)
Lemma decode_tasks d l :
  db_wf d -> Forall (fun t => task_fits t = true) l ->
  decode d (encode (upd_tasks (fun _ => l) d)) = upd_tasks (fun _ => l) d.
Proof.
  intros Hd Hl. apply decode_encode; [done|]. destruct (db_wf_decodes d Hd) as [Hj _].
  split; [done|].
  eapply Forall_impl; [exact Hl|]. intros t Ht. unfold task_fits in Ht.
  apply andb_true_iff in Ht as [Ht _]. apply andb_true_iff in Ht as [Ht _]. by apply Z.leb_le.
Qed.

Lemma Task_Create_refines entity :
  task_fits (SaveCrawlTaskToSnapshot entity) = true -> sql_Task_Create entity ⊑ Task_Create entity.
Proof.
  intros He. apply stmt_refines. intros n d Hd. set (e := SaveCrawlTaskToSnapshot entity) in *.
  unfold insert_tasks_stmt. rewrite list_fmap_singleton.
  rewrite (run_insert_one _ _ _ _ _ _ (enc_task e)); [|done|by apply new_task_row].
  cbn zeta. rewrite tasks_table. change (rows (encode d) "crawl_tasks") with (enc_task <$> tasks d).
  rewrite unique_task, foreign_task. unfold insert_task, task_pk_ok, task_url_ok.
  cbn [check_ok t_checks crawl_tasks_table List.find mbind res_bind].
  destruct (existsb _ (tasks d)); [done|]. destruct (existsb (same_job_url e) _); [done|].
  destruct (task_fk_ok e d); [|done].
  cbn [guard_ mbind res_bind fst snd same_write]. split; [done|].
  change [enc_task e] with (enc_task <$> [e]). rewrite <- fmap_app, encode_tasks, decode_tasks;
    [done|done|].
  apply Forall_app. split; [apply Hd|]. by repeat constructor.
Qed.

(** *** Bulk insertion of tasks *)

(** After the rows that the statement inserts one by one, the foreign keys of all of them: the
    row-level insertion has looked at each at once. *)
Definition bulk_tasks (d : database)
  (x : res (list (list (string * datum)) * list (list (string * datum))))
    (y : res (list string * database)) : Prop :=
  match x with
  | Err _ => is_ok y = false
  | Ok (rs, T) =>
      exists ins, rs = enc_task <$> ins /\ T = enc_task <$> (tasks d ++ ins)
        /\ Forall (fun t => task_fits t = true) ins
        /\ if forallb (fun t => task_fk_ok t d) ins
           then y = Ok (ts_ID <$> ins, upd_tasks (fun _ => tasks d ++ ins) d)
           else is_ok y = false
  end.

Lemma url_conflict t d :
  conflicts (Some ["job_id"; "url"]) (enc_task <$> tasks d) (enc_task t) = negb (task_url_ok t d).
Proof. unfold conflicts, task_url_ok. by rewrite task_url_key, negb_involutive. Qed.

Lemma insert_tasks_bulk now ts d :
  Forall (fun t => task_fits t = true) ts ->
  bulk_tasks d (insert_rows now crawl_tasks_table crawlTaskColumns (Some ["job_id"; "url"])
                  (task_values <$> ts) (enc_task <$> tasks d)) (insert_tasks ts d).
Proof.
  intros Hts. revert d. induction Hts as [|t ts Ht _ IH]; intros d.
  { exists []. rewrite app_nil_r. by destruct d. }
  rewrite fmap_cons. cbn [insert_rows insert_tasks]. rewrite <- tasks_table at 1.
  rewrite new_task_row by done. cbn [mbind res_bind check_ok t_checks crawl_tasks_table List.find].
  rewrite url_conflict. unfold insert_task. destruct (task_url_ok t d) eqn:Eu; [|apply IH].
  cbn [negb]. rewrite unique_task. unfold task_pk_ok.
  destruct (existsb (fun r => bool_decide (ts_ID r = ts_ID t)) (tasks d)); [done|].
  unfold task_url_ok in Eu. apply negb_true_iff in Eu. rewrite Eu. cbn [negb guard_ mbind res_bind].
  set (d1 := upd_tasks (fun l => l ++ [t]) d). specialize (IH d1).
  change ((enc_task <$> tasks d) ++ [enc_task t]) with
    ((enc_task <$> tasks d) ++ (enc_task <$> [t])).
  rewrite <- fmap_app. change (tasks d ++ [t]) with (tasks d1).
  destruct (insert_rows _ _ _ _ _ _) as [[rs T]|e]; cbn [mbind res_bind fst snd].
  - destruct IH as (ins & -> & -> & Hf & Hy). exists (t :: ins). split; [done|].
    split; [by unfold d1; cbn [tasks upd_tasks]; rewrite <- app_assoc|]. split; [by constructor|].
    cbn [forallb]. change (fun t => task_fk_ok t d1) with (fun t => task_fk_ok t d) in Hy.
    destruct (task_fk_ok t d); [|done]. cbn [andb guard_ mbind res_bind fst snd].
    destruct (forallb _ ins); [rewrite Hy|by destruct (insert_tasks ts d1)].
    cbn [mbind res_bind fst snd]. f_equal. f_equal. unfold d1, upd_tasks. simpl.
    by rewrite <- app_assoc.
  - destruct (guard_ (task_fk_ok t d) _); [|done]. cbn [mbind res_bind fst snd].
    by destruct (insert_tasks ts d1).
Qed.

Lemma map_res_guard {A} (f : A -> res unit) (p : A -> bool) l :
  (forall a, is_ok (f a) = p a) -> is_ok (map_res f l) = forallb p l.
Proof.
  intros E. induction l as [|a l IH]; [done|]. simpl. rewrite <- (E a), <- IH.
  destruct (f a); [|done]. simpl. by destruct (map_res f l).
Qed.

Lemma map_res_fmap_comp {A B C} (f : A -> B) (g : B -> res C) l :
  map_res g (f <$> l) = map_res (fun a => g (f a)) l.
Proof. induction l as [|a l IH]; [done|]. rewrite fmap_cons. simpl. by rewrite IH. Qed.

Lemma task_ids ins :
  map_res (fun r => id ← scan_string (col r "id"); NewID id) (enc_task <$> ins)
  = map_res NewID (ts_ID <$> ins).
Proof. rewrite !map_res_fmap_comp. done. Qed.

Lemma Task_BulkCreate_refines entities :
  Forall (fun t => task_fits (SaveCrawlTaskToSnapshot t) = true) entities ->
  sql_Task_BulkCreate entities ⊑ Task_BulkCreate entities.
Proof.
  intros He. destruct entities as [|t0 l0]; [by intros w _; apply agree_refl|].
  unfold sql_Task_BulkCreate, Task_BulkCreate. revert He. generalize (t0 :: l0). intros l He.
  apply stmt_refines. intros n d Hd. set (ts := SaveCrawlTaskToSnapshot <$> l).
  assert (Hts : Forall (fun t => task_fits t = true) ts) by (by apply Forall_fmap).
  pose proof (insert_tasks_bulk (clock_at n) ts d Hts) as Hb.
  unfold run_insert. replace (insert_ok _ _) with true.
  2: { symmetry. unfold insert_ok, insert_tasks_stmt.
  cbn [ins_into ins_columns ins_values ins_conflict].
       rewrite tasks_table, !andb_true_iff. split_and!; try done.
       apply forallb_forall. by intros vs (t & <- & _)%in_map_iff. }
  unfold insert_tasks_stmt. cbn [ins_into ins_columns ins_values ins_conflict]. cbn zeta.
  rewrite tasks_table.
  change (rows (encode d) "crawl_tasks") with (enc_task <$> tasks d).
  destruct (insert_rows _ _ _ _ _ _) as [[rs T]|e]; [|by destruct (insert_tasks ts d)].
  destruct Hb as (ins & -> & -> & Hf & Hy). cbn [mbind res_bind fst snd].
  rewrite map_res_fmap_comp.
  assert (Hg : forall l, is_ok (map_res (fun a => foreigns_ok (t_foreign crawl_tasks_table)
      (set_named "crawl_tasks" (enc_task <$> tasks d ++ ins) (encode d)) (enc_task a)) l)
    = forallb (fun t => task_fk_ok t d) l).
  { intros l1. apply map_res_guard. intros a. rewrite foreign_task. by destruct (task_fk_ok a d). }
  specialize (Hg ins). destruct (forallb _ ins).
  - rewrite Hy. destruct (map_res _ ins); [|done]. cbn [mbind res_bind fst snd same_write].
    split; [apply task_ids|]. rewrite encode_tasks. apply decode_tasks; [done|].
    apply Forall_app. split; [apply Hd|done].
  - destruct (map_res _ ins); [done|]. cbn [mbind res_bind]. by destruct (insert_tasks ts d).
Qed.

(** *** Events *)

Lemma new_event_row now e :
  new_row now crawl_task_outbox_table outbox_columns (event_values e) = Ok (enc_event e).
Proof. new_row_tac. done. Qed.

Lemma unique_event e l :
  unique_ok crawl_task_outbox_table (enc_event <$> l) (enc_event e)
  = guard_ (negb (existsb (fun r => bool_decide (os_ID r = os_ID e)) l))
    (unique_violation "crawl_task_outbox_pkey").
Proof.
  unfold unique_ok. cbn [t_unique crawl_task_outbox_table List.find snd].
  rewrite (key_exists enc_event _ _ _ (fun r => bool_decide (os_ID r = os_ID e))); [|key_text].
  by destruct (existsb _ l).
Qed.

Lemma insert_events_bulk now es d :
  match insert_rows now crawl_task_outbox_table outbox_columns None (event_values <$> es)
    (enc_event <$> outbox d) with
  | Ok (rs, T) => exists l, T = enc_event <$> l /\ insert_events es d
    = Ok (upd_outbox (fun _ => l) d)
  | Err _ => is_ok (insert_events es d) = false
  end.
Proof.
  revert d. induction es as [|e es IH]; intros d; [exists (outbox d); by destruct d|].
  rewrite fmap_cons. cbn [insert_rows insert_events]. rewrite new_event_row.
  cbn [mbind res_bind check_ok t_checks crawl_task_outbox_table List.find conflicts].
  rewrite unique_event. unfold insert_event. destruct (guard_ _ _); [|done]. cbn [mbind res_bind].
  set (d1 := upd_outbox (fun l => l ++ [e]) d). specialize (IH d1).
  change ((enc_event <$> outbox d) ++ [enc_event e]) with
    ((enc_event <$> outbox d) ++ (enc_event <$> [e])).
  rewrite <- fmap_app. change (outbox d ++ [e]) with (outbox d1).
  destruct (insert_rows _ _ _ _ _ _) as [[rs T]|er]; [|done]. destruct IH as (l & -> & Hl).
  exists l. split; [done|]. by rewrite Hl.
Qed.

Lemma encode_outbox l d : set_named "crawl_task_outbox" (enc_event <$> l) (encode d)
  = encode (upd_outbox (fun _ => l) d).
Proof. done. Qed.

Lemma events_stmt n d es :
  db_wf d ->
  same_write (fun _ _ => True)
    (p ← run_insert db_schema (clock_at n) (encode d) (insert_events_stmt es);
      Ok (p.1, decode d p.2))
    (d' ← insert_events es d; Ok (tt, d')).
Proof.
  intros Hd. pose proof (insert_events_bulk (clock_at n) es d) as Hb. unfold run_insert.
  replace (insert_ok _ _) with true.
  2: { symmetry. unfold insert_ok, insert_events_stmt.
  cbn [ins_into ins_columns ins_values ins_conflict].
       rewrite outbox_table, !andb_true_iff. split_and!; try done.
       apply forallb_forall. by intros vs (t & <- & _)%in_map_iff. }
  unfold insert_events_stmt. cbn [ins_into ins_columns ins_values ins_conflict]. cbn zeta.
  rewrite outbox_table.
  change (rows (encode d) "crawl_task_outbox") with (enc_event <$> outbox d).
  destruct (insert_rows _ _ _ _ _ _) as [[rs T]|e]; [|by destruct (insert_events es d)].
  destruct Hb as (l & -> & ->). cbn [mbind res_bind fst snd].
  assert (Hf : forall dd x, is_ok (map_res (foreigns_ok (t_foreign crawl_task_outbox_table) dd) x) =
    true)
    by (intros dd x; rewrite (map_res_guard _ (fun _ => true)) by done; by induction x).
  specialize (Hf (set_named "crawl_task_outbox" (enc_event <$> l) (encode d)) rs).
  destruct (map_res _ rs); [|done]. cbn [mbind res_bind fst snd same_write]. split; [done|].
  rewrite encode_outbox.
  apply decode_encode; [done|]. exact (db_wf_decodes d Hd).
Qed.

Lemma Outbox_BulkCreate_refines events : sql_Outbox_BulkCreate events ⊑ Outbox_BulkCreate events.
Proof.
  destruct events as [|e0 l0]; [by intros w _; apply agree_refl|].
  apply stmt_refines_exec. intros n d Hd. by apply events_stmt.
Qed.

Lemma Outbox_Create_refines event : sql_Outbox_Create event ⊑ Outbox_Create event.
Proof.
  apply stmt_refines_exec. intros n d Hd.
  pose proof (events_stmt n d [SaveOutboxEventToSnapshot event] Hd) as Hs.
  cbn [insert_events] in Hs.
  destruct (insert_event _ d); exact Hs.
Qed.

(** *** Users, tokens *)

Lemma eqb_decide (a b : string) : String.eqb a b = bool_decide (a = b).
Proof. destruct (String.eqb_spec a b); [by rewrite bool_decide_true|by rewrite bool_decide_false].
Qed.

Lemma new_user_row now e :
  new_row now users_final_table user_columns
    [DText (us_ID e); DText (us_Email e); DText (us_PasswordHash e); DText (us_Role e);
     DTime (us_CreatedAt e); DTime (us_UpdatedAt e)] = Ok (enc_user e).
Proof. new_row_tac. done. Qed.

Lemma role_check e :
  check_ok users_final_table (enc_user e)
    = guard_ (role_ok (us_Role e)) (check_violation "users_role_check").
Proof.
  unfold check_ok. cbn [t_checks users_final_table List.find fst snd].
  change (col (enc_user e) "role") with (DText (us_Role e)). cbv beta iota.
  unfold role_ok, Role_IsValid, mem. cbn [existsb].
  rewrite !eqb_decide, orb_false_r, <- orb_assoc. by destruct (_ || _).
Qed.

Lemma unique_user e l :
  unique_ok users_final_table (enc_user <$> l) (enc_user e)
  = if existsb (fun r => bool_decide (us_ID r = us_ID e)) l then Err (unique_violation "users_pkey")
    else guard_ (negb (existsb (fun r => bool_decide (us_Email r = us_Email e)) l))
                (unique_violation "users_email_key").
Proof.
  unfold unique_ok. cbn [t_unique users_final_table List.find snd].
  rewrite (key_exists enc_user _ _ _ (fun r => bool_decide (us_ID r = us_ID e))); [|key_text].
  rewrite (key_exists enc_user _ _ _ (fun r => bool_decide (us_Email r = us_Email e))); [|key_text].
  destruct (existsb _ l); [done|]. by destruct (existsb _ l).
Qed.

Lemma encode_users l d : set_named "users" (enc_user <$> l) (encode d)
  = encode (upd_users (fun _ => l) d).
Proof. done. Qed.
Lemma encode_tokens l d :
  set_named "refresh_tokens" (enc_token <$> l) (encode d) = encode (upd_tokens (fun _ => l) d).
Proof. done. Qed.
Lemma encode_configs l d :
  set_named "crawl_job_configs" (enc_config <$> l) (encode d) = encode (upd_configs (fun _ => l) d).
Proof. done. Qed.
Lemma encode_jobs l d : set_named "crawl_jobs" (enc_job <$> l) (encode d)
  = encode (upd_jobs (fun _ => l) d).
Proof. done. Qed.

Lemma User_Create_refines entity : sql_User_Create entity ⊑ User_Create entity.
Proof.
  apply stmt_refines. intros n d Hd. set (e := UserModelToSnapshot entity).
  rewrite (run_insert_one _ _ _ _ _ _ (enc_user e)); [|done|rewrite users_table_eq;
    apply new_user_row].
  cbn zeta. rewrite users_table_eq. change (rows (encode d) "users") with (enc_user <$> users d).
  rewrite unique_user, role_check. unfold insert_user.
  destruct (guard_ (role_ok _) _); [|done]. cbn [mbind res_bind].
  destruct (existsb _ (users d)); [done|]. destruct (guard_ _ _); [|done].
  cbn [negb guard_ mbind res_bind fst snd same_write foreigns_ok t_foreign users_final_table
    List.find].
  split; [done|]. change [enc_user e] with (enc_user <$> [e]). rewrite <- fmap_app, encode_users.
  apply decode_encode; [done|]. exact (db_wf_decodes d Hd).
Qed.

Lemma new_token_row now e :
  new_row now refresh_tokens_final_table token_columns
    [DText (rs_ID e); DText (rs_UserID e); DText (rs_TokenHash e); DTime (rs_ExpiresAt e);
     null_time (rs_RevokedAt e); DTime (rs_CreatedAt e); null_text (rs_ReplacedByTokenID e)]
  = Ok (enc_token e).
Proof. new_row_tac. done. Qed.

Lemma unique_token e l :
  unique_ok refresh_tokens_final_table (enc_token <$> l) (enc_token e)
  = if existsb (fun r => bool_decide (rs_ID r = rs_ID e)) l then Err
    (unique_violation "refresh_tokens_pkey")
    else guard_ (negb (existsb (fun r => bool_decide (rs_TokenHash r = rs_TokenHash e)) l))
                (unique_violation "refresh_tokens_token_hash_key").
Proof.
  unfold unique_ok. cbn [t_unique refresh_tokens_final_table List.find snd].
  rewrite (key_exists enc_token _ _ _ (fun r => bool_decide (rs_ID r = rs_ID e))); [|key_text].
  rewrite (key_exists enc_token _ _ _ (fun r => bool_decide (rs_TokenHash r = rs_TokenHash e)));
    [|key_text].
  destruct (existsb _ l); [done|]. by destruct (existsb _ l).
Qed.

(** The token a token names is the token itself or one of the table. *)
Lemma replaced_by e d l :
  (forall r, existsb (fun t => bool_decide (rs_ID t = r)) l
             = bool_decide (r = rs_ID e) || existsb (fun t => bool_decide (rs_ID t = r))
               (tokens d)) ->
  foreign_ok (set_named "refresh_tokens" (enc_token <$> l) (encode d)) (enc_token e)
    (foreign "fk_refresh_tokens_replaced_by" "replaced_by_token_id" "refresh_tokens" "id" SetNull)
  = token_ref_ok (rs_ReplacedByTokenID e) (rs_ID e) d.
Proof.
  intros E. unfold foreign_ok, token_ref_ok. cbn [fk_column fk_references fk_table foreign].
  change (col (enc_token e) "replaced_by_token_id") with (null_text (rs_ReplacedByTokenID e)).
  change (rows (set_named "refresh_tokens" (enc_token <$> l) (encode d)) "refresh_tokens") with
    (enc_token <$> l).
  destruct (rs_ReplacedByTokenID e) as [r|]; [|done]. cbn [null_text].
  rewrite (refers_to enc_token _ _ _ (fun t => bool_decide (rs_ID t = r))) by done. apply E.
Qed.

Lemma token_user e d T :
  foreign_ok (set_named "refresh_tokens" T (encode d)) (enc_token e)
    (foreign "fk_refresh_tokens_user_id" "user_id" "users" "id" Cascade)
  = existsb (fun u => bool_decide (us_ID u = rs_UserID e)) (users d).
Proof.
  unfold foreign_ok. cbn [fk_column fk_references fk_table foreign].
  change (col (enc_token e) "user_id") with (DText (rs_UserID e)). cbv beta iota.
  change (rows (set_named "refresh_tokens" T (encode d)) "users") with (enc_user <$> users d).
  by rewrite (refers_to enc_user _ _ _ (fun u => bool_decide (us_ID u = rs_UserID e))).
Qed.

Lemma Token_Create_refines entity : sql_Token_Create entity ⊑ Token_Create entity.
Proof.
  apply stmt_refines. intros n d Hd. set (e := RefreshTokenModelToSnapshot entity).
  rewrite (run_insert_one _ _ _ _ _ _ (enc_token e)); [|done|rewrite tokens_table;
    apply new_token_row].
  cbn zeta. rewrite tokens_table.
  change (rows (encode d) "refresh_tokens") with (enc_token <$> tokens d).
  rewrite unique_token. unfold insert_token.
  cbn [check_ok t_checks refresh_tokens_final_table List.find mbind res_bind].
  destruct (existsb _ (tokens d)); [done|]. destruct (guard_ _ _); [|done].
  cbn [negb guard_ mbind res_bind].
  change [enc_token e] with (enc_token <$> [e]). rewrite <- fmap_app.
  unfold foreigns_ok. cbn [t_foreign refresh_tokens_final_table List.find].
  rewrite (token_user e d), (replaced_by e d).
  2: { intros r. rewrite existsb_app. simpl. rewrite orb_false_r, orb_comm. f_equal.
  apply app_inj_bool. }
  destruct (existsb _ (users d)); [|done]. destruct (token_ref_ok _ _ d); [|done].
  cbn [negb guard_ mbind res_bind fst snd same_write]. split; [done|]. rewrite encode_tokens.
  apply decode_encode; [done|]. exact (db_wf_decodes d Hd).
Qed.

(** *** Configurations and jobs *)

Lemma lift_refines {A B} (r : res A) (m m' : A -> M (res B)) :
  (forall a, r = Ok a -> m a ⊑ m' a) -> (try a <- lift_res r; m a) ⊑ (try a <- lift_res r; m' a).
Proof. intros Hm w Hw. destruct r as [a|e]; [by apply Hm|apply agree_refl]. Qed.

Lemma save_weights_some ws : save_weights ws <> None.
Proof. by destruct ws. Qed.

Lemma saved_weights c e : SaveCrawlJobConfigToSnapshot c = Ok e -> cs_QueueWeights e <> None.
Proof.
  unfold SaveCrawlJobConfigToSnapshot. destruct (negb _); [done|]. intros [= <-].
  apply save_weights_some.
Qed.

Lemma coerce_weights now n d o :
  o <> None ->
  coerce now {| c_name := n; c_type := JSONB; c_null := false; c_default := d |} (null_json o)
    = Ok (null_json o).
Proof. by destruct o. Qed.

Lemma new_config_row now e :
  cs_QueueWeights e <> None -> new_row now crawl_job_configs_table config_columns (config_values e)
    = Ok (enc_config e).
Proof.
  intros Hw. unfold config_values. new_row_tac. rewrite coerce_weights by done.
  cbn [mbind res_bind].
  repeat coerce_step. done.
Qed.

Lemma unique_config e l :
  unique_ok crawl_job_configs_table (enc_config <$> l) (enc_config e)
  = if existsb (fun r => bool_decide (cs_ID r = cs_ID e)) l then Err
    (unique_violation "crawl_job_configs_pkey")
    else guard_ (negb (existsb (fun r => bool_decide (cs_Name r = cs_Name e)) l))
                (unique_violation "uq_crawl_job_configs_name").
Proof.
  unfold unique_ok. cbn [t_unique crawl_job_configs_table List.find snd].
  rewrite (key_exists enc_config _ _ _ (fun r => bool_decide (cs_ID r = cs_ID e))); [|key_text].
  rewrite (key_exists enc_config _ _ _ (fun r => bool_decide (cs_Name r = cs_Name e))); [|key_text].
  destruct (existsb _ l); [done|]. by destruct (existsb _ l).
Qed.

(** A reference to a user that may be NULL. *)
Lemma foreign_user T t r o name del d :
  t <> "users" -> col r "user_id" = null_text o ->
  foreign_ok (set_named t T (encode d)) r (foreign name "user_id" "users" "id" del)
  = match o with None => true | Some u => existsb (fun x => bool_decide (us_ID x = u))
    (users d) end.
Proof.
  intros Ht Hr. unfold foreign_ok. cbn [fk_column fk_references fk_table foreign]. rewrite Hr.
  destruct o as [u|]; [|done]. cbn [null_text].
  assert (E : rows (set_named t T (encode d)) "users" = enc_user <$> users d).
  { unfold encode, rows. cbn [set_named]. apply String.eqb_neq in Ht. rewrite Ht.
    by repeat case_match. }
  rewrite E. by rewrite (refers_to enc_user _ _ _ (fun x => bool_decide (us_ID x = u))).
Qed.

Lemma Config_Create_refines entity : sql_Config_Create entity ⊑ Config_Create entity.
Proof.
  apply lift_refines. intros e He. apply stmt_refines. intros n d Hd.
  rewrite (run_insert_one _ _ _ _ _ _ (enc_config e));
    [|done|rewrite configs_table; apply new_config_row; by eapply saved_weights].
  cbn zeta. rewrite configs_table.
  change (rows (encode d) "crawl_job_configs") with (enc_config <$> configs d).
  rewrite unique_config. unfold insert_config, config_user_ok.
  cbn [check_ok t_checks crawl_job_configs_table List.find mbind res_bind].
  destruct (existsb _ (configs d)); [done|]. destruct (guard_ _ _); [|done].
  cbn [negb guard_ mbind res_bind].
  change [enc_config e] with (enc_config <$> [e]). rewrite <- fmap_app.
  unfold foreigns_ok. cbn [t_foreign crawl_job_configs_table List.find].
  change {| fk_name := _; fk_column := _ |}
    with (foreign "fk_crawl_job_configs_user_id" "user_id" "users" "id" SetNull).
  rewrite (foreign_user _ _ _ (cs_UserID e)) by done.
  destruct (match cs_UserID e with Some _ => _ | None => _ end); [|done].
  cbn [negb guard_ mbind res_bind fst snd same_write]. split; [done|]. rewrite encode_configs.
  apply decode_encode; [done|]. exact (db_wf_decodes d Hd).
Qed.

(** A reference from a job to its configuration. *)
Definition job_config_fk : foreign_key :=
  foreign "fk_crawl_jobs_job_config" "job_config_id" "crawl_job_configs" "id" Cascade.
Definition job_user_fk : foreign_key :=
  foreign "fk_crawl_jobs_user_id" "user_id" "users" "id" SetNull.

Lemma foreign_config T e c d :
  js_JobConfigID e = Some c ->
  foreign_ok (set_named "crawl_jobs" T (encode d)) (enc_job e) job_config_fk
  = existsb (fun r => bool_decide (cs_ID r = c)) (configs d).
Proof.
  intros Ec. unfold foreign_ok. cbn [fk_column fk_references fk_table foreign job_config_fk].
  change (col (enc_job e) "job_config_id") with (null_text (js_JobConfigID e)). rewrite Ec.
  cbn [null_text].
  change (rows (set_named "crawl_jobs" T (encode d)) "crawl_job_configs") with
    (enc_config <$> configs d).
  by rewrite (refers_to enc_config _ _ _ (fun r => bool_decide (cs_ID r = c))).
Qed.

Lemma job_foreigns T e d :
  js_JobConfigID e <> None ->
  is_ok (foreigns_ok [job_config_fk; job_user_fk] (set_named "crawl_jobs" T (encode d)) (enc_job e))
  = is_ok (job_refs_ok e d).
Proof.
  intros Hc. destruct (js_JobConfigID e) as [c|] eqn:Ec; [|done]. unfold foreigns_ok, job_refs_ok.
  cbn [List.find]. rewrite Ec, (foreign_config _ _ c) by done.
  destruct (existsb _ (configs d)); [|done]. cbn [negb guard_ mbind res_bind].
  unfold job_user_fk. rewrite (foreign_user _ _ _ (js_UserID e)) by done.
  destruct (js_UserID e) as [u|]; [|done]. by destruct (existsb _ (users d)).
Qed.

Lemma with_config_row e : enc_job (with_config None e) = enc_job e.
Proof. done. Qed.

Lemma new_job_row now e :
  new_row now crawl_jobs_table job_columns (job_values e)
  = match js_JobConfigID e with Some _ => Ok (enc_job e) | None => Err
    (null_violation "job_config_id") end.
Proof.
  unfold job_values, enc_job. destruct (js_JobConfigID e) as [c|]; cbn [null_text]; new_row_tac;
    [|done].
  reflexivity.
Qed.

Lemma unique_job e l :
  unique_ok crawl_jobs_table (enc_job <$> l) (enc_job e)
  = guard_ (negb (existsb (fun r => bool_decide (js_ID r = js_ID e)) l))
    (unique_violation "crawl_jobs_pkey").
Proof.
  unfold unique_ok. cbn [t_unique crawl_jobs_table List.find snd].
  rewrite (key_exists enc_job _ _ _ (fun r => bool_decide (js_ID r = js_ID e))); [|key_text].
  by destruct (existsb _ l).
Qed.

Lemma run_insert_null sch now d t cs vs e :
  new_row now (table_of sch t) cs vs = Err e ->
  is_ok (run_insert sch now d {| ins_into := t; ins_columns := cs; ins_values := [vs];
    ins_conflict := None |})
  = false.
Proof.
  intros Hr. unfold run_insert. destruct (insert_ok _ _); [|done].
  cbn [ins_into ins_columns ins_values ins_conflict insert_rows]. by rewrite Hr.
Qed.

Lemma Job_Create_refines entity : sql_Job_Create entity ⊑ Job_Create entity.
Proof.
  apply stmt_refines. intros n d Hd. set (e := SaveCrawlJobToSnapshot entity).
  fold (job_values e). pose proof (new_job_row (clock_at n) e) as Hn. rewrite <- jobs_table in Hn.
  unfold insert_job. destruct (js_JobConfigID e) as [c|] eqn:Ec.
  2: { pose proof (run_insert_null _ _ (encode d) _ _ _ _ Hn) as Hf.
       destruct (run_insert _ _ _ _); [done|]. destruct (guard_ _ _); [|done].
       cbn [mbind res_bind]. unfold job_refs_ok. by rewrite Ec. }
  rewrite (run_insert_one _ _ _ _ _ _ (enc_job e)); [|done|exact Hn].
  cbn zeta. rewrite jobs_table. change (rows (encode d) "crawl_jobs") with (enc_job <$> jobs d).
  rewrite unique_job. cbn [check_ok t_checks crawl_jobs_table List.find mbind res_bind].
  destruct (guard_ _ _); [|done]. cbn [mbind res_bind].
  change (t_foreign crawl_jobs_table) with [job_config_fk; job_user_fk].
  pose proof (job_foreigns ((enc_job <$> jobs d) ++ [enc_job e]) e d ltac:(by rewrite Ec)) as Hf.
  destruct (foreigns_ok _ _ _) as [[]|], (job_refs_ok e d) as [[]|]; try discriminate Hf;
    [|exact I].
  cbn [mbind res_bind fst snd same_write]. split; [done|].
  rewrite <- (with_config_row e).
  change [enc_job (with_config None e)] with (enc_job <$> [with_config None e]).
  rewrite <- fmap_app, encode_jobs. apply decode_encode; [done|].
  destruct (db_wf_decodes d Hd) as [Hj Ht]. split; [|exact Ht].
  apply Forall_app. split; [exact Hj|]. by repeat constructor.
Qed.

(** ** Updates *)

Definition mark {A} (enc : A -> list (string * datum)) (p : A -> bool) (upd : A -> A) (a : A)
  : bool * list (string * datum) := (p a, enc (if p a then upd a else a)).

Lemma updated_rows_spec {A} sch now d s (enc : A -> list (string * datum)) l p upd :
  rows d (upd_table s) = enc <$> l ->
  (forall a, is_true (holds sch d (enc a) (upd_where s)) = p a) ->
  (forall a, a ∈ l -> p a = true ->
     set_row now (table_of sch (upd_table s)) (upd_set s) (enc a) = Ok (enc (upd a))
     /\ check_ok (table_of sch (upd_table s)) (enc (upd a)) = Ok tt) ->
  updated_rows sch now d s = Ok (mark enc p upd <$> l).
Proof.
  intros Hr Hp Hs. unfold updated_rows. rewrite Hr. clear Hr. induction l as [|a l IH]; [done|].
  rewrite !fmap_cons. cbn [map_res]. rewrite Hp, IH by (intros; apply Hs; [by right|done]).
  unfold mark at 2. destruct (p a) eqn:E; [|done].
  destruct (Hs a) as [Hs1 Hs2]; [by left|done|]. rewrite Hs1. cbn [mbind res_bind]. by rewrite Hs2.
Qed.

(** No row is updated, or the arguments do not fit. *)
Lemma updated_rows_fail {A} sch now d s (enc : A -> list (string * datum)) l p :
  rows d (upd_table s) = enc <$> l ->
  (forall a, is_true (holds sch d (enc a) (upd_where s)) = p a) ->
  (forall a, is_ok (r ← set_row now (table_of sch (upd_table s)) (upd_set s) (enc a);
                    check_ok (table_of sch (upd_table s)) r) = false) ->
  if existsb p l then is_ok (updated_rows sch now d s) = false
  else updated_rows sch now d s = Ok ((fun a => (false, enc a)) <$> l).
Proof.
  intros Hr Hp Hs. unfold updated_rows. rewrite Hr. clear Hr. induction l as [|a l IH]; [done|].
  rewrite !fmap_cons. cbn [map_res existsb]. rewrite Hp. destruct (p a); cbn [orb].
  - specialize (Hs a). destruct (set_row _ _ _ _); [|done]. cbn [mbind res_bind] in *.
    by destruct (check_ok _ _).
  - cbn [mbind res_bind]. destruct (existsb p l).
    + by destruct (map_res _ _).
    + by rewrite IH.
Qed.

Lemma marked_rows {A} (enc : A -> list (string * datum)) p upd l :
  (mark enc p upd <$> l).*2 = enc <$> update_where p upd l.
Proof. unfold update_where. rewrite <- !list_fmap_compose. apply list_fmap_ext. intros _ a _. simpl.
by destruct (p a). Qed.

Lemma marked_changed {A} (enc : A -> list (string * datum)) p upd l :
  (bfilter fst (mark enc p upd <$> l)).*2 = (fun a => enc (upd a)) <$> bfilter p l.
Proof.
  rewrite bfilter_fmap, <- list_fmap_compose. cbn [mark fst]. unfold bfilter. apply list_fmap_ext.
  intros i a Hi. apply list_elem_of_lookup_2, list_elem_of_filter in Hi as [Ea _]. simpl.
  by rewrite Ea.
Qed.

Lemma run_update_spec {A} sch now d s (enc : A -> list (string * datum)) l p upd ks fs :
  update_ok sch s = true -> rows d (upd_table s) = enc <$> l ->
  (forall a, is_true (holds sch d (enc a) (upd_where s)) = p a) ->
  (forall a, a ∈ l -> p a = true ->
     set_row now (table_of sch (upd_table s)) (upd_set s) (enc a) = Ok (enc (upd a))
     /\ check_ok (table_of sch (upd_table s)) (enc (upd a)) = Ok tt) ->
  bfilter (fun u => existsb (fun c => mem c (upd_set s).*1) u.2)
    (t_unique (table_of sch (upd_table s))) = ks ->
  bfilter (fun k => mem (fk_column k) (upd_set s).*1) (t_foreign (table_of sch (upd_table s)))
    = fs ->
  let changed := (fun a => enc (upd a)) <$> bfilter p l in
  let l' := enc <$> update_where p upd l in
  run_update sch now d s
  = match List.find (key_violated l' changed) ks with
    | Some u => Err (unique_violation u.1)
    | None =>
        _ ← map_res (foreigns_ok fs (set_named (upd_table s) l' d)) changed;
        Ok (length (bfilter p l), set_named (upd_table s) l' d)
    end.
Proof.
  intros Hok Hr Hp Hs <- <-. cbn zeta. unfold run_update. rewrite Hok.
  rewrite (updated_rows_spec sch now d s enc l p upd) by done. cbn [mbind res_bind].
  rewrite marked_rows, marked_changed. rewrite length_fmap. done.
Qed.

(** An update that touches no key. *)
Lemma run_update_plain {A} sch now d s (enc : A -> list (string * datum)) l p upd :
  update_ok sch s = true -> rows d (upd_table s) = enc <$> l ->
  (forall a, is_true (holds sch d (enc a) (upd_where s)) = p a) ->
  (forall a, a ∈ l -> p a = true ->
     set_row now (table_of sch (upd_table s)) (upd_set s) (enc a) = Ok (enc (upd a))
     /\ check_ok (table_of sch (upd_table s)) (enc (upd a)) = Ok tt) ->
  bfilter (fun u => existsb (fun c => mem c (upd_set s).*1) u.2)
    (t_unique (table_of sch (upd_table s))) = [] ->
  bfilter (fun k => mem (fk_column k) (upd_set s).*1) (t_foreign (table_of sch (upd_table s)))
    = [] ->
  run_update sch now d s
  = Ok (length (bfilter p l), set_named (upd_table s) (enc <$> update_where p upd l) d).
Proof.
  intros. rewrite (run_update_spec sch now d s enc l p upd [] []) by done. cbn [List.find].
  assert (E : forall dd x, is_ok (map_res (foreigns_ok [] dd) x) = true)
    by (intros dd x; rewrite (map_res_guard _ (fun _ => true)) by done; by induction x).
  match goal with |- context [map_res ?f ?x] => specialize
    (E (set_named (upd_table s) (enc <$> update_where p upd l) d) x); by destruct (map_res f x) end.
Qed.

Ltac set_row_tac :=
  rewrite ?tasks_table, ?jobs_table, ?configs_table, ?outbox_table, ?users_table_eq, ?tokens_table;
  unfold set_row, crawl_tasks_table, crawl_jobs_table, crawl_job_configs_table,
    crawl_task_outbox_table,
    users_final_table, refresh_tokens_final_table;
  cbn -[coerce null_text null_time null_int null_json bigint]; repeat coerce_step.

Lemma Task_Update_set now e r :
  task_fits e = true ->
  set_row now crawl_tasks_table
    [("url", Arg (DText (ts_URL e))); ("final_url", Arg (null_text (ts_FinalURL e)));
     ("status", Arg (DText (ts_Status e))); ("depth", Arg (DInt (ts_Depth e)));
     ("minio_object_key", Arg (DText (ts_MinioObjectKey e)));
     ("result_object_key", Arg (null_text (ts_ResultObjectKey e)));
     ("result_content_type", Arg (null_text (ts_ResultContentType e)));
     ("result_size_bytes", Arg (null_int (ts_ResultSizeBytes e)));
     ("result_created_at", Arg (null_time (ts_ResultCreatedAt e)));
     ("error_message", Arg (null_text (ts_ErrorMessage e)))] (enc_task r) = Ok (enc_task
       (set_task e r)).
Proof. intros He. pose proof (fits_depth e He). pose proof (fits_size e He). set_row_tac.
reflexivity. Qed.

(** *** A key that an update of one row violates *)

Lemma length_update_where {A} (q p : A -> bool) f l :
  length (bfilter q (update_where p f l))
  = (length (bfilter (fun a => p a && q (f a)) l) + length (bfilter (fun a => negb (p a) && q a)
    l))%nat.
Proof.
  unfold update_where, bfilter. induction l as [|a l IH]; [done|]. rewrite fmap_cons, !filter_cons.
  destruct (p a) eqn:Ep; cbn [andb negb].
  - destruct (decide (q (f a) = true)) as [E|E]; cbn [length]; rewrite IH;
      destruct (decide (false = true)); done || lia.
  - destruct (decide (q a = true)) as [E|E]; cbn [length]; rewrite IH;
      destruct (decide (false = true)); done || lia.
Qed.

Lemma length_bfilter_pos {A} (q : A -> bool) l : (0 <? length (bfilter q l))%nat = existsb q l.
Proof.
  unfold bfilter. induction l as [|a l IH]; [done|]. rewrite filter_cons. cbn [existsb].
  destruct (decide (q a = true)) as [E|E]; [by rewrite E|]. apply not_true_is_false in E.
  by rewrite E.
Qed.

Lemma keys_of_update {A} (enc : A -> list (string * datum)) (key : A -> string) id upd l u (q : A ->
  A -> bool) :
  let p a := bool_decide (key a = id) in
  NoDup (key <$> l) -> (forall a b, same_key u.2 (enc (upd a)) (enc b) = q a b) ->
  (forall a, p a = true -> q a (upd a) = true) ->
  key_violated (enc <$> update_where p upd l) ((fun a => enc (upd a)) <$> bfilter p l) u
  = existsb (fun r => p r && existsb (fun r' => negb (p r') && q r r') l) l.
Proof.
  intros p Hn Hq Hs. unfold key_violated. rewrite existsb_fmap, existsb_bfilter.
  apply existsb_ext_in. intros r Hr. destruct (p r) eqn:Ep; [|done]. cbn [andb].
  rewrite bfilter_fmap, length_fmap, (bfilter_ext _ (q r)) by (intros; apply Hq).
  rewrite length_update_where.
  assert (E : bfilter (fun a => p a && q r (upd a)) l = [r]).
  { rewrite (bfilter_ext _ p).
    - pose proof (bfilter_key key l id Hn) as Hk.
      change (bfilter p l = option_list (head (bfilter p l))) in Hk.
      assert (Hin : r ∈ bfilter p l) by (by apply elem_of_bfilter).
      destruct (bfilter p l) as [|x l']; [by apply elem_of_nil in Hin|]. simpl in Hk.
      injection Hk as ->.
      by apply list_elem_of_singleton in Hin as ->.
    - intros x Hx. destruct (p x) eqn:Ex; [|done]. cbn [andb].
      assert (x = r) as ->; [|by apply Hs].
      unfold p in Ep, Ex. apply bool_decide_eq_true in Ep, Ex. rewrite <- Ex in Ep.
      apply list_elem_of_lookup in Hx as [i Hi]. apply list_elem_of_lookup in Hr as [j Hj].
      assert (i = j) as ->; [|congruence].
      eapply (NoDup_lookup (key <$> l)); [done|..]; rewrite list_lookup_fmap, ?Hi, ?Hj;
        [done|by simpl; f_equal]. }
  rewrite E. cbn [length]. rewrite <- length_bfilter_pos. done.
Qed.

Lemma existsb_and_const {A} (p : A -> bool) c l : existsb (fun a => p a && c) l = existsb p l && c.
Proof. rewrite andb_comm, <- existsb_const. apply existsb_ext_in. intros; apply andb_comm. Qed.

(** *** Tasks and events *)

Lemma decode_updated_tasks d p f :
  db_wf d -> (forall t, t ∈ tasks d -> p t = true -> task_fits (f t) = true) ->
  decode d (encode (upd_tasks (fun _ => update_where p f (tasks d)) d))
    = upd_tasks (update_where p f) d.
Proof.
  intros Hd Hf. apply (decode_tasks d (update_where p f (tasks d))); [done|].
  pose proof (wf_fits _ Hd) as Ht. rewrite Forall_forall in Ht. apply Forall_fmap, Forall_forall.
  intros t Hin. simpl. destruct (p t) eqn:E; [by apply Hf|by apply Ht].
Qed.

Lemma task_update_keys e d :
  NoDup (ts_ID <$> tasks d) ->
  key_violated (enc_task <$> update_where (is_task (ts_ID e)) (set_task e) (tasks d))
    ((fun a => enc_task (set_task e a)) <$> bfilter (is_task (ts_ID e)) (tasks d))
    ("uq_crawl_tasks_job_id_url", ["job_id"; "url"]) = negb (task_update_ok e d).
Proof.
  intros Hn.
  rewrite (keys_of_update enc_task ts_ID (ts_ID e) (set_task e) (tasks d) _
    (fun r r' => bool_decide (ts_JobID r' = ts_JobID r) && bool_decide (ts_URL r' = ts_URL e)) Hn).
  - unfold task_update_ok. generalize (tasks d) at 2 4. intros l. unfold is_task.
    induction l as [|r l IH]; [done|]. cbn [existsb forallb].
    rewrite IH, negb_andb, negb_orb, !negb_involutive.
    f_equal. f_equal. apply existsb_ext_in. intros r' _. by rewrite andb_assoc.
  - intros a b. unfold same_key. simpl. rewrite andb_true_r. f_equal; apply app_inj_bool.
  - intros a _. simpl. by rewrite !bool_decide_true.
Qed.

Lemma Task_Update_refines entity :
  task_fits (SaveCrawlTaskToSnapshot entity) = true -> sql_Task_Update entity ⊑ Task_Update entity.
Proof.
  intros He. apply stmt_refines_exec. intros n d Hd. set (e := SaveCrawlTaskToSnapshot entity) in *.
  rewrite (run_update_spec _ _ _ _ enc_task (tasks d) (is_task (ts_ID e)) (set_task e)
    [("uq_crawl_tasks_job_id_url", ["job_id"; "url"])] []); [|done|done|done| |done|done].
  2: { intros r _ _. cbn [upd_table upd_set]. rewrite tasks_table.
  split; [by apply Task_Update_set|done]. }
  cbn [List.find]. rewrite task_update_keys by apply Hd. destruct (task_update_ok e d); [|done].
  cbn [negb guard_ mbind res_bind].
  match goal with |- context [map_res ?f ?x] =>
    assert (E : is_ok (map_res f x) = true)
      by (rewrite (map_res_guard _ (fun _ => true)) by done; by induction x);
    destruct (map_res f x); [|done] end.
  cbn [mbind res_bind fst snd same_write upd_table]. split; [done|]. rewrite encode_tasks.
  apply decode_updated_tasks; [done|]. done.
Qed.

Lemma Task_SetTaskResult_refines taskID objectKey contentType sizeBytes :
  bigint sizeBytes = true ->
  sql_Task_SetTaskResult taskID objectKey contentType sizeBytes
  ⊑ Task_SetTaskResult taskID objectKey contentType sizeBytes.
Proof.
  intros Hz. apply stmt_refines_exec. intros n d Hd.
  erewrite (run_update_plain _ _ _ _ enc_task (tasks d) (is_task (value taskID)));
    [|done|done|done| |done|done].
  2: { intros r _ _. cbn [upd_table upd_set]. split; [set_row_tac|done].
       match goal with |- _ = Ok (enc_task (?f r)) => instantiate (1 := fun r =>
         {| ts_ID := ts_ID r; ts_JobID := ts_JobID r; ts_URL := ts_URL r;
            ts_FinalURL := ts_FinalURL r; ts_Status := ts_Status r;
            ts_EnqueuedAt := ts_EnqueuedAt r; ts_Depth := ts_Depth r;
            ts_MinioObjectKey := ts_MinioObjectKey r; ts_ResultObjectKey := Some objectKey;
            ts_ResultContentType := Some contentType; ts_ResultSizeBytes := Some sizeBytes;
            ts_ResultCreatedAt := Some (clock_at n); ts_ErrorMessage := ts_ErrorMessage r |}) end.
       reflexivity. }
  cbn [mbind res_bind fst snd same_write upd_table]. split; [done|]. rewrite encode_tasks.
  apply decode_updated_tasks; [done|]. intros t Ht _. pose proof (wf_fits _ Hd) as Hf.
  rewrite Forall_forall in Hf. specialize (Hf t Ht). unfold task_fits in *.
  cbn [ts_Depth ts_ResultSizeBytes]. apply andb_true_iff in Hf as [-> _]. exact Hz.
Qed.

Lemma Outbox_MarkAsProcessed_refines id : sql_Outbox_MarkAsProcessed id ⊑ Outbox_MarkAsProcessed id.
Proof.
  apply stmt_refines_exec. intros n d Hd.
  rewrite (run_update_plain _ _ _ _ enc_event (outbox d) (fun r => bool_decide (os_ID r = value id))
    (set_processed (clock_at n))); [|done|done|done| |done|done].
  2: { intros r _ _. cbn [upd_table upd_set]. split; [set_row_tac; reflexivity|done]. }
  cbn [mbind res_bind fst snd same_write upd_table]. split; [done|]. rewrite encode_outbox.
  apply decode_encode; [done|]. exact (db_wf_decodes d Hd).
Qed.

(** *** Users *)

Lemma time_refines {A} (m m' : Z -> M (res A)) :
  (forall now, m now ⊑ m' now) -> (now ← time_Now; m now) ⊑ (now ← time_Now; m' now).
Proof. intros Hm w Hw. by apply (Hm (clock_at (ticks w)) (tick w)). Qed.

Lemma no_row_updated {A} (p : A -> bool) f l : existsb p l = false -> update_where p f l = l.
Proof.
  unfold update_where. induction l as [|a l IH]; [done|]. cbn [existsb]. intros E.
  apply orb_false_iff in E as [Ea El]. rewrite fmap_cons, Ea. by rewrite IH.
Qed.

Lemma bfilter_no_row {A} (p : A -> bool) l : existsb p l = false -> bfilter p l = [].
Proof.
  intros E. pose proof (length_bfilter_pos p l) as Hl. rewrite E in Hl. by destruct (bfilter p l).
Qed.

Lemma run_update_rejected sch now d s :
  is_ok (updated_rows sch now d s) = false -> is_ok (run_update sch now d s) = false.
Proof. unfold run_update. intros E. destruct (update_ok _ _); [|done].
by destruct (updated_rows _ _ _ _). Qed.

Lemma unchanged_rows {A} (enc : A -> list (string * datum)) l :
  ((fun a => (false, enc a)) <$> l).*2 = enc <$> l /\ bfilter fst ((fun a => (false, enc a)) <$> l)
    = [].
Proof.
  split; [by rewrite <- list_fmap_compose|]. rewrite bfilter_fmap. cbn [fst].
  by rewrite bfilter_none.
Qed.

(** No row is updated: nothing is checked and nothing changes. *)
Lemma run_update_none {A} sch now d s (enc : A -> list (string * datum)) l :
  update_ok sch s = true -> updated_rows sch now d s = Ok ((fun a => (false, enc a)) <$> l) ->
  run_update sch now d s = Ok (0%nat, set_named (upd_table s) (enc <$> l) d).
Proof.
  intros Hok E. unfold run_update. rewrite Hok, E. cbn [mbind res_bind].
  destruct (unchanged_rows enc l) as [-> ->].
  match goal with |- context [List.find ?f ?ks] => assert (Hk : List.find f ks = None) end.
  { match goal with |- List.find _ ?ks = None => generalize ks end. intros ks. by induction ks. }
  by rewrite Hk.
Qed.

(** An update whose arguments no row can take fails when there is a row to update. *)
Lemma update_refused {A} t (enc : A -> list (string * datum)) (l : database -> list A) now d s p e :
  update_ok db_schema s = true -> upd_table s = t -> rows (encode d) t = enc <$> l d ->
  set_named t (enc <$> l d) (encode d) = encode d -> db_wf d ->
  (forall a, is_true (holds db_schema (encode d) (enc a) (upd_where s)) = p a) ->
  (forall a, is_ok (r ← set_row now (table_of db_schema t) (upd_set s) (enc a);
                    check_ok (table_of db_schema t) r) = false) ->
  same_write (fun _ _ => True)
    (q ← run_update db_schema now (encode d) s; Ok (q.1, decode d q.2))
    (if existsb p (l d) then Err e else Ok (tt, d)).
Proof.
  intros Hok <- Hr Hsame Hd Hp Hs.
  pose proof (updated_rows_fail db_schema now (encode d) s enc (l d) p Hr Hp Hs) as Hf.
  destruct (existsb p (l d)).
  - apply run_update_rejected in Hf. by destruct (run_update _ _ _ _).
  - rewrite (run_update_none _ _ _ _ enc (l d)) by done. rewrite Hsame.
    cbn [mbind res_bind fst snd same_write].
    split; [done|]. apply decode_encode; [done|]. exact (db_wf_decodes d Hd).
Qed.

Lemma user_email_keys e d :
  NoDup (us_ID <$> users d) ->
  key_violated (enc_user <$> update_where (fun r => bool_decide (us_ID r = us_ID e)) (set_user e)
    (users d))
    ((fun a => enc_user (set_user e a)) <$> bfilter (fun r => bool_decide (us_ID r = us_ID e))
      (users d))
    ("users_email_key", ["email"])
  = existsb (fun r => bool_decide (us_ID r = us_ID e)) (users d)
    && existsb (fun r => bool_decide (us_Email r = us_Email e) && negb
      (bool_decide (us_ID r = us_ID e)))
               (users d).
Proof.
  intros Hn.
  rewrite (keys_of_update enc_user us_ID (us_ID e) (set_user e) (users d) _
    (fun _ r' => bool_decide (us_Email r' = us_Email e)) Hn).
  - rewrite existsb_and_const. f_equal. apply existsb_ext_in. intros r _. apply andb_comm.
  - intros a b. unfold same_key. simpl. rewrite andb_true_r. apply app_inj_bool.
  - intros a _. simpl. by rewrite bool_decide_true.
Qed.

Lemma User_Update_set now e r :
  set_row now users_final_table
    [("email", Arg (DText (us_Email e))); ("password_hash", Arg (DText (us_PasswordHash e)));
     ("role", Arg (DText (us_Role e))); ("updated_at", Arg (DTime (us_UpdatedAt e)))] (enc_user r)
  = Ok (enc_user (set_user e r)).
Proof. set_row_tac. reflexivity. Qed.

Lemma User_Update_refines entity : sql_User_Update entity ⊑ User_Update entity.
Proof.
  apply stmt_refines_exec. intros n d Hd. set (e := UserModelToSnapshot entity).
  destruct (role_ok (us_Role e)) eqn:Er.
  - rewrite (run_update_spec _ _ _ _ enc_user (users d) (fun r => bool_decide (us_ID r = us_ID e))
      (set_user e)
      [("users_email_key", ["email"])] []); [|done|done|done| |done|done].
    2: { intros r _ _. cbn [upd_table upd_set]. rewrite users_table_eq.
    split; [apply User_Update_set|].
         rewrite role_check. cbn [us_Role set_user]. by rewrite Er. }
    cbn [List.find]. rewrite user_email_keys by apply Hd.
    match goal with |- context [map_res ?f ?x] =>
      assert (E : is_ok (map_res f x) = true)
        by (rewrite (map_res_guard _ (fun _ => true)) by done; by induction x);
      destruct (map_res f x); [|done] end.
    destruct (existsb (fun r => bool_decide (us_ID r = us_ID e)) (users d)) eqn:Ex; cbn [andb].
    + cbn [guard_ mbind res_bind].
      destruct (existsb (fun r => bool_decide (us_Email r = us_Email e) && _) (users d)); [done|].
      cbn [negb guard_ mbind res_bind fst snd same_write upd_table]. split; [done|].
      rewrite encode_users.
      apply decode_encode; [done|]. exact (db_wf_decodes d Hd).
    + cbn [mbind res_bind fst snd same_write upd_table]. split; [done|]. rewrite encode_users.
      rewrite no_row_updated by done. rewrite decode_encode; [by destruct d|done|].
      exact (db_wf_decodes d Hd).
  - eapply (update_refused "users" enc_user users); try done;
      try (by rewrite encode_users; destruct d).
    intros a. cbn [upd_set]. rewrite users_table_eq, User_Update_set. cbn [mbind res_bind].
    rewrite role_check. cbn [us_Role set_user]. by rewrite Er.
Qed.

Definition set_role (role : Role) (now : Z) (r : UserSnapshot) : UserSnapshot :=
  {| us_ID := us_ID r; us_Email := us_Email r; us_PasswordHash := us_PasswordHash r;
     us_Role := role; us_CreatedAt := us_CreatedAt r; us_UpdatedAt := now |}.

Lemma User_UpdateRole_set t role now r :
  set_row t users_final_table [("role", Arg (DText role)); ("updated_at", Arg (DTime now))]
    (enc_user r)
  = Ok (enc_user (set_role role now r)).
Proof. set_row_tac. reflexivity. Qed.

Lemma User_UpdateRole_refines id role : sql_User_UpdateRole id role ⊑ User_UpdateRole id role.
Proof.
  apply time_refines. intros now. apply stmt_refines_exec. intros n d Hd.
  destruct (role_ok role) eqn:Er.
  - rewrite (run_update_plain _ _ _ _ enc_user (users d) (fun r => bool_decide (us_ID r = value id))
      (set_role role now)); [|done|done|done| |done|done].
    2: { intros r _ _. cbn [upd_table upd_set]. rewrite users_table_eq.
    split; [apply User_UpdateRole_set|].
         rewrite role_check. cbn [us_Role set_role]. by rewrite Er. }
    cbn [guard_ mbind res_bind fst snd upd_table]. rewrite encode_users, decode_encode;
      [|done|exact (db_wf_decodes d Hd)].
    destruct (existsb _ (users d)) eqn:Ex; [done|]. cbn [same_write]. split; [done|].
    rewrite no_row_updated by done. by destruct d.
  - eapply (update_refused "users" enc_user users); try done;
      try (by rewrite encode_users; destruct d).
    intros a. cbn [upd_set]. rewrite users_table_eq, User_UpdateRole_set. cbn [mbind res_bind].
    rewrite role_check. cbn [us_Role set_role]. by rewrite Er.
Qed.

(** *** Tokens *)

Lemma Token_Update_set now e r :
  set_row now refresh_tokens_final_table
    [("revoked_at", Arg (null_time (rs_RevokedAt e)));
     ("replaced_by_token_id", Arg (null_text (rs_ReplacedByTokenID e)))] (enc_token r)
  = Ok (enc_token (set_revoked (rs_RevokedAt e) (rs_ReplacedByTokenID e) r)).
Proof. set_row_tac. reflexivity. Qed.

Lemma revoke_set t now r :
  set_row t refresh_tokens_final_table [("revoked_at", Arg (DTime now))] (enc_token r)
  = Ok (enc_token (revoke_row now r)).
Proof. set_row_tac. reflexivity. Qed.

Lemma Token_RevokeByTokenHash_refines h : sql_Token_RevokeByTokenHash h ⊑ Token_RevokeByTokenHash h.
Proof.
  apply time_refines. intros now. apply stmt_refines_exec. intros n d Hd.
  rewrite (run_update_plain _ _ _ _ enc_token (tokens d) (fun r => bool_decide (rs_TokenHash r = h))
    (revoke_row now)); [|done|done|done| |done|done].
  2: { intros r _ _. cbn [upd_table upd_set]. rewrite tokens_table. split; [apply revoke_set|done].
  }
  cbn [mbind res_bind fst snd same_write upd_table]. split; [done|]. rewrite encode_tokens.
  apply decode_encode; [done|]. exact (db_wf_decodes d Hd).
Qed.

Lemma Token_RevokeAllByUserID_refines id :
  sql_Token_RevokeAllByUserID id ⊑ Token_RevokeAllByUserID id.
Proof.
  apply time_refines. intros now. apply stmt_refines_exec. intros n d Hd.
  rewrite (run_update_plain _ _ _ _ enc_token (tokens d)
    (fun r => bool_decide (rs_UserID r = value id) && match rs_RevokedAt r with None => true | Some
      _ => false end)
    (revoke_row now)); [|done|done| | |done|done].
  2: { intros r. cbn [upd_where]. rewrite holds_AND. cbn [forallb]. rewrite andb_true_r. f_equal.
       cbn [sq_Eq holds is_true].
       change (col (enc_token r) "revoked_at") with (null_time (rs_RevokedAt r)).
       by destruct (rs_RevokedAt r). }
  2: { intros r _ _. cbn [upd_table upd_set]. rewrite tokens_table. split; [apply revoke_set|done].
  }
  cbn [mbind res_bind fst snd same_write upd_table]. split; [done|]. rewrite encode_tokens.
  apply decode_encode; [done|]. exact (db_wf_decodes d Hd).
Qed.

(** Foreign keys that are all satisfied or all violated by the rows that change. *)
Lemma map_res_const {A B} (f : B -> res unit) (g : A -> B) c l :
  (forall a, a ∈ l -> is_ok (f (g a)) = c) -> l <> [] -> is_ok (map_res f (g <$> l)) = c.
Proof.
  intros E Hl. rewrite map_res_fmap_comp. destruct l as [|a l]; [done|]. clear Hl.
  revert a E. induction l as [|b l IH]; intros a E; cbn [map_res].
  - rewrite <- (E a) by left. by destruct (f (g a)).
  - pose proof (E a ltac:(by left)) as Ea. pose proof (IH b ltac:(intros; apply E; by right)) as Hb.
    destruct (f (g a)); [|done]. cbn [mbind res_bind]. cbn [map_res] in Hb.
    destruct (f (g b)); [|done]. cbn [mbind res_bind] in *. by destruct (map_res _ l).
Qed.

Lemma existsb_bfilter_nonempty {A} (p : A -> bool) l : existsb p l = true -> bfilter p l <> [].
Proof. rewrite <- length_bfilter_pos. by destruct (bfilter p l). Qed.

Lemma existsb_update_where {A} (q p : A -> bool) f l :
  (forall a, q (f a) = q a) -> existsb q (update_where p f l) = existsb q l.
Proof.
  intros E. unfold update_where. rewrite existsb_fmap. apply existsb_ext_in. intros a _.
  destruct (p a); [apply E|done].
Qed.

Definition replaced_by_fk : foreign_key :=
  foreign "fk_refresh_tokens_replaced_by" "replaced_by_token_id" "refresh_tokens" "id" SetNull.

Lemma updated_reference e d a :
  a ∈ tokens d -> rs_ID a = rs_ID e ->
  is_ok (foreigns_ok [replaced_by_fk]
           (set_named "refresh_tokens"
              (enc_token <$> update_where (fun r => bool_decide (rs_ID r = rs_ID e))
                 (set_revoked (rs_RevokedAt e) (rs_ReplacedByTokenID e)) (tokens d)) (encode d))
           (enc_token (set_revoked (rs_RevokedAt e) (rs_ReplacedByTokenID e) a)))
  = token_ref_ok (rs_ReplacedByTokenID e) (rs_ID e) d.
Proof.
  intros Ha Hi. unfold foreigns_ok. cbn [List.find]. unfold replaced_by_fk.
  rewrite (replaced_by _ d).
  - cbn [rs_ReplacedByTokenID rs_ID set_revoked]. rewrite Hi. by destruct (token_ref_ok _ _ d).
  - intros r. rewrite existsb_update_where by done. cbn [rs_ID set_revoked]. rewrite Hi.
    case_bool_decide as Er; [|done]. subst r. simpl. apply existsb_exists. exists a.
    split; [by apply list_elem_of_In|]. by rewrite bool_decide_true.
Qed.

Lemma Token_Update_refines entity : sql_Token_Update entity ⊑ Token_Update entity.
Proof.
  apply stmt_refines_exec. intros n d Hd. set (e := RefreshTokenModelToSnapshot entity).
  rewrite (run_update_spec _ _ _ _ enc_token (tokens d) (fun r => bool_decide (rs_ID r = rs_ID e))
    (set_revoked (rs_RevokedAt e) (rs_ReplacedByTokenID e)) [] [replaced_by_fk]);
      [|done|done|done| |done|done].
  2: { intros r _ _. cbn [upd_table upd_set]. rewrite tokens_table.
  split; [apply Token_Update_set|done]. }
  cbn [List.find upd_table]. destruct (existsb _ (tokens d)) eqn:Ex.
  - match goal with |- context [map_res ?f (?g <$> ?l)] =>
      assert (Hm : is_ok (map_res f (g <$> l)) = token_ref_ok (rs_ReplacedByTokenID e) (rs_ID e) d)
        end.
    { apply map_res_const; [|by apply existsb_bfilter_nonempty]. intros r Hr.
      apply elem_of_bfilter in Hr as [Ei Hr]. apply bool_decide_eq_true in Ei.
      by apply updated_reference. }
    rewrite <- Hm. destruct (map_res _ _); [|done].
    cbn [is_ok guard_ mbind res_bind fst snd same_write].
    split; [done|]. rewrite encode_tokens. apply decode_encode; [done|]. exact (db_wf_decodes d Hd).
  - rewrite bfilter_no_row by done. cbn [fmap list_fmap map_res mbind res_bind fst snd same_write].
    rewrite no_row_updated, encode_tokens, decode_encode by (done || exact (db_wf_decodes d Hd)).
    split; [done|]. by destruct d.
Qed.

(** *** Configurations *)

Definition config_sets (e : CrawlJobConfigSnapshot) : list (string * assigned) :=
  [("name", Arg (DText (cs_Name e))); ("user_id", Arg (null_text (cs_UserID e)));
   ("extraction_spec", Arg (null_json (cs_ExtractionSpec e)));
   ("scopes", Arg (null_json (cs_Scopes e))); ("seeds", Arg (null_json (cs_Seeds e)));
   ("rate_limit", Arg (null_json (cs_RateLimit e)));
   ("retries", Arg (null_json (cs_Retries e))); ("auth", Arg (null_json (cs_Auth e)));
   ("schedule", Arg (null_json (cs_Schedule e))); ("job_type", Arg (DText (cs_JobType e)));
   ("respect_robots_txt", Arg (DBool (cs_RespectRobotsTxt e)));
   ("crawl_mode", Arg (DText (cs_CrawlMode e)));
   ("queue_weights", Arg (null_json (cs_QueueWeights e)))].

Lemma Config_Update_set now e r :
  cs_QueueWeights e <> None ->
  set_row now crawl_job_configs_table (config_sets e) (enc_config r)
    = Ok (enc_config (set_config e r)).
Proof.
  intros Hw. unfold config_sets. set_row_tac. rewrite coerce_weights by done. cbn [mbind res_bind].
  repeat coerce_step. reflexivity.
Qed.

Lemma config_name_keys e d :
  NoDup (cs_ID <$> configs d) ->
  key_violated (enc_config <$> update_where (fun r => bool_decide (cs_ID r = cs_ID e))
    (set_config e) (configs d))
    ((fun a => enc_config (set_config e a)) <$> bfilter (fun r => bool_decide (cs_ID r = cs_ID e))
      (configs d))
    ("uq_crawl_job_configs_name", ["name"])
  = existsb (fun r => bool_decide (cs_ID r = cs_ID e)) (configs d)
    && existsb (fun r => bool_decide (cs_Name r = cs_Name e) && negb
      (bool_decide (cs_ID r = cs_ID e)))
               (configs d).
Proof.
  intros Hn.
  rewrite (keys_of_update enc_config cs_ID (cs_ID e) (set_config e) (configs d) _
    (fun _ r' => bool_decide (cs_Name r' = cs_Name e)) Hn).
  - rewrite existsb_and_const. f_equal. apply existsb_ext_in. intros r _. apply andb_comm.
  - intros a b. unfold same_key. simpl. rewrite andb_true_r. apply app_inj_bool.
  - intros a _. simpl. by rewrite bool_decide_true.
Qed.

Definition config_user_fk : foreign_key :=
  foreign "fk_crawl_job_configs_user_id" "user_id" "users" "id" SetNull.

Lemma config_reference T e d a :
  is_ok (foreigns_ok [config_user_fk] (set_named "crawl_job_configs" T (encode d))
    (enc_config (set_config e a)))
  = config_user_ok e d.
Proof.
  unfold foreigns_ok. cbn [List.find]. unfold config_user_fk.
  rewrite (foreign_user _ _ _ (cs_UserID e)) by done. unfold config_user_ok.
  destruct (cs_UserID e) as [u|]; [|done]. by destruct (existsb _ (users d)).
Qed.

Lemma Config_Update_refines entity : sql_Config_Update entity ⊑ Config_Update entity.
Proof.
  apply lift_refines. intros e He. apply stmt_refines_exec. intros n d Hd.
  pose proof (saved_weights _ _ He) as Hw. fold (config_sets e).
  rewrite (run_update_spec _ _ _ _ enc_config (configs d) (fun r => bool_decide (cs_ID r = cs_ID e))
    (set_config e) [("uq_crawl_job_configs_name", ["name"])] [config_user_fk]);
      [|done|done|done| |done|done].
  2: { intros r _ _. cbn [upd_table upd_set]. rewrite configs_table.
  split; [by apply Config_Update_set|done]. }
  cbn [List.find upd_table]. rewrite config_name_keys by apply Hd.
  destruct (existsb (fun r => bool_decide (cs_ID r = cs_ID e)) (configs d)) eqn:Ex;
    cbn [andb negb orb].
  - destruct (existsb (fun r => bool_decide (cs_Name r = cs_Name e) && _) (configs d)); [done|].
    cbn [negb guard_ mbind res_bind].
    match goal with |- context [map_res ?f (?g <$> ?l)] =>
      assert (Hm : is_ok (map_res f (g <$> l)) = config_user_ok e d) end.
    { apply map_res_const; [|by apply existsb_bfilter_nonempty]. intros r _. apply config_reference.
      }
    rewrite <- Hm. destruct (map_res _ _); [|done].
    cbn [is_ok guard_ mbind res_bind fst snd same_write].
    split; [done|]. rewrite encode_configs. apply decode_encode; [done|].
    exact (db_wf_decodes d Hd).
  - cbn [guard_ mbind res_bind]. rewrite bfilter_no_row by done.
    cbn [fmap list_fmap map_res mbind res_bind fst snd same_write]. split; [done|].
    rewrite encode_configs, decode_encode by (done || exact (db_wf_decodes d Hd)). done.
Qed.

(** *** Jobs *)

Definition job_sets (e : CrawlJobSnapshot) : list (string * assigned) :=
  [("job_config_id", Arg (null_text (js_JobConfigID e)));
   ("user_id", Arg (null_text (js_UserID e))); ("name", Arg (null_text (js_Name e)));
   ("status", Arg (DText (js_Status e)));
   ("completed_at", Arg (null_time (js_CompletedAt e)));
   ("export_json_key", Arg (null_text (js_ExportJSONKey e)));
   ("export_csv_key", Arg (null_text (js_ExportCSVKey e)));
   ("exported_at", Arg (null_time (js_ExportedAt e)));
   ("export_status", Arg (null_text (js_ExportStatus e)))].

Lemma Job_Update_set now e r :
  set_row now crawl_jobs_table (job_sets e) (enc_job r)
  = match js_JobConfigID e with
    | Some _ => Ok (enc_job (set_job e r))
    | None => Err (null_violation "job_config_id")
    end.
Proof.
  unfold job_sets, enc_job at 2. cbn [js_JobConfigID set_job].
  destruct (js_JobConfigID e) as [c|]; cbn [null_text]; set_row_tac; [|done]. reflexivity.
Qed.

Lemma decode_updated_jobs d p f :
  db_wf d -> (forall j, js_JobConfig j = None -> js_JobConfig (f j) = None) ->
  decode d (encode (upd_jobs (fun _ => update_where p f (jobs d)) d))
    = upd_jobs (update_where p f) d.
Proof.
  intros Hd Hf. apply (decode_encode (upd_jobs (update_where p f) d)); [done|].
  destruct (db_wf_decodes d Hd) as [Hj Ht]. split; [|exact Ht]. cbn [jobs upd_jobs].
  apply Forall_fmap. eapply Forall_impl; [exact Hj|]. intros j Ej. simpl.
  destruct (p j); [by apply Hf|done].
Qed.

Lemma Job_Update_refines entity : sql_Job_Update entity ⊑ Job_Update entity.
Proof.
  apply stmt_refines_exec. intros n d Hd. set (e := SaveCrawlJobToSnapshot entity).
  fold (job_sets e).
  destruct (js_JobConfigID e) as [c|] eqn:Ec.
  - rewrite (run_update_spec _ _ _ _ enc_job (jobs d) (is_job (js_ID e)) (set_job e) []
      [job_config_fk; job_user_fk]); [|done|done|done| |done|done].
    2: { intros r _ _. cbn [upd_table upd_set]. rewrite jobs_table, Job_Update_set, Ec. done. }
    cbn [List.find upd_table]. destruct (existsb (is_job (js_ID e)) (jobs d)) eqn:Ex.
    + match goal with |- context [map_res ?f (?g <$> ?l)] =>
        assert (Hm : is_ok (map_res f (g <$> l)) = is_ok (job_refs_ok e d)) end.
      { apply map_res_const; [|by apply existsb_bfilter_nonempty]. intros r _.
        rewrite job_foreigns by (simpl; by rewrite Ec). done. }
      destruct (map_res _ _), (job_refs_ok e d) as [[]|]; try discriminate Hm; [|exact I].
      cbn [mbind res_bind fst snd same_write]. split; [done|]. rewrite encode_jobs.
      by apply decode_updated_jobs.
    + rewrite bfilter_no_row by done.
      cbn [fmap list_fmap map_res mbind res_bind fst snd same_write].
      split; [done|]. rewrite no_row_updated, encode_jobs, decode_encode
        by (done || exact (db_wf_decodes d Hd)).
      by destruct d.
  - replace (job_refs_ok e d) with (Err (A := unit) (null_violation "job_config_id"))
      by (unfold job_refs_ok; by rewrite Ec).
    eapply (update_refused "crawl_jobs" enc_job jobs); try done; try (by rewrite encode_jobs;
      destruct d).
    intros r. cbn [upd_set]. by rewrite jobs_table, Job_Update_set, Ec.
Qed.

Lemma export_status_set now st r :
  set_row now crawl_jobs_table [("export_status", Arg (DText st))] (enc_job r)
  = match js_JobConfigID r with
    | Some _ | None => Ok (enc_job (set_export_status st r))
    end.
Proof. destruct (js_JobConfigID r) eqn:E; set_row_tac; reflexivity. Qed.

Lemma Job_FailExport_refines id : sql_Job_FailExport id ⊑ Job_FailExport id.
Proof.
  apply stmt_refines_exec. intros n d Hd.
  rewrite (run_update_plain _ _ _ _ enc_job (jobs d) (is_job (value id)) (set_export_status
    ExportStatusFailed));
    [|done|done|done| |done|done].
  2: { intros r _ _. cbn [upd_table upd_set]. rewrite jobs_table, export_status_set.
  by destruct (js_JobConfigID r). }
  cbn [mbind res_bind fst snd same_write upd_table]. split; [done|]. rewrite encode_jobs.
  by apply decode_updated_jobs.
Qed.

Lemma may_start_holds id d r :
  is_true (holds db_schema (encode d) (enc_job r)
             (AND [sq_Eq "id" (DText id); sq_Eq "export_status" (DText ExportStatusNotStarted)]))
  = may_start_export id r.
Proof.
  rewrite holds_AND. cbn [forallb]. rewrite andb_true_r. unfold may_start_export. f_equal.
  cbn [sq_Eq holds]. change (col (enc_job r) "export_status") with (null_text (js_ExportStatus r)).
  destruct (js_ExportStatus r) as [x|]; [|done]. simpl. apply bool_decide_ext. naive_solver.
Qed.

Lemma Job_TryStartExport_refines id : sql_Job_TryStartExport id ⊑ Job_TryStartExport id.
Proof.
  apply (stmt_refines_with eq); [|intros a b w ->; apply agree_refl]. intros n d Hd.
  rewrite (run_update_plain _ _ _ _ enc_job (jobs d) (may_start_export (value id))
    (set_export_status ExportStatusInProgress)); [|done|done|apply may_start_holds| |done|done].
  2: { intros r _ _. cbn [upd_table upd_set]. rewrite jobs_table, export_status_set.
  by destruct (js_JobConfigID r). }
  cbn [mbind res_bind fst snd same_write upd_table]. split; [done|]. rewrite encode_jobs.
  by apply decode_updated_jobs.
Qed.

(** *** Deletions *)

Lemma stmt_refines_unit (F G : nat -> database -> res (unit * database)) :
  (forall n d, db_wf d -> same_write eq (F n d) (G n d)) -> stmt F ⊑ stmt G.
Proof.
  intros HF w Hw. specialize (HF (ticks w) (db w) Hw). unfold mbind, M_bind, stmt, tick.
  cbn [tx db ticks].
  destruct (F (ticks w) (db w)) as [[a d]|e], (G (ticks w) (db w)) as [[b d']|e']; simpl in HF;
    try done;
    [destruct HF as [<- <-]|];
    destruct (tx w) as [[]|], (verdict_at (ticks w)); simpl; by split.
Qed.

Lemma delete_leaf fuel sch t p d :
  (tab ← sch; (fun k => (tab.1, k)) <$> bfilter (fun k => String.eqb t (fk_table k))
    (t_foreign tab.2)) = [] ->
  delete_rows (S fuel) sch t p d = set_named t (bfilter (fun r => negb (p r)) (rows d t)) d.
Proof. cbn [delete_rows]. by intros ->. Qed.

Lemma delete_cascade fuel sch t p d t' k :
  (tab ← sch; (fun k => (tab.1, k)) <$> bfilter (fun k => String.eqb t (fk_table k))
    (t_foreign tab.2))
    = [(t', k)] ->
  fk_delete k = Cascade ->
  delete_rows (S fuel) sch t p d
  = delete_rows fuel sch t' (refers (bfilter p (rows d t)) k)
      (set_named t (bfilter (fun r => negb (p r)) (rows d t)) d).
Proof. cbn [delete_rows]. intros -> Hk. simpl. by rewrite Hk. Qed.

Lemma delete_tasks fuel p d :
  delete_rows (S fuel) db_schema "crawl_tasks" p (encode d)
  = encode (upd_tasks (bfilter (fun t => negb (p (enc_task t)))) d).
Proof.
  rewrite delete_leaf by reflexivity.
  change (rows (encode d) "crawl_tasks") with (enc_task <$> tasks d).
  by rewrite bfilter_fmap, encode_tasks.
Qed.

Definition task_job_fk : foreign_key :=
  foreign "fk_crawl_tasks_job" "job_id" "crawl_jobs" "id" Cascade.
Definition job_config_cascade : foreign_key :=
  foreign "fk_crawl_jobs_job_config" "job_config_id" "crawl_job_configs" "id" Cascade.

Lemma refers_job l t :
  refers (enc_job <$> l) task_job_fk (enc_task t)
    = existsb (fun j => bool_decide (js_ID j = ts_JobID t)) l.
Proof. unfold refers. by apply refers_to. Qed.

Lemma refers_config l x j :
  refers (enc_config <$> bfilter (fun c => bool_decide (cs_ID c = x)) l) job_config_cascade
    (enc_job j)
  = bool_decide (js_JobConfigID j = Some x) && existsb (fun c => bool_decide (cs_ID c = x)) l.
Proof.
  unfold refers.
  rewrite (refers_to enc_config _ _ _ (fun c => bool_decide (js_JobConfigID j = Some (cs_ID c)))).
  - rewrite existsb_bfilter, andb_comm, <- existsb_and_const. apply existsb_ext_in. intros c _.
    destruct (bool_decide_reflect (cs_ID c = x)) as [->|]; by rewrite ?andb_true_r, ?andb_false_r.
  - intros c. simpl. change (col (enc_job j) "job_config_id") with (null_text (js_JobConfigID j)).
    destruct (js_JobConfigID j) as [y|]; [|done]. simpl. apply bool_decide_ext. naive_solver.
Qed.

Lemma delete_jobs_rows fuel p q d :
  (forall j, p (enc_job j) = q j) ->
  delete_rows (S (S fuel)) db_schema "crawl_jobs" p (encode d) = encode (delete_jobs q d).
Proof.
  intros Hp. rewrite (delete_cascade _ _ _ _ _ "crawl_tasks" task_job_fk) by reflexivity.
  change (rows (encode d) "crawl_jobs") with (enc_job <$> jobs d).
  rewrite !bfilter_fmap, encode_jobs, delete_tasks. unfold delete_jobs. f_equal.
  rewrite (bfilter_ext (fun j => p (enc_job j)) q) by done.
  rewrite (bfilter_ext (fun j => negb (p (enc_job j))) (fun j => negb (q j)))
    by (intros; by rewrite Hp).
  unfold upd_tasks. simpl. f_equal. apply bfilter_ext. intros t _. by rewrite refers_job.
Qed.

Lemma Forall_kept {A} (P : A -> Prop) (p : A -> bool) l : Forall P l -> Forall P (bfilter p l).
Proof. rewrite !Forall_forall. intros Hl a [_ Ha]%elem_of_bfilter. by apply Hl. Qed.

Lemma decodes_deleted p d : decodes d -> decodes (delete_jobs p d).
Proof. intros [Hj Ht]. split; by apply Forall_kept. Qed.

Lemma id_holds sch d r c x y :
  col r c = DText y -> is_true (holds sch d r (sq_Eq c (DText x))) = bool_decide (y = x).
Proof. intros E. cbn [sq_Eq holds compare3]. by rewrite E. Qed.

Lemma Job_Delete_refines id : sql_Job_Delete id ⊑ Job_Delete id.
Proof.
  apply stmt_refines_unit. intros n d Hd. unfold run_delete. cbn [del_from del_where].
  replace (_ && _) with true by (by vm_compute). cbn [mbind res_bind fst snd same_write].
  split; [done|].
  change (length db_schema) with 6%nat.
  rewrite (delete_jobs_rows _ _ (is_job (value id))) by (intros j; by apply id_holds).
  apply decode_encode; [done|]. apply decodes_deleted, (db_wf_decodes d Hd).
Qed.

Lemma Config_Delete_refines id : sql_Config_Delete id ⊑ Config_Delete id.
Proof.
  apply stmt_refines_unit. intros n d Hd. unfold run_delete. cbn [del_from del_where].
  replace (_ && _) with true by (by vm_compute). cbn [mbind res_bind fst snd same_write].
  split; [done|].
  change (length db_schema) with 6%nat.
  rewrite (delete_cascade _ _ _ _ _ "crawl_jobs" job_config_cascade) by reflexivity.
  change (rows (encode d) "crawl_job_configs") with (enc_config <$> configs d).
  assert (Hp : forall c,
    is_true (holds db_schema (encode d) (enc_config c) (sq_Eq "id" (DText (value id))))
    = bool_decide (cs_ID c = value id)) by (intros c; by apply id_holds).
  rewrite !bfilter_fmap, (bfilter_ext _ _ (configs d) (fun c _ => Hp c)),
    (bfilter_ext _ _ (configs d) (fun c _ => f_equal negb (Hp c))), encode_configs.
  rewrite (delete_jobs_rows _ _ _ _ (refers_config _ _)).
  apply decode_encode; [done|]. apply decodes_deleted, (db_wf_decodes d Hd).
Qed.

End Writes.

#[export] Hint Resolve Task_Create_refines Task_BulkCreate_refines Outbox_BulkCreate_refines
  Outbox_Create_refines User_Create_refines Token_Create_refines Config_Create_refines
  Job_Create_refines Task_Update_refines Task_SetTaskResult_refines Outbox_MarkAsProcessed_refines
  User_Update_refines User_UpdateRole_refines Token_RevokeByTokenHash_refines
  Token_RevokeAllByUserID_refines Token_Update_refines Config_Update_refines Job_Update_refines
  Job_FailExport_refines Job_TryStartExport_refines Job_Delete_refines Config_Delete_refines :
    statements.
