(* ===== verification/SqlListings.v ===== *)
(** * The statements of the listings and of the analytics

    [ListWithCursor] of the task and of the job repository with the conditions, the row comparison
    and the order that their source puts together for a query, and the two grouping statements of
    [GetAnalyticsByJob]; each does what its row-level counterpart does. *)

From S2P Require Import Prelude GoStrings Domain Json Converters World Sql Repos Keyset Pagination.
From S2P Require Import JobListing.
From S2P Require Import Relational Schema Statements SqlRefines SqlWrites.

#[local] Arguments and3 : simpl never.
#[local] Arguments or3 : simpl never.

(** ** Arguments *)

(** The arguments of a condition. *)
Fixpoint condition_args (c : condition) : list datum :=
  match c with
  | Compare _ _ v => [v]
  | ComparePair _ _ _ v v' => [v; v']
  | IN_LIST _ vs | NOT_IN _ vs => vs
  | ILIKE _ p => [DText p]
  | OR a b => condition_args a ++ condition_args b
  | AND l => flat_map condition_args l
  | EXISTS _ w | NOT_EXISTS _ w => condition_args w
  | CompareColumns _ _ _ | IS_NULL _ | IS_NOT_NULL _ => []
  end.

(** The driver refuses a uint64 above the maximum of BIGINT, the server such a limit. *)
Definition select_args (s : select_stmt) : res unit :=
  _ ← guard_ (forallb (fun v => match v with DInt z => z <=? int64_max | _ => true end)
                (condition_args (sel_where s))) (ENew "is greater than maximum value for int8");
  guard_ (match sel_limit s with Some n => n <=? int64_max | None => true end)
    (ENew "bigint out of range").

Section SqlListings.
Context `{Env, JsonLib}.

Definition sql_listing (s : select_stmt) : M (res (list (list (string * datum)))) :=
  stmt (fun n d =>
    _ ← select_args s; l ← run_select db_schema (locked_at n) (encode d) s; Ok (l, d)).

(** A filter that is set and not empty, and one that is set. *)
Definition when_text (o : option string) (f : string -> condition) : list condition :=
  match o with Some s => if bool_decide (s = "") then [] else [f s] | None => [] end.
Definition when_set {A} (o : option A) (f : A -> condition) : list condition :=
  match o with Some a => [f a] | None => [] end.

Definition like (s : string) : string := "%" +:+ s +:+ "%".

(** [(column, id) op (?, ?)]. *)
Definition seek (asc : bool) (c id : string) (cursor : option (datum * string)) : list condition :=
  when_set cursor (fun p => ComparePair (if asc then GT else LT) c id p.1 (DText p.2)).

(** ** crawl_task_repo.go *)

Definition task_column (field : string) : string :=
  if bool_decide (field = TaskSortByURL) then "url"
  else if bool_decide (field = TaskSortByStatus) then "status"
  else if bool_decide (field = TaskSortByDepth) then "depth" else "enqueued_at".

Definition task_cursor_value (field : string) (c : ListTasksCursor) : datum * string :=
  (if bool_decide (field = TaskSortByURL) then DText (TCURL c)
   else if bool_decide (field = TaskSortByStatus) then DText (TCStatus c)
   else if bool_decide (field = TaskSortByDepth) then null_int (TCDepth c)
   else DTime (TCEnqueuedAt c), TCID c).

Definition task_conditions (q : ListTasksByJobQuery) : list condition :=
  let f := TQFilter q in
  [sq_Eq "job_id" (DText (TQJobID q))]
  ++ when_text (FStatus f) (fun s => sq_Eq "status" (DText s))
  ++ when_text (FURL f) (fun s => ILIKE "url" (like s))
  ++ when_set (FMinDepth f) (fun z => Compare GE "depth" (DInt z))
  ++ when_set (FMaxDepth f) (fun z => Compare LE "depth" (DInt z))
  ++ when_set (FEnqueuedFrom f) (fun t => Compare GE "enqueued_at" (DTime t))
  ++ when_set (FEnqueuedTo f) (fun t => Compare LE "enqueued_at" (DTime t)).

Definition task_listing (q : ListTasksByJobQuery) (fetchLimit : Z) : select_stmt :=
  let c := task_column (task_sort q) in
  select_tasks
    (AND (task_conditions q
          ++ seek (TQSortAsc q) c "id" (task_cursor_value (task_sort q) <$> TQCursor q)))
    [(c, TQSortAsc q); ("id", TQSortAsc q)] (Some (wrapu 64 fetchLimit)).

Definition sql_Task_ListWithCursor (q : ListTasksByJobQuery) : M (res ListTasksResult) :=
  let effectiveLimit := default_limit (TQLimit q) in
  try rows <- sql_listing (task_listing q (effectiveLimit + 1));
  try taskSnapshots <- lift_res (map_res scan_task rows);
  if effectiveLimit <? 0 then panic "runtime error: makeslice: cap out of range" else
  lift_res (tasks ← map_res RestoreCrawlTaskFromSnapshot (take (Z.to_nat effectiveLimit)
    taskSnapshots);
    let hasMore := effectiveLimit <? Z.of_nat (length taskSnapshots) in
    Ok {| TRTasks := tasks;
          TRNextCursor := if hasMore then next_task_cursor q <$> last tasks else None;
          TRHasMore := hasMore |}).

(** ** crawl_job_repo.go *)

Definition job_user_source : source := LeftJoin job_source "users" "u" "j.user_id" "u.id".

Definition job_column (field : string) : string :=
  if bool_decide (field = JobSortByName) then "c.name"
  else if bool_decide (field = JobSortByStatus) then "j.status" else "j.created_at".

Definition job_cursor_value (field : string) (c : ListCrawlJobsCursor) : datum * string :=
  (if bool_decide (field = JobSortByName) then DText (JCName c)
   else if bool_decide (field = JobSortByStatus) then DText (JCStatus c)
   else DTime (JCCreatedAt c), JCID c).

Definition job_conditions (f : ListCrawlJobsFilter) : list condition :=
  when_text (JFStatus f) (fun s => sq_Eq "j.status" (DText s))
  ++ when_text (JFUserEmail f) (fun s => ILIKE "u.email" (like s))
  ++ when_text (JFName f) (fun s => ILIKE "c.name" (like s))
  ++ when_set (JFCreatedFrom f) (fun t => Compare GE "j.created_at" (DTime t))
  ++ when_set (JFCreatedTo f) (fun t => Compare LE "j.created_at" (DTime t)).

Definition job_listing (q : ListCrawlJobsQuery) (fetchLimit : Z) : select_stmt :=
  let c := job_column (job_sort q) in
  {| sel_columns := job_select_columns; sel_from := job_user_source;
     sel_where := AND (job_conditions (JQFilter q)
                       ++ seek (JQSortAsc q) c "j.id"
                            (job_cursor_value (job_sort q) <$> JQCursor q));
     sel_order := [(c, JQSortAsc q); ("j.id", JQSortAsc q)];
     sel_limit := Some (wrapu 64 fetchLimit); sel_offset := None; sel_lock := None |}.

Definition sql_Job_ListWithCursor (q : ListCrawlJobsQuery) : M (res ListCrawlJobsResult) :=
  let limit := JQLimit q in
  try rows <- sql_listing (job_listing q (limit + 1));
  if limit + 1 <? 0 then panic "runtime error: makeslice: cap out of range" else
  try jobs <- lift_res (snaps ← map_res sql_scanCrawlJobWithConfig rows;
                        map_res RestoreCrawlJobFromSnapshot snaps);
  let hasMore := limit <? Z.of_nat (length jobs) in
  if hasMore && (limit <? 0) then panic "runtime error: slice bounds out of range" else
  let jobs := if hasMore then take (Z.to_nat limit) jobs else jobs in
  ret_ok {| JRJobs := jobs;
            JRNextCursor := if hasMore then next_job_cursor q <$> last jobs else None;
            JRHasMore := hasMore |}.

(** ** Conditions *)

Lemma is_true_AND sch d r l :
  is_true (holds sch d r (AND l)) = forallb (fun c => is_true (holds sch d r c)) l.
Proof.
  cbn [holds]. induction l as [|c l IH]; [done|]. cbn [foldr forallb]. by rewrite is_true_and, IH.
Qed.

Lemma holds_when_text sch d r o f p :
  (forall s, is_true (holds sch d r (f s)) = p s) ->
  forallb (fun c => is_true (holds sch d r c)) (when_text o f) = given o p.
Proof.
  intros E. destruct o as [s|]; [|done]. simpl. case_bool_decide; [done|]. simpl.
  by rewrite E, andb_true_r.
Qed.

Lemma holds_when_set {A} sch d r (o : option A) f p :
  (forall a, is_true (holds sch d r (f a)) = p a) ->
  forallb (fun c => is_true (holds sch d r c)) (when_set o f)
  = match o with Some a => p a | None => true end.
Proof. intros E. destruct o as [a|]; [|done]. simpl. by rewrite E, andb_true_r. Qed.

(** ** Positions *)

(** A sort key as the datum of a column. *)
Definition stands_for (v : datum) (k : sort_key) : Prop :=
  match v, k with
  | DText s, KText s' => s = s'
  | DInt z, KNum z' | DTime z, KNum z' => z = z'
  | DNull, KNull => True
  | _, _ => False
  end.

(** Two data that can be in one column. *)
Definition same_column (v v' : datum) : Prop :=
  match v, v' with
  | DNull, _ | _, DNull | DText _, DText _ | DInt _, DInt _ | DTime _, DTime _ => True
  | _, _ => False
  end.

Lemma datum_le_key v v' k k' :
  stands_for v k -> stands_for v' k' -> same_column v v' -> datum_le v v' = key_leb k k'.
Proof. destruct v, k, v', k'; simpl; intros; subst; done. Qed.

Lemma key_leb_refl k : key_leb k k = true.
Proof. destruct (key_leb_total k k); done. Qed.

Lemma order_position c i (asc : bool) a b p q :
  stands_for (col a c) p.1 -> stands_for (col b c) q.1 -> same_column (col a c) (col b c) ->
  col a i = DText p.2 -> col b i = DText q.2 ->
  order_le [(c, asc); (i, asc)] a b = directed asc pos_leb p q.
Proof.
  assert (Hs : forall v v', same_column v v' -> same_column v' v) by (intros [] []; done).
  assert (Hp : forall v v' s s' k k',
    stands_for v k -> stands_for v' k' -> same_column v v' ->
    (if datum_le v v' then if datum_le v' v then
       if datum_le (DText s) (DText s') then if datum_le (DText s')
         (DText s) then true else true else false
     else true else false) = pos_leb (k, s) (k', s')).
  { intros v v' s s' k k' Hv Hv' Hc. unfold pos_leb. cbn [fst snd].
    rewrite (datum_le_key v v' k k'), (datum_le_key v' v k' k) by auto.
    case_bool_decide as E.
    - subst k'. rewrite key_leb_refl. simpl. by destruct (text_le s s'), (text_le s' s).
    - destruct (key_leb k k') eqn:E1; [|done]. destruct (key_leb k' k) eqn:E2; [|done].
      by destruct E; apply key_leb_antisym. }
  intros Ha Hb Hc Ea Eb. cbn [order_le]. destruct p as [k s], q as [k' s']. cbn [fst snd] in *.
  destruct asc; rewrite Ea, Eb; cbn [directed]; apply Hp; auto.
Qed.

Lemma text_lt_le a b : text_lt a b = negb (bool_decide (a = b)) && text_le a b.
Proof.
  unfold text_lt. change (String.leb b a) with (text_le b a). case_bool_decide as E; simpl.
  - subst b. by destruct (text_le_total a a) as [->| ->].
  - destruct (text_le a b) eqn:E1, (text_le b a) eqn:E2; try done.
    + by destruct E; apply text_le_antisym.
    + destruct (text_le_total a b); congruence.
Qed.

Lemma Z_lt_le a b : (a <? b) = negb (bool_decide (a = b)) && (a <=? b).
Proof. case_bool_decide; simpl; lia. Qed.

Lemma lt3_key v v' k k' :
  stands_for v k -> stands_for v' k' -> same_column v v' -> k <> KNull -> k' <> KNull ->
  lt3 v v' = Some (negb (bool_decide (k = k')) && key_leb k k')
  /\ eq3 v v' = Some (bool_decide (k = k')).
Proof.
  destruct v, k, v', k'; simpl; intros; subst; try done.
  - rewrite text_lt_le. split; do 2 f_equal; [f_equal|]; apply bool_decide_ext; naive_solver.
  - rewrite Z_lt_le. split; [do 3 f_equal; apply bool_decide_ext; naive_solver|].
    f_equal. case_bool_decide as E; [injection E as ->; lia|]. apply Z.eqb_neq. by intros ->.
  - rewrite Z_lt_le. split; [do 3 f_equal; apply bool_decide_ext; naive_solver|].
    f_equal. case_bool_decide as E; [injection E as ->; lia|]. apply Z.eqb_neq. by intros ->.
Qed.

Lemma eq3_null v : eq3 DNull v = None /\ eq3 v DNull = None /\ lt3 DNull v = None /\ lt3 v DNull
  = None.
Proof. by destruct v. Qed.

(** The row comparison of a statement is that of positions. *)
Lemma pair3_lt v v' k k' s s' :
  stands_for v k -> stands_for v' k' -> same_column v v' ->
  is_true (or3 (lt3 v v') (and3 (eq3 v v') (lt3 (DText s) (DText s')))) = row_lt (k, s) (k', s').
Proof.
  intros Hv Hv' Hc. unfold row_lt. cbn [fst snd]. destruct (decide (k = KNull)) as [->|Hk].
  { destruct v; try done. destruct (eq3_null v') as (-> & _ & -> & _).
    by destruct (lt3 _ _) as [[]|]. }
  destruct (decide (k' = KNull)) as [->|Hk'].
  { destruct v'; try done. destruct (eq3_null v) as (_ & -> & _ & ->).
    destruct (lt3 _ _) as [[]|]; by destruct k. }
  destruct (lt3_key v v' k k' Hv Hv' Hc Hk Hk') as [-> ->]. cbn [lt3].
  rewrite is_true_or, is_true_and. cbn [is_true].
  destruct k, k'; try done; case_bool_decide; simpl; by rewrite ?orb_false_r.
Qed.

Lemma seek_holds sch d r (asc : bool) c i (cursor : option (datum * string))
  (o : option position) p :
  match cursor, o with
  | Some (v, s), Some (k, s') => stands_for v k /\ s = s' /\ same_column (col r c) v
  | None, None => True
  | _, _ => False
  end ->
  stands_for (col r c) p.1 -> col r i = DText p.2 ->
  forallb (fun x => is_true (holds sch d r x)) (seek asc c i cursor)
  = match o with None => true | Some x => directed asc row_lt x p end.
Proof.
  destruct cursor as [[v s]|], o as [[k s']|]; try done. intros (Hv & <- & Hc) Hp Ei.
  cbn [seek when_set forallb holds pair3 fst snd]. rewrite andb_true_r, Ei. destruct p as [kp sp].
  cbn [fst snd] in *. destruct asc; unfold pair3; cbn [compare3 directed].
  - assert (Ee : eq3 (col r c) v = eq3 v (col r c)).
    { destruct (col r c), v; try done; simpl; f_equal;
        first [apply app_inj_bool | apply Z.eqb_sym | by destruct b, b0]. }
    rewrite Ee. apply pair3_lt; [done..|]. by destruct (col r c), v.
  - by apply pair3_lt.
Qed.

(** ** Listings *)

Lemma bfilter_twice {A} (p q : A -> bool) l : bfilter p (bfilter q l)
  = bfilter (fun a => q a && p a) l.
Proof.
  unfold bfilter. induction l as [|a l IH]; [done|]. rewrite !filter_cons.
  destruct (q a) eqn:Eq; simpl; [|exact IH]. rewrite !filter_cons.
  destruct (p a); simpl; by rewrite IH.
Qed.

(** The sorted page of a statement is the page of [keyset]. *)
Lemma select_keyset {A} s d locked (enc : A -> list (string * datum)) l (wanted : A -> bool)
    (pos : A -> position) asc (cursor : option position) limit :
  select_ok db_schema s = true -> rows_of db_schema d (sel_from s) = enc <$> l ->
  sel_limit s = Some limit -> sel_offset s = None -> sel_lock s = None ->
  (forall a, is_true (holds db_schema d (enc a) (sel_where s))
             = wanted a && match cursor with None => true | Some x => directed asc row_lt x
               (pos a) end) ->
  (forall a b, order_le (sel_order s) (enc a) (enc b) = directed asc pos_leb (pos a) (pos b)) ->
  sel_order s <> [] ->
  run_select db_schema locked d s
  = Ok ((fun a => project (sel_columns s) (enc a))
          <$> limit_rows limit (keyset pos asc cursor (bfilter wanted l))).
Proof.
  intros Hok Hr El Eo Ek Hw Ho Hn. unfold run_select. rewrite Hok.
  rewrite (selected_spec db_schema locked d s enc l
    (fun a => wanted a && match cursor with None => true | Some x => directed asc row_lt x (pos a)
      end)
    (order_by (fun a b => directed asc pos_leb (pos a) (pos b)))); [|done| |].
  - rewrite El, Eo. cbn [cut]. unfold keyset. by rewrite bfilter_twice, <- list_fmap_compose.
  - intros a _. by rewrite Ek, Hw, andb_true_r.
  - by apply sorts_by.
Qed.

Lemma select_args_limit s n :
  sel_limit s = Some (wrapu 64 n) ->
  is_ok (select_args s)
  = forallb (fun v => match v with DInt z => z <=? int64_max | _ => true end)
    (condition_args (sel_where s))
    && is_ok (limit_param n).
Proof.
  intros E. unfold select_args, limit_param. rewrite E.
  destruct (forallb _ _); simpl; [|done]. by destruct (wrapu 64 n <=? int64_max).
Qed.

(** Rows that scan to [l]. *)
Definition scans_to {A B} (scan : list (string * datum) -> res B) (of_row : A -> res B)
    (rows : list (list (string * datum))) (l : list A) : Prop :=
  length rows = length l /\ map_res scan rows = map_res of_row l.

(** The columns of the conditions exist. *)
Lemma ok_when_text sch cs o f :
  (forall s, condition_ok sch cs (f s) = true) -> forallb (condition_ok sch cs) (when_text o f)
    = true.
Proof. intros E. destruct o as [s|]; [|done]. simpl. case_bool_decide; [done|]. simpl. by rewrite E.
Qed.

Lemma ok_when_set {A} sch cs (o : option A) f :
  (forall a, condition_ok sch cs (f a) = true) -> forallb (condition_ok sch cs) (when_set o f)
    = true.
Proof. intros E. destruct o as [a|]; [|done]. simpl. by rewrite E. Qed.

(** *** Tasks *)

Lemma select_ok_intro sch s cs :
  source_columns sch (sel_from s) = cs -> source_ok sch (sel_from s) = true ->
  forallb (fun c => mem c.1 cs) (sel_columns s) = true -> condition_ok sch cs (sel_where s)
    = true ->
  forallb (fun k => mem k.1 cs) (sel_order s) = true -> sel_lock s = None -> select_ok sch s = true.
Proof. unfold select_ok. by intros -> -> -> -> -> ->. Qed.

Definition task_columns : list string :=
  Eval vm_compute in source_columns db_schema (From "crawl_tasks" "").

Lemma task_listing_ok q n : select_ok db_schema (task_listing q n) = true.
Proof.
  assert (Hc : mem (task_column (task_sort q)) task_columns = true)
    by (unfold task_column; by repeat case_bool_decide).
  apply (select_ok_intro _ _ task_columns); [by vm_compute|by vm_compute|by vm_compute| | |done].
  - unfold task_listing, select_tasks, task_conditions, seek. cbn [sel_where condition_ok].
    rewrite !forallb_app, !ok_when_text, !ok_when_set
      by (intros; first [reflexivity | by cbn [condition_ok]; rewrite Hc]).
    reflexivity.
  - unfold task_listing, select_tasks. cbn [sel_order forallb fst]. rewrite Hc. reflexivity.
Qed.

Lemma task_stands field t :
  stands_for (col (enc_task t) (task_column field)) (task_position field t).1.
Proof. unfold task_column, task_position. by repeat case_bool_decide. Qed.

Lemma task_same field t t' :
  same_column (col (enc_task t) (task_column field)) (col (enc_task t') (task_column field)).
Proof. unfold task_column. by repeat case_bool_decide. Qed.

Lemma task_position_row field t : (task_position field t).2 = ts_ID t.
Proof. unfold task_position. by repeat case_bool_decide. Qed.

Lemma task_wanted q d t :
  forallb (fun c => is_true (holds db_schema d (enc_task t) c)) (task_conditions q)
    = task_where q t.
Proof.
  unfold task_conditions, task_where. rewrite !forallb_app.
  rewrite (holds_when_text _ _ _ _ _ (fun s => bool_decide (ts_Status t = s))) by done.
  rewrite (holds_when_text _ _ _ _ _ (fun s => ilike_contains s (ts_URL t))) by done.
  rewrite (holds_when_set _ _ _ (FMinDepth _) _ (fun z => z <=? ts_Depth t))
    by (intros z; simpl; symmetry; apply Z.leb_antisym).
  rewrite (holds_when_set _ _ _ (FMaxDepth _) _ (fun z => ts_Depth t <=? z))
    by (intros z; simpl; symmetry; apply Z.leb_antisym).
  rewrite (holds_when_set _ _ _ (FEnqueuedFrom _) _ (fun z => z <=? ts_EnqueuedAt t))
    by (intros z; simpl; symmetry; apply Z.leb_antisym).
  rewrite (holds_when_set _ _ _ (FEnqueuedTo _) _ (fun z => ts_EnqueuedAt t <=? z))
    by (intros z; simpl; symmetry; apply Z.leb_antisym).
  cbn [forallb]. unfold bounded. simpl. by rewrite andb_true_r, !andb_assoc.
Qed.

Lemma task_seek q d t :
  forallb (fun c => is_true (holds db_schema d (enc_task t) c))
    (seek (TQSortAsc q) (task_column (task_sort q)) "id" (task_cursor_value (task_sort q) <$>
      TQCursor q))
  = match task_cursor_position (task_sort q) <$> TQCursor q with
    | None => true
    | Some x => directed (TQSortAsc q) row_lt x (task_position (task_sort q) t)
    end.
Proof.
  apply seek_holds; [|apply task_stands|by rewrite task_position_row].
  destruct (TQCursor q) as [c|]; [|done]. cbn [fmap option_fmap option_map].
  unfold task_cursor_value, task_cursor_position, task_column.
  repeat case_bool_decide; try done. by destruct (TCDepth c).
Qed.

(** The integers of a condition that the driver takes. *)
Notation int8_ok := (fun v => match v with DInt z => z <=? int64_max | _ => true end).

Lemma args_when_text o f :
  (forall s, forallb int8_ok (condition_args (f s)) = true) ->
  forallb int8_ok (flat_map condition_args (when_text o f)) = true.
Proof.
  intros E. destruct o as [s|]; [|done]. simpl. case_bool_decide; [done|]. simpl.
  by rewrite app_nil_r.
Qed.

Lemma args_when_set {A} (o : option A) f :
  forallb int8_ok (flat_map condition_args (when_set o f))
  = match o with Some a => forallb int8_ok (condition_args (f a)) | None => true end.
Proof. destruct o; [|done]. simpl. by rewrite app_nil_r. Qed.

Lemma int8_arg_bounded o : is_ok (int8_arg o) = bounded o (fun z => z <=? int64_max).
Proof. unfold int8_arg, guard_. by destruct (bounded _ _). Qed.

Lemma is_ok_bind_unit {B} (r : res unit) (k : res B) : is_ok (_ ← r; k) = is_ok r && is_ok k.
Proof. by destruct r as [[]|]. Qed.

Lemma task_args_ok q n :
  is_ok (select_args (task_listing q n)) = is_ok (task_args q) && is_ok (limit_param n).
Proof.
  rewrite (select_args_limit _ n) by done. f_equal. unfold task_listing, task_conditions, task_args.
  cbn [sel_where select_tasks condition_args]. rewrite !flat_map_app, !forallb_app.
  rewrite !args_when_text, !args_when_set by done.
  rewrite !is_ok_bind_unit, !int8_arg_bounded. cbn [flat_map condition_args sq_Eq forallb app].
  unfold seek. rewrite args_when_set.
  replace (match task_cursor_value (task_sort q) <$> TQCursor q with Some _ => _ | None => true end)
    with (is_ok match TQCursor q with
                | Some c => if bool_decide (task_sort q = TaskSortByDepth) then int8_arg
                  (TCDepth c) else Ok tt
                | None => Ok tt
                end).
  - unfold bounded. by destruct (FMinDepth _), (FMaxDepth _), (FEnqueuedFrom _), (FEnqueuedTo _);
      cbn [forallb condition_args andb]; rewrite ?andb_true_r, ?andb_assoc.
  - destruct (TQCursor q) as [c|]; [|done]. unfold task_cursor_value.
    cbn [fmap option_fmap option_map fst snd].
    cbn [condition_args forallb]. rewrite andb_true_r.
    destruct (bool_decide_reflect (task_sort q = TaskSortByDepth)) as [->|];
      [|by repeat case_bool_decide].
    rewrite int8_arg_bounded. simpl. by destruct (TCDepth c); rewrite ?andb_true_r.
Qed.

Lemma limit_param_Ok n limit : limit_param n = Ok limit -> limit = wrapu 64 n.
Proof. unfold limit_param, guard_. by destruct (wrapu 64 n <=? int64_max); intros [= <-]. Qed.

Lemma agree_listing {A B C} (s : select_stmt) (page : database -> res (list A))
    (scan : list (string * datum) -> res B) of_row
    (K : list (list (string * datum)) -> M (res C)) K' :
  (forall n d, db_wf d ->
     same_write (scans_to scan of_row)
       (_ ← select_args s; l ← run_select db_schema (locked_at n) (encode d) s; Ok (l, d))
       (rows ← page d; Ok (rows, d))) ->
  (forall a b w, scans_to scan of_row a b -> agree (K a w) (K' b w)) ->
  (try rows <- sql_listing s; K rows) ⊑ (try rows <- stmt (fun _ d => rows ← page d; Ok (rows, d));
    K' rows).
Proof. intros HF HK. by eapply stmt_refines_with. Qed.

Lemma Task_ListWithCursor_refines q : sql_Task_ListWithCursor q ⊑ Task_ListWithCursor q.
Proof.
  unfold sql_Task_ListWithCursor, Task_ListWithCursor. cbn zeta.
  apply (agree_listing _ _ scan_task Ok).
  - intros n d Hd. unfold task_page.
    pose proof (task_args_ok q (default_limit (TQLimit q) + 1)) as Ha.
    destruct (select_args _) as [[]|e], (task_args q) as [[]|e'],
      (limit_param _) as [limit|e''] eqn:El;
      try discriminate Ha; [|done..].
    apply limit_param_Ok in El as ->.
    cbn [mbind res_bind].
    rewrite (select_keyset _ _ _ enc_task (tasks d) (task_where q) (task_position (task_sort q))
      (TQSortAsc q) (task_cursor_position (task_sort q) <$> TQCursor q)
        (wrapu 64 (default_limit (TQLimit q) + 1)));
      [|apply task_listing_ok|exact (plain_rows db_schema (encode d) "crawl_tasks")|done..| |
        |done].
    + cbn [mbind res_bind same_write]. split; [|done]. split; [by rewrite length_fmap|].
      apply map_res_through. intros t Ht. apply scan_project_task. apply elem_of_limit_rows in Ht.
      apply keyset_perm_sub in Ht. apply elem_of_bfilter in Ht as [_ Ht]. by eapply depth_of.
    + intros t. cbn [sel_where task_listing select_tasks].
      by rewrite is_true_AND, forallb_app, task_wanted, task_seek.
    + intros a b. apply order_position; [apply task_stands..|apply task_same| |];
        by rewrite task_position_row.
  - intros rows l w [Hlen Hs]. rewrite Hs, map_res_Ok. cbn. unfold try_bind. apply agree_refl.
Qed.

(** *** Jobs *)

Definition job_user (d : database) (j : CrawlJobSnapshot) : option UserSnapshot :=
  match js_UserID j with
  | None => None
  | Some u => head (bfilter (fun r => bool_decide (us_ID r = u)) (users d))
  end.

Definition user_part (o : option UserSnapshot) : list (string * datum) :=
  qualify "u" match o with Some u => enc_user u | None => null_row (table_of db_schema "users") end.

Definition enc_listed (d : database) (j : CrawlJobSnapshot) : list (string * datum) :=
  enc_joined (join_config d j) ++ user_part (job_user d j).

Lemma listed_rows d :
  db_wf d -> rows_of db_schema (encode d) job_user_source = enc_listed d <$> jobs d.
Proof.
  intros Hd. unfold job_user_source. cbn [rows_of]. rewrite (left_join_rows d) by apply Hd.
  change (rows (encode d) "users") with (enc_user <$> users d). rewrite bind_fmap.
  transitivity (jobs d ≫= (fun j => [enc_listed d j]));
    [|induction (jobs d) as [|j l IH]; [done|]; csimpl; by rewrite <- IH].
  apply bind_ext_in. intros j _. unfold enc_listed, job_user.
  assert (Hu : forall r u,
    join_on "j.user_id" "u.id" (enc_joined (join_config d j) ++ qualify "u" (enc_user u)) = r <->
    is_true (eq3 (null_text (js_UserID j)) (DText (us_ID u))) = r).
  { intros r u. unfold join_on. unfold join_config. by destruct (job_config_row d j). }
  destruct (js_UserID j) as [x|] eqn:Ej.
  - rewrite (inner_rows_enc _ _ "u" enc_user (users d) _ (fun u => bool_decide (us_ID u = x))).
    + rewrite (bfilter_key us_ID) by apply Hd. by destruct (head _).
    + intros u. apply Hu. apply app_inj_bool.
  - rewrite (inner_rows_enc _ _ "u" enc_user (users d) _ (fun _ => false)).
    + by rewrite bfilter_none.
    + intros u. by apply Hu.
Qed.

(** The columns of a listed job. *)
Lemma listed_id d j : col (enc_listed d j) "j.id" = DText (js_ID j).
Proof. reflexivity. Qed.
Lemma listed_status d j : col (enc_listed d j) "j.status" = DText (js_Status j).
Proof. reflexivity. Qed.
Lemma listed_created d j : col (enc_listed d j) "j.created_at" = DTime (js_CreatedAt j).
Proof. reflexivity. Qed.
Lemma listed_name d j : col (enc_listed d j) "c.name" = null_text (cs_Name <$> job_config_row d j).
Proof. unfold enc_listed, join_config. by destruct (job_config_row d j). Qed.
Lemma listed_email d j : col (enc_listed d j) "u.email" = null_text (job_email d j).
Proof.
  unfold enc_listed, join_config, job_email, job_user.
  destruct (job_config_row d j), (js_UserID j); try done; by destruct (head _).
Qed.

Lemma listed_project d j :
  project job_select_columns (enc_listed d j)
    = project job_select_columns (enc_joined (join_config d j)).
Proof. unfold enc_listed, join_config. by destruct (job_config_row d j). Qed.

Lemma listed_wanted f d j :
  forallb (fun c => is_true (holds db_schema (encode d) (enc_listed d j) c)) (job_conditions f)
  = job_where f (joined_job d j).
Proof.
  unfold job_conditions, job_where. rewrite !forallb_app.
  rewrite (holds_when_text _ _ _ (JFStatus f) _ (fun s => bool_decide (js_Status j = s))) by done.
  rewrite (holds_when_text _ _ _ (JFUserEmail f) _ (fun s => on_value (ilike_contains s)
    (job_email d j)))
    by (intros s; cbn [holds]; rewrite listed_email; by destruct (job_email d j)).
  rewrite (holds_when_text _ _ _ (JFName f) _
             (fun s => on_value (fun c => ilike_contains s (cs_Name c)) (job_config_row d j)))
    by (intros s; cbn [holds]; rewrite listed_name; by destruct (job_config_row d j)).
  rewrite (holds_when_set _ _ _ (JFCreatedFrom f) _ (fun z => z <=? js_CreatedAt j))
    by (intros z; simpl; symmetry; apply Z.leb_antisym).
  rewrite (holds_when_set _ _ _ (JFCreatedTo f) _ (fun z => js_CreatedAt j <=? z))
    by (intros z; simpl; symmetry; apply Z.leb_antisym).
  unfold bounded. simpl. by rewrite !andb_assoc.
Qed.

Lemma listed_stands field d j :
  stands_for (col (enc_listed d j) (job_column field)) (job_position field (joined_job d j)).1.
Proof.
  unfold job_column, job_position.
  repeat case_bool_decide; [|by rewrite listed_status|by rewrite listed_created].
  rewrite listed_name. cbn [jr_config joined_job]. by destruct (job_config_row d j).
Qed.

Lemma listed_same field d j d' j' :
  same_column (col (enc_listed d j) (job_column field)) (col (enc_listed d' j') (job_column field)).
Proof.
  unfold job_column. repeat case_bool_decide;
    [|by rewrite !listed_status|by rewrite !listed_created].
  rewrite !listed_name. by destruct (job_config_row d j), (job_config_row d' j').
Qed.

Lemma listed_seek q d j :
  forallb (fun c => is_true (holds db_schema (encode d) (enc_listed d j) c))
    (seek (JQSortAsc q) (job_column (job_sort q)) "j.id" (job_cursor_value (job_sort q) <$> JQCursor
      q))
  = match job_cursor_position (job_sort q) <$> JQCursor q with
    | None => true
    | Some x => directed (JQSortAsc q) row_lt x (job_position (job_sort q) (joined_job d j))
    end.
Proof.
  apply seek_holds; [|apply listed_stands|by rewrite job_position_id].
  destruct (JQCursor q) as [c|]; [|done]. cbn [fmap option_fmap option_map].
  unfold job_cursor_value, job_cursor_position, job_column.
  repeat case_bool_decide; (split; [done|]; split; [done|]);
    [|by rewrite listed_status|by rewrite listed_created].
  rewrite listed_name. by destruct (job_config_row d j).
Qed.

Definition job_columns_listed : list string := Eval vm_compute in
  source_columns db_schema job_user_source.

Lemma job_listing_ok q n : select_ok db_schema (job_listing q n) = true.
Proof.
  assert (Hc : mem (job_column (job_sort q)) job_columns_listed = true)
    by (unfold job_column; by repeat case_bool_decide).
  apply (select_ok_intro _ _ job_columns_listed);
    [by vm_compute|by vm_compute|by vm_compute| | |done].
  - unfold job_listing, job_conditions, seek. cbn [sel_where condition_ok].
    by rewrite !forallb_app, !ok_when_text, !ok_when_set
      by (intros; first [reflexivity | by cbn [condition_ok]; rewrite Hc]).
  - unfold job_listing. cbn [sel_order forallb fst]. by rewrite Hc.
Qed.

Lemma job_args_ok q n : is_ok (select_args (job_listing q n)) = is_ok (limit_param n).
Proof.
  rewrite (select_args_limit _ n) by done.
  replace (forallb _ _) with true; [done|]. unfold job_listing, job_conditions, seek.
  cbn [sel_where condition_args]. rewrite !flat_map_app, !forallb_app, !args_when_text,
    !args_when_set by done.
  unfold job_cursor_value.
  destruct (JFCreatedFrom _), (JFCreatedTo _), (JQCursor q); try done;
    cbn [fmap option_fmap option_map fst];
    by repeat case_bool_decide.
Qed.

Lemma map_res_ext_in {A B} (f g : A -> res B) l : (forall a, a ∈ l -> f a = g a) -> map_res f l
  = map_res g l.
Proof.
  induction l as [|a l IH]; intros E; [done|]. simpl. rewrite (E a) by left.
  by rewrite IH by (intros; apply E; by right).
Qed.

Lemma keyset_fmap {A B} (f : A -> B) pos asc cursor (l : list A) :
  keyset pos asc cursor (f <$> l) = f <$> keyset (fun a => pos (f a)) asc cursor l.
Proof. unfold keyset. rewrite bfilter_fmap. by apply order_by_fmap. Qed.

Lemma Job_ListWithCursor_refines q : sql_Job_ListWithCursor q ⊑ Job_ListWithCursor q.
Proof.
  unfold sql_Job_ListWithCursor, Job_ListWithCursor. cbn zeta.
  apply (agree_listing _ _ sql_scanCrawlJobWithConfig (fun r => scanCrawlJobWithConfig (jr_job r,
    jr_config r))).
  - intros n d Hd. unfold job_page. pose proof (job_args_ok q (JQLimit q + 1)) as Ha.
    destruct (select_args _) as [[]|e], (limit_param _) as [limit|e''] eqn:El; try discriminate Ha;
      [|done].
    apply limit_param_Ok in El as ->. cbn [mbind res_bind].
    rewrite (select_keyset _ _ _ (enc_listed d) (jobs d) (fun j => job_where (JQFilter q)
      (joined_job d j))
      (fun j => job_position (job_sort q) (joined_job d j)) (JQSortAsc q)
      (job_cursor_position (job_sort q) <$> JQCursor q) (wrapu 64 (JQLimit q + 1)));
      [|apply job_listing_ok|by apply listed_rows|done..| | |done].
    + cbn [mbind res_bind same_write]. split; [|done].
      rewrite bfilter_fmap, keyset_fmap, limit_fmap.
      split; [by rewrite !length_fmap|]. rewrite !map_res_fmap_comp. apply map_res_ext_in.
      intros j _.
      cbn [sel_columns job_listing]. rewrite listed_project. apply (scan_joined (join_config d j)).
    + intros j. cbn [sel_where job_listing].
      by rewrite is_true_AND, forallb_app, listed_wanted, listed_seek.
    + intros a b. apply order_position; [apply listed_stands..|apply listed_same| |];
        by rewrite job_position_id.
  - intros rows l w [Hlen Hs]. unfold scanJobsWithQueueEndpoints. rewrite map_res_fmap_comp, <- Hs.
    apply agree_refl.
Qed.

(** ** Analytics *)

Definition count_by (jobID : CrawlJobID) (c : string) (order : bool) : M (res (list (datum * Z))) :=
  stmt (fun _ d =>
    l ← run_group db_schema (encode d)
          {| grp_column := c; grp_from := From "crawl_tasks" "";
             grp_where := sq_Eq "job_id" (DText (value jobID)); grp_order := order |};
    Ok (l, d)).

Definition scan_count {K} (scan : datum -> res K) (p : datum * Z) : res (K * Z) :=
  k ← scan p.1; Ok (k, p.2).

(** [counts[key] = count], row after row. *)
Definition count_map {K} `{Countable K} (l : list (K * Z)) : gmap K Z :=
  foldl (fun m p => <[p.1 := p.2]> m) ∅ l.

Definition sql_Task_GetAnalyticsByJob (jobID : CrawlJobID) : M (res TaskAnalytics) :=
  try rows <- count_by jobID "status" false;
  try statuses <- lift_res (map_res (scan_count scan_string) rows);
  try depthRows <- count_by jobID "depth" true;
  try depths <- lift_res (map_res (scan_count scan_uint64) depthRows);
  ret_ok {| StatusCounts := count_map statuses; DepthCounts := count_map depths;
            TotalCount := foldl (fun total p => total + p.2) 0 statuses |}.

(** The groups of [group_count]. *)
Fixpoint count_key {K} `{EqDecision K} (k : K) (gs : list (K * Z)) : list (K * Z) :=
  match gs with
  | [] => [(k, 1)]
  | (k', n) :: gs => if bool_decide (k' = k) then (k', n + 1) :: gs else (k', n) :: count_key k gs
  end.

Section Groups.
Context {K : Type} `{Countable K}.

Lemma count_key_keys (k : K) gs x : x ∈ (count_key k gs).*1 <-> x = k \/ x ∈ gs.*1.
Proof.
  induction gs as [|[k' n] gs IH]; simpl; [set_solver|]. case_bool_decide; simpl; set_solver.
Qed.

Lemma count_key_nodup (k : K) gs : NoDup gs.*1 -> NoDup (count_key k gs).*1.
Proof.
  induction gs as [|[k' n] gs IH]; simpl; [intros _; apply NoDup_singleton|].
  intros [Hn Hg]%NoDup_cons. case_bool_decide as E; simpl; constructor; try done; [|by apply IH].
  rewrite count_key_keys. intros [->|?]; [by destruct E|done].
Qed.

Lemma count_key_map (k : K) gs :
  list_to_map (M := gmap K Z) (count_key k gs)
  = <[k := default 0 (list_to_map (M := gmap K Z) gs !! k) + 1]> (list_to_map gs).
Proof.
  induction gs as [|[k' n] gs IH]; simpl; [by rewrite lookup_empty|]. case_bool_decide as E; simpl.
  - subst k'. by rewrite lookup_insert_eq, insert_insert_eq.
  - rewrite IH, lookup_insert_ne by done. by rewrite insert_insert_ne by done.
Qed.

Definition key_groups {A} (f : A -> K) (l : list A) : list (K * Z) :=
  foldr (fun a => count_key (f a)) [] l.

Lemma key_groups_spec {A} (f : A -> K) l :
  NoDup (key_groups f l).*1 /\ list_to_map (key_groups f l) = group_count f l.
Proof.
  induction l as [|a l [Hn Hm]]; [split; [constructor|done]|].
  change (key_groups f (a :: l)) with (count_key (f a) (key_groups f l)).
  split; [by apply count_key_nodup|]. by rewrite count_key_map, Hm.
Qed.

Lemma count_map_perm (l l' : list (K * Z)) : NoDup l'.*1 -> l ≡ₚ l' -> count_map l = list_to_map l'.
Proof.
  intros Hn Hp. assert (Hl : NoDup l.*1) by (by rewrite Hp).
  rewrite <- (list_to_map_proper l l') by done. clear Hn Hp l'. unfold count_map.
  assert (Hm : forall m, foldl (fun m p => <[p.1 := p.2]> m) m l = list_to_map (M := gmap K Z) l ∪
    m).
  { induction l as [|[k n] l IH]; intros m; [symmetry; apply (left_id_L ∅ (∪))|].
    cbn in Hl. apply NoDup_cons in Hl as [Hk Hl]. cbn [foldl fst snd]. rewrite IH by done.
    rewrite list_to_map_cons, <- insert_union_l. symmetry. apply insert_union_r.
    by apply not_elem_of_list_to_map_1. }
  rewrite Hm. apply (right_id_L ∅ (∪)).
Qed.

End Groups.

Lemma sum_counts {K} (l : list (K * Z)) : foldl (fun total p => total + p.2) 0 l
  = foldr Z.add 0 l.*2.
Proof.
  assert (Ha : forall a, foldl (fun total p => total + p.2) a l = a + foldr Z.add 0 l.*2).
  { induction l as [|[k n] l IH]; intros a; [simpl; lia|].
    rewrite fmap_cons. cbn [foldl foldr fst snd]. rewrite IH. lia. }
  by rewrite Ha.
Qed.

Lemma sum_perm (l l' : list Z) : l ≡ₚ l' -> foldr Z.add 0 l = foldr Z.add 0 l'.
Proof. induction 1; simpl; lia. Qed.

(** What the rows of a grouping statement are. *)
Definition groups_of {K} `{Countable K} (scan : datum -> res K) (rows : list (datum * Z))
  (m : gmap K Z) : Prop :=
  exists l, map_res (scan_count scan) rows = Ok l /\ count_map l = m
            /\ foldl (fun total p => total + p.2) 0 l = foldr Z.add 0 (map_to_list m).*2.

Lemma count_in_key {K} `{Countable K} (mk : K -> datum) k gs :
  (forall a b, same_group (mk a) (mk b) = bool_decide (a = b)) ->
  count_in (mk k) ((fun p => (mk p.1, p.2)) <$> gs) = (fun p => (mk p.1, p.2)) <$> count_key k gs.
Proof.
  intros Hs. induction gs as [|[k' n] gs IH]; [done|]. cbn [count_key]. rewrite fmap_cons.
  cbn [count_in fst snd].
  rewrite Hs. case_bool_decide; rewrite fmap_cons; [done|]. by rewrite IH.
Qed.

Lemma run_group_spec {K} `{Countable K} s (mk : K -> datum) scan (f : CrawlTaskSnapshot -> K)
  (p : CrawlTaskSnapshot -> bool) d :
  grp_from s = From "crawl_tasks" "" ->
  source_ok db_schema (grp_from s) && mem (grp_column s) (source_columns db_schema (grp_from s))
    && condition_ok db_schema (source_columns db_schema (grp_from s)) (grp_where s) = true ->
  (forall t, is_true (holds db_schema (encode d) (enc_task t) (grp_where s)) = p t) ->
  (forall t, col (enc_task t) (grp_column s) = mk (f t)) ->
  (forall a b, same_group (mk a) (mk b) = bool_decide (a = b)) ->
  (forall t, t ∈ tasks d -> scan (mk (f t)) = Ok (f t)) ->
  exists rows, run_group db_schema (encode d) s = Ok rows
               /\ groups_of scan rows (group_count f (bfilter p (tasks d))).
Proof.
  intros Hf Hok Hw Hc Hs Hscan. unfold run_group. rewrite Hok, Hf, plain_rows.
  change (rows (encode d) "crawl_tasks") with (enc_task <$> tasks d).
  rewrite bfilter_fmap, (bfilter_ext _ p) by (intros; apply Hw). set (l := bfilter p (tasks d)).
  assert (Eg : foldr count_in [] ((fun r => col r (grp_column s)) <$> (enc_task <$> l))
    = (fun q => (mk q.1, q.2)) <$> key_groups f l).
  { clear Hscan. induction l as [|t l IH]; [done|]. rewrite !fmap_cons. cbn [foldr key_groups].
    rewrite IH, Hc. by apply count_in_key. }
  rewrite Eg. destruct (key_groups_spec f l) as [Hn Hm].
  assert (Hin : forall q, q ∈ key_groups f l -> scan (mk q.1) = Ok q.1).
  { assert (Hl : forall t, t ∈ l -> scan (mk (f t)) = Ok (f t))
      by (intros t [_ Ht]%elem_of_bfilter; by apply Hscan).
    clearbody l. clear - Hl. intros q Hq. assert (Hk : q.1 ∈ (key_groups f l).*1)
      by (by apply list_elem_of_fmap_2).
    revert Hk. generalize (q.1). clear q Hq. intros k.
    induction l as [|t l IH]; [by intros ?%elem_of_nil|].
    cbn [key_groups foldr]. rewrite count_key_keys. intros [->|Hk]; [apply Hl; by left|].
    apply IH; [intros; apply Hl; by right|done]. }
  set (rows := if grp_order s then _ else _).
  assert (Hr : exists g, g ≡ₚ key_groups f l /\ rows = (fun q => (mk q.1, q.2)) <$> g).
  { unfold rows. destruct (grp_order s); [|by eexists].
    exists (order_by (fun a b => datum_le (mk a.1) (mk b.1)) (key_groups f l)).
    split; [apply order_by_perm|]. by apply order_by_fmap. }
  destruct Hr as (g & Hg & ->). eexists. split; [done|]. exists g. split_and!.
  - rewrite map_res_fmap_comp. erewrite map_res_ext_in; [apply map_res_Ok|].
    intros q Hq. unfold scan_count. cbn [fst snd]. rewrite Hin by (by rewrite <- Hg). by destruct q.
  - rewrite (count_map_perm g (key_groups f l)) by done. exact Hm.
  - rewrite sum_counts. apply sum_perm. rewrite <- Hm, map_to_list_to_map by done. by rewrite Hg.
Qed.

(** A reading statement, followed by what needs the invariant again. *)
Lemma query_refines_with {A B C} (R : A -> B -> Prop) (F : nat -> database -> res (A * database))
    (g : nat -> database -> B) (K : A -> M (res C)) (K' : B -> M (res C)) :
  (forall n d, db_wf d -> exists a, F n d = Ok (a, d) /\ R a (g n d)) ->
  (forall a b, R a b -> K a ⊑ K' b) ->
  (try x <- stmt F; K x) ⊑ (try y <- query g; K' y).
Proof.
  intros HF HK w Hw. destruct (HF (ticks w) (db w) Hw) as (a & Ea & Ha). specialize (HK a _ Ha).
  unfold try_bind, query, mbind, M_bind, stmt, tick. cbn [tx db ticks]. rewrite Ea.
  destruct (tx w) as [[]|], (verdict_at (ticks w)); simpl; try (by split); by apply HK.
Qed.

Lemma lift_Ok {A B} (a : A) (K : A -> M (res B)) : (try x <- lift_res (Ok a); K x) = K a.
Proof. done. Qed.

Lemma count_by_reads {K} `{Countable K} jobID c order (mk : K -> datum) scan
  (f : CrawlTaskSnapshot -> K) d :
  mem c task_columns = true -> (forall t, col (enc_task t) c = mk (f t)) ->
  (forall a b, same_group (mk a) (mk b) = bool_decide (a = b)) ->
  (forall t, t ∈ tasks d -> scan (mk (f t)) = Ok (f t)) ->
  exists rows,
    (l ← run_group db_schema (encode d)
           {| grp_column := c; grp_from := From "crawl_tasks" "";
              grp_where := sq_Eq "job_id" (DText (value jobID)); grp_order := order |};
                Ok (l, d)) = Ok (rows, d)
    /\ groups_of scan rows
      (group_count f (bfilter (fun t => bool_decide (ts_JobID t = value jobID)) (tasks d))).
Proof.
  intros Hm Hc Hs Hscan.
  destruct (run_group_spec {| grp_column := c; grp_from := From "crawl_tasks" "";
              grp_where := sq_Eq "job_id" (DText (value jobID)); grp_order := order |}
    mk scan f (fun t => bool_decide (ts_JobID t = value jobID)) d) as (rows & -> & Hr); try done.
  - cbn [grp_from grp_column grp_where].
    change (source_columns db_schema (From "crawl_tasks" "")) with task_columns. rewrite Hm.
    reflexivity.
  - by exists rows.
Qed.

Lemma Task_GetAnalyticsByJob_refines jobID :
  sql_Task_GetAnalyticsByJob jobID ⊑ Task_GetAnalyticsByJob jobID.
Proof.
  unfold sql_Task_GetAnalyticsByJob, Task_GetAnalyticsByJob, count_by. cbn zeta.
  apply (query_refines_with (groups_of scan_string)).
  { intros _ d _. by apply (count_by_reads _ _ _ DText). }
  intros rows m (statuses & -> & <- & Htotal). rewrite lift_Ok.
  apply (query_refines_with (groups_of scan_uint64)).
  { intros _ d Hd. apply (count_by_reads _ _ _ DInt); [done|done| |].
    - intros a b. simpl. case_bool_decide; lia.
    - intros t Ht. unfold scan_uint64. by rewrite (proj2 (Z.leb_le _ _) (depth_of d t Hd Ht)). }
  intros depthRows dm (depths & -> & <- & _). rewrite lift_Ok, Htotal. apply refines_eq. done.
Qed.

End SqlListings.

#[export] Hint Resolve Task_ListWithCursor_refines Job_ListWithCursor_refines
  Task_GetAnalyticsByJob_refines : statements.
