(* ===== verification/SqlRepos.v ===== *)
(** * The repositories over the tables

    One type for the calls of the repositories, with what a call does on the rows of [Repos] and
    what its statements do on the tables of [Schema].  The invariant the refinement needs is kept
    by every call, so that a sequence of calls leaves the same world and gives the same answers on
    both sides. *)

From S2P Require Import Prelude GoStrings Domain Json Converters World Sql Repos Relational Schema.
From S2P Require Import Statements SqlRefines SqlWrites SqlListings.
From S2P Require Import GoUrl ParserWorker Scheduler Pagination JobListing Integrity.

(** ** The invariant *)

Definition wf_kept (d d' : database) : Prop := db_wf d -> db_wf d'.

#[export] Instance wf_kept_preorder : PreOrder wf_kept.
Proof. split; [intros d Hd; exact Hd|]. intros a b c Hab Hbc Ha. apply Hbc, Hab, Ha. Qed.

(** Changes of one table. *)
Lemma wf_upd_tasks f d :
  (db_wf d -> NoDup (ts_ID <$> f (tasks d)) /\ Forall (fun t => task_fits t = true) (f (tasks d)))
    ->
  wf_kept d (upd_tasks f d).
Proof. intros Hf Hd. destruct (Hf Hd) as [Hn Ht]. split; [apply Hd..|exact Hn|exact Ht|apply Hd].
Qed.

Lemma wf_upd_jobs f d :
  (db_wf d -> NoDup (js_ID <$> f (jobs d)) /\ Forall (fun j => js_JobConfig j = None) (f (jobs d)))
    ->
  wf_kept d (upd_jobs f d).
Proof. intros Hf Hd. destruct (Hf Hd) as [Hn Hj]. split; [apply Hd|exact Hn|exact Hj|apply Hd..].
Qed.

Lemma wf_upd_configs f d :
  (db_wf d -> NoDup (cs_ID <$> f (configs d))) -> wf_kept d (upd_configs f d).
Proof. intros Hf Hd. split; [by apply Hf|apply Hd..]. Qed.

Lemma wf_upd_users f d : (db_wf d -> NoDup (us_ID <$> f (users d))) -> wf_kept d (upd_users f d).
Proof. intros Hf Hd. split; [apply Hd..|by apply Hf]. Qed.

Lemma wf_upd_outbox f d : wf_kept d (upd_outbox f d).
Proof. intros Hd. by split; apply Hd. Qed.
Lemma wf_upd_tokens f d : wf_kept d (upd_tokens f d).
Proof. intros Hd. by split; apply Hd. Qed.

Lemma ids_updated {A} (id : A -> string) p g l :
  (forall a, id (g a) = id a) -> id <$> update_where p g l = id <$> l.
Proof.
  intros Hg. unfold update_where. rewrite <- list_fmap_compose. apply list_fmap_ext.
  intros _ a _. simpl. destruct (p a); [apply Hg|done].
Qed.

Lemma ids_kept {A} (id : A -> string) p l : NoDup (id <$> l) -> NoDup (id <$> bfilter p l).
Proof. intros Hn. eapply sublist_NoDup; [exact Hn|]. apply fmap_sublist, sublist_filter. Qed.

Lemma ids_snoc {A} (id : A -> string) a l :
  negb (existsb (fun r => bool_decide (id r = id a)) l) = true -> NoDup (id <$> l) ->
  NoDup (id <$> l ++ [a]).
Proof.
  intros Hx Hn. rewrite fmap_app. apply NoDup_app. split; [done|]. split; [|apply NoDup_singleton].
  intros k (r & -> & Hr)%list_elem_of_fmap E%list_elem_of_singleton.
  rewrite not_existsb in Hx. specialize (Hx r Hr). by apply bool_decide_eq_false in Hx.
Qed.

Lemma Forall_updated {A} (P : A -> Prop) p g l :
  Forall P l -> (forall a, P a -> P (g a)) -> Forall P (update_where p g l).
Proof.
  intros Hl Hg. apply Forall_fmap. eapply Forall_impl; [exact Hl|]. intros a Ha. simpl.
  destruct (p a); [by apply Hg|done].
Qed.

Lemma wf_update_tasks p g d :
  (forall t, ts_ID (g t) = ts_ID t) -> (forall t, task_fits t = true -> task_fits (g t) = true) ->
  wf_kept d (upd_tasks (update_where p g) d).
Proof.
  intros Hi Hf. apply wf_upd_tasks. intros Hd. rewrite ids_updated by done.
  split; [apply Hd|]. apply Forall_updated; [apply Hd|done].
Qed.

Lemma wf_update_jobs p g d :
  (forall j, js_ID (g j) = js_ID j) ->
  (forall j, js_JobConfig j = None -> js_JobConfig (g j) = None) ->
  wf_kept d (upd_jobs (update_where p g) d).
Proof.
  intros Hi Hf. apply wf_upd_jobs. intros Hd. rewrite ids_updated by done.
  split; [apply Hd|]. apply Forall_updated; [apply Hd|done].
Qed.

Lemma wf_update_configs p g d :
  (forall c, cs_ID (g c) = cs_ID c) -> wf_kept d (upd_configs (update_where p g) d).
Proof. intros Hi. apply wf_upd_configs. intros Hd. rewrite ids_updated by done. apply Hd. Qed.

Lemma wf_update_users p g d :
  (forall u, us_ID (g u) = us_ID u) -> wf_kept d (upd_users (update_where p g) d).
Proof. intros Hi. apply wf_upd_users. intros Hd. rewrite ids_updated by done. apply Hd. Qed.

Lemma wf_delete_jobs p d : wf_kept d (delete_jobs p d).
Proof.
  unfold delete_jobs. etrans; [apply wf_upd_jobs|apply wf_upd_tasks]; intros Hd;
    (split; [apply ids_kept, Hd|apply Forall_kept, Hd]).
Qed.

Lemma guard_true c e : guard_ c e = Ok tt -> c = true.
Proof. unfold guard_. by destruct c. Qed.

(** ** Every method keeps it *)

Section Kept.
Context `{Env, JsonLib}.

(** A statement whose function keeps the invariant. *)
Lemma wf_stmt {A} (f : nat -> database -> res (A * database)) :
  (forall n d x d', f n d = Ok (x, d') -> wf_kept d d') -> keeps (lifted wf_kept) (stmt f).
Proof. apply lifted_stmt. exact _. Qed.

(** An insertion, whose guards are those of [f], and the identifier it returns. *)
Lemma wf_insert {A B} (f : database -> res (A * database)) (k : A -> res B) :
  (forall d x d', f d = Ok (x, d') -> wf_kept d d') ->
  keeps (lifted wf_kept) (try id <- stmt (fun _ d => f d); lift_res (k id)).
Proof.
  intros Hf. apply keeps_try; [exact _|apply wf_stmt; intros _; exact Hf| |].
  - intros e. apply keeps_ret. exact _.
  - intros a. apply lifted_lift. exact _.
Qed.

Lemma wf_insert_task t d id d' :
  task_fits t = true -> insert_task t d = Ok (id, d') -> wf_kept d d'.
Proof.
  intros Ht E. unfold insert_task in E. apply res_bind_Ok in E as ([] & Ep%guard_true & E).
  repeat (apply res_bind_Ok in E as ([] & _ & E)). injection E as _ <-.
  apply wf_upd_tasks. intros Hd. split; [apply ids_snoc; [exact Ep|apply Hd]|].
  apply Forall_app. split; [apply Hd|by repeat constructor].
Qed.

Lemma wf_insert_tasks ts d ids d' :
  Forall (fun t => task_fits t = true) ts -> insert_tasks ts d = Ok (ids, d') -> wf_kept d d'.
Proof.
  intros Hts. revert d ids. induction Hts as [|t ts Ht _ IH]; intros d ids E; simpl in E.
  { injection E as _ <-. reflexivity. }
  destruct (task_url_ok t d); [|by eapply IH].
  apply res_bind_Ok in E as ([id d1] & E1 & E). apply res_bind_Ok in E as ([ids1 d2] & E2 & E).
  injection E as _ <-. etrans; [by eapply wf_insert_task|by eapply IH].
Qed.

Lemma wf_Task_Create e :
  task_fits (SaveCrawlTaskToSnapshot e) = true -> keeps (lifted wf_kept) (Task_Create e).
Proof. intros He. apply wf_insert. intros d x d'. by apply wf_insert_task. Qed.

Lemma wf_Task_BulkCreate es :
  Forall (fun t => task_fits (SaveCrawlTaskToSnapshot t) = true) es ->
  keeps (lifted wf_kept) (Task_BulkCreate es).
Proof.
  intros He. unfold Task_BulkCreate. destruct es as [|e es]; [apply keeps_ret; exact _|].
  apply wf_insert. intros d x d'. apply wf_insert_tasks. by apply Forall_fmap.
Qed.

Lemma wf_Task_Update e :
  task_fits (SaveCrawlTaskToSnapshot e) = true -> keeps (lifted wf_kept) (Task_Update e).
Proof.
  intros He. apply wf_stmt. intros n d x d' E. apply res_bind_Ok in E as ([] & _ & [= _ <-]).
  by apply wf_update_tasks.
Qed.

Lemma wf_Task_SetTaskResult t k c z :
  bigint z = true -> keeps (lifted wf_kept) (Task_SetTaskResult t k c z).
Proof.
  intros Hz. apply wf_stmt. intros n d x d' [= _ <-]. apply wf_update_tasks; [done|].
  unfold task_fits. intros r Hr. apply andb_true_iff in Hr as [Hr _].
  cbn [ts_Depth ts_ResultSizeBytes].
  by rewrite Hr.
Qed.

Lemma wf_Outbox_Create e : keeps (lifted wf_kept) (Outbox_Create e).
Proof.
  apply wf_stmt. intros n d x d' E. apply res_bind_Ok in E as (d1 & E & [= _ <-]).
  apply res_bind_Ok in E as ([] & _ & [= <-]). apply wf_upd_outbox.
Qed.

Lemma wf_Outbox_BulkCreate es : keeps (lifted wf_kept) (Outbox_BulkCreate es).
Proof.
  unfold Outbox_BulkCreate. destruct es; [apply keeps_ret; exact _|].
  apply wf_stmt. intros n d x d' E. apply res_bind_Ok in E as (d1 & E & [= _ <-]).
  apply insert_events_ok in E as ->. apply wf_upd_outbox.
Qed.

Lemma wf_Outbox_MarkAsProcessed id : keeps (lifted wf_kept) (Outbox_MarkAsProcessed id).
Proof. apply wf_stmt. intros n d x d' [= _ <-]. apply wf_upd_outbox. Qed.

Lemma wf_Config_Create c : keeps (lifted wf_kept) (Config_Create c).
Proof.
  apply keeps_try; [exact _|apply lifted_lift; exact _|intros; apply keeps_ret; exact _|intros s].
  apply wf_insert. intros d x d' E. apply res_bind_Ok in E as ([] & Ei%guard_true & E).
  repeat (apply res_bind_Ok in E as ([] & _ & E)). injection E as _ <-.
  apply wf_upd_configs. intros Hd. apply ids_snoc; [exact Ei|apply Hd].
Qed.

Lemma wf_Config_Update c : keeps (lifted wf_kept) (Config_Update c).
Proof.
  apply keeps_try; [exact _|apply lifted_lift; exact _|intros; apply keeps_ret; exact _|intros s].
  apply wf_stmt. intros n d x d' E. repeat (apply res_bind_Ok in E as ([] & _ & E)).
  injection E as _ <-. by apply wf_update_configs.
Qed.

Lemma wf_Config_Delete id : keeps (lifted wf_kept) (Config_Delete id).
Proof.
  apply lifted_exec; [exact _|]. intros d. etrans; [apply wf_delete_jobs|].
  apply wf_upd_configs. intros Hd. apply ids_kept, Hd.
Qed.

Lemma wf_Job_Create j : keeps (lifted wf_kept) (Job_Create j).
Proof.
  apply wf_insert. intros d x d' E. apply res_bind_Ok in E as ([] & Ei%guard_true & E).
  apply res_bind_Ok in E as ([] & _ & [= _ <-]). apply wf_upd_jobs. intros Hd. split.
  - by apply (ids_snoc js_ID (with_config None (SaveCrawlJobToSnapshot j))); [exact Ei|apply Hd].
  - apply Forall_app. split; [apply Hd|by repeat constructor].
Qed.

Lemma wf_Job_Update j : keeps (lifted wf_kept) (Job_Update j).
Proof.
  apply wf_stmt. intros n d x d' E. destruct (existsb _ _); [|injection E as _ <-; reflexivity].
  apply res_bind_Ok in E as ([] & _ & [= _ <-]). by apply wf_update_jobs.
Qed.

Lemma wf_Job_Delete id : keeps (lifted wf_kept) (Job_Delete id).
Proof. apply lifted_exec; [exact _|]. intros d. apply wf_delete_jobs. Qed.

Lemma wf_Job_TryStartExport id : keeps (lifted wf_kept) (Job_TryStartExport id).
Proof.
  apply keeps_try; [exact _| |intros; apply keeps_ret; exact _|].
  - apply wf_stmt. intros n d x d' [= _ <-]. by apply wf_update_jobs.
  - intros m. case_match; apply keeps_ret; exact _.
Qed.

Lemma wf_Job_FailExport id : keeps (lifted wf_kept) (Job_FailExport id).
Proof. apply lifted_exec; [exact _|]. intros d. by apply wf_update_jobs. Qed.

Lemma wf_User_Create u : keeps (lifted wf_kept) (User_Create u).
Proof.
  apply wf_insert. intros d x d' E. apply res_bind_Ok in E as ([] & _ & E).
  apply res_bind_Ok in E as ([] & Ei%guard_true & E). apply res_bind_Ok in E as ([] & _ & [= _ <-]).
  apply wf_upd_users. intros Hd. apply ids_snoc; [exact Ei|apply Hd].
Qed.

Lemma wf_User_Update u : keeps (lifted wf_kept) (User_Update u).
Proof.
  apply wf_stmt. intros n d x d' E. destruct (existsb _ _); [|injection E as _ <-; reflexivity].
  repeat (apply res_bind_Ok in E as ([] & _ & E)). injection E as _ <-. by apply wf_update_users.
Qed.

Lemma wf_User_UpdateRole id r : keeps (lifted wf_kept) (User_UpdateRole id r).
Proof.
  apply keeps_bind; [exact _|apply lifted_observe; exact _|intros now].
  apply wf_stmt. intros n d x d' E. destruct (existsb _ _); [|injection E as _ <-; reflexivity].
  apply res_bind_Ok in E as ([] & _ & [= _ <-]). by apply wf_update_users.
Qed.

Lemma wf_Token_Create t : keeps (lifted wf_kept) (Token_Create t).
Proof.
  apply wf_insert. intros d x d' E. repeat (apply res_bind_Ok in E as ([] & _ & E)).
  injection E as _ <-. apply wf_upd_tokens.
Qed.

Lemma wf_Token_Update t : keeps (lifted wf_kept) (Token_Update t).
Proof.
  apply wf_stmt. intros n d x d' E. destruct (existsb _ _); [|injection E as _ <-; reflexivity].
  apply res_bind_Ok in E as ([] & _ & [= _ <-]). apply wf_upd_tokens.
Qed.

Lemma wf_Token_RevokeByTokenHash h : keeps (lifted wf_kept) (Token_RevokeByTokenHash h).
Proof.
  apply keeps_bind; [exact _|apply lifted_observe; exact _|intros now].
  apply lifted_exec; [exact _|]. intros d. apply wf_upd_tokens.
Qed.

Lemma wf_Token_RevokeAllByUserID u : keeps (lifted wf_kept) (Token_RevokeAllByUserID u).
Proof.
  apply keeps_bind; [exact _|apply lifted_observe; exact _|intros now].
  apply lifted_exec; [exact _|]. intros d. apply wf_upd_tokens.
Qed.

End Kept.

(** ** Calls *)

Inductive repo_call : Type -> Type :=
| CTask_Create (t : CrawlTask) : repo_call CrawlTaskID
| CTask_BulkCreate (ts : list CrawlTask) : repo_call (list CrawlTaskID)
| CTask_Get (id : CrawlTaskID) : repo_call CrawlTask
| CTask_Update (t : CrawlTask) : repo_call unit
| CTask_ListByJob (id : CrawlJobID) : repo_call (list CrawlTask)
| CTask_ListByStatus (s : TaskStatus) (limit : Z) : repo_call (list CrawlTask)
| CTask_SetTaskResult (id : CrawlTaskID) (key ctype : string) (size : Z) : repo_call unit
| CTask_ExistsByJobIDAndURL (id : CrawlJobID) (url : string) : repo_call bool
| CTask_ListStaleInProgress (older limit : Z) : repo_call (list CrawlTask)
| CTask_ListWithCursor (q : ListTasksByJobQuery) : repo_call ListTasksResult
| CTask_GetAnalyticsByJob (id : CrawlJobID) : repo_call TaskAnalytics
| COutbox_Create (e : OutboxEvent string) : repo_call unit
| COutbox_BulkCreate (es : list (OutboxEvent string)) : repo_call unit
| COutbox_FetchUnprocessedEvents (limit : Z) : repo_call (list (OutboxEvent string))
| COutbox_MarkAsProcessed (id : ID) : repo_call unit
| CConfig_Create (c : CrawlJobConfig) : repo_call ID
| CConfig_Get (id : ID) : repo_call CrawlJobConfig
| CConfig_Update (c : CrawlJobConfig) : repo_call unit
| CConfig_Delete (id : ID) : repo_call unit
| CConfig_ListAllScheduled (limit offset : Z) : repo_call (list CrawlJobConfig)
| CJob_Create (j : CrawlJob) : repo_call CrawlJobID
| CJob_Delete (id : CrawlJobID) : repo_call unit
| CJob_Get (id : CrawlJobID) : repo_call CrawlJob
| CJob_Update (j : CrawlJob) : repo_call unit
| CJob_List (s : TaskStatus) (limit offset : Z) : repo_call (list CrawlJob)
| CJob_ListAll (limit offset : Z) : repo_call (list CrawlJob)
| CJob_ListWithCursor (q : ListCrawlJobsQuery) : repo_call ListCrawlJobsResult
| CJob_GetLatestByConfigID (id : ID) : repo_call (option CrawlJob)
| CJob_ListEligibleForExport (limit : Z) : repo_call (list CrawlJob)
| CJob_TryStartExport (id : CrawlJobID) : repo_call bool
| CJob_FailExport (id : CrawlJobID) : repo_call unit
| CUser_Create (u : User) : repo_call UserID
| CUser_GetByID (id : UserID) : repo_call (option User)
| CUser_GetByEmail (email : string) : repo_call (option User)
| CUser_Update (u : User) : repo_call unit
| CUser_List : repo_call (list User)
| CUser_UpdateRole (id : UserID) (r : Role) : repo_call unit
| CToken_Create (t : RefreshToken) : repo_call RefreshTokenID
| CToken_GetByTokenHash (h : string) : repo_call (option RefreshToken)
| CToken_GetByID (id : RefreshTokenID) : repo_call (option RefreshToken)
| CToken_Update (t : RefreshToken) : repo_call unit
| CToken_RevokeByTokenHash (h : string) : repo_call unit
| CToken_RevokeAllByUserID (id : UserID) : repo_call unit.

Section Calls.
Context `{Env, JsonLib}.

Definition on_tables {A} (c : repo_call A) : M (res A) :=
  match c with
  | CTask_Create t => sql_Task_Create t
  | CTask_BulkCreate ts => sql_Task_BulkCreate ts
  | CTask_Get id => sql_Task_Get id
  | CTask_Update t => sql_Task_Update t
  | CTask_ListByJob id => sql_Task_ListByJob id
  | CTask_ListByStatus s limit => sql_Task_ListByStatus s limit
  | CTask_SetTaskResult id key ctype size => sql_Task_SetTaskResult id key ctype size
  | CTask_ExistsByJobIDAndURL id url => sql_Task_ExistsByJobIDAndURL id url
  | CTask_ListStaleInProgress older limit => sql_Task_ListStaleInProgress older limit
  | CTask_ListWithCursor q => sql_Task_ListWithCursor q
  | CTask_GetAnalyticsByJob id => sql_Task_GetAnalyticsByJob id
  | COutbox_Create e => sql_Outbox_Create e
  | COutbox_BulkCreate es => sql_Outbox_BulkCreate es
  | COutbox_FetchUnprocessedEvents limit => sql_Outbox_FetchUnprocessedEvents limit
  | COutbox_MarkAsProcessed id => sql_Outbox_MarkAsProcessed id
  | CConfig_Create c => sql_Config_Create c
  | CConfig_Get id => sql_Config_Get id
  | CConfig_Update c => sql_Config_Update c
  | CConfig_Delete id => sql_Config_Delete id
  | CConfig_ListAllScheduled limit offset => sql_Config_ListAllScheduled limit offset
  | CJob_Create j => sql_Job_Create j
  | CJob_Delete id => sql_Job_Delete id
  | CJob_Get id => sql_Job_Get id
  | CJob_Update j => sql_Job_Update j
  | CJob_List s limit offset => sql_Job_List s limit offset
  | CJob_ListAll limit offset => sql_Job_ListAll limit offset
  | CJob_ListWithCursor q => sql_Job_ListWithCursor q
  | CJob_GetLatestByConfigID id => sql_Job_GetLatestByConfigID id
  | CJob_ListEligibleForExport limit => sql_Job_ListEligibleForExport limit
  | CJob_TryStartExport id => sql_Job_TryStartExport id
  | CJob_FailExport id => sql_Job_FailExport id
  | CUser_Create u => sql_User_Create u
  | CUser_GetByID id => sql_User_GetByID id
  | CUser_GetByEmail email => sql_User_GetByEmail email
  | CUser_Update u => sql_User_Update u
  | CUser_List => sql_User_List
  | CUser_UpdateRole id r => sql_User_UpdateRole id r
  | CToken_Create t => sql_Token_Create t
  | CToken_GetByTokenHash h => sql_Token_GetByTokenHash h
  | CToken_GetByID id => sql_Token_GetByID id
  | CToken_Update t => sql_Token_Update t
  | CToken_RevokeByTokenHash h => sql_Token_RevokeByTokenHash h
  | CToken_RevokeAllByUserID id => sql_Token_RevokeAllByUserID id
  end.

Definition on_rows {A} (c : repo_call A) : M (res A) :=
  match c with
  | CTask_Create t => Task_Create t
  | CTask_BulkCreate ts => Task_BulkCreate ts
  | CTask_Get id => Task_Get id
  | CTask_Update t => Task_Update t
  | CTask_ListByJob id => Task_ListByJob id
  | CTask_ListByStatus s limit => Task_ListByStatus s limit
  | CTask_SetTaskResult id key ctype size => Task_SetTaskResult id key ctype size
  | CTask_ExistsByJobIDAndURL id url => Task_ExistsByJobIDAndURL id url
  | CTask_ListStaleInProgress older limit => Task_ListStaleInProgress older limit
  | CTask_ListWithCursor q => Task_ListWithCursor q
  | CTask_GetAnalyticsByJob id => Task_GetAnalyticsByJob id
  | COutbox_Create e => Outbox_Create e
  | COutbox_BulkCreate es => Outbox_BulkCreate es
  | COutbox_FetchUnprocessedEvents limit => Outbox_FetchUnprocessedEvents limit
  | COutbox_MarkAsProcessed id => Outbox_MarkAsProcessed id
  | CConfig_Create c => Config_Create c
  | CConfig_Get id => Config_Get id
  | CConfig_Update c => Config_Update c
  | CConfig_Delete id => Config_Delete id
  | CConfig_ListAllScheduled limit offset => Config_ListAllScheduled limit offset
  | CJob_Create j => Job_Create j
  | CJob_Delete id => Job_Delete id
  | CJob_Get id => Job_Get id
  | CJob_Update j => Job_Update j
  | CJob_List s limit offset => Job_List s limit offset
  | CJob_ListAll limit offset => Job_ListAll limit offset
  | CJob_ListWithCursor q => Job_ListWithCursor q
  | CJob_GetLatestByConfigID id => Job_GetLatestByConfigID id
  | CJob_ListEligibleForExport limit => Job_ListEligibleForExport limit
  | CJob_TryStartExport id => Job_TryStartExport id
  | CJob_FailExport id => Job_FailExport id
  | CUser_Create u => User_Create u
  | CUser_GetByID id => User_GetByID id
  | CUser_GetByEmail email => User_GetByEmail email
  | CUser_Update u => User_Update u
  | CUser_List => User_List
  | CUser_UpdateRole id r => User_UpdateRole id r
  | CToken_Create t => Token_Create t
  | CToken_GetByTokenHash h => Token_GetByTokenHash h
  | CToken_GetByID id => Token_GetByID id
  | CToken_Update t => Token_Update t
  | CToken_RevokeByTokenHash h => Token_RevokeByTokenHash h
  | CToken_RevokeAllByUserID id => Token_RevokeAllByUserID id
  end.

(** The numbers of a call fit the columns they are written to. *)
Definition call_fits {A} (c : repo_call A) : bool :=
  match c with
  | CTask_Create t | CTask_Update t => task_fits (SaveCrawlTaskToSnapshot t)
  | CTask_BulkCreate ts => forallb (fun t => task_fits (SaveCrawlTaskToSnapshot t)) ts
  | CTask_SetTaskResult _ _ _ size => bigint size
  | _ => true
  end.

Lemma forallb_Forall {A} (p : A -> bool) l : forallb p l = true -> Forall (fun a => p a = true) l.
Proof. intros Hl. apply Forall_forall. intros a Ha%list_elem_of_In. by eapply forallb_forall in Hl.
Qed.

(** A call on the tables agrees with the call on the rows. *)
Lemma call_refines {A} (c : repo_call A) : call_fits c = true -> on_tables c ⊑ on_rows c.
Proof.
  destruct c; cbn [call_fits on_tables on_rows]; intros Hc;
    auto using forallb_Forall with statements.
Qed.

Lemma wf_scan_optional {A B} (f : nat -> database -> list A) (g : A -> res B) :
  keeps (lifted wf_kept) (scan_optional f g).
Proof.
  apply keeps_try; [exact _|apply lifted_query; exact _| |].
  - intros e. case_match; apply keeps_ret; exact _.
  - intros [|r l]; [apply keeps_ret; exact _|apply lifted_lift; exact _].
Qed.

(** A listing reads. *)
Lemma wf_page {A B} (page : database -> res A) (k : A -> M (res B)) :
  (forall a, keeps (lifted wf_kept) (k a)) ->
  keeps (lifted wf_kept) (try x <- stmt (fun _ d => rows ← page d; Ok (rows, d)); k x).
Proof.
  intros Hk. apply keeps_try; [exact _| |intros; apply keeps_ret; exact _|exact Hk].
  apply wf_stmt. intros n d x d' E. apply res_bind_Ok in E as (l & _ & [= _ <-]). reflexivity.
Qed.

Lemma wf_Task_ListWithCursor q : keeps (lifted wf_kept) (Task_ListWithCursor q).
Proof. apply wf_page. intros l. lifted_steps lifted_tac. Qed.

Lemma wf_Job_ListWithCursor q : keeps (lifted wf_kept) (Job_ListWithCursor q).
Proof. apply wf_page. intros l. lifted_steps lifted_tac. cbn zeta. lifted_steps lifted_tac. Qed.

(** The invariant is kept by every call. *)
Lemma call_wf {A} (c : repo_call A) : call_fits c = true -> keeps (lifted wf_kept) (on_rows c).
Proof.
  destruct c; cbn [call_fits on_rows]; intros Hc;
    first
    [ by apply wf_Task_Create | apply wf_Task_BulkCreate; by apply forallb_Forall
    | by apply wf_Task_Update | by apply wf_Task_SetTaskResult | apply wf_Outbox_Create
    | apply wf_Outbox_BulkCreate | apply wf_Outbox_MarkAsProcessed | apply wf_Config_Create
    | apply wf_Config_Update | apply wf_Config_Delete | apply wf_Job_Create | apply wf_Job_Delete
    | apply wf_Job_Update | apply wf_Job_TryStartExport | apply wf_Job_FailExport
    | apply wf_User_Create | apply wf_User_Update | apply wf_User_UpdateRole | apply wf_Token_Create
    | apply wf_Token_Update | apply wf_Token_RevokeByTokenHash | apply wf_Token_RevokeAllByUserID
    | apply lifted_scan_all; exact _ | apply lifted_scan_one; exact _ | apply wf_scan_optional
    | apply lifted_query_jobs; exact _ | apply wf_Task_ListWithCursor | apply wf_Job_ListWithCursor
    | unfold Task_GetAnalyticsByJob, Task_Get, Job_Get, query_job, Task_ExistsByJobIDAndURL,
      Job_GetLatestByConfigID;
      lifted_steps lifted_tac ].
Qed.

(** ** Programs

    What a caller does with the repositories: calls, whose errors it can only see as errors, and
    transactions around them.  [None] is an error. *)

Inductive program : Type -> Type :=
| Return {B} (r : res B) : program B
| Call {A B} (c : repo_call A) (k : option A -> program B) : program B
| Transaction {A B} (p : program A) (k : option A -> program B) : program B.

Definition answer {A} (r : res A) : option A := match r with Ok a => Some a | Err _ => None end.

Fixpoint run (f : forall A, repo_call A -> M (res A)) {B} (p : program B) : M (res B) :=
  match p with
  | Return r => lift_res r
  | Call c k => r ← f _ c; run f (k (answer r))
  | Transaction p k => r ← ReadCommitted (run f p); run f (k (answer r))
  end.

Fixpoint fits {B} (p : program B) : Prop :=
  match p with
  | Return _ => True
  | Call c k => call_fits c = true /\ forall a, fits (k a)
  | Transaction p k => fits p /\ forall a, fits (k a)
  end.

Lemma agree_bind {A B} (m m' : M (res A)) (k k' : option A -> M (res B)) :
  m ⊑ m' -> keeps (lifted wf_kept) m' -> (forall a, k a ⊑ k' a) ->
  (r ← m; k (answer r)) ⊑ (r ← m'; k' (answer r)).
Proof.
  intros Hm Hk HK w Hw. destruct (Hk w) as [Hwf _]. destruct (Hm w Hw) as [E Ho].
  unfold mbind, M_bind. destruct (m w) as [[[a|e]|s] w1], (m' w) as [[[b|e']|s'] w2];
    simpl in *; try done; subst; apply HK; by apply Hwf.
Qed.

Lemma agree_Rollback {A} d e e' w : agree (Rollback (A := A) d e w) (Rollback d e' w).
Proof. unfold Rollback. destruct (verdict_at (ticks w)); by split. Qed.

Lemma agree_ReadCommitted {A} (m m' : M (res A)) : m ⊑ m' -> ReadCommitted m ⊑ ReadCommitted m'.
Proof.
  intros Hm w Hw. unfold ReadCommitted. destruct (tx w); [by apply Hm|].
  destruct (verdict_at (ticks w)); [|by split..].
  destruct (Hm (set_tx (Some false) (tick w)) Hw) as [E Ho].
  destruct (m _) as [[[a|e]|s] w1], (m' _) as [[[b|e']|s'] w2]; simpl in *; try done; subst.
  - apply agree_refl.
  - apply agree_Rollback.
  - apply agree_refl.
Qed.

Lemma wf_program {B} (p : program B) : fits p -> keeps (lifted wf_kept) (run (@on_rows) p).
Proof.
  induction p as [B r|A B c k IH|A B p IHp k IH]; cbn [fits run]; intros Hf.
  - apply lifted_lift. exact _.
  - destruct Hf as [Hc Hk]. apply keeps_bind; [exact _|by apply call_wf|intros r; by apply IH].
  - destruct Hf as [Hp Hk]. apply keeps_bind; [exact _| |intros r; by apply IH].
    apply lifted_ReadCommitted; [exact _|by apply IHp].
Qed.

(** C14: The statements of the repositories, run on the tables that the migrations build, refine the
    repositories on rows: every program of calls and transactions whose numbers fit their columns
    leaves the same world with both, and gives the same answer or fails with both; the tables keep
    the invariant that makes this so. *)
Theorem statements_refine {B} (p : program B) (w : world) :
  fits p -> db_wf (db w) ->
  agree (run (@on_tables) p w) (run (@on_rows) p w) /\ db_wf (db (run (@on_tables) p w).2).
Proof.
  intros Hf Hw. assert (Ha : run (@on_tables) p ⊑ run (@on_rows) p).
  { induction p as [B r|A B c k IH|A B p IHp k IH]; cbn [fits run] in *.
    - intros w' _. apply agree_refl.
    - destruct Hf as [Hc Hk]. apply (agree_bind _ _ (fun o => run _ (k o)) (fun o => run _ (k o)));
        [by apply call_refines|by apply call_wf|].
      intros a. apply IH, Hk.
    - destruct Hf as [Hp Hk]. apply (agree_bind _ _ (fun o => run _ (k o)) (fun o => run _ (k o)));
        [apply agree_ReadCommitted; by apply IHp| |].
      + apply lifted_ReadCommitted; [exact _|by apply wf_program].
      + intros a. apply IH, Hk. }
  specialize (Ha w Hw). split; [done|]. destruct Ha as [-> _]. by apply (wf_program p Hf w).
Qed.

End Calls.

(** ** A run on the tables *)

#[local] Existing Instances any_uuid plain_env plain_json.

(** In a transaction: a task that is new, one with the URL of the first, and the list of the job. *)
Definition demo_program : program (list CrawlTask) :=
  Transaction
    (Call (CTask_BulkCreate [demo_task TaskStatusInProgress; demo_task TaskStatusInProgress])
      (fun _ =>
     Call (CTask_ListByJob (JobID (demo_task TaskStatusInProgress))) (fun o =>
     Return match o with Some l => Ok l | None => Err ErrNoRows end)))
    (fun o => Return match o with Some l => Ok l | None => Err ErrNoRows end).

Definition demo_tables : world := world_of (upd_tasks (fun _ => []) demo_db).

Lemma demo_fits : fits demo_program.
Proof. repeat split. Qed.

Lemma demo_wf : db_wf (db demo_tables).
Proof.
  split; try (apply (bool_decide_unpack _); vm_compute; exact I); by repeat constructor.
Qed.

(** The second task has the identifier of the first and its URL: it is not inserted. *)
Lemma statements_refine_witness :
  fits demo_program /\ db_wf (db demo_tables)
  /\ agree (run (@on_tables _ _ _) demo_program demo_tables)
    (run (@on_rows _ _ _) demo_program demo_tables)
  /\ db_wf (db (run (@on_tables _ _ _) demo_program demo_tables).2)
  /\ (run (@on_tables _ _ _) demo_program demo_tables).1
    = Ret (Ok [demo_task TaskStatusInProgress]).
Proof.
  split; [exact demo_fits|]. split; [exact demo_wf|].
  pose proof (statements_refine demo_program demo_tables demo_fits demo_wf) as [Ha Hd].
  split; [exact Ha|]. split; [exact Hd|]. vm_compute. reflexivity.
Defined.
