(* ===== verification/System.v ===== *)
(** * The processes together

    The system: the world, and the messages the broker still holds.  A step is one operation of
    one process: an API call, a poll of the outbox publisher, of the recovery, of the scheduler or
    of the export worker, or the delivery of a message to a worker that reads its queue, with the
    broker's treatment of the answer: an acknowledged message is gone or, when the acknowledgement is
    lost, delivered again; any other is delivered again.  RabbitMQ does nothing else; Kafka (whose
    consumer commits past a message whose handler failed) and the memory broker (which drops what it
    cannot push back, and keeps its queues in memory) may also lose messages, in steps of their own.
    A step runs under the faults of [Env]; a worker that panics leaves its message to be delivered
    again.

    An operation is one step: what the operations of two processes do in between is not
    interleaved. *)

From S2P Require Import Prelude GoStrings Domain Json Converters World Sql Repos Routing Outbox.
From S2P Require Import GoUrl Scope FetchWorker Extraction ParserWorker ExportWorker JobService Scheduler.
From S2P Require Import WorkerStream Monitor Sharding Config Wiring Integrity.

Record system := { sys_world : world; sys_pending : list (string * message) }.

Section System.
Context `{FetchServices, RegexpLib, JsonLib, HtmlLib, MapOrder, CronLib}.

(** [json.Marshal(message)]. *)
Definition body_of (m : message) : string :=
  match m with
  | MsgCrawl m => marshal (json_of_crawl_msg m)
  | MsgParsing m => marshal (json_of_parsing_msg m)
  end.

(** The workers of a deployment, and its kind of broker ([GetBrokerType]). *)
Record deployment := {
  dep_broker : string;
  dep_publisher : OutboxPublisher;
  dep_fetchers : list FetchWorker;
  dep_parser : ParserWorker;
  dep_recovery : StuckTaskRecovery;
  dep_scheduler : ScheduleWorker;
  dep_exportBatch : Z }.

(** RabbitMQ holds a message until it is acknowledged. *)
Definition keeps_messages (D : deployment) : Prop := dep_broker D = BrokerRabbitMQ.

Inductive consumer := Fetcher (w : FetchWorker) | Parser.

Definition subscribes (D : deployment) (c : consumer) (q : string) : Prop :=
  match c with
  | Fetcher w => w ∈ dep_fetchers D /\ q ∈ fw_crawlQueues w
  | Parser => q = pw_parsingQueue (dep_parser D)
  end.

Definition handle (D : deployment) (c : consumer) (m : message) : M (res unit) :=
  match c with
  | Fetcher w => FetchWorker.handleMessage w (body_of m)
  | Parser => ParserWorker.handleMessage (dep_parser D) (body_of m)
  end.

(** The world after an operation, whose process holds no transaction any more, with what it
    published. *)
Definition after (pending : list (string * message)) (a b : world) : system :=
  {| sys_world := set_tx None b;
     sys_pending := pending ++ drop (length (published a)) (published b) |}.

Definition run {A} (m : M A) (s : system) : system :=
  after (sys_pending s) (sys_world s) (m (sys_world s)).2.

Inductive sys_step (D : deployment) (s : system) : system -> Prop :=
| step_create cmd : sys_step D s (run (CreateCrawlJob cmd) s)
| step_delete jobID : sys_step D s (run (DeleteCrawlJob jobID) s)
| step_outbox : sys_step D s (run (processOutboxEvents (dep_publisher D)) s)
| step_recover : sys_step D s (run (recover (dep_recovery D)) s)
| step_schedule : sys_step D s (run (processSchedules (dep_scheduler D)) s)
| step_export : sys_step D s (run (processEligibleJobs (dep_exportBatch D)) s)
| step_acked i q m c b :
    sys_pending s !! i = Some (q, m) -> subscribes D c q ->
    handle D c m (sys_world s) = (Ret (Ok tt), b) ->
    sys_step D s (after (delete i (sys_pending s)) (sys_world s) b)
| step_kept i q m c :
    sys_pending s !! i = Some (q, m) -> subscribes D c q ->
    sys_step D s (run (handle D c m) s)
| step_lost i :
    ~ keeps_messages D ->
    sys_step D s {| sys_world := sys_world s; sys_pending := delete i (sys_pending s) |}.

(** A deployment starts without jobs; there may be users. *)
Definition sys_start (s : system) : Prop :=
  tx (sys_world s) = None /\ tasks (db (sys_world s)) = [] /\ jobs (db (sys_world s)) = [].

Inductive reachable (D : deployment) : system -> Prop :=
| reach_start s : sys_start s -> reachable D s
| reach_step s s' : reachable D s -> sys_step D s s' -> reachable D s'.

(** ** What the handlers do to the rows of tasks *)

(** The bodies of messages: an identifier that is a UUID survives the JSON of its message, and
    nothing else becomes one. *)
Definition bodies_faithful : Prop :=
  (forall m m', Unmarshal crawl_msg_of_json (body_of m) = Ok m' ->
     uuid_Parse (task_of m) = true \/ uuid_Parse (MTaskID m') = true -> MTaskID m' = task_of m)
  /\ (forall m m', Unmarshal parsing_msg_of_json (body_of m) = Ok m' ->
     uuid_Parse (task_of m) = true \/ uuid_Parse (PTaskID m') = true -> PTaskID m' = task_of m).

(** A row after the update of a task's row. *)
Lemma updated_cases t d d' r :
  updated t d d' -> r ∈ tasks d' ->
  (r ∈ tasks d /\ ts_ID r <> value (TID t))
  \/ (ts_ID r = value (TID t) /\ ts_Status r = Status t /\ ts_MinioObjectKey r = MinioObjectKey t
      /\ ts_ResultObjectKey r = ResultObjectKey t).
Proof.
  intros -> (r0 & -> & Hr0)%list_elem_of_fmap. unfold is_task. case_bool_decide as E; [right|by left].
  by repeat split.
Qed.

Lemma parsed_with_cases t c key all new d d' r :
  Forall (child d t c) all -> parsed_with t key all new d d' -> r ∈ tasks d' ->
  (r ∈ tasks d /\ ts_ID r <> value (TID t))
  \/ (ts_ID r = value (TID t) /\ ts_Status r = TaskStatusParsed
      /\ ts_MinioObjectKey r = MinioObjectKey t /\ ts_ResultObjectKey r = Some key)
  \/ (ts_Status r = TaskStatusInProgress).
Proof.
  intros Hall (size & now & -> & Hs & _) Hr. simpl in Hr.
  apply elem_of_app in Hr as [(r0 & -> & Hr0)%list_elem_of_fmap|Hr].
  - unfold is_task. case_bool_decide as E; [right; left|by left]. by repeat split.
  - do 2 right. apply (elem_of_sublist _ _ _ Hr) in Hs.
    apply list_elem_of_fmap in Hs as (t' & -> & Ht'). rewrite Forall_forall in Hall.
    by destruct (Hall t' Ht') as (_ & ? & _).
Qed.

(** The page of a row is in the store, and so is its result when it was parsed. *)
Definition row_stored (w : world) (r : CrawlTaskSnapshot) : Prop :=
  is_Some (objects w !! ts_MinioObjectKey r)
  /\ (ts_Status r = TaskStatusParsed ->
      exists k, ts_ResultObjectKey r = Some k /\ is_Some (objects w !! k)).

(** What a handler did to rows with a page: they were there before or their objects are stored,
    and one that is fetched now has the identifier [id], which is a UUID. *)
Definition pages_stored (id : string) (a b : world) : Prop :=
  forall r, r ∈ tasks (db b) -> has_page r ->
    r ∈ tasks (db a)
    \/ (row_stored b r /\ (ts_Status r = TaskStatusFetched -> ts_ID r = id /\ uuid_Parse id = true)).

(** If the task [id] is fetched, a message for it was published to the queue [q]. *)
Definition settled_task (q id : string) (a b : world) : Prop :=
  forall r, r ∈ tasks (db b) -> ts_ID r = id -> ts_Status r = TaskStatusFetched ->
    exists m, (q, m) ∈ drop (length (published a)) (published b) /\ task_of m = id.

Lemma pages_stored_same id a b : db b = db a -> pages_stored id a b.
Proof. intros E r Hr _. left. by rewrite <- E. Qed.

Lemma drop_published (a b : world) l :
  published b = published a ++ l -> drop (length (published a)) (published b) = l.
Proof. intros ->. apply drop_app_length. Qed.

(** A crawl message whose identifier is no UUID only gives an error. *)
Lemma fetch_bad_id w body a :
  (forall m, Unmarshal crawl_msg_of_json body = Ok m -> uuid_Parse (MTaskID m) = false) ->
  exists e, FetchWorker.handleMessage w body a = (Ret (Err e), a).
Proof.
  intros Hb. unfold FetchWorker.handleMessage, try_bind, lift_res, ret_err, mbind, M_bind, mret, M_ret.
  destruct (Unmarshal crawl_msg_of_json body) as [m|e]; [|by eexists].
  unfold NewID. rewrite (Hb m eq_refl). simpl. case_bool_decide; by eexists.
Qed.

Lemma parsing_bad_id w body a :
  (forall m, Unmarshal parsing_msg_of_json body = Ok m -> uuid_Parse (PTaskID m) = false) ->
  exists e, ParserWorker.handleMessage w body a = (Ret (Err e), a).
Proof.
  intros Hb. unfold ParserWorker.handleMessage, try_bind, lift_res, ret_err, mbind, M_bind, mret, M_ret.
  destruct (Unmarshal parsing_msg_of_json body) as [m|e]; [|by eexists].
  unfold NewID. rewrite (Hb m eq_refl). simpl. case_bool_decide; by eexists.
Qed.

Lemma failed_has_no_page s : ts_Status s = TaskStatusFailed -> ~ has_page s.
Proof. intros E [Hp|Hp]; by rewrite E in Hp. Qed.

(** A handler that updated the row of [t] as fetched. *)
Lemma fetched_stored t u k page a b :
  updated (MarkAsFetched u k t) (db a) (db b) -> objects b = <[k := page]> (objects a) ->
  uuid_Parse (value (TID t)) = true -> pages_stored (value (TID t)) a b.
Proof.
  intros Hu Ho Hid r Hr Hp. destruct (updated_cases _ _ _ _ Hu Hr) as [[? _]|(Hi & Hs & Hk & _)]; [by left|right].
  simpl in Hi, Hs, Hk. split; [|by rewrite Hi]. split.
  - rewrite Hk, Ho, lookup_insert_eq. eauto.
  - intros Hs'. by rewrite Hs in Hs'.
Qed.

Lemma fetch_rows w body id a o b :
  faults_plain -> tx a = None -> refs_ok (db a) ->
  (forall m, Unmarshal crawl_msg_of_json body = Ok m -> MTaskID m = id) -> uuid_Parse id = true ->
  FetchWorker.handleMessage w body a = (o, b) ->
  pages_stored id a b /\ (o = Ret (Ok tt) -> settled_task (fw_parsingQueue w) id a b).
Proof.
  intros Hf Ht Hrefs Hid Hu E. pose proof (FetchWorker.handleMessage_effect w body id a Ht Hid) as He.
  rewrite E in He. destruct o as [r|s]; [destruct He as [He _]|].
  2:{ split; [|done]. destruct He as (Hd & _). by apply pages_stored_same. }
  simpl in He.
  destruct He as [e Hs|e Hs Hg|t re r Hi Hw Hup Htb Hob Hpb|t u p e Hi Hw Hpg Hdb Htb Hob Hpb
                 |t u p e Hi Hw Hpg Hup Htb Hob Hpb|t u p m r Hi Hw Hpg Hup Htb Hob Hpb Hm];
    try (split; [|done]).
  - by apply pages_stored_same, Hs.
  - split; [by apply pages_stored_same, Hs|]. intros _ r Hr Hri _. destruct Hs as (Hd & _).
    rewrite Hd in Hr. exfalso. eapply row_not_gone; [exact Hf|exact Ht|exact Hrefs|exact Hr|exact Hri|exact Hg].
  - split.
    + intros x Hx Hp. destruct (updated_cases _ _ _ _ Hup Hx) as [[? _]|(_ & Hs & _)]; [by left|].
      by destruct (failed_has_no_page x Hs).
    + intros _ x Hx Hxi Hst. destruct (updated_cases _ _ _ _ Hup Hx) as [[_ Hn]|(_ & Hs & _)].
      * simpl in Hn. congruence.
      * by rewrite Hs in Hst.
  - by apply pages_stored_same.
  - subst id. by eapply fetched_stored.
  - subst id. split; [by eapply fetched_stored|]. intros _ x _ _ _. rewrite (drop_published _ _ _ Hpb).
    eexists. split; [left|done].
Qed.

Lemma parsing_rows w body id a o b :
  faults_plain -> tx a = None -> refs_ok (db a) ->
  (forall m, Unmarshal parsing_msg_of_json body = Ok m -> PTaskID m = id) ->
  ParserWorker.handleMessage w body a = (o, b) ->
  (forall k, is_Some (objects a !! k) -> is_Some (objects b !! k)) ->
  pages_stored id a b /\ (o = Ret (Ok tt) -> forall q, settled_task q id a b).
Proof.
  intros Hf Ht Hrefs Hid E Hgrow.
  destruct (parsing_message_effect w body id a o b Ht Hid E) as [_ He].
  destruct He as [e Hs|e Hs Hg|t Hi Hs Hrow Hst|t s c html o Hi Hrow Hst Hcs Hc Hh Hp].
  - split; [by apply pages_stored_same, Hs|done].
  - split; [by apply pages_stored_same, Hs|]. intros _ q r Hr Hri _. destruct Hs as (Hd & _).
    rewrite Hd in Hr. exfalso. eapply page_not_gone; [exact Hf|exact Ht|exact Hrefs|exact Hr|exact Hri|exact Hg].
  - split; [by apply pages_stored_same, Hs|]. intros _ q r Hr Hri Hrs. destruct Hs as (Hd & _).
    rewrite Hd in Hr. destruct Hrefs as (_ & _ & Hn & _).
    assert (r = SaveCrawlTaskToSnapshot t) as -> by (eapply row_unique; [exact Hn|done..|simpl; congruence]).
    simpl in Hrs. by rewrite Hst in Hrs.
  - assert (Hkey : is_Some (objects b !! MinioObjectKey t)) by (apply Hgrow; eauto).
    assert (Hparsed : forall x, ts_Status x = TaskStatusParsed -> ts_MinioObjectKey x = MinioObjectKey t ->
              ts_ResultObjectKey x = Some (result_key (value (TID t))) ->
              is_Some (objects b !! result_key (value (TID t))) ->
              row_stored b x /\ (ts_Status x = TaskStatusFetched -> ts_ID x = id /\ uuid_Parse id = true)).
    { intros x Hs Hk Hr Ho. split; [split; [by rewrite Hk|eauto]|]. intros Hs'. by rewrite Hs in Hs'. }
    assert (Hnew : forall x, ts_Status x = TaskStatusInProgress -> ~ has_page x)
      by (intros x Hs [Hq|Hq]; by rewrite Hs in Hq).
    destruct Hp as [new d1 re o' Hco Hup Hpb|new o' Ho Hco Hres Hpb|all new l res tr o' Hx Hen Ha Hpr Hw Hob Hpb Hl Han].
    + assert (Hcases : forall x, x ∈ tasks (db b) -> (x ∈ tasks (db a) /\ ts_ID x <> id) \/ ~ has_page x).
      { intros x Hx. destruct (updated_cases _ _ _ _ Hup Hx) as [[Hx1 Hne]|(_ & Hs & _)];
          [|right; by apply failed_has_no_page]. simpl in Hne.
        destruct Hco as [[-> _]|(all & Ha & Hw)]; [left; split; congruence|].
        destruct (parsed_with_cases _ _ _ _ _ _ _ _ Ha Hw Hx1) as [[? ?]|[(? & _)|Hs]];
          [left; split; congruence|done|right; by apply Hnew]. }
      split.
      * intros x Hx Hp. destruct (Hcases x Hx) as [[? _]|?]; [by left|done].
      * intros _ q x Hx Hxi Hs. destruct (Hcases x Hx) as [[_ ?]|Hn]; [done|]. destruct Hn. by left.
    + split; [|done]. intros x Hx Hp. destruct Hco as [[Hd _]|(all & Ha & Hw)]; [left; by rewrite <- Hd|].
      destruct (parsed_with_cases _ _ _ _ _ _ _ _ Ha Hw Hx) as [[? ?]|[(? & ? & ? & ?)|Hs]];
        [by left| |by destruct (Hnew x Hs)].
      destruct Hres as [Hd|Hres]; [left; by rewrite <- Hd|right; by apply Hparsed].
    + split.
      * intros x Hx1 Hp. destruct (parsed_with_cases _ _ _ _ _ _ _ _ Ha Hw Hx1) as [[? ?]|[(? & ? & ? & ?)|Hs]];
          [by left| |by destruct (Hnew x Hs)]. right. apply Hparsed; [done..|]. rewrite Hob. eauto.
      * intros _ q x Hx1 Hxi Hs.
        destruct (parsed_with_cases _ _ _ _ _ _ _ _ Ha Hw Hx1) as [[_ ?]|[(_ & Hs' & _)|Hs']];
          [congruence|by rewrite Hs in Hs'|by rewrite Hs in Hs'].
Qed.

(** ** The invariant *)

(** A worker of the deployment reads the queue. *)
Definition served (D : deployment) (q : string) : Prop := exists c, subscribes D c q.

(** The fetch workers send to the queue the parser reads. *)
Definition wired (D : deployment) : Prop :=
  forall w, w ∈ dep_fetchers D -> fw_parsingQueue w = pw_parsingQueue (dep_parser D).

(** The parser and the fetch workers are processes that started from environments which configure
    the same broker. *)
Definition deployed `{Servers} (D : deployment) : Prop :=
  exists env a, initDeps env ParserWorkerType = Ok a /\ dep_broker D = GetBrokerType env
    /\ wa_worker a = AParserWorker (dep_parser D) (dep_recovery D)
    /\ forall w, w ∈ dep_fetchers D -> exists env' a' f l,
         same_broker env env' /\ initDeps env' FetchWorkerType = Ok a'
         /\ wa_worker a' = AFetchWorker w f l.

Lemma deployed_wired `{Servers} D : deployed D -> wired D.
Proof.
  intros (env & a & E & _ & Ew & Hf) w Hw. destruct (Hf w Hw) as (env' & a' & f & l & Hs & E' & Ew').
  unfold initDeps, initWorker, initParserWorker, initFetchWorker in E, E'. res_steps. simpl in *.
  destruct (same_broker_names env env' Hs) as [Hn _].
  match goal with
  | H1 : initMessaging env = Ok ?m1, H2 : initMessaging env' = Ok ?m2 |- _ =>
      destruct (worker_names env m1 H1) as [Hq1 _]; destruct (worker_names env' m2 H2) as [Hq2 _]
  end.
  injection Ew as <- _. injection Ew' as <- _ _. simpl. by rewrite Hq1, Hq2, Hn.
Qed.

(** The broker holds a message of the task, in a queue that is read. *)
Definition has_message (D : deployment) (pending : list (string * message)) (id : string) : Prop :=
  exists q m, (q, m) ∈ pending /\ served D q /\ task_of m = id.

Record sys_ok (D : deployment) (s : system) : Prop := {
  ok_tx : tx (sys_world s) = None;
  ok_refs : refs_ok (db (sys_world s));
  ok_stored : forall r, r ∈ tasks (db (sys_world s)) -> has_page r -> row_stored (sys_world s) r;
  ok_message : forall r, r ∈ tasks (db (sys_world s)) -> ts_Status r = TaskStatusFetched ->
    uuid_Parse (ts_ID r) = true
    /\ (keeps_messages D -> has_message D (sys_pending s) (ts_ID r)) }.

Lemma start_ok D s : sys_start s -> sys_ok D s.
Proof.
  intros (Ht & Htasks & Hjobs). split; [done| |intros r; rewrite Htasks; by inversion 1..].
  split_and!; [intros t; rewrite Htasks; by inversion 1|intros k; rewrite Hjobs; by inversion 1|].
  rewrite Htasks. by split; constructor.
Qed.

Lemma row_stored_grows a b r :
  (forall k, is_Some (objects a !! k) -> is_Some (objects b !! k)) -> row_stored a r -> row_stored b r.
Proof. intros Hg [Hk Hr]. split; [by apply Hg|]. intros Hs. destruct (Hr Hs) as (k & ? & ?). eauto. Qed.

(** Messages are not withdrawn. *)
Lemma has_message_after D pending a b id :
  has_message D pending id -> has_message D (sys_pending (after pending a b)) id.
Proof. intros (q & m & Hp & Hid). exists q, m. split; [|done]. apply elem_of_app. by left. Qed.

(** An operation that is not a handler keeps the invariant. *)
Lemma background_ok {A} D (m : M A) s : keeps (lifted no_new_page) m -> sys_ok D s -> sys_ok D (run m s).
Proof.
  intros Hm [Ht Hr Hs Hmsg]. destruct (Hm (sys_world s)) as [[Href Hrows] Hgrow].
  split; simpl; [done|by apply Href| |].
  - intros r Hin Hp. eapply row_stored_grows; [exact Hgrow|]. by apply Hs, Hp; apply Hrows.
  - intros r Hin Hst. destruct (Hmsg r) as [Hu Hp]; [apply Hrows; [done|by left]|done|].
    split; [done|]. intros Hk. by apply has_message_after, Hp.
Qed.

(** A lost message changes nothing that does not rest on a broker that keeps them. *)
Lemma lost_ok D s i :
  ~ keeps_messages D -> sys_ok D s ->
  sys_ok D {| sys_world := sys_world s; sys_pending := delete i (sys_pending s) |}.
Proof.
  intros Hn [Ht Hr Hs Hmsg]. split; [done..|]. intros r Hin Hst. split; [by apply Hmsg|by intros ?].
Qed.

(** A handler that did what [fetch_rows] and [parsing_rows] say keeps it, when every message it
    leaves behind is pending or settled. *)
Lemma handler_ok D s pending id b :
  refs_kept (db (sys_world s)) (db b) ->
  (forall k, is_Some (objects (sys_world s) !! k) -> is_Some (objects b !! k)) ->
  pages_stored id (sys_world s) b ->
  (forall i, keeps_messages D -> uuid_Parse i = true -> has_message D (sys_pending s) i \/ i = id ->
     has_message D pending i \/ exists q, served D q /\ settled_task q i (sys_world s) b) ->
  sys_ok D s -> sys_ok D (after pending (sys_world s) b).
Proof.
  intros Href Hgrow Hpages Hmsgs [Ht Hr Hs Hmsg]. split; simpl; [done|by apply Href| |].
  - intros r Hin Hp. destruct (Hpages r Hin Hp) as [Ha|[Hst _]]; [|done].
    eapply row_stored_grows; [exact Hgrow|]. by apply Hs.
  - intros r Hin Hst.
    assert (Hid : uuid_Parse (ts_ID r) = true
              /\ (keeps_messages D -> has_message D (sys_pending s) (ts_ID r) \/ ts_ID r = id)).
    { destruct (Hpages r Hin) as [Ha|[_ Hf]]; [by left| |].
      - destruct (Hmsg r Ha Hst). auto.
      - destruct (Hf Hst) as [<- ?]. auto. }
    destruct Hid as [Hu Hid]. split; [done|]. intros Hk.
    destruct (Hmsgs _ Hk Hu (Hid Hk)) as [Hp|(q & Hq & Hset)]; [by apply has_message_after|].
    destruct (Hset r Hin eq_refl Hst) as (m & Hp & Hi). exists q, m. split; [|done].
    apply elem_of_app. by right.
Qed.

(** What the delivery of a message does to the task it names. *)
Definition delivered_ok (D : deployment) (m : message) (a : world) (o : outcome (res unit)) (b : world)
  : Prop :=
  pages_stored (task_of m) a b
  /\ (o = Ret (Ok tt) -> uuid_Parse (task_of m) = true ->
      exists q, served D q /\ settled_task q (task_of m) a b).

Lemma refused_ok D m e a : delivered_ok D m a (Ret (Err e)) a.
Proof. split; [by apply pages_stored_same|done]. Qed.

Lemma handle_rows D c q m a o b :
  wired D -> bodies_faithful -> faults_plain -> tx a = None -> refs_ok (db a) -> subscribes D c q ->
  (forall k, is_Some (objects a !! k) -> is_Some (objects b !! k)) ->
  handle D c m a = (o, b) -> delivered_ok D m a o b.
Proof.
  intros HD [Hbc Hbp] Hf Ht Hr Hq Hgrow E. destruct c as [w|]; simpl in E.
  - destruct (Unmarshal crawl_msg_of_json (body_of m)) as [m'|e'] eqn:Em.
    2:{ destruct (fetch_bad_id w (body_of m) a) as [e Eb]; [congruence|].
        rewrite Eb in E. injection E as <- <-. apply refused_ok. }
    destruct (uuid_Parse (MTaskID m')) eqn:Eu.
    2:{ destruct (fetch_bad_id w (body_of m) a) as [e Eb]; [rewrite Em; by intros x [= <-]|].
        rewrite Eb in E. injection E as <- <-. apply refused_ok. }
    assert (Hid := Hbc m m' Em (or_intror Eu)). rewrite Hid in Eu.
    destruct (fetch_rows w (body_of m) (task_of m) a o b Hf Ht Hr) as [Hp Hs]; try done.
    { rewrite Em. by intros x [= <-]. }
    split; [done|]. intros Ho _. exists (fw_parsingQueue w). split; [|by apply Hs].
    exists Parser. apply HD, Hq.
  - destruct (Unmarshal parsing_msg_of_json (body_of m)) as [m'|e'] eqn:Em.
    2:{ destruct (parsing_bad_id (dep_parser D) (body_of m) a) as [e Eb]; [congruence|].
        rewrite Eb in E. injection E as <- <-. apply refused_ok. }
    destruct (uuid_Parse (PTaskID m')) eqn:Eu.
    2:{ destruct (parsing_bad_id (dep_parser D) (body_of m) a) as [e Eb]; [rewrite Em; by intros x [= <-]|].
        rewrite Eb in E. injection E as <- <-. apply refused_ok. }
    assert (Hid := Hbp m m' Em (or_intror Eu)). rewrite Hid in Eu.
    destruct (parsing_rows (dep_parser D) (body_of m) (task_of m) a o b Hf Ht Hr) as [Hp Hs]; try done.
    { rewrite Em. by intros x [= <-]. }
    split; [done|]. intros Ho _. exists q. split; [by exists Parser|by apply Hs].
Qed.

Lemma handle_lifted D c m : keeps (lifted refs_kept) (handle D c m).
Proof. destruct c; [apply rk_fetch_message|apply rk_parsing_message]. Qed.

(** A message of another task stays when one is removed. *)
Lemma has_message_delete D pending i q m id :
  pending !! i = Some (q, m) -> task_of m <> id ->
  has_message D pending id -> has_message D (delete i pending) id.
Proof.
  intros Hi Hne (q' & m' & Hin & Hq & Hid). exists q', m'. split; [|done].
  apply list_elem_of_lookup in Hin as [k Hk]. apply list_elem_of_lookup.
  destruct (decide (k < i)%nat); [exists k; by rewrite list_lookup_delete_lt|].
  destruct (decide (k = i)) as [->|]; [rewrite Hk in Hi; by injection Hi as -> ->|].
  exists (k - 1)%nat. rewrite list_lookup_delete_ge by lia. by replace (S (k - 1)) with k by lia.
Qed.

Lemma step_ok D s s' :
  wired D -> bodies_faithful -> faults_plain -> sys_step D s s' -> sys_ok D s -> sys_ok D s'.
Proof.
  intros HD Hb Hf Hstep Hok. destruct Hstep as [cmd|jobID| | | | |i q m c b Hi Hq E|i q m c Hi Hq|i Hn].
  - by apply background_ok; [apply nn_CreateCrawlJob|].
  - by apply background_ok; [apply nn_DeleteCrawlJob|].
  - by apply background_ok; [apply nn_processOutboxEvents|].
  - by apply background_ok; [apply nn_recover|].
  - by apply background_ok; [apply nn_processSchedules|].
  - by apply background_ok; [apply nn_processEligibleJobs|].
  - destruct (handle_lifted D c m (sys_world s)) as [Hr Hg]. rewrite E in Hr, Hg.
    destruct (handle_rows D c q m _ _ _ HD Hb Hf (ok_tx D s Hok) (ok_refs D s Hok) Hq Hg E) as [Hp Hs].
    eapply handler_ok; [done..| |done]. intros j _ Hu [Hin| ->]; [|right; by apply Hs].
    destruct (decide (task_of m = j)) as [<-|Hne]; [right; by apply Hs|left].
    by eapply has_message_delete.
  - destruct (handle_lifted D c m (sys_world s)) as [Hr Hg].
    destruct (handle D c m (sys_world s)) as [o b] eqn:E. unfold run. rewrite E. simpl in *.
    destruct (handle_rows D c q m _ _ _ HD Hb Hf (ok_tx D s Hok) (ok_refs D s Hok) Hq Hg E) as [Hp _].
    eapply handler_ok; [done..| |done]. intros j _ _ [?| ->]; [by left|left].
    exists q, m. split; [by eapply list_elem_of_lookup_2|]. split; [by exists c|done].
  - by apply lost_ok.
Qed.

Lemma reachable_ok D s :
  wired D -> bodies_faithful -> faults_plain -> reachable D s -> sys_ok D s.
Proof.
  intros HD Hb Hf. induction 1 as [s Hs|s s' _ IH Hst]; [by apply start_ok|by eapply step_ok].
Qed.

(** C1: no task is stranded between the processes.  The workers are started from environments that
    configure the same broker, whatever else they say.  Whatever jobs are created and deleted, whatever
    the workers, the scheduler and the exporter do, whichever calls fail, with or without effect,
    however messages are delivered again (or, by Kafka or the memory broker, lost) and whatever
    panics: in every reachable state of the system the references between jobs, configurations and
    tasks hold, no two tasks share an identifier or, within a job, a URL; a fetched or parsed task has
    its page in the object store and a parsed one also the result its row names.  When the broker is
    RabbitMQ, a task that waits to be parsed (Fetched) has a message at the broker, in a queue that a
    worker of the deployment reads; the other brokers promise no such thing.  One operation of one
    process is one step, a message whose publication was answered without error is at the broker, and
    RabbitMQ does not lose what it holds.  Identifiers survive the JSON of their messages
    ([bodies_faithful]), and no failure of the database reads "no rows" ([faults_plain]). *)
Theorem no_task_stranded `{Servers} D s :
  deployed D -> bodies_faithful -> faults_plain -> reachable D s ->
  refs_ok (db (sys_world s))
  /\ forall r, r ∈ tasks (db (sys_world s)) ->
       (has_page r -> is_Some (objects (sys_world s) !! ts_MinioObjectKey r))
       /\ (ts_Status r = TaskStatusParsed ->
            exists k, ts_ResultObjectKey r = Some k /\ is_Some (objects (sys_world s) !! k))
       /\ (keeps_messages D -> ts_Status r = TaskStatusFetched ->
            exists q m, (q, m) ∈ sys_pending s /\ served D q /\ task_of m = ts_ID r).
Proof.
  intros HD%deployed_wired Hb Hf Hs. destruct (reachable_ok D s HD Hb Hf Hs) as [_ Hr Hst Hmsg]. split; [done|].
  intros r Hin. split_and!.
  - intros Hp. by apply Hst.
  - intros Hp. apply Hst; [done|by right|done].
  - intros Hk Hp. by apply Hmsg.
Qed.

End System.

(** ** A concrete deployment: one worker of each kind *)

#[local] Existing Instances any_uuid plain_env plain_json no_regexp plain_robots plain_services.
#[local] Existing Instances demo_html plain_order hourly.

Lemma plain_unmarshal j : unmarshal (marshal j) = Some j.
Proof.
  change (text_pos (pos_text (encode j)) ≫= decode = Some j). rewrite text_pos_text. apply decode_encode.
Qed.

Ltac read_fields E :=
  repeat (apply res_bind_Ok in E as (? & ? & E)); injection E as <-; simpl; congruence.

(** The task's identifier is read back from both kinds of message. *)
Lemma crawl_task_of j m' id :
  crawl_msg_of_json j = Ok m' ->
  (exists fs, as_object j = Ok fs /\ get_string "task_id" fs = Ok id) -> MTaskID m' = id.
Proof.
  intros E (fs & Ho & Hg). unfold crawl_msg_of_json in E. rewrite Ho in E. read_fields E.
Qed.

Lemma parsing_task_of j m' id :
  parsing_msg_of_json j = Ok m' ->
  (exists fs, as_object j = Ok fs /\ get_string "task_id" fs = Ok id) -> PTaskID m' = id.
Proof.
  intros E (fs & Ho & Hg). unfold parsing_msg_of_json in E. rewrite Ho in E. read_fields E.
Qed.

Lemma plain_bodies : bodies_faithful.
Proof.
  split; intros [m|m] m'; unfold Unmarshal, body_of; rewrite plain_unmarshal; intros E _;
    (eapply crawl_task_of || eapply parsing_task_of); try exact E; eexists; (split; [reflexivity|]);
    unfold omit_smap; case_bool_decide; reflexivity.
Qed.

(** Every server answers, and the environment of all processes. *)
#[local] Instance all_answer : Servers := {
  godotenv_Load _ env := Ok env; zap_New _ := Ok tt; pg_Connect _ _ := Ok tt; pg_Ping _ := Ok tt;
  amqp_DialURL _ := Ok tt; grpc_NewClient _ := Ok tt; redis_Ping _ := Ok tt; minio_New _ _ := Ok tt;
  minio_BucketExists _ := Ok false; minio_MakeBucket _ := Ok tt; os_Hostname := Ok "h";
  rand_hex := Ok "00" }.

Definition demo_env : environ := list_to_map
  [("GRPC_HOST", "api"); ("GRPC_PORT", "8080"); ("PG_DSN", "postgres://db"); ("RABBITMQ_URL", "amqp://mq");
   ("RABBITMQ_CRAWL_QUEUE_NAME", "q1"); ("RABBITMQ_PARSING_QUEUE_NAME", "parse");
   ("REDIS_ADDRESS", "redis"); ("REDIS_PWD", "p"); ("MINIO_ENDPOINT", "minio"); ("MINIO_USER", "u");
   ("MINIO_PWD", "p"); ("MINIO_BUCKET_NAME", "pages")].
Definition demo_region : environ := <["WORKER_REGION" := "ua"]> demo_env.

Definition demo_fetch_worker : FetchWorker :=
  {| fw_crawlQueues := ["q1"; "q1_ua"]; fw_parsingQueue := "parse" |}.

Definition demo_deployment : deployment := {|
  dep_broker := BrokerRabbitMQ;
  dep_publisher := NewOutboxPublisher "q1" false; dep_fetchers := [demo_fetch_worker];
  dep_parser := {| pw_parsingQueue := "parse"; pw_availableQueues := ["q1"] |};
  dep_recovery := NewStuckTaskRecovery ["q1"];
  dep_scheduler := demo_scheduler; dep_exportBatch := 10 |}.

Lemma demo_deployed : deployed demo_deployment.
Proof.
  exists demo_env. destruct (initDeps demo_env ParserWorkerType) as [a|e] eqn:E; [|by vm_compute in E].
  exists a. split; [done|]. split; [by vm_compute|]. split; [vm_compute in E; by injection E as <-|].
  intros w ->%list_elem_of_singleton. exists demo_region.
  destruct (initDeps demo_region FetchWorkerType) as [a'|e] eqn:E'; [|by vm_compute in E'].
  exists a', HTTPFetcherFactory, (RedisRateLimiter (5 * Minute)).
  split; [by repeat constructor|]. split; [done|]. vm_compute in E'. by injection E' as <-.
Qed.

(** No jobs and one user. *)
Definition demo_start : system := {|
  sys_world := world_of {| configs := []; jobs := []; tasks := []; outbox := [];
                           users := [demo_user]; World.tokens := []; previews := [] |};
  sys_pending := [] |}.

(** A job of two seeds is created, announced, and its first message delivered. *)
Definition demo_announced : system :=
  run (processOutboxEvents (dep_publisher demo_deployment)) (run (CreateCrawlJob demo_command) demo_start).
Definition demo_fetcher : consumer := Fetcher demo_fetch_worker.
Definition demo_delivered : outcome (res unit) * world :=
  match sys_pending demo_announced with
  | (_, m) :: _ => handle demo_deployment demo_fetcher m (sys_world demo_announced)
  | [] => (Ret (Ok tt), sys_world demo_announced)
  end.
Definition demo_crawled : system :=
  after (delete 0%nat (sys_pending demo_announced)) (sys_world demo_announced) demo_delivered.2.

Lemma demo_reachable : reachable demo_deployment demo_crawled.
Proof.
  assert (Ha : reachable demo_deployment demo_announced).
  { eapply reach_step; [eapply reach_step; [apply reach_start|apply step_create]|apply step_outbox].
    repeat split. }
  eapply reach_step; [exact Ha|].
  destruct (sys_pending demo_announced) as [|[q m] l] eqn:El; [vm_compute in El; discriminate El|].
  assert (Ed : demo_delivered = handle demo_deployment demo_fetcher m (sys_world demo_announced))
    by (unfold demo_delivered; by rewrite El).
  assert (Eo : demo_delivered.1 = Ret (Ok tt)) by (vm_compute; reflexivity).
  assert (Eq : (fst <$> sys_pending demo_announced) !! 0%nat = Some "q1") by (vm_compute; reflexivity).
  rewrite El in Eq. injection Eq as ->.
  eapply (step_acked _ _ 0%nat "q1" m demo_fetcher); [by rewrite El|by repeat constructor|].
  rewrite <- Ed, <- Eo. by destruct demo_delivered.
Qed.

Lemma no_task_stranded_witness :
  exists r q m, r ∈ tasks (db (sys_world demo_crawled)) /\ ts_Status r = TaskStatusFetched
    /\ (q, m) ∈ sys_pending demo_crawled /\ served demo_deployment q /\ task_of m = ts_ID r
    /\ is_Some (objects (sys_world demo_crawled) !! ts_MinioObjectKey r).
Proof.
  assert (Hf : faults_plain) by (intros n; exact I).
  destruct (no_task_stranded demo_deployment demo_crawled demo_deployed plain_bodies Hf demo_reachable)
    as [_ Hrows].
  destruct (tasks (db (sys_world demo_crawled))) as [|r l] eqn:El; [vm_compute in El; discriminate El|].
  assert (Hs : head (ts_Status <$> tasks (db (sys_world demo_crawled))) = Some TaskStatusFetched)
    by (vm_compute; reflexivity).
  rewrite El in Hs. injection Hs as Hs.
  destruct (Hrows r) as (Hp & _ & Hm); [left|]. destruct (Hm eq_refl Hs) as (q & m & ? & ? & ?).
  exists r, q, m. split; [left|]. split; [exact Hs|]. split; [done|]. split; [done|]. split; [done|].
  apply Hp. left. exact Hs.
Defined.
