(* ===== verification/Progress.v ===== *)
(** * Tasks come to an end

    The safety of [System] is matched here by progress: once the services answer, the messages the
    broker still holds suffice to bring a task to an end, and the recovery replaces one that is
    missing.  First the handlers are run without faults, then their deliveries are composed. *)

From S2P Require Import Prelude GoStrings Domain Json Converters World Sql Repos Routing Outbox.
From S2P Require Import GoUrl Scope FetchWorker Extraction ParserWorker ExportWorker JobService Scheduler Pagination.
From S2P Require Import WorkerStream Monitor Sharding Config Wiring Fetcher RobotsTxt Integrity System.

(** A computation that always returns. *)
Definition returns `{Env} {A} (m : M A) : Prop := forall a, exists x b, m a = (Ret x, b).

(** A row of the task has the status. *)
Definition row_is (id : string) (s : TaskStatus) (d : database) : Prop :=
  exists r, r ∈ tasks d /\ ts_ID r = id /\ ts_Status r = s.

(** The rows that can be restored. *)
Record rows_readable `{UuidLib, JsonLib} (d : database) : Prop := {
  read_task : forall t, t ∈ tasks d -> is_ok (RestoreCrawlTaskFromSnapshot t) = true;
  read_job : forall j, j ∈ jobs d -> is_ok (RestoreCrawlJobFromSnapshot j) = true;
  read_config : forall c, c ∈ configs d -> is_ok (RestoreCrawlJobConfigFromSnapshot c) = true }.

(** The services answer: no call of a server fails, the clock and the traces fit in a message, and
    the services of the workers return; the rate limiter lets the call through after its wait and
    a fetch gives a page or an error that ends the task. *)
Record services_answer `{FetchServices} : Prop := {
  answer_calls : forall n, verdict_at n = Succeeds;
  answer_clock : forall n, time_ok (clock_at n) = true;
  answer_trace : forall n, smap_utf8 (trace_at n) = true;
  answer_robots : forall u a, returns (robots_IsAllowed u a);
  answer_rate : forall c k h a, exists d b, ratelimit_Allow c k h a = (Ret (Ok (true, d)), b);
  answer_fetch : forall c p u a, exists r b, fetcher_Fetch c p u a = (Ret r, b)
    /\ match r with Ok _ => True | Err e => isPermanent e || retriesExhausted e = true end }.

(** ** Repositories without faults *)

Section Calm.
Context `{Env, JsonLib}.
Hypothesis calm : forall n, verdict_at n = Succeeds.

Lemma scan_one_calm {A B} (f : nat -> database -> list A) (g : A -> res B) a x :
  tx a = None -> head (f (ticks a) (db a)) = Some x -> scan_one f g a = (Ret (g x), tick a).
Proof.
  intros Ht Hx. unfold scan_one, query.
  rewrite (try_run _ _ _ _ _ _ (stmt_calm calm (fun n d => Ok (f n d, d)) a _ _ Ht eq_refl)).
  destruct (f (ticks a) (db a)) as [|y l]; [done|]. injection Hx as ->. by destruct a.
Qed.

Lemma is_ok_Ok {A} (r : res A) : is_ok r = true -> exists x, r = Ok x.
Proof. destruct r as [x|]; [by exists x|done]. Qed.

(** A job is restored with its configuration when both rows can be read. *)
Lemma job_restores j c :
  is_ok (RestoreCrawlJobFromSnapshot j) = true ->
  match c with Some c => is_ok (RestoreCrawlJobConfigFromSnapshot c) = true | None => True end ->
  is_ok (RestoreCrawlJobFromSnapshot (with_config c j)) = true.
Proof.
  intros [x Hx]%is_ok_Ok Hc. unfold RestoreCrawlJobFromSnapshot in *. simpl.
  apply res_bind_Ok in Hx as (? & -> & Hx). apply res_bind_Ok in Hx as (? & -> & Hx).
  apply res_bind_Ok in Hx as (? & -> & _). simpl.
  destruct c as [c|]; [|done]. apply is_ok_Ok in Hc as [k ->]. done.
Qed.

Lemma Task_Get_calm r a :
  tx a = None -> refs_ok (db a) -> rows_readable (db a) -> r ∈ tasks (db a) ->
  exists t j c, Task_Get (MkID (ts_ID r)) a = (Ret (Ok t), tick a) /\ SaveCrawlTaskToSnapshot t = r
    /\ Job t = Some j /\ c ∈ configs (db a) /\ cs_ID c = value (JobConfigID j).
Proof.
  intros Ht Hr Hread Hin. pose proof Hr as (Hf & _ & Hn & _). destruct (Hf r Hin) as (j & Hj & Ej).
  set (rows := tasks_with_job (ts_ID r) (db a)).
  assert (Hrows : scanCrawlTaskWithJob r j ∈
    (t ← bfilter (fun t => bool_decide (ts_ID t = ts_ID r)) (tasks (db a));
     scanCrawlTaskWithJob t <$> bfilter (fun j => bool_decide (js_ID j = ts_JobID t)) (jobs (db a)))).
  { apply list_elem_of_bind. exists r. split.
    - apply list_elem_of_fmap. exists j. split; [done|]. apply elem_of_bfilter.
      split; [by apply bool_decide_eq_true|done].
    - apply elem_of_bfilter. split; [by apply bool_decide_eq_true|done]. }
  destruct (head rows) as [x|] eqn:Ex.
  2:{ apply head_None in Ex. unfold rows, tasks_with_job in Ex. rewrite (limit_one_nil _ Ex) in Hrows.
      by inversion Hrows. }
  assert (Hx : exists j', j' ∈ jobs (db a) /\ x = scanCrawlTaskWithJob r j').
  { apply head_Some_elem_of in Ex. unfold rows, tasks_with_job in Ex. apply elem_of_limit_rows in Ex.
    apply list_elem_of_bind in Ex as (r' & (j' & -> & Hj')%list_elem_of_fmap & Hr').
    apply elem_of_bfilter in Hr' as [Hid%bool_decide_eq_true Hr'].
    apply elem_of_bfilter in Hj' as [_ Hj']. exists j'. split; [done|].
    by rewrite (row_unique ts_ID _ r' r Hn Hr' Hin Hid). }
  destruct Hx as (j' & Hj' & ->).
  assert (E : exists t, RestoreCrawlTaskWithJobFromSnapshot (scanCrawlTaskWithJob r j') = Ok t /\ is_Some (Job t)).
  { destruct (is_ok_Ok _ (read_task _ Hread r Hin)) as [t0 E0]. destruct (is_ok_Ok _ (read_job _ Hread j' Hj')) as [k Ek].
    unfold RestoreCrawlTaskWithJobFromSnapshot, RestoreCrawlTaskFromSnapshot in *. simpl.
    apply res_bind_Ok in E0 as (? & -> & E0). apply res_bind_Ok in E0 as (? & -> & _).
    unfold RestoreCrawlJobFromSnapshot in *. simpl. apply res_bind_Ok in Ek as (? & -> & Ek).
    apply res_bind_Ok in Ek as (? & -> & _). simpl. by eexists. }
  destruct E as (t & E & k & Hk).
  assert (Eg : Task_Get (MkID (ts_ID r)) a = (Ret (Ok t), tick a)).
  { unfold Task_Get. rewrite (scan_one_calm _ _ a (scanCrawlTaskWithJob r j') Ht Ex). by rewrite E. }
  destruct (Task_Get_id _ _ _ _ Eg Ht) as (Hid & _ & Hrow). unfold is_row in Hrow.
  destruct (Task_Get_config _ _ _ _ _ Ht Hr Eg Hk) as (_ & c & Hc & Hci).
  exists t, k, c. split; [exact Eg|]. split; [|done].
  eapply row_unique; [exact Hn|exact Hrow|exact Hin|simpl; by rewrite Hid].
Qed.

Lemma Config_Get_calm id c a :
  tx a = None -> rows_readable (db a) -> c ∈ configs (db a) -> cs_ID c = value id ->
  exists k, Config_Get id a = (Ret (Ok k), tick a).
Proof.
  intros Ht Hread Hc Hid. unfold Config_Get.
  set (rows := limit_rows 1 (bfilter (fun c => bool_decide (cs_ID c = value id)) (configs (db a)))).
  destruct (head rows) as [x|] eqn:Ex.
  - rewrite (scan_one_calm _ _ a x Ht Ex). apply head_Some_elem_of, elem_of_limit_rows, elem_of_bfilter in Ex as [_ Hx].
    destruct (is_ok_Ok _ (read_config _ Hread x Hx)) as [k ->]. by exists k.
  - apply head_None, limit_one_nil in Ex.
    assert (Hin : c ∈ bfilter (fun c => bool_decide (cs_ID c = value id)) (configs (db a)))
      by (apply elem_of_bfilter; split; [by apply bool_decide_eq_true|done]).
    rewrite Ex in Hin. by inversion Hin.
Qed.

Lemma Job_Get_calm id j a :
  tx a = None -> refs_ok (db a) -> rows_readable (db a) -> j ∈ jobs (db a) -> js_ID j = value id ->
  exists k c, Job_Get id a = (Ret (Ok k), tick a) /\ c ∈ configs (db a) /\ cs_ID c = value (JobConfigID k).
Proof.
  intros Ht Hr Hread Hj Hid. pose proof Hr as (_ & Hg & _).
  assert (E : exists k, Job_Get id a = (Ret (Ok k), tick a)).
  2:{ destruct E as [k E]. destruct (Job_Get_config _ _ _ _ Ht Hr E) as (_ & c & ? & ?). by exists k, c. }
  unfold Job_Get, query_job.
  set (rows := join_config (db a) <$> limit_rows 1 (bfilter (is_job (value id)) (jobs (db a)))).
  destruct (head rows) as [x|] eqn:Ex.
  - rewrite (scan_one_calm _ _ a x Ht Ex).
    apply head_Some_elem_of, list_elem_of_fmap in Ex as (j' & -> & Hj').
    apply elem_of_limit_rows, elem_of_bfilter in Hj' as [_ Hj'].
    destruct (Hg j' Hj') as (c & Hc & Ec). unfold join_config, job_config_row, scanCrawlJobWithConfig. simpl.
    rewrite Ec. destruct (head _) as [c'|] eqn:Eh.
    + apply head_Some_elem_of, elem_of_bfilter in Eh as [_ Hc']. simpl.
      edestruct (is_ok_Ok (RestoreCrawlJobFromSnapshot
        (with_config (if bool_decide (cs_ID c' = "") then None else Some c') j'))) as [k ->]; [|by exists k].
      apply job_restores; [by apply Hread|]. case_bool_decide; [done|]. by apply Hread.
    + apply head_None in Eh. assert (Hin : c ∈ bfilter (fun r => bool_decide (cs_ID r = cs_ID c)) (configs (db a)))
        by (apply elem_of_bfilter; split; [by apply bool_decide_eq_true|done]).
      rewrite Eh in Hin. by inversion Hin.
  - apply head_None, fmap_nil_inv, limit_one_nil in Ex.
    assert (Hin : j ∈ bfilter (is_job (value id)) (jobs (db a)))
      by (apply elem_of_bfilter; split; [by apply bool_decide_eq_true|done]).
    rewrite Ex in Hin. by inversion Hin.
Qed.

(** The row of a task whose URL is as it was can be set. *)
Lemma Task_Update_calm t r a :
  tx a = None -> refs_ok (db a) -> r ∈ tasks (db a) -> ts_ID r = value (TID t) -> ts_URL r = URL t ->
  exists b, Task_Update t a = (Ret (Ok tt), b) /\ tx b = None /\ updated t (db a) (db b)
    /\ objects b = objects a /\ published b = published a /\ row_is (value (TID t)) (Status t) (db b).
Proof.
  intros Ht (_ & _ & Hi & Hu) Hin Hid Hurl. unfold Task_Update.
  assert (Hok : task_update_ok (SaveCrawlTaskToSnapshot t) (db a) = true).
  { unfold task_update_ok. apply forallb_forall. intros r1 Hr1%list_elem_of_In. unfold is_task. simpl.
    case_bool_decide as E1; [simpl|done]. apply not_existsb. intros r2 Hr2.
    rewrite !andb_false_iff, !negb_false_iff, !bool_decide_eq_false, bool_decide_eq_true.
    assert (r1 = r) as -> by (eapply row_unique; [exact Hi|done..|congruence]).
    destruct (decide (ts_JobID r2 = ts_JobID r)); [|by left; right].
    destruct (decide (ts_URL r2 = URL t)) as [E3|]; [|by right]. left. left.
    assert (r2 = r) as -> by (eapply row_unique; [exact Hu|done..|unfold job_url; congruence]). done. }
  match goal with |- context [stmt ?f] =>
    erewrite (stmt_calm calm f a tt _ Ht) by (rewrite Hok; simpl; reflexivity) end.
  eexists. split; [done|]. simpl. split; [done|]. split; [done|]. split; [done|]. split; [done|].
  exists (set_task (SaveCrawlTaskToSnapshot t) r). split; [|done]. apply list_elem_of_fmap. exists r.
  split; [|done]. unfold is_task. by rewrite bool_decide_eq_true_2.
Qed.

Lemma fail_task_calm t reason r a :
  tx a = None -> refs_ok (db a) -> r ∈ tasks (db a) -> ts_ID r = value (TID t) -> ts_URL r = URL t ->
  exists b, fail_task t reason a = (Ret (Ok tt), b) /\ row_is (value (TID t)) TaskStatusFailed (db b).
Proof.
  intros Ht Hr Hin Hid Hurl. unfold fail_task.
  destruct (Task_Update_calm (MarkAsFailed reason t) r a Ht Hr Hin Hid Hurl) as (b & E & _ & _ & _ & _ & Hrow).
  rewrite (try_run _ _ _ _ _ _ E). exists b. split; [done|exact Hrow].
Qed.

End Calm.

(** ** The fetch worker *)

(** A body that names the task and the job. *)
Definition names_task `{JsonLib} (body id : string) : Prop :=
  exists m, Unmarshal crawl_msg_of_json body = Ok m /\ MTaskID m = id
            /\ utf8_valid (bytes_of (MTaskID m)) && utf8_valid (bytes_of (MJobID m)) = true.

Section FetchProgress.
Context `{FetchServices, RegexpLib, JsonLib}.
Hypothesis up : services_answer.

Lemma robots_returns c l : returns (robots_ok c l).
Proof.
  intros a. unfold robots_ok. destruct (RespectRobotsTxt c); [|by eexists _, _].
  destruct (answer_robots up l userAgent a) as (x & b & E). rewrite (bind_ret _ _ _ _ _ E). by eexists _, _.
Qed.

Lemma wait_rate_calm c h a : exists b, wait_rate c h a = (Ret (Ok tt), b) /\ same_store a b.
Proof.
  unfold wait_rate. destruct (answer_rate up c "domain" h a) as (d & b & E). exists b.
  rewrite (try_run _ _ _ _ _ _ E). simpl. split; [done|]. by eapply service_run; [apply ratelimit_keeps|].
Qed.

(** The restoration of a row depends on its identifiers, which an update keeps. *)
Lemma updated_readable t d d' : updated t d d' -> rows_readable d -> rows_readable d'.
Proof.
  intros -> [Ht Hj Hc]. split; [|exact Hj|exact Hc]. intros x (x0 & -> & Hx)%list_elem_of_fmap.
  specialize (Ht x0 Hx). destruct (is_task _ x0); [|exact Ht].
  unfold RestoreCrawlTaskFromSnapshot in *. simpl. apply is_ok_Ok in Ht as [t0 Ht].
  apply res_bind_Ok in Ht as (? & -> & Ht). by apply res_bind_Ok in Ht as (? & -> & _).
Qed.

(** The page is stored, the task fetched and its parsing message sent. *)
Lemma store_and_publish_calm w m t f r a :
  tx a = None -> refs_ok (db a) -> r ∈ tasks (db a) -> ts_ID r = value (TID t) -> ts_URL r = URL t ->
  MTaskID m = value (TID t) ->
  exists b pm, store_and_publish w m t f a = (Ret (Ok tt), b)
    /\ row_is (value (TID t)) TaskStatusFetched (db b)
    /\ (rows_readable (db a) -> rows_readable (db b))
    /\ published b = published a ++ [(fw_parsingQueue w, MsgParsing pm)]
    /\ PTaskID pm = value (TID t) /\ PJobID pm = MJobID m /\ time_ok (PEnqueuedAt pm) = true
    /\ smap_utf8 (PTraceContext pm) = true.
Proof.
  intros Ht Hr Hin Hid Hurl Hm. unfold store_and_publish, Store, call, try_bind at 1, mbind at 1, M_bind.
  rewrite (answer_calls up). set (key := minio_key _ _).
  set (a1 := put_object key (Body f) (tick a)).
  destruct (Task_Update_calm (answer_calls up) (MarkAsFetched (ResFinalURL f) key t) r a1)
    as (a2 & E2 & _ & Hu2 & _ & Hp2 & Hrow); [done..|].
  rewrite (try_run _ _ _ _ _ _ E2). unfold time_Now, InjectTraceContext.
  rewrite (bind_ret _ _ _ _ _ (observe_ret _ _)), (bind_ret _ _ _ _ _ (observe_ret _ _)).
  unfold Publish, call, try_bind, mbind, M_bind. rewrite (answer_calls up).
  eexists _, _. split; [done|]. split; [exact Hrow|].
  split; [exact (updated_readable _ _ _ Hu2)|]. split; [simpl; by rewrite Hp2|]. simpl.
  split; [done|]. split; [done|]. split; [apply (answer_clock up)|apply (answer_trace up)].
Qed.

(** What a delivered crawl message leaves behind for the task: it is failed, or fetched and a
    parsing message is sent for it. *)
Definition fetch_settles (w : FetchWorker) (id : string) (a b : world) : Prop :=
  row_is id TaskStatusFailed (db b)
  \/ (row_is id TaskStatusFetched (db b)
      /\ (rows_readable (db a) -> rows_readable (db b))
      /\ exists pm, published b = published a ++ [(fw_parsingQueue w, MsgParsing pm)]
           /\ PTaskID pm = id /\ parsing_msg_ok pm = true).

Lemma process_task_calm w m t c r a :
  tx a = None -> refs_ok (db a) -> r ∈ tasks (db a) -> SaveCrawlTaskToSnapshot t = r ->
  MTaskID m = value (TID t) ->
  utf8_valid (bytes_of (MTaskID m)) && utf8_valid (bytes_of (MJobID m)) = true ->
  is_ok (rate_host (ts_URL r)) = true ->
  exists b, process_task w m t c a = (Ret (Ok tt), b) /\ fetch_settles w (value (TID t)) a b.
Proof.
  intros Ht Hr Hin Hrow Hm Hutf Hhost.
  assert (Hfail : forall reason a', same_store a a' ->
    exists b, fail_task t reason a' = (Ret (Ok tt), b) /\ fetch_settles w (value (TID t)) a b).
  { intros reason a' (Hd & Htx & _). rewrite <- Hd in Hr, Hin.
    destruct (fail_task_calm (answer_calls up) t reason r a') as (b & E & Hb);
      [congruence|done|done|by rewrite <- Hrow|by rewrite <- Hrow|].
    exists b. split; [exact E|by left]. }
  unfold process_task. destruct (Validate _ _ _) as [?|e]; [|by apply Hfail].
  destruct (robots_returns c (URL t) a) as (ok & a1 & E1). rewrite (bind_ret _ _ _ _ _ E1).
  assert (Hs1 : same_store a a1) by (by eapply service_run; [apply robots_ok_keeps|]).
  destruct ok; simpl; [|by apply Hfail].
  assert (Hh : exists h, rate_host (URL t) = Ok h) by (rewrite <- Hrow in Hhost; by apply is_ok_Ok in Hhost).
  destruct Hh as [h Hh]. rewrite Hh. unfold lift_res at 1, try_bind at 1, mbind at 1, M_bind, mret at 1, M_ret.
  destruct (wait_rate_calm c h a1) as (a2 & E2 & Hs2). rewrite (try_run _ _ _ _ _ _ E2).
  assert (Hs02 : same_store a a2) by (by etrans). unfold fetch_page.
  destruct (answer_fetch up (Auth c) (Retries c) (URL t) a2) as (x & a3 & E3 & Hx).
  rewrite (try_run _ _ _ _ _ _ E3).
  assert (Hs03 : same_store a a3) by (etrans; [exact Hs02|by eapply service_run; [apply fetcher_keeps|]]).
  destruct x as [f|e]; [|rewrite Hx; by apply Hfail].
  pose proof Hs03 as (Hd3 & Ht3 & _ & Hp3). rewrite <- Hd3 in Hr, Hin.
  destruct (store_and_publish_calm w m t f r a3)
    as (b & pm & E & Hb & Hread & Hp & Hi & Hj & Hc & Htr); [congruence|done|done|by rewrite <- Hrow|by rewrite <- Hrow|done|].
  exists b. split; [exact E|]. right. split; [exact Hb|].
  split; [by rewrite <- Hd3|]. exists pm. split; [congruence|]. split; [done|].
  apply andb_true_iff in Hutf as [Hu1 Hu2]. unfold parsing_msg_ok. by rewrite Hi, <- Hm, Hu1, Hj, Hu2, Hc, Htr.
Qed.

Lemma fetch_progress w body r a :
  tx a = None -> refs_ok (db a) -> rows_readable (db a) -> r ∈ tasks (db a) ->
  names_task body (ts_ID r) -> is_ok (rate_host (ts_URL r)) = true ->
  exists b, FetchWorker.handleMessage w body a = (Ret (Ok tt), b) /\ fetch_settles w (ts_ID r) a b.
Proof.
  intros Ht Hr Hread Hin (m & Em & Hm & Hutf) Hhost. unfold FetchWorker.handleMessage, lift_res, try_bind at 1.
  rewrite Em. unfold mbind at 1, M_bind, mret at 1, M_ret, try_bind at 1, mbind at 1, M_bind, mret at 1, M_ret.
  rewrite Hm. destruct (is_ok_Ok _ (read_task _ Hread r Hin)) as [t0 Et0].
  unfold RestoreCrawlTaskFromSnapshot in Et0. apply res_bind_Ok in Et0 as (id & Eid & _).
  destruct (NewID_ok _ _ Eid) as (-> & _). rewrite Eid.
  destruct (Task_Get_calm (answer_calls up) r a Ht Hr Hread Hin) as (t & j & c & E & Hrow & Hj & Hc & Hci).
  rewrite (try_run _ _ _ _ _ _ E), Hj.
  destruct (Config_Get_calm (answer_calls up) (JobConfigID j) c (tick a) Ht Hread Hc Hci) as (k & E2).
  rewrite (try_run _ _ _ _ _ _ E2).
  assert (Hid : value (TID t) = ts_ID r) by (by rewrite <- Hrow).
  destruct (process_task_calm w m t k r (tick (tick a)) Ht Hr Hin Hrow) as (b & Eb & Hb);
    [congruence|done|done|]. exists b. split; [exact Eb|]. by rewrite Hid in Hb.
Qed.

End FetchProgress.

(** ** The parser worker *)

Section Returns.
Context `{Env}.

Lemma returns_ret {A} (x : A) : returns (mret x).
Proof. intros a. by eexists _, _. Qed.

Lemma returns_observe {A} (f : nat -> A) : returns (observe f).
Proof. intros a. by eexists _, _. Qed.

Lemma returns_bind {A B} (m : M A) (f : A -> M B) :
  returns m -> (forall x, returns (f x)) -> returns (m ≫= f).
Proof. intros Hm Hf a. destruct (Hm a) as (x & b & E). rewrite (bind_ret _ _ _ _ _ E). apply Hf. Qed.

Lemma returns_try {A B} (m : M (res A)) (h : gerror -> M (res B)) k :
  returns m -> (forall e, returns (h e)) -> (forall x, returns (k x)) -> returns (try_bind m h k).
Proof. intros Hm Hh Hk. apply returns_bind; [exact Hm|]. intros [x|e]; [apply Hk|apply Hh]. Qed.

End Returns.

Ltac returns_steps :=
  repeat first
    [ apply returns_ret | apply returns_observe
    | apply returns_try; [| intros ? | intros ?]
    | apply returns_bind; [| intros ?]
    | case_match ].

Section ParserProgress.
Context `{FetchServices, RegexpLib, JsonLib, HtmlLib, MapOrder}.
Hypothesis up : services_answer.

Lemma link_tasks_returns t c pats d now links : returns (link_tasks t c pats d now links).
Proof.
  induction links as [|l ls IH]; simpl; [apply returns_ret|]. unfold link_task, uuid_New.
  apply returns_bind; [|intros ?; apply returns_bind; [exact IH|intros ?; apply returns_ret]].
  case_match; [|apply returns_ret]. case_match; [apply returns_ret|].
  apply returns_bind; [apply (robots_returns up)|]. intros ?. returns_steps.
Qed.

Lemma tasks_of_links_returns t c pats urls : returns (tasks_of_links t c pats urls).
Proof.
  unfold tasks_of_links, time_Now, range_set, ret_ok. case_match; [apply returns_ret|].
  apply returns_bind; [apply returns_observe|intros ?]. apply returns_bind; [apply returns_observe|intros ?].
  apply returns_bind; [apply link_tasks_returns|intros ?; apply returns_ret].
Qed.

Lemma prepare_links_returns t html c : returns (prepare_links t html c).
Proof.
  unfold prepare_links, preparePaginationLinks, prepareDiscoveredLinks, lift_res, ret_ok, ret_err.
  repeat first [apply tasks_of_links_returns | apply returns_ret
               | apply returns_try; [|intros ?|intros ?] | apply returns_bind; [|intros ?] | case_match].
Qed.

(** The task is at its end. *)
Definition at_end (id : string) (d : database) : Prop :=
  row_is id TaskStatusParsed d \/ row_is id TaskStatusFailed d.

(** The row of the task after the transaction. *)
Lemma parsed_with_row t key all new r d d' :
  parsed_with t key all new d d' -> r ∈ tasks d -> ts_ID r = value (TID t) ->
  exists x, x ∈ tasks d' /\ ts_ID x = value (TID t) /\ ts_URL x = URL t /\ ts_Status x = TaskStatusParsed.
Proof.
  intros (sz & now & -> & _) Hin Hid. simpl.
  eexists. split; [apply elem_of_app; left; apply list_elem_of_fmap; exists r; split; [reflexivity|exact Hin]|].
  unfold is_task. rewrite bool_decide_eq_true_2 by done. by repeat split.
Qed.

(** The publication of the new tasks changes no row. *)
Lemma publish_inserted_rows w c all ids a : db (publish_inserted w c all ids a).2 = db a.
Proof.
  assert (Hp : keeps (sends (fun _ => True)) (publish_inserted w c all ids)).
  { unfold publish_inserted, InjectTraceContext.
    keeps_steps first [apply sends_observe | apply sends_SelectCrawlQueue | by apply sends_publish
                      | apply keeps_for_all; [exact _|exact _|intros ?]]. }
  apply Hp.
Qed.

Lemma parse_page_ends w t c html r a :
  tx a = None -> refs_ok (db a) -> r ∈ tasks (db a) -> SaveCrawlTaskToSnapshot t = r ->
  at_end (value (TID t)) (db (parse_page w (value (TID t)) t c html a).2).
Proof.
  intros Ht Hr Hin Hrow.
  assert (Hfail : forall reason x a', tx a' = None -> refs_ok (db a') -> x ∈ tasks (db a') ->
            ts_ID x = value (TID t) -> ts_URL x = URL t ->
            at_end (value (TID t)) (db (fail_task t reason a').2)).
  { intros reason x a' Ht' Hr' Hx Hid Hurl.
    destruct (fail_task_calm (answer_calls up) t reason x a' Ht' Hr' Hx Hid Hurl) as (b & E & Hb).
    rewrite E. by right. }
  assert (Hid : ts_ID r = value (TID t)) by (by rewrite <- Hrow).
  assert (Hurl : ts_URL r = URL t) by (by rewrite <- Hrow).
  unfold parse_page. destruct (extractData t _ html) as [res|e]; [|by eapply Hfail].
  destruct (uploadResultToS3_out (value (TID t)) (URL t) res a) as (r1 & a1 & E1 & Hd1 & Ht1 & _ & _ & Hr1).
  rewrite (try_run _ _ _ _ _ _ E1).
  destruct r1 as [[key size]|e]; [|eapply Hfail; [congruence|rewrite Hd1; done|rewrite Hd1; done|done..]].
  destruct (Hr1 _ eq_refl) as (Hk & _). simpl in Hk. subst key. simpl.
  destruct (prepare_links_returns t html c a1) as (all & a2 & E2). rewrite (bind_ret _ _ _ _ _ E2).
  pose proof (service_run _ _ _ _ (prepare_links_keeps t html c) E2) as (Hd2 & Ht2 & _ & _).
  assert (Hda : db a2 = db a) by congruence.
  destruct (persist_out t (result_key (value (TID t))) size all a2 ltac:(congruence))
    as (r3 & a3 & E3 & Ht3 & _ & _ & Hc3).
  rewrite (try_run _ _ _ _ _ _ E3). rewrite Hda in Hc3.
  destruct r3 as [ids|e].
  - destruct Hc3 as [[? _]|(ids' & new & _ & Hpw & _)]; [done|].
    destruct (parsed_with_row _ _ _ _ r _ _ Hpw Hin Hid) as (x & Hx & Hxi & _ & Hxs).
    pose proof (publish_inserted_rows w c all ids a3) as Hdb. unfold mbind, M_bind.
    destruct (publish_inserted w c all ids a3) as [[[]|s] b]; simpl in *;
      left; exists x; by rewrite Hdb.
  - assert (Hr3 : refs_ok (db a3)).
    { destruct (rk_persist t (result_key (value (TID t))) size all a2) as [Hk _]. rewrite E3 in Hk.
      apply Hk. by rewrite Hda. }
    destruct Hc3 as [[_ Hd]|(ids' & new & _ & Hpw & _)].
    + eapply Hfail; [done|done|rewrite Hd; exact Hin|done|done].
    + destruct (parsed_with_row _ _ _ _ r _ _ Hpw Hin Hid) as (x & Hx & Hxi & Hxu & _). by eapply Hfail.
Qed.

(** The delivery of a parsing message ends a task whose page is stored. *)
Lemma parsing_progress w body m r a :
  tx a = None -> refs_ok (db a) -> rows_readable (db a) -> r ∈ tasks (db a) ->
  Unmarshal parsing_msg_of_json body = Ok m -> PTaskID m = ts_ID r ->
  is_Some (objects a !! ts_MinioObjectKey r) ->
  at_end (ts_ID r) (db (ParserWorker.handleMessage w body a).2).
Proof.
  intros Ht Hr Hread Hin Em Hm [html Hhtml]. unfold ParserWorker.handleMessage, lift_res, try_bind at 1.
  rewrite Em. unfold mbind at 1, M_bind, mret at 1, M_ret, try_bind at 1, mbind at 1, M_bind, mret at 1, M_ret.
  rewrite Hm. destruct (is_ok_Ok _ (read_task _ Hread r Hin)) as [t0 Et0].
  unfold RestoreCrawlTaskFromSnapshot in Et0. apply res_bind_Ok in Et0 as (id & Eid & _).
  destruct (NewID_ok _ _ Eid) as (-> & _). rewrite Eid.
  destruct (Task_Get_calm (answer_calls up) r a Ht Hr Hread Hin) as (t & _ & _ & E & Hrow & _).
  rewrite (try_run _ _ _ _ _ _ E).
  assert (Hid : value (TID t) = ts_ID r) by (by rewrite <- Hrow).
  case_bool_decide as Hst; [left; exists r; split; [exact Hin|]; split; [done|]; by rewrite <- Hrow|].
  pose proof Hr as (Hf & _). destruct (Hf r Hin) as (jr & Hjr & Hji).
  destruct (Job_Get_calm (answer_calls up) (JobID t) jr (tick a) Ht Hr Hread Hjr) as (j & c & E2 & Hc & Hci);
    [by rewrite Hji, <- Hrow|].
  rewrite (try_run _ _ _ _ _ _ E2).
  destruct (Config_Get_calm (answer_calls up) (JobConfigID j) c (tick (tick a)) Ht Hread Hc Hci) as (k & E3).
  rewrite (try_run _ _ _ _ _ _ E3).
  destruct (Retrieve (MinioObjectKey t) (tick (tick (tick a)))) as [x a4] eqn:E4.
  assert (E4' : x = Ret (Ok html) /\ same_store (tick (tick (tick a))) a4).
  { unfold Retrieve, call, try_bind, mbind, M_bind in E4. rewrite (answer_calls up) in E4. simpl in E4.
    replace (MinioObjectKey t) with (ts_MinioObjectKey r) in E4 by (by rewrite <- Hrow).
    rewrite Hhtml in E4. injection E4 as <- <-. by repeat split. }
  destruct E4' as [-> (Hd4 & Ht4 & _)]. simpl in Hd4, Ht4.
  rewrite (try_run _ _ _ _ _ _ E4), <- Hid.
  apply (parse_page_ends w t k html r); [congruence|by rewrite Hd4|by rewrite Hd4|done].
Qed.

End ParserProgress.

(** ** The system *)

Definition msg_ok (m : message) : bool :=
  match m with MsgCrawl m => crawl_msg_ok m | MsgParsing m => parsing_msg_ok m end.

(** What the continuation needs of a state: rows that can be restored, with valid text and times in
    range; messages that are such too; and fetch workers for the queues of the recovery. *)
Record state_able `{UuidLib, JsonLib} (D : deployment) (s : system) : Prop := {
  able_rows : rows_readable (db (sys_world s));
  able_texts : forall r, r ∈ tasks (db (sys_world s)) ->
    utf8_valid (bytes_of (ts_ID r)) && utf8_valid (bytes_of (ts_JobID r))
    && utf8_valid (bytes_of (ts_URL r)) && time_ok (ts_EnqueuedAt r) = true;
  able_bodies : forall q m, (q, m) ∈ sys_pending s -> msg_ok m = true;
  able_queues : st_availableQueues (dep_recovery D) <> [];
  able_workers : forall q, q ∈ st_availableQueues (dep_recovery D) ->
    exists w, w ∈ dep_fetchers D /\ q ∈ fw_crawlQueues w }.

Section Finish.
Context `{FetchServices, RegexpLib, JsonLib, HtmlLib, MapOrder, CronLib}.

Lemma body_names_task m : msg_ok m = true -> names_task (body_of m) (task_of m).
Proof.
  destruct m as [m|m]; simpl; intros Hok.
  - exists m. split; [by apply Unmarshal_crawl_msg|]. split; [done|]. unfold crawl_msg_ok in Hok.
    rewrite !andb_true_iff in Hok. apply andb_true_iff. tauto.
  - eexists. split; [by apply parsing_msg_as_crawl|]. split; [done|]. unfold parsing_msg_ok in Hok.
    rewrite !andb_true_iff in Hok. apply andb_true_iff. tauto.
Qed.

Lemma body_parses m :
  msg_ok m = true -> exists m', Unmarshal parsing_msg_of_json (body_of m) = Ok m' /\ PTaskID m' = task_of m.
Proof.
  destruct m as [m|m]; simpl; intros Hok; eexists;
    (split; [by (apply crawl_msg_as_parsing || apply Unmarshal_parsing_msg)|done]).
Qed.

(** A pending message can be delivered to a worker that reads its queue. *)
Lemma deliver D s q m c :
  (q, m) ∈ sys_pending s -> subscribes D c q ->
  exists s', sys_step D s s' /\ sys_world s' = set_tx None (handle D c m (sys_world s)).2
    /\ forall p, p ∈ drop (length (published (sys_world s))) (published (handle D c m (sys_world s)).2) ->
         p ∈ sys_pending s'.
Proof.
  intros [i Hi]%list_elem_of_lookup Hc. eexists. split; [by eapply step_kept|]. split; [done|].
  intros p Hp. apply elem_of_app. by right.
Qed.

Hypothesis up : services_answer.

Lemma answers_plain : faults_plain.
Proof. intros n. by rewrite (answer_calls up). Qed.

(** At most [n] steps bring the task to its end. *)
Definition ends_within (n : nat) (D : deployment) (s : system) (id : string) : Prop :=
  exists k s', (k <= n)%nat /\ nsteps (sys_step D) k s s' /\ at_end id (db (sys_world s')).

Lemma ends_more n k D s s' id : nsteps (sys_step D) k s s' -> ends_within n D s' id -> ends_within (k + n) D s id.
Proof.
  intros Hs (j & s2 & Hj & Hs2 & He). exists (k + j)%nat, s2. split; [lia|]. split; [|done].
  by eapply nsteps_trans.
Qed.

(** One delivery to the parser. *)
Lemma parse_stage D s q m r :
  sys_ok D s -> rows_readable (db (sys_world s)) -> r ∈ tasks (db (sys_world s)) ->
  ts_Status r = TaskStatusFetched -> (q, m) ∈ sys_pending s -> subscribes D Parser q ->
  msg_ok m = true -> task_of m = ts_ID r -> ends_within 1 D s (ts_ID r).
Proof.
  intros [Ht Hr Hst _] Hread Hin Hs Hp Hq Hm Hid.
  destruct (deliver D s q m Parser Hp Hq) as (s' & Hstep & Hw & _).
  exists 1%nat, s'. split; [done|]. split; [by apply nsteps_once|]. rewrite Hw. simpl.
  destruct (body_parses m Hm) as (m' & Em & Hm').
  eapply parsing_progress; [exact up|done|done|done|done|exact Em|congruence|].
  apply Hst; [done|by left].
Qed.

(** A delivery to a fetch worker, and then one to the parser. *)
Lemma fetch_stage D s q m w r :
  wired D -> bodies_faithful -> sys_ok D s -> rows_readable (db (sys_world s)) ->
  r ∈ tasks (db (sys_world s)) -> is_ok (rate_host (ts_URL r)) = true ->
  (q, m) ∈ sys_pending s -> subscribes D (Fetcher w) q -> msg_ok m = true -> task_of m = ts_ID r ->
  ends_within 2 D s (ts_ID r).
Proof.
  intros HD Hb Hok Hread Hin Hhost Hp Hq Hm Hid. pose proof Hok as [Ht Hr _ _].
  destruct (deliver D s q m (Fetcher w) Hp Hq) as (s' & Hstep & Hw & Hpend).
  pose proof (body_names_task m Hm) as Hn. rewrite Hid in Hn.
  destruct (fetch_progress up w (body_of m) r (sys_world s) Ht Hr Hread Hin Hn Hhost) as (b & E & Hb').
  change (handle D (Fetcher w) m) with (FetchWorker.handleMessage w (body_of m)) in Hw, Hpend.
  rewrite E in Hw, Hpend. simpl in Hw, Hpend.
  destruct Hb' as [Hf|((r' & Hr' & Hri & Hrs) & Hrd & pm & Hpub & Hpi & Hpo)].
  { exists 1%nat, s'. split; [lia|]. split; [by apply nsteps_once|]. rewrite Hw. by right. }
  apply (ends_more 1 1 D s s' (ts_ID r)); [by apply nsteps_once|]. rewrite <- Hri.
  apply (parse_stage D s' (fw_parsingQueue w) (MsgParsing pm) r').
  - eapply step_ok; [exact HD|exact Hb|exact answers_plain|exact Hstep|exact Hok].
  - rewrite Hw. by apply Hrd.
  - by rewrite Hw.
  - done.
  - apply Hpend. rewrite Hpub, drop_app_length. left.
  - apply HD, Hq.
  - exact Hpo.
  - simpl. congruence.
Qed.

(** A poll of the recovery before them. *)
Lemma recover_stage D s r :
  wired D -> bodies_faithful -> sys_ok D s -> state_able D s ->
  let a := sys_world s in
  r ∈ stale_rows (clock_at (ticks a) - st_staleThreshold (dep_recovery D)) (st_batchSize (dep_recovery D)) (db a) ->
  is_ok (rate_host (ts_URL r)) = true -> ends_within 3 D s (ts_ID r).
Proof.
  intros HD Hb Hok [Hread Htexts _ Hqs Hws] a Hin Hhost. subst a. pose proof Hok as [Ht Hr _ _].
  assert (Hrows : forall t, t ∈ stale_rows (clock_at (ticks (sys_world s)) - st_staleThreshold (dep_recovery D))
                    (st_batchSize (dep_recovery D)) (db (sys_world s)) -> t ∈ tasks (db (sys_world s))).
  { intros t Ht'. unfold stale_rows in Ht'. apply elem_of_limit_rows in Ht'.
    by apply elem_of_order_by, elem_of_bfilter in Ht' as [_ ?]. }
  destruct (recover_run (dep_recovery D) (sys_world s) (answer_calls up) Ht Hqs) as (b & l & E & Htb & Hd & Hp & Hl).
  { intros t Ht'. by apply Hread, Hrows. }
  destruct (Hl r Hin) as (q & k & t & Er & Hm & Hq). destruct (Hws q Hq) as (w & Hw & Hwq).
  set (s1 := run (recover (dep_recovery D)) s).
  assert (Hstep : sys_step D s s1) by apply step_recover.
  assert (Hw1 : sys_world s1 = set_tx None b) by (unfold s1, run; by rewrite E).
  assert (Hp1 : (q, recovery_message (trace_at k) t) ∈ sys_pending s1).
  { unfold s1, run. rewrite E. simpl. apply elem_of_app. right. by rewrite Hp, drop_app_length. }
  assert (Hd1 : db (sys_world s1) = db (sys_world s)) by (by rewrite Hw1).
  apply (ends_more 2 1 D s s1 (ts_ID r)); [by apply nsteps_once|].
  pose proof (restored_row r t Er) as (Hi & He & Hu & _).
  assert (Hj : value (JobID t) = ts_JobID r).
  { unfold RestoreCrawlTaskFromSnapshot, NewCrawlJobID in Er. apply res_bind_Ok in Er as (? & _ & Er).
    apply res_bind_Ok in Er as (? & Ej & [= <-]). simpl. apply res_bind_Ok in Ej as (i & Ej & [= <-]).
    by destruct (NewID_ok _ _ Ej) as (-> & _). }
  apply (fetch_stage D s1 q (recovery_message (trace_at k) t) w r); try done.
  - eapply step_ok; [exact HD|exact Hb|exact answers_plain|exact Hstep|exact Hok].
  - by rewrite Hd1.
  - rewrite Hd1. by apply Hrows.
  - simpl. specialize (Htexts r (Hrows r Hin)). rewrite !andb_true_iff in Htexts.
    destruct Htexts as [[[Hx1 Hx2] Hx3] Hx4]. unfold crawl_msg_ok. simpl.
    by rewrite Hi, Hj, Hu, He, Hx1, Hx2, Hx3, Hx4, (answer_trace up).
Qed.

Lemma can_finish D s r :
  wired D -> bodies_faithful -> sys_ok D s -> state_able D s -> r ∈ tasks (db (sys_world s)) ->
  is_ok (rate_host (ts_URL r)) = true ->
  keeps_messages D /\ ts_Status r = TaskStatusFetched
  \/ r ∈ stale_rows (clock_at (ticks (sys_world s)) - st_staleThreshold (dep_recovery D))
           (st_batchSize (dep_recovery D)) (db (sys_world s)) ->
  ends_within 3 D s (ts_ID r).
Proof.
  intros HD Hb Hok Hable Hin Hhost [[Hbr Hs]|Hs]; [|by apply recover_stage].
  destruct (ok_message D s Hok r Hin Hs) as [_ Hmsg]. destruct (Hmsg Hbr) as (q & m & Hp & (c & Hc) & Hid).
  pose proof (able_bodies D s Hable q m Hp) as Hm. pose proof (able_rows D s Hable) as Hread.
  assert (Hend : ends_within 2 D s (ts_ID r)).
  { destruct c as [w|].
    - by eapply fetch_stage.
    - destruct (parse_stage D s q m r) as (k & s' & Hk & ?); [done..|]. exists k, s'. split; [lia|done]. }
  destruct Hend as (k & s' & Hk & ?). exists k, s'. split; [lia|done].
Qed.

End Finish.

(** The program's own HTTP fetcher and robots.txt service answer while no context ends, whatever
    [net/http], Redis and the sites do. *)
Lemma http_services_answer {U : UuidLib} (E : Env) `{HttpClient, RedisLib, RobotsLib}
    (s : CachedRobotsTxtService) (limiter : CrawlJobConfig -> string -> string -> M (res (bool * Z)))
    (Hk : forall c k h, keeps same_store (limiter c k h)) :
  (forall n, verdict_at n = Succeeds) -> (forall n, time_ok (clock_at n) = true) ->
  (forall n, smap_utf8 (trace_at n) = true) -> (forall n d, ctx_done n d = false) ->
  (forall c k h a, exists d b, limiter c k h a = (Ret (Ok (true, d)), b)) ->
  @services_answer U E (cached_robots s) (@http_services U E (cached_robots s) _ limiter Hk).
Proof.
  intros Hv Hc Ht Hctx Hl. split; [done|done|done| |exact Hl|].
  - intros u agent a. destruct (IsAllowed s u agent a) as [o b] eqn:Eo. revert Eo. simpl. unfold IsAllowed.
    destruct (url_Parse u) as [p|e]; [|intros _; by eexists _, _].
    rewrite (bind_ret _ _ _ _ _ (observe_ret _ a)). cbv beta zeta.
    case_bool_decide; [|intros _; by eexists _, _].
    rewrite (bind_ret _ _ _ _ _ (observe_ret _ (tick a))). cbv beta.
    destruct (fetchRobotsTxt _ _); intros _; by eexists _, _.
  - intros auth p u a. simpl. unfold Fetch.
    destruct (Z.to_nat (MaxAttempts (retryPolicy (NewHTTPFetcher auth p)))) as [|todo] eqn:En.
    { eexists (Err (exhausted_error _ _)), _. split; [reflexivity|].
      by rewrite exhausted_is_exhausted, orb_true_r. }
    edestruct (fetch_loop_outcome (NewHTTPFetcher auth p) u (S todo)) as (k & r & b & _ & Er & _ & _ & Hd);
      [lia|]. exists r, b. split; [exact Er|]. destruct r as [x|e]; [done|]. unfold decides in Hd.
    destruct (doFetch _ _ _); [done|].
    destruct (isRetryableError _); [|injection Hd as ->; by rewrite permanent_is_permanent].
    destruct (S k =? _)%nat; [injection Hd as ->; by rewrite exhausted_is_exhausted, orb_true_r|].
    destruct Hd as [Hdone _]. by rewrite Hctx in Hdone.
Qed.

Section Recovered.
Context {U : UuidLib} {RE : RegexpLib} {J : JsonLib} {HL : HtmlLib} {MO : MapOrder} {CL : CronLib}.
Context (E1 E2 : Env) (R1 : @RobotsTxtService U E1) (R2 : @RobotsTxtService U E2).
Context (F1 : @FetchServices U E1 R1) (F2 : @FetchServices U E2 R2).


End Recovered.

(** ** A concrete recovery: the state of [System] in which one of two seeds was fetched *)

#[local] Existing Instances any_uuid plain_json no_regexp demo_html plain_order hourly all_answer.

(** Services that answer, with a clock that stands. *)
Definition still_env : @Env any_uuid.
Proof.
  refine (@Build_Env any_uuid (fun _ => Succeeds) (fun _ => Hour) (fun n => "u" +:+ pretty n)
            (fun _ _ => 0) (fun _ _ => false) (fun _ => ∅) _ _).
  - intros n. by split.
  - intros _ k Hk. lia.
Defined.

Definition still_robots : @RobotsTxtService any_uuid still_env.
Proof.
  refine {| robots_IsAllowed _ _ := mret (Ok true) |}. intros. apply keeps_ret; exact _.
Defined.

Definition still_services : @FetchServices any_uuid still_env still_robots.
Proof.
  refine {| ratelimit_Allow _ _ _ := mret (Ok (true, 0));
            fetcher_Fetch _ _ u := mret (Ok {| Body := "<html>"; ContentType := "text/html";
                                               StatusCode := 200; ResFinalURL := u |}) |};
    intros; apply keeps_ret; exact _.
Defined.

Lemma still_answer : @services_answer any_uuid still_env still_robots still_services.
Proof.
  split; try done.
  - intros u a b. by eexists _, _.
  - intros c k h a. by eexists _, _.
  - intros c p u a. eexists _, a. split; [reflexivity|exact I].
Qed.

Lemma demo_able : state_able demo_deployment demo_crawled.
Proof.
  assert (Hall : forall {A} (f : A -> bool) l, forallb f l = true -> forall x, x ∈ l -> f x = true).
  { intros A f l Hf x Hx. rewrite forallb_forall in Hf. by apply Hf, list_elem_of_In. }
  split.
  - split; apply Hall; vm_compute; reflexivity.
  - apply (Hall _ (fun r => utf8_valid (bytes_of (ts_ID r)) && utf8_valid (bytes_of (ts_JobID r))
                     && utf8_valid (bytes_of (ts_URL r)) && time_ok (ts_EnqueuedAt r))).
    vm_compute. reflexivity.
  - intros q m Hm. apply (Hall _ (fun p => msg_ok p.2) (sys_pending demo_crawled)) in Hm; [exact Hm|].
    vm_compute. reflexivity.
  - discriminate.
  - intros q ->%list_elem_of_singleton. exists demo_fetch_worker. split; left.
Qed.

