(* ===== verification/Exported.v ===== *)
(** * Finished jobs are exported

    The progress of the export worker: without faults a poll exports every job of its batch.  With
    [Progress] it closes the way of a job from its seeds to its reports. *)

From S2P Require Import Prelude GoStrings Domain Json Converters Restored World Sql Repos Routing Outbox.
From S2P Require Import GoUrl Scope FetchWorker Extraction ParserWorker ExportWorker JobService Pagination.
From S2P Require Import Scheduler Progress.

Section ExportProgress.
Context `{Env, JsonLib}.
Hypothesis calm : forall n, verdict_at n = Succeeds.

(** In a transaction or without one, as long as it is not aborted. *)
Definition tx_usable (w : world) : Prop := tx w = None \/ tx w = Some false.

Lemma stmt_run {A} (f : nat -> database -> res (A * database)) w x d :
  tx_usable w -> f (ticks w) (db w) = Ok (x, d) -> stmt f w = (Ret (Ok x), set_db d (tick w)).
Proof. intros Ht E. unfold stmt. simpl. destruct Ht as [-> | ->]; by rewrite calm, E. Qed.

Lemma tasks_listed id w :
  tx_usable w -> (forall t, t ∈ tasks (db w) -> is_ok (RestoreCrawlTaskFromSnapshot t) = true) ->
  exists ts, Task_ListByJob id w = (Ret (Ok ts), tick w).
Proof.
  intros Ht Hread. unfold Task_ListByJob, scan_all, query.
  erewrite try_run by (by apply stmt_run). destruct (map_res_total RestoreCrawlTaskFromSnapshot
    (order_by by_enqueued (bfilter (fun t => bool_decide (ts_JobID t = value id)) (tasks (db w)))))
    as (ts & E & _).
  { intros t [_ Hin]%elem_of_order_by%elem_of_bfilter. by apply Hread. }
  exists ts. unfold lift_res. rewrite E. by destruct w.
Qed.

Lemma reports_stored id rs w :
  exists now, generateJSONReport id rs w
    = (Ret (Ok (json_key id)),
       put_object (json_key id) (marshal_indent (json_report id now rs)) (tick (tick w)))
  /\ forall w, generateCSVReport id rs w
       = (Ret (Ok (csv_key id)), put_object (csv_key id) (csv_text rs) (tick w)).
Proof.
  exists (clock_at (ticks w)). split; [|intros w'];
    unfold generateJSONReport, generateCSVReport, time_Now, Store, call, try_bind, mbind, M_bind; simpl;
    by rewrite calm.
Qed.

(** The references of a job's row do not change when it is exported. *)
Lemma exported_refs jk ck now j d :
  job_refs_ok (SaveCrawlJobToSnapshot (MarkAsExported jk ck now j)) d = job_refs_ok (SaveCrawlJobToSnapshot j) d.
Proof.
  unfold job_refs_ok, SaveCrawlJobToSnapshot. simpl.
  by destruct (JobConfig j) as [c|]; [destruct (SaveCrawlJobConfigToSnapshot c)|].
Qed.

(** The rows of the job are exported and its reports stored. *)
Record job_done (id : string) (w : world) : Prop := {
  done_row : existsb (is_job id) (jobs (db w)) = true;
  done_rows : forall x, x ∈ jobs (db w) -> js_ID x = id ->
    js_ExportStatus x = Some ExportStatusCompleted /\ js_ExportJSONKey x = Some (json_key (MkID id))
    /\ js_ExportCSVKey x = Some (csv_key (MkID id));
  done_json : has_json (tasks (db w)) (objects w) id;
  done_csv : has_csv (tasks (db w)) (objects w) id }.

(** What the export of a job needs. *)
Record exportable (j : CrawlJob) (d : database) : Prop := {
  exp_storable : storable j;
  exp_row : existsb (is_job (value (JID j))) (jobs d) = true;
  exp_refs : job_refs_ok (SaveCrawlJobToSnapshot j) d = Ok tt }.

Lemma existsb_update (p q : CrawlJobSnapshot -> bool) g l :
  (forall x, q (g x) = q x) -> existsb q (update_where p g l) = existsb q l.
Proof.
  intros Hg. unfold update_where. induction l as [|x l IH]; [done|]. rewrite fmap_cons. simpl. rewrite IH.
  destruct (p x); by rewrite ?Hg.
Qed.

(** The update of one job leaves another exportable and done. *)
Lemma exportable_kept i e j d :
  exportable j d -> exportable j (upd_jobs (update_where (is_job i) (set_job e)) d).
Proof. intros [Hs Hr Hf]. split; [done| |exact Hf]. simpl. by rewrite existsb_update. Qed.

(** The reports of the other jobs stay where they are. *)
Definition others_kept (i : string) (a b : world) : Prop :=
  forall id, id <> i -> objects b !! json_key (MkID id) = objects a !! json_key (MkID id)
                        /\ objects b !! csv_key (MkID id) = objects a !! csv_key (MkID id).

Lemma processJob_calm j w :
  tx_usable w -> (forall t, t ∈ tasks (db w) -> is_ok (RestoreCrawlTaskFromSnapshot t) = true) ->
  exportable j (db w) ->
  exists w' e, processJob j w = (Ret (Ok tt), w') /\ tx w' = tx w
    /\ db w' = upd_jobs (update_where (is_job (value (JID j))) (set_job e)) (db w)
    /\ others_kept (value (JID j)) w w' /\ job_done (value (JID j)) w'.
Proof.
  intros Ht Hread [Hst Hrow Hrefs]. unfold processJob.
  destruct (tasks_listed (JID j) w Ht Hread) as [ts Ets]. rewrite (try_run _ _ _ _ _ _ Ets).
  destruct (Task_ListByJob_any (JID j) w) as (r & w1 & E1 & _ & _ & _ & Hl).
  rewrite Ets in E1. injection E1 as <- <-. specialize (Hl ts eq_refl).
  destruct (loadTaskResults_out ts (tick w)) as (rs & w2 & E2 & (Hd2 & Ht2 & Ho2 & _) & Hrs).
  rewrite (bind_ret _ _ _ _ _ E2). simpl in Hd2, Ht2, Ho2.
  assert (Hcov : covers (tasks (db w)) (value (JID j)) rs) by (by eapply covers_results).
  destruct (reports_stored (JID j) rs w2) as (now & E3 & E4).
  rewrite (try_run _ _ _ _ _ _ E3), (try_run _ _ _ _ _ _ (E4 _)).
  set (w4 := put_object _ _ _). unfold time_Now. rewrite (bind_ret _ _ _ _ _ (observe_ret _ _)).
  set (j' := MarkAsExported _ _ _ j). set (e := SaveCrawlJobToSnapshot j').
  destruct (storable_columns j' Hst) as (Eid & Es & Ejk & Eck). fold e in Eid, Es, Ejk, Eck. simpl in Eid.
  assert (E5 : Job_Update j' (tick w4)
               = (Ret (Ok tt), set_db (upd_jobs (update_where (is_job (js_ID e)) (set_job e)) (db w)) (tick (tick w4)))).
  { unfold Job_Update. apply stmt_run; [unfold tx_usable, w4; simpl; by rewrite Ht2|].
    unfold w4. simpl. rewrite Hd2. fold e. rewrite Eid, Hrow. unfold e, j'. by rewrite exported_refs, Hrefs. }
  rewrite (try_run _ _ _ _ _ _ E5). eexists _, e. split; [done|]. split; [exact Ht2|].
  rewrite Eid. split; [done|]. assert (Em : MkID (value (JID j)) = JID j) by (by destruct (JID j)).
  split.
  { intros id Hne. simpl. rewrite <- Ho2. split; rewrite !lookup_insert_ne; try done;
      intros Ek; first [apply json_key_inj in Ek|apply csv_key_inj in Ek|by apply json_csv_key in Ek
                       |symmetry in Ek; by apply json_csv_key in Ek];
      apply Hne; by rewrite Ek. }
  split; simpl.
  - by rewrite existsb_update.
  - intros x (x0 & -> & Hx0)%list_elem_of_fmap Hx. unfold is_job in *.
    case_bool_decide as Hid; [|done]. simpl. by rewrite Es, Ejk, Eck, Em.
  - exists now, rs. split; [exact Hcov|]. rewrite Em, lookup_insert_ne, lookup_insert_eq; [done|].
    intros Ek. symmetry in Ek. by apply json_csv_key in Ek.
  - exists rs. split; [exact Hcov|]. rewrite Em. apply lookup_insert_eq.
Qed.

(** A job that is done stays so while another is exported. *)
Lemma job_done_kept id j w w' e :
  job_done id w -> others_kept (value (JID j)) w w' ->
  db w' = upd_jobs (update_where (is_job (value (JID j))) (set_job e)) (db w) ->
  job_done (value (JID j)) w' -> job_done id w'.
Proof.
  intros Hd Hk Hdb Hj. destruct (decide (id = value (JID j))) as [->|Hne]; [done|].
  destruct Hd as [Hr Hrs Hjs Hcs]. destruct (Hk id Hne) as [Ekj Ekc].
  assert (Ht : tasks (db w') = tasks (db w)) by (by rewrite Hdb). split.
  - rewrite Hdb. simpl. by rewrite existsb_update.
  - intros x Hx Hid. rewrite Hdb in Hx. apply list_elem_of_fmap in Hx as (x0 & -> & Hx0). unfold is_job in *.
    case_bool_decide as Hi; [simpl in Hid; congruence|]. by apply Hrs.
  - destruct Hjs as (now & rs & Hc & Ho). exists now, rs. by rewrite Ht, Ekj.
  - destruct Hcs as (rs & Hc & Ho). exists rs. by rewrite Ht, Ekc.
Qed.

Lemma export_jobs_calm js : forall w,
  tx_usable w -> (forall t, t ∈ tasks (db w) -> is_ok (RestoreCrawlTaskFromSnapshot t) = true) ->
  (forall j, j ∈ js -> exportable j (db w)) ->
  exists w', for_all (fun job => processJob job ≫= fun _ => mret tt) js w = (Ret tt, w') /\ tx w' = tx w
    /\ (forall id, job_done id w -> job_done id w') /\ forall j, j ∈ js -> job_done (value (JID j)) w'.
Proof.
  induction js as [|j js IH]; intros w Ht Hread Hjs; cbn [for_all].
  { exists w. split; [done|]. split; [done|]. split; [done|]. intros j Hj. by inversion Hj. }
  destruct (processJob_calm j w Ht Hread) as (w1 & e & E & Ht1 & Hd1 & Hk1 & Hdone); [apply Hjs; left|].
  assert (Eb : (processJob j ≫= fun _ => mret tt) w = (Ret tt, w1)) by (by rewrite (bind_ret _ _ _ _ _ E)).
  rewrite (bind_ret _ _ _ _ _ Eb).
  destruct (IH w1) as (w2 & E2 & Ht2 & Hk2 & Hj2).
  - unfold tx_usable. by rewrite Ht1.
  - by rewrite Hd1.
  - intros j' Hj'. rewrite Hd1. apply exportable_kept, Hjs. by right.
  - exists w2. split; [exact E2|]. split; [congruence|]. split.
    + intros id Hid. apply Hk2. eapply (job_done_kept id j); [done|exact Hk1|exact Hd1|done].
    + intros j' [->|Hj']%elem_of_cons; [by apply Hk2|by apply Hj2].
Qed.

(** The jobs of a batch are restored, each from its row. *)
Lemma batch_restored rows d :
  rows_readable d -> (forall r, r ∈ rows -> r ∈ jobs d /\ job_refs_ok r d = Ok tt) ->
  exists js, scanJobsWithQueueEndpoints (join_config d <$> rows) = Ok js
    /\ (forall j, j ∈ js -> exportable j d) /\ forall r, r ∈ rows -> exists j, j ∈ js /\ value (JID j) = js_ID r.
Proof.
  intros Hread Hrows.
  assert (Hrow : forall r, r ∈ rows -> exists s j, scanCrawlJobWithConfig (join_config d r) = Ok s
            /\ RestoreCrawlJobFromSnapshot s = Ok j /\ value (JID j) = js_ID r /\ exportable j d).
  { intros r Hr. destruct (Hrows r Hr) as [Hin Href]. unfold scanCrawlJobWithConfig, join_config, job_config_row. simpl.
    unfold job_refs_ok in Href. destruct (js_JobConfigID r) as [c|] eqn:Ec; [|done].
    destruct (existsb _ (configs d)) eqn:Ex; [|done].
    apply existsb_exists in Ex as (c0 & Hc0 & Hi0). apply list_elem_of_In in Hc0.
    destruct (head (bfilter (fun r => bool_decide (cs_ID r = c)) (configs d))) as [c1|] eqn:Eh.
    2:{ apply head_None in Eh. assert (Hi : c0 ∈ bfilter (fun r => bool_decide (cs_ID r = c)) (configs d))
          by (by apply elem_of_bfilter). rewrite Eh in Hi. by inversion Hi. }
    apply head_Some_elem_of, elem_of_bfilter in Eh as [Hi1 Hc1].
    set (cfg := if bool_decide (cs_ID c1 = "") then None else Some c1).
    assert (Hok : is_ok (RestoreCrawlJobFromSnapshot (with_config cfg r)) = true).
    { apply job_restores; [by apply Hread|]. unfold cfg. destruct (bool_decide (cs_ID c1 = "")); [exact I|by apply Hread]. }
    apply is_ok_Ok in Hok as [j Hj]. exists (with_config cfg r), j. split; [done|]. split; [done|].
    assert (Hid : value (JID j) = js_ID r /\ null_id (JobConfigID j) = js_JobConfigID r
                  /\ null_id (JUserID j) = js_UserID r) by (by (destruct (restored_job_ids _ _ Hj) as (? & ? & ? & _))).
    destruct Hid as (Hid & Hci & Hui). split; [done|]. split.
    - by eapply restored_storable.
    - rewrite Hid. apply existsb_exists. exists r. split; [by apply list_elem_of_In|]. by apply bool_decide_eq_true.
    - destruct (Hrows r Hr) as [_ Href']. rewrite <- Href'. unfold job_refs_ok, SaveCrawlJobToSnapshot.
      destruct (JobConfig j); [destruct (SaveCrawlJobConfigToSnapshot _)|]; simpl; by rewrite Hci, Hui. }
  destruct (map_res_total scanCrawlJobWithConfig (join_config d <$> rows)) as (ss & Es & Hss).
  { intros x (r & -> & Hr)%list_elem_of_fmap. by destruct (Hrow r Hr) as (s & j & -> & _). }
  assert (Hs : forall s, s ∈ ss -> exists r, r ∈ rows /\ scanCrawlJobWithConfig (join_config d r) = Ok s).
  { intros s Hs. destruct (map_res_elem _ _ _ _ Es Hs) as (x & Hx & Ex).
    apply list_elem_of_fmap in Hx as (r & -> & Hr). by exists r. }
  destruct (map_res_total RestoreCrawlJobFromSnapshot ss) as (js & Ej & Hjs).
  { intros s Hin. destruct (Hs s Hin) as (r & Hr & Er). destruct (Hrow r Hr) as (s' & j & Er' & Ej & _).
    rewrite Er in Er'. injection Er' as <-. by rewrite Ej. }
  exists js. split; [unfold scanJobsWithQueueEndpoints; by rewrite Es|]. split.
  - intros j Hj. destruct (map_res_elem _ _ _ _ Ej Hj) as (s & Hin & Er). destruct (Hs s Hin) as (r & Hr & Esr).
    destruct (Hrow r Hr) as (s' & j' & Er' & Ej' & _ & He). rewrite Esr in Er'. injection Er' as <-.
    rewrite Er in Ej'. by injection Ej' as <-.
  - intros r Hr. destruct (Hrow r Hr) as (s & j & Er & Ej' & Hid & _).
    destruct (Hss (join_config d r)) as (s' & Hin & Er'); [by apply list_elem_of_fmap_2|].
    rewrite Er in Er'. injection Er' as <-. destruct (Hjs s Hin) as (j' & Hj' & Ej2).
    rewrite Ej' in Ej2. injection Ej2 as <-. by exists j.
Qed.

(** C10: finished jobs are exported.  While database and object store answer, one poll of the export
    worker exports every job of its batch (the eligible jobs that no other worker has locked, as many
    as the batch holds): its row is Completed and names both reports, and these are in the store and
    list the tasks of the job with their statuses.  Every row must be one that can be restored
    ([rows_readable]: a row that cannot be fails the whole poll) and every job must satisfy its foreign
    keys ([job_refs_ok]). *)
Theorem exports_complete batchSize a :
  tx a = None -> rows_readable (db a) -> (forall r, r ∈ jobs (db a) -> job_refs_ok r (db a) = Ok tt) ->
  exists b, processEligibleJobs batchSize a = (Ret tt, b) /\ tx b = None
    /\ forall r, r ∈ eligible_rows (S (ticks a)) batchSize (db a) -> job_done (js_ID r) b.
Proof.
  intros Ht Hread Hrefs. set (w := set_tx (Some false) (tick a)).
  set (rows := eligible_rows (S (ticks a)) batchSize (db a)).
  destruct (batch_restored rows (db a) Hread) as (js & Ejs & Hexp & Hcov).
  { intros r Hr. unfold rows, eligible_rows in Hr. apply elem_of_limit_rows in Hr.
    apply elem_of_order_by, elem_of_bfilter in Hr as [_ Hin]. split; [done|by apply Hrefs]. }
  assert (El : Job_ListEligibleForExport batchSize w = (Ret (Ok js), tick w)).
  { unfold Job_ListEligibleForExport, query_jobs, query.
    erewrite try_run by (apply stmt_run; [by right|reflexivity]).
    unfold lift_res. unfold rows in Ejs. simpl. by rewrite Ejs. }
  destruct (export_jobs_calm js (tick w)) as (w1 & E1 & Ht1 & _ & Hdone); [by right|by apply Hread|done|].
  assert (Eb : export_batch batchSize w = (Ret (Ok tt), w1)).
  { unfold export_batch. rewrite (try_run _ _ _ _ _ _ El), (bind_ret _ _ _ _ _ E1). done. }
  exists (set_tx None (tick w1)). unfold processEligibleJobs, mbind, M_bind, ReadCommitted.
  rewrite Ht, calm. fold w. rewrite Eb. unfold Commit. simpl in Ht1. rewrite Ht1, calm.
  split; [done|]. split; [done|]. intros r Hr. destruct (Hcov r Hr) as (j & Hj & <-).
  destruct (Hdone j Hj) as [A B C D]. by split.
Qed.

End ExportProgress.

(** ** A concrete export: the job of [ExportWorker], whose one task was parsed *)

#[local] Existing Instances any_uuid plain_env plain_json.

Lemma exports_complete_witness :
  exists b, processEligibleJobs 10 demo_parsed = (Ret tt, b) /\ tx b = None
    /\ exists r, r ∈ jobs (db demo_parsed) /\ job_done (js_ID r) b.
Proof.
  assert (Hall : forall {A} (f : A -> bool) l, forallb f l = true -> forall x, x ∈ l -> f x = true).
  { intros A f l Hf x Hx. rewrite forallb_forall in Hf. by apply Hf, list_elem_of_In. }
  assert (Hc : forall n, @verdict_at any_uuid plain_env n = Succeeds) by (intros n; reflexivity).
  destruct (exports_complete Hc 10 demo_parsed) as (b & E & Ht & Hd).
  - reflexivity.
  - split; apply Hall; vm_compute; reflexivity.
  - intros r Hr. apply (Hall _ (fun r => is_ok (job_refs_ok r (db demo_parsed)))) in Hr;
      [|vm_compute; reflexivity].
    destruct (job_refs_ok r (db demo_parsed)) as [[]|e]; [reflexivity|discriminate Hr].
  - exists b. split; [exact E|]. split; [exact Ht|].
    destruct (eligible_rows (S (ticks demo_parsed)) 10 (db demo_parsed)) as [|r l] eqn:El;
      [vm_compute in El; discriminate El|].
    exists r. split; [|apply Hd; left].
    assert (Hr : r ∈ eligible_rows (S (ticks demo_parsed)) 10 (db demo_parsed)) by (rewrite El; left).
    unfold eligible_rows in Hr. apply elem_of_limit_rows in Hr.
    by apply elem_of_order_by, elem_of_bfilter in Hr as [_ ?].
Defined.
